(* ===== verification/_CoqProject ===== *)
-Q . S2P
Prelude.v
GoStd.v
GoJson.v
OsFiles.v
RecordDir.v
Envelope.v
PriorityQueue.v
Authority.v
Manager.v
Backoff.v
Ledger.v
Journal.v
Spool.v
Inventory.v
InventoryRegistry.v
Placement.v
GoTime.v
GoFloat.v
GoRaw.v
JsonOrder.v
ControlDb.v
CommandEvents.v
HostTrust.v
SessionRegistry.v
Receipts.v
Execution.v
Verification.v
HostInventory.v
Outbox.v
Contract.v
ContractProofs.v
MessageReceiver.v
ControlFrames.v
CommandSteps.v
LeaseEvents.v
CommandDelivery.v
DeliverySteps.v
HostSteps.v
ControlPlane.v
Maintenance.v
ResultFlow.v
ExecModule.v
Dispatcher.v
CommandFlow.v
Outbound.v
Delivery.v
GatewayRoute.v
TokenProtect.v
Publisher.v
DeliveryFlow.v
Northbound.v
ImageCatalog.v
ImageProofs.v
Wire.v
Limiter.v
GatewayServer.v
OvnPlan.v
OvnRuntime.v
OvnDemo.v
OvnProofs.v
NetworkResource.v
NetworkRuns.v
NetworkSchema.v
NetworkProgress.v
NetworkDemo.v
NetworkProofs.v
NetworkWorker.v
HostRuntime.v
HostRuntimeProofs.v
HostRuntimeDrain.v
