(* ===== verification/Prelude.v ===== *)
(** * KVM Infrastructure Manager: verification development

    The program is a control plane over PostgreSQL that runs virtual machines
    on Linux hosts, and the Agent it puts on each of them.  This library
    translates the part of it that decides what may be done to a Host, carries
    that decision there and back, and publishes what came of it; then the
    declared resources built on the same tables (Images, Networks).

    ** How the parts fit together

    An Agent connects to a Gateway; the Gateway admits its session in the
    database, which numbers sessions by generation.  An operator enrols the
    Host, binds a credential, and arms a mutation authority for the exact
    session, credential, capability and readiness it was granted on; any change
    of these fences it.  A Command is leased under that authority, dispatched to
    the Agent (directly, or through outbox, bus and Gateway inbox), recorded in
    the Agent's journal before a typed backend runs, and its Result goes through
    the Agent's spool back to the Gateway, whose transaction consumes the lease
    and moves the command.  An unclear outcome makes the command UNKNOWN, and
    only verification evidence moves it on.  Images are ingested by such
    commands; Networks are realized in OVN by a worker of their own.

    ** Files, and the code they model (paths under src/)

    Foundations.  [Prelude]: errors, results, guards, machine integers, sorting,
    transactions, record updates, tactics and hint databases.  [GoStd]: strconv,
    hex, sha256, base64.  [GoJson]: encoding/json, writing and reading, typed
    decoding of structs.  [GoTime]: time.Time and RFC 3339.  [GoFloat]: float64
    in JSON.  [GoRaw]: json.RawMessage and map[string]any.  [JsonOrder]: decoding
    is independent of the order of members (jsonb).  [OsFiles], [RecordDir]:
    directories under failing system calls and crashes: a directory is its
    current entries and those it may still have after a crash, a file its data
    and whether they were synced; a crash keeps any of these entries and tears
    data that were not synced, and only fsync of the file and of the directory
    take such possibilities away ([survives]).  All of these are executable; a state is a record, a table a [gmap], a call a function to a
    [res], an effect over a directory or a database explicit state passing.

    The Agent (internal/agent).  [Envelope], [PriorityQueue], [Authority],
    [Manager]: session/envelope.go, queue.go, authority.go, manager.go.
    [Backoff]: reconnect/backoff.go.  [Ledger]: sessiongeneration/ledger.go.
    [Journal]: executionjournal/journal.go.  [Spool]: spool/spool.go.
    [Inventory], [InventoryRegistry]: inventory/model.go, registry.go.
    [ExecModule]: execution/module.go.  [Wire]: transport/wire/frame.go and
    session/admission.go.  [HostRuntime] puts these together: the process
    (hostruntime/runtime.go) and the three loops of a session
    (session/runner.go), interleaved at their critical sections;
    [HostRuntimeProofs] and [HostRuntimeDrain] are the theorems about it.

    The Gateway (internal/agent/gateway).  [Limiter]: admission.go, preauth.go.
    [Outbound]: outbound_registry.go.  [MessageReceiver], [GatewayServer]:
    message_receiver.go, identity.go, grpc_server.go.

    The control plane (internal/persistence/postgres).  [ControlDb]: the tables
    and their constraints.  [CommandEvents], [Execution], [Verification]:
    execution.go, vm_power_state.go.  [HostTrust]: host_trust_authority.go.
    [SessionRegistry]: session_registry.go.  [Receipts]: agent_receipt.go,
    agent_resync.go.  [HostInventory]: host_inventory.go.  [Outbox]: outbox.go.
    [CommandDelivery]: command_delivery.go.  Over them, proofs only:
    [ControlFrames] (what each transaction leaves alone), [CommandSteps],
    [LeaseEvents], [DeliverySteps], [HostSteps] (invariants and step relations),
    [ControlPlane] (histories), [Maintenance], [ResultFlow].

    Execution (internal/execution, internal/security).  [Contract],
    [ContractProofs]: contract/contract.go.  [Dispatcher]: dispatcher.
    [Delivery], [Publisher], [GatewayRoute]: delivery/message.go, publisher.go,
    gateway.go.  [TokenProtect]: security/tokenprotect.  [CommandFlow] and
    [DeliveryFlow] put the pieces together.

    Placement and resources.  [Placement]: internal/placement/evaluator.go.
    [Northbound]: internal/northbound/resource and postgres/northbound_common.go.
    [ImageCatalog], [ImageProofs]: northbound/image/service.go and
    postgres/northbound_image.go.

    Networks.  [OvnPlan], [OvnRuntime]: internal/network/ovnadapter/network.go
    and what it uses of runtime.go and contract.go; [OvnDemo] is an interpreter
    of its commands, [OvnProofs] what it promises.  [NetworkResource]:
    postgres/network_resource.go; [NetworkRuns] the relation of its transactions
    and the invariant, [NetworkSchema] the constraints of
    db/migrations/077_network_resource_authority.sql, [NetworkProgress] when they succeed, [NetworkDemo]
    concrete tables, [NetworkProofs] the theorems.  [NetworkWorker]:
    internal/network/ovnruntime/network_controller.go.

    ** What the theorems show

    - Authority: an ARMED authority pins the current state of its Host, the
      authorization query is a short condition on it, and fencing leaves nothing
      live ([ControlPlane]).
    - Commands: they follow the lifecycle, which the transactions refine; none
      is dispatched again before the attempt before it is known not to have been
      applied; results need a live lease and are answered once; expiry sweeps
      end ([ControlPlane], [ResultFlow], [Maintenance]).
    - Durability: queue directory, journal and ledger are crash safe call by
      call, with whatever was not synced lost, kept or torn, and what a success
      reports is there after every later crash; a backend runs only on durable
      evidence, a Result is published only after a durable record ([Spool],
      [Journal], [Ledger], [ExecModule]).
    - The Agent's process: a message it sent stays in its spool until it was
      accepted, through any failure and any number of sessions, and a session
      that is answered, in any interleaving, empties the spool ([HostRuntimeProofs],
      [HostRuntimeDrain]).
    - Delivery: what reaches the bus, and what reaches a stream, is a lease the
      tables hold; end to end, a granted lease reaches the stream, where the
      Agent accepts it if its payload kept its digest, and a Result settles its
      command ([GatewayRoute], [DeliveryFlow], [CommandFlow]).
    - Encodings: frames, and with them leases, are read back as they were written
      ([Wire], [ContractProofs]).
    - Connections: what a connection is served and which tables it leaves, which
      Hello is accepted, and that limits bound concurrent admissions ([GatewayServer], [Limiter]).
    - Images: the catalogue publishes what was declared, and evidence decides an
      ingestion ([ImageProofs]).
    - Networks: a segment is held until the switch was seen gone; OVN is changed
      only under a claim and an authorisation on record, and only the switch of
      the plan; an answered turn settles its operation; the constraints of the
      schema hold in every reachable state ([NetworkProofs],
      [OvnProofs], [NetworkWorker]).
    - Placement, queueing: eligibility is a specification of its own, over
      unbounded arithmetic; bulk traffic is not starved ([Placement], [PriorityQueue]).

    Several theorems state what goes wrong: a lost grant locks a Host out, a
    query that fails drops a delivery, a conflict strands a retirement, a backlog
    larger than the queue of a session is never sent.

    ** Bounds and fuel

    Integers are [Z] with the wrap-around of their width written out ([u64],
    [i64]).  The JSON reader takes twice the length of its input and two steps,
    each of which consumes input ([parse_fuel], lemma [cost_write]).
    [Backoff.loop_fuel] is 64: 63 doublings pass any [int64] ([Delay_correct]).
    [lowest_free] takes one step more than there are allocations, each of which
    holds one segment ([a_request_gets_its_segment]).  Sweeps, histories and
    runs are lists or inductive relations and have no bound; the loop of the
    Agent's [Run] takes a turn for each environment it is given.

    ** Assumptions

    An fsync that succeeds makes durable what it is called for, and a rename
    is atomic.  A transaction runs serially and atomically: those of the program are
    serializable or hold the advisory or row locks of all they touch.  FOR
    UPDATE SKIP LOCKED takes the first row.  [statement_timestamp()] is an
    argument, one for a call.  Not under src/, and so parameters: what
    PostgreSQL returns for a stored jsonb text, the protobuf codec, the AEAD
    cipher, certificates, the bus, ovn-nbctl (class [OvnNorthbound]), typed
    backends.  Each theorem that relies on one has a witness with a concrete
    instance.  ovn-nbctl commands of one turn are not interleaved with those of
    another client.

    ** Not modelled

    Collectors of linuxhost, the typed backends, transports and the process glue
    around them call the operating system or libraries.  [Worker.RunOnce] of
    ovnruntime and the worker runtime are loops over the transactions modelled
    here.  OVN subnets, ports and port bindings, virtual machines, volumes, host
    groups, evacuation, recovery, availability and upgrades are further
    transactions over further tables, and the HTTP API a layer over them. *)

From Stdlib Require Export Ascii String ZArith Lia.
From stdpp Require Export base gmap strings list sorting fin_maps.

#[export] Set Default Goal Selector "!".

Open Scope Z_scope.

Declare Scope go_scope.
Delimit Scope go_scope with go.

(** ** Errors and results *)

(** A Go [error] value.  [fmt.Errorf] keeps its format and operands,
    [errors.New s] is [Errorf s []]; [%w] keeps the wrapped error and
    [errors.Join] its two operands. *)
Inductive goerr :=
| Errorf (format : string) (args : list string)
| Wrapf (format : string) (args : list string) (inner : goerr)
| ErrJoin (left right : goerr).

#[export] Instance goerr_eq_dec : EqDecision goerr.
Proof. solve_decision. Defined.

Definition errors_New (msg : string) : goerr := Errorf msg [].

(** [errors.Is]: identity of the error or of one it wraps. *)
Fixpoint errors_Is (e target : goerr) : bool :=
  bool_decide (e = target) ||
  match e with
  | Errorf _ _ => false
  | Wrapf _ _ inner => errors_Is inner target
  | ErrJoin l r => errors_Is l target || errors_Is r target
  end.

(** A Go call that returns [(value, error)]. *)
Inductive res (A : Type) :=
| Ok (a : A)
| Err (e : goerr).
Arguments Ok {A} a.
Arguments Err {A} e.

#[export] Instance res_eq_dec `{EqDecision A} : EqDecision (res A).
Proof. solve_decision. Defined.

#[export] Instance res_ret : MRet res := fun _ a => Ok a.
#[export] Instance res_bind : MBind res := fun _ _ f m =>
  match m with Ok a => f a | Err e => Err e end.

(** [if cond { return err }] *)
Definition fail_if (cond : bool) (e : goerr) : res unit :=
  if cond then Err e else Ok tt.

Definition is_Ok {A} (r : res A) : bool := match r with Ok _ => true | Err _ => false end.

(** [==] and [!=] on Go strings and integers. *)
Notation "a ==s b" := (String.eqb a b) (at level 70, no associativity) : go_scope.
Notation "a !=s b" := (negb (String.eqb a b)) (at level 70, no associativity) : go_scope.
Notation "a !=z b" := (negb (Z.eqb a b)) (at level 70, no associativity) : go_scope.

(** Byte sequences ([[]byte]) and Go strings are both strings of bytes. *)
Abbreviation bytes := string (only parsing).

(** [len(s)] *)
Definition len (s : string) : Z := Z.of_nat (String.length s).

(** ** Machine integers *)

Definition two64 : Z := 18446744073709551616.
Definition two63 : Z := 9223372036854775808.
Definition MaxUint64 : Z := 18446744073709551615.
Definition MaxInt64 : Z := 9223372036854775807.
Definition MaxInt32 : Z := 2147483647.

(** The value a [uint64] (resp. [int], [int64]) operation stores. *)
Definition u64 (z : Z) : Z := z `mod` two64.
Definition i64 (z : Z) : Z := (z + two63) `mod` two64 - two63.

Definition is_u64 (z : Z) : Prop := 0 <= z < two64.
Definition is_i64 (z : Z) : Prop := - two63 <= z < two63.

Lemma u64_range z : is_u64 (u64 z).
Proof. apply Z.mod_pos_bound. done. Qed.

Lemma i64_range z : is_i64 (i64 z).
Proof.
  unfold is_i64, i64.
  pose proof (Z.mod_pos_bound (z + two63) two64 ltac:(done)).
  unfold two63, two64 in *. lia.
Qed.

Lemma u64_id z : is_u64 z -> u64 z = z.
Proof. apply Z.mod_small. Qed.

Lemma i64_id z : is_i64 z -> i64 z = z.
Proof.
  unfold is_i64, i64. intros. rewrite Z.mod_small; unfold two63, two64 in *; lia.
Qed.

Lemma u64_wrap z : two64 <= z < 2 * two64 -> u64 z = z - two64.
Proof.
  intros. unfold u64. rewrite <- (Z.mod_small (z - two64) two64) by lia.
  rewrite <- (Z_mod_plus_full (z - two64) 1 two64). f_equal; lia.
Qed.

Lemma u64_neg z : - two64 <= z < 0 -> u64 z = z + two64.
Proof.
  intros. unfold u64. rewrite <- (Z.mod_small (z + two64) two64) by lia.
  rewrite <- (Z_mod_plus_full z 1 two64). f_equal; lia.
Qed.

Lemma len_nonneg s : 0 <= len s.
Proof. unfold len. lia. Qed.

Lemma len_app s t : len (s ++ t)%string = len s + len t.
Proof.
  unfold len. rewrite <- Nat2Z.inj_add. f_equal.
  induction s as [|c s IH]; [done|].
  change (S (String.length (s ++ t)) = S (String.length s + String.length t))%nat. by rewrite IH.
Qed.

Lemma string_app_nil_r s : (s ++ "")%string = s.
Proof.
  induction s as [|a s IH]; [done|]. change (String a (s ++ "") = String a s). by rewrite IH.
Qed.

(** ** Tactics and hint databases *)

Create HintDb go.
#[export] Hint Resolve u64_range i64_range len_nonneg : go.
Create Rewrite HintDb goi.
#[export] Hint Rewrite u64_id i64_id using (unfold is_u64, is_i64, two63, two64 in *; lia) : goi.

(** Turn boolean tests in hypotheses and goal into propositions. *)
Ltac bools :=
  repeat match goal with
  | H : _ && _ = true |- _ => apply andb_prop in H as [? ?]
  | H : _ || _ = false |- _ => apply orb_false_elim in H as [? ?]
  | H : negb _ = true |- _ => apply negb_true_iff in H
  | H : negb _ = false |- _ => apply negb_false_iff in H
  | H : (_ =? _)%string = true |- _ => apply String.eqb_eq in H
  | H : (_ =? _)%string = false |- _ => apply String.eqb_neq in H
  | H : (_ =? _)%Z = true |- _ => apply Z.eqb_eq in H
  | H : (_ =? _)%Z = false |- _ => apply Z.eqb_neq in H
  | H : (_ <? _)%Z = true |- _ => apply Z.ltb_lt in H
  | H : (_ <? _)%Z = false |- _ => apply Z.ltb_ge in H
  | H : (_ <=? _)%Z = true |- _ => apply Z.leb_le in H
  | H : (_ <=? _)%Z = false |- _ => apply Z.leb_gt in H
  | H : bool_decide _ = true |- _ => apply bool_decide_eq_true in H
  | H : bool_decide _ = false |- _ => apply bool_decide_eq_false in H
  end.

(** Case analysis on the first test the goal (or a hypothesis) branches on. *)
Ltac split_guard :=
  match goal with
  | |- context [match ?b with _ => _ end] =>
      match type of b with
      | bool => destruct b eqn:?
      | option _ => destruct b eqn:?
      | res _ => destruct b eqn:?
      | prod _ _ => destruct b eqn:?
      end
  end.

Ltac split_guard_in H :=
  match type of H with
  | context [match ?b with _ => _ end] =>
      match type of b with
      | bool => destruct b eqn:?
      | option _ => destruct b eqn:?
      | res _ => destruct b eqn:?
      | prod _ _ => destruct b eqn:?
      end
  end.

Lemma bind_Ok_inv {A B} (m : res A) (f : A -> res B) b :
  (m ≫= f) = Ok b -> exists a, m = Ok a /\ f a = Ok b.
Proof. destruct m; simpl; [eauto|done]. Qed.

Lemma fail_if_Ok_inv b e u : fail_if b e = Ok u -> b = false.
Proof. by destruct b. Qed.

Lemma fail_if_false b e : b = false -> fail_if b e = Ok tt.
Proof. by intros ->. Qed.

Lemma fail_if_pass {B} b e (k : res B) : b = false -> (fail_if b e;; k) = k.
Proof. by intros ->. Qed.

(** Turn a success into the guards it passed. *)
Ltac run_guards :=
  repeat match goal with
  | H : Err _ = Ok _ |- _ => discriminate H
  | H : Ok _ = Err _ |- _ => discriminate H
  | H : Ok _ = Ok _ |- _ => injection H as H
  | H : mbind _ _ = Ok _ |- _ =>
      let a := fresh "a" in let Ha := fresh "Hr" in
      apply bind_Ok_inv in H; destruct H as (a & Ha & H)
  | H : fail_if _ _ = Ok _ |- _ => apply fail_if_Ok_inv in H
  | H : (if ?b then Err _ else _) = Ok _ |- _ =>
      let Hb := fresh "Hb" in destruct b eqn:Hb; [discriminate H|]
  | H : (if ?b then _ else Err _) = Ok _ |- _ =>
      let Hb := fresh "Hb" in destruct b eqn:Hb; [|discriminate H]
  | H : match ?o with Some _ => _ | None => Err _ end = Ok _ |- _ =>
      let Ho := fresh "Ho" in destruct o eqn:Ho; [|discriminate H]
  end; bools.

(** Decide the tests of the goal that the hypotheses decide. *)
Ltac known_tests :=
  repeat match goal with
  | H : ?a <> ?b |- context [(?a =? ?b)%string] => rewrite (proj2 (String.eqb_neq a b) H)
  | H : ?a = ?b |- context [(?a =? ?b)%string] => rewrite (proj2 (String.eqb_eq a b) H)
  | H : ?a = ?b |- context [(?a =? ?b)%Z] => rewrite (proj2 (Z.eqb_eq a b) H)
  | |- context [(?a <? ?b)%Z] =>
      first [rewrite (proj2 (Z.ltb_ge a b)) by lia | rewrite (proj2 (Z.ltb_lt a b)) by lia]
  end.

(** ** Orders and [sort.Slice] *)

(** A comparison accepted by [sort.Slice]: a strict weak order. *)
Class StrictWeak {A} (less : A -> A -> bool) : Prop := {
  less_irrefl x : less x x = false;
  less_cotrans x y z : less x z = true -> less x y = true \/ less y z = true;
  less_asym x y : less x y = true -> less y x = false;
}.

(** [sort.Slice(l, less)].  Insertion keeps the order of equivalent elements;
    [sort.Slice] promises no order for those, and every result below that
    depends on it is stated up to permutation of the input. *)
Fixpoint sort_insert {A} (less : A -> A -> bool) (x : A) (l : list A) : list A :=
  match l with
  | [] => [x]
  | y :: l' => if less y x then y :: sort_insert less x l' else x :: l
  end.

Definition sort_Slice {A} (less : A -> A -> bool) (l : list A) : list A :=
  foldr (sort_insert less) [] l.

(** Ordering by one key, and by a key with ties broken by another order. *)
Definition less_on {A K} (lt : K -> K -> bool) (key : A -> K) (x y : A) : bool :=
  lt (key x) (key y).

Definition less_then {A} (first second : A -> A -> bool) (x y : A) : bool :=
  first x y || (negb (first y x) && second x y).

Section Sorting.
Context {A : Type} (less : A -> A -> bool).

Lemma sort_insert_perm x l : sort_insert less x l ≡ₚ x :: l.
Proof.
  induction l as [|y l IH]; simpl; [done|].
  destruct (less y x); [|done]. rewrite IH. apply perm_swap.
Qed.

Lemma sort_perm l : sort_Slice less l ≡ₚ l.
Proof.
  induction l as [|x l IH]; simpl; [done|]. by rewrite sort_insert_perm, IH.
Qed.

Lemma sort_elem x l : x ∈ sort_Slice less l <-> x ∈ l.
Proof. by rewrite sort_perm. Qed.

Lemma sort_length l : length (sort_Slice less l) = length l.
Proof. apply Permutation_length, sort_perm. Qed.

(** Sorted: nothing later is less than something earlier. *)
Definition sorted_by : list A -> Prop := StronglySorted (fun x y => less y x = false).

Context `{!StrictWeak less}.

Lemma less_ntrans x y z : less y x = false -> less z y = false -> less z x = false.
Proof.
  intros H1 H2. destruct (less z x) eqn:E; [|done].
  destruct (less_cotrans z y x E); congruence.
Qed.

Lemma sort_insert_sorted x l : sorted_by l -> sorted_by (sort_insert less x l).
Proof.
  induction 1 as [|y l Hs IH Hall]; simpl; [repeat constructor|].
  destruct (less y x) eqn:E; constructor; try done.
  - rewrite sort_insert_perm. constructor; [by apply less_asym|done].
  - by constructor.
  - constructor; [done|].
    eapply Forall_impl; [exact Hall|]. intros z Hz. simpl in *. by eapply less_ntrans.
Qed.

Lemma sort_sorted l : sorted_by (sort_Slice less l).
Proof. induction l; simpl; [constructor|by apply sort_insert_sorted]. Qed.

Lemma sort_id l : sorted_by l -> sort_Slice less l = l.
Proof.
  induction 1 as [|x l Hs IH Hall]; simpl; [done|]. rewrite IH.
  destruct l as [|y l]; simpl; [done|]. inversion Hall; subst. by rewrite H1.
Qed.

Lemma sort_idemp l : sort_Slice less (sort_Slice less l) = sort_Slice less l.
Proof. apply sort_id, sort_sorted. Qed.

(** Distinct elements of [l] are never tied. *)
Definition untied (l : list A) : Prop :=
  forall x y, x ∈ l -> y ∈ l -> less x y = false -> less y x = false -> x = y.

Lemma sorted_perm_eq l1 l2 :
  untied l1 -> l1 ≡ₚ l2 -> sorted_by l1 -> sorted_by l2 -> l1 = l2.
Proof.
  intros Hu Hp H1. revert l2 Hp. induction H1 as [|x l1 Hs1 IH Hall1]; intros l2 Hp H2.
  { by apply Permutation_nil_l. }
  inversion H2 as [|y l2' Hs2 Hall2]; subst.
  { by apply Permutation_nil_r in Hp. }
  assert (x = y) as ->.
  { rewrite Forall_forall in Hall1. rewrite Forall_forall in Hall2.
    assert (x ∈ y :: l2') as Hx by (rewrite <- Hp; by left).
    assert (y ∈ x :: l1) as Hy by (rewrite Hp; by left).
    rewrite elem_of_cons in Hx. destruct Hx as [?|Hx']; [done|].
    rewrite elem_of_cons in Hy. destruct Hy as [?|Hy']; [done|].
    apply Hu; [by left|by right|apply Hall2|apply Hall1]; done. }
  f_equal. apply IH; [|by eapply Permutation_cons_inv|done].
  intros a b Ha Hb. apply Hu; set_solver.
Qed.

(** The result does not depend on the order of the input. *)
Lemma sort_permutation_invariant l1 l2 :
  untied l1 -> l1 ≡ₚ l2 -> sort_Slice less l1 = sort_Slice less l2.
Proof.
  intros Hu Hp. apply sorted_perm_eq; auto using sort_sorted.
  - intros x y Hx Hy. apply Hu; by apply sort_elem.
  - by rewrite !sort_perm.
Qed.
End Sorting.

#[export] Instance less_on_weak {A K} (lt : K -> K -> bool) (key : A -> K) :
  StrictWeak lt -> StrictWeak (less_on lt key).
Proof.
  intros H. unfold less_on. split; intros.
  - apply less_irrefl.
  - by apply less_cotrans.
  - by apply less_asym.
Qed.

#[export] Instance less_then_weak {A} (first second : A -> A -> bool) :
  StrictWeak first -> StrictWeak second -> StrictWeak (less_then first second).
Proof.
  intros H1 H2. unfold less_then. split.
  - intros x. by rewrite !less_irrefl.
  - intros x y z.
    destruct (first x z) eqn:Exz; simpl.
    { intros _. destruct (less_cotrans x y z Exz) as [->| ->]; auto. }
    destruct (first z x) eqn:Ezx; simpl; [done|]. intros Hs.
    destruct (first x y) eqn:Exy; simpl; [by left|].
    destruct (first y z) eqn:Eyz; simpl; [by right|].
    destruct (first y x) eqn:Eyx; simpl.
    { destruct (less_cotrans y z x Eyx); congruence. }
    destruct (first z y) eqn:Ezy; simpl.
    { destruct (less_cotrans z x y Ezy); congruence. }
    by apply less_cotrans.
  - intros x y H. destruct (first x y) eqn:Exy; simpl in *.
    + rewrite (less_asym _ _ Exy). done.
    + destruct (first y x) eqn:Eyx; simpl in *; [done|]. by apply less_asym.
Qed.

#[export] Instance Zltb_weak : StrictWeak Z.ltb.
Proof. split; intros; lia. Qed.

#[export] Instance Zgtb_weak : StrictWeak Z.gtb.
Proof. split; intros; lia. Qed.

Lemma Zltb_tie x y : (x <? y) = false -> (y <? x) = false -> x = y.
Proof. lia. Qed.

Lemma ascii_compare_lt_trans (a b c : ascii) :
  Ascii.compare a b = Lt -> Ascii.compare b c = Lt -> Ascii.compare a c = Lt.
Proof. unfold Ascii.compare. rewrite !N.compare_lt_iff. lia. Qed.

Lemma ascii_compare_refl (a : ascii) : Ascii.compare a a = Eq.
Proof. apply N.compare_refl. Qed.

Lemma ascii_compare_eq (a b : ascii) : Ascii.compare a b = Eq -> a = b.
Proof. apply Ascii.compare_eq_iff. Qed.

Lemma string_ltb_trans x y z :
  String.ltb x y = true -> String.ltb y z = true -> String.ltb x z = true.
Proof.
  unfold String.ltb. revert y z.
  induction x as [|a x IH]; intros [|b y] [|c z]; simpl; try done.
  destruct (Ascii.compare a b) eqn:E1; [apply ascii_compare_eq in E1; subst b| |done].
  - destruct (Ascii.compare a c); [apply IH|done..].
  - destruct (Ascii.compare b c) eqn:E2; [apply ascii_compare_eq in E2; subst c| |done].
    + by rewrite E1.
    + by rewrite (ascii_compare_lt_trans _ _ _ E1 E2).
Qed.

Lemma string_ltb_irrefl x : String.ltb x x = false.
Proof.
  unfold String.ltb. induction x as [|a x IH]; simpl; [done|]. by rewrite ascii_compare_refl.
Qed.

(** Strings compare byte-wise, and untied strings are equal. *)
Lemma string_ltb_tie x y : String.ltb x y = false -> String.ltb y x = false -> x = y.
Proof.
  unfold String.ltb. rewrite (String.compare_antisym y x).
  destruct (String.compare x y) eqn:E; simpl; try done.
  intros _ _. by apply String.compare_eq_iff.
Qed.

#[export] Instance string_ltb_weak : StrictWeak String.ltb.
Proof.
  split.
  - apply string_ltb_irrefl.
  - intros x y z H. destruct (String.ltb x y) eqn:E1; [by left|].
    destruct (String.ltb y z) eqn:E2; [by right|].
    destruct (String.ltb y x) eqn:E3.
    { right. by rewrite <- E2, (string_ltb_trans y x z). }
    pose proof (string_ltb_tie _ _ E1 E3) as ->. congruence.
  - intros x y H. destruct (String.ltb y x) eqn:E; [|done].
    pose proof (string_ltb_trans _ _ _ H E) as H'. by rewrite string_ltb_irrefl in H'.
Qed.

(** [for _, x := range l], stopping at the first error. *)
Fixpoint foldM {A B} (f : B -> A -> res B) (l : list A) (b : B) : res B :=
  match l with
  | [] => Ok b
  | a :: l' => b' ← f b a; foldM f l' b'
  end.

(** How a database transaction ends besides its statements: as they say, with
    an error of the connection and no effect, or committed with its answer
    lost *)
Inductive transaction := Answered | Failed (e : goerr) | Unanswered (e : goerr).
Definition transacted {D A} (outcome : transaction) (r : res (D * A)) (d : D) : D * res A :=
  match outcome, r with
  | Failed e, _ => (d, Err e)
  | _, Err e => (d, Err e)
  | Answered, Ok (d', a) => (d', Ok a)
  | Unanswered e, Ok (d', _) => (d', Err e)
  end.
Lemma transacted_Ok {D A} outcome (r : res (D * A)) d d' a :
  transacted outcome r d = (d', Ok a) -> outcome = Answered /\ r = Ok (d', a).
Proof. destruct outcome, r as [[? ?]|?]; cbn; intros H; by simplify_eq. Qed.

(** ** Record update

    [r <| field := v |>] is [r] with one field replaced.  A record says how to
    rebuild itself ([Eta]); the update of a field is derived from that by
    abstracting the field's projection. *)
Class Eta (R : Type) := eta : R -> R.
Class Update {R A : Type} (field : R -> A) := update : (A -> A) -> R -> R.
Arguments update {R A} field {_} f r.

Ltac derive_update :=
  match goal with
  | |- @Update ?R ?A ?field =>
      let e := constr:(_ : Eta R) in
      let rebuild := eval red in e in
      lazymatch eval pattern field in rebuild with
      | ?with_field _ =>
          let body := eval cbv beta in (fun (f : A -> A) => with_field (fun r => f (field r))) in
          exact body
      end
  end.
#[export] Hint Extern 0 (Update _) => derive_update : typeclass_instances.

Notation "r <| field := v |>" := (update field (fun _ => v) r)
  (at level 1, left associativity, format "r  <|  field  :=  v  |>").
Notation "r <| field ::= f |>" := (update field f r)
  (at level 1, left associativity, format "r  <|  field  ::=  f  |>").
