(* ===== verification/GoStd.v ===== *)
(** * The standard library functions the program computes with

    [strconv] decimal formatting, [encoding/hex], [crypto/sha256] and
    [encoding/base64], as executable functions on byte strings.  The theorems
    are the ones the components need: the length and alphabet of a hex digest,
    and that decoding inverts encoding. *)

From S2P Require Import Prelude.
From Stdlib Require Import DecimalString DecimalN DecimalZ DecimalNat DecimalFacts.

Local Open Scope Z_scope.

(** ** Bytes *)

Definition byte_of (c : ascii) : Z := Z.of_N (N_of_ascii c).
Definition ascii_of (z : Z) : ascii := ascii_of_N (Z.to_N z).

Definition to_bytes (s : string) : list Z := byte_of <$> list_ascii_of_string s.
Definition of_bytes (l : list Z) : string := string_of_list_ascii (ascii_of <$> l).

Lemma byte_of_range c : 0 <= byte_of c < 256.
Proof. unfold byte_of. pose proof (N_ascii_bounded c). lia. Qed.

Lemma ascii_of_byte_of c : ascii_of (byte_of c) = c.
Proof. unfold ascii_of, byte_of. rewrite N2Z.id. apply ascii_N_embedding. Qed.

Lemma byte_of_ascii_of z : 0 <= z < 256 -> byte_of (ascii_of z) = z.
Proof. intros. unfold ascii_of, byte_of. rewrite N_ascii_embedding; lia. Qed.

Lemma of_to_bytes s : of_bytes (to_bytes s) = s.
Proof.
  unfold of_bytes, to_bytes. rewrite <- (string_of_list_ascii_of_string s) at 2. f_equal.
  rewrite <- list_fmap_compose. rewrite <- (list_fmap_id (list_ascii_of_string s)) at 2.
  apply list_fmap_ext. intros. apply ascii_of_byte_of.
Qed.

(** ** strconv *)

(** [strconv.FormatUint(z, 10)] and [%d] of a non-negative integer. *)
Definition FormatUint (z : Z) : string := NilZero.string_of_uint (N.to_uint (Z.to_N z)).
(** [strconv.FormatInt(z, 10)], [strconv.Itoa] and [%d]. *)
Definition FormatInt (z : Z) : string := NilZero.string_of_int (Z.to_int z).

(** [strconv.ParseUint(s, 10, 64)]; [None] stands for its error. *)
Definition ParseUint (s : string) : option Z :=
  match NilZero.uint_of_string s with
  | Some d => let z := Z.of_N (N.of_uint d) in if z <=? MaxUint64 then Some z else None
  | None => None
  end.

(** [strconv.ParseInt(s, 10, 64)] on the sign-and-digits literals JSON has. *)
Definition ParseInt (s : string) : option Z :=
  match NilZero.int_of_string s with
  | Some d =>
      let z := Z.of_int d in
      if (- two63 <=? z) && (z <? two63) then Some z else None
  | None => None
  end.

Lemma revapp_nil (d e : Decimal.uint) : Decimal.revapp d e = Decimal.Nil -> e = Decimal.Nil.
Proof. revert e. induction d; simpl; intros e H; [done|..]; by apply IHd in H. Qed.

Lemma to_uint_nonnil n : N.to_uint n <> Decimal.Nil.
Proof.
  intros H. pose proof (DecimalN.Unsigned.to_of (N.to_uint n)) as Hn.
  rewrite DecimalN.Unsigned.of_to, H in Hn. discriminate Hn.
Qed.

Lemma to_int_nonnil z : Z.to_int z <> Decimal.Pos Decimal.Nil /\ Z.to_int z <> Decimal.Neg Decimal.Nil.
Proof.
  split; intros H; pose proof (DecimalZ.to_of (Z.to_int z)) as Hn;
    rewrite DecimalZ.of_to, H in Hn; discriminate Hn.
Qed.

Lemma ParseUint_FormatUint z : is_u64 z -> ParseUint (FormatUint z) = Some z.
Proof.
  unfold is_u64, two64, ParseUint, FormatUint, MaxUint64. intros Hz.
  rewrite NilZero.usu by apply to_uint_nonnil.
  rewrite DecimalN.Unsigned.of_to, Z2N.id by lia.
  destruct (Z.leb_spec z 18446744073709551615); [done|lia].
Qed.

Lemma ParseInt_FormatInt z : is_i64 z -> ParseInt (FormatInt z) = Some z.
Proof.
  unfold is_i64, ParseInt, FormatInt. intros Hz.
  destruct (to_int_nonnil z). rewrite NilZero.isi by done. rewrite DecimalZ.of_to.
  destruct (Z.leb_spec (- two63) z), (Z.ltb_spec z two63); simpl; lia || done.
Qed.

Lemma FormatUint_inj a b : 0 <= a -> 0 <= b -> FormatUint a = FormatUint b -> a = b.
Proof.
  unfold FormatUint. intros ? ? H.
  apply (f_equal NilZero.uint_of_string) in H. rewrite !NilZero.usu in H by apply to_uint_nonnil.
  injection H as H. apply DecimalN.Unsigned.to_uint_inj in H. lia.
Qed.

Lemma FormatInt_inj a b : FormatInt a = FormatInt b -> a = b.
Proof.
  unfold FormatInt. intros H. apply (f_equal NilZero.int_of_string) in H.
  destruct (to_int_nonnil a), (to_int_nonnil b). rewrite !NilZero.isi in H by done.
  injection H as H. by apply DecimalZ.to_int_inj.
Qed.

(** ** encoding/hex *)

Definition hex_digit (z : Z) : ascii :=
  if z <? 10 then ascii_of (48 + z) else ascii_of (87 + z).

Definition hex_byte (z : Z) : list ascii := [hex_digit (z / 16); hex_digit (z mod 16)].

Definition hex_of_bytes (l : list Z) : string := string_of_list_ascii (l ≫= hex_byte).

(** [hex.EncodeToString] *)
Definition hex_EncodeToString (s : bytes) : string := hex_of_bytes (to_bytes s).

Definition from_hex_digit (c : ascii) : option Z :=
  let z := byte_of c in
  if (48 <=? z) && (z <=? 57) then Some (z - 48)
  else if (97 <=? z) && (z <=? 102) then Some (z - 87)
  else if (65 <=? z) && (z <=? 70) then Some (z - 55)
  else None.

Fixpoint from_hex (l : list ascii) : option (list Z) :=
  match l with
  | [] => Some []
  | a :: b :: l' =>
      match from_hex_digit a, from_hex_digit b, from_hex l' with
      | Some x, Some y, Some r => Some (16 * x + y :: r)
      | _, _, _ => None
      end
  | _ => None
  end.

(** [hex.DecodeString]; [None] stands for its error. *)
Definition hex_DecodeString (s : string) : option bytes :=
  of_bytes <$> from_hex (list_ascii_of_string s).

(** ** crypto/sha256 *)

Section Sha256.
Local Open Scope N_scope.

(** The arithmetic of uint32 *)
Definition word (x : N) : N := N.land x 4294967295.
Definition rotr (n x : N) : N := N.lor (N.shiftr x n) (word (N.shiftl x (32 - n))).
Definition xor3 (x y z : N) : N := N.lxor x (N.lxor y z).

(** First [n] primes from 2. *)
Fixpoint primes_upto (fuel : nat) (p : N) (acc : list N) : list N :=
  match fuel with
  | O => acc
  | S k =>
      if forallb (fun q => negb (p mod q =? 0)) acc
      then primes_upto k (p + 1) (acc ++ [p])
      else primes_upto k (p + 1) acc
  end.

(** Greatest [r < 2 ^ bits] with [r ^ 3 <= x], added bit by bit. *)
Fixpoint cbrt_bits (bits : nat) (x r : N) : N :=
  match bits with
  | O => r
  | S k =>
      let c := r + 2 ^ N.of_nat k in
      cbrt_bits k x (if c * c * c <=? x then c else r)
  end.

(** First 32 fractional bits of the cube (square) roots of primes. *)
Definition round_constants : list N := Eval vm_compute in
  (fun p => word (cbrt_bits 40 (p * 2 ^ 96) 0)) <$> take 64 (primes_upto 320 2 []).
Definition initial_words : list N := Eval vm_compute in
  (fun p => word (N.sqrt (p * 2 ^ 64))) <$> take 8 (primes_upto 320 2 []).

(** The message schedule, from a window of the last sixteen words. *)
Fixpoint schedule (n : nat) (win : list N) : list N :=
  match n with
  | O => []
  | S k =>
      let s0 x := xor3 (rotr 7 x) (rotr 18 x) (N.shiftr x 3) in
      let s1 x := xor3 (rotr 17 x) (rotr 19 x) (N.shiftr x 10) in
      let at' i := nth i win 0 in
      let next := word (s1 (at' 14%nat) + at' 9%nat + s0 (at' 1%nat) + at' 0%nat) in
      at' 0%nat :: schedule k (tail win ++ [next])
  end.

Record hash_state := HS { ha : N; hb : N; hc : N; hd : N; he : N; hf : N; hg : N; hh : N }.

Definition round (s : hash_state) (kw : N * N) : hash_state :=
  let '(HS a b c d e f g h) := s in
  let big1 := xor3 (rotr 6 e) (rotr 11 e) (rotr 25 e) in
  let ch := N.lxor (N.land e f) (N.ldiff g e) in
  let t1 := word (h + big1 + ch + fst kw + snd kw) in
  let big0 := xor3 (rotr 2 a) (rotr 13 a) (rotr 22 a) in
  let maj := xor3 (N.land a b) (N.land a c) (N.land b c) in
  HS (word (t1 + big0 + maj)) a b c (word (d + t1)) e f g.

Definition add_state (s t : hash_state) : hash_state :=
  HS (word (ha s + ha t)) (word (hb s + hb t)) (word (hc s + hc t)) (word (hd s + hd t))
     (word (he s + he t)) (word (hf s + hf t)) (word (hg s + hg t)) (word (hh s + hh t)).

Definition compress (s : hash_state) (block : list N) : hash_state :=
  add_state s (fold_left round (zip round_constants (schedule 64 block)) s).

Fixpoint words_of (l : list Z) : list N :=
  match l with
  | a :: b :: c :: d :: l' =>
      Z.to_N (((a * 256 + b) * 256 + c) * 256 + d) :: words_of l'
  | _ => []
  end.

Definition be32 (x : N) : list Z :=
  let z := Z.of_N x in
  [z / 16777216 mod 256; z / 65536 mod 256; z / 256 mod 256; z mod 256]%Z.

Definition pad (l : list Z) : list Z :=
  let n := Z.of_nat (length l) in
  l ++ [128%Z] ++ replicate (Z.to_nat ((55 - n) mod 64)) 0%Z
    ++ be32 (Z.to_N (8 * n / 2 ^ 32)) ++ be32 (Z.to_N (8 * n mod 2 ^ 32)).

Fixpoint blocks (fuel : nat) (l : list N) (s : hash_state) : hash_state :=
  match fuel, l with
  | S k, _ :: _ => blocks k (drop 16 l) (compress s (take 16 l))
  | _, _ => s
  end.

Definition start_state : hash_state :=
  match initial_words with
  | [a; b; c; d; e; f; g; h] => HS a b c d e f g h
  | _ => HS 0 0 0 0 0 0 0 0
  end.

Definition sum256 (l : list Z) : list Z :=
  let ws := words_of (pad l) in
  let s := blocks (length ws) ws start_state in
  be32 (ha s) ++ be32 (hb s) ++ be32 (hc s) ++ be32 (hd s)
    ++ be32 (he s) ++ be32 (hf s) ++ be32 (hg s) ++ be32 (hh s).
End Sha256.

(** [digest := sha256.Sum256(s); hex.EncodeToString(digest[:])] *)
Definition sha256_hex (s : bytes) : string := hex_of_bytes (sum256 (to_bytes s)).

(** [hex.EncodeToString(digest[:8])] *)
Definition sha256_hex8 (s : bytes) : string := hex_of_bytes (take 8 (sum256 (to_bytes s))).

Example sha256_abc :
  sha256_hex "abc" = "ba7816bf8f01cfea414140de5dae2223b00361a396177a9cb410ff61f20015ad"%string.
Proof. vm_compute. reflexivity. Qed.

Example sha256_empty :
  sha256_hex "" = "e3b0c44298fc1c149afbf4c8996fb92427ae41e4649b934ca495991b7852b855"%string.
Proof. vm_compute. reflexivity. Qed.

Example sha256_two_blocks :
  sha256_hex "abcdbcdecdefdefgefghfghighijhijkijkljklmklmnlmnomnopnopq"
  = "248d6a61d20638b8e5c026930c3e6039a33ce45964ff2167f6ecedd419db06c1"%string.
Proof. vm_compute. reflexivity. Qed.

Lemma sha256_hex_length s : len (sha256_hex s) = 64.
Proof. reflexivity. Qed.
#[export] Hint Rewrite sha256_hex_length : goi.

(** ** encoding/base64 *)

(** The standard alphabet. *)
Definition b64_char (z : Z) : ascii :=
  if z <? 26 then ascii_of (65 + z)
  else if z <? 52 then ascii_of (71 + z)
  else if z <? 62 then ascii_of (z - 4)
  else if z =? 62 then "+"%char else "/"%char.

Definition b64_value (c : ascii) : option Z :=
  let z := byte_of c in
  if (65 <=? z) && (z <=? 90) then Some (z - 65)
  else if (97 <=? z) && (z <=? 122) then Some (z - 71)
  else if (48 <=? z) && (z <=? 57) then Some (z + 4)
  else if z =? 43 then Some 62
  else if z =? 47 then Some 63
  else None.

Fixpoint b64_encode (l : list Z) : list ascii :=
  match l with
  | [] => []
  | [a] => [b64_char (a / 4); b64_char (a mod 4 * 16); "="%char; "="%char]
  | [a; b] =>
      [b64_char (a / 4); b64_char (a mod 4 * 16 + b / 16); b64_char (b mod 16 * 4); "="%char]
  | a :: b :: c :: l' =>
      b64_char (a / 4) :: b64_char (a mod 4 * 16 + b / 16)
        :: b64_char (b mod 16 * 4 + c / 64) :: b64_char (c mod 64) :: b64_encode l'
  end.

(** Decoding of the text without line breaks; unused trailing bits are ignored. *)
Fixpoint b64_decode (l : list ascii) : option (list Z) :=
  match l with
  | [] => Some []
  | a :: b :: c :: d :: l' =>
      match b64_value a, b64_value b with
      | Some x, Some y =>
          let first := x * 4 + y / 16 in
          if (c =? "=")%char then
            if (d =? "=")%char && bool_decide (l' = []) then Some [first] else None
          else
            match b64_value c with
            | Some z =>
                let second := y mod 16 * 16 + z / 4 in
                if (d =? "=")%char then
                  if bool_decide (l' = []) then Some [first; second] else None
                else
                  match b64_value d, b64_decode l' with
                  | Some w, Some r => Some (first :: second :: z mod 4 * 64 + w :: r)
                  | _, _ => None
                  end
            | None => None
            end
      | _, _ => None
      end
  | _ => None
  end.

Definition line_break (c : ascii) : bool :=
  (byte_of c =? 10) || (byte_of c =? 13).

Definition base64_EncodeToString (s : bytes) : string :=
  string_of_list_ascii (b64_encode (to_bytes s)).
Definition base64_DecodeString (s : string) : option bytes :=
  of_bytes <$> b64_decode (filter (fun c => line_break c = false) (list_ascii_of_string s)).

(** [base64.RawURLEncoding.EncodeToString]: the URL alphabet, unpadded. *)
Definition raw_url_char (c : ascii) : ascii :=
  if (c =? "+")%char then "-"%char else if (c =? "/")%char then "_"%char else c.
Definition RawURLEncoding (s : bytes) : string :=
  string_of_list_ascii
    (raw_url_char <$> filter (fun c => c <> "="%char) (b64_encode (to_bytes s))).

(** *** Decoding inverts encoding *)

Definition b64_char_ok (z : Z) : bool :=
  bool_decide (b64_value (b64_char z) = Some z)
  && negb (b64_char z =? "=")%char && negb (line_break (b64_char z)).

Lemma b64_chars_ok : forallb b64_char_ok (seqZ 0 64) = true.
Proof. vm_compute. reflexivity. Qed.

Lemma b64_char_spec z : 0 <= z < 64 ->
  b64_value (b64_char z) = Some z /\ (b64_char z =? "=")%char = false
  /\ line_break (b64_char z) = false.
Proof.
  intros Hz. pose proof b64_chars_ok as H. rewrite forallb_forall in H.
  specialize (H z). unfold b64_char_ok in H.
  assert (In z (seqZ 0 64)) as Hin by (apply list_elem_of_In, elem_of_seqZ; lia).
  apply H in Hin. by bools.
Qed.

Definition is_byte (z : Z) : Prop := 0 <= z < 256.

Lemma to_bytes_bytes s : Forall is_byte (to_bytes s).
Proof.
  unfold to_bytes. induction (list_ascii_of_string s); simpl; constructor; [apply byte_of_range|done].
Qed.

(** Split a goal about the first three bytes with their ranges. *)
Ltac b64_ranges :=
  repeat match goal with
  | |- context [b64_value (b64_char ?z)] =>
      let H := fresh in
      assert (0 <= z < 64) as H by
        (Z.div_mod_to_equations; lia);
      destruct (b64_char_spec z H) as (-> & ? & ?); clear H
  | H : (b64_char ?z =? "=")%char = false |- context [(b64_char ?z =? "=")%char] =>
      rewrite H
  end.

Lemma list3_ind {A} (P : list A -> Prop) :
  P [] -> (forall a, P [a]) -> (forall a b, P [a; b]) ->
  (forall a b c l, P l -> P (a :: b :: c :: l)) -> forall l, P l.
Proof.
  intros H0 H1 H2 H3.
  refine (fix F l := match l with [] => H0 | [a] => H1 a | [a; b] => H2 a b
                     | a :: b :: c :: l' => H3 a b c l' (F l') end).
Qed.

Lemma b64_decode_encode l : Forall is_byte l -> b64_decode (b64_encode l) = Some l.
Proof.
  induction l as [|a|a b|a b c l IH] using list3_ind; rewrite ?Forall_cons; unfold is_byte;
    intros Hl; destruct_and?; cbn [b64_encode b64_decode]; [done|..].
  - b64_ranges. simpl. do 2 f_equal. Z.div_mod_to_equations; lia.
  - b64_ranges. simpl. do 2 f_equal; [|f_equal]; Z.div_mod_to_equations; lia.
  - b64_ranges. rewrite IH by done. do 2 f_equal; [|f_equal; [|f_equal]];
      Z.div_mod_to_equations; lia.
Qed.

Lemma b64_no_breaks l : Forall is_byte l ->
  Forall (fun c => line_break c = false) (b64_encode l).
Proof.
  assert (forall z, 0 <= z < 64 -> line_break (b64_char z) = false) as Hc
    by (intros z Hz; by destruct (b64_char_spec z Hz) as (_ & _ & ?)).
  induction l as [|a|a b|a b c l IH] using list3_ind; rewrite ?Forall_cons; unfold is_byte;
    intros Hl; destruct_and?; simpl; repeat constructor; auto; try (apply Hc; Z.div_mod_to_equations; lia).
Qed.

Lemma filter_all {A} (P : A -> Prop) `{forall x, Decision (P x)} (l : list A) :
  Forall P l -> filter P l = l.
Proof. induction 1; [done|]. rewrite filter_cons_True by done. by f_equal. Qed.

Lemma base64_round_trip s : base64_DecodeString (base64_EncodeToString s) = Some s.
Proof.
  unfold base64_DecodeString, base64_EncodeToString.
  rewrite list_ascii_of_string_of_list_ascii.
  rewrite filter_all by (apply b64_no_breaks, to_bytes_bytes).
  rewrite b64_decode_encode by apply to_bytes_bytes. simpl. by rewrite of_to_bytes.
Qed.

Lemma base64_ascii l : Forall is_byte l -> Forall (fun c => 32 <= byte_of c < 128) (b64_encode l).
Proof.
  assert (forallb (fun z => (32 <=? byte_of (b64_char z)) && (byte_of (b64_char z) <? 128))
            (seqZ 0 64) = true) as Hall by (vm_compute; reflexivity).
  assert (forall z, 0 <= z < 64 -> 32 <= byte_of (b64_char z) < 128) as Hc.
  { intros z Hz. rewrite forallb_forall in Hall. specialize (Hall z).
    assert (In z (seqZ 0 64)) as Hin by (apply list_elem_of_In, elem_of_seqZ; lia).
    apply Hall in Hin. bools. lia. }
  induction l as [|a|a b|a b c l IH] using list3_ind; rewrite ?Forall_cons; unfold is_byte;
    intros Hl; destruct_and?; cbn [b64_encode]; repeat constructor;
    try (apply Hc; Z.div_mod_to_equations; lia); try (vm_compute; intuition congruence); auto.
Qed.

#[global] Arguments base64_EncodeToString : simpl never.
#[global] Arguments base64_DecodeString : simpl never.
#[global] Arguments FormatUint : simpl never.
#[global] Arguments FormatInt : simpl never.
#[global] Arguments ParseUint : simpl never.
#[global] Arguments ParseInt : simpl never.
#[global] Arguments sha256_hex : simpl never.
#[global] Arguments sha256_hex8 : simpl never.
#[global] Arguments hex_EncodeToString : simpl never.
#[global] Arguments hex_DecodeString : simpl never.

(** ** Digests as text *)

Lemma be32_bytes w : Forall is_byte (be32 w).
Proof.
  unfold be32. cbv zeta. repeat constructor; unfold is_byte; apply Z.mod_pos_bound; lia.
Qed.

Lemma sum256_bytes l : Forall is_byte (sum256 l).
Proof. unfold sum256. rewrite !Forall_app. repeat split; apply be32_bytes. Qed.

(** [0-9a-f] *)
Definition hex_char (c : ascii) : Prop := 48 <= byte_of c <= 57 \/ 97 <= byte_of c <= 102.

Lemma hex_digit_char z : 0 <= z < 16 -> hex_char (hex_digit z).
Proof.
  intros H. unfold hex_char, hex_digit.
  destruct (Z.ltb_spec z 10); rewrite byte_of_ascii_of by lia; lia.
Qed.

Lemma hex_of_bytes_chars l : Forall is_byte l -> Forall hex_char (list_ascii_of_string (hex_of_bytes l)).
Proof.
  unfold hex_of_bytes. rewrite list_ascii_of_string_of_list_ascii.
  induction 1 as [|z l Hz Hl IH]; [constructor|]. unfold is_byte in Hz.
  change ((z :: l) ≫= hex_byte) with (hex_byte z ++ (l ≫= hex_byte)).
  apply Forall_app. split; [|done]. constructor; [|constructor; [|constructor]]; apply hex_digit_char.
  - split; [apply Z.div_pos; lia|apply Z.div_lt_upper_bound; lia].
  - apply Z.mod_pos_bound. lia.
Qed.

Lemma sha256_hex_chars s : Forall hex_char (list_ascii_of_string (sha256_hex s)).
Proof. apply hex_of_bytes_chars, sum256_bytes. Qed.

(** A digest starts with a hexadecimal digit. *)
Lemma sha256_hex_head s : exists c rest, sha256_hex s = String c rest /\ hex_char c.
Proof.
  pose proof (sha256_hex_chars s) as H. pose proof (sha256_hex_length s) as Hl.
  destruct (sha256_hex s) as [|c rest]; [done|]. exists c, rest. split; [done|].
  by inversion H.
Qed.

(** Tactics treat digests as opaque; [vm_compute] still evaluates them. *)
#[global] Opaque sha256_hex sha256_hex8.

Example sha256_evaluates : len (sha256_hex "kim") = 64.
Proof. vm_compute. reflexivity. Qed.
