(* ===== verification/GoJson.v ===== *)
(** * encoding/json, as the program uses it

    [marshal] writes a value the way [json.Marshal] does (no white space,
    HTML-safe escapes, invalid UTF-8 replaced by U+FFFD) and [unmarshal] reads
    one value surrounded by white space, as [json.Unmarshal] does, with every
    escape, surrogate pairs included.  Typed decoding of a struct goes through
    [decode_fields]: a key selects a field by name, or failing that by folded
    name; unknown keys are skipped or, with [DisallowUnknownFields], refused.
    The main theorem, [unmarshal_marshal], is the round trip on values whose
    strings are ASCII. *)

From S2P Require Import Prelude GoStd.
From Stdlib Require Import DecimalString.
Local Open Scope Z_scope.

#[local] Set Warnings "-register-all".

(** A JSON value; a number keeps its literal. *)
Inductive json :=
| JNull
| JBool (b : bool)
| JNum (literal : string)
| JStr (s : string)
| JArr (elements : list json)
| JObj (members : list (string * json)).

Definition quote : ascii := Eval compute in ascii_of 34.
Definition backslash : ascii := "\"%char.

(** ** UTF-8 *)

Definition in_range (lo hi : Z) (c : ascii) : bool := (lo <=? byte_of c) && (byte_of c <=? hi).

(** [utf8.DecodeRune] on a first byte of at least 0x80: the rune and the number
    of continuation bytes, or [None] for the one-byte error rune. *)
Definition decode_multibyte (a : ascii) (l : list ascii) : option (Z * nat) :=
  let c := byte_of a in
  let cont := in_range 128 191 in
  match l with
  | b :: l1 =>
      let bits x := byte_of x mod 64 in
      if in_range 194 223 a then
        if cont b then Some (c mod 32 * 64 + bits b, 1%nat) else None
      else
        match l1 with
        | d :: l2 =>
            let second3 := if c =? 224 then in_range 160 191 b
                           else if c =? 237 then in_range 128 159 b else cont b in
            if in_range 224 239 a then
              if second3 && cont d
              then Some ((c mod 16 * 64 + bits b) * 64 + bits d, 2%nat) else None
            else
              match l2 with
              | e :: _ =>
                  let second4 := if c =? 240 then in_range 144 191 b
                                 else if c =? 244 then in_range 128 143 b else cont b in
                  if in_range 240 244 a && second4 && cont d && cont e
                  then Some (((c mod 8 * 64 + bits b) * 64 + bits d) * 64 + bits e, 3%nat)
                  else None
              | [] => None
              end
        | [] => None
        end
  | [] => None
  end.

(** [utf8.AppendRune] *)
Definition encode_rune (r : Z) : list ascii :=
  if r <? 128 then [ascii_of r]
  else if r <? 2048 then [ascii_of (192 + r / 64); ascii_of (128 + r mod 64)]
  else if r <? 65536 then
    [ascii_of (224 + r / 4096); ascii_of (128 + r / 64 mod 64); ascii_of (128 + r mod 64)]
  else
    [ascii_of (240 + r / 262144); ascii_of (128 + r / 4096 mod 64);
     ascii_of (128 + r / 64 mod 64); ascii_of (128 + r mod 64)].

Definition replacement_rune : list ascii := encode_rune 65533.

(** ** Writing *)

Definition unicode_escape (r : Z) : list ascii :=
  [backslash; "u"%char; hex_digit (r / 4096); hex_digit (r / 256 mod 16);
   hex_digit (r / 16 mod 16); hex_digit (r mod 16)].

Definition escape_ascii (a : ascii) : list ascii :=
  let c := byte_of a in
  if (c =? 34) || (c =? 92) then [backslash; a]
  else if c =? 8 then [backslash; "b"%char]
  else if c =? 12 then [backslash; "f"%char]
  else if c =? 10 then [backslash; "n"%char]
  else if c =? 13 then [backslash; "r"%char]
  else if c =? 9 then [backslash; "t"%char]
  else if (c <? 32) || (c =? 60) || (c =? 62) || (c =? 38) then unicode_escape c
  else [a].

(** What to do with the continuation bytes of a rune already decoded. *)
Inductive pending := Copy (n : nat) | Skip (n : nat).

Fixpoint escape_text (p : pending) (l : list ascii) : list ascii :=
  match l with
  | [] => []
  | a :: l' =>
      match p with
      | Copy (S n) => a :: escape_text (Copy n) l'
      | Skip (S n) => escape_text (Skip n) l'
      | _ =>
          if byte_of a <? 128 then escape_ascii a ++ escape_text (Copy 0) l'
          else
            match decode_multibyte a l' with
            | None => unicode_escape 65533 ++ escape_text (Copy 0) l'
            | Some (r, n) =>
                if (r =? 8232) || (r =? 8233) then unicode_escape r ++ escape_text (Skip n) l'
                else a :: escape_text (Copy n) l'
            end
      end
  end.

Definition write_string (s : string) : list ascii :=
  quote :: escape_text (Copy 0) (list_ascii_of_string s) ++ [quote].

Fixpoint write (j : json) : list ascii :=
  match j with
  | JNull => list_ascii_of_string "null"
  | JBool true => list_ascii_of_string "true"
  | JBool false => list_ascii_of_string "false"
  | JNum lit => list_ascii_of_string lit
  | JStr s => write_string s
  | JArr els =>
      "["%char :: (fix elements (first : bool) (l : list json) : list ascii :=
                     match l with
                     | [] => []
                     | e :: l' => (if first then [] else [","%char]) ++ write e ++ elements false l'
                     end) true els ++ ["]"%char]
  | JObj ms =>
      "{"%char :: (fix members (first : bool) (l : list (string * json)) : list ascii :=
                     match l with
                     | [] => []
                     | (k, v) :: l' =>
                         (if first then [] else [","%char])
                           ++ write_string k ++ [":"%char] ++ write v ++ members false l'
                     end) true ms ++ ["}"%char]
  end.

(** [json.Marshal] *)
Definition marshal (j : json) : bytes := string_of_list_ascii (write j).

(** ** Reading *)

Definition is_space (a : ascii) : bool :=
  let c := byte_of a in (c =? 32) || (c =? 9) || (c =? 10) || (c =? 13).

Fixpoint skip_space (l : list ascii) : list ascii :=
  match l with
  | a :: l' => if is_space a then skip_space l' else l
  | [] => []
  end.

Definition hex4 (a b c d : ascii) : option Z :=
  match from_hex_digit a, from_hex_digit b, from_hex_digit c, from_hex_digit d with
  | Some w, Some x, Some y, Some z => Some (((w * 16 + x) * 16 + y) * 16 + z)
  | _, _, _, _ => None
  end.

Definition unescape (a : ascii) : option ascii :=
  let c := byte_of a in
  if (c =? 34) || (c =? 92) || (c =? 47) then Some a
  else if c =? 98 then Some (ascii_of 8)
  else if c =? 102 then Some (ascii_of 12)
  else if c =? 110 then Some (ascii_of 10)
  else if c =? 114 then Some (ascii_of 13)
  else if c =? 116 then Some (ascii_of 9)
  else None.

Definition cons_text (pre : list ascii) (o : option (list ascii * list ascii)) :
  option (list ascii * list ascii) :=
  match o with Some (s, rest) => Some (pre ++ s, rest) | None => None end.

(** The text of a string literal up to its closing quote, and what follows.
    [n] continuation bytes of a valid rune are still to be copied. *)
Fixpoint read_text (n : nat) (l : list ascii) : option (list ascii * list ascii) :=
  match l with
  | [] => None
  | a :: l' =>
      match n with
      | S n' => cons_text [a] (read_text n' l')
      | O =>
          if (a =? quote)%char then Some ([], l')
          else if (a =? backslash)%char then
            match l' with
            | [] => None
            | u :: l0 =>
                if (u =? "u")%char then
                  match l0 with
                  | h1 :: h2 :: h3 :: h4 :: l1 =>
                      match hex4 h1 h2 h3 h4 with
                      | None => None
                      | Some r =>
                          if (55296 <=? r) && (r <=? 56319) then
                            match l1 with
                            | b :: u2 :: g1 :: g2 :: g3 :: g4 :: l2 =>
                                let low := if (b =? backslash)%char && (u2 =? "u")%char
                                           then hex4 g1 g2 g3 g4 else None in
                                match low with
                                | Some r2 =>
                                    if (56320 <=? r2) && (r2 <=? 57343) then
                                      cons_text
                                        (encode_rune (65536 + (r - 55296) * 1024 + (r2 - 56320)))
                                        (read_text 0 l2)
                                    else cons_text replacement_rune (read_text 0 l1)
                                | None => cons_text replacement_rune (read_text 0 l1)
                                end
                            | _ => cons_text replacement_rune (read_text 0 l1)
                            end
                          else if (56320 <=? r) && (r <=? 57343)
                          then cons_text replacement_rune (read_text 0 l1)
                          else cons_text (encode_rune r) (read_text 0 l1)
                      end
                  | _ => None
                  end
                else
                  match unescape u with
                  | Some x => cons_text [x] (read_text 0 l0)
                  | None => None
                  end
            end
          else if byte_of a <? 32 then None
          else if byte_of a <? 128 then cons_text [a] (read_text 0 l')
          else
            match decode_multibyte a l' with
            | Some (_, k) => cons_text [a] (read_text k l')
            | None => cons_text replacement_rune (read_text 0 l')
            end
      end
  end.

(** Number literals: [-? (0 | [1-9][0-9]* ) (. [0-9]+)? ([eE] [+-]? [0-9]+)?] *)
Definition is_digit (a : ascii) : bool := in_range 48 57 a.

Definition number_char (a : ascii) : bool :=
  is_digit a || existsb (fun b => (a =? b)%char) ["-"; "+"; "."; "e"; "E"]%char.

Fixpoint span (p : ascii -> bool) (l : list ascii) : list ascii * list ascii :=
  match l with
  | a :: l' => if p a then (a :: fst (span p l'), snd (span p l')) else ([], l)
  | [] => ([], [])
  end.

Definition digits_then (l : list ascii) : option (list ascii) :=
  match span is_digit l with
  | ([], _) => None
  | (_, rest) => Some rest
  end.

Definition valid_exponent (l : list ascii) : bool :=
  match l with
  | [] => true
  | a :: l' =>
      if (a =? "e")%char || (a =? "E")%char then
        let l'' := match l' with
                   | s :: t => if (s =? "+")%char || (s =? "-")%char then t else l'
                   | [] => []
                   end in
        bool_decide (digits_then l'' = Some [])
      else false
  end.

Definition valid_number (l : list ascii) : bool :=
  let unsigned := match l with a :: t => if (a =? "-")%char then t else l | [] => [] end in
  let after_int := match unsigned with
                   | a :: t => if (a =? "0")%char then Some t else digits_then unsigned
                   | [] => None
                   end in
  match after_int with
  | None => false
  | Some (a :: t) =>
      if (a =? ".")%char
      then match digits_then t with Some t' => valid_exponent t' | None => false end
      else valid_exponent (a :: t)
  | Some [] => true
  end.

Definition read_literal (word : string) (j : json) (l : list ascii) : option (json * list ascii) :=
  let w := list_ascii_of_string word in
  if bool_decide (take (length w) l = w) then Some (j, drop (length w) l) else None.

(** One value at the head of the input, after white space. *)
Fixpoint read (fuel : nat) (l : list ascii) : option (json * list ascii) :=
  match fuel with
  | O => None
  | S k =>
      match skip_space l with
      | [] => None
      | a :: l' =>
          if (a =? quote)%char then
            match read_text 0 l' with
            | Some (s, rest) => Some (JStr (string_of_list_ascii s), rest)
            | None => None
            end
          else if (a =? "[")%char then read_elements k true [] l'
          else if (a =? "{")%char then read_members k true [] l'
          else if (a =? "n")%char then read_literal "null" JNull (a :: l')
          else if (a =? "t")%char then read_literal "true" (JBool true) (a :: l')
          else if (a =? "f")%char then read_literal "false" (JBool false) (a :: l')
          else
            let '(lit, rest) := span number_char (a :: l') in
            if valid_number lit then Some (JNum (string_of_list_ascii lit), rest) else None
      end
  end
with read_elements (fuel : nat) (first : bool) (acc : list json) (l : list ascii) :
  option (json * list ascii) :=
  match fuel with
  | O => None
  | S k =>
      match skip_space l with
      | [] => None
      | a :: l' =>
          if first && (a =? "]")%char then Some (JArr [], l')
          else
            match read k (a :: l') with
            | None => None
            | Some (j, rest) =>
                match skip_space rest with
                | b :: rest' =>
                    if (b =? ",")%char then read_elements k false (j :: acc) rest'
                    else if (b =? "]")%char then Some (JArr (rev (j :: acc)), rest')
                    else None
                | [] => None
                end
            end
      end
  end
with read_members (fuel : nat) (first : bool) (acc : list (string * json)) (l : list ascii) :
  option (json * list ascii) :=
  match fuel with
  | O => None
  | S k =>
      match skip_space l with
      | [] => None
      | a :: l' =>
          if first && (a =? "}")%char then Some (JObj [], l')
          else if (a =? quote)%char then
            match read_text 0 l' with
            | None => None
            | Some (key, l1) =>
                match skip_space l1 with
                | c :: l2 =>
                    if (c =? ":")%char then
                      match read k l2 with
                      | None => None
                      | Some (j, rest) =>
                          let acc' := (string_of_list_ascii key, j) :: acc in
                          match skip_space rest with
                          | b :: rest' =>
                              if (b =? ",")%char then read_members k false acc' rest'
                              else if (b =? "}")%char then Some (JObj (rev acc'), rest')
                              else None
                          | [] => None
                          end
                      end
                    else None
                | [] => None
                end
            end
          else None
      end
  end.

(** Every nested call consumes input, so the length of the input is enough fuel. *)
Definition parse_fuel (l : list ascii) : nat := 2 * length l + 2.

(** [decoder.Decode] of the first value of the input: the value and the rest. *)
Definition decode_value (s : bytes) : option (json * bytes) :=
  let l := list_ascii_of_string s in
  match read (parse_fuel l) l with
  | Some (j, rest) => Some (j, string_of_list_ascii rest)
  | None => None
  end.

(** [decoder.Decode] returns [io.EOF]: nothing but white space is left. *)
Definition at_EOF (s : bytes) : bool :=
  match skip_space (list_ascii_of_string s) with [] => true | _ => false end.

(** [json.Unmarshal] into an untyped value *)
Definition unmarshal (s : bytes) : option json :=
  match decode_value s with
  | Some (j, rest) => if at_EOF rest then Some j else None
  | None => None
  end.

(** ** Round trip *)

Section JsonInd.
Variable P : json -> Prop.
Hypothesis Hnull : P JNull.
Hypothesis Hbool : forall b, P (JBool b).
Hypothesis Hnum : forall lit, P (JNum lit).
Hypothesis Hstr : forall s, P (JStr s).
Hypothesis Harr : forall els, Forall P els -> P (JArr els).
Hypothesis Hobj : forall ms, Forall (fun m => P (snd m)) ms -> P (JObj ms).

Fixpoint json_nested_ind (j : json) : P j :=
  match j with
  | JNull => Hnull
  | JBool b => Hbool b
  | JNum lit => Hnum lit
  | JStr s => Hstr s
  | JArr els =>
      Harr els ((fix go (l : list json) : Forall P l :=
                   match l with
                   | [] => List.Forall_nil _
                   | e :: l' => List.Forall_cons _ e l' (json_nested_ind e) (go l')
                   end) els)
  | JObj ms =>
      Hobj ms ((fix go (l : list (string * json)) : Forall (fun m => P (snd m)) l :=
                  match l with
                  | [] => List.Forall_nil _
                  | m :: l' => List.Forall_cons _ m l' (json_nested_ind (snd m)) (go l')
                  end) ms)
  end.
End JsonInd.

Definition ascii_text (s : string) : Prop :=
  Forall (fun c => byte_of c < 128) (list_ascii_of_string s).

Definition number_text (s : string) : Prop :=
  valid_number (list_ascii_of_string s) = true
  /\ Forall (fun c => number_char c = true) (list_ascii_of_string s).

(** Values whose strings are ASCII and whose numbers are number literals. *)
Fixpoint plain (j : json) : Prop :=
  match j with
  | JNum lit => number_text lit
  | JStr s => ascii_text s
  | JArr els => foldr (fun e acc => plain e /\ acc) True els
  | JObj ms => foldr (fun m acc => ascii_text (fst m) /\ plain (snd m) /\ acc) True ms
  | _ => True
  end.

Definition write_elements : bool -> list json -> list ascii :=
  fix elements (first : bool) (l : list json) : list ascii :=
    match l with
    | [] => []
    | e :: l' => (if first then [] else [","%char]) ++ write e ++ elements false l'
    end.

Definition write_members : bool -> list (string * json) -> list ascii :=
  fix members (first : bool) (l : list (string * json)) : list ascii :=
    match l with
    | [] => []
    | (k, v) :: l' =>
        (if first then [] else [","%char])
          ++ write_string k ++ [":"%char] ++ write v ++ members false l'
    end.

Lemma write_arr els : write (JArr els) = "["%char :: write_elements true els ++ ["]"%char].
Proof. reflexivity. Qed.

Lemma write_obj ms : write (JObj ms) = "{"%char :: write_members true ms ++ ["}"%char].
Proof. reflexivity. Qed.

Lemma read_escape_ascii a l : byte_of a < 128 ->
  read_text 0 (escape_ascii a ++ l) = cons_text [a] (read_text 0 l).
Proof.
  destruct a as [[] [] [] [] [] [] [] []]; intros H;
    first [exfalso; vm_compute in H; discriminate H | reflexivity].
Qed.

Lemma read_escape_text s rest : Forall (fun c => byte_of c < 128) s ->
  read_text 0 (escape_text (Copy 0) s ++ quote :: rest) = Some (s, rest).
Proof.
  induction 1 as [|a s Ha Hs IH]; [reflexivity|].
  cbn [escape_text]. destruct (Z.ltb_spec (byte_of a) 128); [|lia].
  rewrite <- app_assoc, read_escape_ascii, IH by done. done.
Qed.

Lemma span_all p l rest :
  Forall (fun c => p c = true) l -> (forall a, head rest = Some a -> p a = false) ->
  span p (l ++ rest) = (l, rest).
Proof.
  intros H Hrest. induction H as [|a l Ha Hl IH]; cbn [app span].
  - destruct rest as [|a r]; [done|]. cbn. by rewrite (Hrest a).
  - by rewrite Ha, IH.
Qed.

Definition separator (rest : list ascii) : Prop :=
  forall a, head rest = Some a -> number_char a = false.

Lemma separator_nil : separator [].
Proof. done. Qed.
Lemma separator_comma l : separator (","%char :: l).
Proof. intros a [= <-]. done. Qed.
Lemma separator_bracket l : separator ("]"%char :: l).
Proof. intros a [= <-]. done. Qed.
Lemma separator_brace l : separator ("}"%char :: l).
Proof. intros a [= <-]. done. Qed.
#[export] Hint Resolve separator_nil separator_comma separator_bracket separator_brace : go.

Lemma number_text_head lit : number_text lit ->
  exists a t, list_ascii_of_string lit = a :: t /\ number_char a = true.
Proof.
  intros [Hv Hc]. destruct (list_ascii_of_string lit) as [|a t]; [done|].
  inversion Hc; subst. eauto.
Qed.

(** The dispatch of [read] on the first byte of a number. *)
Lemma number_char_dispatch a : number_char a = true ->
  is_space a = false /\ (a =? quote)%char = false /\ (a =? "[")%char = false
  /\ (a =? "{")%char = false /\ (a =? "n")%char = false /\ (a =? "t")%char = false
  /\ (a =? "f")%char = false /\ (a =? "]")%char = false.
Proof. destruct a as [[] [] [] [] [] [] [] []]; done. Qed.

Lemma write_head j : plain j ->
  exists a t, write j = a :: t /\ is_space a = false /\ (a =? "]")%char = false.
Proof.
  destruct j as [|[]|lit|s|els|ms]; intros Hp; try (eexists _, _; split; [reflexivity|done]).
  cbn [write plain] in *. destruct (number_text_head lit Hp) as (a & t & -> & Ha).
  destruct (number_char_dispatch a Ha) as (? & _ & _ & _ & _ & _ & _ & ?). eauto.
Qed.

Lemma skip_space_write j l : plain j -> skip_space (write j ++ l) = write j ++ l.
Proof. intros Hp. destruct (write_head j Hp) as (a & t & -> & Ha & _). simpl. by rewrite Ha. Qed.

(** Fuel a value needs. *)
Fixpoint cost (j : json) : nat :=
  match j with
  | JArr els => S (foldr (fun e acc => S (Nat.max (cost e) acc)) 1%nat els)
  | JObj ms => S (foldr (fun m acc => S (Nat.max (cost (snd m)) acc)) 1%nat ms)
  | _ => 1%nat
  end.

(** [read] returns [j] from its text whatever follows. *)
Definition reads_back (j : json) : Prop :=
  forall fuel rest, plain j -> (cost j <= fuel)%nat -> separator rest ->
  read fuel (write j ++ rest) = Some (j, rest).

Lemma read_unfold k l :
  read (S k) l =
  match skip_space l with
  | [] => None
  | a :: l' =>
      if (a =? quote)%char then
        match read_text 0 l' with
        | Some (s, rest) => Some (JStr (string_of_list_ascii s), rest)
        | None => None
        end
      else if (a =? "[")%char then read_elements k true [] l'
      else if (a =? "{")%char then read_members k true [] l'
      else if (a =? "n")%char then read_literal "null" JNull (a :: l')
      else if (a =? "t")%char then read_literal "true" (JBool true) (a :: l')
      else if (a =? "f")%char then read_literal "false" (JBool false) (a :: l')
      else
        let '(lit, rest) := span number_char (a :: l') in
        if valid_number lit then Some (JNum (string_of_list_ascii lit), rest) else None
  end.
Proof. reflexivity. Qed.

Lemma read_number fuel lit rest : number_text lit -> separator rest ->
  read (S fuel) (list_ascii_of_string lit ++ rest) = Some (JNum lit, rest).
Proof.
  intros Hlit Hsep. rewrite read_unfold. destruct (number_text_head lit Hlit) as (a & t & E & Ha).
  destruct (number_char_dispatch a Ha) as (H1 & H2 & H3 & H4 & H5 & H6 & H7 & _).
  rewrite E. cbn [app skip_space]. rewrite H1, H2, H3, H4, H5, H6, H7.
  change (a :: t ++ rest) with ((a :: t) ++ rest). rewrite <- E.
  destruct Hlit as [Hv Hall]. rewrite span_all by done.
  by rewrite Hv, string_of_list_ascii_of_string.
Qed.

Lemma read_string fuel s rest : ascii_text s ->
  read (S fuel) (write_string s ++ rest) = Some (JStr s, rest).
Proof.
  intros Hs. rewrite read_unfold. unfold write_string. cbn [app skip_space is_space].
  change (is_space quote) with false. cbv iota. rewrite <- app_assoc. cbn [app].
  rewrite read_escape_text by done. by rewrite string_of_list_ascii_of_string.
Qed.

Lemma read_elements_write els : forall e fuel first acc rest,
  Forall reads_back (e :: els) -> plain (JArr (e :: els)) ->
  (cost (JArr (e :: els)) <= S fuel)%nat ->
  read_elements fuel first acc (write e ++ write_elements false els ++ "]"%char :: rest)
  = Some (JArr (rev acc ++ e :: els), rest).
Proof.
  induction els as [|e' els IH]; intros e fuel first acc rest HF Hp Hf;
    apply Forall_cons in HF as [He HF]; cbn in Hp, Hf;
    (destruct fuel as [|fuel]; [lia|]); destruct (write_head e) as (a & t & E & _ & Hb); try tauto;
    cbn [read_elements]; rewrite skip_space_write by tauto.
  - rewrite E at 1. cbn [app]. rewrite Hb, andb_false_r.
    change (a :: t ++ write_elements false [] ++ "]"%char :: rest)
      with ((a :: t) ++ "]"%char :: rest).
    rewrite <- E, He; [|tauto|lia|by cbn; auto with go]. cbn.
    done.
  - rewrite E at 1. cbn [app]. rewrite Hb, andb_false_r.
    rewrite app_comm_cons, <- E.
    change (write_elements false (e' :: els)) with (","%char :: write e' ++ write_elements false els).
    rewrite He; [|tauto|lia|by cbn; auto with go]. cbn [app skip_space].
    change (is_space ",") with false; cbv iota; change ("," =? ",")%char with true; cbv iota.
    rewrite <- app_assoc, IH; [|done|cbn; tauto|cbn; lia].
    cbn. by rewrite <- app_assoc.
Qed.

Lemma read_members_write ms : forall k v fuel first acc rest,
  Forall (fun m => reads_back (snd m)) ((k, v) :: ms) -> plain (JObj ((k, v) :: ms)) ->
  (cost (JObj ((k, v) :: ms)) <= S fuel)%nat ->
  read_members fuel first acc
    (write_string k ++ ":"%char :: write v ++ write_members false ms ++ "}"%char :: rest)
  = Some (JObj (rev acc ++ (k, v) :: ms), rest).
Proof.
  induction ms as [|[k' v'] ms IH]; intros k v fuel first acc rest HF Hp Hf;
    apply Forall_cons in HF as [He HF]; cbn in Hp, Hf, He;
    (destruct fuel as [|fuel]; [lia|]); cbn [read_members]; unfold write_string at 1;
    cbn [app skip_space]; change (is_space quote) with false; cbv iota;
    change (quote =? "}")%char with false; rewrite andb_false_r; cbv iota;
    change (quote =? quote)%char with true; cbv iota;
    rewrite <- app_assoc; cbn [app]; rewrite read_escape_text by tauto;
    cbn [skip_space]; change (is_space ":") with false; cbv iota;
    change (":" =? ":")%char with true; cbv iota; rewrite string_of_list_ascii_of_string.
  - rewrite He; [|tauto|lia|by cbn; auto with go]. cbn. done.
  - change (write_members false ((k', v') :: ms))
      with (","%char :: write_string k' ++ [":"%char] ++ write v' ++ write_members false ms).
    rewrite He; [|tauto|lia|by cbn; auto with go]. cbn [app skip_space].
    change (is_space ",") with false; cbv iota; change ("," =? ",")%char with true; cbv iota.
    repeat (rewrite <- app_assoc; cbn [app]).
    rewrite IH; [|done|cbn; tauto|cbn; lia].
    cbn. by rewrite <- app_assoc.
Qed.

Lemma read_bracket k l : read (S k) ("["%char :: l) = read_elements k true [] l.
Proof. reflexivity. Qed.

Lemma read_brace k l : read (S k) ("{"%char :: l) = read_members k true [] l.
Proof. reflexivity. Qed.

Lemma read_write j : reads_back j.
Proof.
  induction j as [| [] |lit|s|els IH|ms IH] using json_nested_ind;
    intros [|fuel] rest Hp Hf Hsep; try (cbn in Hf; lia); try reflexivity.
  - by apply read_number.
  - by apply read_string.
  - rewrite write_arr, <- app_comm_cons, <- app_assoc, read_bracket.
    destruct els as [|e els].
    { destruct fuel; [cbn in Hf; lia|reflexivity]. }
    cbn [write_elements app]. rewrite <- app_assoc. by rewrite read_elements_write.
  - rewrite write_obj, <- app_comm_cons, <- app_assoc, read_brace.
    destruct ms as [|[k v] ms].
    { destruct fuel; [cbn in Hf; lia|reflexivity]. }
    cbn [write_members app]. repeat (rewrite <- app_assoc; cbn [app]).
    by rewrite read_members_write.
Qed.

(** The fuel of [decode_value] is enough for any text [write] produces. *)
Lemma cost_write j : plain j -> (cost j <= 2 * length (write j))%nat.
Proof.
  induction j as [| [] |lit|s|els IH|ms IH] using json_nested_ind; intros Hp; try (cbn; lia).
  - cbn in *. destruct (number_text_head lit Hp) as (a & t & -> & _). cbn. lia.
  - rewrite write_arr. cbn [length]. rewrite length_app. cbn.
    enough (forall f, foldr (fun e acc => S (Nat.max (cost e) acc)) 1 els
              <= 1 + 2 * length (write_elements f els))%nat as H by (specialize (H true); lia).
    cbn in Hp. induction IH as [|e els He HF IH']; intros f; cbn in *; [lia|].
    rewrite !length_app. destruct (write_head e) as (a & t & E & _); [tauto|].
    specialize (IH' ltac:(tauto) false). specialize (He ltac:(tauto)).
    rewrite E in *. cbn in *. lia.
  - rewrite write_obj. cbn [length]. rewrite length_app. cbn.
    enough (forall f, foldr (fun m acc => S (Nat.max (cost (snd m)) acc)) 1 ms
              <= 1 + 2 * length (write_members f ms))%nat as H by (specialize (H true); lia).
    cbn in Hp. induction IH as [|[k v] ms He HF IH']; intros f; [cbn; lia|].
    change (write_members f ((k, v) :: ms)) with ((if f then [] else [","%char])
      ++ write_string k ++ [":"%char] ++ write v ++ write_members false ms).
    cbn [foldr snd fst] in *. rewrite !length_app. cbn [length].
    specialize (IH' ltac:(tauto) false). specialize (He ltac:(tauto)). lia.
Qed.

Lemma decode_value_marshal j rest : plain j -> separator (list_ascii_of_string rest) ->
  decode_value (marshal j ++ rest) = Some (j, rest).
Proof.
  intros Hp Hs. unfold decode_value, marshal.
  assert (list_ascii_of_string (string_of_list_ascii (write j) ++ rest)
          = write j ++ list_ascii_of_string rest) as ->.
  { induction (write j) as [|a l IH]; [done|].
    change (a :: list_ascii_of_string (string_of_list_ascii l ++ rest)
            = a :: (l ++ list_ascii_of_string rest)). by rewrite IH. }
  rewrite read_write; [by rewrite string_of_list_ascii_of_string|done| |done].
  unfold parse_fuel. rewrite length_app. pose proof (cost_write j Hp). lia.
Qed.

(** Reading what was written gives the value back, with or without the
    newline the program appends. *)
Theorem unmarshal_marshal j : plain j -> unmarshal (marshal j) = Some j.
Proof.
  intros Hp. unfold unmarshal. pose proof (decode_value_marshal j "" Hp separator_nil) as H.
  rewrite string_app_nil_r in H. by rewrite H.
Qed.

Definition newline : string := Eval compute in of_bytes [10].

Theorem unmarshal_marshal_line j : plain j -> unmarshal (marshal j ++ newline) = Some j.
Proof.
  intros Hp. unfold unmarshal. rewrite decode_value_marshal; [reflexivity|done|].
  intros a [= <-]. done.
Qed.

(** ** Typed decoding of structs *)

(** [foldName]: ASCII letters in upper case, and the two other runes that fold
    to an ASCII letter (U+017F to S, U+212A to K). *)
Fixpoint fold_name (l : list ascii) : list ascii :=
  match l with
  | [] => []
  | a :: l1 =>
      let c := byte_of a in
      let plain_byte := (if (97 <=? c) && (c <=? 122) then ascii_of (c - 32) else a) in
      match l1 with
      | b :: l2 =>
          if (c =? 197) && (byte_of b =? 191) then "S"%char :: fold_name l2
          else
            match l2 with
            | d :: l3 =>
                if (c =? 226) && (byte_of b =? 132) && (byte_of d =? 170)
                then "K"%char :: fold_name l3
                else plain_byte :: fold_name l1
            | [] => plain_byte :: fold_name l1
            end
      | [] => [plain_byte]
      end
  end.

Definition same_folded (a b : string) : bool :=
  bool_decide (fold_name (list_ascii_of_string a) = fold_name (list_ascii_of_string b)).

(** A struct field: its JSON name and how a value is stored into it; [None] is
    a type error. *)
Definition field (R : Type) : Type := string * (json -> R -> option R).

Definition find_field {R} (fields : list (field R)) (key : string) : option (field R) :=
  match List.find (fun f => (fst f =? key)%string) fields with
  | Some f => Some f
  | None => List.find (fun f => same_folded (fst f) key) fields
  end.

Fixpoint decode_members {R} (strict : bool) (fields : list (field R))
    (ms : list (string * json)) (r : R) : option R :=
  match ms with
  | [] => Some r
  | (k, v) :: ms' =>
      match find_field fields k with
      | Some (_, store) =>
          match store v r with
          | Some r' => decode_members strict fields ms' r'
          | None => None
          end
      | None => if strict then None else decode_members strict fields ms' r
      end
  end.

(** Decoding into a struct; [null] leaves it unchanged. *)
Definition decode_struct {R} (strict : bool) (fields : list (field R)) (j : json) (r : R) :
  option R :=
  match j with
  | JObj ms => decode_members strict fields ms r
  | JNull => Some r
  | _ => None
  end.

(** Fields of the basic types, given the struct's setter. *)
Definition string_field {R} (name : string) (set : string -> R -> R) : field R :=
  (name, fun j r => match j with JStr s => Some (set s r) | JNull => Some r | _ => None end).

Definition uint_field {R} (name : string) (set : Z -> R -> R) : field R :=
  (name, fun j r =>
     match j with
     | JNum lit => match ParseUint lit with Some z => Some (set z r) | None => None end
     | JNull => Some r
     | _ => None
     end).

Definition int_field {R} (name : string) (set : Z -> R -> R) : field R :=
  (name, fun j r =>
     match j with
     | JNum lit => match ParseInt lit with Some z => Some (set z r) | None => None end
     | JNull => Some r
     | _ => None
     end).

(** [[]byte] fields hold base64 text; [null] makes the slice nil. *)
Definition bytes_field {R} (name : string) (set : bytes -> R -> R) : field R :=
  (name, fun j r =>
     match j with
     | JStr s => match base64_DecodeString s with Some b => Some (set b r) | None => None end
     | JNull => Some (set ""%string r)
     | _ => None
     end).

Definition struct_field {R S} (name : string) (strict : bool) (fields : list (field S))
    (get : R -> S) (set : S -> R -> R) : field R :=
  (name, fun j r =>
     match decode_struct strict fields j (get r) with Some s => Some (set s r) | None => None end).

Definition JUint (z : Z) : json := JNum (FormatUint z).
Definition JInt (z : Z) : json := JNum (FormatInt z).
Definition JBytes (b : bytes) : json := JStr (base64_EncodeToString b).

Lemma string_of_uint_digits d : Forall (fun c => is_digit c = true)
  (list_ascii_of_string (NilEmpty.string_of_uint d)).
Proof. induction d; constructor; done. Qed.

Lemma digit_number_char a : is_digit a = true -> number_char a = true.
Proof. unfold number_char. by intros ->. Qed.

Lemma unorm_head d d' : Decimal.unorm d = Decimal.D0 d' -> d' = Decimal.Nil.
Proof.
  unfold Decimal.unorm. intros H. destruct (Decimal.nzhead d) eqn:E; try done.
  - by injection H.
  - by apply DecimalFacts.nzhead_nonzero in E.
Qed.

Lemma to_uint_valid n : valid_number (list_ascii_of_string (NilZero.string_of_uint (N.to_uint n))) = true
  /\ Forall (fun c => is_digit c = true)
       (list_ascii_of_string (NilZero.string_of_uint (N.to_uint n))).
Proof.
  assert (Decimal.unorm (N.to_uint n) = N.to_uint n) as Hn.
  { by rewrite <- DecimalN.Unsigned.to_of, DecimalN.Unsigned.of_to. }
  pose proof (to_uint_nonnil n) as Hnn.
  destruct (N.to_uint n) as [|d|d|d|d|d|d|d|d|d|d] eqn:E; [done|..];
    (split; [|apply (string_of_uint_digits (_ d))]).
  1: { apply unorm_head in Hn as ->. done. }
  all: pose proof (string_of_uint_digits d) as Hd; unfold valid_number, digits_then; cbn;
    rewrite <- (app_nil_r (list_ascii_of_string (NilEmpty.string_of_uint d)));
    rewrite span_all by done; done.
Qed.

Lemma number_text_uint z : number_text (FormatUint z).
Proof.
  unfold number_text, FormatUint. destruct (to_uint_valid (Z.to_N z)) as [Hv Hd].
  split; [done|]. eapply Forall_impl; [exact Hd|]. apply digit_number_char.
Qed.

Lemma number_text_int z : number_text (FormatInt z).
Proof.
  unfold FormatInt. assert (exists n, Z.to_int z = Decimal.Pos (N.to_uint n) \/ Z.to_int z = Decimal.Neg (N.to_uint n))
    as [n H] by (destruct z as [|p|p]; [exists 0%N|exists (Npos p)|exists (Npos p)]; cbn; auto).
  destruct (to_uint_valid n) as [Hv Hd].
  assert (Forall (fun c => number_char c = true)
    (list_ascii_of_string (NilZero.string_of_uint (N.to_uint n)))) as Hc
    by (eapply Forall_impl; [exact Hd|apply digit_number_char]).
  destruct H as [-> | ->]; [by split|]. split; [|constructor; done].
  cbn [NilZero.string_of_int list_ascii_of_string]. revert Hv Hd.
  destruct (list_ascii_of_string (NilZero.string_of_uint (N.to_uint n))) as [|a t]; [done|].
  intros Hv Hd. apply Forall_cons in Hd as [Ha _]. revert Hv. unfold valid_number.
  assert ((a =? "-")%char = false) as ->; [|done].
  clear -Ha. destruct a as [[] [] [] [] [] [] [] []]; done.
Qed.

Lemma ascii_text_base64 b : ascii_text (base64_EncodeToString b).
Proof.
  unfold ascii_text, base64_EncodeToString. rewrite list_ascii_of_string_of_list_ascii.
  eapply Forall_impl; [apply base64_ascii, to_bytes_bytes|]. simpl. lia.
Qed.

#[export] Hint Resolve number_text_uint number_text_int ascii_text_base64 : go.

#[global] Arguments marshal : simpl never.
#[global] Arguments unmarshal : simpl never.

(** [plain] of a written object: ASCII names, and members found among the
    hypotheses or known to be plain. *)
Lemma ascii_textb s : forallb (fun c => byte_of c <? 128) (list_ascii_of_string s) = true -> ascii_text s.
Proof.
  intros H. apply List.Forall_forall. intros c Hc. apply forallb_forall with (x := c) in H; [|done]. lia.
Qed.

Ltac ascii_literal := apply ascii_textb; vm_compute; reflexivity.
Ltac plain_members :=
  cbn [plain foldr fst snd app JUint JInt JBytes];
  repeat match goal with
  | |- _ /\ _ => split
  | |- True => exact Logic.I
  | |- number_text _ => solve [apply number_text_uint | apply number_text_int]
  | |- ascii_text _ => first [assumption | apply ascii_text_base64 | ascii_literal]
  end.
