(* ===== verification/OsFiles.v ===== *)
(** * Durable directories

    A directory is a finite map from names to nodes.  The program changes one
    through system calls, any of which may fail; [io] runs such a sequence,
    keeping every state it passes through.  A state also holds what a crash of
    the machine may leave on disk: each name may go back to what it was at any
    time since the directory was last synced, and a file whose data was not
    synced may hold anything.  Only [SyncFile] and [SyncDir] take such
    possibilities away. *)

From S2P Require Import Prelude.
Local Open Scope Z_scope.

Inductive file_kind := Regular | Directory | OtherKind.
#[export] Instance file_kind_eq_dec : EqDecision file_kind.
Proof. solve_decision. Defined.

(** A directory entry: kind, [Mode().Perm()&0o077 == 0], contents, and whether
    these have reached the disk *)
Record node := Node { kind : file_kind; private : bool; data : bytes; synced : bool }.
Definition settle (n : node) : node := Node (kind n) (private n) (data n) true.

Definition private_file (b : bytes) : node := Node Regular true b true.

(** The entries as the program sees them, and as they were at earlier times
    since the directory was last synced *)
Abbreviation tree := (gmap string node).
Record dir := MkDir { current : tree; unsynced : list tree }.
Coercion current : dir >-> gmap.

(** A directory nothing is pending of, as after a restart of the machine *)
Definition clean (t : tree) : dir := MkDir t [].
#[export] Instance dir_empty : Empty dir := clean ∅.

(** ** Crashes *)

(** What a name may be on disk *)
Definition may_be (d : dir) (name : string) (o : option node) : Prop :=
  exists t, t ∈ current d :: unsynced d /\ t !! name = o.
(** What is found of an entry after a crash *)
Definition torn (o found : option node) : Prop :=
  match o, found with
  | Some n, Some n' => kind n' = kind n /\ private n' = private n /\ synced n' = true /\ (synced n = true -> data n' = data n)
  | None, None => True
  | _, _ => False
  end.
(** The entries a crash may leave, each name on its own *)
Definition survives (d : dir) (c : tree) : Prop := forall name, exists o, may_be d name o /\ torn o (c !! name).

(** ** System calls *)

(** The system calls the program makes on a directory. *)
Inductive syscall :=
| CreateTemp | Chmod | WriteFile | SyncFile | CloseFile | LstatTarget | Rename | Remove
| OpenDir | SyncDir | CloseDir.

(** What the operating system decides for one operation: which calls fail and
    with which error, the unused name [os.CreateTemp] picks, and what a failed
    write leaves in the file. *)
Record os_env := OsEnv {
  fault : syscall -> option goerr;
  tmp_name : string;
  partial : bytes;
}.

(** Every call succeeds. *)
Definition healthy (tmp : string) : os_env := OsEnv (fun _ => None) tmp "".

Definition ErrExist : goerr := errors_New "file already exists".
Definition ErrNotExist : goerr := errors_New "file does not exist".

(** Current directory, states passed through (latest first), and the result. *)
Definition io (A : Type) : Type := dir -> list dir -> dir * list dir * res A.

Definition io_ret {A} (a : A) : io A := fun d tr => (d, tr, Ok a).
Definition io_fail {A} (e : goerr) : io A := fun d tr => (d, tr, Err e).
Definition io_bind {A B} (m : io A) (f : A -> io B) : io B := fun d tr =>
  match m d tr with
  | (d', tr', Ok a) => f a d' tr'
  | (d', tr', Err e) => (d', tr', Err e)
  end.
Definition io_read : io dir := fun d tr => (d, tr, Ok d).

(** [defer cleanup()] around the rest of a function, its error ignored. *)
Definition io_defer {A} (cleanup : io unit) (m : io A) : io A := fun d tr =>
  let '(d1, tr1, r) := m d tr in
  let '(d2, tr2, _) := cleanup d1 tr1 in (d2, tr2, r).

(** [if err := m; err != nil { cleanup(); return err }] *)
Definition io_on_error {A} (cleanup : io unit) (m : io A) : io A := fun d tr =>
  match m d tr with
  | (d1, tr1, Ok a) => (d1, tr1, Ok a)
  | (d1, tr1, Err e) => let '(d2, tr2, _) := cleanup d1 tr1 in (d2, tr2, Err e)
  end.

Declare Scope io_scope.
Delimit Scope io_scope with io.
Notation "x <- m ; k" := (io_bind m (fun x => k))
  (at level 100, m at next level, right associativity) : io_scope.
Notation "m ;; k" := (io_bind m (fun _ => k)) (at level 100, right associativity) : io_scope.

Section Calls.
Context (os : os_env).
Local Open Scope io_scope.

(** A call with no effect on the directory entries. *)
Definition call (c : syscall) : io unit := fun d tr =>
  match fault os c with Some e => (d, tr, Err e) | None => (d, tr, Ok tt) end.

(** A call that changes the directory when it succeeds; a change of the entries,
    which the disk does not have yet *)
Definition mutate (c : syscall) (f : dir -> dir) : io unit := fun d tr =>
  match fault os c with Some e => (d, tr, Err e) | None => (f d, f d :: tr, Ok tt) end.
Definition enter (f : tree -> tree) (d : dir) : dir := MkDir (f (current d)) (current d :: unsynced d).

(** [os.CreateTemp(dir, ".tmp-")]: a new empty file of mode 0600. *)
Definition create_temp : io unit :=
  mutate CreateTemp (enter (fun t => <[tmp_name os := Node Regular true "" false]> t)).

(** [temporary.Write]: a failed write leaves part of the data. *)
Definition write_temp (payload : bytes) : io unit := fun d tr =>
  match fault os WriteFile with
  | Some e =>
      let d' := enter (fun t => <[tmp_name os := Node Regular true (partial os) false]> t) d in (d', d' :: tr, Err e)
  | None =>
      let d' := enter (fun t => <[tmp_name os := Node Regular true payload false]> t) d in (d', d' :: tr, Ok tt)
  end.

(** [temporary.Sync] *)
Definition sync_file : io unit := mutate SyncFile (enter (alter settle (tmp_name os))).

(** [os.Remove(name)] *)
Definition remove_file (name : string) : io unit :=
  d <- io_read;
  match current d !! name with
  | None => io_fail ErrNotExist
  | Some _ => mutate Remove (enter (delete name))
  end.

(** [os.Lstat(target)] as an existence test. *)
Definition lstat_absent (name : string) : io unit :=
  call LstatTarget ;;
  d <- io_read;
  match current d !! name with
  | Some _ => io_fail ErrExist
  | None => io_ret tt
  end.

(** [os.Rename(temporary, target)]: atomic, replaces [target]. *)
Definition rename_temp (target : string) : io unit :=
  d <- io_read;
  match current d !! tmp_name os with
  | None => io_fail ErrNotExist
  | Some n => mutate Rename (enter (fun t => <[target := n]> (delete (tmp_name os) t)))
  end.

(** [temporary.Chmod], [Write], [Sync] and [Close] of the temporary file;
    closing it on a failed path changes nothing. *)
Definition fill_temp (payload : bytes) : io unit :=
  call Chmod ;; write_temp payload ;; sync_file ;; call CloseFile.

(** [os.Open(dir)] and [Sync] of the directory: its entries are on disk. *)
Definition sync_entries : io unit := mutate SyncDir (fun d => clean (current d)).
Definition sync_dir : io unit := call OpenDir ;; sync_entries.
End Calls.

(** ** Reasoning *)

(** A temporary name of [os.CreateTemp(dir, ".tmp-")] *)
Definition temp_prefix (os : os_env) : Prop := String.prefix ".tmp-" (tmp_name os) = true.

Definition all_healthy (os : os_env) : Prop := forall c, fault os c = None.

(** *** What survives *)

Lemma torn_settle o : torn o (settle <$> o).
Proof. by destruct o. Qed.
Lemma torn_synced n found : torn (Some n) found -> synced n = true -> found = Some n.
Proof.
  destruct found as [n'|]; [|done]. destruct n, n'. cbn. intros (-> & -> & -> & H) ->. by rewrite H.
Qed.

Lemma may_be_current d name : may_be d name (current d !! name).
Proof. exists (current d). split; [by left|done]. Qed.
Lemma survives_current d : survives d (settle <$> current d).
Proof. intros name. exists (current d !! name). split; [apply may_be_current|]. rewrite lookup_fmap. apply torn_settle. Qed.

Lemma may_be_enter f d name o : may_be (enter f d) name o <-> f (current d) !! name = o \/ may_be d name o.
Proof.
  split.
  - intros (t & Ht & E). apply elem_of_cons in Ht as [->|Ht]; [by left|]. right. by exists t.
  - intros [E|(t & Ht & E)]; [exists (f (current d)); split; [by left|done]|exists t; split; [by right|done]].
Qed.
Lemma may_be_clean t name o : may_be (clean t) name o <-> t !! name = o.
Proof.
  split; [intros (t' & [->|[]%elem_of_nil]%elem_of_cons & E); done|]. intros E. exists t. split; [by left|done].
Qed.

(** The entries [c], but what the directory has now for some names *)
Definition but_for (d : dir) (names : list string) (c : tree) : tree :=
  foldr (fun name c => partial_alter (fun _ => settle <$> current d !! name) name c) c names.
Lemma but_for_lookup d names c name : but_for d names c !! name =
  if decide (name ∈ names) then settle <$> current d !! name else c !! name.
Proof.
  induction names as [|x names IH]; [by rewrite decide_False by (by intros ?%elem_of_nil)|].
  change (but_for d (x :: names) c) with (partial_alter (fun _ => settle <$> current d !! x) x (but_for d names c)).
  destruct (decide (x = name)) as [->|Hne].
  - rewrite lookup_partial_alter_eq, decide_True by (by left). done.
  - rewrite lookup_partial_alter_ne, IH by done. apply decide_ext. rewrite elem_of_cons. split; [by right|].
    intros [?|?]; congruence || done.
Qed.
Lemma but_for_survives d names c : (forall name, name ∉ names -> exists o, may_be d name o /\ torn o (c !! name)) ->
  survives d (but_for d names c).
Proof.
  intros H name. rewrite but_for_lookup. case_decide; [|by apply H].
  exists (current d !! name). split; [apply may_be_current|apply torn_settle].
Qed.

(** Removing a file *)
Lemma removed_survives d name c : survives (enter (delete name) d) c ->
  exists c0, survives d c0 /\ (c = c0 \/ c = delete name c0).
Proof.
  intros Hc. destruct (Hc name) as (o & Ho & Ht).
  assert (forall name' o, name' <> name -> may_be (enter (delete name) d) name' o -> may_be d name' o) as Hother.
  { intros name' o' Hne [E|?]%may_be_enter; [|done]. rewrite lookup_delete_ne in E by done. subst o'. apply may_be_current. }
  apply may_be_enter in Ho as [E|Ho].
  - rewrite lookup_delete_eq in E. subst o. exists (but_for d [name] c). split; [|right].
    + apply but_for_survives. intros name' Hn. rewrite list_elem_of_singleton in Hn.
      destruct (Hc name') as (o' & Ho' & Ht'). exists o'. split; [by apply Hother|done].
    + apply map_eq. intros name'. destruct (decide (name = name')) as [<-|Hne].
      * rewrite lookup_delete_eq. by destruct (c !! name).
      * rewrite lookup_delete_ne, but_for_lookup, decide_False by (done || by intros ?%list_elem_of_singleton). done.
  - exists c. split; [|by left]. intros name'. destruct (decide (name' = name)) as [->|Hne]; [by exists o|].
    destruct (Hc name') as (o' & Ho' & Ht'). exists o'. split; [by apply Hother|done].
Qed.

Lemma removed_synced_survives d name c : survives (clean (delete name (current d))) c ->
  exists c0, survives d c0 /\ c = delete name c0.
Proof.
  intros Hc. exists (but_for d [name] c). split.
  - apply but_for_survives. intros name' Hn. rewrite list_elem_of_singleton in Hn.
    destruct (Hc name') as (o & <-%may_be_clean & Ht). rewrite lookup_delete_ne in Ht by done.
    exists (current d !! name'). split; [apply may_be_current|done].
  - apply map_eq. intros name'. destruct (decide (name = name')) as [<-|Hne].
    + rewrite lookup_delete_eq. destruct (Hc name) as (o & <-%may_be_clean & Ht). rewrite lookup_delete_eq in Ht.
      by destruct (c !! name).
    + rewrite lookup_delete_ne, but_for_lookup, decide_False by (done || by intros ?%list_elem_of_singleton). done.
Qed.

(** Hoare triples: every state passed through satisfies [I]; the last one [Q]
    on success and [E] on an error. *)
Definition triple {A} (I P : dir -> Prop) (m : io A) (Q : A -> dir -> Prop) (E : dir -> Prop) : Prop :=
  forall d tr, P d -> I d -> Forall I tr ->
  let '(d', tr', r) := m d tr in
  Forall I tr' /\ I d' /\ match r with Ok a => Q a d' | Err _ => E d' end.

Section Triples.
Context (I : dir -> Prop).

Lemma triple_ret {A} (a : A) (P E : dir -> Prop) : triple I P (io_ret a) (fun _ => P) E.
Proof. intros d tr HP HI Htr. cbn. auto. Qed.

Lemma triple_fail {A} e (P : dir -> Prop) (Q : A -> dir -> Prop) : triple I P (io_fail e) Q P.
Proof. intros d tr HP HI Htr. cbn. auto. Qed.

Lemma triple_bind {A B} (m : io A) (f : A -> io B) P R Q E :
  triple I P m R E -> (forall a, triple I (R a) (f a) Q E) -> triple I P (io_bind m f) Q E.
Proof.
  intros Hm Hf d tr HP HI Htr. specialize (Hm d tr HP HI Htr). unfold io_bind.
  destruct (m d tr) as [[d1 tr1] [a|e]]; destruct Hm as (H1 & H2 & H3); [|done].
  by apply (Hf a).
Qed.

Lemma triple_conseq {A} (m : io A) (P P' : dir -> Prop) (Q Q' : A -> dir -> Prop) (E E' : dir -> Prop) :
  triple I P' m Q' E' -> (forall d, P d -> P' d) -> (forall a d, Q' a d -> Q a d) ->
  (forall d, E' d -> E d) -> triple I P m Q E.
Proof.
  intros Hm HP HQ HE d tr Hd HI Htr. specialize (Hm d tr (HP d Hd) HI Htr).
  destruct (m d tr) as [[d1 tr1] [a|e]]; destruct Hm as (? & ? & ?); auto.
Qed.

Lemma triple_read (P E : dir -> Prop) : triple I P io_read (fun d d' => d' = d /\ P d) E.
Proof. intros d tr HP HI Htr. cbn. auto. Qed.

Lemma triple_call os c (P : dir -> Prop) : triple I P (call os c) (fun _ => P) P.
Proof. intros d tr HP HI Htr. unfold call. destruct (fault os c); auto. Qed.

Lemma triple_mutate os c f (P R : dir -> Prop) :
  (forall d, P d -> I d -> R (f d) /\ I (f d)) ->
  triple I P (mutate os c f) (fun _ => R) P.
Proof.
  intros Hf d tr HP HI Htr. unfold mutate. destruct (fault os c); [auto|].
  destruct (Hf d HP HI). split; [by constructor|auto].
Qed.

Lemma triple_lstat_absent os name (P : dir -> Prop) :
  triple I P (lstat_absent os name) (fun _ d => P d /\ current d !! name = None) P.
Proof.
  unfold lstat_absent. eapply triple_bind; [apply triple_call|intros []].
  intros d tr HP HI Htr. unfold io_bind, io_read. destruct (current d !! name) eqn:E; cbn; auto.
Qed.

Lemma triple_defer {A} (cleanup : io unit) (m : io A) P Q E (Q' : A -> dir -> Prop) (E' : dir -> Prop) :
  triple I P m Q E ->
  (forall a, triple I (Q a) cleanup (fun _ => Q' a) (Q' a)) ->
  triple I E cleanup (fun _ => E') E' ->
  triple I P (io_defer cleanup m) Q' E'.
Proof.
  intros Hm Hq He d tr HP HI Htr. specialize (Hm d tr HP HI Htr). unfold io_defer.
  destruct (m d tr) as [[d1 tr1] [a|e]]; destruct Hm as (H1 & H2 & H3).
  - specialize (Hq a d1 tr1 H3 H2 H1). destruct (cleanup d1 tr1) as [[d2 tr2] []]; tauto.
  - specialize (He d1 tr1 H3 H2 H1). destruct (cleanup d1 tr1) as [[d2 tr2] []]; tauto.
Qed.

Lemma triple_on_error {A} (cleanup : io unit) (m : io A) P Q E (E' : dir -> Prop) :
  triple I P m Q E -> triple I E cleanup (fun _ => E') E' ->
  triple I P (io_on_error cleanup m) Q E'.
Proof.
  intros Hm He d tr HP HI Htr. specialize (Hm d tr HP HI Htr). unfold io_on_error.
  destruct (m d tr) as [[d1 tr1] [a|e]]; destruct Hm as (H1 & H2 & H3); [done|].
  specialize (He d1 tr1 H3 H2 H1). destruct (cleanup d1 tr1) as [[d2 tr2] []]; tauto.
Qed.
End Triples.

(** *** Publishing one file through a temporary one *)

Section Publish.
Context (os : os_env) (target : string) (payload : bytes) (before : dir).
Context (Htarget : target <> tmp_name os).

(** Temporary file aside, the disk may only have what it might have before; or
    also the new file; or certainly has it. *)
Definition is_before (d : dir) : Prop := forall name o, name <> tmp_name os -> may_be d name o -> may_be before name o.
Definition is_either (d : dir) : Prop := forall name o, name <> tmp_name os -> may_be d name o ->
  may_be before name o \/ name = target /\ o = Some (private_file payload).
Definition is_placed (d : dir) : Prop := is_either d /\ current d !! target = Some (private_file payload).
Definition is_after (d : dir) : Prop := is_either d /\ forall o, may_be d target o -> o = Some (private_file payload).
(** The temporary file has the contents, on disk or not. *)
Definition is_written (d : dir) : Prop :=
  is_before d /\ exists b, current d !! tmp_name os = Some (Node Regular true payload b).
Definition is_staged (d : dir) : Prop := is_before d /\ current d !! tmp_name os = Some (private_file payload).

Lemma is_before_refl : is_before before.
Proof. by intros name o _. Qed.
Lemma before_either d : is_before d -> is_either d.
Proof. intros H name o Hn Ho. left. by apply H. Qed.

(** A change of the temporary file alone *)
Lemma is_before_enter f d : (forall t name, name <> tmp_name os -> f t !! name = t !! name) ->
  is_before d -> is_before (enter f d).
Proof.
  intros Hf H name o Hn [E|Ho]%may_be_enter; [|by apply H]. rewrite Hf in E by done. subst o.
  apply H, may_be_current. done.
Qed.
Lemma is_either_enter f d : (forall t name, name <> tmp_name os -> f t !! name = t !! name) ->
  is_either d -> is_either (enter f d).
Proof.
  intros Hf H name o Hn [E|Ho]%may_be_enter; [|by apply H]. rewrite Hf in E by done. subst o.
  apply H, may_be_current. done.
Qed.
Lemma is_before_temp n d : is_before d -> is_before (enter (fun t => <[tmp_name os := n]> t) d).
Proof. apply is_before_enter. intros. by rewrite lookup_insert_ne. Qed.

Lemma triple_create_temp : triple is_either is_before (create_temp os) (fun _ => is_before) is_before.
Proof.
  apply triple_mutate. intros d Hd _. split; [|apply before_either]; by apply is_before_temp.
Qed.

Lemma triple_write_temp : triple is_either is_before (write_temp os payload) (fun _ => is_written) is_before.
Proof.
  intros d tr HP HI Htr. unfold write_temp.
  destruct (fault os WriteFile); (split; [constructor; [by apply before_either, is_before_temp|done]|]);
    (split; [by apply before_either, is_before_temp|]).
  - by apply is_before_temp.
  - split; [by apply is_before_temp|]. exists false. cbn. by rewrite lookup_insert_eq.
Qed.

Lemma triple_sync_file : triple is_either is_written (sync_file os) (fun _ => is_staged) is_before.
Proof.
  eapply triple_conseq; [apply (triple_mutate is_either os SyncFile _ is_written is_staged)|done|done|by intros d []].
  intros d [Hb (b & Hd)] _.
  assert (is_before (enter (alter settle (tmp_name os)) d)) as H.
  { apply is_before_enter; [|done]. intros. by rewrite lookup_alter_ne. }
  split; [split; [done|]|by apply before_either]. cbn. by rewrite lookup_alter_eq, Hd.
Qed.

Lemma triple_fill_temp : triple is_either is_before (fill_temp os payload) (fun _ => is_staged) is_before.
Proof.
  unfold fill_temp.
  eapply triple_bind; [apply triple_call|intros []].
  eapply triple_bind; [apply triple_write_temp|intros []].
  eapply triple_bind; [apply triple_sync_file|intros []].
  eapply triple_conseq; [apply (triple_call _ _ _ is_staged)|done|done|by intros d []].
Qed.

Lemma triple_rename :
  triple is_either is_staged (rename_temp os target) (fun _ => is_placed) is_before.
Proof.
  intros d tr [HP Htmp] HI Htr. unfold rename_temp, io_bind, io_read. rewrite Htmp.
  unfold mutate. destruct (fault os Rename); [auto|].
  assert (is_placed (enter (fun t => <[target:=private_file payload]> (delete (tmp_name os) t)) d)) as Ha.
  { split; [|cbn; by rewrite lookup_insert_eq]. intros name o Hn [E|Ho]%may_be_enter; [|by left; apply HP].
    destruct (decide (target = name)) as [->|Hne]; [right; by rewrite lookup_insert_eq in E|left].
    rewrite lookup_insert_ne, lookup_delete_ne in E by done. subst o. by apply HP, may_be_current. }
  split; [constructor; [apply Ha|done]|split; [apply Ha|done]].
Qed.

(** Only a synced directory is sure to have the file. *)
Lemma triple_sync_entries : triple is_either is_placed (sync_entries os) (fun _ => is_after) is_either.
Proof.
  eapply triple_conseq; [apply (triple_mutate is_either os SyncDir _ is_placed is_after)|done|done|by intros d []].
  intros d [He Hd] _.
  assert (is_either (clean (current d))) as H.
  { intros name o Hn <-%may_be_clean. by apply He, may_be_current. }
  split; [split; [done|]|done]. by intros o <-%may_be_clean.
Qed.

Lemma triple_sync_dir : triple is_either is_placed (sync_dir os) (fun _ => is_after) is_either.
Proof.
  unfold sync_dir. apply (triple_bind _ _ _ _ (fun _ => is_placed)); [|intros []; apply triple_sync_entries].
  eapply triple_conseq; [apply (triple_call _ _ _ is_placed)|done|done|by intros d []].
Qed.

Lemma triple_remove_temp P : (forall d, P d -> P (enter (delete (tmp_name os)) d)) ->
  (forall d, P d -> is_either d) ->
  triple is_either P (remove_file os (tmp_name os)) (fun _ => P) P.
Proof.
  intros HP HI d tr Hd Hi Htr. unfold remove_file, io_bind, io_read.
  destruct (current d !! tmp_name os); cbn; [|auto]. unfold mutate. destruct (fault os Remove); [auto|].
  split; [constructor; auto|auto].
Qed.

Lemma delete_temp_ne (t : tree) name : name <> tmp_name os -> delete (tmp_name os) t !! name = t !! name.
Proof. intros. by rewrite lookup_delete_ne. Qed.
Lemma is_before_delete d : is_before d -> is_before (enter (delete (tmp_name os)) d).
Proof. apply is_before_enter, delete_temp_ne. Qed.
Lemma is_either_delete d : is_either d -> is_either (enter (delete (tmp_name os)) d).
Proof. apply is_either_enter, delete_temp_ne. Qed.
Lemma is_after_delete d : is_after d -> is_after (enter (delete (tmp_name os)) d).
Proof.
  intros [He Ha]. split; [by apply is_either_delete|]. intros o [E|Ho]%may_be_enter; [|by apply Ha].
  apply Ha. rewrite delete_temp_ne in E by done. subst o. apply may_be_current.
Qed.

(** *** What a crash leaves, temporary file aside *)

Definition as_before (c : tree) : Prop := exists c0, survives before c0 /\ delete (tmp_name os) c = delete (tmp_name os) c0.
Definition as_after (c : tree) : Prop := exists c0, survives before c0
  /\ delete (tmp_name os) c = <[target := private_file payload]> (delete (tmp_name os) c0).

Lemma before_survives d c : is_before d -> survives d c -> as_before c.
Proof.
  intros Hd Hc. exists (but_for before [tmp_name os] c). split.
  - apply but_for_survives. intros name Hn. destruct (Hc name) as (o & Ho & Ht). exists o. split; [|done].
    apply Hd; [|done]. intros ->. apply Hn. by left.
  - apply map_eq. intros name. destruct (decide (tmp_name os = name)) as [<-|Hne]; [by rewrite !lookup_delete_eq|].
    rewrite !lookup_delete_ne, but_for_lookup, decide_False by (done || by intros ?%list_elem_of_singleton). done.
Qed.

Lemma after_survives_at d c : is_either d -> survives d c -> torn (Some (private_file payload)) (c !! target) -> as_after c.
Proof.
  intros He Hc Ht. apply torn_synced in Ht; [|done]. exists (but_for before [tmp_name os; target] c). split.
  - apply but_for_survives. intros name Hn. rewrite elem_of_cons, list_elem_of_singleton in Hn.
    destruct (Hc name) as (o & Ho & Ho'). exists o. split; [|done]. apply He in Ho as [Ho|[? _]]; [done|tauto|tauto].
  - apply map_eq. intros name. destruct (decide (target = name)) as [<-|Hne].
    { by rewrite lookup_delete_ne, lookup_insert_eq by done. }
    rewrite lookup_insert_ne by done.
    destruct (decide (tmp_name os = name)) as [<-|Hne']; [by rewrite !lookup_delete_eq|].
    rewrite !lookup_delete_ne, but_for_lookup, decide_False by (done || (rewrite elem_of_cons, list_elem_of_singleton; intros [?|?]; congruence)).
    done.
Qed.

Lemma after_survives d c : is_after d -> survives d c -> as_after c.
Proof.
  intros [He Ha] Hc. apply (after_survives_at d); [done..|]. destruct (Hc target) as (o & Ho & Ht). by rewrite (Ha o Ho) in Ht.
Qed.

Lemma either_survives d c : is_either d -> survives d c -> as_before c \/ as_after c.
Proof.
  intros He Hc. destruct (Hc target) as (o & Ho & Ht).
  destruct (He target o Htarget Ho) as [Hb|[_ ->]]; [|right; by apply (after_survives_at d)]. left.
  exists (but_for before [tmp_name os] c). split.
  - apply but_for_survives. intros name Hn. rewrite list_elem_of_singleton in Hn.
    destruct (decide (name = target)) as [->|Hne]; [by exists o|].
    destruct (Hc name) as (o' & Ho' & Ht'). exists o'. split; [|done]. by apply He in Ho' as [?|[? _]].
  - apply map_eq. intros name. destruct (decide (tmp_name os = name)) as [<-|Hne]; [by rewrite !lookup_delete_eq|].
    rewrite !lookup_delete_ne, but_for_lookup, decide_False by (done || by intros ?%list_elem_of_singleton). done.
Qed.
End Publish.
