(* ===== verification/RecordDir.v ===== *)
(** * Directories of one-record files

    The execution journal and the spool keep each record in a file of its own,
    whose name is a function of the record's key, and rebuild their map of
    records by scanning the directory.  [scan] is that loop; the lemmas say
    what the map is and how publishing or removing one file changes it. *)

From S2P Require Import Prelude OsFiles.
Local Open Scope Z_scope.

(** [os.ReadDir]: the entries sorted by file name. *)
Definition ReadDir (d : tree) : list (string * node) :=
  sort_Slice (less_on String.ltb fst) (map_to_list d).

(** [filepath.Ext] of a name without separators: the suffix from the last dot. *)
Fixpoint filepath_Ext (name : string) : string :=
  match name with
  | EmptyString => ""
  | String c rest =>
      let ext := filepath_Ext rest in
      if (ext =? "")%string then (if (c =? ".")%char then name else "") else ext
  end.

(** [strings.HasPrefix] and [strings.HasSuffix]. *)
Definition HasPrefix (s prefix : string) : bool := String.prefix prefix s.
Fixpoint HasSuffix (s suffix : string) : bool :=
  (s =? suffix)%string || match s with String _ rest => HasSuffix rest suffix | "" => false end.

Lemma filepath_Ext_app a : filepath_Ext (a ++ ".json") = ".json".
Proof.
  induction a as [|c a IH]; [done|].
  change (String c a ++ ".json")%string with (String c (a ++ ".json")).
  cbn [filepath_Ext]. by rewrite IH.
Qed.

Lemma HasSuffix_app a b : HasSuffix (a ++ b) b = true.
Proof.
  induction a as [|c a IH].
  - change ("" ++ b)%string with b. destruct b; cbn [HasSuffix]; by rewrite String.eqb_refl.
  - change (String c a ++ b)%string with (String c (a ++ b)). cbn [HasSuffix].
    by rewrite IH, orb_true_r.
Qed.

Lemma ReadDir_perm d : ReadDir d ≡ₚ map_to_list d.
Proof. apply sort_perm. Qed.

Lemma ReadDir_NoDup d : NoDup (ReadDir d).*1.
Proof. rewrite ReadDir_perm. apply NoDup_fst_map_to_list. Qed.

Lemma elem_of_ReadDir d name n : (name, n) ∈ ReadDir d <-> d !! name = Some n.
Proof. by rewrite ReadDir_perm, elem_of_map_to_list. Qed.

Section Scan.
(** What one entry holds: [None] for an entry the loop skips.  The name of a
    record's file is a function of its key. *)
Context {R : Type} (entry : string -> node -> res (option R)).
Context (key : R -> string) (name_of : string -> string).
Context (Hname : forall name n r, entry name n = Ok (Some r) -> name = name_of (key r)).

Definition scan_step (records : gmap string R) (e : string * node) : res (gmap string R) :=
  o ← entry (fst e) (snd e);
  Ok (match o with Some r => <[key r := r]> records | None => records end).

Definition scan (d : tree) : res (gmap string R) := foldM scan_step (ReadDir d) ∅.

(** The record an entry gives to a key. *)
Definition record_at (o : option node) (k : string) : option R :=
  match o with
  | Some n =>
      match entry (name_of k) n with
      | Ok (Some r) => if decide (key r = k) then Some r else None
      | _ => None
      end
  | None => None
  end.

Lemma scan_list_spec l m0 :
  NoDup l.*1 ->
  (forall k, is_Some (m0 !! k) -> name_of k ∉ l.*1) ->
  (forall name n, (name, n) ∈ l -> exists o, entry name n = Ok o) ->
  exists m, foldM scan_step l m0 = Ok m /\
  forall k, m !! k = match record_at ((list_to_map l : tree) !! name_of k) k with
                     | Some r => Some r | None => m0 !! k end.
Proof.
  revert m0. induction l as [|[name n] l IH]; intros m0 Hnd Hm0 Hok.
  { exists m0. split; [done|]. intros k. cbn [list_to_map foldr]. by rewrite lookup_empty. }
  inversion Hnd as [|? ? Hnew Hnd']; subst. cbn [foldM].
  destruct (Hok name n) as [o Ho]; [by left|].
  set (m1 := match o with Some r => <[key r := r]> m0 | None => m0 end).
  assert (scan_step m0 (name, n) = Ok m1) as -> by (unfold scan_step; cbn; by rewrite Ho).
  destruct (IH m1) as (m & Hm & Hlk); [done| | |].
  { subst m1. intros k. destruct o as [r|]; [|intros Hk; by apply Hm0, not_elem_of_cons in Hk as []].
    destruct (decide (key r = k)) as [<-|Hne].
    - intros _. by rewrite <- (Hname name n r Ho).
    - rewrite lookup_insert_ne by done. intros Hk. by apply Hm0, not_elem_of_cons in Hk as []. }
  { intros. apply Hok. by right. }
  exists m. split; [exact Hm|]. intros k. rewrite Hlk. cbn [list_to_map foldr].
  destruct (decide (name_of k = name)) as [E|Hne].
  - rewrite <- E. cbn. rewrite lookup_insert_eq. cbn.
    rewrite not_elem_of_list_to_map_1 by (by rewrite E). cbn. rewrite E, Ho. subst m1.
    destruct o as [r|]; [|done]. destruct (decide (key r = k)) as [<-|Hk].
    + by rewrite lookup_insert_eq.
    + by rewrite lookup_insert_ne.
  - cbn. rewrite lookup_insert_ne by done.
    destruct (record_at _ k) eqn:E'; [done|]. subst m1. destruct o as [r|]; [|done].
    rewrite lookup_insert_ne; [done|]. intros <-. by rewrite <- (Hname name n r Ho) in Hne.
Qed.

Lemma scan_list_fails l m0 name n err :
  (name, n) ∈ l -> entry name n = Err err -> exists err', foldM scan_step l m0 = Err err'.
Proof.
  intros Hin He. revert m0. induction l as [|[name' n'] l IH]; intros m0.
  { by apply elem_of_nil in Hin. }
  cbn [foldM]. apply elem_of_cons in Hin as [[= -> ->]|Hin].
  - assert (scan_step m0 (name', n') = Err err) as -> by (unfold scan_step; cbn; by rewrite He). cbn. eauto.
  - destruct (scan_step m0 (name', n')) as [m1|e]; cbn; eauto.
Qed.

(** The scan succeeds when every entry does, and gives each key the record of
    the file named after it. *)
Lemma scan_iff d m : scan d = Ok m <->
  (forall name n, d !! name = Some n -> exists o, entry name n = Ok o)
  /\ forall k, m !! k = record_at (d !! name_of k) k.
Proof.
  assert (forall name n, (name, n) ∈ ReadDir d <-> d !! name = Some n) as Hin
    by (intros; apply elem_of_ReadDir).
  assert ((list_to_map (ReadDir d) : tree) = d) as Hd.
  { rewrite <- (list_to_map_to_list d) at 2. apply list_to_map_proper; [|apply ReadDir_perm].
    apply ReadDir_NoDup. }
  assert ((forall name n, d !! name = Some n -> exists o, entry name n = Ok o) ->
    exists m, scan d = Ok m /\ forall k, m !! k = record_at (d !! name_of k) k) as Hgood.
  { intros Hall. destruct (scan_list_spec (ReadDir d) ∅) as (m' & Hm & Hlk).
    - apply ReadDir_NoDup.
    - intros k. rewrite lookup_empty. by intros [].
    - intros. apply Hall. by apply Hin.
    - exists m'. split; [done|]. intros k. rewrite Hlk, Hd, lookup_empty. by destruct (record_at _ _). }
  split.
  - intros Hm.
    assert (forall name n, d !! name = Some n -> exists o, entry name n = Ok o) as Hall.
    { intros name n Hn. destruct (entry name n) as [o|e] eqn:E; [eauto|].
      destruct (scan_list_fails (ReadDir d) ∅ name n e) as [err Herr]; [by apply Hin|done|].
      unfold scan in Hm. congruence. }
    split; [done|]. destruct (Hgood Hall) as (m' & Hm' & Hlk). rewrite Hm in Hm'. injection Hm' as <-. exact Hlk.
  - intros [Hall Hlk]. destruct (Hgood Hall) as (m' & Hm' & Hlk'). rewrite Hm'. f_equal.
    apply map_eq. intros k. by rewrite Hlk, Hlk'.
Qed.

(** Publishing the file of [r] adds or replaces [r], provided no other key
    in use has the same file name. *)
Lemma scan_insert d m n r :
  scan d = Ok m -> entry (name_of (key r)) n = Ok (Some r) ->
  (forall k, is_Some (m !! k) -> name_of k = name_of (key r) -> k = key r) ->
  scan (<[name_of (key r) := n]> d) = Ok (<[key r := r]> m).
Proof.
  rewrite !scan_iff. intros [Hall Hlk] He Hinj. split.
  - intros name n'. destruct (decide (name_of (key r) = name)) as [<-|Hne].
    + rewrite lookup_insert_eq. intros [= <-]. eauto.
    + rewrite lookup_insert_ne by done. apply Hall.
  - intros k. destruct (decide (name_of (key r) = name_of k)) as [E|Hne].
    + rewrite <- E, lookup_insert_eq. cbn. rewrite <- E, He. case_decide as Hk.
      * by rewrite Hk, lookup_insert_eq.
      * rewrite lookup_insert_ne by done. destruct (m !! k) eqn:Ek; [|done].
        exfalso. apply Hk. symmetry. apply Hinj; eauto.
    + rewrite !lookup_insert_ne by congruence. apply Hlk.
Qed.

(** Removing the file of [r] removes [r]. *)
Lemma scan_delete d m n r :
  scan d = Ok m -> d !! name_of (key r) = Some n -> entry (name_of (key r)) n = Ok (Some r) ->
  scan (delete (name_of (key r)) d) = Ok (delete (key r) m).
Proof.
  rewrite !scan_iff. intros [Hall Hlk] Hn He. split.
  - intros name n' Hl. rewrite lookup_delete_Some in Hl. destruct Hl. by apply (Hall name n').
  - intros k. destruct (decide (key r = k)) as [<-|Hne].
    + rewrite !lookup_delete_eq. done.
    + rewrite lookup_delete_ne, Hlk by done.
      destruct (decide (name_of (key r) = name_of k)) as [E|Hne'].
      * rewrite <- E, lookup_delete_eq, Hn. cbn. rewrite <- E, He. by case_decide.
      * by rewrite lookup_delete_ne.
Qed.

(** Entries the loop skips do not matter. *)
Lemma scan_delete_skipped d m name : scan d = Ok m ->
  (forall n, entry name n = Ok None) -> scan (delete name d) = Ok m.
Proof.
  rewrite !scan_iff. intros [Hall Hlk] Hskip. split.
  - intros name' n. rewrite lookup_delete_Some. intros [_ Hn]. by apply (Hall name').
  - intros k. rewrite Hlk. destruct (decide (name = name_of k)) as [E|Hne].
    + rewrite <- E, lookup_delete_eq. destruct (d !! name) eqn:En; [|done]. cbn. by rewrite <- E, Hskip.
    + by rewrite lookup_delete_ne.
Qed.

Lemma scan_skipped d m name : scan (delete name d) = Ok m ->
  (forall n, entry name n = Ok None) -> scan d = Ok m.
Proof.
  rewrite !scan_iff. intros [Hall Hlk] Hskip. split.
  - intros name' n Hn. destruct (decide (name = name')) as [<-|Hne]; [eauto|].
    apply (Hall name'). by rewrite lookup_delete_ne.
  - intros k. rewrite Hlk. destruct (decide (name = name_of k)) as [E|Hne].
    + rewrite <- E, lookup_delete_eq. cbn. destruct (d !! name) eqn:En; [|done]. cbn.
      by rewrite <- E, Hskip.
    + by rewrite lookup_delete_ne.
Qed.

(** Every record in the map comes from its own file. *)
Lemma scan_lookup d m k r : scan d = Ok m -> m !! k = Some r ->
  key r = k /\ exists n, d !! name_of k = Some n /\ entry (name_of k) n = Ok (Some r).
Proof.
  rewrite scan_iff. intros [_ Hlk] Hk. rewrite Hlk in Hk. unfold record_at in Hk.
  destruct (d !! name_of k) as [n|]; [|done].
  destruct (entry (name_of k) n) as [[r'|]|] eqn:E; try done. case_decide; simplify_eq. eauto.
Qed.

(** ** What a restart finds *)

(** Whether a file's data has reached the disk cannot be read. *)
Context (Hsettle : forall name n, entry name (settle n) = entry name n).

(** Wherever the machine stops, a restart loads the records [m]. *)
Definition durably (d : dir) (m : gmap string R) : Prop := forall c, survives d c -> scan c = Ok m.

Lemma scan_settle t m : scan (settle <$> t) = Ok m -> scan t = Ok m.
Proof.
  rewrite !scan_iff. intros [Hall Hlk]. split.
  - intros name n Hn. destruct (Hall name (settle n)) as [o Ho]; [by rewrite lookup_fmap, Hn|].
    rewrite Hsettle in Ho. by exists o.
  - intros k. rewrite Hlk, lookup_fmap. destruct (t !! name_of k) as [n|]; [|done]. cbn. by rewrite Hsettle.
Qed.
Lemma durably_now d m : durably d m -> scan (current d) = Ok m.
Proof. intros H. apply scan_settle, H, survives_current. Qed.

Lemma durably_clean t m : scan t = Ok m -> (forall name n, t !! name = Some n -> synced n = true) -> durably (clean t) m.
Proof.
  intros Ht Hs c Hc. assert (c = t) as ->; [|done]. apply map_eq. intros name.
  destruct (Hc name) as (o & <-%may_be_clean & Hto). destruct (t !! name) as [n|] eqn:E; [|by destruct (c !! name)].
  by apply torn_synced in Hto; [|eapply Hs].
Qed.

(** Publishing a file, before and after *)
Section Published.
Context (os : os_env) (before : dir) (m : gmap string R).
Context (Hskip : forall n, entry (tmp_name os) n = Ok None) (Hbefore : durably before m).

Lemma scan_as_before c : as_before os before c -> scan c = Ok m.
Proof.
  intros (c0 & Hc0 & E). apply (scan_skipped _ _ (tmp_name os)); [|done]. rewrite E.
  by apply scan_delete_skipped; [apply Hbefore|].
Qed.

Lemma scan_as_after r payload c : entry (name_of (key r)) (private_file payload) = Ok (Some r) ->
  (forall k, is_Some (m !! k) -> name_of k = name_of (key r) -> k = key r) ->
  as_after os (name_of (key r)) payload before c -> scan c = Ok (<[key r := r]> m).
Proof.
  intros He Hinj (c0 & Hc0 & E). apply (scan_skipped _ _ (tmp_name os)); [|done]. rewrite E.
  apply scan_insert; [|done..]. by apply scan_delete_skipped; [apply Hbefore|].
Qed.
End Published.
End Scan.
