(* ===== verification/Envelope.v ===== *)
(** * session/envelope.go: the typed message of the Agent protocol

    [Envelope], [Receipt] and their validation, and the JSON text of an
    envelope, which the spool and the internal bus store. *)

From S2P Require Import Prelude GoStd GoJson.
Local Open Scope Z_scope.
Local Open Scope go_scope.

Definition StreamControl : string := "CONTROL".
Definition StreamCommand : string := "COMMAND_LEASE".
Definition StreamResult : string := "RESULT_RECEIPT".
Definition StreamHeartbeat : string := "HEARTBEAT_HEALTH".
Definition StreamCredential : string := "CREDENTIAL_LIFECYCLE".
Definition StreamInventory : string := "INVENTORY_OBSERVATION".
Definition StreamResync : string := "RESYNC".

Definition knownStreams : list string :=
  [StreamControl; StreamCommand; StreamResult; StreamHeartbeat; StreamCredential;
   StreamInventory; StreamResync].

(** [_, ok := knownStreams[s]] *)
Definition known_stream (s : string) : bool := existsb (String.eqb s) knownStreams.

(** An envelope.  The payload is a byte slice; a nil and an empty slice are the
    same value here. *)
Record Envelope := MkEnvelope {
  HostIdentity : string;
  SessionGeneration : Z;
  Stream : string;
  MessageID : string;
  SchemaVersion : string;
  SequenceScope : string;
  Sequence : Z;
  ResourceGeneration : Z;
  PayloadDigest : string;
  CorrelationKey : string;
  Payload : bytes;
}.

#[export] Instance Envelope_eq_dec : EqDecision Envelope.
Proof. solve_decision. Defined.

Definition zero_envelope : Envelope := MkEnvelope "" 0 "" "" "" "" 0 0 "" "" "".

Record Receipt := MkReceipt {
  rcpt_HostIdentity : string;
  rcpt_AcceptedSessionGeneration : Z;
  rcpt_Stream : string;
  rcpt_MessageID : string;
  rcpt_SequenceScope : string;
  rcpt_Sequence : Z;
  rcpt_PayloadDigest : string;
  rcpt_Disposition : string;
}.

#[export] Instance Receipt_eq_dec : EqDecision Receipt.
Proof. solve_decision. Defined.

(** Field values a Go program can hold. *)
Definition envelope_typed (e : Envelope) : Prop :=
  is_u64 (SessionGeneration e) /\ is_u64 (Sequence e) /\ is_u64 (ResourceGeneration e).

(** [Receipt.ValidateFor] *)
Definition ValidateFor (receipt : Receipt) (envelope : Envelope) : res unit :=
  fail_if ((rcpt_HostIdentity receipt !=s HostIdentity envelope)
           || (rcpt_Stream receipt !=s Stream envelope)
           || (rcpt_MessageID receipt !=s MessageID envelope)
           || (rcpt_SequenceScope receipt !=s SequenceScope envelope)
           || (rcpt_Sequence receipt !=z Sequence envelope)
           || (rcpt_PayloadDigest receipt !=s PayloadDigest envelope))
    (errors_New "message receipt does not match durable envelope");;
  fail_if (rcpt_AcceptedSessionGeneration receipt =? 0)
    (errors_New "message receipt accepted generation must be positive");;
  fail_if (negb (existsb (String.eqb (rcpt_Disposition receipt))
                   ["ACCEPTED"; "STALE"; "REJECTED"; "QUARANTINED"]%string))
    (Errorf "unknown message receipt disposition %q" [rcpt_Disposition receipt]).

(** [Envelope.BindSession] *)
Definition BindSession (envelope : Envelope) (generation : Z) : Envelope :=
  MkEnvelope (HostIdentity envelope) generation (Stream envelope) (MessageID envelope)
    (SchemaVersion envelope) (SequenceScope envelope) (Sequence envelope)
    (ResourceGeneration envelope) (PayloadDigest envelope) (CorrelationKey envelope)
    (Payload envelope).

(** [Envelope.Validate] *)
Definition Validate (envelope : Envelope) (maxMessageBytes : Z) : res unit :=
  fail_if ((HostIdentity envelope ==s "") || (MessageID envelope ==s "")
           || (SchemaVersion envelope ==s "") || (SequenceScope envelope ==s ""))
    (errors_New "agent envelope identity, message, schema, and sequence scope are required");;
  fail_if (SessionGeneration envelope =? 0)
    (errors_New "agent envelope session generation must be positive");;
  fail_if (negb (known_stream (Stream envelope)))
    (Errorf "unknown logical stream %q" [Stream envelope]);;
  fail_if ((maxMessageBytes <? 1) || (maxMessageBytes <? len (Payload envelope)))
    (Errorf "agent envelope payload is %d bytes, limit is %d"
       [FormatInt (len (Payload envelope)); FormatInt maxMessageBytes]);;
  fail_if (PayloadDigest envelope !=s sha256_hex (Payload envelope))
    (errors_New "agent envelope payload digest mismatch").

(** [NewEnvelope] *)
Definition NewEnvelope (host : string) (generation : Z) (stream messageID schema sequenceScope : string)
    (sequence : Z) (payload : bytes) : Envelope :=
  MkEnvelope host generation stream messageID schema sequenceScope sequence 0
    (sha256_hex payload) "" payload.

(** *** JSON text *)

Definition envelope_json (e : Envelope) : json :=
  JObj [("HostIdentity", JStr (HostIdentity e));
        ("SessionGeneration", JUint (SessionGeneration e));
        ("Stream", JStr (Stream e));
        ("MessageID", JStr (MessageID e));
        ("SchemaVersion", JStr (SchemaVersion e));
        ("SequenceScope", JStr (SequenceScope e));
        ("Sequence", JUint (Sequence e));
        ("ResourceGeneration", JUint (ResourceGeneration e));
        ("PayloadDigest", JStr (PayloadDigest e));
        ("CorrelationKey", JStr (CorrelationKey e));
        ("Payload", JBytes (Payload e))]%string.

Definition envelope_fields : list (field Envelope) :=
  [string_field "HostIdentity" (fun s e => MkEnvelope s (SessionGeneration e) (Stream e) (MessageID e) (SchemaVersion e) (SequenceScope e) (Sequence e) (ResourceGeneration e) (PayloadDigest e) (CorrelationKey e) (Payload e));
   uint_field "SessionGeneration" (fun z e => MkEnvelope (HostIdentity e) z (Stream e) (MessageID e) (SchemaVersion e) (SequenceScope e) (Sequence e) (ResourceGeneration e) (PayloadDigest e) (CorrelationKey e) (Payload e));
   string_field "Stream" (fun s e => MkEnvelope (HostIdentity e) (SessionGeneration e) s (MessageID e) (SchemaVersion e) (SequenceScope e) (Sequence e) (ResourceGeneration e) (PayloadDigest e) (CorrelationKey e) (Payload e));
   string_field "MessageID" (fun s e => MkEnvelope (HostIdentity e) (SessionGeneration e) (Stream e) s (SchemaVersion e) (SequenceScope e) (Sequence e) (ResourceGeneration e) (PayloadDigest e) (CorrelationKey e) (Payload e));
   string_field "SchemaVersion" (fun s e => MkEnvelope (HostIdentity e) (SessionGeneration e) (Stream e) (MessageID e) s (SequenceScope e) (Sequence e) (ResourceGeneration e) (PayloadDigest e) (CorrelationKey e) (Payload e));
   string_field "SequenceScope" (fun s e => MkEnvelope (HostIdentity e) (SessionGeneration e) (Stream e) (MessageID e) (SchemaVersion e) s (Sequence e) (ResourceGeneration e) (PayloadDigest e) (CorrelationKey e) (Payload e));
   uint_field "Sequence" (fun z e => MkEnvelope (HostIdentity e) (SessionGeneration e) (Stream e) (MessageID e) (SchemaVersion e) (SequenceScope e) z (ResourceGeneration e) (PayloadDigest e) (CorrelationKey e) (Payload e));
   uint_field "ResourceGeneration" (fun z e => MkEnvelope (HostIdentity e) (SessionGeneration e) (Stream e) (MessageID e) (SchemaVersion e) (SequenceScope e) (Sequence e) z (PayloadDigest e) (CorrelationKey e) (Payload e));
   string_field "PayloadDigest" (fun s e => MkEnvelope (HostIdentity e) (SessionGeneration e) (Stream e) (MessageID e) (SchemaVersion e) (SequenceScope e) (Sequence e) (ResourceGeneration e) s (CorrelationKey e) (Payload e));
   string_field "CorrelationKey" (fun s e => MkEnvelope (HostIdentity e) (SessionGeneration e) (Stream e) (MessageID e) (SchemaVersion e) (SequenceScope e) (Sequence e) (ResourceGeneration e) (PayloadDigest e) s (Payload e));
   bytes_field "Payload" (fun b e => MkEnvelope (HostIdentity e) (SessionGeneration e) (Stream e) (MessageID e) (SchemaVersion e) (SequenceScope e) (Sequence e) (ResourceGeneration e) (PayloadDigest e) (CorrelationKey e) b)].

(** Every text field is ASCII. *)
Definition envelope_ascii (e : Envelope) : Prop :=
  ascii_text (HostIdentity e) /\ ascii_text (Stream e) /\ ascii_text (MessageID e)
  /\ ascii_text (SchemaVersion e) /\ ascii_text (SequenceScope e)
  /\ ascii_text (PayloadDigest e) /\ ascii_text (CorrelationKey e).

(** ** Lemmas *)

Lemma fail_if_ok b e : fail_if b e = Ok tt <-> b = false.
Proof. destruct b; simpl; split; congruence. Qed.

Lemma known_stream_in s : known_stream s = true <-> In s knownStreams.
Proof.
  unfold known_stream. rewrite existsb_exists. split.
  - intros (x & Hx & E). apply String.eqb_eq in E. by subst.
  - intros H. exists s. by rewrite String.eqb_refl.
Qed.

(** What [Validate] guarantees, and that nothing else is asked. *)
Definition well_formed (e : Envelope) (maxMessageBytes : Z) : Prop :=
  HostIdentity e <> ""%string /\ MessageID e <> ""%string /\ SchemaVersion e <> ""%string
  /\ SequenceScope e <> ""%string /\ SessionGeneration e <> 0
  /\ In (Stream e) knownStreams
  /\ 1 <= maxMessageBytes /\ len (Payload e) <= maxMessageBytes
  /\ PayloadDigest e = sha256_hex (Payload e).

Lemma Validate_iff e m : Validate e m = Ok tt <-> well_formed e m.
Proof.
  unfold Validate, well_formed. rewrite <- known_stream_in.
  split.
  - intros H. run_guards. repeat split; try done; lia.
  - intros (H1 & H2 & H3 & H4 & H5 & H6 & H7 & H8 & H9).
    apply String.eqb_neq in H1, H2, H3, H4. apply Z.eqb_neq in H5.
    rewrite H1, H2, H3, H4, H5, H6, H9, String.eqb_refl. cbn.
    destruct (Z.ltb_spec m 1), (Z.ltb_spec m (len (Payload e))); by (lia || done).
Qed.

Lemma Validate_BindSession e m g : g <> 0 ->
  Validate e m = Ok tt -> Validate (BindSession e g) m = Ok tt.
Proof. intros Hg. rewrite !Validate_iff. unfold well_formed. simpl. tauto. Qed.

Lemma NewEnvelope_valid host g st mid sc scope seq p m :
  host <> ""%string -> g <> 0 -> In st knownStreams -> mid <> ""%string -> sc <> ""%string ->
  scope <> ""%string -> 1 <= m -> len p <= m ->
  Validate (NewEnvelope host g st mid sc scope seq p) m = Ok tt.
Proof. intros. apply Validate_iff. unfold well_formed. simpl. tauto. Qed.

(** A receipt that passes [ValidateFor] names this very message. *)
Definition identifies (r : Receipt) (e : Envelope) : Prop :=
  rcpt_HostIdentity r = HostIdentity e /\ rcpt_Stream r = Stream e
  /\ rcpt_MessageID r = MessageID e /\ rcpt_SequenceScope r = SequenceScope e
  /\ rcpt_Sequence r = Sequence e /\ rcpt_PayloadDigest r = PayloadDigest e.

Definition dispositions : list string := ["ACCEPTED"; "STALE"; "REJECTED"; "QUARANTINED"]%string.

Lemma existsb_string_in s l : existsb (String.eqb s) l = true <-> In s l.
Proof.
  rewrite existsb_exists. split.
  - intros (x & Hx & E). apply String.eqb_eq in E. by subst.
  - intros H. exists s. by rewrite String.eqb_refl.
Qed.

Lemma ValidateFor_iff r e : ValidateFor r e = Ok tt <->
  identifies r e /\ rcpt_AcceptedSessionGeneration r <> 0
  /\ In (rcpt_Disposition r) dispositions.
Proof.
  unfold ValidateFor, identifies, dispositions.
  rewrite <- existsb_string_in. split.
  - intros H. run_guards. repeat split; done.
  - intros ((-> & -> & -> & -> & -> & ->) & Hg & ->). apply Z.eqb_neq in Hg.
    rewrite !String.eqb_refl, Z.eqb_refl, Hg. done.
Qed.

(** Receipts survive a rebind to a later session generation. *)
Lemma ValidateFor_BindSession r e g : ValidateFor r (BindSession e g) = ValidateFor r e.
Proof. done. Qed.

Lemma envelope_plain e : envelope_ascii e -> plain (envelope_json e).
Proof.
  intros (? & ? & ? & ? & ? & ? & ?). unfold envelope_json, JUint, JBytes. plain_members.
Qed.

(** Decoding the JSON of an envelope into a zero envelope gives it back. *)
Lemma decode_envelope_json strict e : envelope_typed e ->
  decode_struct strict envelope_fields (envelope_json e) zero_envelope = Some e.
Proof.
  intros (H1 & H2 & H3). destruct e as [h g st mid sc scope seq rg pd ck pl]. cbn in *.
  rewrite !ParseUint_FormatUint by done. cbn.
  rewrite base64_round_trip. done.
Qed.
