(* ===== verification/PriorityQueue.v ===== *)
(** * session/queue.go: the bounded priority scheduler of one Agent session

    Every operation runs under the queue's mutex, so an operation is one step
    on the state.  A pointer to a cursor field is a value of [cursor]. *)

From S2P Require Import Prelude GoStd GoJson Envelope.
Local Open Scope Z_scope.
Local Open Scope go_scope.

Definition ErrQueueFull : goerr := errors_New "agent session queue is full".
Definition ErrMessageTooLarge : goerr := errors_New "agent session message is too large".

Record QueueLimits := MkLimits {
  MaxMessageBytes : Z;
  MaxTotalMessages : Z;
  MaxTotalBytes : Z;
  ReservedPriorityMsgs : Z;
  ReservedPriorityBytes : Z;
  MaxConsecutivePriority : Z;
  PerStreamMessages : gmap string Z;
}.

Record PriorityQueue := MkQueue {
  limits : QueueLimits;
  lanes : gmap string (list Envelope);
  totalCount : Z;
  totalBytes : Z;
  authorityCursor : Z;
  bulkCursor : Z;
  consecutivePriority : Z;
}.

Definition controlStreams : list string := [StreamControl].
Definition authorityStreams : list string :=
  [StreamCommand; StreamResult; StreamHeartbeat; StreamCredential].
Definition bulkStreams : list string := [StreamInventory; StreamResync].

(** A missing key reads as the zero value. *)
Definition lane (q : PriorityQueue) (s : string) : list Envelope := default [] (lanes q !! s).
Definition stream_limit (l : QueueLimits) (s : string) : Z := default 0 (PerStreamMessages l !! s).

Definition isBulk (stream : string) : bool :=
  (stream ==s StreamInventory) || (stream ==s StreamResync).

(** [NewPriorityQueue].  The loop over the map [knownStreams] has no fixed
    order: which of several missing streams the error names is unspecified. *)
Definition NewPriorityQueue (l : QueueLimits) : res PriorityQueue :=
  fail_if ((MaxMessageBytes l <? 1) || (MaxTotalMessages l <? 1) || (MaxTotalBytes l <? 1))
    (errors_New "positive message, count, and byte limits are required");;
  fail_if ((ReservedPriorityMsgs l <? 0) || (MaxTotalMessages l <=? ReservedPriorityMsgs l))
    (errors_New "reserved priority message capacity is invalid");;
  fail_if ((ReservedPriorityBytes l <? 0) || (MaxTotalBytes l <=? ReservedPriorityBytes l))
    (errors_New "reserved priority byte capacity is invalid");;
  fail_if (MaxConsecutivePriority l <? 1)
    (errors_New "maximum consecutive priority dequeue must be positive");;
  match List.find (fun s => stream_limit l s <? 1) knownStreams with
  | Some s => Err (Errorf "positive queue limit is required for stream %s" [s])
  | None => Ok (MkQueue l ∅ 0 0 0 0 0)
  end.

(** [queue.lanes[stream] = msgs] with the totals updated. *)
Definition store_lane (q : PriorityQueue) (s : string) (msgs : list Envelope) (count size : Z) :
  PriorityQueue :=
  MkQueue (limits q) (<[s := msgs]> (lanes q)) count size
    (authorityCursor q) (bulkCursor q) (consecutivePriority q).

(** [PriorityQueue.Enqueue] *)
Definition Enqueue (q : PriorityQueue) (envelope : Envelope) : res PriorityQueue :=
  let l := limits q in
  let size := len (Payload envelope) in
  fail_if (MaxMessageBytes l <? size) ErrMessageTooLarge;;
  let ln := lane q (Stream envelope) in
  fail_if (stream_limit l (Stream envelope) <=? Z.of_nat (length ln)) ErrQueueFull;;
  fail_if ((MaxTotalMessages l <? i64 (totalCount q + 1))
           || (MaxTotalBytes l <? i64 (totalBytes q + size))) ErrQueueFull;;
  fail_if (isBulk (Stream envelope)
           && ((i64 (MaxTotalMessages l - ReservedPriorityMsgs l) <? i64 (totalCount q + 1))
               || (i64 (MaxTotalBytes l - ReservedPriorityBytes l) <? i64 (totalBytes q + size))))
    ErrQueueFull;;
  Ok (store_lane q (Stream envelope) (ln ++ [envelope])
        (i64 (totalCount q + 1)) (i64 (totalBytes q + size))).

(** The [cursor *int] argument of [popFirst]. *)
Inductive cursor := NilCursor | AuthorityCursor | BulkCursor.

Definition read_cursor (q : PriorityQueue) (c : cursor) : option Z :=
  match c with
  | NilCursor => None
  | AuthorityCursor => Some (authorityCursor q)
  | BulkCursor => Some (bulkCursor q)
  end.

Definition write_cursor (q : PriorityQueue) (c : cursor) (z : Z) : PriorityQueue :=
  match c with
  | NilCursor => q
  | AuthorityCursor =>
      MkQueue (limits q) (lanes q) (totalCount q) (totalBytes q) z (bulkCursor q)
        (consecutivePriority q)
  | BulkCursor =>
      MkQueue (limits q) (lanes q) (totalCount q) (totalBytes q) (authorityCursor q) z
        (consecutivePriority q)
  end.

Definition set_consecutive (q : PriorityQueue) (z : Z) : PriorityQueue :=
  MkQueue (limits q) (lanes q) (totalCount q) (totalBytes q) (authorityCursor q) (bulkCursor q) z.

(** The loop of [popFirst] over the remaining offsets. *)
Fixpoint pop_loop (q : PriorityQueue) (streams : list string) (c : cursor) (start : nat)
    (offsets : list nat) : option (PriorityQueue * Envelope) :=
  match offsets with
  | [] => None
  | offset :: rest =>
      let index := Nat.modulo (start + offset) (length streams) in
      let stream := nth index streams ""%string in
      match lane q stream with
      | [] => pop_loop q streams c start rest
      | envelope :: tail =>
          let q' := store_lane q stream tail (i64 (totalCount q - 1))
                      (i64 (totalBytes q - len (Payload envelope))) in
          Some (write_cursor q' c (Z.of_nat (Nat.modulo (index + 1) (length streams))), envelope)
      end
  end.

(** [PriorityQueue.popFirst] *)
Definition popFirst (q : PriorityQueue) (streams : list string) (c : cursor) :
  option (PriorityQueue * Envelope) :=
  let start := match read_cursor q c with
               | Some z => Z.to_nat (Z.rem z (Z.of_nat (length streams)))
               | None => O
               end in
  pop_loop q streams c start (List.seq 0 (length streams)).

(** [PriorityQueue.Dequeue] *)
Definition Dequeue (q : PriorityQueue) : PriorityQueue * option Envelope :=
  let overdue :=
    if MaxConsecutivePriority (limits q) <=? consecutivePriority q
    then popFirst q bulkStreams BulkCursor else None in
  match overdue with
  | Some (q', e) => (set_consecutive q' 0, Some e)
  | None =>
      match popFirst q controlStreams NilCursor with
      | Some (q', e) => (set_consecutive q' (i64 (consecutivePriority q' + 1)), Some e)
      | None =>
          match popFirst q authorityStreams AuthorityCursor with
          | Some (q', e) => (set_consecutive q' (i64 (consecutivePriority q' + 1)), Some e)
          | None =>
              match popFirst q bulkStreams BulkCursor with
              | Some (q', e) => (set_consecutive q' 0, Some e)
              | None => (q, None)
              end
          end
      end
  end.

(** [PriorityQueue.Stats] *)
Definition Stats (q : PriorityQueue) : Z * Z := (totalCount q, totalBytes q).

(** ** Invariant *)

(** Limits [NewPriorityQueue] accepts, and small enough for [int] sums: no
    process can hold more messages or bytes than that. *)
Definition limits_ok (l : QueueLimits) : Prop :=
  1 <= MaxMessageBytes l /\ 1 <= MaxTotalMessages l /\ 1 <= MaxTotalBytes l
  /\ 0 <= ReservedPriorityMsgs l < MaxTotalMessages l
  /\ 0 <= ReservedPriorityBytes l < MaxTotalBytes l
  /\ 1 <= MaxConsecutivePriority l < two63
  /\ Forall (fun s => 1 <= stream_limit l s) knownStreams
  /\ MaxTotalMessages l + 1 < two63 /\ MaxTotalBytes l + MaxMessageBytes l < two63.

Definition payload_bytes (l : list Envelope) : Z :=
  foldr (fun e a => len (Payload e) + a) 0 l.
Definition msg_count (l : list Envelope) : Z := Z.of_nat (length l).

(** Total weight of the lanes of some streams. *)
Definition weigh (w : list Envelope -> Z) (q : PriorityQueue) (streams : list string) : Z :=
  foldr (fun s a => w (lane q s) + a) 0 streams.

Record queue_ok (q : PriorityQueue) : Prop := {
  ok_limits : limits_ok (limits q);
  ok_known s : ~ In s knownStreams -> lane q s = [];
  ok_keyed s : Forall (fun e => Stream e = s) (lane q s);
  ok_sizes s : Forall (fun e => len (Payload e) <= MaxMessageBytes (limits q)) (lane q s);
  ok_lane s : In s knownStreams -> msg_count (lane q s) <= stream_limit (limits q) s;
  ok_count : totalCount q = weigh msg_count q knownStreams;
  ok_bytes : totalBytes q = weigh payload_bytes q knownStreams;
  ok_count_max : totalCount q <= MaxTotalMessages (limits q);
  ok_bytes_max : totalBytes q <= MaxTotalBytes (limits q);
  ok_bulk_count : weigh msg_count q bulkStreams
                  <= MaxTotalMessages (limits q) - ReservedPriorityMsgs (limits q);
  ok_bulk_bytes : weigh payload_bytes q bulkStreams
                  <= MaxTotalBytes (limits q) - ReservedPriorityBytes (limits q);
  ok_consecutive : is_i64 (consecutivePriority q);
  ok_authority_cursor : 0 <= authorityCursor q < 4;
  ok_bulk_cursor : 0 <= bulkCursor q < 2;
}.

(** ** Lemmas *)

Lemma lane_store q s msgs c b s' :
  lane (store_lane q s msgs c b) s' = if decide (s = s') then msgs else lane q s'.
Proof. unfold lane. simpl. rewrite lookup_insert. by case_decide. Qed.

Lemma lane_write_cursor q c z s : lane (write_cursor q c z) s = lane q s.
Proof. by destruct c. Qed.

Lemma lane_set_consecutive q z s : lane (set_consecutive q z) s = lane q s.
Proof. done. Qed.

Lemma weigh_ext w q q' streams :
  (forall s, lane q' s = lane q s) -> weigh w q' streams = weigh w q streams.
Proof. intros H. unfold weigh. induction streams; simpl; [done|]. by rewrite H, IHstreams. Qed.

Lemma weigh_set_consecutive w q z streams :
  weigh w (set_consecutive q z) streams = weigh w q streams.
Proof. done. Qed.

Lemma weigh_nonneg w q streams : (forall l, 0 <= w l) -> 0 <= weigh w q streams.
Proof. intros H. unfold weigh. induction streams as [|s t]; simpl; [done|]. pose proof (H (lane q s)). lia. Qed.

Lemma weigh_store w q s msgs c b streams : List.NoDup streams ->
  weigh w (store_lane q s msgs c b) streams
  = weigh w q streams + (if in_dec string_dec s streams then w msgs - w (lane q s) else 0).
Proof.
  intros Hn. unfold weigh. induction Hn as [|x l Hx Hn IH]; [done|].
  cbn [foldr]. rewrite IH, lane_store.
  destruct (in_dec string_dec s (x :: l)) as [Hin|Hin];
    destruct (in_dec string_dec s l) as [Hin'|Hin']; case_decide; subst; simpl in *; try tauto; try lia.
  destruct Hin; [congruence|done].
Qed.

Lemma known_NoDup : List.NoDup knownStreams.
Proof. repeat constructor; simpl; intuition discriminate. Qed.

Lemma bulk_NoDup : List.NoDup bulkStreams.
Proof. repeat constructor; simpl; intuition discriminate. Qed.

#[export] Hint Resolve known_NoDup bulk_NoDup : go.

Lemma isBulk_in s : isBulk s = true <-> In s bulkStreams.
Proof.
  unfold isBulk. rewrite orb_true_iff, !String.eqb_eq. simpl. intuition congruence.
Qed.

Lemma msg_count_nonneg l : 0 <= msg_count l.
Proof. unfold msg_count. lia. Qed.

Lemma payload_bytes_nonneg l : 0 <= payload_bytes l.
Proof. induction l as [|e l]; simpl; [done|]. pose proof (len_nonneg (Payload e)). lia. Qed.

#[export] Hint Resolve msg_count_nonneg payload_bytes_nonneg : go.

Lemma msg_count_cons e l : msg_count (e :: l) = 1 + msg_count l.
Proof. unfold msg_count. cbn [length]. lia. Qed.

Lemma payload_bytes_cons e l : payload_bytes (e :: l) = len (Payload e) + payload_bytes l.
Proof. done. Qed.

Lemma msg_count_app l1 l2 : msg_count (l1 ++ l2) = msg_count l1 + msg_count l2.
Proof. unfold msg_count. rewrite length_app. lia. Qed.

Lemma payload_bytes_app l1 l2 : payload_bytes (l1 ++ l2) = payload_bytes l1 + payload_bytes l2.
Proof. induction l1; simpl; lia. Qed.

Lemma weigh_member w q s streams : (forall l, 0 <= w l) -> In s streams ->
  w (lane q s) <= weigh w q streams.
Proof.
  intros Hw. unfold weigh. induction streams as [|x l IH]; simpl; [done|].
  pose proof (weigh_nonneg w q l Hw) as Hn. unfold weigh in Hn.
  intros [-> |H]; [lia|]. pose proof (Hw (lane q x)). specialize (IH H). lia.
Qed.

(** The bulk lanes are among the known ones; the rest is the priority traffic. *)
Definition priorityStreams : list string := controlStreams ++ authorityStreams.

Lemma weigh_split w q :
  weigh w q knownStreams = weigh w q priorityStreams + weigh w q bulkStreams.
Proof. unfold weigh, priorityStreams. simpl. lia. Qed.

(** *** Popping *)

(** [e] was the head of lane [s]; everything else but a cursor is unchanged. *)
Definition pops (q : PriorityQueue) (s : string) (e : Envelope) (q' : PriorityQueue) : Prop :=
  exists tail, lane q s = e :: tail
  /\ (forall s', lane q' s' = if decide (s = s') then tail else lane q s')
  /\ limits q' = limits q
  /\ totalCount q' = i64 (totalCount q - 1)
  /\ totalBytes q' = i64 (totalBytes q - len (Payload e))
  /\ consecutivePriority q' = consecutivePriority q.

Definition cursors_from (q q' : PriorityQueue) (c : cursor) (n : Z) : Prop :=
  (authorityCursor q' = authorityCursor q \/ (c = AuthorityCursor /\ 0 <= authorityCursor q' < n))
  /\ (bulkCursor q' = bulkCursor q \/ (c = BulkCursor /\ 0 <= bulkCursor q' < n)).

Lemma pop_loop_Some q streams c start offsets q' e :
  streams <> [] -> pop_loop q streams c start offsets = Some (q', e) ->
  exists s, In s streams /\ pops q s e q' /\ cursors_from q q' c (Z.of_nat (length streams)).
Proof.
  intros Hs. induction offsets as [|o rest IH]; simpl; [done|].
  set (index := Nat.modulo (start + o) (length streams)).
  assert (index < length streams)%nat as Hi
    by (apply Nat.mod_upper_bound; destruct streams; simpl; [done|lia]).
  destruct (lane q (nth index streams "")) as [|e' tail] eqn:El; [done|].
  intros [= <- <-]. exists (nth index streams ""%string).
  assert (Nat.modulo (index + 1) (length streams) < length streams)%nat
    by (apply Nat.mod_upper_bound; lia).
  repeat split; [by apply nth_In| |destruct c; simpl; auto; right; split; [done|lia]..].
  exists tail. repeat split; [done| |by destruct c..].
  intros s'. by rewrite lane_write_cursor, lane_store.
Qed.

Lemma pop_loop_None q streams c start offsets :
  pop_loop q streams c start offsets = None ->
  forall o, In o offsets -> lane q (nth (Nat.modulo (start + o) (length streams)) streams ""%string) = [].
Proof.
  induction offsets as [|o rest IH]; simpl; [done|].
  destruct (lane q _) eqn:El; [|done]. intros H o' [<- |Ho]; auto.
Qed.

(** The offsets reach every stream. *)
Lemma offsets_cover n start i : (i < n)%nat ->
  exists o, In o (List.seq 0 n) /\ Nat.modulo (start + o) n = i.
Proof.
  intros Hi. exists (Nat.modulo (i + (n - start mod n)) n).
  pose proof (Nat.mod_upper_bound start n ltac:(lia)).
  split; [apply in_seq; pose proof (Nat.mod_upper_bound (i + (n - start mod n)) n); lia|].
  rewrite Nat.Div0.add_mod_idemp_r.
  replace (start + (i + (n - start mod n)))%nat with (i + (start / n + 1) * n)%nat.
  { rewrite Nat.Div0.mod_add. by apply Nat.mod_small. }
  pose proof (Nat.div_mod_eq start n). nia.
Qed.

Lemma popFirst_Some q streams c q' e :
  streams <> [] -> popFirst q streams c = Some (q', e) ->
  exists s, In s streams /\ pops q s e q' /\ cursors_from q q' c (Z.of_nat (length streams)).
Proof. apply pop_loop_Some. Qed.

Lemma popFirst_None q streams c : streams <> [] ->
  popFirst q streams c = None <-> forall s, In s streams -> lane q s = [].
Proof.
  intros Hs. unfold popFirst. generalize (match read_cursor q c with
    | Some z => Z.to_nat (Z.rem z (Z.of_nat (length streams))) | None => 0%nat end) as start.
  assert (length streams <> 0)%nat as Hl by by destruct streams.
  intros start. split.
  - intros H s Hin. apply (In_nth streams s ""%string) in Hin as (i & Hi & <-).
    destruct (offsets_cover (length streams) start i Hi) as (o & Ho & <-).
    by eapply pop_loop_None.
  - intros H. generalize (List.seq 0 (length streams)) as offs.
    induction offs as [|o offs IH]; simpl; [done|].
    rewrite H; [done|]. by apply nth_In, Nat.mod_upper_bound.
Qed.

Definition lanes_empty (q : PriorityQueue) (streams : list string) : Prop :=
  forall s, In s streams -> lane q s = [].

(** The three outcomes of [Dequeue]: a bulk message when the priority run
    reached its bound or no priority message is queued, a priority message
    otherwise, nothing when the queue is empty. *)
Inductive dequeue_case (q : PriorityQueue) : PriorityQueue -> option Envelope -> Prop :=
| dequeue_bulk s q1 e :
    In s bulkStreams -> pops q s e q1 -> cursors_from q q1 BulkCursor 2 ->
    MaxConsecutivePriority (limits q) <= consecutivePriority q \/ lanes_empty q priorityStreams ->
    dequeue_case q (set_consecutive q1 0) (Some e)
| dequeue_priority s q1 e :
    In s priorityStreams -> pops q s e q1 -> cursors_from q q1 AuthorityCursor 4 ->
    consecutivePriority q < MaxConsecutivePriority (limits q) \/ lanes_empty q bulkStreams ->
    dequeue_case q (set_consecutive q1 (i64 (consecutivePriority q + 1))) (Some e)
| dequeue_none : lanes_empty q knownStreams -> dequeue_case q q None.

Lemma pops_consecutive q s e q1 : pops q s e q1 -> consecutivePriority q1 = consecutivePriority q.
Proof. by intros (? & ? & ? & ? & ? & ? & ?). Qed.

Lemma popFirst_control q q1 e : popFirst q controlStreams NilCursor = Some (q1, e) ->
  exists s, In s priorityStreams /\ pops q s e q1 /\ cursors_from q q1 AuthorityCursor 4.
Proof.
  intros (s & Hs & Hp & Ha & Hb)%popFirst_Some; [|done].
  exists s. split; [apply in_or_app; by left|]. split; [done|]. unfold cursors_from.
  destruct Ha as [?|[? _]]; [|done]. destruct Hb as [?|[? _]]; [|done]. auto.
Qed.

Lemma popFirst_authority q q1 e : popFirst q authorityStreams AuthorityCursor = Some (q1, e) ->
  exists s, In s priorityStreams /\ pops q s e q1 /\ cursors_from q q1 AuthorityCursor 4.
Proof.
  intros (s & Hs & Hp & Hc)%popFirst_Some; [|done].
  exists s. split; [apply in_or_app; by right|done].
Qed.

Lemma Dequeue_cases q : dequeue_case q (fst (Dequeue q)) (snd (Dequeue q)).
Proof.
  unfold Dequeue. set (overdue := MaxConsecutivePriority (limits q) <=? consecutivePriority q).
  destruct (if overdue then _ else None) as [[q1 e]|] eqn:Eo.
  { unfold overdue in Eo. destruct (Z.leb_spec (MaxConsecutivePriority (limits q)) (consecutivePriority q)); [|done].
    apply popFirst_Some in Eo as (s & Hs & Hp & Hc); [|done]. by eapply dequeue_bulk; eauto. }
  assert (consecutivePriority q < MaxConsecutivePriority (limits q) \/ lanes_empty q bulkStreams) as Hlow.
  { unfold overdue in Eo. destruct (Z.leb_spec (MaxConsecutivePriority (limits q)) (consecutivePriority q)); [|auto].
    right. by rewrite popFirst_None in Eo. }
  destruct (popFirst q controlStreams NilCursor) as [[q1 e]|] eqn:Ec.
  { apply popFirst_control in Ec as (s & Hs & Hp & Hc). simpl.
    rewrite (pops_consecutive _ _ _ _ Hp). by eapply dequeue_priority; eauto. }
  destruct (popFirst q authorityStreams AuthorityCursor) as [[q1 e]|] eqn:Ea.
  { apply popFirst_authority in Ea as (s & Hs & Hp & Hc). simpl.
    rewrite (pops_consecutive _ _ _ _ Hp). by eapply dequeue_priority; eauto. }
  rewrite popFirst_None in Ec by done. rewrite popFirst_None in Ea by done.
  assert (lanes_empty q priorityStreams) as Hempty.
  { intros s [Hs|Hs]%in_app_or; auto. }
  destruct (popFirst q bulkStreams BulkCursor) as [[q1 e]|] eqn:Eb.
  { apply popFirst_Some in Eb as (s & Hs & Hp & Hc); [|done]. by eapply dequeue_bulk; eauto. }
  rewrite popFirst_None in Eb by done. apply dequeue_none.
  intros s Hs. destruct (in_dec string_dec s bulkStreams); [auto|]. apply Hempty.
  simpl in *. tauto.
Qed.

(** *** The invariant is kept *)

Lemma weigh_pops w q s e q1 streams : List.NoDup streams -> pops q s e q1 ->
  weigh w q1 streams
  = weigh w q streams + (if in_dec string_dec s streams then w (tl (lane q s)) - w (lane q s) else 0).
Proof.
  intros Hn (tail & El & Hl & _). rewrite El. simpl. rewrite <- El.
  rewrite <- (weigh_store w q s tail 0 0 streams Hn). apply weigh_ext.
  intros s'. by rewrite Hl, lane_store.
Qed.

Lemma bulk_known s : In s bulkStreams -> In s knownStreams.
Proof. simpl. tauto. Qed.
Lemma priority_known s : In s priorityStreams -> In s knownStreams.
Proof. simpl. tauto. Qed.

Lemma priority_not_bulk s : In s priorityStreams -> In s bulkStreams -> False.
Proof. simpl. intuition (subst; discriminate). Qed.

Lemma weigh_streams_le w q : (forall l, 0 <= w l) -> weigh w q bulkStreams <= weigh w q knownStreams.
Proof. intros H. rewrite weigh_split. pose proof (weigh_nonneg w q priorityStreams H). lia. Qed.

Lemma pops_ok q s e q1 z : queue_ok q -> In s knownStreams -> pops q s e q1 ->
  (authorityCursor q1 = authorityCursor q \/ 0 <= authorityCursor q1 < 4) ->
  (bulkCursor q1 = bulkCursor q \/ 0 <= bulkCursor q1 < 2) -> is_i64 z ->
  queue_ok (set_consecutive q1 z).
Proof.
  intros [] Hs Hp Ha Hb Hz. pose proof Hp as (tail & El & Hl & Elim & Ec & Eb & _).
  pose proof (fun w => weigh_pops w q s e q1 knownStreams known_NoDup Hp) as Hk.
  pose proof (fun w => weigh_pops w q s e q1 bulkStreams bulk_NoDup Hp) as Hbk.
  destruct (in_dec string_dec s knownStreams) as [_|]; [|done].
  assert (weigh msg_count q knownStreams >= 1 + msg_count tail) as Hpos.
  { pose proof (weigh_member msg_count q s knownStreams msg_count_nonneg Hs) as H.
    rewrite El, msg_count_cons in H. lia. }
  assert (weigh payload_bytes q knownStreams >= len (Payload e) + payload_bytes tail) as Hposb.
  { pose proof (weigh_member payload_bytes q s knownStreams payload_bytes_nonneg Hs) as H.
    rewrite El, payload_bytes_cons in H. lia. }
  pose proof (len_nonneg (Payload e)). pose proof (msg_count_nonneg tail).
  pose proof (payload_bytes_nonneg tail).
  pose proof ok_limits0 as (? & ? & ? & ? & ? & ? & ? & ? & ?).
  rewrite i64_id in Ec by (unfold is_i64, two63 in *; lia).
  rewrite i64_id in Eb by (unfold is_i64, two63 in *; lia).
  pose proof (Hk msg_count) as Hkc. pose proof (Hk payload_bytes) as Hkb.
  pose proof (Hbk msg_count) as Hbc. pose proof (Hbk payload_bytes) as Hbb.
  rewrite El in Hkc, Hkb, Hbc, Hbb. cbn [tl] in Hkc, Hkb, Hbc, Hbb.
  rewrite msg_count_cons in Hkc, Hbc. rewrite payload_bytes_cons in Hkb, Hbb.
  split; cbn [set_consecutive limits totalCount totalBytes consecutivePriority authorityCursor bulkCursor];
    rewrite ?Elim, ?weigh_set_consecutive; try done; try lia.
  - intros s' Hs'. rewrite lane_set_consecutive, Hl. case_decide; subst; [done|auto].
  - intros s'. rewrite lane_set_consecutive, Hl. case_decide; subst; [|auto].
    specialize (ok_keyed0 s'). rewrite El in ok_keyed0. by inversion ok_keyed0.
  - intros s'. rewrite lane_set_consecutive, Hl. case_decide; subst; [|auto].
    specialize (ok_sizes0 s'). rewrite El in ok_sizes0. by inversion ok_sizes0.
  - intros s' Hs'. rewrite lane_set_consecutive, Hl. case_decide; subst; [|auto].
    specialize (ok_lane0 s' Hs'). rewrite El, msg_count_cons in ok_lane0. lia.
  - rewrite Hbc. destruct (in_dec string_dec s bulkStreams); lia.
  - rewrite Hbb. destruct (in_dec string_dec s bulkStreams); lia.
Qed.

Lemma i64_succ_range q : is_i64 (i64 (consecutivePriority q + 1)).
Proof. apply i64_range. Qed.

Lemma Dequeue_ok q : queue_ok q -> queue_ok (fst (Dequeue q)).
Proof.
  intros Hok. destruct (Dequeue_cases q) as [s q1 e Hs Hp [Ha Hb] _|s q1 e Hs Hp [Ha Hb] _|_]; [..|done].
  - eapply pops_ok; eauto using bulk_known; [|destruct Hb as [?|[_ ?]]; auto|done].
    destruct Ha as [?|[? _]]; [auto|done].
  - eapply pops_ok; eauto using priority_known, i64_range; [destruct Ha as [?|[_ ?]]; auto|].
    destruct Hb as [?|[? _]]; [auto|done].
Qed.

(** [Enqueue] appends to one lane. *)
Lemma Enqueue_inv q e q' : Enqueue q e = Ok q' ->
  q' = store_lane q (Stream e) (lane q (Stream e) ++ [e])
         (i64 (totalCount q + 1)) (i64 (totalBytes q + len (Payload e)))
  /\ len (Payload e) <= MaxMessageBytes (limits q)
  /\ msg_count (lane q (Stream e)) < stream_limit (limits q) (Stream e)
  /\ i64 (totalCount q + 1) <= MaxTotalMessages (limits q)
  /\ i64 (totalBytes q + len (Payload e)) <= MaxTotalBytes (limits q)
  /\ (isBulk (Stream e) = true ->
      i64 (totalCount q + 1) <= i64 (MaxTotalMessages (limits q) - ReservedPriorityMsgs (limits q))
      /\ i64 (totalBytes q + len (Payload e))
         <= i64 (MaxTotalBytes (limits q) - ReservedPriorityBytes (limits q))).
Proof.
  unfold Enqueue. intros H. run_guards. subst. repeat split; try done.
  all: intros; rewrite H in *; bools; lia.
Qed.

Lemma queue_ok_totals q : queue_ok q -> 0 <= totalCount q /\ 0 <= totalBytes q.
Proof.
  intros []. rewrite ok_count0, ok_bytes0.
  split; apply weigh_nonneg; auto with go.
Qed.

(** The sums [Enqueue] computes do not overflow. *)
Lemma Enqueue_sums q e : queue_ok q -> len (Payload e) <= MaxMessageBytes (limits q) ->
  i64 (totalCount q + 1) = totalCount q + 1
  /\ i64 (totalBytes q + len (Payload e)) = totalBytes q + len (Payload e)
  /\ i64 (MaxTotalMessages (limits q) - ReservedPriorityMsgs (limits q))
     = MaxTotalMessages (limits q) - ReservedPriorityMsgs (limits q)
  /\ i64 (MaxTotalBytes (limits q) - ReservedPriorityBytes (limits q))
     = MaxTotalBytes (limits q) - ReservedPriorityBytes (limits q).
Proof.
  intros Hok He. destruct (queue_ok_totals q Hok). pose proof (len_nonneg (Payload e)).
  destruct Hok. destruct ok_limits0 as (? & ? & ? & ? & ? & ? & ? & ? & ?).
  repeat split; apply i64_id; unfold is_i64, two63 in *; lia.
Qed.

Lemma Enqueue_ok q e q' : queue_ok q -> In (Stream e) knownStreams ->
  Enqueue q e = Ok q' -> queue_ok q'.
Proof.
  intros Hok Hk H. apply Enqueue_inv in H as (-> & Hsize & Hlane & Hc & Hb & Hbulk).
  destruct (Enqueue_sums q e Hok Hsize) as (E1 & E2 & E3 & E4).
  rewrite E1, E2, ?E3, ?E4 in *. destruct Hok.
  pose proof (fun w => weigh_store w q (Stream e) (lane q (Stream e) ++ [e])
    (totalCount q + 1) (totalBytes q + len (Payload e)) knownStreams known_NoDup) as Hwk.
  pose proof (fun w => weigh_store w q (Stream e) (lane q (Stream e) ++ [e])
    (totalCount q + 1) (totalBytes q + len (Payload e)) bulkStreams bulk_NoDup) as Hwb.
  destruct (in_dec string_dec (Stream e) knownStreams) as [_|]; [|done].
  pose proof (weigh_streams_le msg_count q msg_count_nonneg).
  pose proof (weigh_streams_le payload_bytes q payload_bytes_nonneg).
  assert (msg_count [e] = 1) as H1 by done.
  assert (payload_bytes [e] = len (Payload e)) as H2 by (cbn; lia).
  split; cbn [store_lane limits totalCount totalBytes consecutivePriority authorityCursor bulkCursor];
    try done; rewrite ?Hwk, ?Hwb, ?msg_count_app, ?payload_bytes_app, ?H1, ?H2; try lia.
  - intros s Hs. rewrite lane_store. case_decide; subst; [done|auto].
  - intros s. rewrite lane_store. case_decide; subst; [|auto].
    apply Forall_app. split; [apply ok_keyed0|by repeat constructor].
  - intros s. rewrite lane_store. case_decide; subst; [|auto].
    apply Forall_app. split; [apply ok_sizes0|by repeat constructor].
  - intros s Hs. rewrite lane_store. case_decide; subst; [|auto].
    rewrite msg_count_app, H1. lia.
  - destruct (in_dec _ _ _) as [Hin|Hin]; [|lia].
    apply isBulk_in in Hin. destruct (Hbulk Hin). lia.
  - destruct (in_dec _ _ _) as [Hin|Hin]; [|lia].
    apply isBulk_in in Hin. destruct (Hbulk Hin). lia.
Qed.

(** ** Runs of the scheduler *)

(** The calls other goroutines interleave under the queue's mutex. *)
Inductive queue_op := OpEnqueue (e : Envelope) | OpDequeue.

(** A call's effect: the next state, the message it accepted, the message it
    returned.  A refused [Enqueue] changes nothing. *)
Definition queue_step (q : PriorityQueue) (op : queue_op) :
  PriorityQueue * option Envelope * option Envelope :=
  match op with
  | OpEnqueue e => match Enqueue q e with Ok q' => (q', Some e, None) | Err _ => (q, None, None) end
  | OpDequeue => (fst (Dequeue q), None, snd (Dequeue q))
  end.

(** Final state, accepted messages and returned messages of a run, in order. *)
Fixpoint queue_run (q : PriorityQueue) (ops : list queue_op) :
  PriorityQueue * list Envelope * list Envelope :=
  match ops with
  | [] => (q, [], [])
  | op :: rest =>
      let '(q1, acc, del) := queue_step q op in
      let '(q2, accs, dels) := queue_run q1 rest in
      (q2, option_list acc ++ accs, option_list del ++ dels)
  end.

Definition run_final q ops : PriorityQueue := fst (fst (queue_run q ops)).
Definition run_accepted q ops : list Envelope := snd (fst (queue_run q ops)).
Definition run_delivered q ops : list Envelope := snd (queue_run q ops).

Definition op_known (op : queue_op) : Prop :=
  match op with OpEnqueue e => In (Stream e) knownStreams | OpDequeue => True end.

(** The messages of one logical stream, in order. *)
Definition of_stream (s : string) (l : list Envelope) : list Envelope :=
  List.filter (fun e => (Stream e =? s)%string) l.

Lemma run_cons q op rest :
  run_final q (op :: rest) = run_final (fst (fst (queue_step q op))) rest
  /\ run_accepted q (op :: rest)
     = option_list (snd (fst (queue_step q op))) ++ run_accepted (fst (fst (queue_step q op))) rest
  /\ run_delivered q (op :: rest)
     = option_list (snd (queue_step q op)) ++ run_delivered (fst (fst (queue_step q op))) rest.
Proof.
  unfold run_final, run_accepted, run_delivered. simpl.
  destruct (queue_step q op) as [[q1 acc] del]. simpl.
  destruct (queue_run q1 rest) as [[q2 accs] dels]. done.
Qed.

Lemma queue_step_ok q op : queue_ok q -> op_known op -> queue_ok (fst (fst (queue_step q op))).
Proof.
  intros Hok Hop. destruct op as [e|]; simpl; [|by apply Dequeue_ok].
  destruct (Enqueue q e) eqn:E; [|done]. by eapply Enqueue_ok.
Qed.

Lemma of_stream_app s l1 l2 : of_stream s (l1 ++ l2) = of_stream s l1 ++ of_stream s l2.
Proof. apply List.filter_app. Qed.

Lemma Enqueue_lane q e q' s : Enqueue q e = Ok q' -> lane q' s = lane q s ++ of_stream s [e].
Proof.
  intros (-> & _)%Enqueue_inv. rewrite lane_store. cbn.
  destruct (String.eqb_spec (Stream e) s); case_decide; subst; try done. by rewrite app_nil_r.
Qed.

Lemma Dequeue_lane q s : queue_ok q ->
  of_stream s (option_list (snd (Dequeue q))) ++ lane (fst (Dequeue q)) s = lane q s.
Proof.
  intros Hok. destruct (Dequeue_cases q) as [t q1 e _ Hp _ _|t q1 e _ Hp _ _|_]; [..|done].
  all: rewrite lane_set_consecutive; destruct Hp as (tail & El & Hl & _); rewrite Hl; cbn.
  all: assert (Stream e = t) as Ht
    by (pose proof (ok_keyed q Hok t) as Hk; rewrite El in Hk; by inversion Hk).
  all: destruct (String.eqb_spec (Stream e) s); case_decide; subst; try done; congruence.
Qed.

Lemma queue_step_lane q op s : queue_ok q ->
  of_stream s (option_list (snd (queue_step q op))) ++ lane (fst (fst (queue_step q op))) s
  = lane q s ++ of_stream s (option_list (snd (fst (queue_step q op)))).
Proof.
  intros Hok. destruct op as [e|]; simpl.
  - destruct (Enqueue q e) eqn:E; simpl; [by apply Enqueue_lane|by rewrite app_nil_r].
  - by rewrite Dequeue_lane, app_nil_r.
Qed.

Definition is_dequeue (op : queue_op) : bool :=
  match op with OpDequeue => true | OpEnqueue _ => false end.
Definition dequeues (ops : list queue_op) : Z := Z.of_nat (length (List.filter is_dequeue ops)).

Definition bulk_waiting (q : PriorityQueue) : Prop := exists s, In s bulkStreams /\ lane q s <> [].

(** A dequeue while bulk traffic waits returns a bulk message or counts. *)
Lemma Dequeue_waiting q : queue_ok q -> bulk_waiting q ->
  (exists e, snd (Dequeue q) = Some e /\ isBulk (Stream e) = true)
  \/ (bulk_waiting (fst (Dequeue q))
      /\ consecutivePriority q < MaxConsecutivePriority (limits q)
      /\ limits (fst (Dequeue q)) = limits q
      /\ consecutivePriority (fst (Dequeue q)) = consecutivePriority q + 1).
Proof.
  intros Hok (b & Hb & Hbl).
  destruct (Dequeue_cases q) as [s q1 e Hs Hp _ _|s q1 e Hs Hp _ Hlow|He].
  - left. exists e. split; [done|]. destruct Hp as (tail & El & _).
    pose proof (ok_keyed q Hok s) as Hk. rewrite El in Hk. inversion Hk; subst. by apply isBulk_in.
  - right. destruct Hlow as [Hlow|Hlow]; [|by rewrite Hlow in Hbl].
    destruct Hp as (tail & El & Hl & Elim & _). cbn. repeat split; [|done|done|].
    + exists b. split; [done|]. rewrite lane_set_consecutive, Hl. case_decide; [subst|done].
      by destruct (priority_not_bulk b).
    + pose proof (ok_consecutive q Hok). pose proof (ok_limits q Hok) as (_ & _ & _ & _ & _ & ? & _).
      apply i64_id. unfold is_i64 in *. lia.
  - by rewrite He in Hbl by by apply bulk_known.
Qed.

Lemma Enqueue_waiting q e q' : Enqueue q e = Ok q' -> bulk_waiting q ->
  bulk_waiting q' /\ limits q' = limits q /\ consecutivePriority q' = consecutivePriority q.
Proof.
  intros H (s & Hs & Hl). pose proof (Enqueue_lane _ _ _ s H) as Hls.
  apply Enqueue_inv in H as (-> & _). repeat split. exists s. split; [done|].
  rewrite Hls. destruct (lane q s); [done|by destruct (of_stream s [e])].
Qed.

Lemma empty_queue_ok l : limits_ok l -> queue_ok (MkQueue l ∅ 0 0 0 0 0).
Proof.
  intros H. pose proof H as (? & ? & ? & ? & ? & ? & Hf & ? & ?).
  assert (forall w streams, w [] = 0 -> weigh w (MkQueue l ∅ 0 0 0 0 0) streams = 0) as Hw.
  { intros w streams H0'. unfold weigh. induction streams as [|s t IH]; [done|].
    cbn [foldr]. rewrite IH. change (w [] + 0 = 0). lia. }
  split; rewrite ?Hw by done; cbn [limits totalCount totalBytes authorityCursor bulkCursor];
    try done; try (intros; by constructor); try lia.
  intros s Hs. rewrite List.Forall_forall in Hf. specialize (Hf s Hs).
  change (0 <= stream_limit l s). lia.
Qed.

Lemma run_final_ok ops : forall q, queue_ok q -> Forall op_known ops -> queue_ok (run_final q ops).
Proof.
  induction ops as [|op ops IH]; intros q Hok Hops; [done|]. inversion Hops; subst.
  destruct (run_cons q op ops) as (-> & _). by apply IH; [apply queue_step_ok|].
Qed.

(** *** Properties *)

(** limits that [NewPriorityQueue] accepts and that fit [int] sums give an
    empty queue in the invariant; anything else is refused. *)
Theorem NewPriorityQueue_correct l :
  MaxTotalMessages l + 1 < two63 -> MaxTotalBytes l + MaxMessageBytes l < two63 ->
  MaxConsecutivePriority l < two63 ->
  match NewPriorityQueue l with
  | Ok q => queue_ok q /\ limits q = l /\ (forall s, lane q s = [])
  | Err _ => ~ limits_ok l
  end.
Proof.
  intros H1 H2 H3. destruct (NewPriorityQueue l) as [q|err] eqn:E.
  - unfold NewPriorityQueue in E. run_guards.
    destruct (List.find _ knownStreams) eqn:Ef; [discriminate E|]. injection E as <-.
    assert (Forall (fun s => 1 <= stream_limit l s) knownStreams) as Hf.
    { apply List.Forall_forall. intros s Hs. pose proof (List.find_none _ _ Ef s Hs). cbn in *. lia. }
    split; [|done]. apply empty_queue_ok. repeat split; done || lia.
  - intros (? & ? & ? & ? & ? & ? & Hf & _).
    unfold NewPriorityQueue in E.
    rewrite !fail_if_pass in E by lia.
    destruct (List.find _ knownStreams) eqn:Ef; [|discriminate E].
    apply List.find_some in Ef as [Hin Hlt]. rewrite List.Forall_forall in Hf.
    specialize (Hf _ Hin). cbn in *. lia.
Qed.

(** the invariant holds along every run: totals equal the queued messages
    and bytes, the limits are respected, and no [int] sum overflows. *)
Theorem queue_invariant q ops :
  queue_ok q -> Forall op_known ops -> queue_ok (run_final q ops).
Proof. apply run_final_ok. Qed.

(** bulk traffic cannot consume the reserve: a priority message that fits
    its own stream's limit and the reserve left by queued priority traffic is
    accepted, whatever bulk traffic is queued. *)
Theorem priority_reserve_available q e :
  queue_ok q -> In (Stream e) priorityStreams ->
  len (Payload e) <= MaxMessageBytes (limits q) ->
  msg_count (lane q (Stream e)) < stream_limit (limits q) (Stream e) ->
  weigh msg_count q priorityStreams + 1 <= ReservedPriorityMsgs (limits q) ->
  weigh payload_bytes q priorityStreams + len (Payload e) <= ReservedPriorityBytes (limits q) ->
  exists q', Enqueue q e = Ok q'.
Proof.
  intros Hok Hp Hsize Hlane Hres Hresb.
  destruct (Enqueue_sums q e Hok Hsize) as (E1 & E2 & E3 & E4).
  pose proof (weigh_split msg_count q). pose proof (weigh_split payload_bytes q).
  destruct Hok. unfold Enqueue. rewrite E1, E2.
  assert (isBulk (Stream e) = false) as ->.
  { destruct (isBulk (Stream e)) eqn:Eb; [|done]. apply isBulk_in in Eb.
    by destruct (priority_not_bulk (Stream e)). }
  unfold msg_count in *. rewrite !fail_if_pass by (rewrite ?andb_false_l; lia || done). eauto.
Qed.

(** every logical stream is a FIFO: along any run, what was returned of a
    stream followed by what is still queued is exactly what was queued followed
    by what was accepted: nothing is lost, duplicated or reordered. *)
Theorem per_stream_fifo q ops s :
  queue_ok q -> Forall op_known ops ->
  of_stream s (run_delivered q ops) ++ lane (run_final q ops) s
  = lane q s ++ of_stream s (run_accepted q ops).
Proof.
  intros Hok Hops. revert q Hok. induction Hops as [|op ops Hop Hops IH]; intros q Hok.
  - cbn. by rewrite app_nil_r.
  - destruct (run_cons q op ops) as (-> & -> & ->).
    rewrite !of_stream_app, <- app_assoc, IH by by apply queue_step_ok.
    by rewrite app_assoc, queue_step_lane, <- app_assoc.
Qed.

(** C38: continuous priority traffic cannot starve bulk traffic: while a bulk
    message waits, any run with more dequeues than the priority run still
    allows returns a bulk message. *)
Theorem bulk_not_starved q ops :
  queue_ok q -> Forall op_known ops -> bulk_waiting q ->
  MaxConsecutivePriority (limits q) - consecutivePriority q < dequeues ops ->
  1 <= dequeues ops ->
  Exists (fun e => isBulk (Stream e) = true) (run_delivered q ops).
Proof.
  intros Hok Hops. revert q Hok. induction Hops as [|op ops Hop Hops IH]; intros q Hok Hw Hn H1.
  - by unfold dequeues in H1.
  - destruct (run_cons q op ops) as (_ & _ & ->). pose proof (queue_step_ok q op Hok Hop) as Hok'.
    apply Exists_app. destruct op as [e|].
    + right. cbn in *. unfold dequeues in *. cbn in Hn, H1.
      destruct (Enqueue q e) as [q'|err] eqn:E; cbn in *; [|by apply IH].
      destruct (Enqueue_waiting _ _ _ E Hw) as (Hw' & Elim & Ec). apply IH; try done.
      by rewrite Elim, Ec.
    + cbn in *. destruct (Dequeue_waiting q Hok Hw) as [(e & -> & He)|(Hw' & Hlt & Elim & Ec)].
      { left. by constructor. }
      right. unfold dequeues in *. cbn in Hn, H1. apply IH; try done; rewrite ?Elim, ?Ec; lia.
Qed.

(** [Dequeue] never blocks on a non-empty queue: it returns a message
    exactly when the message count is positive. *)
Theorem Dequeue_progress q :
  queue_ok q -> (snd (Dequeue q) <> None <-> 0 < totalCount q).
Proof.
  intros Hok. rewrite (ok_count q Hok). destruct (Dequeue_cases q) as [s q1 e Hs Hp _ _|s q1 e Hs Hp _ _|He]; cbn [snd].
  3: { split; [done|]. unfold weigh. simpl.
       rewrite !He by (simpl; tauto). unfold msg_count. simpl. lia. }
  all: split; [intros _|done]; destruct Hp as (tail & El & _);
    pose proof (weigh_member msg_count q s knownStreams msg_count_nonneg) as Hm;
    rewrite El, msg_count_cons in Hm; pose proof (msg_count_nonneg tail).
  - pose proof (Hm (bulk_known s Hs)). lia.
  - pose proof (Hm (priority_known s Hs)). lia.
Qed.

(** *** A concrete queue: the limits of the program's own tests *)

Definition demo_limits : QueueLimits :=
  MkLimits 64 8 64 2 16 4
    (list_to_map ((fun s => (s, 8)) <$> knownStreams)).
Definition demo_queue : PriorityQueue := MkQueue demo_limits ∅ 0 0 0 0 0.

Definition demo_message (stream id payload : string) : Envelope :=
  NewEnvelope "host-a" 1 stream id "kim.test/v1" "scope" 1 payload.

(** One bulk message waits behind five commands. *)
Definition demo_ops : list queue_op :=
  OpEnqueue (demo_message StreamInventory "inventory" "bulk")
  :: ((fun id => OpEnqueue (demo_message StreamCommand id "command")) <$> ["c1"; "c2"; "c3"; "c4"; "c5"]%string).

Lemma op_known_enqueue e : known_stream (Stream e) = true -> op_known (OpEnqueue e).
Proof. apply known_stream_in. Qed.

Ltac known_ops := cbn [fmap list_fmap];
  repeat (apply Forall_cons_2; [first [apply op_known_enqueue; reflexivity | exact I]|]); apply Forall_nil_2.

Lemma demo_limits_ok : limits_ok demo_limits.
Proof. unfold limits_ok. repeat split; try (vm_compute; done). repeat constructor; vm_compute; done. Qed.

Lemma demo_queue_ok : queue_ok demo_queue.
Proof. apply empty_queue_ok, demo_limits_ok. Qed.

Lemma demo_ops_known : Forall op_known demo_ops.
Proof. unfold demo_ops. known_ops. Qed.

Lemma demo_busy_ok : queue_ok (run_final demo_queue demo_ops).
Proof. apply run_final_ok; [apply demo_queue_ok|apply demo_ops_known]. Qed.

Lemma NewPriorityQueue_correct_witness :
  match NewPriorityQueue demo_limits with
  | Ok q => queue_ok q /\ limits q = demo_limits /\ (forall s, lane q s = [])
  | Err _ => ~ limits_ok demo_limits
  end.
Proof. apply (NewPriorityQueue_correct demo_limits); vm_compute; reflexivity. Defined.

Lemma queue_invariant_witness : queue_ok (run_final demo_queue demo_ops).
Proof. apply (queue_invariant demo_queue demo_ops); [apply demo_queue_ok|apply demo_ops_known]. Defined.

(** Six bulk messages fill everything but the reserve. *)
Lemma priority_reserve_available_witness :
  let bulk := (fun id => OpEnqueue (demo_message StreamInventory id "bulk")) <$> ["1"; "2"; "3"; "4"; "5"; "6"]%string in
  exists q', Enqueue (run_final demo_queue bulk) (demo_message StreamHeartbeat "hb" "health") = Ok q'.
Proof.
  apply (priority_reserve_available _ (demo_message StreamHeartbeat "hb" "health")).
  - apply run_final_ok; [apply demo_queue_ok|known_ops].
  - do 3 right. left. reflexivity.
  - vm_compute. discriminate.
  - vm_compute. reflexivity.
  - vm_compute. discriminate.
  - vm_compute. discriminate.
Defined.

Lemma per_stream_fifo_witness :
  of_stream StreamCommand (run_delivered demo_queue (demo_ops ++ [OpDequeue; OpDequeue]))
    ++ lane (run_final demo_queue (demo_ops ++ [OpDequeue; OpDequeue])) StreamCommand
  = lane demo_queue StreamCommand
    ++ of_stream StreamCommand (run_accepted demo_queue (demo_ops ++ [OpDequeue; OpDequeue])).
Proof.
  apply (per_stream_fifo demo_queue); [apply demo_queue_ok|].
  apply Forall_app. split; [apply demo_ops_known|known_ops].
Defined.

Lemma bulk_not_starved_witness :
  Exists (fun e => isBulk (Stream e) = true)
    (run_delivered (run_final demo_queue demo_ops) [OpDequeue; OpDequeue; OpDequeue; OpDequeue; OpDequeue]).
Proof.
  apply (bulk_not_starved (run_final demo_queue demo_ops)); [apply demo_busy_ok|known_ops| | |].
  - exists StreamInventory. split; [left; reflexivity|]. vm_compute. discriminate.
  - vm_compute. reflexivity.
  - vm_compute. discriminate.
Defined.

Lemma Dequeue_progress_witness :
  snd (Dequeue (run_final demo_queue demo_ops)) <> None <-> 0 < totalCount (run_final demo_queue demo_ops).
Proof. apply (Dequeue_progress _ demo_busy_ok). Defined.
