(* ===== verification/Authority.v ===== *)
(** * session/authority.go: the Agent's view of its session authority

    [MemoryAuthorityView] is a snapshot under a read-write mutex; [Apply] is its
    only update.  The theorems follow any sequence of updates. *)

From S2P Require Import Prelude.
Local Open Scope Z_scope.
Local Open Scope go_scope.

Definition ErrSessionFenced : goerr := errors_New "agent transport session is fenced".

Definition AuthorityCurrent : string := "CURRENT".
Definition AuthorityFenced : string := "FENCED".
Definition AuthorityUnknown : string := "UNKNOWN".

Record AuthoritySnapshot := MkSnapshot {
  snap_HostIdentity : string;
  snap_SessionGeneration : Z;
  snap_State : string;
}.

#[export] Instance AuthoritySnapshot_eq_dec : EqDecision AuthoritySnapshot.
Proof. solve_decision. Defined.

(** The view's state is its snapshot, which [Snapshot] returns. *)
Definition MemoryAuthorityView : Type := AuthoritySnapshot.

Definition NewMemoryAuthorityView (host : string) (generation : Z) : res MemoryAuthorityView :=
  fail_if ((host ==s "") || (generation =? 0))
    (errors_New "complete session authority identity is required");;
  Ok (MkSnapshot host generation AuthorityCurrent).

Definition Snapshot (view : MemoryAuthorityView) : AuthoritySnapshot := view.

(** [MemoryAuthorityView.Apply]: the next state of the view, or an error and
    the view unchanged. *)
Definition Apply (view : MemoryAuthorityView) (next : AuthoritySnapshot) : res MemoryAuthorityView :=
  fail_if ((snap_HostIdentity next ==s "") || (snap_SessionGeneration next =? 0))
    (errors_New "complete session authority snapshot is required");;
  fail_if ((snap_State next !=s AuthorityCurrent) && (snap_State next !=s AuthorityFenced)
           && (snap_State next !=s AuthorityUnknown))
    (errors_New "unknown session authority state");;
  let current := view in
  fail_if (snap_HostIdentity next !=s snap_HostIdentity current)
    (errors_New "session authority Host identity cannot change");;
  fail_if (snap_SessionGeneration next <? snap_SessionGeneration current)
    (errors_New "session authority generation cannot decrease");;
  fail_if ((snap_SessionGeneration next =? snap_SessionGeneration current)
           && (snap_State current !=s AuthorityCurrent) && (snap_State next ==s AuthorityCurrent))
    (errors_New "same-generation session authority cannot rearm");;
  Ok next.

(** The view after a sequence of updates, refused ones skipped. *)
Definition apply_step (view : MemoryAuthorityView) (next : AuthoritySnapshot) : MemoryAuthorityView :=
  match Apply view next with Ok v => v | Err _ => view end.
Definition apply_all (view : MemoryAuthorityView) (nexts : list AuthoritySnapshot) :
  MemoryAuthorityView := foldl apply_step view nexts.

Lemma apply_step_cases view next :
  apply_step view next = view
  \/ (apply_step view next = next /\ snap_HostIdentity next = snap_HostIdentity view
      /\ snap_SessionGeneration view <= snap_SessionGeneration next
      /\ (snap_SessionGeneration next = snap_SessionGeneration view ->
          snap_State view <> AuthorityCurrent -> snap_State next <> AuthorityCurrent)).
Proof.
  unfold apply_step. destruct (Apply view next) as [v|e] eqn:E; [right|by left].
  unfold Apply in E. run_guards. subst v. repeat split; try done.
  intros Hg Hs Hn. rewrite Hg, Hn in *. rewrite Z.eqb_refl in *. simpl in *.
  apply String.eqb_neq in Hs. rewrite Hs in *. done.
Qed.

Lemma apply_all_monotone view nexts :
  snap_HostIdentity (apply_all view nexts) = snap_HostIdentity view
  /\ snap_SessionGeneration view <= snap_SessionGeneration (apply_all view nexts).
Proof.
  revert view. induction nexts as [|next nexts IH]; intros view; [split; [done|cbn; lia]|].
  cbn [apply_all foldl]. destruct (IH (apply_step view next)) as [H1 H2].
  unfold apply_all in *. rewrite H1.
  destruct (apply_step_cases view next) as [E|(E & ? & ? & _)]; rewrite E in *; split; done || lia.
Qed.

(** along any sequence of updates the Host identity is fixed and the
    session generation never decreases. *)
Theorem authority_monotone view nexts :
  snap_HostIdentity (apply_all view nexts) = snap_HostIdentity view
  /\ snap_SessionGeneration view <= snap_SessionGeneration (apply_all view nexts).
Proof. apply apply_all_monotone. Qed.

(** fencing is final for a generation: once a view is not CURRENT, no
    sequence of updates makes it CURRENT again at the same generation. *)
Theorem fenced_generation_never_rearms view nexts :
  snap_State view <> AuthorityCurrent ->
  snap_SessionGeneration (apply_all view nexts) = snap_SessionGeneration view ->
  snap_State (apply_all view nexts) <> AuthorityCurrent.
Proof.
  revert view. induction nexts as [|next nexts IH]; intros view Hs Hg; [done|].
  pose proof (apply_all_monotone (apply_step view next) nexts) as [_ Hm].
  cbn [apply_all foldl] in *. change (foldl apply_step (apply_step view next) nexts)
    with (apply_all (apply_step view next) nexts) in *.
  destruct (apply_step_cases view next) as [E|(E & ? & ? & Hre)].
  - rewrite E in *. by apply IH.
  - rewrite E in *. apply IH; [apply Hre; [lia|done]|lia].
Qed.

Lemma fenced_generation_never_rearms_witness :
  let view := MkSnapshot "host-a" 3 AuthorityFenced in
  let nexts := [MkSnapshot "host-a" 3 AuthorityCurrent; MkSnapshot "host-a" 3 AuthorityUnknown] in
  snap_State (apply_all view nexts) <> AuthorityCurrent.
Proof. apply fenced_generation_never_rearms; [discriminate|reflexivity]. Defined.
