(* ===== verification/Manager.v ===== *)
(** * session/manager.go: the Session Manager

    One Manager owns the transport connection of one Host identity, the module
    table and the outbound queue.  What the environment answers is an argument
    of each call: the authority view's snapshot, the transport's results, and
    the queue operations other goroutines perform while the call is outside the
    queue's mutex. *)

From S2P Require Import Prelude GoStd GoJson Envelope PriorityQueue Authority.
Local Open Scope Z_scope.
Local Open Scope go_scope.

Definition ErrSessionAlreadyOpen : goerr := errors_New "agent transport session is already open".
Definition ErrSessionNotOpen : goerr := errors_New "agent transport session is not open".
Definition ErrModuleSetSealed : goerr :=
  errors_New "agent module set is sealed for the session handshake".
Definition ErrStaleSession : goerr := errors_New "stale agent transport session".

Record ModuleDescriptor := MkDescriptor {
  md_Name : string;
  md_Capabilities : list string;
  md_MinSchemaVersion : string;
  md_MaxSchemaVersion : string;
  md_MessageSchemas : list string;
}.

(** The [Module] interface. *)
Record Module := MkModule {
  Descriptor : ModuleDescriptor;
  Handle : Envelope -> res unit;
}.

Record Handshake := MkHandshake {
  hs_HostIdentity : string;
  hs_SessionGeneration : Z;
  hs_ProtocolVersion : string;
  hs_Capabilities : list string;
  hs_SessionAttemptID : string;
  hs_ConnectionInstanceID : string;
  hs_AgentArtifactDigest : string;
  hs_CredentialBindingRevision : Z;
}.

(** A live [TransportConnection], by identity. *)
Abbreviation conn := Z.

Record Manager := MkManager {
  handshake : Handshake;
  queue : PriorityQueue;
  modules : gmap string Module;
  connection : option conn;
  opening : bool;
  sealed : bool;
}.

Definition with_queue (m : Manager) (q : PriorityQueue) : Manager :=
  MkManager (handshake m) q (modules m) (connection m) (opening m) (sealed m).
Definition with_connection (m : Manager) (c : option conn) (op : bool) : Manager :=
  MkManager (handshake m) (queue m) (modules m) c op (sealed m).

(** [NewManagerWithAuthority]; [None] is a nil argument. *)
Definition NewManagerWithAuthority (hs : Handshake) (adapter : option unit)
    (q : option PriorityQueue) (authority : option AuthoritySnapshot) : res Manager :=
  fail_if ((hs_HostIdentity hs ==s "") || (hs_SessionGeneration hs =? 0)
           || (hs_ProtocolVersion hs ==s ""))
    (errors_New "complete Agent handshake identity is required");;
  match adapter, q, authority with
  | Some _, Some q, Some _ => Ok (MkManager hs q ∅ None false false)
  | _, _, _ =>
      Err (errors_New "transport adapter, priority queue, and authority view are required")
  end.

(** [NewManager]: the Manager and the local authority view it creates. *)
Definition NewManager (hs : Handshake) (adapter : option unit) (q : option PriorityQueue) :
  res (Manager * MemoryAuthorityView) :=
  authority ← NewMemoryAuthorityView (hs_HostIdentity hs) (hs_SessionGeneration hs);
  m ← NewManagerWithAuthority hs adapter q (Some authority);
  Ok (m, authority).

(** [manager.validateAuthority], on the snapshot the authority view returns. *)
Definition validateAuthority (current : AuthoritySnapshot) (host : string) (generation : Z) : res unit :=
  fail_if (snap_State current !=s AuthorityCurrent) ErrSessionFenced;;
  fail_if ((host !=s snap_HostIdentity current) || (generation !=z snap_SessionGeneration current))
    ErrStaleSession.

(** [manager.validateCurrent] *)
Definition validateCurrent (m : Manager) (current : AuthoritySnapshot) (envelope : Envelope) : res unit :=
  validateAuthority current (HostIdentity envelope) (SessionGeneration envelope);;
  Validate envelope (MaxMessageBytes (limits (queue m))).

(** Every schema the registered modules advertise. *)
Definition registered_schemas (ms : gmap string Module) : list string :=
  map_to_list ms ≫= fun p => md_MessageSchemas (Descriptor (snd p)).

Fixpoint check_schemas (taken : list string) (schemas : list string) : res unit :=
  match schemas with
  | [] => Ok tt
  | schema :: rest =>
      fail_if (schema ==s "") (errors_New "Agent module message schema must not be empty");;
      fail_if (existsb (String.eqb schema) taken)
        (Errorf "Agent message schema %q is already registered" [schema]);;
      check_schemas taken rest
  end.

(** [Manager.RegisterModule] *)
Definition RegisterModule (m : Manager) (module : option Module) : res Manager :=
  match module with
  | None => Err (errors_New "Agent module is required")
  | Some module =>
      let descriptor := Descriptor module in
      fail_if ((md_Name descriptor ==s "") || (Nat.eqb (length (md_Capabilities descriptor)) 0))
        (errors_New "Agent module descriptor name and capabilities are required");;
      fail_if (sealed m) ErrModuleSetSealed;;
      fail_if (bool_decide (is_Some (modules m !! md_Name descriptor)))
        (Errorf "Agent module %q is already registered" [md_Name descriptor]);;
      check_schemas (registered_schemas (modules m)) (md_MessageSchemas descriptor);;
      let hs := handshake m in
      Ok (MkManager
            (MkHandshake (hs_HostIdentity hs) (hs_SessionGeneration hs) (hs_ProtocolVersion hs)
               (hs_Capabilities hs ++ md_Capabilities descriptor)
               (hs_SessionAttemptID hs) (hs_ConnectionInstanceID hs)
               (hs_AgentArtifactDigest hs) (hs_CredentialBindingRevision hs))
            (queue m) (<[md_Name descriptor := module]> (modules m))
            (connection m) (opening m) (sealed m))
  end.

(** *** Open: three critical sections *)

(** Up to the first unlock: claim the attempt and seal the module set. *)
Definition open_begin (m : Manager) : res Manager :=
  fail_if (bool_decide (is_Some (connection m)) || opening m) ErrSessionAlreadyOpen;;
  Ok (MkManager (handshake m) (queue m) (modules m) (connection m) true true).

(** The authority check failed: release the attempt. *)
Definition open_refused (m : Manager) : Manager := with_connection m (connection m) false.

(** After [adapter.Open] returned. *)
Definition open_finish (m : Manager) (opened : res conn) : Manager * res unit :=
  match opened with
  | Err err => (with_connection m (connection m) false,
                Err (Wrapf "open Agent transport session: %w" [] err))
  | Ok c => (with_connection m (Some c) false, Ok tt)
  end.

(** [Manager.Open] *)
Definition Open (m : Manager) (current : AuthoritySnapshot) (opened : res conn) : Manager * res unit :=
  match open_begin m with
  | Err err => (m, Err err)
  | Ok m1 =>
      match validateAuthority current (hs_HostIdentity (handshake m1))
              (hs_SessionGeneration (handshake m1)) with
      | Err err => (open_refused m1, Err err)
      | Ok _ => open_finish m1 opened
      end
  end.

(** [Manager.Publish] *)
Definition Publish (m : Manager) (current : AuthoritySnapshot) (envelope : Envelope) : Manager * res unit :=
  match validateCurrent m current envelope with
  | Err err => (m, Err err)
  | Ok _ =>
      match Enqueue (queue m) envelope with
      | Err err => (m, Err err)
      | Ok q => (with_queue m q, Ok tt)
      end
  end.

(** A call of [module.Handle]: the module's name and its message. *)
Abbreviation handled := (list (string * Envelope)).

(** [Manager.AcceptInbound]: the result and the handler calls made. *)
Definition AcceptInbound (m : Manager) (current : AuthoritySnapshot) (moduleName : string)
    (envelope : Envelope) : res unit * handled :=
  match validateCurrent m current envelope with
  | Err err => (Err err, [])
  | Ok _ =>
      match modules m !! moduleName with
      | None => (Err (Errorf "Agent module %q is not registered" [moduleName]), [])
      | Some module => (Handle module envelope, [(moduleName, envelope)])
      end
  end.

(** The selection loop of [ReceiveAndRoute]: over the modules, and over each
    module's schemas. *)
Fixpoint select_schema (schema : string) (name : string) (module : Module) (schemas : list string)
    (selected : option (string * Module)) : res (option (string * Module)) :=
  match schemas with
  | [] => Ok selected
  | s :: rest =>
      if s !=s schema then select_schema schema name module rest selected
      else
        match selected with
        | Some _ => Err (Errorf "multiple Agent modules advertise schema %q" [schema])
        | None => select_schema schema name module rest (Some (name, module))
        end
  end.

Fixpoint select_module (schema : string) (ms : list (string * Module))
    (selected : option (string * Module)) : res (option (string * Module)) :=
  match ms with
  | [] => Ok selected
  | (name, module) :: rest =>
      selected' ← select_schema schema name module (md_MessageSchemas (Descriptor module)) selected;
      select_module schema rest selected'
  end.

(** [Manager.ReceiveAndRoute], on what [connection.Receive] returned. *)
Definition ReceiveAndRoute (m : Manager) (current : AuthoritySnapshot) (received : res Envelope) :
  res unit * handled :=
  match connection m with
  | None => (Err ErrSessionNotOpen, [])
  | Some _ =>
      match received with
      | Err err => (Err err, [])
      | Ok envelope =>
          match validateCurrent m current envelope with
          | Err err => (Err err, [])
          | Ok _ =>
              match select_module (SchemaVersion envelope) (map_to_list (modules m)) None with
              | Err err => (Err err, [])
              | Ok None =>
                  (Err (Errorf "no Agent module advertises schema %q" [SchemaVersion envelope]), [])
              | Ok (Some (name, module)) => (Handle module envelope, [(name, envelope)])
              end
          end
      end
  end.

(** [Manager.FlushOne].  [between] are the queue operations other goroutines
    make between the dequeue and a requeue. *)
Definition FlushOne (m : Manager) (current : AuthoritySnapshot) (send : Envelope -> res unit)
    (between : list queue_op) : Manager * res bool :=
  match connection m with
  | None => (m, Err ErrSessionNotOpen)
  | Some _ =>
      match Dequeue (queue m) with
      | (q, None) => (with_queue m q, Ok false)
      | (q, Some envelope) =>
          let q1 := run_final q between in
          match validateCurrent m current envelope with
          | Err err =>
              match Enqueue q1 envelope with
              | Ok q2 => (with_queue m q2, Err err)
              | Err _ => (with_queue m q1, Err err)
              end
          | Ok _ =>
              match send envelope with
              | Err err =>
                  match Enqueue q1 envelope with
                  | Ok q2 => (with_queue m q2, Err err)
                  | Err queueErr => (with_queue m q1, Err (ErrJoin err queueErr))
                  end
              | Ok _ => (with_queue m q1, Ok true)
              end
          end
      end
  end.

(** [Manager.Close], given what [connection.Close] returned. *)
Definition Close (m : Manager) (closed : res unit) : Manager * res unit :=
  match connection m with
  | None => (m, Err ErrSessionNotOpen)
  | Some _ => (with_connection m None (opening m), closed)
  end.

(** ** Routing *)

Lemma select_schema_count schema name module schemas selected :
  select_schema schema name module schemas selected =
  match selected, count_occ string_dec schemas schema with
  | _, O => Ok selected
  | None, S O => Ok (Some (name, module))
  | _, _ => Err (Errorf "multiple Agent modules advertise schema %q" [schema])
  end.
Proof.
  revert selected. induction schemas as [|s rest IH]; intros selected; [by destruct selected|].
  cbn [select_schema count_occ]. destruct (string_dec s schema) as [-> |Hs].
  - rewrite String.eqb_refl. cbn. destruct selected; [done|]. rewrite IH.
    by destruct (count_occ string_dec rest schema).
  - apply String.eqb_neq in Hs. rewrite Hs. cbn. apply IH.
Qed.

Definition schemas_of (ms : list (string * Module)) : list string :=
  ms ≫= fun p => md_MessageSchemas (Descriptor (snd p)).

Lemma count_occ_select schema (ms : list (string * Module)) selected :
  match selected, count_occ string_dec (schemas_of ms) schema with
  | _, O => select_module schema ms selected = Ok selected
  | None, S O => exists name module, In (name, module) ms
      /\ In schema (md_MessageSchemas (Descriptor module))
      /\ select_module schema ms selected = Ok (Some (name, module))
  | _, _ => select_module schema ms selected
            = Err (Errorf "multiple Agent modules advertise schema %q" [schema])
  end.
Proof.
  revert selected. induction ms as [|[name module] rest IH]; intros selected; [by destruct selected|].
  unfold schemas_of in *. cbn [mbind list_bind select_module snd].
  rewrite count_occ_app, select_schema_count. specialize (IH selected) as IHs.
  destruct selected as [p|];
    destruct (count_occ string_dec (md_MessageSchemas (Descriptor module)) schema) as [|[|k]] eqn:Ek;
    cbn [Nat.add]; try done.
  - destruct (count_occ string_dec (rest ≫= _) schema) as [|[|j]]; try done.
    destruct IHs as (n & md & Hin & Hs & E). exists n, md. split; [by right|done].
  - specialize (IH (Some (name, module))). cbn.
    destruct (count_occ string_dec (rest ≫= _) schema) as [|j]; [|done].
    exists name, module. split; [by left|]. split; [|done].
    apply (count_occ_In string_dec). lia.
Qed.

(** routing is decided by how many times the modules advertise the
    message's schema: never means it is refused, once means it goes to that
    module and to no other, more than once means it is refused. *)
Theorem routing_by_schema_count m current c envelope :
  connection m = Some c -> validateCurrent m current envelope = Ok tt ->
  match count_occ string_dec (registered_schemas (modules m)) (SchemaVersion envelope) with
  | O => ReceiveAndRoute m current (Ok envelope)
         = (Err (Errorf "no Agent module advertises schema %q" [SchemaVersion envelope]), [])
  | S O => exists name module, modules m !! name = Some module
           /\ In (SchemaVersion envelope) (md_MessageSchemas (Descriptor module))
           /\ ReceiveAndRoute m current (Ok envelope) = (Handle module envelope, [(name, envelope)])
  | _ => ReceiveAndRoute m current (Ok envelope)
         = (Err (Errorf "multiple Agent modules advertise schema %q" [SchemaVersion envelope]), [])
  end.
Proof.
  intros Hc Hv. pose proof (count_occ_select (SchemaVersion envelope) (map_to_list (modules m)) None) as H.
  unfold ReceiveAndRoute. rewrite Hc, Hv. change (schemas_of (map_to_list (modules m)))
    with (registered_schemas (modules m)) in H.
  destruct (count_occ _ _ _) as [|[|k]]; [by rewrite H| |by rewrite H].
  destruct H as (name & module & Hin & Hs & ->). exists name, module.
  split; [|done]. by apply elem_of_map_to_list, list_elem_of_In.
Qed.

Lemma check_schemas_Ok taken schemas : check_schemas taken schemas = Ok tt ->
  forall s, In s schemas -> s <> ""%string /\ ~ In s taken.
Proof.
  induction schemas as [|x rest IH]; cbn [check_schemas]; [done|]. intros H s [<- |Hs]; run_guards.
  - split; [done|]. rewrite <- existsb_string_in. by rewrite Hb || congruence.
  - by apply IH.
Qed.

(** Schemas are advertised once overall. *)
Definition schemas_unique (ms : gmap string Module) : Prop := NoDup (registered_schemas ms).

Lemma RegisterModule_inv m module m' : RegisterModule m (Some module) = Ok m' ->
  modules m' = <[md_Name (Descriptor module) := module]> (modules m)
  /\ modules m !! md_Name (Descriptor module) = None
  /\ sealed m = false
  /\ check_schemas (registered_schemas (modules m)) (md_MessageSchemas (Descriptor module)) = Ok tt
  /\ Permutation (registered_schemas (modules m'))
       (md_MessageSchemas (Descriptor module) ++ registered_schemas (modules m)).
Proof.
  unfold RegisterModule. intros H. run_guards. subst m'. cbn.
  assert (modules m !! md_Name (Descriptor module) = None) as Hnone by by apply eq_None_not_Some.
  destruct a2. repeat split; try done. unfold registered_schemas.
  by rewrite (map_to_list_insert _ _ _ Hnone).
Qed.

(** registration keeps every schema advertised by one module: a module
    whose own list has no repetition never makes a routed schema ambiguous. *)
Theorem RegisterModule_keeps_unique m module m' :
  schemas_unique (modules m) -> NoDup (md_MessageSchemas (Descriptor module)) ->
  RegisterModule m (Some module) = Ok m' ->
  schemas_unique (modules m')
  /\ modules m' = <[md_Name (Descriptor module) := module]> (modules m)
  /\ modules m !! md_Name (Descriptor module) = None.
Proof.
  unfold schemas_unique. intros Hu Hn H.
  apply RegisterModule_inv in H as (Hm & Hnone & _ & Hc & Hp). split; [|done].
  rewrite Hp. apply NoDup_app. split; [done|]. split; [|done].
  intros s Hs Hin. apply (check_schemas_Ok _ _ Hc s); by apply list_elem_of_In.
Qed.

(** but a descriptor that repeats one of its own schemas is registered, and
    every message of that schema is then refused. *)
Theorem repeated_schema_registers_but_never_routes m module m' current c envelope :
  RegisterModule m (Some module) = Ok m' ->
  (2 <= count_occ string_dec (md_MessageSchemas (Descriptor module)) (SchemaVersion envelope))%nat ->
  connection m' = Some c -> validateCurrent m' current envelope = Ok tt ->
  ReceiveAndRoute m' current (Ok envelope)
  = (Err (Errorf "multiple Agent modules advertise schema %q" [SchemaVersion envelope]), []).
Proof.
  intros H Hcount Hc Hv.
  assert (2 <= count_occ string_dec (registered_schemas (modules m')) (SchemaVersion envelope))%nat as H2.
  { apply RegisterModule_inv in H as (_ & _ & _ & _ & Hp).
    rewrite (proj1 (Permutation_count_occ string_dec _ _) Hp), count_occ_app. lia. }
  unfold ReceiveAndRoute. rewrite Hc, Hv.
  pose proof (count_occ_select (SchemaVersion envelope) (map_to_list (modules m')) None) as Hs.
  change (schemas_of (map_to_list (modules m'))) with (registered_schemas (modules m')) in Hs.
  destruct (count_occ _ (registered_schemas _) _) as [|[|k]]; [lia..|]. by rewrite Hs.
Qed.

(** ** Fencing *)

(** The view does not grant this envelope's Host and generation. *)
Definition not_granted (current : AuthoritySnapshot) (e : Envelope) : Prop :=
  snap_State current <> AuthorityCurrent
  \/ HostIdentity e <> snap_HostIdentity current
  \/ SessionGeneration e <> snap_SessionGeneration current.

Lemma validateAuthority_iff current host generation :
  validateAuthority current host generation = Ok tt <->
  snap_State current = AuthorityCurrent /\ host = snap_HostIdentity current
  /\ generation = snap_SessionGeneration current.
Proof.
  unfold validateAuthority. split.
  - intros H. run_guards. done.
  - intros (-> & -> & ->). by rewrite !String.eqb_refl, Z.eqb_refl.
Qed.

Lemma validateCurrent_granted m current e : validateCurrent m current e = Ok tt -> ~ not_granted current e.
Proof.
  unfold validateCurrent, not_granted. intros H. run_guards. destruct a.
  apply validateAuthority_iff in Hr. tauto.
Qed.

(** a message of a fenced or stale session never reaches a module and never
    enters the queue, whichever way it arrives. *)
Theorem fenced_message_has_no_effect m current e name :
  not_granted current e ->
  (exists err, Publish m current e = (m, Err err))
  /\ (exists err, AcceptInbound m current name e = (Err err, []))
  /\ (exists err, ReceiveAndRoute m current (Ok e) = (Err err, [])).
Proof.
  intros Hn. unfold Publish, AcceptInbound, ReceiveAndRoute.
  destruct (validateCurrent m current e) as [[]|err] eqn:E.
  - by apply validateCurrent_granted in E.
  - repeat split; eauto. destruct (connection m); eauto.
Qed.

(** ** Flushing *)

Lemma Dequeue_head q q1 e : queue_ok q -> Dequeue q = (q1, Some e) ->
  exists tail, In (Stream e) knownStreams /\ lane q (Stream e) = e :: tail
  /\ (forall s, lane q1 s = if decide (Stream e = s) then tail else lane q s)
  /\ limits q1 = limits q
  /\ totalCount q1 = totalCount q - 1 /\ totalBytes q1 = totalBytes q - len (Payload e).
Proof.
  intros Hok Hd. pose proof (Dequeue_cases q) as Hc. rewrite Hd in Hc. cbn in Hc.
  assert (exists s q0, In s knownStreams /\ pops q s e q0 /\ (forall s', lane q1 s' = lane q0 s')
    /\ limits q1 = limits q0 /\ totalCount q1 = totalCount q0 /\ totalBytes q1 = totalBytes q0)
    as (s & q0 & Hs & Hp & Hl0 & Hlim0 & Hc0 & Hb0).
  { inversion Hc; subst; eauto 10 using bulk_known, priority_known. }
  destruct Hp as (tail & El & Hl & Hlim & Hcount & Hbytes & _).
  assert (Stream e = s) as <-.
  { pose proof (ok_keyed q Hok s) as Hk. rewrite El in Hk. by inversion Hk. }
  exists tail. pose proof (queue_ok_totals q Hok) as [? ?].
  pose proof (weigh_member msg_count q (Stream e) knownStreams msg_count_nonneg Hs) as Hm.
  pose proof (weigh_member payload_bytes q (Stream e) knownStreams payload_bytes_nonneg Hs) as Hmb.
  rewrite El, msg_count_cons in Hm. rewrite El, payload_bytes_cons in Hmb.
  pose proof (msg_count_nonneg tail). pose proof (payload_bytes_nonneg tail).
  pose proof (len_nonneg (Payload e)).
  destruct Hok. destruct ok_limits as (? & ? & ? & ? & ? & ? & ? & ? & ?).
  rewrite i64_id in Hcount by (unfold is_i64, two63 in *; lia).
  rewrite i64_id in Hbytes by (unfold is_i64, two63 in *; lia).
  repeat split; [done|done| |congruence..]. intros s. by rewrite Hl0, Hl.
Qed.

(** What a requeue of the message just taken meets. *)
Lemma requeue_room q q1 e : queue_ok q -> Dequeue q = (q1, Some e) ->
  queue_ok q1 /\ len (Payload e) <= MaxMessageBytes (limits q1)
  /\ msg_count (lane q1 (Stream e)) < stream_limit (limits q1) (Stream e)
  /\ totalCount q1 + 1 = totalCount q /\ totalBytes q1 + len (Payload e) = totalBytes q
  /\ totalCount q <= MaxTotalMessages (limits q1) /\ totalBytes q <= MaxTotalBytes (limits q1).
Proof.
  intros Hok Hd. destruct (Dequeue_head _ _ _ Hok Hd) as (tail & Hs & El & Hl & Hlim & Ec & Eb).
  split; [pose proof (Dequeue_ok _ Hok) as H; by rewrite Hd in H|].
  pose proof (ok_lane _ Hok (Stream e) Hs) as Hlane. rewrite El, msg_count_cons in Hlane.
  pose proof (ok_sizes _ Hok (Stream e)) as Hsz. rewrite El in Hsz. inversion Hsz; subst.
  pose proof (ok_count_max _ Hok). pose proof (ok_bytes_max _ Hok).
  rewrite Hlim, Hl, decide_True by done. lia.
Qed.

(** a failed send of a priority message loses nothing but order: with no
    other traffic in between, the message is requeued, at the END of its own
    stream, behind the messages that were queued after it. *)
Theorem flush_failure_requeues_behind m current c q1 e err :
  connection m = Some c -> queue_ok (queue m) -> Dequeue (queue m) = (q1, Some e) ->
  In (Stream e) priorityStreams -> validateCurrent m current e = Ok tt ->
  exists m', FlushOne m current (fun _ => Err err) [] = (m', Err err)
  /\ (forall s, lane (queue m') s =
        if decide (Stream e = s) then tl (lane (queue m) s) ++ [e] else lane (queue m) s)
  /\ totalCount (queue m') = totalCount (queue m)
  /\ totalBytes (queue m') = totalBytes (queue m).
Proof.
  intros Hc Hok Hd Hprio Hv.
  destruct (Dequeue_head _ _ _ Hok Hd) as (tail & _ & El & Hl & _).
  destruct (requeue_room _ _ _ Hok Hd) as (Hok1 & Hsize & Hlane & Ecount & Ebytes & Hmc & Hmb).
  destruct (Enqueue_sums q1 e Hok1 Hsize) as (E1 & E2 & _).
  assert (exists q2, Enqueue q1 e = Ok q2) as [q2 Eq2].
  { unfold Enqueue. rewrite E1, E2, Ecount, Ebytes.
    assert (isBulk (Stream e) = false) as ->.
    { destruct (isBulk (Stream e)) eqn:Eb; [|done]. apply isBulk_in in Eb.
      by destruct (priority_not_bulk (Stream e)). }
    unfold msg_count in Hlane. rewrite !fail_if_pass by (try done; lia). eauto. }
  unfold FlushOne. rewrite Hc, Hd. cbn. rewrite Hv, Eq2. eexists. split; [done|].
  cbn. split; [|].
  - intros s. rewrite (Enqueue_lane _ _ _ s Eq2), Hl. cbn.
    destruct (String.eqb_spec (Stream e) s) as [<-|Hne]; case_decide; try done.
    + by rewrite El.
    + by rewrite app_nil_r.
  - apply Enqueue_inv in Eq2 as (-> & _). cbn. rewrite E1, E2. lia.
Qed.

(** a failed send can lose a bulk message: when priority traffic has filled
    the reserve, the requeue of the bulk message just taken is refused, so the
    message is in no lane any more. *)
Theorem flush_failure_drops_bulk m current c q1 e err :
  connection m = Some c -> queue_ok (queue m) -> Dequeue (queue m) = (q1, Some e) ->
  In (Stream e) bulkStreams -> validateCurrent m current e = Ok tt ->
  MaxTotalMessages (limits (queue m)) - ReservedPriorityMsgs (limits (queue m))
    < totalCount (queue m) ->
  FlushOne m current (fun _ => Err err) []
    = (with_queue m q1, Err (ErrJoin err ErrQueueFull))
  /\ lane q1 (Stream e) = tl (lane (queue m) (Stream e))
  /\ totalCount q1 = totalCount (queue m) - 1.
Proof.
  intros Hc Hok Hd Hbulk Hv Hfull.
  destruct (Dequeue_head _ _ _ Hok Hd) as (tail & _ & El & Hl & Hlim & Ec & _).
  destruct (requeue_room _ _ _ Hok Hd) as (Hok1 & Hsize & Hlane & Ecount & Ebytes & Hmc & Hmb).
  destruct (Enqueue_sums q1 e Hok1 Hsize) as (E1 & E2 & E3 & _).
  assert (Enqueue q1 e = Err ErrQueueFull) as Eq2.
  { unfold Enqueue. rewrite E1, E2, E3, Ecount, Ebytes, Hlim.
    rewrite (proj2 (isBulk_in (Stream e)) Hbulk). unfold msg_count in Hlane.
    rewrite Hlim in Hsize, Hlane, Hmc, Hmb.
    rewrite !fail_if_pass by (try done; lia).
    destruct (Z.ltb_spec (MaxTotalMessages (limits (queue m)) - ReservedPriorityMsgs (limits (queue m)))
      (totalCount (queue m))); [done|lia]. }
  unfold FlushOne. rewrite Hc, Hd. cbn. rewrite Hv, Eq2.
  by rewrite Hl, decide_True, El by done.
Qed.

(** ** Concurrent Open and Close

    A goroutine in [Open] is between its two critical sections while the
    authority is read and the adapter dials.  [pending] lists those goroutines;
    [live] the connections the adapter opened that were not closed. *)
Record open_state := MkOpenState {
  os_manager : Manager;
  os_pending : list nat;
  os_live : list conn;
}.

Inductive open_step : open_state -> open_state -> Prop :=
| step_begin m m' pending live t :
    open_begin m = Ok m' ->
    open_step (MkOpenState m pending live) (MkOpenState m' (t :: pending) live)
| step_refused m l1 l2 live t :
    open_step (MkOpenState m (l1 ++ t :: l2) live) (MkOpenState (open_refused m) (l1 ++ l2) live)
| step_dial_failed m l1 l2 live t err :
    open_step (MkOpenState m (l1 ++ t :: l2) live)
      (MkOpenState (fst (open_finish m (Err err))) (l1 ++ l2) live)
| step_dialled m l1 l2 live t c :
    open_step (MkOpenState m (l1 ++ t :: l2) live)
      (MkOpenState (fst (open_finish m (Ok c))) (l1 ++ l2) (c :: live))
| step_close m pending l1 l2 c closed :
    connection m = Some c ->
    open_step (MkOpenState m pending (l1 ++ c :: l2))
      (MkOpenState (fst (Close m closed)) pending (l1 ++ l2))
| step_close_none m pending live closed :
    connection m = None ->
    open_step (MkOpenState m pending live) (MkOpenState (fst (Close m closed)) pending live).

(** The one connection the Manager holds is the one that is live, and at most
    one goroutine dials, only while there is none. *)
Definition open_inv (s : open_state) : Prop :=
  os_live s = option_list (connection (os_manager s))
  /\ ((opening (os_manager s) = true /\ length (os_pending s) = 1%nat
       /\ connection (os_manager s) = None)
      \/ (opening (os_manager s) = false /\ os_pending s = [])).

Lemma open_begin_inv m m' : open_begin m = Ok m' ->
  connection m = None /\ opening m = false /\ connection m' = None /\ opening m' = true
  /\ sealed m' = true.
Proof.
  unfold open_begin. intros H. run_guards. subst. cbn.
  destruct (connection m) eqn:Ec; [exfalso; eauto|]. auto.
Qed.

Lemma open_step_inv s s' : open_inv s -> open_step s s' -> open_inv s'.
Proof.
  intros [Hlive Hcase] Hstep.
  destruct Hstep as [m m' pending live t Hb|m l1 l2 live t|m l1 l2 live t err
    |m l1 l2 live t c|m pending l1 l2 c closed Hc|m pending live closed Hc]; cbn in *.
  - apply open_begin_inv in Hb as (E1 & E2 & E3 & E4 & _). rewrite E1 in *. rewrite E2 in *.
    destruct Hcase as [[? _]|[_ ->]]; [done|]. split; cbn; [by rewrite E3|left; auto].
  - destruct Hcase as [(E & Hn & Ec)|[_ Hp]]; [|by destruct l1].
    rewrite length_app in Hn. cbn in Hn. destruct l1, l2; cbn in Hn; try lia.
    split; cbn; [done|by right].
  - destruct Hcase as [(E & Hn & Ec)|[_ Hp]]; [|by destruct l1].
    rewrite length_app in Hn. cbn in Hn. destruct l1, l2; cbn in Hn; try lia.
    split; cbn; [done|by right].
  - destruct Hcase as [(E & Hn & Ec)|[_ Hp]]; [|by destruct l1].
    rewrite length_app in Hn. cbn in Hn. destruct l1, l2; cbn in Hn; try lia.
    rewrite Ec in Hlive. cbn in Hlive. subst live. split; cbn; [done|by right].
  - rewrite Hc in *. cbn in Hlive. unfold open_inv, Close. rewrite Hc. cbn.
    assert (l1 = [] /\ l2 = []) as [-> ->] by (destruct l1 as [|? [|]]; by simplify_eq/=).
    split; [done|]. destruct Hcase as [(_ & _ & ?)|?]; [done|auto].
  - unfold open_inv, Close. rewrite Hc in *. cbn. by rewrite Hc.
Qed.

(** however [Open] and [Close] calls interleave, the Manager never holds
    more than one connection, never overwrites one that is still open, and at
    most one goroutine dials at a time. *)
Theorem single_connection m s :
  connection m = None -> opening m = false ->
  rtc open_step (MkOpenState m [] []) s ->
  os_live s = option_list (connection (os_manager s)) /\ (length (os_pending s) <= 1)%nat.
Proof.
  intros Hc Ho Hsteps.
  assert (open_inv (MkOpenState m [] [])) as Hinv by (split; cbn; [by rewrite Hc|by right]).
  remember (MkOpenState m [] []) as s0 eqn:E0. clear E0 Hc Ho.
  induction Hsteps as [s|s1 s2 s3 Hstep Hsteps IH].
  - destruct Hinv as [Hl [(_ & Hn & _)|[_ ->]]]; split; cbn; done || lia.
  - by apply IH, (open_step_inv s1).
Qed.

(** ** A concrete Manager *)

Definition demo_handshake : Handshake := MkHandshake "host-a" 1 "kim.agent/v1" [] "attempt" "instance" "artifact" 1.
Definition demo_module (name : string) (schemas : list string) : Module :=
  MkModule (MkDescriptor name ["capability"]%string "1" "1" schemas) (fun _ => Ok tt).
Definition demo_manager (q : PriorityQueue) (ms : gmap string Module) (c : option conn) : Manager :=
  MkManager demo_handshake q ms c false false.
Definition demo_current : AuthoritySnapshot := MkSnapshot "host-a" 1 AuthorityCurrent.
Definition demo_inventory : Module := demo_module "inventory" ["kim.test/v1"]%string.

Lemma routing_by_schema_count_witness :
  exists name module, name = "inventory"%string /\ module = demo_inventory
  /\ ReceiveAndRoute (demo_manager demo_queue {["inventory"%string := demo_inventory]} (Some 7)) demo_current
       (Ok (demo_message StreamInventory "m1" "x"))
     = (Handle module (demo_message StreamInventory "m1" "x"), [(name, demo_message StreamInventory "m1" "x")]).
Proof.
  pose proof (routing_by_schema_count
    (demo_manager demo_queue {["inventory"%string := demo_inventory]} (Some 7)) demo_current 7
    (demo_message StreamInventory "m1" "x") eq_refl ltac:(vm_compute; reflexivity)) as H.
  assert (count_occ string_dec (registered_schemas {["inventory"%string := demo_inventory]}) "kim.test/v1" = 1%nat)
    as E by (vm_compute; reflexivity).
  change (registered_schemas (modules _)) with (registered_schemas {["inventory"%string := demo_inventory]}) in H.
  change (SchemaVersion (demo_message _ _ _)) with "kim.test/v1"%string in H. rewrite E in H.
  destruct H as (name & module & Hm & _ & H).
  exists name, module. change (modules _) with ({["inventory"%string := demo_inventory]} : gmap string Module) in Hm.
  apply lookup_singleton_Some in Hm as [<- <-]. split; [|split]; [reflexivity..|exact H].
Defined.

(** The Manager after registering the only module. *)
Definition demo_registered (ms : gmap string Module) (c : option conn) : Manager :=
  MkManager (MkHandshake "host-a" 1 "kim.agent/v1" ["capability"]%string "attempt" "instance" "artifact" 1)
    demo_queue ms c false false.

Lemma RegisterModule_keeps_unique_witness :
  schemas_unique (modules (demo_registered (<["inventory"%string := demo_inventory]> ∅) None)).
Proof.
  refine (proj1 (RegisterModule_keeps_unique (demo_manager demo_queue ∅ None) demo_inventory
    (demo_registered (<["inventory"%string := demo_inventory]> ∅) None) _ _ _)).
  - apply NoDup_nil_2.
  - apply NoDup_singleton.
  - vm_compute. reflexivity.
Defined.

Definition demo_twice : Module := demo_module "twice" ["kim.test/v1"; "kim.test/v1"]%string.

Lemma repeated_schema_registers_but_never_routes_witness :
  let m := demo_registered (<["twice"%string := demo_twice]> ∅) (Some 7) in
  ReceiveAndRoute m demo_current (Ok (demo_message StreamInventory "m1" "x"))
  = (Err (Errorf "multiple Agent modules advertise schema %q" ["kim.test/v1"%string]), []).
Proof.
  refine (repeated_schema_registers_but_never_routes (demo_manager demo_queue ∅ (Some 7)) demo_twice
    (demo_registered (<["twice"%string := demo_twice]> ∅) (Some 7)) demo_current 7
    (demo_message StreamInventory "m1" "x") _ _ _ _).
  - vm_compute. reflexivity.
  - vm_compute. lia.
  - reflexivity.
  - vm_compute. reflexivity.
Defined.

Lemma fenced_message_has_no_effect_witness :
  let m := demo_manager demo_queue ∅ (Some 7) in
  exists err, Publish m (MkSnapshot "host-a" 1 AuthorityFenced) (demo_message StreamCommand "c1" "x") = (m, Err err).
Proof.
  apply (fenced_message_has_no_effect (demo_manager demo_queue ∅ (Some 7)) (MkSnapshot "host-a" 1 AuthorityFenced)
    (demo_message StreamCommand "c1" "x") "inventory"). left. discriminate.
Defined.

Lemma flush_failure_requeues_behind_witness :
  let m := demo_manager (run_final demo_queue demo_ops) ∅ (Some 7) in
  let e := demo_message StreamCommand "c1" "command" in
  exists m', FlushOne m demo_current (fun _ => Err (errors_New "EPIPE")) [] = (m', Err (errors_New "EPIPE"))
  /\ lane (queue m') StreamCommand = tl (lane (queue m) StreamCommand) ++ [e].
Proof.
  destruct (flush_failure_requeues_behind
    (demo_manager (run_final demo_queue demo_ops) ∅ (Some 7)) demo_current 7
    (fst (Dequeue (run_final demo_queue demo_ops))) (demo_message StreamCommand "c1" "command")
    (errors_New "EPIPE")) as (m' & Hm' & Hl & _).
  - reflexivity.
  - apply demo_busy_ok.
  - vm_compute. reflexivity.
  - right. left. reflexivity.
  - vm_compute. reflexivity.
  - exists m'. split; [exact Hm'|]. rewrite Hl. reflexivity.
Defined.

(** Six bulk messages wait, four commands have gone by, and two more commands
    fill the reserve: the next message is a bulk one. *)
Definition demo_full_ops : list queue_op :=
  ((fun id => OpEnqueue (demo_message StreamInventory id "bulk")) <$> ["b1"; "b2"; "b3"; "b4"; "b5"; "b6"]%string)
  ++ (["c1"; "c2"; "c3"; "c4"]%string ≫= fun id => [OpEnqueue (demo_message StreamCommand id "x"); OpDequeue])
  ++ ((fun id => OpEnqueue (demo_message StreamCommand id "x")) <$> ["c5"; "c6"]%string).

Lemma demo_full_ok : queue_ok (run_final demo_queue demo_full_ops).
Proof.
  apply run_final_ok; [apply demo_queue_ok|].
  unfold demo_full_ops. cbn [fmap list_fmap mbind list_bind app]. known_ops.
Qed.

Lemma flush_failure_drops_bulk_witness :
  let m := demo_manager (run_final demo_queue demo_full_ops) ∅ (Some 7) in
  let q1 := fst (Dequeue (run_final demo_queue demo_full_ops)) in
  FlushOne m demo_current (fun _ => Err (errors_New "EPIPE")) []
    = (with_queue m q1, Err (ErrJoin (errors_New "EPIPE") ErrQueueFull))
  /\ lane q1 StreamInventory = tl (lane (queue m) StreamInventory)
  /\ totalCount q1 = totalCount (queue m) - 1.
Proof.
  apply (flush_failure_drops_bulk (demo_manager (run_final demo_queue demo_full_ops) ∅ (Some 7)) demo_current 7
    (fst (Dequeue (run_final demo_queue demo_full_ops))) (demo_message StreamInventory "b1" "bulk")).
  - reflexivity.
  - apply demo_full_ok.
  - vm_compute. reflexivity.
  - left. reflexivity.
  - vm_compute. reflexivity.
  - vm_compute. reflexivity.
Defined.

Lemma single_connection_witness :
  let m := demo_manager demo_queue ∅ None in
  let m1 := MkManager demo_handshake demo_queue ∅ None true true in
  os_live (MkOpenState (fst (open_finish m1 (Ok 7%Z))) [] [7%Z]) = [7%Z]
  /\ (length (os_pending (MkOpenState (fst (open_finish m1 (Ok 7%Z))) [] [7%Z])) <= 1)%nat.
Proof.
  intros m m1. apply (single_connection (demo_manager demo_queue ∅ None)); [reflexivity..|].
  eapply rtc_l; [apply (step_begin _ m1 _ _ 0%nat); reflexivity|].
  eapply rtc_l; [apply (step_dialled _ [] [])|]. apply rtc_refl.
Defined.
