(* ===== verification/Backoff.v ===== *)
(** * reconnect/backoff.go: bounded exponential reconnect delay with full jitter *)

From S2P Require Import Prelude.
Local Open Scope Z_scope.

(** Durations are [int64] nanoseconds. *)
Record Backoff := MkBackoff { Base : Z; Max : Z }.

(** The doubling loop from [step]; [None] when the fuel runs out. *)
Fixpoint ceiling_loop (fuel : nat) (max attempt step ceiling : Z) : option Z :=
  if (step <? attempt) && (ceiling <? max) then
    match fuel with
    | O => None
    | S k =>
        if Z.quot max 2 <? ceiling then Some max
        else ceiling_loop k max attempt (i64 (step + 1)) (i64 (ceiling * 2))
    end
  else Some ceiling.

(** A positive [int64] doubles at most 63 times before it reaches [Max]. *)
Definition loop_fuel : nat := 64.

Definition xorshift (entropy : Z) : Z :=
  let e1 := Z.lxor entropy (Z.shiftr entropy 12) in
  let e2 := Z.lxor e1 (u64 (Z.shiftl e1 25)) in
  let e3 := Z.lxor e2 (Z.shiftr e2 27) in
  u64 (e3 * 2685821657736338717).

(** [Backoff.Delay]; the outer [None] is a loop that outran its fuel. *)
Definition Delay (backoff : Backoff) (attempt entropy : Z) : option (res Z) :=
  if (Base backoff <=? 0) || (Max backoff <? Base backoff) || (attempt <? 1) then
    Some (Err (errors_New "valid reconnect base, maximum, and positive attempt are required"))
  else
    match ceiling_loop loop_fuel (Max backoff) attempt 1 (Base backoff) with
    | None => None
    | Some ceiling =>
        let ceiling := if Max backoff <? ceiling then Max backoff else ceiling in
        Some (Ok (i64 (Z.modulo (xorshift entropy) (u64 (u64 ceiling + 1)))))
    end.

Definition typed (b : Backoff) (attempt : Z) : Prop :=
  is_i64 (Base b) /\ is_i64 (Max b) /\ is_i64 attempt.

(** ** Lemmas *)

(** Enough fuel: after [k] doublings the ceiling has reached [max]. *)
Lemma ceiling_loop_spec fuel max attempt step ceiling :
  is_i64 max -> is_i64 attempt -> 1 <= step -> 1 <= ceiling <= max ->
  step <= attempt -> max < ceiling * 2 ^ Z.of_nat fuel ->
  ceiling_loop fuel max attempt step ceiling
  = Some (Z.min max (ceiling * 2 ^ (attempt - step))).
Proof.
  unfold is_i64, two63. intros Hm Ha. revert step ceiling.
  induction fuel as [|k IH]; intros step ceiling Hs Hc Hsa Hf.
  { rewrite Z.pow_0_r in Hf. lia. }
  cbn [ceiling_loop].
  destruct (Z.ltb_spec step attempt) as [Hlt|Hge]; cbn [andb].
  2: { replace (attempt - step) with 0 by lia. rewrite Z.pow_0_r. f_equal. lia. }
  pose proof (Z.pow_succ_r 2 (attempt - (step + 1)) ltac:(lia)) as Hpow.
  replace (Z.succ (attempt - (step + 1))) with (attempt - step) in Hpow by lia.
  pose proof (Z.pow_pos_nonneg 2 (attempt - (step + 1)) ltac:(lia) ltac:(lia)).
  destruct (Z.ltb_spec ceiling max) as [Hcm|Hcm]; [|f_equal; nia].
  rewrite Z.quot_div_nonneg by lia.
  destruct (Z.ltb_spec (max / 2) ceiling) as [Hh|Hh].
  - f_equal. rewrite Hpow. assert (max < 2 * ceiling) by (Z.div_mod_to_equations; lia). nia.
  - assert (2 * ceiling <= max) by (Z.div_mod_to_equations; lia).
    rewrite !i64_id by (unfold is_i64, two63; lia).
    rewrite IH by (try lia; rewrite Nat2Z.inj_succ, Z.pow_succ_r in Hf by lia; lia).
    f_equal. rewrite Hpow. f_equal. lia.
Qed.

Lemma xorshift_range e : is_u64 (xorshift e).
Proof. apply u64_range. Qed.

(** ** Properties *)

(** the loop always ends, invalid arguments are the only error, and the
    delay is the jitter reduced to a ceiling of exactly
    [min Max (Base * 2^(attempt-1))], so it never exceeds that ceiling. *)
Theorem Delay_correct b attempt entropy :
  typed b attempt ->
  if (Base b <=? 0) || (Max b <? Base b) || (attempt <? 1)
  then exists err, Delay b attempt entropy = Some (Err err)
  else let ceiling := Z.min (Max b) (Base b * 2 ^ (attempt - 1)) in
       Delay b attempt entropy = Some (Ok (xorshift entropy mod (ceiling + 1)))
       /\ 0 <= xorshift entropy mod (ceiling + 1) <= ceiling.
Proof.
  intros (Hb & Hm & Ha). unfold Delay.
  destruct ((Base b <=? 0) || _ || _) eqn:Eg; [by eauto|]. bools.
  rewrite (ceiling_loop_spec loop_fuel (Max b) attempt 1 (Base b));
    unfold is_i64, two63 in *; try lia.
  2: { change (2 ^ Z.of_nat loop_fuel) with 18446744073709551616. lia. }
  set (ceiling := Z.min (Max b) (Base b * 2 ^ (attempt - 1))).
  assert (1 <= ceiling <= Max b) as Hceil.
  { unfold ceiling. pose proof (Z.pow_pos_nonneg 2 (attempt - 1) ltac:(lia) ltac:(lia)). nia. }
  destruct (Z.ltb_spec (Max b) ceiling); [lia|].
  rewrite !u64_id by (unfold is_u64, two64; try rewrite u64_id; unfold is_u64, two64; lia).
  pose proof (Z.mod_pos_bound (xorshift entropy) (ceiling + 1) ltac:(lia)).
  rewrite i64_id by (unfold is_i64, two63; lia). split; [done|lia].
Qed.

Lemma Delay_correct_witness :
  typed (MkBackoff 500 60000) 4 /\ Delay (MkBackoff 500 60000) 4 12345 = Some (Ok 3477).
Proof.
  split; [repeat split; vm_compute; congruence|].
  pose proof (Delay_correct (MkBackoff 500 60000) 4 12345
    ltac:(repeat split; vm_compute; congruence)) as [H _]. rewrite H. vm_compute. reflexivity.
Defined.
