(* ===== verification/Ledger.v ===== *)
(** * sessiongeneration/ledger.go: the persisted session generation

    The ledger proposes the next transport generation and records one the
    Registry accepted.  Its state is in memory and in the file current.json of
    its directory. *)

From S2P Require Import Prelude GoStd GoJson OsFiles Envelope.
Local Open Scope Z_scope.
Local Open Scope go_scope.

Module Ledger.

Definition schema : string := "kim.agent.session-generation/v1".
Definition current_file : string := "current.json".

Record record := MkRecord { Schema : string; HostID : string; AcceptedGeneration : Z }.

Definition record_json (r : record) : json :=
  JObj [("schema", JStr (Schema r)); ("host_id", JStr (HostID r));
        ("accepted_generation", JUint (AcceptedGeneration r))]%string.

Definition record_fields : list (field record) :=
  [string_field "schema" (fun s r => MkRecord s (HostID r) (AcceptedGeneration r));
   string_field "host_id" (fun s r => MkRecord (Schema r) s (AcceptedGeneration r));
   uint_field "accepted_generation" (fun z r => MkRecord (Schema r) (HostID r) z)].

(** [json.Unmarshal(payload, &current)] *)
Definition unmarshal_record (payload : bytes) : option record :=
  match unmarshal payload with
  | Some j => decode_struct false record_fields j (MkRecord "" "" 0)
  | None => None
  end.

Record ledger := MkLedger { hostID : string; accepted : Z; closed : bool }.

Definition err_private : goerr :=
  errors_New "session generation ledger must be a private regular file".
Definition err_identity : goerr := errors_New "session generation ledger identity conflict".

(** Reading current.json: [os.ReadFile], [os.Lstat], [json.Unmarshal].  Reading
    something that is not a regular file fails or is refused by [Lstat]. *)
Definition recover (host : string) (d : tree) : res Z :=
  match d !! current_file with
  | None => Ok 0
  | Some n =>
      fail_if (negb (bool_decide (kind n = Regular)) || negb (private n)) err_private;;
      match unmarshal_record (data n) with
      | Some current =>
          fail_if ((Schema current !=s schema) || (HostID current !=s host)) err_identity;;
          Ok (AcceptedGeneration current)
      | None => Err err_identity
      end
  end.

(** [Open].  [setup] is the outcome of creating the directory, its mode, and
    the exclusive lock; [read_fault] a failed read of the file. *)
Definition Open (directory host : string) (setup read_fault : res unit) (d : dir) : res ledger :=
  fail_if ((directory ==s "") || (host ==s ""))
    (errors_New "session generation directory and Host identity are required");;
  setup;;
  read_fault;;
  generation ← recover host d;
  Ok (MkLedger host generation false).

(** [Ledger.Next] *)
Definition Next (l : ledger) : res Z :=
  fail_if (closed l) (errors_New "session generation ledger is closed");;
  fail_if (accepted l =? MaxUint64) (errors_New "session generation exhausted");;
  Ok (u64 (accepted l + 1)).

(** The file written for a generation. *)
Definition payload_of (host : string) (generation : Z) : bytes :=
  (marshal (record_json (MkRecord schema host generation)) ++ newline)%string.

Section Commit.
Context (os : os_env).
Local Open Scope io_scope.

Definition commit_io (payload : bytes) : io unit :=
  create_temp os ;;
  io_defer (remove_file os (tmp_name os))
    (fill_temp os payload ;; rename_temp os current_file ;; sync_dir os).

(** [Ledger.CommitAccepted]: the ledger, the directory with the states it
    passed through, and the result. *)
Definition CommitAccepted (l : ledger) (d : dir) (generation : Z) :
  ledger * dir * list dir * res unit :=
  if closed l then (l, d, [], Err (errors_New "session generation ledger is closed"))
  else if negb (generation =? u64 (accepted l + 1)) then
    (l, d, [], Err (errors_New "accepted session generation is not the next proposal"))
  else
    match commit_io (payload_of (hostID l) generation) d [] with
    | (d', tr, Err err) => (l, d', tr, Err err)
    | (d', tr, Ok _) => (MkLedger (hostID l) generation (closed l), d', tr, Ok tt)
    end.
End Commit.

(** [Ledger.Close], given what unlocking and closing the lock file return. *)
Definition Close (l : ledger) (released : res unit) : ledger * res unit :=
  if closed l then (l, Ok tt) else (MkLedger (hostID l) (accepted l) true, released).

(** ** Lemmas *)

Lemma ledger_record_round_trip r : ascii_text (Schema r) -> ascii_text (HostID r) ->
  is_u64 (AcceptedGeneration r) ->
  unmarshal_record (marshal (record_json r) ++ newline) = Some r.
Proof.
  intros H1 H2 H3. unfold unmarshal_record. rewrite unmarshal_marshal_line.
  - destruct r as [s h a]. cbn in *. by rewrite ParseUint_FormatUint.
  - unfold record_json. plain_members.
Qed.

Lemma recover_payload host generation d : ascii_text host -> is_u64 generation ->
  recover host (<[current_file := private_file (payload_of host generation)]> d) = Ok generation.
Proof.
  intros Hh Hg. unfold recover. rewrite lookup_insert_eq. cbn. unfold payload_of.
  rewrite ledger_record_round_trip; [|ascii_literal|done|done].
  cbn. by rewrite String.eqb_refl.
Qed.

Lemma recover_delete name host d : name <> current_file -> recover host (delete name d) = recover host d.
Proof. intros H. unfold recover. by rewrite lookup_delete_ne. Qed.

Lemma commit_triple os payload before : current_file <> tmp_name os ->
  triple (is_either os current_file payload before) (is_before os before)
    (commit_io os payload) (fun _ => is_after os current_file payload before)
    (is_either os current_file payload before).
Proof.
  intros Ht. unfold commit_io.
  eapply triple_bind.
  { eapply triple_conseq; [by apply triple_create_temp|done|by intros ? ? H; exact H|apply before_either]. }
  intros []. eapply (triple_defer _ _ _ _ (fun _ => is_after os current_file payload before)
    (is_either os current_file payload before)).
  - eapply triple_bind; [eapply triple_conseq;
      [by apply triple_fill_temp|done|by intros ? ? H; exact H|apply before_either]|intros []].
    eapply triple_bind; [eapply triple_conseq;
      [by apply triple_rename|done|by intros ? ? H; exact H|apply before_either]|intros []].
    apply triple_sync_dir.
  - intros []. apply triple_remove_temp; [by apply is_after_delete|by intros d []].
  - apply triple_remove_temp; [apply is_either_delete|done].
Qed.

(** ** Properties *)

(** A restart finds a generation, wherever the machine stops. *)
Definition durably (host : string) (d : dir) (generation : Z) : Prop :=
  forall c, survives d c -> recover host c = Ok generation.
(** The directory agrees with the ledger's memory. *)
Definition in_sync (l : ledger) (d : dir) : Prop :=
  durably (hostID l) d (accepted l) /\ is_u64 (accepted l) /\ ascii_text (hostID l).

(** committing a generation is atomic under any failing call and any crash:
    what a crash leaves of any directory state on the way recovers the old or
    the new generation, never an error; success means that only the new one can
    be recovered and is the one in memory, an error leaves the memory unchanged. *)
Theorem commit_crash_safe os l d generation :
  in_sync l d -> temp_prefix os -> accepted l <> MaxUint64 ->
  let '(l', d', tr, r) := CommitAccepted os l d generation in
  Forall (fun s => forall c, survives s c -> recover (hostID l) c = Ok (accepted l) \/ recover (hostID l) c = Ok generation)
    (d' :: tr)
  /\ (r = Ok tt -> accepted l' = generation /\ generation = accepted l + 1
                   /\ durably (hostID l) d' generation)
  /\ (r <> Ok tt -> l' = l).
Proof.
  intros (Hsync & Hacc & Hhost) Hprefix Hmax. unfold CommitAccepted.
  destruct (closed l); [split; [constructor; [intros c Hc; left; by apply Hsync|constructor]|done]|].
  destruct (Z.eqb_spec generation (u64 (accepted l + 1))) as [Hg|Hg]; cbn [negb];
    [|split; [constructor; [intros c Hc; left; by apply Hsync|constructor]|done]].
  rewrite u64_id in Hg by (unfold is_u64, two64, MaxUint64 in *; lia).
  assert (is_u64 generation) as Hgen by (unfold is_u64, two64, MaxUint64 in *; lia).
  assert (current_file <> tmp_name os) as Hname by (intros E; unfold temp_prefix in Hprefix; by rewrite <- E in Hprefix).
  set (payload := payload_of (hostID l) generation).
  pose proof (commit_triple os payload d Hname d [] (is_before_refl os d)
    (before_either _ _ _ _ _ (is_before_refl os d)) (Forall_nil_2 _)) as Ht.
  assert (forall c, as_before os d c -> recover (hostID l) c = Ok (accepted l)) as Hb.
  { intros c (c0 & Hc0 & E). rewrite <- (recover_delete (tmp_name os)), E, recover_delete by congruence. by apply Hsync. }
  assert (forall c, as_after os current_file payload d c -> recover (hostID l) c = Ok generation) as Ha.
  { intros c (c0 & Hc0 & E). rewrite <- (recover_delete (tmp_name os)), E by congruence. by apply recover_payload. }
  assert (forall s, is_either os current_file payload d s -> forall c, survives s c ->
    recover (hostID l) c = Ok (accepted l) \/ recover (hostID l) c = Ok generation) as He.
  { intros s Hs c Hc. destruct (either_survives _ _ _ _ Hname s c Hs Hc); auto. }
  destruct (commit_io os payload d []) as [[d' tr] [[]|err]]; destruct Ht as (Htr & Hd & Hr).
  - split; [constructor; [by apply He|by eapply Forall_impl]|]. split; [|done]. intros _. split; [done|]. split; [done|].
    intros c Hc. by apply Ha, (after_survives _ _ _ _ Hname d').
  - split; [constructor; [by apply He|by eapply Forall_impl]|]. split; done.
Qed.

(** proposals and commits advance in step: on a ledger that is open and not
    exhausted [Next] proposes [accepted + 1], which is the only generation a
    commit accepts, so a rejected attempt never consumes a generation. *)
Theorem next_is_only_committable os l d generation l' d' tr :
  is_u64 (accepted l) -> accepted l <> MaxUint64 ->
  CommitAccepted os l d generation = (l', d', tr, Ok tt) ->
  Next l = Ok generation /\ accepted l' = generation /\ generation = accepted l + 1.
Proof.
  intros Hacc Hmax. unfold CommitAccepted, Next.
  destruct (closed l); [by intros|].
  destruct (Z.eqb_spec generation (u64 (accepted l + 1))) as [Hg|Hg]; cbn [negb]; [|by intros].
  destruct (commit_io _ _ _ _) as [[d1 tr1] [[]|err]]; [|by intros]. intros [= <- <- <-].
  destruct (Z.eqb_spec (accepted l) MaxUint64); [done|]. cbn.
  rewrite <- Hg. split; [done|]. split; [done|]. rewrite Hg.
  apply u64_id. unfold is_u64, two64, MaxUint64 in *. lia.
Qed.

(** at the last generation [Next] refuses but [CommitAccepted] does not:
    its successor wraps to 0, and committing 0 rolls the ledger back. *)
Theorem exhausted_ledger_commits_zero l tmp d :
  accepted l = MaxUint64 -> closed l = false ->
  Next l = Err (errors_New "session generation exhausted")
  /\ let '(l', _, _, r) := CommitAccepted (healthy tmp) l d 0 in r = Ok tt /\ accepted l' = 0.
Proof.
  intros Ha Hc. unfold Next, CommitAccepted. rewrite Hc, Ha. cbn. split; [done|].
  unfold commit_io, io_defer, fill_temp, rename_temp, remove_file, sync_dir, sync_entries, sync_file, create_temp,
    write_temp, call, mutate, io_bind, io_read. cbn.
  rewrite lookup_alter_eq, lookup_insert_eq. cbn.
  destruct (_ !! tmp); cbn; done.
Qed.
(** *** Concrete runs *)

Definition demo_ledger : ledger := MkLedger "host-a" 41 false.
Definition demo_dir : dir := clean {[ current_file := private_file (payload_of "host-a" 41) ]}.

Lemma demo_recovers c : survives demo_dir c -> recover "host-a" c = Ok 41.
Proof.
  intros Hc. destruct (Hc current_file) as (o & <-%may_be_clean & Ht). rewrite lookup_singleton_eq in Ht.
  apply torn_synced in Ht; [|done]. unfold recover. rewrite Ht. vm_compute. reflexivity.
Qed.

Definition sync_fault : os_env :=
  OsEnv (fun c => match c with SyncDir => Some (errors_New "EIO") | _ => None end) ".tmp-123456" "".

(** The directory sync fails after the rename: disk is ahead of memory. *)
Lemma commit_crash_safe_witness :
  let '(l', d', tr, r) := CommitAccepted sync_fault demo_ledger demo_dir 42 in
  Forall (fun s => forall c, survives s c -> recover "host-a" c = Ok 41 \/ recover "host-a" c = Ok 42) (d' :: tr)
  /\ (r = Ok tt -> accepted l' = 42 /\ 42 = 41 + 1 /\ durably "host-a" d' 42)
  /\ (r <> Ok tt -> l' = demo_ledger).
Proof.
  apply (commit_crash_safe sync_fault demo_ledger demo_dir 42).
  - split; [exact demo_recovers|]. split; [vm_compute; split; discriminate || reflexivity|ascii_literal].
  - reflexivity.
  - discriminate.
Defined.

Lemma next_is_only_committable_witness :
  let '(l', _, _, _) := CommitAccepted (healthy ".tmp-123456") demo_ledger demo_dir 42 in
  Next demo_ledger = Ok 42 /\ accepted l' = 42 /\ 42 = accepted demo_ledger + 1.
Proof.
  eapply (next_is_only_committable (healthy ".tmp-123456") demo_ledger demo_dir 42).
  - vm_compute. split; discriminate || reflexivity.
  - discriminate.
  - reflexivity.
Defined.

Lemma exhausted_ledger_commits_zero_witness :
  let l := MkLedger "host-a" MaxUint64 false in
  Next l = Err (errors_New "session generation exhausted")
  /\ let '(l', _, _, r) := CommitAccepted (healthy ".tmp-123456") l demo_dir 0 in r = Ok tt /\ accepted l' = 0.
Proof. apply exhausted_ledger_commits_zero; reflexivity. Defined.
End Ledger.
