(* ===== verification/Journal.v ===== *)
(** * executionjournal/journal.go: write-before-execute evidence

    The Agent records every Command durably before it touches a backend
    ([Prepare]) and its typed Result afterwards ([Complete]).  A journal is a
    map in memory and one file per record in its directory. *)

From S2P Require Import Prelude GoStd GoJson OsFiles RecordDir Envelope.
Local Open Scope Z_scope.
Local Open Scope go_scope.

Module Journal.

Definition schemaVersion : string := "kim.agent.execution-journal/v1".

Definition ErrConflict : goerr := errors_New "execution journal evidence conflict".
Definition ErrNotFound : goerr := errors_New "execution journal record not found".
Definition err_closed : goerr := errors_New "execution journal is closed".

Record CommandRecord := MkRecord {
  SchemaVersion : string;
  HostID : string;
  CommandID : string;
  AttemptIndex : Z;
  CommandDigest : string;
  TargetID : string;
  State : string;
  ResultDigest : string;
  Outcome : string;
}.

#[export] Instance CommandRecord_eq_dec : EqDecision CommandRecord.
Proof. solve_decision. Defined.

(** An [omitempty] string member. *)
Definition omitempty (name s : string) : list (string * json) :=
  if s ==s "" then [] else [(name, JStr s)].

Definition record_json (r : CommandRecord) : json :=
  JObj ([("schema_version", JStr (SchemaVersion r)); ("host_id", JStr (HostID r));
         ("command_id", JStr (CommandID r)); ("attempt_index", JInt (AttemptIndex r));
         ("command_digest", JStr (CommandDigest r)); ("target_id", JStr (TargetID r));
         ("state", JStr (State r))]%string
        ++ omitempty "result_digest" (ResultDigest r) ++ omitempty "outcome" (Outcome r))%list.

Definition record_fields : list (field CommandRecord) :=
  [string_field "schema_version" (fun s r => MkRecord s (HostID r) (CommandID r) (AttemptIndex r) (CommandDigest r) (TargetID r) (State r) (ResultDigest r) (Outcome r));
   string_field "host_id" (fun s r => MkRecord (SchemaVersion r) s (CommandID r) (AttemptIndex r) (CommandDigest r) (TargetID r) (State r) (ResultDigest r) (Outcome r));
   string_field "command_id" (fun s r => MkRecord (SchemaVersion r) (HostID r) s (AttemptIndex r) (CommandDigest r) (TargetID r) (State r) (ResultDigest r) (Outcome r));
   int_field "attempt_index" (fun z r => MkRecord (SchemaVersion r) (HostID r) (CommandID r) z (CommandDigest r) (TargetID r) (State r) (ResultDigest r) (Outcome r));
   string_field "command_digest" (fun s r => MkRecord (SchemaVersion r) (HostID r) (CommandID r) (AttemptIndex r) s (TargetID r) (State r) (ResultDigest r) (Outcome r));
   string_field "target_id" (fun s r => MkRecord (SchemaVersion r) (HostID r) (CommandID r) (AttemptIndex r) (CommandDigest r) s (State r) (ResultDigest r) (Outcome r));
   string_field "state" (fun s r => MkRecord (SchemaVersion r) (HostID r) (CommandID r) (AttemptIndex r) (CommandDigest r) (TargetID r) s (ResultDigest r) (Outcome r));
   string_field "result_digest" (fun s r => MkRecord (SchemaVersion r) (HostID r) (CommandID r) (AttemptIndex r) (CommandDigest r) (TargetID r) (State r) s (Outcome r));
   string_field "outcome" (fun s r => MkRecord (SchemaVersion r) (HostID r) (CommandID r) (AttemptIndex r) (CommandDigest r) (TargetID r) (State r) (ResultDigest r) s)].

(** [recordKey], [recordFilename], [recordDigest] *)
Definition recordKey (commandID : string) (attemptIndex : Z) : string :=
  (commandID ++ String (ascii_of 0) (FormatInt attemptIndex))%string.

Definition filename_of_key (k : string) : string := (sha256_hex k ++ ".json")%string.

Definition recordFilename (commandID : string) (attemptIndex : Z) : string :=
  filename_of_key (recordKey commandID attemptIndex).

Definition recordDigest (record : CommandRecord) : string := sha256_hex (marshal (record_json record)).

Definition key_of (r : CommandRecord) : string := recordKey (CommandID r) (AttemptIndex r).

(** The file written for a record. *)
Definition payload_of (record : CommandRecord) : bytes :=
  (marshal (record_json record) ++ newline)%string.

Record journal := MkJournal {
  hostID : string;
  records : gmap string CommandRecord;
  closed : bool;
}.

(** ** Loading *)

Definition err_json : goerr := errors_New "json: cannot decode execution journal record".

(** [entry.Name() == "lock" || len(entry.Name()) > 5 && entry.Name()[:5] == ".tmp-"] *)
Definition skipped (name : string) : bool :=
  (name ==s "lock") || ((5 <? len name) && HasPrefix name ".tmp-").

(** One iteration of the loop of [Journal.load]; [None] for a skipped entry.
    Reading a regular file does not fail here; the error of [json.Unmarshal]
    is [err_json]. *)
Definition load_entry (host name : string) (n : node) : res (option CommandRecord) :=
  if skipped name then Ok None else
  fail_if (bool_decide (kind n = Directory) || (filepath_Ext name !=s ".json"))
    (errors_New "unexpected execution journal entry");;
  fail_if (negb (bool_decide (kind n = Regular)) || negb (private n))
    (errors_New "execution journal entry must be a private regular file");;
  match unmarshal (data n) ≫= fun j => decode_struct false record_fields j (MkRecord "" "" "" 0 "" "" "" "" "") with
  | None => Err err_json
  | Some record =>
      fail_if ((SchemaVersion record !=s schemaVersion) || (HostID record !=s host)
               || (name !=s recordFilename (CommandID record) (AttemptIndex record)))
        (errors_New "execution journal record identity mismatch");;
      Ok (Some record)
  end.

(** [Journal.load] *)
Definition load (host : string) (d : tree) : res (gmap string CommandRecord) :=
  scan (load_entry host) key_of d.

(** [Open]; [setup] is the outcome of creating the directory, its mode, the
    lock file and the exclusive lock, [read_dir] that of [os.ReadDir]. *)
Definition Open (directory host : string) (setup read_dir : res unit) (d : dir) : res journal :=
  fail_if ((directory ==s "") || (host ==s ""))
    (errors_New "execution journal directory and Host identity are required");;
  setup;;
  read_dir;;
  rs ← load host d;
  Ok (MkJournal host rs false).

(** ** Operations *)

Section Operations.
Context (os : os_env).
Local Open Scope io_scope.

(** The end of [Journal.persist]: the directory is synced, closed, and the
    two errors joined. *)
Definition sync_and_close : io unit :=
  call os OpenDir ;;
  fun d tr =>
    let '(d, tr, synced) := sync_entries os d tr in
    (d, tr, match synced, fault os CloseDir with
            | Ok _, None => Ok tt
            | Err e, None | Ok _, Some e => Err e
            | Err e1, Some e2 => Err (ErrJoin e1 e2)
            end).

(** [Journal.persist] *)
Definition persist (record : CommandRecord) : io unit :=
  create_temp os ;;
  io_on_error (remove_file os (tmp_name os))
    (fill_temp os (payload_of record) ;;
     rename_temp os (recordFilename (CommandID record) (AttemptIndex record))) ;;
  sync_and_close.

(** [persist] followed by the update of the map, the end of both operations. *)
Definition record_durably (j : journal) (d : dir) (key : string) (record : CommandRecord) :
  journal * dir * list dir * res string :=
  match persist record d [] with
  | (d', tr, Err err) => (j, d', tr, Err err)
  | (d', tr, Ok _) =>
      (MkJournal (hostID j) (<[key := record]> (records j)) (closed j), d', tr,
       Ok (recordDigest record))
  end.

Definition started (host commandID : string) (attemptIndex : Z) (commandDigest targetID : string) :
  CommandRecord :=
  MkRecord schemaVersion host commandID attemptIndex commandDigest targetID "STARTED" "" "".

(** [Journal.Prepare] *)
Definition Prepare (j : journal) (d : dir) (commandID : string) (attemptIndex : Z)
  (commandDigest targetID : string) : journal * dir * list dir * res string :=
  let fail e := (j, d, [], Err e) in
  if (commandID ==s "") || (attemptIndex <? 1) || (len commandDigest !=z 64) || (targetID ==s "")
  then fail (errors_New "complete Command journal identity is required") else
  let record := started (hostID j) commandID attemptIndex commandDigest targetID in
  if closed j then fail err_closed else
  let key := recordKey commandID attemptIndex in
  match records j !! key with
  | Some existing =>
      if (CommandID existing !=s CommandID record)
         || (AttemptIndex existing !=z AttemptIndex record)
         || (CommandDigest existing !=s CommandDigest record)
         || (TargetID existing !=s TargetID record)
      then fail ErrConflict
      else (j, d, [], Ok (recordDigest existing))
  | None => record_durably j d key record
  end.

Definition completed (record : CommandRecord) (resultDigest outcome : string) : CommandRecord :=
  MkRecord (SchemaVersion record) (HostID record) (CommandID record) (AttemptIndex record)
    (CommandDigest record) (TargetID record) "COMPLETED" resultDigest outcome.

(** [Journal.Complete] *)
Definition Complete (j : journal) (d : dir) (commandID : string) (attemptIndex : Z)
  (resultDigest outcome : string) : journal * dir * list dir * res string :=
  let fail e := (j, d, [], Err e) in
  if (len resultDigest !=z 64)
     || ((outcome !=s "SUCCEEDED") && (outcome !=s "FAILED") && (outcome !=s "UNKNOWN"))
  then fail (errors_New "complete typed Result evidence is required") else
  if closed j then fail err_closed else
  let key := recordKey commandID attemptIndex in
  match records j !! key with
  | None => fail ErrNotFound
  | Some record =>
      if State record ==s "COMPLETED" then
        if (ResultDigest record !=s resultDigest) || (Outcome record !=s outcome)
        then fail ErrConflict
        else (j, d, [], Ok (recordDigest record))
      else record_durably j d key (completed record resultDigest outcome)
  end.
End Operations.

(** [Journal.Evidence] *)
Definition Evidence (j : journal) (commandID : string) (attemptIndex : Z)
  (commandDigest targetID : string) : res (CommandRecord * string) :=
  fail_if (closed j) err_closed;;
  match records j !! recordKey commandID attemptIndex with
  | None => Err ErrNotFound
  | Some record =>
      fail_if ((CommandDigest record !=s commandDigest) || (TargetID record !=s targetID)) ErrConflict;;
      Ok (record, recordDigest record)
  end.

(** [Journal.Records] *)
Definition record_less : CommandRecord -> CommandRecord -> bool :=
  less_then (less_on String.ltb CommandID) (less_on Z.ltb AttemptIndex).

Definition Records (j : journal) : res (list CommandRecord) :=
  fail_if (closed j) err_closed;;
  Ok (sort_Slice record_less (snd <$> map_to_list (records j))).

(** [Journal.Close], given what unlocking and closing the lock file return. *)
Definition Close (j : journal) (released : res unit) : journal * res unit :=
  if closed j then (j, Ok tt) else (MkJournal (hostID j) (records j) true, released).

(** The two operations that change a journal. *)
Inductive op :=
| OpPrepare (commandID : string) (attemptIndex : Z) (commandDigest targetID : string)
| OpComplete (commandID : string) (attemptIndex : Z) (resultDigest outcome : string).

Definition run (os : os_env) (j : journal) (d : dir) (o : op) : journal * dir * list dir * res string :=
  match o with
  | OpPrepare c i cd t => Prepare os j d c i cd t
  | OpComplete c i rd out => Complete os j d c i rd out
  end.

(** ** Lemmas *)

Lemma recordFilename_not_skipped k : skipped (filename_of_key k) = false.
Proof.
  unfold skipped, filename_of_key. destruct (sha256_hex_head k) as (c & rest & -> & Hc).
  change (String c rest ++ ".json")%string with (String c (rest ++ ".json")).
  unfold hex_char in Hc. apply orb_false_intro.
  - apply String.eqb_neq. intros [= -> _]. change (byte_of "l") with 108 in Hc. lia.
  - apply andb_false_intro2. unfold HasPrefix. cbn [String.prefix]. destruct (ascii_dec "." c) as [<-|]; [|done].
    change (byte_of ".") with 46 in Hc. lia.
Qed.

(** Field values a journal holds: machine integers and ASCII text. *)
Definition record_ascii (r : CommandRecord) : Prop :=
  is_i64 (AttemptIndex r)
  /\ ascii_text (SchemaVersion r) /\ ascii_text (HostID r) /\ ascii_text (CommandID r)
  /\ ascii_text (CommandDigest r) /\ ascii_text (TargetID r) /\ ascii_text (State r)
  /\ ascii_text (ResultDigest r) /\ ascii_text (Outcome r).

Lemma record_plain r : record_ascii r -> plain (record_json r).
Proof.
  intros (? & ? & ? & ? & ? & ? & ? & ? & ?). unfold record_json, omitempty.
  destruct (ResultDigest r ==s "")%go; destruct (Outcome r ==s "")%go;
    plain_members.
Qed.

Lemma journal_record_round_trip r : record_ascii r ->
  (unmarshal (payload_of r) ≫= fun j =>
     decode_struct false record_fields j (MkRecord "" "" "" 0 "" "" "" "" "")) = Some r.
Proof.
  intros Hr. unfold payload_of. rewrite unmarshal_marshal_line by by apply record_plain.
  destruct Hr as [Hi _]. destruct r as [s h c i cd t st rd o]. cbn in Hi.
  unfold record_json, omitempty. cbn [ResultDigest Outcome].
  destruct (String.eqb_spec rd ""); destruct (String.eqb_spec o ""); subst; cbn;
    by rewrite ParseInt_FormatInt.
Qed.

(** Reading back the file of a record of this journal. *)
Lemma journal_load_entry_payload host r :
  record_ascii r -> SchemaVersion r = schemaVersion -> HostID r = host ->
  load_entry host (filename_of_key (key_of r)) (private_file (payload_of r)) = Ok (Some r).
Proof.
  intros Hr Hs Hh. unfold load_entry. rewrite recordFilename_not_skipped. cbn.
  unfold filename_of_key. rewrite filepath_Ext_app. cbn.
  rewrite journal_record_round_trip by done.
  rewrite Hs, Hh. unfold recordFilename, filename_of_key, key_of. by rewrite !String.eqb_refl.
Qed.

Lemma journal_load_entry_Some host name n r : load_entry host name n = Ok (Some r) ->
  name = filename_of_key (key_of r) /\ SchemaVersion r = schemaVersion /\ HostID r = host.
Proof.
  unfold load_entry. destruct (skipped name); [done|]. intros H. run_guards.
  subst r. split; [exact H1|]. split; assumption.
Qed.

Lemma journal_load_entry_name host name n r :
  load_entry host name n = Ok (Some r) -> name = filename_of_key (key_of r).
Proof. intros H. exact (proj1 (journal_load_entry_Some host name n r H)). Qed.

Lemma persist_triple os record before :
  let target := filename_of_key (key_of record) in
  target <> tmp_name os ->
  triple (is_either os target (payload_of record) before) (is_before os before)
    (persist os record) (fun _ => is_after os target (payload_of record) before)
    (is_either os target (payload_of record) before).
Proof.
  intros target Ht. unfold persist.
  eapply triple_bind.
  { eapply triple_conseq; [by apply triple_create_temp|done|by intros ? ? H; exact H|apply before_either]. }
  intros []. eapply triple_bind.
  - eapply triple_on_error.
    + eapply triple_bind; [by apply triple_fill_temp|intros []; by apply triple_rename].
    + eapply triple_conseq; [apply (triple_remove_temp os target (payload_of record) before
        (is_before os before))|done|by intros ? ? H; exact (before_either _ _ _ _ _ H)|apply before_either].
      * apply is_before_delete.
      * apply before_either.
  - intros []. unfold sync_and_close.
    apply (triple_bind _ _ _ _ (fun _ => is_placed os target (payload_of record) before)).
    { eapply triple_conseq; [apply (triple_call _ _ _ (is_placed os target (payload_of record) before))|done|done|by intros d []]. }
    intros [] d tr HP HI Htr. pose proof (triple_sync_entries os target (payload_of record) before d tr HP HI Htr) as H.
    destruct (sync_entries os d tr) as [[d' tr'] [[]|e]]; destruct H as (H1 & H2 & H3);
      destruct (fault os CloseDir); (split; [done|]); (split; [done|]); try done; apply H3.
Qed.

(** A restart loads these records, wherever the machine stops. *)
Definition durably (host : string) (d : dir) (rs : gmap string CommandRecord) : Prop :=
  RecordDir.durably (load_entry host) key_of d rs.

Lemma load_entry_settle host name n : load_entry host name (settle n) = load_entry host name n.
Proof. done. Qed.

Lemma durably_load host d rs : durably host d rs -> load host d = Ok rs.
Proof. apply (durably_now _ _ filename_of_key (journal_load_entry_name host) (load_entry_settle host)). Qed.

(** The directory holds what the journal has in memory. *)
Record journal_ok (j : journal) (d : dir) : Prop := {
  jok_durable : durably (hostID j) d (records j);
  jok_ascii : map_Forall (fun _ r => record_ascii r) (records j);
  jok_host : ascii_text (hostID j);
}.

(** SHA-256 gives the key its own file among those in use. *)
Definition own_file (j : journal) (key : string) : Prop :=
  forall k, is_Some (records j !! k) -> filename_of_key k = filename_of_key key -> k = key.

(** Temporary names are the prefix followed by random digits. *)
Definition temp_name_ok (os : os_env) : Prop := temp_prefix os /\ 5 < len (tmp_name os).

Lemma temp_skipped os : temp_name_ok os -> skipped (tmp_name os) = true.
Proof.
  intros [Hp Hl]. unfold skipped, HasPrefix. unfold temp_prefix in Hp. rewrite Hp.
  destruct (Z.ltb_spec 5 (len (tmp_name os))); [|lia]. by rewrite orb_true_r.
Qed.

Lemma temp_entry_skipped host os : skipped (tmp_name os) = true -> forall n, load_entry host (tmp_name os) n = Ok None.
Proof. intros Hs n. unfold load_entry. by rewrite Hs. Qed.

Lemma jok_loads j d : journal_ok j d -> load (hostID j) d = Ok (records j).
Proof. intros H. apply durably_load, H. Qed.

(** What [record_durably] leaves behind, wherever it stops. *)
Lemma record_durably_spec os j d record :
  journal_ok j d -> temp_name_ok os -> own_file j (key_of record) ->
  record_ascii record -> SchemaVersion record = schemaVersion -> HostID record = hostID j ->
  let '(j', d', tr, r) := record_durably os j d (key_of record) record in
  Forall (fun s => forall c, survives s c -> load (hostID j) c = Ok (records j)
                   \/ load (hostID j) c = Ok (<[key_of record := record]> (records j))) (d' :: tr)
  /\ match r with
     | Ok digest => records j' = <[key_of record := record]> (records j)
                    /\ durably (hostID j) d' (records j') /\ digest = recordDigest record
     | Err _ => j' = j
     end.
Proof.
  intros [Hload _ _] Htmp Hown Hr Hs Hh. pose proof (temp_skipped os Htmp) as Hskip.
  assert (filename_of_key (key_of record) <> tmp_name os) as Hne.
  { intros E. rewrite <- E, recordFilename_not_skipped in Hskip. done. }
  pose proof (persist_triple os record d Hne d [] (is_before_refl os d)
    (before_either _ _ _ _ _ (is_before_refl os d)) (Forall_nil_2 _)) as Ht.
  pose proof (scan_as_before _ _ _ (journal_load_entry_name (hostID j)) os d (records j)
    (temp_entry_skipped (hostID j) os Hskip) Hload) as Hb.
  pose proof (fun c => scan_as_after _ _ _ (journal_load_entry_name (hostID j)) os d (records j)
    (temp_entry_skipped (hostID j) os Hskip) Hload record (payload_of record) c
    (journal_load_entry_payload _ _ Hr Hs Hh) Hown) as Ha.
  assert (forall s, is_either os (filename_of_key (key_of record)) (payload_of record) d s -> forall c, survives s c ->
    load (hostID j) c = Ok (records j) \/ load (hostID j) c = Ok (<[key_of record := record]> (records j))) as He.
  { intros s Hd c Hc. destruct (either_survives _ _ _ _ Hne s c Hd Hc); [left; by apply Hb|right; by apply Ha]. }
  unfold record_durably.
  destruct (persist os record d []) as [[d' tr] [[]|err]]; destruct Ht as (Htr & Hd & Hres).
  - split; [constructor; [by apply He|by eapply Forall_impl]|]. split; [done|]. split; [|done].
    intros c Hc. by apply Ha, (after_survives _ _ _ _ Hne d').
  - split; [constructor; [by apply He|by eapply Forall_impl]|done].
Qed.

(** The record an operation writes, when it writes one. *)
Definition intended (j : journal) (o : op) : option CommandRecord :=
  match o with
  | OpPrepare c i cd t => Some (started (hostID j) c i cd t)
  | OpComplete c i rd out =>
      (fun record => completed record rd out) <$> records j !! recordKey c i
  end.

Definition op_key (o : op) : string :=
  match o with OpPrepare c i _ _ | OpComplete c i _ _ => recordKey c i end.

(** Arguments of the operation are machine integers and ASCII text. *)
Definition op_ascii (o : op) : Prop :=
  match o with
  | OpPrepare c i cd t => is_i64 i /\ ascii_text c /\ ascii_text cd /\ ascii_text t
  | OpComplete c i rd out => ascii_text rd /\ ascii_text out
  end.

Lemma journal_ok_lookup j d k r : journal_ok j d -> records j !! k = Some r ->
  key_of r = k /\ SchemaVersion r = schemaVersion /\ HostID r = hostID j /\ record_ascii r.
Proof.
  intros [Hload%durably_load Hascii _] Hk.
  destruct (scan_lookup (load_entry (hostID j)) key_of filename_of_key (journal_load_entry_name _)
    d (records j) k r Hload Hk) as (Hkey & n & _ & He).
  apply journal_load_entry_Some in He as (_ & ? & ?). by repeat split; try apply (Hascii k).
Qed.

(** ** Properties *)

(** The directory and the memory, wherever an operation stops. *)
Lemma run_crash_safe os j d o :
  journal_ok j d -> temp_name_ok os -> op_ascii o -> own_file j (op_key o) ->
  let '(j', d', tr, r) := run os j d o in
  Forall (fun s => forall c, survives s c -> load (hostID j) c = Ok (records j)
     \/ exists record, intended j o = Some record
        /\ load (hostID j) c = Ok (<[op_key o := record]> (records j))) (d' :: tr)
  /\ match r with
     | Ok digest => durably (hostID j) d' (records j')
         /\ exists record, records j' !! op_key o = Some record /\ digest = recordDigest record
     | Err _ => j' = j
     end.
Proof.
  intros Hok Htmp Hargs Hown. pose proof (jok_durable _ _ Hok) as Hload.
  assert (Forall (fun s => forall c, survives s c -> load (hostID j) c = Ok (records j)
     \/ exists record, intended j o = Some record
        /\ load (hostID j) c = Ok (<[op_key o := record]> (records j))) [d]) as Hsame
    by (constructor; [intros c Hc; left; by apply Hload|constructor]).
  assert (forall record, intended j o = Some record -> key_of record = op_key o ->
    record_ascii record -> SchemaVersion record = schemaVersion -> HostID record = hostID j ->
    let '(j', d', tr, r) := record_durably os j d (op_key o) record in
    Forall (fun s => forall c, survives s c -> load (hostID j) c = Ok (records j)
       \/ exists record, intended j o = Some record
          /\ load (hostID j) c = Ok (<[op_key o := record]> (records j))) (d' :: tr)
    /\ match r with
       | Ok digest => durably (hostID j) d' (records j')
           /\ exists record, records j' !! op_key o = Some record /\ digest = recordDigest record
       | Err _ => j' = j
       end) as Hwrite.
  { intros record Hi Hk Ha Hs Hh. rewrite <- Hk in Hown.
    pose proof (record_durably_spec os j d record Hok Htmp Hown Ha Hs Hh) as H. rewrite Hk in H.
    destruct (record_durably os j d (op_key o) record) as [[[j' d'] tr] r]. destruct H as [Htr Hr].
    split; [eapply Forall_impl; [exact Htr|]; intros s Hs' c Hc; destruct (Hs' c Hc); eauto|].
    destruct r as [digest|]; [|done]. destruct Hr as (Hm & Hl & Hd). split; [done|].
    exists record. by rewrite Hm, lookup_insert_eq. }
  destruct o as [c i cd t|c i rd out]; cbn [run op_key] in *.
  - unfold Prepare. destruct (_ || _ || _ || _); [done|]. destruct (closed j); [done|].
    destruct (records j !! recordKey c i) as [existing|] eqn:Ee.
    + destruct (_ || _ || _ || _); [done|]. split; [done|]. eauto.
    + destruct Hargs as (? & ? & ? & ?). pose proof (jok_host _ _ Hok).
      apply Hwrite; try done. by repeat split; cbn; try apply H; try done; ascii_literal.
  - unfold Complete. destruct (_ || _); [done|]. destruct (closed j); [done|].
    destruct (records j !! recordKey c i) as [record|] eqn:Ee; [|done].
    destruct (State record ==s "COMPLETED")%go.
    + destruct (_ || _); [done|]. split; [done|]. eauto.
    + destruct (journal_ok_lookup _ _ _ _ Hok Ee) as (Hk & Hs & Hh & Ha).
      apply Hwrite; try done.
      * cbn. by rewrite Ee.
      * destruct Ha as (? & ? & ? & ? & ? & ? & ? & ? & ?), Hargs.
        by repeat split; cbn; try apply H; try done; ascii_literal.
Qed.


(** A journal that recorded something holds what its directory does. *)
Lemma run_Ok_journal_ok os j d o j' d' tr digest :
  journal_ok j d -> temp_name_ok os -> op_ascii o -> own_file j (op_key o) ->
  run os j d o = (j', d', tr, Ok digest) -> journal_ok j' d'.
Proof.
  intros Hok Htmp Hargs Hown E. pose proof (run_crash_safe os j d o Hok Htmp Hargs Hown) as H.
  rewrite E in H. destruct H as (Htr & Hload & _). apply Forall_inv in Htr.
  specialize (Htr _ (survives_current d')). pose proof (Hload _ (survives_current d')) as Hnow.
  unfold load in Htr. rewrite Hnow in Htr.
  assert (hostID j' = hostID j) as Hh.
  { destruct o; cbn [run] in E; unfold Prepare, Complete, record_durably in E; repeat case_match; by simplify_eq. }
  assert (map_Forall (fun _ r => record_ascii r) (records j')) as Ha.
  { destruct Htr as [[= ->]|(record & Hi & [= ->])]; [apply (jok_ascii _ _ Hok)|].
    apply map_Forall_insert_2; [|apply (jok_ascii _ _ Hok)].
    pose proof (jok_host _ _ Hok). destruct o as [c i cd t|c i rd out]; cbn [intended] in Hi.
    - injection Hi as <-. destruct Hargs as (? & ? & ? & ?).
      by repeat split; cbn; try apply H; try done; try ascii_literal; apply H0.
    - destruct (records j !! recordKey c i) as [r|] eqn:Er; [|done]. injection Hi as <-.
      destruct (journal_ok_lookup _ _ _ _ Hok Er) as (_ & _ & _ & ? & ? & ? & ? & ? & ? & ? & ? & ?).
      destruct Hargs. by repeat split; cbn; try done; try ascii_literal; apply H0. }
  split; [by rewrite Hh|done|rewrite Hh; apply (jok_host _ _ Hok)].
Qed.


(** How a record may change: its identity never, and its Result only once. *)
Definition evolves (r r' : CommandRecord) : Prop :=
  SchemaVersion r' = SchemaVersion r /\ HostID r' = HostID r /\ CommandID r' = CommandID r
  /\ AttemptIndex r' = AttemptIndex r /\ CommandDigest r' = CommandDigest r
  /\ TargetID r' = TargetID r
  /\ (r' = r \/ (State r <> "COMPLETED"%string /\ State r' = "COMPLETED"%string)).

Lemma evolves_refl r : evolves r r.
Proof. unfold evolves. tauto. Qed.

Lemma evolves_trans r1 r2 r3 : evolves r1 r2 -> evolves r2 r3 -> evolves r1 r3.
Proof.
  unfold evolves. intros (? & ? & ? & ? & ? & ? & E1) (? & ? & ? & ? & ? & ? & E2).
  repeat split; try congruence. destruct E1 as [->|[? ?]], E2 as [->|[? ?]]; auto; congruence.
Qed.

Lemma record_durably_records os j d key record :
  let '(j', _, _, _) := record_durably os j d key record in
  j' = j \/ records j' = <[key := record]> (records j).
Proof. unfold record_durably. destruct (persist _ _ _ _) as [[? ?] [?|?]]; auto. Qed.

Lemma run_evolves os j d o k r : records j !! k = Some r ->
  let '(j', _, _, _) := run os j d o in exists r', records j' !! k = Some r' /\ evolves r r'.
Proof.
  intros Hk. assert (exists r', records j !! k = Some r' /\ evolves r r') as Hsame
    by eauto using evolves_refl.
  destruct o as [c i cd t|c i rd out]; cbn [run].
  - unfold Prepare. destruct (_ || _ || _ || _); [done|]. destruct (closed j); [done|].
    destruct (records j !! recordKey c i) as [existing|] eqn:Ee; [by destruct (_ || _ || _ || _)|].
    pose proof (record_durably_records os j d (recordKey c i) (started (hostID j) c i cd t)) as H.
    destruct (record_durably _ _ _ _ _) as [[[j' ?] ?] ?]. destruct H as [->| ->]; [done|].
    rewrite lookup_insert_ne; [done|]. intros <-. congruence.
  - unfold Complete. destruct (_ || _); [done|]. destruct (closed j); [done|].
    destruct (records j !! recordKey c i) as [record|] eqn:Ee; [|done].
    destruct (String.eqb_spec (State record) "COMPLETED"); [by destruct (_ || _)|].
    pose proof (record_durably_records os j d (recordKey c i) (completed record rd out)) as H.
    destruct (record_durably _ _ _ _ _) as [[[j' ?] ?] ?]. destruct H as [->| ->]; [done|].
    destruct (decide (recordKey c i = k)) as [<-|Hne]; [|by rewrite lookup_insert_ne].
    rewrite lookup_insert_eq. eexists. split; [done|]. simplify_eq. unfold evolves. cbn. auto 10.
Qed.

(** A run: each operation meets its own environment and directory. *)
Definition run_all (j : journal) (steps : list (os_env * dir * op)) : journal :=
  foldl (fun j '(os, d, o) => (run os j d o).1.1.1) j steps.

(** recorded evidence is append-only: along any run, under any failures, a
    recorded Command keeps its identity, digest and target, and once its Result
    is COMPLETED the record never changes again. *)
Theorem journal_evidence_append_only j steps k r :
  records j !! k = Some r ->
  exists r', records (run_all j steps) !! k = Some r' /\ evolves r r'
  /\ (State r = "COMPLETED"%string -> r' = r).
Proof.
  intros Hk. enough (exists r', records (run_all j steps) !! k = Some r' /\ evolves r r')
    as (r' & Hr' & He).
  { exists r'. split; [done|]. split; [done|]. destruct He as (_ & _ & _ & _ & _ & _ & [->|[? _]]); done. }
  revert j r Hk. induction steps as [|[[os d] o] steps IH]; intros j r Hk.
  { exists r. split; [done|apply evolves_refl]. }
  cbn [run_all foldl]. pose proof (run_evolves os j d o k r Hk) as H.
  destruct (run os j d o) as [[[j1 d1] tr1] res1]. destruct H as (r1 & Hk1 & He1).
  destruct (IH j1 r1 Hk1) as (r' & Hr' & He'). exists r'. split; [done|by eapply evolves_trans].
Qed.

(** An operation on the same record that says something else. *)
Definition conflicting (o o' : op) : Prop :=
  match o, o' with
  | OpPrepare c i cd t, OpPrepare c' i' cd' t' =>
      c' = c /\ i' = i /\ len cd' = 64 /\ t' <> ""%string /\ (cd', t') <> (cd, t)
  | OpComplete c i rd out, OpComplete c' i' rd' out' =>
      c' = c /\ i' = i /\ len rd' = 64 /\ In out' ["SUCCEEDED"; "FAILED"; "UNKNOWN"]%string
      /\ (rd', out') <> (rd, out)
  | _, _ => False
  end.

(** The record in memory after a successful operation says what was asked. *)
Definition matches (r : CommandRecord) (o : op) : Prop :=
  match o with
  | OpPrepare c i cd t => CommandID r = c /\ AttemptIndex r = i /\ CommandDigest r = cd /\ TargetID r = t
  | OpComplete _ _ rd out => State r = "COMPLETED"%string /\ ResultDigest r = rd /\ Outcome r = out
  end.

Lemma run_Ok os j d o j' d' tr digest : run os j d o = (j', d', tr, Ok digest) ->
  closed j' = false /\ exists r, records j' !! op_key o = Some r /\ matches r o /\ digest = recordDigest r.
Proof.
  assert (forall record, closed j = false -> matches record o ->
    record_durably os j d (op_key o) record = (j', d', tr, Ok digest) ->
    closed j' = false /\ exists r, records j' !! op_key o = Some r /\ matches r o /\ digest = recordDigest r)
    as Hw.
  { intros record Hc Hm. unfold record_durably. destruct (persist _ _ _ _) as [[? ?] [?|?]]; [|done].
    intros [= <- <- <- <-]. split; [done|]. exists record. cbn. by rewrite lookup_insert_eq. }
  destruct o as [c i cd t|c i rd out]; cbn [run op_key] in *.
  - unfold Prepare. destruct (_ || _ || _ || _); [done|]. destruct (closed j) eqn:Ec; [done|].
    destruct (records j !! recordKey c i) as [existing|] eqn:Ee; [|by apply Hw].
    destruct (_ || _ || _ || _) eqn:Eg; [done|]. intros [= <- <- <- <-]. split; [done|].
    exists existing. split; [done|]. split; [|done]. bools. done.
  - unfold Complete. destruct (_ || _); [done|]. destruct (closed j) eqn:Ec; [done|].
    destruct (records j !! recordKey c i) as [record|] eqn:Ee; [|done].
    destruct (String.eqb_spec (State record) "COMPLETED"); [|by apply Hw].
    destruct (_ || _) eqn:Eg; [done|]. intros [= <- <- <- <-]. split; [done|].
    exists record. split; [done|]. split; [|done]. bools. done.
Qed.

(** operations are idempotent and conflicts are refused: repeating one that
    succeeded returns the same digest and touches neither memory nor disk, and
    one that says something else about the same record is [ErrConflict]. *)
Theorem journal_idempotent_or_conflict os j d o j' d' tr digest :
  run os j d o = (j', d', tr, Ok digest) ->
  forall os2 d2 o2,
    run os2 j' d2 o = (j', d2, [], Ok digest)
    /\ (conflicting o o2 -> run os2 j' d2 o2 = (j', d2, [], Err ErrConflict)).
Proof.
  intros H os2 d2 o2. pose proof (run_Ok _ _ _ _ _ _ _ _ H) as (Hc & r & Hr & Hm & ->).
  destruct o as [c i cd t|c i rd out]; cbn [run op_key matches] in *.
  - destruct Hm as (<- & <- & <- & <-). unfold Prepare in *.
    destruct ((CommandID r ==s "") || _ || _ || _)%go eqn:Eg; [done|]. bools. split.
    + rewrite Hc, Hr. by rewrite !String.eqb_refl, Z.eqb_refl.
    + destruct o2 as [c' i' cd' t'|]; [|done]. intros (-> & -> & Hl & Ht & Hne). cbn [run]. unfold Prepare.
      apply String.eqb_neq in Ht. rewrite Hl, Ht, Hc, Hr. cbn.
      rewrite (proj2 (String.eqb_neq _ _)) by done. rewrite (proj2 (Z.ltb_ge _ _)) by lia. cbn.
      rewrite !String.eqb_refl, Z.eqb_refl. cbn.
      destruct (String.eqb_spec (CommandDigest r) cd'); [|done].
      destruct (String.eqb_spec (TargetID r) t'); [|done]. by subst.
  - destruct Hm as (Hs & <- & <-). unfold Complete in *.
    destruct (_ || _) eqn:Eg; [done|]. split.
    + rewrite Hc, Hr, Hs. cbn. by rewrite !String.eqb_refl.
    + destruct o2 as [|c' i' rd' out']; [done|]. intros (-> & -> & Hl & Hin & Hne). cbn [run]. unfold Complete.
      rewrite Hl, Hc, Hr, Hs.
      assert ((out' !=s "SUCCEEDED") && (out' !=s "FAILED") && (out' !=s "UNKNOWN") = false)%go as ->.
      { destruct Hin as [<-|[<-|[<-|[]]]]; done. }
      cbn. destruct (String.eqb_spec (ResultDigest r) rd'); [|done].
      destruct (String.eqb_spec (Outcome r) out'); [|done]. by subst.
Qed.

(** A system on which only the sync of the directory fails. *)
Definition sync_fails (tmp : string) (e : goerr) : os_env :=
  OsEnv (fun c => match c with SyncDir => Some e | _ => None end) tmp "".

(** a Result whose directory sync fails is already the published file but
    not the record in memory, so a later, different Result replaces the
    COMPLETED evidence on disk instead of being refused with [ErrConflict]. *)
Theorem unsynced_result_is_replaced j d c i record rd1 rd2 tmp e :
  closed j = false -> records j !! recordKey c i = Some record -> key_of record = recordKey c i ->
  State record <> "COMPLETED"%string -> len rd1 = 64 -> len rd2 = 64 ->
  let file1 := private_file (payload_of (completed record rd1 "SUCCEEDED")) in
  let file2 := private_file (payload_of (completed record rd2 "FAILED")) in
  exists d1 tr1 j2 d2 tr2,
    Complete (sync_fails tmp e) j d c i rd1 "SUCCEEDED" = (j, d1, tr1, Err e)
    /\ current d1 !! recordFilename c i = Some file1
    /\ Complete (healthy tmp) j d1 c i rd2 "FAILED"
       = (j2, d2, tr2, Ok (recordDigest (completed record rd2 "FAILED")))
    /\ current d2 !! recordFilename c i = Some file2.
Proof.
  intros Hc Hr Hk Hs H1 H2 file1 file2. unfold Complete. rewrite H1, H2, Hc, Hr. cbn.
  rewrite (proj2 (String.eqb_neq _ _)) by done.
  unfold record_durably, persist, io_on_error, fill_temp, rename_temp, remove_file, sync_and_close, sync_entries, sync_file,
    create_temp, write_temp, call, mutate, io_bind, io_read. cbn.
  rewrite !lookup_alter_eq, !lookup_insert_eq. cbn.
  assert (recordFilename (CommandID record) (AttemptIndex record) = recordFilename c i) as ->
    by (unfold recordFilename; by rewrite <- Hk).
  do 5 eexists. split; [reflexivity|]. split; [cbn; by rewrite lookup_insert_eq|].
  cbn. rewrite !lookup_alter_eq, !lookup_insert_eq. cbn. split; [reflexivity|]. cbn. by rewrite lookup_insert_eq.
Qed.
(** *** Concrete runs *)

Definition demo_digest : string := sha256_hex "command".
Definition demo_result : string := sha256_hex "result".
Definition demo_record : CommandRecord := started "host-a" "cmd-1" 1 demo_digest "vm-1".
Definition demo_key : string := recordKey "cmd-1" 1.
Definition demo_journal : journal := MkJournal "host-a" {[ demo_key := demo_record ]} false.
Definition demo_dir : dir := clean {[ recordFilename "cmd-1" 1 := private_file (payload_of demo_record) ]}.
Definition demo_tmp : string := ".tmp-123456".

Lemma demo_ok : journal_ok demo_journal demo_dir.
Proof.
  assert (record_ascii demo_record) as Ha.
  { unfold record_ascii. split; [vm_compute; split; discriminate || reflexivity|].
    repeat split; ascii_literal. }
  split.
  - apply (durably_clean (load_entry "host-a") key_of); [vm_compute; reflexivity|].
    intros name n Hn. by apply lookup_singleton_Some in Hn as [_ <-].
  - intros k r Hr. cbn [records demo_journal] in Hr. apply lookup_singleton_Some in Hr as [_ <-]. exact Ha.
  - ascii_literal.
Qed.

Lemma journal_demo_own o : op_key o = demo_key -> own_file demo_journal (op_key o).
Proof.
  intros E k [r Hr] _. cbn [records demo_journal] in Hr. apply lookup_singleton_Some in Hr as [<- _]. by rewrite E.
Qed.


Lemma journal_evidence_append_only_witness :
  exists r', records (run_all demo_journal [(healthy demo_tmp, demo_dir, OpComplete "cmd-1" 1 demo_result "FAILED")])
    !! demo_key = Some r' /\ evolves demo_record r' /\ (State demo_record = "COMPLETED"%string -> r' = demo_record).
Proof. apply journal_evidence_append_only. cbn [records demo_journal]. apply lookup_singleton_Some. split; reflexivity. Defined.

Lemma journal_idempotent_or_conflict_witness :
  let o := OpPrepare "cmd-1" 1 demo_digest "vm-1" in
  run (healthy demo_tmp) demo_journal demo_dir o = (demo_journal, demo_dir, [], Ok (recordDigest demo_record))
  /\ (conflicting o (OpPrepare "cmd-1" 1 demo_digest "vm-2") ->
      run (healthy demo_tmp) demo_journal demo_dir (OpPrepare "cmd-1" 1 demo_digest "vm-2")
      = (demo_journal, demo_dir, [], Err ErrConflict)).
Proof.
  apply (journal_idempotent_or_conflict (healthy demo_tmp) demo_journal demo_dir
    (OpPrepare "cmd-1" 1 demo_digest "vm-1") demo_journal demo_dir []).
  vm_cast_no_check (eq_refl (run (healthy demo_tmp) demo_journal demo_dir (OpPrepare "cmd-1" 1 demo_digest "vm-1"))).
Defined.

Lemma unsynced_result_is_replaced_witness :
  exists d1 tr1 j2 d2 tr2,
    Complete (sync_fails demo_tmp (errors_New "EIO")) demo_journal demo_dir "cmd-1" 1 demo_result "SUCCEEDED"
      = (demo_journal, d1, tr1, Err (errors_New "EIO"))
    /\ current d1 !! recordFilename "cmd-1" 1 = Some (private_file (payload_of (completed demo_record demo_result "SUCCEEDED")))
    /\ Complete (healthy demo_tmp) demo_journal d1 "cmd-1" 1 demo_result "FAILED"
       = (j2, d2, tr2, Ok (recordDigest (completed demo_record demo_result "FAILED")))
    /\ current d2 !! recordFilename "cmd-1" 1 = Some (private_file (payload_of (completed demo_record demo_result "FAILED"))).
Proof.
  apply (unsynced_result_is_replaced demo_journal demo_dir "cmd-1" 1 demo_record demo_result demo_result demo_tmp).
  - reflexivity.
  - cbn [records demo_journal]. apply lookup_singleton_Some. split; reflexivity.
  - reflexivity.
  - discriminate.
  - vm_compute. reflexivity.
  - vm_compute. reflexivity.
Defined.
End Journal.
