(* ===== verification/Spool.v ===== *)
(** * spool/spool.go: the bounded durable outbound journal

    A message is on disk before the session may send it, and stays until a
    durable ACCEPTED receipt releases it.  The spool is a map in memory and one
    file per message in its queue directory. *)

From S2P Require Import Prelude GoStd GoJson OsFiles RecordDir Envelope.
Local Open Scope Z_scope.
Local Open Scope go_scope.

Module Spool.

Definition recordVersion : string := "kim.agent.spool/v1".

Definition ErrLocked : goerr := errors_New "Agent spool is already locked".
Definition ErrFull : goerr := errors_New "Agent spool capacity exceeded".
Definition ErrEmpty : goerr := errors_New "Agent spool is empty".
Definition ErrMessageConflict : goerr := errors_New "Agent spool message digest conflict".
Definition ErrNonReleasingReceipt : goerr :=
  errors_New "durable receipt does not release Agent spool entry".
Definition err_closed : goerr := errors_New "Agent spool is closed".

Record Config := MkConfig {
  Directory : string;
  cfg_HostIdentity : string;
  MaxEntries : Z;
  MaxBytes : Z;
  MaxMessageBytes : Z;
}.

Record Stats := MkStats {
  QueuedEntries : Z;
  QueuedBytes : Z;
  st_MaxEntries : Z;
  st_MaxBytes : Z;
}.

Record record := MkRecord { Version : string; rec_Envelope : Envelope }.

Definition record_json (r : record) : json :=
  JObj [("version", JStr (Version r)); ("envelope", envelope_json (rec_Envelope r))]%string.

Definition record_fields : list (field record) :=
  [string_field "version" (fun s r => MkRecord s (rec_Envelope r));
   struct_field "envelope" false envelope_fields rec_Envelope (fun e r => MkRecord (Version r) e)].

(** A queued message.  Its path is the queue directory's file of that name. *)
Record entry := MkEntry { path : string; envelope : Envelope; size : Z }.

Record spool := MkSpool {
  hostIdentity : string;
  maxEntries : Z;
  maxBytes : Z;
  maxMessageBytes : Z;
  entries : gmap string entry;
  closed : bool;
}.

Definition messageFilename (messageID : string) : string := (sha256_hex messageID ++ ".json")%string.

Definition sameMessage (left right : Envelope) : bool :=
  (HostIdentity left ==s HostIdentity right) && (Stream left ==s Stream right)
  && (MessageID left ==s MessageID right) && (SchemaVersion left ==s SchemaVersion right)
  && (SequenceScope left ==s SequenceScope right) && (Sequence left =? Sequence right)
  && (ResourceGeneration left =? ResourceGeneration right)
  && (PayloadDigest left ==s PayloadDigest right)
  && (CorrelationKey left ==s CorrelationKey right).

(** [cloneEnvelope]: the copy shares no payload array with the original; bytes
    are values here. *)
Definition cloneEnvelope (e : Envelope) : Envelope := e.

(** [Spool.statsLocked]: the sizes are summed in [int64]. *)
Definition queued_bytes (es : gmap string entry) : Z :=
  foldr (fun item acc => i64 (size item + acc)) 0 (snd <$> map_to_list es).

Definition statsLocked (s : spool) : Stats :=
  MkStats (Z.of_nat (base.size (entries s))) (queued_bytes (entries s)) (maxEntries s) (maxBytes s).

(** ** Loading *)

Definition err_json : goerr := errors_New "json: cannot decode Agent spool record".

(** The checks [Spool.load] makes of one entry; [None] for a temporary file. *)
Definition load_entry (host : string) (maxMessage : Z) (name : string) (n : node) : res (option entry) :=
  if HasPrefix name ".tmp-" then Ok None else
  fail_if (bool_decide (kind n = OsFiles.Directory) || negb (HasSuffix name ".json"))
    (errors_New "unexpected Agent spool entry");;
  fail_if (negb (bool_decide (kind n = Regular)) || negb (private n))
    (errors_New "Agent spool entry must be a private regular file");;
  match unmarshal (data n) ≫= fun j => decode_struct false record_fields j (MkRecord "" zero_envelope) with
  | None => Err err_json
  | Some decoded =>
      fail_if ((Version decoded !=s recordVersion)
               || (HostIdentity (rec_Envelope decoded) !=s host))
        (errors_New "Agent spool record version or Host identity mismatch");;
      Validate (rec_Envelope decoded) maxMessage;;
      fail_if (messageFilename (MessageID (rec_Envelope decoded)) !=s name)
        (errors_New "Agent spool record filename mismatch");;
      Ok (Some (MkEntry name (cloneEnvelope (rec_Envelope decoded)) (len (data n))))
  end.

Section Operations.
Context (os : os_env).
Local Open Scope io_scope.

Definition io_lift {A} (r : res A) : io A := fun d tr => (d, tr, r).

(** The loop of [Spool.load] over the listed names: temporary files are
    removed, anything else must be a valid record. *)
Fixpoint load_loop (host : string) (maxMessage : Z) (listing : list (string * node))
    (es : gmap string entry) : io (gmap string entry) :=
  match listing with
  | [] => io_ret es
  | (name, n) :: rest =>
      if HasPrefix name ".tmp-" then
        remove_file os name ;; load_loop host maxMessage rest es
      else
        item <- io_lift (load_entry host maxMessage name n);
        match item with
        | None => load_loop host maxMessage rest es
        | Some e =>
            if bool_decide (is_Some (es !! MessageID (envelope e))) then io_fail ErrMessageConflict
            else load_loop host maxMessage rest (<[MessageID (envelope e) := e]> es)
        end
  end.

(** [Spool.load] *)
Definition load (s : spool) : io spool :=
  d <- io_read;
  es <- load_loop (hostIdentity s) (maxMessageBytes s) (ReadDir d) (entries s);
  let s' := MkSpool (hostIdentity s) (maxEntries s) (maxBytes s) (maxMessageBytes s) es (closed s) in
  let stats := statsLocked s' in
  if (maxEntries s <? QueuedEntries stats) || (maxBytes s <? QueuedBytes stats)
  then io_fail ErrFull
  else sync_dir os ;; io_ret s'.

(** [Open]; [setup] is the outcome of creating the private directories and
    taking the lock ([ErrLocked] when another process holds it). *)
Definition Open (config : Config) (setup : res unit) : io spool :=
  if (Directory config ==s "") || (cfg_HostIdentity config ==s "") || (MaxEntries config <? 1)
     || (MaxBytes config <? 1) || (MaxMessageBytes config <? 1)
  then io_fail (errors_New "spool directory, Host identity, and positive bounds are required")
  else
    io_lift setup ;;
    load (MkSpool (cfg_HostIdentity config) (MaxEntries config) (MaxBytes config)
            (MaxMessageBytes config) ∅ false).

(** [writeNewAtomic] *)
Definition writeNewAtomic (target : string) (payload : bytes) : io unit :=
  create_temp os ;;
  io_defer (remove_file os (tmp_name os))
    (fill_temp os payload ;; lstat_absent os target ;; rename_temp os target ;; sync_dir os).

Definition payload_of (e : Envelope) : bytes :=
  (marshal (record_json (MkRecord recordVersion e)) ++ newline)%string.

Definition with_entries (s : spool) (es : gmap string entry) : spool :=
  MkSpool (hostIdentity s) (maxEntries s) (maxBytes s) (maxMessageBytes s) es (closed s).

(** [Spool.Enqueue] *)
Definition Enqueue (s : spool) (d : dir) (e : Envelope) : spool * dir * list dir * res unit :=
  let fail err := (s, d, [], Err err) in
  match Validate e (maxMessageBytes s) with
  | Err err => fail (Wrapf "validate durable Agent envelope: %w" [] err)
  | Ok _ =>
    if HostIdentity e !=s hostIdentity s
    then fail (errors_New "durable Agent envelope Host identity mismatch") else
    if closed s then fail err_closed else
    match entries s !! MessageID e with
    | Some existing =>
        if sameMessage (envelope existing) e then (s, d, [], Ok tt) else fail ErrMessageConflict
    | None =>
        let payload := payload_of e in
        let stats := statsLocked s in
        if (maxEntries s <? i64 (QueuedEntries stats + 1))
           || (maxBytes s <? i64 (QueuedBytes stats + len payload))
        then fail ErrFull
        else
          let path := messageFilename (MessageID e) in
          match writeNewAtomic path payload d [] with
          | (d', tr, Err err) => (s, d', tr, Err (Wrapf "persist durable Agent envelope: %w" [] err))
          | (d', tr, Ok _) =>
              (with_entries s (<[MessageID e := MkEntry path (cloneEnvelope e) (len payload)]> (entries s)),
               d', tr, Ok tt)
          end
    end
  end.

(** [Spool.Acknowledge] *)
Definition Acknowledge (s : spool) (d : dir) (receipt : Receipt) : spool * dir * list dir * res unit :=
  let fail err := (s, d, [], Err err) in
  if closed s then fail err_closed else
  match entries s !! rcpt_MessageID receipt with
  | None => fail ErrEmpty
  | Some item =>
      match ValidateFor receipt (envelope item) with
      | Err err => fail err
      | Ok _ =>
          if rcpt_Disposition receipt !=s "ACCEPTED"
          then fail (Wrapf "%w: %s" [rcpt_Disposition receipt] ErrNonReleasingReceipt)
          else
            match (remove_file os (path item) ;; sync_dir os) d [] with
            | (d', tr, Err err) => (s, d', tr, Err err)
            | (d', tr, Ok _) => (with_entries s (delete (rcpt_MessageID receipt) (entries s)), d', tr, Ok tt)
            end
      end
  end.

(** [Spool.HandleReceipt]; [cause] is [context.Cause(ctx)]. *)
Definition HandleReceipt (cause : option goerr) (s : spool) (d : dir) (receipt : Receipt) :
  spool * dir * list dir * res unit :=
  match cause with
  | Some err => (s, d, [], Err err)
  | None =>
      match Acknowledge s d receipt with
      | (s', d', tr, Err err) =>
          if errors_Is err ErrNonReleasingReceipt then (s', d', tr, Ok tt) else (s', d', tr, Err err)
      | done => done
      end
  end.
End Operations.

(** [Spool.Pending] *)
Definition entry_less : entry -> entry -> bool :=
  less_then (less_on String.ltb (fun i => SequenceScope (envelope i)))
    (less_then (less_on Z.ltb (fun i => Sequence (envelope i)))
       (less_on String.ltb (fun i => MessageID (envelope i)))).

Definition Pending (s : spool) : res (list Envelope) :=
  fail_if (closed s) err_closed;;
  Ok ((fun i => cloneEnvelope (envelope i)) <$> sort_Slice entry_less (snd <$> map_to_list (entries s))).

(** [Spool.Digest] *)
Definition nul : string := String (ascii_of 0) "".

Definition digest_line (e : Envelope) : string :=
  (MessageID e ++ nul ++ PayloadDigest e ++ nul ++ SequenceScope e ++ nul
   ++ FormatUint (Sequence e) ++ newline)%string.

Definition Digest (s : spool) : res string :=
  pending ← Pending s;
  Ok (sha256_hex (foldr (fun e acc => (digest_line e ++ acc)%string) "" pending)).

(** [Spool.Stats] *)
Definition GetStats (s : spool) : Stats := statsLocked s.

(** [Spool.Close], given what unlocking and closing the lock file return. *)
Definition Close (s : spool) (released : res unit) : spool * res unit :=
  if closed s then (s, Ok tt)
  else (MkSpool (hostIdentity s) (maxEntries s) (maxBytes s) (maxMessageBytes s) (entries s) true, released).

(** ** What a directory holds *)

Definition key_of (item : entry) : string := MessageID (envelope item).

(** The records of a queue directory, temporary files aside. *)
Definition contents (s : spool) (d : tree) : res (gmap string entry) :=
  scan (load_entry (hostIdentity s) (maxMessageBytes s)) key_of d.

(** The entry a message is kept as. *)
Definition entry_of (e : Envelope) : entry :=
  MkEntry (messageFilename (MessageID e)) (cloneEnvelope e) (len (payload_of e)).

Lemma messageFilename_head id : HasPrefix (messageFilename id) ".tmp-" = false.
Proof.
  unfold messageFilename, HasPrefix. destruct (sha256_hex_head id) as (c & rest & -> & Hc).
  change (String c rest ++ ".json")%string with (String c (rest ++ ".json")).
  cbn [String.prefix]. destruct (ascii_dec "." c) as [<-|]; [|done].
  unfold hex_char in Hc. change (byte_of ".") with 46 in Hc. lia.
Qed.

Lemma messageFilename_suffix id : HasSuffix (messageFilename id) ".json" = true.
Proof. apply HasSuffix_app. Qed.

Lemma spool_record_round_trip e : envelope_ascii e -> envelope_typed e ->
  (unmarshal (payload_of e) ≫= fun j => decode_struct false record_fields j (MkRecord "" zero_envelope))
  = Some (MkRecord recordVersion e).
Proof.
  intros Ha Ht. unfold payload_of. rewrite unmarshal_marshal_line.
  - cbn -[envelope_json envelope_fields decode_struct]. unfold record_json, record_fields.
    cbn [decode_struct decode_members]. unfold find_field, string_field, struct_field.
    cbn -[envelope_json envelope_fields decode_struct zero_envelope].
    by rewrite decode_envelope_json.
  - unfold record_json. cbn [plain foldr fst snd rec_Envelope].
    split; [ascii_literal|]. split; [ascii_literal|]. split; [ascii_literal|]. split; [|done].
    by apply envelope_plain.
Qed.

(** Reading back the file of a message this spool accepts. *)
Lemma spool_load_entry_payload host m e :
  envelope_ascii e -> envelope_typed e -> HostIdentity e = host -> Validate e m = Ok tt ->
  load_entry host m (messageFilename (MessageID e)) (private_file (payload_of e))
  = Ok (Some (entry_of e)).
Proof.
  intros Ha Ht Hh Hv. unfold load_entry. rewrite messageFilename_head. cbn.
  rewrite messageFilename_suffix. cbn.
  rewrite spool_record_round_trip by done. cbn. rewrite Hh, Hv, String.eqb_refl. cbn.
  by rewrite String.eqb_refl.
Qed.

Lemma spool_load_entry_Some host m name n item : load_entry host m name n = Ok (Some item) ->
  HasPrefix name ".tmp-" = false /\ name = messageFilename (key_of item) /\ path item = name
  /\ size item = len (data n) /\ HostIdentity (envelope item) = host
  /\ Validate (envelope item) m = Ok tt.
Proof.
  unfold load_entry. destruct (HasPrefix name ".tmp-"); [done|]. intros H. run_guards.
  subst. cbn. destruct a2. by repeat split.
Qed.

Lemma spool_load_entry_name host m name n item :
  load_entry host m name n = Ok (Some item) -> name = messageFilename (key_of item).
Proof. intros H. by destruct (spool_load_entry_Some _ _ _ _ _ H) as (_ & -> & _). Qed.

Lemma spool_load_entry_settle host m name n : load_entry host m name (settle n) = load_entry host m name n.
Proof. done. Qed.

Lemma spool_temp_entry_skipped host m os : HasPrefix (tmp_name os) ".tmp-" = true ->
  forall n, load_entry host m (tmp_name os) n = Ok None.
Proof. intros Hs n. unfold load_entry. by rewrite Hs. Qed.

(** Wherever the machine stops, the directory holds what the spool has in
    memory. *)
Definition in_sync (s : spool) (d : dir) : Prop := forall c, survives d c -> contents s c = Ok (entries s).

Lemma in_sync_contents s d : in_sync s d -> contents s d = Ok (entries s).
Proof. apply (durably_now _ _ messageFilename (spool_load_entry_name _ _) (spool_load_entry_settle _ _)). Qed.

(** SHA-256 gives the message its own file among those in use. *)
Definition own_file (s : spool) (id : string) : Prop :=
  forall k, is_Some (entries s !! k) -> messageFilename k = messageFilename id -> k = id.

Lemma contents_lookup s c k item : contents s c = Ok (entries s) -> entries s !! k = Some item ->
  key_of item = k /\ path item = messageFilename k
  /\ exists n, c !! messageFilename k = Some n
     /\ load_entry (hostIdentity s) (maxMessageBytes s) (messageFilename k) n = Ok (Some item).
Proof.
  intros Hc Hk.
  destruct (scan_lookup _ _ _ (spool_load_entry_name _ _) c (entries s) k item Hc Hk) as (Hkey & n & Hn & He).
  destruct (spool_load_entry_Some _ _ _ _ _ He) as (_ & _ & Hp & _). eauto.
Qed.
Lemma in_sync_lookup s d k item : in_sync s d -> entries s !! k = Some item ->
  key_of item = k /\ path item = messageFilename k
  /\ exists n, current d !! messageFilename k = Some n
     /\ load_entry (hostIdentity s) (maxMessageBytes s) (messageFilename k) n = Ok (Some item).
Proof. intros Hs%in_sync_contents. by apply contents_lookup. Qed.

Lemma writeNewAtomic_triple os target payload before : target <> tmp_name os ->
  triple (is_either os target payload before) (is_before os before)
    (writeNewAtomic os target payload) (fun _ => is_after os target payload before)
    (is_either os target payload before).
Proof.
  intros Ht. unfold writeNewAtomic.
  eapply triple_bind.
  { eapply triple_conseq; [by apply triple_create_temp|done|by intros ? ? H; exact H|apply before_either]. }
  intros []. eapply (triple_defer _ _ _ _ (fun _ => is_after os target payload before)
    (is_either os target payload before)).
  - eapply triple_bind; [eapply triple_conseq;
      [by apply triple_fill_temp|done|by intros ? ? H; exact H|apply before_either]|intros []].
    eapply triple_bind; [eapply triple_conseq;
      [apply (triple_lstat_absent _ os target (is_staged os payload before))|done|by intros ? ? H; exact H
      |by intros ? [? _]; apply before_either]|intros []].
    eapply triple_bind; [eapply triple_conseq;
      [by apply triple_rename|by intros ? []|by intros ? ? H; exact H|apply before_either]|intros []].
    apply triple_sync_dir.
  - intros []. apply triple_remove_temp; [by apply is_after_delete|by intros d []].
  - apply triple_remove_temp; [apply is_either_delete|done].
Qed.

Lemma remove_sync_spec os name d n : current d !! name = Some n ->
  let '(d', tr, r) := io_bind (remove_file os name) (fun _ => sync_dir os) d [] in
  Forall (fun t => t = d \/ t = enter (delete name) d \/ t = clean (delete name (current d))) (d' :: tr)
  /\ match r with Ok _ => d' = clean (delete name (current d)) | Err _ => True end.
Proof.
  intros Hn. unfold remove_file, sync_dir, sync_entries, mutate, call, io_bind, io_read. rewrite Hn.
  destruct (fault os Remove), (fault os OpenDir), (fault os SyncDir);
    (split; [repeat apply Forall_cons_2; auto; by apply Forall_nil_2|done]).
Qed.

(** The two operations that change a spool. *)
Inductive op :=
| OpEnqueue (e : Envelope)
| OpReceipt (cause : option goerr) (receipt : Receipt).

Definition run (os : os_env) (s : spool) (d : dir) (o : op) : spool * dir * list dir * res unit :=
  match o with
  | OpEnqueue e => Enqueue os s d e
  | OpReceipt cause receipt => HandleReceipt os cause s d receipt
  end.

(** The entries an operation aims at. *)
Definition intended (s : spool) (o : op) : gmap string entry :=
  match o with
  | OpEnqueue e => <[MessageID e := entry_of e]> (entries s)
  | OpReceipt _ receipt => delete (rcpt_MessageID receipt) (entries s)
  end.

(** A new message has ASCII text, 64-bit counters and a file of its own. *)
Definition op_ok (s : spool) (o : op) : Prop :=
  match o with
  | OpEnqueue e => envelope_ascii e /\ envelope_typed e /\ own_file s (MessageID e)
  | OpReceipt _ _ => True
  end.

(** What success means: the message is queued; an accepted one is not any more. *)
Definition achieved (o : op) (s' : spool) : Prop :=
  match o with
  | OpEnqueue e => exists item, entries s' !! MessageID e = Some item /\ sameMessage (envelope item) e = true
  | OpReceipt _ receipt => rcpt_Disposition receipt = "ACCEPTED"%string -> entries s' !! rcpt_MessageID receipt = None
  end.

(** What an operation leaves on disk, wherever the machine stops, and in memory *)
Definition outcome_ok (s : spool) (o : op) (out : spool * dir * list dir * res unit) : Prop :=
  let '(s', d', tr, r) := out in
  Forall (fun t => forall c, survives t c -> contents s c = Ok (entries s) \/ contents s c = Ok (intended s o)) (d' :: tr)
  /\ match r with
     | Ok _ => in_sync s' d' /\ (s' = s \/ s' = with_entries s (intended s o)) /\ achieved o s'
     | Err _ => s' = s
     end.

Lemma sameMessage_refl e : sameMessage e e = true.
Proof. unfold sameMessage. by rewrite !String.eqb_refl, !Z.eqb_refl. Qed.

Lemma outcome_unchanged s d o r : in_sync s d -> (r = Ok tt -> achieved o s) -> outcome_ok s o (s, d, [], r).
Proof.
  intros H Ha. split; [apply Forall_cons_2; [intros c Hc; left; by apply H|by apply Forall_nil_2]|].
  destruct r as [[]|]; auto.
Qed.

Lemma Enqueue_outcome os s d e :
  in_sync s d -> temp_prefix os -> op_ok s (OpEnqueue e) ->
  outcome_ok s (OpEnqueue e) (Enqueue os s d e).
Proof.
  intros Hsync Hprefix (Ha & Ht & Hown). unfold Enqueue. unfold temp_prefix in Hprefix.
  assert (forall r, (r = Ok tt -> achieved (OpEnqueue e) s) -> outcome_ok s (OpEnqueue e) (s, d, [], r)) as Hsame
    by (intros; by apply outcome_unchanged).
  destruct (Validate e (maxMessageBytes s)) as [[]|err] eqn:Hv; [|by apply Hsame].
  destruct (HostIdentity e !=s hostIdentity s)%go eqn:Hh; [by apply Hsame|]. bools.
  destruct (closed s); [by apply Hsame|].
  destruct (entries s !! MessageID e) as [existing|] eqn:Ee.
  { destruct (sameMessage (envelope existing) e) eqn:Es; apply Hsame; [|done]. intros _. by exists existing. }
  destruct (_ || _); [by apply Hsame|].
  assert (messageFilename (MessageID e) <> tmp_name os) as Hne.
  { intros E. pose proof (messageFilename_head (MessageID e)) as Hm. unfold HasPrefix in Hm. by rewrite E, Hprefix in Hm. }
  pose proof (writeNewAtomic_triple os _ (payload_of e) d Hne d [] (is_before_refl os d)
    (before_either _ _ _ _ _ (is_before_refl os d)) (Forall_nil_2 _)) as Htr.
  pose proof (spool_temp_entry_skipped (hostIdentity s) (maxMessageBytes s) os Hprefix) as Hskip.
  pose proof (scan_as_before _ _ _ (spool_load_entry_name _ _) os d (entries s) Hskip Hsync) as Hb.
  pose proof (fun c => scan_as_after _ _ _ (spool_load_entry_name _ _) os d (entries s) Hskip Hsync (entry_of e) (payload_of e) c
    (spool_load_entry_payload _ _ _ Ha Ht Hh Hv) Hown) as Haf.
  assert (forall t, is_either os (messageFilename (MessageID e)) (payload_of e) d t -> forall c, survives t c ->
    contents s c = Ok (entries s) \/ contents s c = Ok (intended s (OpEnqueue e))) as He.
  { intros t Hd c Hc. destruct (either_survives _ _ _ _ Hne t c Hd Hc); [left; by apply Hb|right; by apply Haf]. }
  destruct (writeNewAtomic os _ _ d []) as [[d' tr] [[]|err]]; destruct Htr as (Htr & Hd & Hr);
    (split; [constructor; [by apply He|by eapply Forall_impl]|]); [|done].
  split; [|split; [by right|]].
  - intros c Hc. by apply Haf, (after_survives _ _ _ _ Hne d').
  - exists (entry_of e). cbn. rewrite lookup_insert_eq. split; [done|apply sameMessage_refl].
Qed.

Lemma Acknowledge_outcome os s d cause receipt :
  in_sync s d -> outcome_ok s (OpReceipt cause receipt) (Acknowledge os s d receipt).
Proof.
  intros Hsync. unfold Acknowledge.
  assert (forall err, outcome_ok s (OpReceipt cause receipt) (s, d, [], Err err)) as Hsame
    by (intros; by apply outcome_unchanged).
  destruct (closed s); [by apply Hsame|].
  destruct (entries s !! rcpt_MessageID receipt) as [item|] eqn:Ei; [|by apply Hsame].
  destruct (ValidateFor _ _) as [[]|]; [|by apply Hsame].
  destruct (_ !=s _)%go; [by apply Hsame|].
  destruct (in_sync_lookup _ _ _ _ Hsync Ei) as (Hk & Hp & n & Hn & _). rewrite Hp.
  assert (forall c, survives d c -> contents s (delete (messageFilename (rcpt_MessageID receipt)) c)
    = Ok (delete (rcpt_MessageID receipt) (entries s))) as Hdel.
  { intros c Hc. destruct (contents_lookup _ _ _ _ (Hsync c Hc) Ei) as (_ & _ & n' & Hn' & He). rewrite <- Hk in *.
    by apply (scan_delete _ key_of messageFilename (spool_load_entry_name _ _) c (entries s) n' item (Hsync c Hc)). }
  assert (forall t, t = d \/ t = enter (delete (messageFilename (rcpt_MessageID receipt))) d
    \/ t = clean (delete (messageFilename (rcpt_MessageID receipt)) (current d)) -> forall c, survives t c ->
    contents s c = Ok (entries s) \/ contents s c = Ok (delete (rcpt_MessageID receipt) (entries s))) as Hall.
  { intros t [->|[-> | ->]] c Hc; [left; by apply Hsync| |].
    - apply removed_survives in Hc as (c0 & Hc0 & [-> | ->]); [left; by apply Hsync|right; by apply Hdel].
    - apply removed_synced_survives in Hc as (c0 & Hc0 & ->). right. by apply Hdel. }
  pose proof (remove_sync_spec os _ d n Hn) as Hr.
  destruct (io_bind _ _ _ _) as [[d' tr] [[]|err]]; destruct Hr as [Htr Hd]; (split; [by eapply Forall_impl|]); [|done].
  subst d'. split; [|split; [by right|]].
  - intros c Hc. apply removed_synced_survives in Hc as (c0 & Hc0 & ->). by apply Hdel.
  - intros _. cbn. by rewrite lookup_delete_eq.
Qed.

(** The system's errors are not the spool's own. *)
Definition foreign_errors (os : os_env) : Prop :=
  forall c e, fault os c = Some e -> errors_Is e ErrNonReleasingReceipt = false.

Lemma remove_sync_error os name d d' tr err : foreign_errors os ->
  io_bind (remove_file os name) (fun _ => sync_dir os) d [] = (d', tr, Err err) ->
  errors_Is err ErrNonReleasingReceipt = false.
Proof.
  intros Hf. unfold remove_file, sync_dir, sync_entries, mutate, call, io_bind, io_read.
  destruct (current d !! name); [|by intros [= <- <- <-]].
  destruct (fault os Remove) eqn:E1; [intros [= <- <- <-]; by apply (Hf Remove)|].
  destruct (fault os OpenDir) eqn:E2; [intros [= <- <- <-]; by apply (Hf OpenDir)|].
  destruct (fault os SyncDir) eqn:E3; [|done]. intros [= <- <- <-]; by apply (Hf SyncDir).
Qed.

(** A non-releasing disposition is reported before anything changes. *)
Lemma Acknowledge_nonreleasing os s d receipt s' d' tr err : foreign_errors os ->
  Acknowledge os s d receipt = (s', d', tr, Err err) ->
  errors_Is err ErrNonReleasingReceipt = true -> s' = s /\ d' = d /\ tr = [].
Proof.
  intros Hf. unfold Acknowledge. destruct (closed s); [by intros [= <- <- <- <-]|].
  destruct (entries s !! _); [|by intros [= <- <- <- <-]].
  destruct (ValidateFor _ _); [|by intros [= <- <- <- <-]].
  destruct (_ !=s _)%go; [by intros [= <- <- <- <-]|].
  destruct (io_bind _ _ _ _) as [[d1 tr1] [[]|err1]] eqn:Eio; [done|]. intros [= <- <- <- ->] Hne.
  by rewrite (remove_sync_error _ _ _ _ _ _ Hf Eio) in Hne.
Qed.

Lemma Acknowledge_accepted_error os s d receipt s' d' tr err : foreign_errors os ->
  rcpt_Disposition receipt = "ACCEPTED"%string -> Acknowledge os s d receipt = (s', d', tr, Err err) ->
  errors_Is err ErrNonReleasingReceipt = false.
Proof.
  intros Hf Hd. unfold Acknowledge. rewrite Hd. destruct (closed s); [by intros [= _ _ _ <-]|].
  destruct (entries s !! _); [|by intros [= _ _ _ <-]]. destruct (ValidateFor _ _) as [|err1] eqn:Ev.
  - cbn. destruct (io_bind _ _ _ _) as [[d1 tr1] [?|err1]] eqn:Eio; [done|]. intros [= _ _ _ ->].
    by apply (remove_sync_error _ _ _ _ _ _ Hf Eio).
  - intros [= _ _ _ <-]. unfold ValidateFor in Ev. destruct (_ || _) in Ev; [by injection Ev as <-|].
    destruct (_ =? 0) in Ev; [by injection Ev as <-|]. destruct (negb _) in Ev; [by injection Ev as <-|done].
Qed.

Lemma HandleReceipt_outcome os s d cause receipt : foreign_errors os ->
  in_sync s d -> outcome_ok s (OpReceipt cause receipt) (HandleReceipt os cause s d receipt).
Proof.
  intros Hf Hsync. unfold HandleReceipt. destruct cause as [c|]; [by apply outcome_unchanged|].
  pose proof (Acknowledge_outcome os s d None receipt Hsync) as H.
  destruct (Acknowledge os s d receipt) as [[[s' d'] tr] [[]|err]] eqn:E; [done|].
  destruct (errors_Is err ErrNonReleasingReceipt) eqn:Eerr; [|done].
  destruct (Acknowledge_nonreleasing _ _ _ _ _ _ _ _ Hf E Eerr) as (-> & -> & ->).
  apply outcome_unchanged; [done|]. intros _ Hd. by rewrite (Acknowledge_accepted_error _ _ _ _ _ _ _ _ Hf Hd E) in Eerr.
Qed.

(** ** Recovery *)

(** The directory once the temporary files of [l] are removed. *)
Fixpoint without_temps (l : list (string * node)) (d : tree) : tree :=
  match l with
  | [] => d
  | (name, _) :: rest => without_temps rest (if HasPrefix name ".tmp-" then delete name d else d)
  end.

Lemma without_temps_lookup l : forall d name, without_temps l d !! name =
  if HasPrefix name ".tmp-" && bool_decide (name ∈ l.*1) then None else d !! name.
Proof.
  induction l as [|[x n] l IH]; intros d name; cbn [without_temps].
  { rewrite bool_decide_false by (by intros ?%elem_of_nil). by rewrite andb_false_r. }
  rewrite IH. change (((x, n) :: l).*1) with (x :: l.*1).
  destruct (decide (name = x)) as [->|Hne].
  - rewrite (bool_decide_true (x ∈ x :: l.*1)) by (by left). rewrite andb_true_r.
    destruct (HasPrefix x ".tmp-"); cbn; [|done]. case_bool_decide; [done|]. by rewrite lookup_delete_eq.
  - assert (bool_decide (name ∈ x :: l.*1) = bool_decide (name ∈ l.*1)) as ->.
    { apply bool_decide_ext. rewrite elem_of_cons. tauto. }
    destruct (HasPrefix x ".tmp-"); [|done]. by rewrite lookup_delete_ne.
Qed.

Lemma load_entry_None host m name n : load_entry host m name n = Ok None -> HasPrefix name ".tmp-" = true.
Proof. unfold load_entry. destruct (HasPrefix name ".tmp-"); [done|]. intros H. by run_guards. Qed.

(** The loop builds what a scan builds, and the conflict check never fires:
    files of different names hold different messages. *)
Lemma load_loop_scan os host m l : all_healthy os -> forall es es' d tr,
  NoDup l.*1 -> (forall k, is_Some (es !! k) -> messageFilename k ∉ l.*1) ->
  (forall name n, (name, n) ∈ l -> current d !! name = Some n) ->
  foldM (scan_step (load_entry host m) key_of) l es = Ok es' ->
  exists d' tr', load_loop os host m l es d tr = (d', tr', Ok es') /\ current d' = without_temps l (current d).
Proof.
  intros Hos. induction l as [|[name n] l IH]; intros es es' d tr Hnd Hes Hd Hscan.
  { cbn in Hscan. injection Hscan as <-. cbn. eauto. }
  inversion Hnd as [|? ? Hnew Hnd']; subst.
  cbn [foldM] in Hscan. apply bind_Ok_inv in Hscan as (es1 & Hstep & Hscan).
  unfold scan_step in Hstep. cbn [fst snd] in Hstep.
  apply bind_Ok_inv in Hstep as (o & Ho & [= <-]). cbn [load_loop without_temps].
  assert (forall k, is_Some (es !! k) -> messageFilename k ∉ l.*1) as Hes'.
  { intros k Hk. specialize (Hes k Hk). cbn in Hes. rewrite not_elem_of_cons in Hes. tauto. }
  destruct (HasPrefix name ".tmp-") eqn:Et.
  - assert (o = None) as -> by (unfold load_entry in Ho; rewrite Et in Ho; congruence).
    unfold io_bind, remove_file, io_read, io_bind. rewrite (Hd name n) by (by left).
    unfold mutate. rewrite Hos. change (delete name (current d)) with (current (enter (delete name) d)). apply IH; try done.
    intros name' n' Hin. cbn. rewrite lookup_delete_ne; [apply Hd; by right|].
    intros <-. apply Hnew. apply list_elem_of_fmap. by exists (name, n').
  - unfold io_bind, io_lift. rewrite Ho. destruct o as [item|].
    + destruct (spool_load_entry_Some _ _ _ _ _ Ho) as (_ & Hname & _).
      rewrite bool_decide_false.
      * apply IH; try done.
        -- intros k. destruct (decide (key_of item = k)) as [<-|Hne].
           ++ intros _. by rewrite <- Hname.
           ++ rewrite lookup_insert_ne by done. apply Hes'.
        -- intros name' n' Hin. apply Hd. by right.
      * intros Hk. specialize (Hes _ Hk). apply Hes. fold (key_of item). rewrite <- Hname. by left.
    + apply load_entry_None in Ho. congruence.
Qed.

(** The spool a configuration opens, before its entries are loaded. *)
Definition opened (config : Config) (es : gmap string entry) : spool :=
  MkSpool (cfg_HostIdentity config) (MaxEntries config) (MaxBytes config) (MaxMessageBytes config) es false.

Definition valid_config (config : Config) : Prop :=
  Directory config <> ""%string /\ cfg_HostIdentity config <> ""%string
  /\ 1 <= MaxEntries config /\ 1 <= MaxBytes config /\ 1 <= MaxMessageBytes config.

Definition within_bounds (s : spool) : Prop :=
  Z.of_nat (base.size (entries s)) <= maxEntries s /\ queued_bytes (entries s) <= maxBytes s.

Lemma load_recovers os s (d : dir) es : all_healthy os -> entries s = ∅ ->
  contents s d = Ok es -> within_bounds (with_entries s es) ->
  exists tr, load os s d [] = (clean (without_temps (ReadDir d) d), tr, Ok (with_entries s es)).
Proof.
  intros Hos He Hc [Hb1 Hb2]. unfold load, io_bind at 1, io_read at 1. rewrite He.
  destruct (load_loop_scan os (hostIdentity s) (maxMessageBytes s) (ReadDir d) Hos ∅ es d [])
    as (d' & tr & Htr & Hd').
  - apply ReadDir_NoDup.
  - intros k. rewrite lookup_empty. by intros [].
  - intros name n. apply elem_of_ReadDir.
  - exact Hc.
  - unfold io_bind at 1. rewrite Htr. unfold statsLocked. cbn in *.
    rewrite (proj2 (Z.ltb_ge _ _)) by lia. rewrite (proj2 (Z.ltb_ge _ _)) by lia. cbn.
    unfold io_bind, sync_dir, sync_entries, call, mutate, io_bind, io_ret. rewrite !Hos, Hd'. eauto.
Qed.

Lemma contents_without_temps s (d : tree) es : contents s d = Ok es ->
  contents s (without_temps (ReadDir d) d) = Ok es.
Proof.
  unfold contents. rewrite !(scan_iff _ _ _ (spool_load_entry_name _ _)). intros [Hall Hlk].
  assert (forall name, without_temps (ReadDir d) d !! name
    = if HasPrefix name ".tmp-" then None else d !! name) as Hl.
  { intros name. rewrite without_temps_lookup. destruct (HasPrefix name ".tmp-"); [|done]. cbn.
    case_bool_decide as Hin; [done|]. destruct (d !! name) as [n|] eqn:E; [|done].
    destruct Hin. apply elem_of_ReadDir in E. apply list_elem_of_fmap. by exists (name, n). }
  split.
  - intros name n. rewrite Hl. destruct (HasPrefix _ _); [done|apply Hall].
  - intros k. by rewrite Hl, messageFilename_head.
Qed.

(** ** Bounds *)

Definition total_size (l : list entry) : Z := foldr (fun item acc => size item + acc) 0 l.

Lemma total_size_perm l1 l2 : l1 ≡ₚ l2 -> total_size l1 = total_size l2.
Proof. unfold total_size. induction 1; cbn [foldr] in *; lia. Qed.

Lemma total_size_cons i l : total_size (i :: l) = size i + total_size l.
Proof. done. Qed.

Lemma total_size_nonneg l : Forall (fun i => 0 <= size i) l -> 0 <= total_size l.
Proof. unfold total_size. induction 1; cbn [foldr]; lia. Qed.

Definition values (es : gmap string entry) : list entry := snd <$> map_to_list es.

Lemma queued_bytes_sum es : Forall (fun i => 0 <= size i) (values es) -> total_size (values es) < two63 ->
  queued_bytes es = total_size (values es).
Proof.
  unfold queued_bytes, values. induction 1 as [|i l Hi Hl IH]; [done|].
  rewrite total_size_cons. cbn [foldr]. intros Hlt. pose proof (total_size_nonneg l Hl). rewrite IH by lia.
  apply i64_id. unfold is_i64, two63 in *. lia.
Qed.

Lemma values_insert es k item : es !! k = None -> values (<[k := item]> es) ≡ₚ item :: values es.
Proof. intros H. unfold values. by rewrite (map_to_list_insert _ _ _ H). Qed.

Lemma values_delete es k item : es !! k = Some item -> values es ≡ₚ item :: values (delete k es).
Proof. intros H. unfold values. by rewrite <- (map_to_list_delete es k item H). Qed.

(** Counts and bytes are what the limits say, with nothing wrapped around. *)
Definition bounded (s : spool) : Prop :=
  Z.of_nat (base.size (entries s)) <= maxEntries s
  /\ Forall (fun i => 0 <= size i) (values (entries s))
  /\ total_size (values (entries s)) <= maxBytes s.

(** The sums of [Enqueue] stay within [int] and [int64]. *)
Definition sums_fit (s : spool) (o : op) : Prop :=
  maxEntries s < MaxInt64 /\
  match o with OpEnqueue e => maxBytes s + len (payload_of e) <= MaxInt64 | _ => maxBytes s <= MaxInt64 end.

Lemma run_entries os s d o :
  let '(s', _, _, _) := run os s d o in
  s' = s
  \/ (exists e, o = OpEnqueue e /\ s' = with_entries s (<[MessageID e := entry_of e]> (entries s))
      /\ entries s !! MessageID e = None
      /\ i64 (QueuedEntries (statsLocked s) + 1) <= maxEntries s
      /\ i64 (QueuedBytes (statsLocked s) + len (payload_of e)) <= maxBytes s)
  \/ (exists cause receipt item, o = OpReceipt cause receipt
      /\ s' = with_entries s (delete (rcpt_MessageID receipt) (entries s))
      /\ entries s !! rcpt_MessageID receipt = Some item
      /\ rcpt_Disposition receipt = "ACCEPTED"%string /\ identifies receipt (envelope item)).
Proof.
  destruct o as [e|cause receipt]; cbn [run].
  - unfold Enqueue. destruct (Validate _ _); [|by left]. destruct (_ !=s _)%go; [by left|].
    destruct (closed s); [by left|].
    destruct (entries s !! MessageID e) eqn:Ee; [by destruct (sameMessage _ _); left|].
    destruct (_ || _) eqn:Eg; [by left|]. bools.
    destruct (writeNewAtomic _ _ _ _ _) as [[? ?] [?|?]]; [right; left|by left]. eauto 10.
  - unfold HandleReceipt. destruct cause as [c|]; [by left|]. unfold Acknowledge.
    destruct (closed s); [by left|]. 
    destruct (entries s !! rcpt_MessageID receipt) as [item|] eqn:Ei; [|by left].
    destruct (ValidateFor _ _) as [[]|] eqn:Ev; [|by destruct (errors_Is _ _); left].
    destruct (_ !=s _)%go eqn:Ed; [by left|]. bools.
    destruct (io_bind _ _ _ _) as [[? ?] [?|?]]; [right; right|by destruct (errors_Is _ _); left].
    apply ValidateFor_iff in Ev as [? _]. eauto 10.
Qed.

Lemma run_bounded os s d o : bounded s -> sums_fit s o ->
  let '(s', _, _, _) := run os s d o in
  bounded s' /\ maxEntries s' = maxEntries s /\ maxBytes s' = maxBytes s.
Proof.
  intros (Hn & Hpos & Hb) [Hfit1 Hfit2]. pose proof (run_entries os s d o) as H.
  destruct (run os s d o) as [[[s' ?] ?] ?].
  destruct H as [->|[(e & -> & -> & Hnone & Hc1 & Hc2)|(cause & receipt & item & -> & -> & Hi & _)]];
    [done| |]; (split; [|done]); unfold bounded; cbn [with_entries entries maxEntries maxBytes].
  - pose proof (len_nonneg (payload_of e)). pose proof (total_size_nonneg _ Hpos).
    cbn [statsLocked QueuedEntries QueuedBytes] in Hc1, Hc2. rewrite queued_bytes_sum in Hc2 by (done || (unfold MaxInt64, two63 in *; lia)).
    rewrite i64_id in Hc1 by (unfold is_i64, two63, MaxInt64 in *; lia).
    rewrite i64_id in Hc2 by (unfold is_i64, two63, MaxInt64 in *; lia).
    rewrite map_size_insert_None by done.
    split; [lia|]. rewrite (total_size_perm _ _ (values_insert _ _ (entry_of e) Hnone)).
    rewrite (values_insert _ _ (entry_of e) Hnone). split; [|rewrite total_size_cons; cbn [size entry_of]; lia].
    constructor; [done|done].
  - pose proof (values_delete _ _ _ Hi) as Hp. rewrite Hp in Hpos.
    rewrite (total_size_perm _ _ Hp), total_size_cons in Hb. inversion Hpos; subst.
    rewrite map_size_delete_Some by eauto. split; [lia|]. split; [done|lia].
Qed.

(** A run: each operation meets its own environment and directory. *)
Definition run_all (s : spool) (steps : list (os_env * dir * op)) : spool :=
  foldl (fun s '(os, d, o) => (run os s d o).1.1.1) s steps.

(** ** Properties *)


(** C39: a restart recovers exactly the messages of the directory: from any
    directory whose contents fit the limits, [Open] returns a spool with these
    entries, in step with the directory it leaves, from which only the temporary
    files are gone; and in step with what any later crash leaves of it, when the
    data of the files was on disk, as it is after the machine restarted. *)
Theorem spool_restart_recovers os config (d : dir) es :
  all_healthy os -> valid_config config ->
  contents (opened config ∅) d = Ok es -> within_bounds (opened config es) ->
  exists d' tr, Open os config (Ok tt) d [] = (d', tr, Ok (opened config es))
  /\ contents (opened config es) d' = Ok (entries (opened config es))
  /\ (forall name, HasPrefix name ".tmp-" = false -> current d' !! name = current d !! name)
  /\ ((forall name n, current d !! name = Some n -> synced n = true) -> in_sync (opened config es) d').
Proof.
  intros Hos (H1 & H2 & H3 & H4 & H5) Hc Hb.
  destruct (load_recovers os (opened config ∅) d es Hos eq_refl Hc Hb) as [tr Htr].
  pose proof (contents_without_temps (opened config ∅) d es Hc) as Hafter.
  exists (clean (without_temps (ReadDir d) d)), tr. split; [|split; [exact Hafter|split]].
  - unfold Open. apply String.eqb_neq in H1, H2. rewrite H1, H2.
    rewrite !(proj2 (Z.ltb_ge _ _)) by lia. exact Htr.
  - intros name Hn. cbn. by rewrite without_temps_lookup, Hn.
  - intros Hs. apply (durably_clean (load_entry _ _) key_of); [exact Hafter|]. intros name n Hn.
    rewrite without_temps_lookup in Hn. by destruct (_ && _); [|apply (Hs name)].
Qed.

(** the configured bounds hold along every run: the number of queued
    messages and the sum of their file sizes never exceed the limits. *)
Theorem spool_bounds_hold s steps :
  bounded s -> maxBytes s <= MaxInt64 -> Forall (fun '(_, _, o) => sums_fit s o) steps ->
  bounded (run_all s steps)
  /\ QueuedEntries (statsLocked (run_all s steps)) <= maxEntries s
  /\ QueuedBytes (statsLocked (run_all s steps)) <= maxBytes s.
Proof.
  intros Hb Hmax Hfit.
  assert (bounded (run_all s steps) /\ maxEntries (run_all s steps) = maxEntries s
    /\ maxBytes (run_all s steps) = maxBytes s) as (Hr & E1 & E2).
  { clear Hmax. revert s Hb Hfit. induction steps as [|[[os d] o] steps IH]; intros s Hb Hfit; [done|].
    inversion Hfit as [|? ? Ho Hrest]; subst. cbn [run_all foldl].
    pose proof (run_bounded os s d o Hb Ho) as H. destruct (run os s d o) as [[[s1 ?] ?] ?].
    destruct H as (Hb1 & E1 & E2). cbn. rewrite <- E1, <- E2. apply IH; [done|].
    eapply Forall_impl; [exact Hrest|]. intros [[? ?] o2]. unfold sums_fit. by rewrite E1, E2. }
  split; [done|]. destruct Hr as (Hn & Hpos & Ht). cbn.
  rewrite queued_bytes_sum by (done || (unfold MaxInt64, two63 in *; lia)). lia.
Qed.

(** a message is never lost: along any run, under any failures, it stays
    queued unless a receipt with disposition ACCEPTED that names this very
    message (Host, stream, id, scope, sequence and payload digest) released it. *)
Theorem spool_releases_only_accepted s steps k item :
  entries s !! k = Some item ->
  entries (run_all s steps) !! k = Some item
  \/ exists os d cause receipt, In (os, d, OpReceipt cause receipt) steps
      /\ rcpt_Disposition receipt = "ACCEPTED"%string /\ identifies receipt (envelope item).
Proof.
  revert s. induction steps as [|[[os d] o] steps IH]; intros s Hk; [by left|].
  cbn [run_all foldl]. pose proof (run_entries os s d o) as H. destruct (run os s d o) as [[[s1 ?] ?] ?].
  assert (entries s1 !! k = Some item -> entries (run_all s1 steps) !! k = Some item
    \/ exists os0 d0 cause receipt, In (os0, d0, OpReceipt cause receipt) ((os, d, o) :: steps)
      /\ rcpt_Disposition receipt = "ACCEPTED"%string /\ identifies receipt (envelope item)) as Hgo.
  { intros H1. destruct (IH s1 H1) as [?|(? & ? & ? & ? & ? & ?)]; [by left|right].
    do 4 eexists. split; [by right|done]. }
  destruct H as [->|[(e & -> & -> & Hnone & _)|(cause & receipt & item' & -> & -> & Hi & Ha & Hid)]];
    [by apply Hgo| |].
  - apply Hgo. cbn. rewrite lookup_insert_ne; [done|]. intros <-. congruence.
  - destruct (decide (rcpt_MessageID receipt = k)) as [<-|Hne].
    + right. simplify_eq. do 4 eexists. split; [by left|done].
    + apply Hgo. cbn. by rewrite lookup_delete_ne.
Qed.

Lemma entry_less_tie x y : entry_less x y = false -> entry_less y x = false -> key_of x = key_of y.
Proof.
  unfold entry_less, less_then, less_on, key_of. intros Hxy Hyx.
  apply orb_false_elim in Hxy as [E1 E2], Hyx as [E3 E4]. rewrite E1, E3 in *. cbn in E2, E4.
  apply orb_false_elim in E2 as [E5 E6], E4 as [E7 E8]. rewrite E5, E7 in *. cbn in E6, E8.
  by apply string_ltb_tie.
Qed.

(** [Pending] returns every queued message once, ordered by scope, sequence
    and id; the order Go iterates its map in does not matter, since any
    arrangement of the entries in that order gives the same result. *)
Theorem Pending_sorted_and_unique s d l :
  in_sync s d -> closed s = false ->
  l ≡ₚ values (entries s) -> sorted_by entry_less l ->
  Pending s = Ok (envelope <$> l).
Proof.
  intros Hs Hc Hp Hsorted. unfold Pending. rewrite Hc. cbn. do 2 f_equal.
  assert (StrictWeak entry_less) as Hw by (unfold entry_less; apply _).
  apply (sorted_perm_eq entry_less); [|by rewrite sort_perm, Hp|by apply sort_sorted|done].
  intros x y Hx Hy H1 H2. apply entry_less_tie in H1; [|done].
  rewrite sort_perm in Hx, Hy. apply list_elem_of_fmap in Hx as ([k1 x'] & -> & Hx), Hy as ([k2 y'] & -> & Hy).
  apply elem_of_map_to_list in Hx, Hy. cbn in *.
  destruct (in_sync_lookup _ _ _ _ Hs Hx) as [<- _], (in_sync_lookup _ _ _ _ Hs Hy) as [<- _]. congruence.
Qed.

(** A system on which only the sync of the directory fails. *)
Definition sync_fails (tmp : string) (e : goerr) : os_env :=
  OsEnv (fun c => match c with SyncDir => Some e | _ => None end) tmp "".

Lemma writeNewAtomic_sync_fails tmp e target payload d : current d !! target = None -> target <> tmp ->
  exists d1 tr, writeNewAtomic (sync_fails tmp e) target payload d [] = (d1, tr, Err e)
  /\ current d1 !! target = Some (private_file payload).
Proof.
  intros Ht Hne. unfold writeNewAtomic, io_defer, fill_temp, lstat_absent, rename_temp, remove_file,
    sync_dir, sync_entries, sync_file, create_temp, write_temp, call, mutate, io_bind, io_read. cbn.
  rewrite lookup_alter_ne, !lookup_insert_ne, Ht by done. cbn. rewrite !lookup_alter_eq, !lookup_insert_eq. cbn.
  destruct (_ !! tmp); cbn; do 2 eexists; (split; [reflexivity|]); cbn.
  - by rewrite lookup_delete_ne, lookup_insert_eq.
  - by rewrite lookup_insert_eq.
Qed.

Lemma writeNewAtomic_exists tmp target payload d n : current d !! target = Some n -> target <> tmp ->
  exists d1 tr, writeNewAtomic (healthy tmp) target payload d [] = (d1, tr, Err ErrExist)
  /\ current d1 !! target = Some n.
Proof.
  intros Ht Hne. unfold writeNewAtomic, io_defer, fill_temp, lstat_absent, rename_temp, remove_file,
    sync_dir, sync_entries, sync_file, create_temp, write_temp, call, mutate, io_bind, io_read. cbn.
  rewrite lookup_alter_ne, !lookup_insert_ne, Ht by done. cbn. rewrite !lookup_alter_eq, !lookup_insert_eq. cbn.
  do 2 eexists. split; [reflexivity|]. cbn. by rewrite lookup_delete_ne, lookup_alter_ne, !lookup_insert_ne.
Qed.

(** an [Enqueue] whose directory sync fails has published its file but not
    its entry; retrying it on a healthy system is refused with [os.ErrExist], so
    the message is neither pending nor acceptable until a restart. *)
Theorem unsynced_enqueue_cannot_be_retried s d e tmp err s1 d1 tr1 :
  entries s !! MessageID e = None -> current d !! messageFilename (MessageID e) = None ->
  HasPrefix tmp ".tmp-" = true ->
  Enqueue (healthy tmp) s d e = (s1, d1, tr1, Ok tt) ->
  exists d2 tr2, Enqueue (sync_fails tmp err) s d e
      = (s, d2, tr2, Err (Wrapf "persist durable Agent envelope: %w" [] err))
  /\ exists d3 tr3, Enqueue (healthy tmp) s d2 e
      = (s, d3, tr3, Err (Wrapf "persist durable Agent envelope: %w" [] ErrExist)).
Proof.
  intros Hnone Hfile Htmp H.
  assert (messageFilename (MessageID e) <> tmp) as Hne.
  { intros E. by rewrite <- E, messageFilename_head in Htmp. }
  destruct (writeNewAtomic_sync_fails tmp err _ (payload_of e) d Hfile Hne) as (d2 & tr2 & E2 & Hd2).
  destruct (writeNewAtomic_exists tmp _ (payload_of e) d2 _ Hd2 Hne) as (d3 & tr3 & E3 & _).
  unfold Enqueue in *. destruct (Validate _ _); [|done]. destruct (_ !=s _)%go; [done|].
  destruct (closed s); [done|]. rewrite Hnone in *. destruct (_ || _); [done|].
  rewrite E2. do 2 eexists. split; [reflexivity|]. rewrite E3. eauto.
Qed.

(** a release whose directory sync fails has removed the file but not the
    entry; every later receipt of the message fails to remove the file, so the
    accepted message stays pending until a restart. *)
Theorem unsynced_release_cannot_be_retried s d receipt tmp err s1 d1 tr1 :
  Acknowledge (healthy tmp) s d receipt = (s1, d1, tr1, Ok tt) ->
  exists d2 tr2, Acknowledge (sync_fails tmp err) s d receipt = (s, d2, tr2, Err err)
  /\ forall os receipt2, rcpt_MessageID receipt2 = rcpt_MessageID receipt ->
     rcpt_Disposition receipt2 = "ACCEPTED"%string ->
     exists err2, Acknowledge os s d2 receipt2 = (s, d2, [], Err err2).
Proof.
  unfold Acknowledge. destruct (closed s); [done|].
  destruct (entries s !! rcpt_MessageID receipt) as [item|] eqn:Ei; [|done].
  destruct (ValidateFor _ _); [|done]. destruct (_ !=s _)%go; [done|].
  unfold remove_file, sync_dir, sync_entries, mutate, call, io_bind, io_read.
  destruct (current d !! path item) as [n|] eqn:En; [|done]. cbn. intros _.
  do 2 eexists. split; [reflexivity|]. intros os receipt2 E1 E2. rewrite E1, Ei, E2. cbn.
  destruct (ValidateFor receipt2 _); [|eauto]. rewrite lookup_delete_eq. cbn. eauto.
Qed.
(** *** Concrete runs *)

Definition demo_config : Config := MkConfig "/var/lib/kim/spool" "host-a" 4 8192 1024.
Definition demo_envelope (id : string) (sequence : Z) : Envelope :=
  NewEnvelope "host-a" 1 StreamInventory id "kim.inventory/v1" "host-a/inventory" sequence "payload".
Definition demo_m1 : Envelope := demo_envelope "m1" 1.
Definition demo_m2 : Envelope := demo_envelope "m2" 2.
Definition demo_spool : spool := opened demo_config {[ "m1"%string := entry_of demo_m1 ]}.
Definition demo_tree : tree := {[ messageFilename "m1" := private_file (payload_of demo_m1) ]}.
Definition demo_dir : dir := clean demo_tree.
Definition demo_tmp : string := ".tmp-123456".
Definition demo_receipt : Receipt :=
  MkReceipt "host-a" 1 StreamInventory "m1" "host-a/inventory" 1 (sha256_hex "payload") "ACCEPTED".
Definition EIO : goerr := errors_New "EIO".

Lemma demo_ascii id n : ascii_text id -> envelope_ascii (demo_envelope id n).
Proof. intros H. unfold envelope_ascii. repeat split; first [exact H|ascii_literal]. Qed.

Lemma demo_contents : contents demo_spool demo_tree = Ok (entries demo_spool).
Proof. vm_compute. reflexivity. Qed.
Lemma demo_synced name n : demo_tree !! name = Some n -> synced n = true.
Proof. unfold demo_tree. intros H. by apply lookup_singleton_Some in H as [_ <-]. Qed.
Lemma demo_in_sync : in_sync demo_spool demo_dir.
Proof. apply (durably_clean (load_entry _ _) key_of); [exact demo_contents|exact demo_synced]. Qed.

Lemma demo_lookup k item : entries demo_spool !! k = Some item -> k = "m1"%string /\ item = entry_of demo_m1.
Proof. cbn [entries demo_spool opened]. intros H. by apply lookup_singleton_Some in H as [<- <-]. Qed.

Lemma spool_demo_own id : messageFilename id <> messageFilename "m1" -> own_file demo_spool id.
Proof. intros Hne k [item Hk] E. apply demo_lookup in Hk as [-> _]. congruence. Qed.

Lemma demo_m1_queued : entries demo_spool !! "m1"%string = Some (entry_of demo_m1).
Proof. cbn [entries demo_spool opened]. by apply lookup_singleton_Some. Qed.

Lemma sync_fails_foreign : foreign_errors (sync_fails demo_tmp EIO).
Proof. intros [] e; cbn; try discriminate. by intros [= <-]. Qed.


Lemma spool_restart_recovers_witness :
  exists d' tr, Open (healthy demo_tmp) demo_config (Ok tt) demo_dir [] = (d', tr, Ok demo_spool)
  /\ in_sync demo_spool d' /\ forall name, HasPrefix name ".tmp-" = false -> current d' !! name = demo_tree !! name.
Proof.
  destruct (spool_restart_recovers (healthy demo_tmp) demo_config demo_dir (entries demo_spool)) as (d' & tr & H1 & _ & H2 & H3);
    [..|exists d', tr; split; [exact H1|split; [exact (H3 demo_synced)|exact H2]]].
  - intros c. reflexivity.
  - unfold valid_config. repeat split; cbn; discriminate || lia.
  - vm_compute. reflexivity.
  - vm_compute. split; discriminate.
Defined.

Lemma spool_bounds_hold_witness :
  bounded (run_all demo_spool [(healthy demo_tmp, demo_dir, OpEnqueue demo_m2)])
  /\ QueuedEntries (statsLocked (run_all demo_spool [(healthy demo_tmp, demo_dir, OpEnqueue demo_m2)])) <= 4
  /\ QueuedBytes (statsLocked (run_all demo_spool [(healthy demo_tmp, demo_dir, OpEnqueue demo_m2)])) <= 8192.
Proof.
  apply (spool_bounds_hold demo_spool [(healthy demo_tmp, demo_dir, OpEnqueue demo_m2)]).
  - split; [vm_compute; discriminate|]. split; [|vm_compute; discriminate].
    apply Forall_cons_2; [vm_compute; discriminate|apply Forall_nil_2].
  - vm_compute. discriminate.
  - apply Forall_cons_2; [|apply Forall_nil_2]. vm_compute. split; discriminate || reflexivity.
Defined.

Lemma spool_releases_only_accepted_witness :
  let steps := [(healthy demo_tmp, demo_dir, OpReceipt None demo_receipt)] in
  entries (run_all demo_spool steps) !! "m1"%string = Some (entry_of demo_m1)
  \/ exists os d cause receipt, In (os, d, OpReceipt cause receipt) steps
      /\ rcpt_Disposition receipt = "ACCEPTED"%string /\ identifies receipt demo_m1.
Proof.
  apply (spool_releases_only_accepted demo_spool [(healthy demo_tmp, demo_dir, OpReceipt None demo_receipt)]
    "m1" (entry_of demo_m1)). exact demo_m1_queued.
Defined.

Lemma Pending_sorted_and_unique_witness : Pending demo_spool = Ok [demo_m1].
Proof.
  apply (Pending_sorted_and_unique demo_spool demo_dir [entry_of demo_m1]).
  - exact demo_in_sync.
  - reflexivity.
  - vm_compute. reflexivity.
  - apply SSorted_cons; [apply SSorted_nil|apply Forall_nil_2].
Defined.

Lemma unsynced_enqueue_cannot_be_retried_witness :
  exists d2 tr2, Enqueue (sync_fails demo_tmp EIO) demo_spool demo_dir demo_m2
      = (demo_spool, d2, tr2, Err (Wrapf "persist durable Agent envelope: %w" [] EIO))
  /\ exists d3 tr3, Enqueue (healthy demo_tmp) demo_spool d2 demo_m2
      = (demo_spool, d3, tr3, Err (Wrapf "persist durable Agent envelope: %w" [] ErrExist)).
Proof.
  pose (out := Enqueue (healthy demo_tmp) demo_spool demo_dir demo_m2).
  apply (unsynced_enqueue_cannot_be_retried demo_spool demo_dir demo_m2 demo_tmp EIO out.1.1.1 out.1.1.2 out.1.2).
  - vm_compute. reflexivity.
  - vm_compute. reflexivity.
  - reflexivity.
  - vm_cast_no_check (eq_refl out).
Defined.

Lemma unsynced_release_cannot_be_retried_witness :
  exists d2 tr2, Acknowledge (sync_fails demo_tmp EIO) demo_spool demo_dir demo_receipt = (demo_spool, d2, tr2, Err EIO)
  /\ forall os receipt2, rcpt_MessageID receipt2 = "m1"%string ->
     rcpt_Disposition receipt2 = "ACCEPTED"%string ->
     exists err2, Acknowledge os demo_spool d2 receipt2 = (demo_spool, d2, [], Err err2).
Proof.
  pose (out := Acknowledge (healthy demo_tmp) demo_spool demo_dir demo_receipt).
  apply (unsynced_release_cannot_be_retried demo_spool demo_dir demo_receipt demo_tmp EIO out.1.1.1 out.1.1.2 out.1.2).
  vm_cast_no_check (eq_refl out).
Defined.
End Spool.
