(* ===== verification/Inventory.v ===== *)
(** * inventory/model.go: the normalized Host inventory

    A snapshot is a list of fragments, one typed domain each.
    [NormalizeAndValidate] checks every field and sorts every list, so that the
    same observation always has the same canonical form.  On an error the
    caller drops the snapshot, whose partly sorted state is not modelled. *)

From S2P Require Import Prelude GoStd RecordDir.
Local Open Scope Z_scope.
Local Open Scope go_scope.

Module Inventory.

Definition SnapshotSchemaV3 : string := "kim.inventory.snapshot/v3".

Definition DomainCompute : string := "COMPUTE".
Definition DomainMemory : string := "MEMORY".
Definition DomainPCI : string := "PCI".
Definition DomainNetwork : string := "NETWORK".
Definition DomainStorage : string := "STORAGE".
Definition DomainVirtualization : string := "VIRTUALIZATION".

Definition knownDomains : list string :=
  [DomainCompute; DomainMemory; DomainPCI; DomainNetwork; DomainStorage; DomainVirtualization].

Definition AvailabilityAvailable : string := "AVAILABLE".
Definition AvailabilityUnavailable : string := "UNAVAILABLE".
Definition AvailabilityUnknown : string := "UNKNOWN".
Definition AvailabilityUnsupported : string := "UNSUPPORTED".

(** [Availability.Valid] *)
Definition availability_Valid (state : string) : bool :=
  existsb (String.eqb state)
    [AvailabilityAvailable; AvailabilityUnavailable; AvailabilityUnknown; AvailabilityUnsupported].

Record Constraint := MkConstraint { cn_Name : string; cn_Value : string }.

Record Capability := MkCapability {
  cap_Name : string;
  cap_Version : string;
  cap_State : string;
  cap_ReasonCode : string;
  cap_Constraints : list Constraint;
}.

Record Source := MkSource {
  ModuleName : string;
  ModuleVersion : string;
  src_SchemaVersion : string;
  ArtifactDigest : string;
}.

Record EvidenceRef := MkEvidence {
  ev_Field : string;
  SourcePath : string;
  ev_State : string;
  ev_ReasonCode : string;
}.

Record CPUThread := MkThread {
  th_LinuxID : Z;
  CoreID : Z;
  SocketID : Z;
  th_NUMANodeID : Z;
  Online : bool;
  Isolated : bool;
}.

Record Compute := MkCompute { Architecture : string; CPUModel : string; Threads : list CPUThread }.

Record NUMANode := MkNode { nn_LinuxID : Z; CPUThreadIDs : list Z; MemoryTotalBytes : Z }.

(** A nil pointer is [None]. *)
Record HugePagePool := MkPool {
  hp_NUMANodeID : option Z;
  PageSizeBytes : Z;
  TotalPages : Z;
  FreePages : Z;
  ReservedPages : Z;
  SurplusPages : Z;
}.

Record Memory := MkMemory {
  mem_TotalBytes : Z;
  AvailableBytes : Z;
  NUMANodes : list NUMANode;
  HugePagePools : list HugePagePool;
}.

Record PCIDevice := MkPCIDevice {
  pci_Address : string;
  VendorID : string;
  DeviceID : string;
  SubsystemVendorID : string;
  SubsystemDeviceID : string;
  pci_Driver : string;
  DeviceRevision : string;
  FirmwareRevision : string;
  pci_IOMMUGroup : string;
  pci_NUMANodeID : Z;
  SRIOVTotalVFs : Z;
  SRIOVEnabledVFs : Z;
  pci_PFAddress : string;
  pci_VFIndex : option Z;
  RelationshipState : string;
  RelationshipReason : string;
}.

Record PCI := MkPCI { IOMMUEnabled : bool; pci_Devices : list PCIDevice }.

Record NetworkInterface := MkInterface {
  ni_Name : string;
  ni_MACAddress : string;
  PCIAddress : string;
  ni_Driver : string;
  ni_NUMANodeID : Z;
}.

Record Network := MkNetwork { Interfaces : list NetworkInterface }.

Record StorageDevice := MkStorageDevice { StableID : string; sd_Kind : string; sd_SizeBytes : Z }.

Record Storage := MkStorage { st_Devices : list StorageDevice }.

Record Virtualization := MkVirtualization {
  KVMAvailable : bool;
  LibvirtVersion : string;
  QEMUVersion : string;
  MachineTypes : list string;
}.

Record Fragment := MkFragment {
  fr_Domain : string;
  fr_Source : Source;
  Evidence : list EvidenceRef;
  Capabilities : list Capability;
  fr_Compute : option Compute;
  fr_Memory : option Memory;
  fr_PCI : option PCI;
  fr_Network : option Network;
  fr_Storage : option Storage;
  fr_Virtualization : option Virtualization;
}.

Record Snapshot := MkSnapshot {
  SchemaVersion : string;
  HostIdentity : string;
  ObservationGeneration : Z;
  CollectionStatus : string;
  sn_Capabilities : list Capability;
  Fragments : list Fragment;
}.

(** ** Text formats *)

(** [hex.DecodeString], a length, and the round trip of [hex.EncodeToString]. *)
Definition valid_hex (n : Z) (value : string) : bool :=
  match hex_DecodeString value with
  | Some decoded => (len decoded =? n) && (hex_EncodeToString decoded ==s value)
  | None => false
  end.

Definition validPCIID (value : string) : bool := valid_hex 2 value.
Definition validPCIRevision (value : string) : bool := valid_hex 1 value.
Definition validDigest (value : string) : bool := valid_hex 32 value.

(** [%x] of [fmt.Sscanf] with a width: spaces are skipped, then at most [width]
    digits are read; an underscore is taken as a digit and then refused. *)
Fixpoint skip_spaces (l : list ascii) : option (list ascii) :=
  match l with
  | [] => Some []
  | a :: rest =>
      if byte_of a =? 10 then None
      else if (byte_of a =? 32) || ((9 <=? byte_of a) && (byte_of a <=? 13)) then skip_spaces rest
      else Some l
  end.

Definition scan_digit (a : ascii) : option (option Z) :=
  if (a =? "_")%char then Some None
  else match from_hex_digit a with Some d => Some (Some d) | None => None end.

Fixpoint scan_digits (width : nat) (l : list ascii) : list (option Z) * list ascii :=
  match width, l with
  | S w, a :: rest =>
      match scan_digit a with
      | Some d => let '(ds, rest') := scan_digits w rest in (d :: ds, rest')
      | None => ([], l)
      end
  | _, _ => ([], l)
  end.

Definition hex_value (ds : list Z) : Z := fold_left (fun acc d => 16 * acc + d) ds 0.

Definition scan_hex (width : nat) (l : list ascii) : option (Z * list ascii) :=
  match skip_spaces l with
  | None => None
  | Some l1 =>
      match scan_digits width l1 with
      | ([], _) => None
      | (ds, rest) => match mapM id ds with Some zs => Some (hex_value zs, rest) | None => None end
      end
  end.

Definition scan_literal (c : ascii) (l : list ascii) : option (list ascii) :=
  match l with a :: rest => if (a =? c)%char then Some rest else None | [] => None end.

(** [%0<width>x] of [fmt.Sprintf]; a value scanned from at most four digits has
    at most four. *)
Fixpoint hex_digits (fuel : nat) (z : Z) (acc : list ascii) : list ascii :=
  match fuel with
  | O => acc
  | S k =>
      let acc' := hex_digit (z mod 16) :: acc in
      if z <? 16 then acc' else hex_digits k (z / 16) acc'
  end.

Definition format_hex (width : nat) (z : Z) : list ascii :=
  let ds := hex_digits 16 z [] in replicate (width - length ds) "0"%char ++ ds.

Definition validPCIAddress (value : string) : bool :=
  let scanned :=
    '(domain, l) ← scan_hex 4 (list_ascii_of_string value);
    l ← scan_literal ":" l;
    '(bus, l) ← scan_hex 2 l;
    l ← scan_literal ":" l;
    '(slot, l) ← scan_hex 2 l;
    l ← scan_literal "." l;
    '(function, l) ← scan_hex 1 l;
    Some (domain, bus, slot, function) in
  match scanned with
  | None => false
  | Some (domain, bus, slot, function) =>
      (slot <=? 31) && (function <=? 7)
      && (string_of_list_ascii (format_hex 4 domain ++ [":"%char] ++ format_hex 2 bus ++ [":"%char]
            ++ format_hex 2 slot ++ ["."%char] ++ format_hex 1 function) ==s value)
  end.

Example valid_address : validPCIAddress "0000:3b:1f.7" = true. Proof. reflexivity. Qed.
Example spaced_address : validPCIAddress " 0000:3b:1f.7" = false. Proof. reflexivity. Qed.
Example upper_address : validPCIAddress "0000:3B:1f.7" = false. Proof. reflexivity. Qed.
Example bad_slot : validPCIAddress "0000:3b:20.0" = false. Proof. reflexivity. Qed.

(** [capabilityIsAvailable]: the first capability of that name decides. *)
Fixpoint capabilityIsAvailable (capabilities : list Capability) (name : string) : bool :=
  match capabilities with
  | [] => false
  | c :: rest =>
      if cap_Name c ==s name then cap_State c ==s AvailabilityAvailable
      else capabilityIsAvailable rest name
  end.

(** ** Normalization *)

(** [for index, x := range l], where [check] may look at [l[index-1]]. *)
Fixpoint check_each {A} (check : option A -> A -> res unit) (prev : option A) (l : list A) : res unit :=
  match l with
  | [] => Ok tt
  | x :: rest => check prev x;; check_each check (Some x) rest
  end.

(** [index > 0 && key(l[index-1]) == key(x)] *)
Definition same_as_previous {A} (same : A -> A -> bool) (prev : option A) (x : A) : bool :=
  match prev with Some p => same p x | None => false end.

Definition on_string {A} (key : A -> string) (x y : A) : bool := key x ==s key y.
Definition on_int {A} (key : A -> Z) (x y : A) : bool := key x =? key y.

Definition evidence_less : EvidenceRef -> EvidenceRef -> bool :=
  less_then (less_on String.ltb ev_Field) (less_on String.ltb SourcePath).

Definition check_evidence (prev : option EvidenceRef) (e : EvidenceRef) : res unit :=
  fail_if ((ev_Field e ==s "") || (SourcePath e ==s "") || negb (availability_Valid (ev_State e))
           || ((ev_State e ==s AvailabilityAvailable) && (ev_ReasonCode e !=s ""))
           || ((ev_State e !=s AvailabilityAvailable) && (ev_ReasonCode e ==s "")))
    (errors_New "Host inventory evidence requires a typed field, source, state, and failure reason");;
  fail_if (same_as_previous (fun p x => (ev_Field p ==s ev_Field x) && (SourcePath p ==s SourcePath x)) prev e)
    (errors_New "duplicate Host inventory evidence reference").

Definition normalize_capability (c : Capability) : res Capability :=
  fail_if ((cap_Name c ==s "") || (cap_Version c ==s "") || negb (availability_Valid (cap_State c)))
    (errors_New "Host capability name, version, and availability state are required");;
  fail_if ((cap_State c ==s AvailabilityAvailable) && (cap_ReasonCode c !=s ""))
    (errors_New "available Host capability cannot carry a failure reason");;
  fail_if ((cap_State c !=s AvailabilityAvailable) && (cap_ReasonCode c ==s ""))
    (errors_New "non-available Host capability requires a reason code");;
  let constraints := sort_Slice (less_on String.ltb cn_Name) (cap_Constraints c) in
  check_each (fun prev x =>
      fail_if ((cn_Name x ==s "") || same_as_previous (on_string cn_Name) prev x)
        (errors_New "Host capability constraint names must be non-empty and unique")) None constraints;;
  Ok (MkCapability (cap_Name c) (cap_Version c) (cap_State c) (cap_ReasonCode c) constraints).

Definition normalize_compute (capabilities : list Capability) (c : Compute) : res Compute :=
  fail_if (capabilityIsAvailable capabilities "kim.host.cpu-topology.v1"
           && ((Architecture c ==s "") || Nat.eqb (length (Threads c)) 0))
    (errors_New "available Compute topology requires architecture and threads");;
  let threads := sort_Slice (less_on Z.ltb th_LinuxID) (Threads c) in
  check_each (fun prev t =>
      fail_if ((th_LinuxID t <? 0) || (CoreID t <? 0) || (SocketID t <? 0) || (th_NUMANodeID t <? -1)
               || same_as_previous (on_int th_LinuxID) prev t)
        (errors_New "Compute thread topology contains invalid or duplicate IDs")) None threads;;
  Ok (MkCompute (Architecture c) (CPUModel c) threads).

(** The comparison of HugePage pools, as written. *)
Definition hugepage_less (left right : HugePagePool) : bool :=
  match hp_NUMANodeID left, hp_NUMANodeID right with
  | None, right_node => match right_node with Some _ => true | None => false end
  | Some _, None => true
  | Some l, Some r => if l !=z r then l <? r else PageSizeBytes left <? PageSizeBytes right
  end.

Definition sort_thread_ids (n : NUMANode) : NUMANode :=
  MkNode (nn_LinuxID n) (sort_Slice Z.ltb (CPUThreadIDs n)) (MemoryTotalBytes n).

Definition normalize_memory (capabilities : list Capability) (m : Memory) : res Memory :=
  fail_if (capabilityIsAvailable capabilities "kim.host.memory.v1" && (mem_TotalBytes m =? 0))
    (errors_New "Memory inventory total bytes must be positive");;
  let nodes := sort_Slice (less_on Z.ltb nn_LinuxID) (NUMANodes m) in
  check_each (fun prev n =>
      fail_if ((nn_LinuxID n <? 0)
               || (capabilityIsAvailable capabilities "kim.host.numa.v1" && (MemoryTotalBytes n =? 0))
               || same_as_previous (on_int nn_LinuxID) prev n)
        (errors_New "NUMA topology contains invalid or duplicate nodes")) None nodes;;
  let pools := sort_Slice hugepage_less (HugePagePools m) in
  check_each (fun _ p =>
      fail_if ((PageSizeBytes p =? 0)
               || (capabilityIsAvailable capabilities "kim.host.hugepages.v1" && (TotalPages p <? FreePages p))
               || match hp_NUMANodeID p with Some n => n <? 0 | None => false end)
        (errors_New "HugePage pool contains invalid capacity or NUMA locality")) None pools;;
  Ok (MkMemory (mem_TotalBytes m) (AvailableBytes m) (sort_thread_ids <$> nodes) pools).

Definition normalize_pci (p : PCI) : res PCI :=
  let devices := sort_Slice (less_on String.ltb pci_Address) (pci_Devices p) in
  check_each (fun prev d =>
      fail_if (negb (validPCIAddress (pci_Address d)) || negb (validPCIID (VendorID d))
               || negb (validPCIID (DeviceID d))
               || ((SubsystemVendorID d !=s "") && negb (validPCIID (SubsystemVendorID d)))
               || ((SubsystemDeviceID d !=s "") && negb (validPCIID (SubsystemDeviceID d)))
               || ((DeviceRevision d !=s "") && negb (validPCIRevision (DeviceRevision d)))
               || (pci_NUMANodeID d <? -1) || (SRIOVTotalVFs d <? SRIOVEnabledVFs d)
               || negb (availability_Valid (RelationshipState d))
               || ((RelationshipState d ==s AvailabilityAvailable) && (RelationshipReason d !=s ""))
               || ((RelationshipState d !=s AvailabilityAvailable) && (RelationshipReason d ==s ""))
               || ((pci_PFAddress d !=s "")
                   && (negb (validPCIAddress (pci_PFAddress d)) || bool_decide (pci_VFIndex d = None)))
               || ((pci_PFAddress d ==s "") && bool_decide (pci_VFIndex d <> None))
               || same_as_previous (on_string pci_Address) prev d)
        (errors_New "PCI inventory contains invalid or duplicate devices")) None devices;;
  Ok (MkPCI (IOMMUEnabled p) devices).

Definition normalize_network (n : Network) : res Network :=
  let interfaces := sort_Slice (less_on String.ltb ni_Name) (Interfaces n) in
  check_each (fun prev d =>
      fail_if ((ni_Name d ==s "") || (ni_MACAddress d ==s "") || (ni_Driver d ==s "")
               || (ni_NUMANodeID d <? -1) || same_as_previous (on_string ni_Name) prev d)
        (errors_New "Network inventory contains invalid or duplicate interfaces")) None interfaces;;
  Ok (MkNetwork interfaces).

Definition normalize_storage (s : Storage) : res Storage :=
  let devices := sort_Slice (less_on String.ltb StableID) (st_Devices s) in
  check_each (fun prev d =>
      fail_if ((StableID d ==s "") || (sd_Kind d ==s "") || (sd_SizeBytes d =? 0)
               || same_as_previous (on_string StableID) prev d)
        (errors_New "Storage inventory contains invalid or duplicate devices")) None devices;;
  Ok (MkStorage devices).

Definition normalize_virtualization (v : Virtualization) : res Virtualization :=
  let types := sort_Slice String.ltb (MachineTypes v) in
  fail_if (KVMAvailable v && ((LibvirtVersion v ==s "") || (QEMUVersion v ==s "")))
    (errors_New "available KVM capability requires libvirt and QEMU versions");;
  Ok (MkVirtualization (KVMAvailable v) (LibvirtVersion v) (QEMUVersion v) types).

Definition present {A} (o : option A) : bool := match o with Some _ => true | None => false end.
Definition b2n (b : bool) : nat := if b then 1 else 0.

Definition with_payload (f : Fragment) (evidence : list EvidenceRef) (capabilities : list Capability)
    (co : option Compute) (me : option Memory) (pc : option PCI) (ne : option Network)
    (st : option Storage) (vi : option Virtualization) : Fragment :=
  MkFragment (fr_Domain f) (fr_Source f) evidence capabilities co me pc ne st vi.

(** A domain whose payload is present; the two checks above exclude a nil one. *)
Definition on_payload {A} (normalize : A -> res A) (o : option A) : res (option A) :=
  match o with Some a => a' ← normalize a; Ok (Some a') | None => Ok None end.

(** The [switch fragment.Domain]. *)
Definition normalize_domain (f : Fragment) (capabilities : list Capability)
    (build : option Compute -> option Memory -> option PCI -> option Network -> option Storage ->
             option Virtualization -> Fragment) : res Fragment :=
  let co := fr_Compute f in let me := fr_Memory f in let pc := fr_PCI f in
  let ne := fr_Network f in let st := fr_Storage f in let vi := fr_Virtualization f in
  if fr_Domain f ==s DomainCompute then
    co' ← on_payload (normalize_compute capabilities) co; Ok (build co' me pc ne st vi)
  else if fr_Domain f ==s DomainMemory then
    me' ← on_payload (normalize_memory capabilities) me; Ok (build co me' pc ne st vi)
  else if fr_Domain f ==s DomainPCI then
    pc' ← on_payload normalize_pci pc; Ok (build co me pc' ne st vi)
  else if fr_Domain f ==s DomainNetwork then
    ne' ← on_payload normalize_network ne; Ok (build co me pc ne' st vi)
  else if fr_Domain f ==s DomainStorage then
    st' ← on_payload normalize_storage st; Ok (build co me pc ne st' vi)
  else if fr_Domain f ==s DomainVirtualization then
    vi' ← on_payload normalize_virtualization vi; Ok (build co me pc ne st vi')
  else Ok (build co me pc ne st vi).

(** The typed payload is the one of the domain, and the only one. *)
Definition payload_matches (f : Fragment) : bool :=
  Nat.eqb (b2n (present (fr_Compute f)) + b2n (present (fr_Memory f)) + b2n (present (fr_PCI f))
           + b2n (present (fr_Network f)) + b2n (present (fr_Storage f))
           + b2n (present (fr_Virtualization f))) 1
  && Bool.eqb (fr_Domain f ==s DomainCompute) (present (fr_Compute f))
  && Bool.eqb (fr_Domain f ==s DomainMemory) (present (fr_Memory f))
  && Bool.eqb (fr_Domain f ==s DomainPCI) (present (fr_PCI f))
  && Bool.eqb (fr_Domain f ==s DomainNetwork) (present (fr_Network f))
  && Bool.eqb (fr_Domain f ==s DomainStorage) (present (fr_Storage f))
  && Bool.eqb (fr_Domain f ==s DomainVirtualization) (present (fr_Virtualization f)).

(** [normalizeFragment] *)
Definition normalizeFragment (f : Fragment) : res Fragment :=
  fail_if (negb (existsb (String.eqb (fr_Domain f)) knownDomains)
           || (ModuleName (fr_Source f) ==s "") || (ModuleVersion (fr_Source f) ==s "")
           || (src_SchemaVersion (fr_Source f) ==s "") || negb (validDigest (ArtifactDigest (fr_Source f))))
    (Errorf "invalid Host inventory fragment source for domain %s" [fr_Domain f]);;
  fail_if (negb (payload_matches f))
    (Errorf "Host inventory domain %s does not match its typed payload" [fr_Domain f]);;
  let evidence := sort_Slice evidence_less (Evidence f) in
  check_each check_evidence None evidence;;
  capabilities ← mapM normalize_capability (Capabilities f);
  let capabilities := sort_Slice (less_on String.ltb cap_Name) capabilities in
  normalize_domain f capabilities (with_payload f evidence capabilities).

(** The union of the fragments' capabilities, refusing a repeated name. *)
Fixpoint collect_capabilities (cs : list Capability) (m : gmap string Capability) :
  res (gmap string Capability) :=
  match cs with
  | [] => Ok m
  | c :: rest =>
      fail_if (bool_decide (is_Some (m !! cap_Name c)))
        (Errorf "duplicate Host capability %s" [cap_Name c]);;
      collect_capabilities rest (<[cap_Name c := c]> m)
  end.

Fixpoint normalize_fragments (fs : list Fragment) (m : gmap string Capability) :
  res (list Fragment * gmap string Capability) :=
  match fs with
  | [] => Ok ([], m)
  | f :: rest =>
      f' ← normalizeFragment f;
      m' ← collect_capabilities (Capabilities f') m;
      '(rest', m'') ← normalize_fragments rest m';
      Ok (f' :: rest', m'')
  end.

Definition fragment_less : Fragment -> Fragment -> bool :=
  less_then (less_on String.ltb fr_Domain) (less_on String.ltb (fun f => ModuleName (fr_Source f))).

(** [Snapshot.NormalizeAndValidate] *)
Definition NormalizeAndValidate (s : Snapshot) : res Snapshot :=
  fail_if ((SchemaVersion s !=s SnapshotSchemaV3) || (HostIdentity s ==s "")
           || (ObservationGeneration s =? 0))
    (errors_New "complete Host inventory snapshot identity is required");;
  fail_if ((CollectionStatus s !=s "COMPLETE") && (CollectionStatus s !=s "DEGRADED"))
    (errors_New "Host inventory collection status must be COMPLETE or DEGRADED");;
  '(fragments, capabilities) ← normalize_fragments (Fragments s) ∅;
  Ok (MkSnapshot (SchemaVersion s) (HostIdentity s) (ObservationGeneration s) (CollectionStatus s)
        (sort_Slice (less_on String.ltb cap_Name) (snd <$> map_to_list capabilities))
        (sort_Slice fragment_less fragments)).

(** ** Lemmas *)

(** [check_each] looks at elements through [f] only. *)
Lemma check_each_fmap {A B} (f : A -> B) (checkA : option A -> A -> res unit) (checkB : option B -> B -> res unit) :
  (forall prev x, checkB (f <$> prev) (f x) = checkA prev x) ->
  forall l prev, check_each checkB (f <$> prev) (f <$> l) = check_each checkA prev l.
Proof.
  intros H l. induction l as [|x l IH]; intros prev; [done|].
  cbn [fmap list_fmap check_each]. rewrite H. specialize (IH (Some x)). cbn in IH.
  destruct (checkA prev x); cbn; [apply IH|done].
Qed.

Lemma check_each_same {A} (f : A -> A) check l :
  (forall prev x, check (f <$> prev) (f x) = check prev x) ->
  check_each check None (f <$> l) = check_each check None l.
Proof. intros H. apply (check_each_fmap f check check H l None). Qed.

Lemma sorted_by_fmap {A B} (f : A -> B) (lessA : A -> A -> bool) (lessB : B -> B -> bool) l :
  (forall x y, lessB (f x) (f y) = lessA x y) -> sorted_by lessA l -> sorted_by lessB (f <$> l).
Proof.
  intros H. unfold sorted_by. induction 1 as [|x l Hs IH Hall]; cbn; [constructor|].
  constructor; [done|]. apply Forall_fmap. eapply Forall_impl; [exact Hall|]. intros y. cbn. by rewrite H.
Qed.

Lemma mapM_fixed {A} (f : A -> res A) l : Forall (fun x => f x = Ok x) l -> mapM f l = Ok l.
Proof. induction 1 as [|x l Hx Hl IH]; cbn; [done|]. by rewrite Hx, IH. Qed.

Lemma mapM_Ok_Forall2 {A B} (f : A -> res B) l l' : mapM f l = Ok l' <-> Forall2 (fun x y => f x = Ok y) l l'.
Proof.
  revert l'. induction l as [|x l IH]; intros l'; cbn.
  - split; [by intros [= <-]|by inversion 1].
  - split.
    + intros H. apply bind_Ok_inv in H as (y & Hy & H). apply bind_Ok_inv in H as (ys & Hys & [= <-]).
      constructor; [done|by apply IH].
    + inversion 1 as [|? y ? ys Hy Hys]; subst. rewrite Hy. cbn. apply IH in Hys. by rewrite Hys.
Qed.

Lemma mapM_all_fixed {A} (f : A -> res A) l l' :
  (forall x y, f x = Ok y -> f y = Ok y) -> mapM f l = Ok l' -> Forall (fun x => f x = Ok x) l'.
Proof.
  intros Hf H. apply mapM_Ok_Forall2 in H. induction H; constructor; eauto.
Qed.

(** Replaying a success. *)
Ltac replay := repeat match goal with H : _ = false |- _ => rewrite H; clear H end; cbn.

Lemma check_each_bind {A B} check prev (l : list A) (k : res B) :
  check_each check prev l = Ok tt -> (check_each check prev l;; k) = k.
Proof. by intros ->. Qed.

Ltac replay_checks := repeat match goal with
  | H : check_each _ _ _ = Ok ?u |- _ => destruct u; rewrite (check_each_bind _ _ _ _ H)
  end.

Lemma normalize_capability_idem c c' : normalize_capability c = Ok c' -> normalize_capability c' = Ok c'.
Proof.
  unfold normalize_capability. intros H.
  apply bind_Ok_inv in H as ([] & H1 & H). apply bind_Ok_inv in H as ([] & H2 & H).
  apply bind_Ok_inv in H as ([] & H3 & H). apply bind_Ok_inv in H as ([] & H4 & [= <-]).
  cbn [cap_Name cap_Version cap_State cap_ReasonCode cap_Constraints].
  rewrite H1, H2, H3, sort_idemp by apply _. cbn. by rewrite H4.
Qed.

Lemma normalize_compute_idem caps c c' :
  normalize_compute caps c = Ok c' -> normalize_compute caps c' = Ok c'.
Proof.
  unfold normalize_compute. intros H. apply bind_Ok_inv in H as ([] & H1 & H).
  apply bind_Ok_inv in H as ([] & H2 & [= <-]). cbn [Architecture CPUModel Threads].
  rewrite sort_length, H1, sort_idemp by apply _. cbn. by rewrite H2.
Qed.

(** Pools that all have a NUMA node, or all have none. *)
Definition uniform_pools (m : Memory) : Prop :=
  Forall (fun p => hp_NUMANodeID p = None) (HugePagePools m)
  \/ Forall (fun p => is_Some (hp_NUMANodeID p)) (HugePagePools m).

Definition node_of (p : HugePagePool) : Z := default 0 (hp_NUMANodeID p).

Definition node_less : HugePagePool -> HugePagePool -> bool :=
  less_then (less_on Z.ltb node_of) (less_on Z.ltb PageSizeBytes).

Lemma sort_ext {A} (less1 less2 : A -> A -> bool) (P : A -> Prop) l :
  (forall x y, P x -> P y -> less1 x y = less2 x y) -> Forall P l -> sort_Slice less1 l = sort_Slice less2 l.
Proof.
  intros H. unfold sort_Slice. induction 1 as [|x l Hx Hl IH]; cbn; [done|]. rewrite IH.
  assert (Forall P (foldr (sort_insert less2) [] l)) as Hs.
  { change (Forall P (sort_Slice less2 l)). by rewrite sort_perm. }
  clear IH. induction Hs as [|y t Hy Ht IHt]; cbn; [done|]. rewrite H, IHt by done. done.
Qed.

Lemma uniform_sort_idem l :
  Forall (fun p => hp_NUMANodeID p = None) l \/ Forall (fun p => is_Some (hp_NUMANodeID p)) l ->
  sort_Slice hugepage_less (sort_Slice hugepage_less l) = sort_Slice hugepage_less l.
Proof.
  intros [H|H].
  - assert (forall x y, hp_NUMANodeID x = None -> hp_NUMANodeID y = None ->
      hugepage_less x y = less_on Z.ltb (fun _ => 0) x y) as Hext.
    { intros x y Hx Hy. unfold hugepage_less. by rewrite Hx, Hy. }
    rewrite (sort_ext hugepage_less _ _ l Hext H).
    rewrite (sort_ext hugepage_less _ _ (sort_Slice (less_on Z.ltb (fun _ => 0)) l) Hext) by by rewrite sort_perm.
    apply sort_idemp. apply _.
  - assert (forall x y, is_Some (hp_NUMANodeID x) -> is_Some (hp_NUMANodeID y) ->
      hugepage_less x y = node_less x y) as Hext.
    { intros x y [a Ha] [b Hb]. unfold hugepage_less, node_less, less_then, less_on, node_of.
      rewrite Ha, Hb. cbn. destruct (Z.eqb_spec a b); cbn.
      - subst. by rewrite Z.ltb_irrefl.
      - destruct (Z.ltb_spec a b); [done|]. destruct (Z.ltb_spec b a); [done|lia]. }
    rewrite (sort_ext hugepage_less node_less _ l Hext H).
    rewrite (sort_ext hugepage_less node_less _ (sort_Slice node_less l) Hext) by by rewrite sort_perm.
    apply sort_idemp. unfold node_less. apply _.
Qed.

Lemma sort_thread_ids_idem n : sort_thread_ids (sort_thread_ids n) = sort_thread_ids n.
Proof. unfold sort_thread_ids. cbn [nn_LinuxID CPUThreadIDs MemoryTotalBytes]. by rewrite sort_idemp by apply _. Qed.

Lemma normalize_memory_idem caps m m' : uniform_pools m ->
  normalize_memory caps m = Ok m' -> normalize_memory caps m' = Ok m'.
Proof.
  unfold normalize_memory. intros Hu H. apply bind_Ok_inv in H as ([] & H1 & H).
  apply bind_Ok_inv in H as ([] & H2 & H). apply bind_Ok_inv in H as ([] & H3 & [= <-]).
  cbn [mem_TotalBytes AvailableBytes NUMANodes HugePagePools]. rewrite H1, uniform_sort_idem by done. cbn.
  assert (sorted_by (less_on Z.ltb nn_LinuxID)
    (sort_thread_ids <$> sort_Slice (less_on Z.ltb nn_LinuxID) (NUMANodes m))) as Hs.
  { eapply sorted_by_fmap; [|apply sort_sorted; apply _]. done. }
  rewrite (sort_id (less_on Z.ltb nn_LinuxID) _ Hs).
  rewrite (check_each_same sort_thread_ids), H2 by by intros [] ?. cbn. rewrite H3. cbn.
  rewrite <- list_fmap_compose. do 2 f_equal. apply list_fmap_ext. intros. apply sort_thread_ids_idem.
Qed.

Lemma normalize_pci_idem p p' : normalize_pci p = Ok p' -> normalize_pci p' = Ok p'.
Proof.
  unfold normalize_pci. intros H. apply bind_Ok_inv in H as ([] & H1 & [= <-]).
  cbn [pci_Devices IOMMUEnabled]. rewrite sort_idemp by apply _. by rewrite (check_each_bind _ _ _ _ H1).
Qed.

Lemma normalize_network_idem n n' : normalize_network n = Ok n' -> normalize_network n' = Ok n'.
Proof.
  unfold normalize_network. intros H. apply bind_Ok_inv in H as ([] & H1 & [= <-]).
  cbn [Interfaces]. rewrite sort_idemp by apply _. by rewrite (check_each_bind _ _ _ _ H1).
Qed.

Lemma normalize_storage_idem s s' : normalize_storage s = Ok s' -> normalize_storage s' = Ok s'.
Proof.
  unfold normalize_storage. intros H. apply bind_Ok_inv in H as ([] & H1 & [= <-]).
  cbn [st_Devices]. rewrite sort_idemp by apply _. by rewrite (check_each_bind _ _ _ _ H1).
Qed.

Lemma normalize_virtualization_idem v v' : normalize_virtualization v = Ok v' -> normalize_virtualization v' = Ok v'.
Proof.
  unfold normalize_virtualization. intros H. apply bind_Ok_inv in H as ([] & H1 & [= <-]).
  cbn [KVMAvailable LibvirtVersion QEMUVersion MachineTypes]. by rewrite H1, sort_idemp by apply _.
Qed.

Lemma on_payload_idem {A} (normalize : A -> res A) o o' :
  (forall a a', o = Some a -> normalize a = Ok a' -> normalize a' = Ok a') ->
  on_payload normalize o = Ok o' -> on_payload normalize o' = Ok o' /\ present o' = present o.
Proof.
  intros Hi H. destruct o as [a|]; cbn in H.
  - apply bind_Ok_inv in H as (a' & Ha & [= <-]). cbn. by rewrite (Hi a a' eq_refl Ha).
  - by injection H as <-.
Qed.

Definition uniform_fragment (f : Fragment) : Prop :=
  match fr_Memory f with Some m => uniform_pools m | None => True end.

(** What [normalize_domain] keeps and that it is stable. *)
Lemma normalize_domain_spec f ev caps f' : uniform_fragment f ->
  normalize_domain f caps (with_payload f ev caps) = Ok f' ->
  fr_Domain f' = fr_Domain f /\ fr_Source f' = fr_Source f /\ Evidence f' = ev /\ Capabilities f' = caps
  /\ payload_matches f' = payload_matches f
  /\ normalize_domain f' caps (with_payload f' ev caps) = Ok f'.
Proof.
  intros Hu. unfold normalize_domain.
  assert (forall a a', fr_Memory f = Some a -> normalize_memory caps a = Ok a' -> normalize_memory caps a' = Ok a') as Hm.
  { intros a a' Ha. apply normalize_memory_idem. unfold uniform_fragment in Hu. by rewrite Ha in Hu. }
  repeat match goal with
  | |- context [if (fr_Domain f ==s ?d)%go then _ else _] => destruct (fr_Domain f ==s d)%go eqn:?
  end; intros H; try (apply bind_Ok_inv in H as (o & Ho & H)); injection H as <-;
    cbn [fr_Domain fr_Source Evidence Capabilities with_payload fr_Compute fr_Memory fr_PCI fr_Network fr_Storage fr_Virtualization];
    (split; [done|]; split; [done|]; split; [done|]; split; [done|]).
  - apply on_payload_idem in Ho as [Hi Hp]; [|eauto using normalize_compute_idem].
    unfold payload_matches, with_payload. cbn. by rewrite Hp, Heqb, Hi.
  - apply on_payload_idem in Ho as [Hi Hp]; [|done].
    unfold payload_matches, with_payload. cbn. by rewrite Hp, Heqb, Heqb0, Hi.
  - apply on_payload_idem in Ho as [Hi Hp]; [|eauto using normalize_pci_idem].
    unfold payload_matches, with_payload. cbn. by rewrite Hp, Heqb, Heqb0, Heqb1, Hi.
  - apply on_payload_idem in Ho as [Hi Hp]; [|eauto using normalize_network_idem].
    unfold payload_matches, with_payload. cbn. by rewrite Hp, Heqb, Heqb0, Heqb1, Heqb2, Hi.
  - apply on_payload_idem in Ho as [Hi Hp]; [|eauto using normalize_storage_idem].
    unfold payload_matches, with_payload. cbn. by rewrite Hp, Heqb, Heqb0, Heqb1, Heqb2, Heqb3, Hi.
  - apply on_payload_idem in Ho as [Hi Hp]; [|eauto using normalize_virtualization_idem].
    unfold payload_matches, with_payload. cbn. by rewrite Hp, Heqb, Heqb0, Heqb1, Heqb2, Heqb3, Heqb4, Hi.
  - unfold payload_matches, with_payload. cbn. by rewrite Heqb, Heqb0, Heqb1, Heqb2, Heqb3, Heqb4.
Qed.

Lemma normalizeFragment_idem f f' : uniform_fragment f ->
  normalizeFragment f = Ok f' -> normalizeFragment f' = Ok f'.
Proof.
  unfold normalizeFragment. intros Hu H.
  apply bind_Ok_inv in H as ([] & H1 & H). apply bind_Ok_inv in H as ([] & H2 & H).
  apply bind_Ok_inv in H as ([] & H3 & H). apply bind_Ok_inv in H as (caps & H4 & H).
  destruct (normalize_domain_spec _ _ _ _ Hu H) as (Ed & Es & Ee & Ec & Ep & Hi).
  rewrite Ed, Es, Ee, Ec, Ep, H1, H2. unfold evidence_less in *. rewrite !sort_idemp by apply _. cbn.
  rewrite H3. cbn. rewrite mapM_fixed.
  - cbn. by rewrite sort_idemp by apply _.
  - rewrite sort_perm. exact (mapM_all_fixed _ _ _ normalize_capability_idem H4).
Qed.

(** *** The capabilities of all fragments *)

Definition names (cs : list Capability) : list string := cap_Name <$> cs.
Definition table (cs : list Capability) : gmap string Capability :=
  list_to_map ((fun c => (cap_Name c, c)) <$> cs).

Lemma collect_capabilities_iff cs : forall m m',
  collect_capabilities cs m = Ok m' <->
  NoDup (names cs) /\ (forall c, c ∈ cs -> m !! cap_Name c = None) /\ m' = table cs ∪ m.
Proof.
  induction cs as [|c cs IH]; intros m m'; cbn [collect_capabilities].
  - unfold table. cbn. rewrite map_empty_union. split; [|by intros (_ & _ & ->)].
    intros [= <-]. split; [apply NoDup_nil_2|]. split; [|done]. by intros c ?%elem_of_nil.
  - unfold table, names in *. cbn [fmap list_fmap list_to_map foldr fst snd]. rewrite NoDup_cons.
    destruct (m !! cap_Name c) as [x|] eqn:Em.
    { rewrite bool_decide_true by eauto. cbn. split; [done|]. intros (_ & Hn & _).
      specialize (Hn c ltac:(left)). congruence. }
    rewrite bool_decide_false by (by intros [? ?]). cbn. rewrite IH.
    assert (forall T : gmap string Capability, T !! cap_Name c = None ->
      T ∪ <[cap_Name c := c]> m = <[cap_Name c := c]> T ∪ m) as Hins.
    { intros T HT. rewrite <- insert_union_r, insert_union_l by done. done. }
    split.
    + intros (Hnd & Hn & ->). assert (cap_Name c ∉ cap_Name <$> cs) as Hni.
      { intros Hin. apply list_elem_of_fmap in Hin as (c2 & E & Hc2). specialize (Hn c2 Hc2).
        by rewrite <- E, lookup_insert_eq in Hn. }
      split; [done|]. split.
      * intros c2 [->|Hc2]%elem_of_cons; [done|]. specialize (Hn c2 Hc2).
        by apply lookup_insert_None in Hn as [? _].
      * apply Hins. apply not_elem_of_list_to_map_1. rewrite <- list_fmap_compose. exact Hni.
    + intros ([Hni Hnd] & Hn & ->). split; [done|]. split.
      * intros c2 Hc2. rewrite lookup_insert_None. split; [apply Hn; by right|].
        intros E. apply Hni. rewrite E. by apply list_elem_of_fmap_2.
      * symmetry. apply Hins. apply not_elem_of_list_to_map_1. rewrite <- list_fmap_compose. exact Hni.
Qed.

Lemma collect_app a b m :
  collect_capabilities (a ++ b) m = (m' ← collect_capabilities a m; collect_capabilities b m').
Proof.
  revert m. induction a as [|c a IH]; intros m; cbn [app collect_capabilities]; [done|].
  destruct (fail_if _ _); cbn; [apply IH|done].
Qed.

Lemma normalize_fragments_iff fs : forall m fs' m',
  normalize_fragments fs m = Ok (fs', m') <->
  mapM normalizeFragment fs = Ok fs' /\ collect_capabilities (fs' ≫= Capabilities) m = Ok m'.
Proof.
  induction fs as [|f fs IH]; intros m fs' m'; cbn [normalize_fragments mapM].
  - split; [intros [= <- <-]; done|]. cbn. by intros [[= <-] [= <-]].
  - split.
    + intros H. apply bind_Ok_inv in H as (f1 & Hf & H). apply bind_Ok_inv in H as (m1 & Hm & H).
      apply bind_Ok_inv in H as ([rest m2] & Hr & [= <- <-]). apply IH in Hr as [Hr1 Hr2].
      rewrite Hf. cbn. rewrite Hr1. cbn. by rewrite collect_app, Hm.
    + intros [H1 H2]. apply bind_Ok_inv in H1 as (f1 & Hf & H1).
      apply bind_Ok_inv in H1 as (rest & Hr & [= <-]). cbn in H2. rewrite collect_app in H2.
      apply bind_Ok_inv in H2 as (m1 & Hm & H2). rewrite Hf. cbn. rewrite Hm. cbn.
      by rewrite (proj2 (IH m1 rest m') (conj Hr H2)).
Qed.

Lemma collect_perm cs1 cs2 m : cs1 ≡ₚ cs2 ->
  collect_capabilities cs1 ∅ = Ok m -> collect_capabilities cs2 ∅ = Ok m.
Proof.
  intros Hp. rewrite !collect_capabilities_iff. intros (Hnd & Hn & ->). unfold names in *.
  split; [by rewrite <- Hp|]. split; [intros; apply lookup_empty|]. f_equal. unfold table.
  apply list_to_map_proper; [by rewrite <- list_fmap_compose|by rewrite Hp].
Qed.

Lemma table_values cs : NoDup (names cs) -> (snd <$> map_to_list (table cs)) ≡ₚ cs.
Proof.
  intros Hnd. unfold table. rewrite map_to_list_to_map.
  - rewrite <- list_fmap_compose. by rewrite list_fmap_id.
  - rewrite <- list_fmap_compose. exact Hnd.
Qed.

Lemma bind_perm {A B} (f : A -> list B) l1 l2 : l1 ≡ₚ l2 -> (l1 ≫= f) ≡ₚ (l2 ≫= f).
Proof. intros H. by rewrite H. Qed.

Definition header_ok (s : Snapshot) : Prop :=
  SchemaVersion s = SnapshotSchemaV3 /\ HostIdentity s <> ""%string /\ ObservationGeneration s <> 0
  /\ (CollectionStatus s = "COMPLETE"%string \/ CollectionStatus s = "DEGRADED"%string).

(** The snapshot built from normalized fragments. *)
Definition assemble (s : Snapshot) (fs : list Fragment) : Snapshot :=
  MkSnapshot (SchemaVersion s) (HostIdentity s) (ObservationGeneration s) (CollectionStatus s)
    (sort_Slice (less_on String.ltb cap_Name) (snd <$> map_to_list (table (fs ≫= Capabilities))))
    (sort_Slice fragment_less fs).

Lemma NormalizeAndValidate_iff s s' : NormalizeAndValidate s = Ok s' <->
  header_ok s /\ exists fs, mapM normalizeFragment (Fragments s) = Ok fs
    /\ NoDup (names (fs ≫= Capabilities)) /\ s' = assemble s fs.
Proof.
  assert (forall fs, NoDup (names (fs ≫= Capabilities)) ->
    collect_capabilities (fs ≫= Capabilities) ∅ = Ok (table (fs ≫= Capabilities))) as Hcollect.
  { intros fs Hnd. apply collect_capabilities_iff. split; [done|]. split; [intros; apply lookup_empty|].
    by rewrite map_union_empty. }
  unfold NormalizeAndValidate, header_ok. split.
  - intros H. apply bind_Ok_inv in H as ([] & H1 & H). apply bind_Ok_inv in H as ([] & H2 & H).
    apply bind_Ok_inv in H as ([fs m] & H3 & H). injection H as <-. run_guards.
    apply normalize_fragments_iff in H3 as [Hfs Hm]. pose proof Hm as Hm'.
    apply collect_capabilities_iff in Hm' as (Hnd & _ & ->). rewrite map_union_empty.
    split; [|by exists fs].
    repeat split; try done. destruct (String.eqb_spec (CollectionStatus s) "COMPLETE"); [by left|].
    destruct (String.eqb_spec (CollectionStatus s) "DEGRADED"); [by right|done].
  - intros ((H1 & H2 & H3 & H4) & fs & Hfs & Hnd & ->).
    apply String.eqb_neq in H2. apply Z.eqb_neq in H3. rewrite H1, H2, H3. cbn.
    assert ((CollectionStatus s !=s "COMPLETE") && (CollectionStatus s !=s "DEGRADED") = false)%go as ->
      by (destruct H4 as [-> | ->]; done). cbn.
    rewrite (proj2 (normalize_fragments_iff _ _ _ _) (conj Hfs (Hcollect fs Hnd))).
    unfold assemble. by rewrite H1.
Qed.

Lemma mapM_perm {A B} (f : A -> res B) l1 l2 ys : l1 ≡ₚ l2 -> mapM f l1 = Ok ys ->
  exists ys2, mapM f l2 = Ok ys2 /\ ys ≡ₚ ys2.
Proof.
  intros Hp. revert ys. induction Hp as [|x l1 l2 Hp IH|x y l|l1 l2 l3 H1 IH1 H2 IH2]; intros ys H.
  - eauto.
  - cbn in *. apply bind_Ok_inv in H as (b & Hb & H). apply bind_Ok_inv in H as (bs & Hbs & [= <-]).
    destruct (IH bs Hbs) as (bs2 & -> & Hp2). rewrite Hb. cbn. eauto using Permutation.
  - cbn in *. apply bind_Ok_inv in H as (b & Hb & H). apply bind_Ok_inv in H as (bs & Hbs & [= <-]).
    apply bind_Ok_inv in Hbs as (c & Hc & Hbs). apply bind_Ok_inv in Hbs as (cs & Hcs & [= <-]).
    rewrite Hb, Hc, Hcs. cbn. eauto using Permutation.
  - destruct (IH1 ys H) as (ys1 & Hy1 & Hp1). destruct (IH2 ys1 Hy1) as (ys2 & Hy2 & Hp2).
    eauto using Permutation.
Qed.

(** ** Properties *)

(** normalization reaches a canonical form in one pass: normalizing a
    normalized snapshot changes nothing, its capabilities are exactly those of
    its fragments, each name once and in order, and every fragment carries the
    one payload its domain names. *)
Theorem normalize_canonical s s' :
  NormalizeAndValidate s = Ok s' -> Forall uniform_fragment (Fragments s) ->
  NormalizeAndValidate s' = Ok s'
  /\ sn_Capabilities s' ≡ₚ Fragments s' ≫= Capabilities
  /\ NoDup (names (sn_Capabilities s'))
  /\ sorted_by (less_on String.ltb cap_Name) (sn_Capabilities s')
  /\ Forall (fun f => payload_matches f = true) (Fragments s').
Proof.
  intros H Hu. apply NormalizeAndValidate_iff in H as (Hh & fs & Hfs & Hnd & ->).
  pose proof Hfs as H2. apply mapM_Ok_Forall2 in H2.
  assert (Forall (fun f => normalizeFragment f = Ok f) fs) as Hfixed.
  { clear Hnd Hfs. induction H2 as [|f f' l l' Hf _ IH]; [constructor|]. inversion Hu; subst.
    constructor; [by eapply normalizeFragment_idem|by apply IH]. }
  assert (sort_Slice fragment_less fs ≡ₚ fs) as Hp by apply sort_perm.
  assert ((sort_Slice fragment_less fs ≫= Capabilities) ≡ₚ (fs ≫= Capabilities)) as Hpc by by apply bind_perm.
  assert (table (sort_Slice fragment_less fs ≫= Capabilities) = table (fs ≫= Capabilities)) as Ht.
  { unfold table. apply list_to_map_proper; [|by rewrite Hpc].
    rewrite <- list_fmap_compose. change (NoDup (names (sort_Slice fragment_less fs ≫= Capabilities))).
    unfold names. by rewrite Hpc. }
  split; [|repeat split].
  - apply NormalizeAndValidate_iff. split; [exact Hh|]. exists (sort_Slice fragment_less fs).
    cbn [Fragments assemble]. split; [|split].
    + apply mapM_fixed. by rewrite Hp.
    + unfold names. by rewrite Hpc.
    + unfold assemble. cbn. rewrite Ht. unfold fragment_less. by rewrite sort_idemp by apply _.
  - cbn. rewrite sort_perm, table_values by done. by rewrite Hpc.
  - cbn. unfold names. rewrite sort_perm, table_values by done. done.
  - cbn. apply sort_sorted. apply _.
  - cbn. rewrite Hp. eapply Forall_impl; [exact Hfixed|]. intros f Hf. cbn in Hf.
    unfold normalizeFragment in Hf. apply bind_Ok_inv in Hf as ([] & _ & Hf).
    apply bind_Ok_inv in Hf as ([] & Hm & _). run_guards. done.
Qed.

(** the canonical form does not depend on the order in which the modules
    reported: permuting the fragments of a snapshot gives the same result,
    provided no two of them share a domain and module name. *)
Theorem fragment_order_irrelevant s1 s2 s' :
  SchemaVersion s2 = SchemaVersion s1 -> HostIdentity s2 = HostIdentity s1 ->
  ObservationGeneration s2 = ObservationGeneration s1 -> CollectionStatus s2 = CollectionStatus s1 ->
  Fragments s2 ≡ₚ Fragments s1 -> NormalizeAndValidate s1 = Ok s' ->
  untied fragment_less (Fragments s') ->
  NormalizeAndValidate s2 = Ok s'.
Proof.
  intros E1 E2 E3 E4 Hp H Hu. apply NormalizeAndValidate_iff in H as (Hh & fs & Hfs & Hnd & ->).
  symmetry in Hp. destruct (mapM_perm _ _ _ _ Hp Hfs) as (fs2 & Hfs2 & Hp2).
  apply NormalizeAndValidate_iff. split; [unfold header_ok in *; by rewrite E1, E2, E3, E4|].
  assert ((fs ≫= Capabilities) ≡ₚ (fs2 ≫= Capabilities)) as Hpc by by apply bind_perm.
  assert (NoDup (names (fs2 ≫= Capabilities))) as Hnd2 by (unfold names; by rewrite <- Hpc).
  exists fs2. split; [done|]. split; [done|]. unfold assemble. rewrite E1, E2, E3, E4. f_equal.
  - do 3 f_equal. unfold table. apply list_to_map_proper; [|by rewrite Hpc].
    rewrite <- list_fmap_compose. exact Hnd.
  - apply (sort_permutation_invariant fragment_less); [|done].
    intros x y Hx Hy. apply Hu; cbn; by rewrite sort_elem.
Qed.

(** the comparison of HugePage pools is not an order: a pool of no NUMA
    node and a pool of some node each come before the other, so two such pools
    swap places on every normalization and have no canonical form. *)
Theorem hugepage_order_is_inconsistent capabilities m m' p q n :
  hp_NUMANodeID p = None -> hp_NUMANodeID q = Some n ->
  HugePagePools m = [p; q] \/ HugePagePools m = [q; p] ->
  normalize_memory capabilities m = Ok m' ->
  hugepage_less p q = true /\ hugepage_less q p = true
  /\ HugePagePools m' = reverse (HugePagePools m)
  /\ normalize_memory capabilities m' <> Ok m'.
Proof.
  intros Hp Hq Hm H.
  assert (hugepage_less p q = true /\ hugepage_less q p = true) as [H1 H2]
    by (unfold hugepage_less; by rewrite Hp, Hq).
  assert (p <> q) as Hne by congruence.
  assert (forall x y z w, HugePagePools x = [z; w] -> hugepage_less w z = true ->
    normalize_memory capabilities x = Ok y -> HugePagePools y = [w; z]) as Hswap.
  { intros x y z w Hx Hl Hn. unfold normalize_memory in Hn. rewrite Hx in Hn.
    apply bind_Ok_inv in Hn as ([] & _ & Hn). apply bind_Ok_inv in Hn as ([] & _ & Hn).
    apply bind_Ok_inv in Hn as ([] & _ & [= <-]). cbn. by rewrite Hl. }
  split; [done|]. split; [done|]. destruct Hm as [Hm|Hm].
  - pose proof (Hswap _ _ _ _ Hm H2 H) as Hm'. split; [by rewrite Hm', Hm|]. intros H'.
    pose proof (Hswap _ _ _ _ Hm' H1 H') as H3. rewrite Hm' in H3. congruence.
  - pose proof (Hswap _ _ _ _ Hm H1 H) as Hm'. split; [by rewrite Hm', Hm|]. intros H'.
    pose proof (Hswap _ _ _ _ Hm' H2 H') as H3. rewrite Hm' in H3. congruence.
Qed.

(** *** A concrete snapshot *)

Definition demo_source (name : string) : Source := MkSource name "1.0" "kim.inventory/v1" (sha256_hex "artifact").
Definition demo_capability (name : string) : Capability := MkCapability name "v1" AvailabilityAvailable "" [].
Definition demo_pool (node : option Z) (size : Z) : HugePagePool := MkPool node size 8 8 0 0.

Definition demo_compute : Fragment :=
  MkFragment DomainCompute (demo_source "compute")
    [MkEvidence "/threads" "/proc/cpuinfo" AvailabilityAvailable ""; MkEvidence "/model" "/proc/cpuinfo" AvailabilityAvailable ""]
    [demo_capability "kim.host.cpu-topology.v1"]
    (Some (MkCompute "x86_64" "cpu" [MkThread 1 0 0 0 true false; MkThread 0 0 0 0 true true])) None None None None None.
Definition demo_memory (pools : list HugePagePool) : Memory :=
  MkMemory 17179869184 8589934592 [MkNode 0 [1; 0] 17179869184] pools.
Definition demo_memory_fragment (pools : list HugePagePool) : Fragment :=
  MkFragment DomainMemory (demo_source "memory") [] [demo_capability "kim.host.memory.v1"]
    None (Some (demo_memory pools)) None None None None.
Definition demo_snapshot (fs : list Fragment) : Snapshot :=
  MkSnapshot SnapshotSchemaV3 "host-a" 7 "COMPLETE" [] fs.
Definition demo_fragments : list Fragment :=
  [demo_memory_fragment [demo_pool (Some 0) 1073741824; demo_pool (Some 0) 2097152]; demo_compute].

(** The value of a computation known to succeed. *)
Definition value_of {A} (r : res A) (otherwise : A) : A := match r with Ok a => a | Err _ => otherwise end.
Definition demo_normalized : Snapshot := value_of (NormalizeAndValidate (demo_snapshot demo_fragments)) (demo_snapshot []).

Lemma demo_normalizes : NormalizeAndValidate (demo_snapshot demo_fragments) = Ok demo_normalized.
Proof. vm_cast_no_check (eq_refl (NormalizeAndValidate (demo_snapshot demo_fragments))). Qed.

Lemma normalize_canonical_witness :
  NormalizeAndValidate demo_normalized = Ok demo_normalized
  /\ NoDup (names (sn_Capabilities demo_normalized)).
Proof.
  destruct (normalize_canonical (demo_snapshot demo_fragments) demo_normalized) as (H1 & _ & H2 & _).
  - exact demo_normalizes.
  - apply Forall_cons_2; [right|apply Forall_cons_2; [exact I|apply Forall_nil_2]].
    repeat (apply Forall_cons_2; [by eexists|]). apply Forall_nil_2.
  - split; assumption.
Defined.

Lemma fragment_order_irrelevant_witness :
  NormalizeAndValidate (demo_snapshot (reverse demo_fragments)) = Ok demo_normalized.
Proof.
  apply (fragment_order_irrelevant (demo_snapshot demo_fragments)); [reflexivity|reflexivity|reflexivity|reflexivity| | |].
  - apply reverse_Permutation.
  - exact demo_normalizes.
  - assert (fr_Domain <$> Fragments demo_normalized = [DomainCompute; DomainMemory]) as E by (vm_compute; reflexivity).
    destruct (Fragments demo_normalized) as [|a [|b [|]]]; try discriminate E. injection E as Ea Eb.
    intros x y Hx Hy H1 H2. rewrite !elem_of_cons, elem_of_nil in Hx, Hy.
    unfold fragment_less, less_then, less_on in H1, H2.
    destruct Hx as [->|[->|[]]], Hy as [->|[->|[]]]; try reflexivity;
      rewrite Ea, Eb in H1, H2; discriminate.
Defined.

Lemma hugepage_order_is_inconsistent_witness :
  let m := demo_memory [demo_pool None 2097152; demo_pool (Some 0) 2097152] in
  let m' := value_of (normalize_memory [] m) m in
  HugePagePools m' = reverse (HugePagePools m) /\ normalize_memory [] m' <> Ok m'.
Proof.
  intros m m'. apply (hugepage_order_is_inconsistent [] m m' (demo_pool None 2097152) (demo_pool (Some 0) 2097152) 0);
    [reflexivity|reflexivity|by left|reflexivity].
Defined.
End Inventory.
