(* ===== verification/InventoryRegistry.v ===== *)
(** * inventory/registry.go: the inventory module registry

    Modules register until the first collection seals the registry; a
    collection runs every module and normalizes their fragments into one
    snapshot.  A module is its descriptor and what its collection returns. *)

From S2P Require Import Prelude GoStd Inventory.
Local Open Scope Z_scope.
Local Open Scope go_scope.

Module Registry.
Import Inventory.

Record ModuleDescriptor := MkDescriptor {
  d_Name : string;
  d_Version : string;
  d_Domain : string;
  d_SchemaVersion : string;
  d_ArtifactDigest : string;
  CapabilityNames : list string;
}.

(** The [Module] interface; [Observe] is what this collection's call of
    [Collect] returns. *)
Record Module := MkModule { Descriptor : ModuleDescriptor; Observe : res Fragment }.

Record registry := MkRegistry { modules : gmap string Module; sealed : bool }.

Definition NewRegistry : registry := MkRegistry ∅ false.

Fixpoint check_names (seen : list string) (l : list string) : res unit :=
  match l with
  | [] => Ok tt
  | c :: rest =>
      fail_if (c ==s "") (errors_New "Host inventory capability name is required");;
      fail_if (existsb (String.eqb c) seen)
        (Errorf "duplicate Host inventory capability %s" [c]);;
      check_names (c :: seen) rest
  end.

(** [validateDescriptor] *)
Definition validateDescriptor (d : ModuleDescriptor) : res unit :=
  fail_if ((d_Name d ==s "") || (d_Version d ==s "") || (d_SchemaVersion d ==s "")
           || negb (validDigest (d_ArtifactDigest d)))
    (errors_New "complete Host inventory module descriptor is required");;
  fail_if (negb (existsb (String.eqb (d_Domain d)) knownDomains))
    (Errorf "unknown Host inventory module domain %s" [d_Domain d]);;
  fail_if (Nat.eqb (length (CapabilityNames d)) 0)
    (errors_New "Host inventory module must advertise capabilities");;
  check_names [] (CapabilityNames d).

(** [Registry.Register] *)
Definition Register (r : registry) (module : option Module) : res registry :=
  match module with
  | None => Err (errors_New "Host inventory module is required")
  | Some module =>
      let descriptor := Descriptor module in
      validateDescriptor descriptor;;
      fail_if (sealed r) (errors_New "Host inventory module registry is sealed");;
      fail_if (bool_decide (is_Some (modules r !! d_Name descriptor)))
        (Errorf "Host inventory module %s is already registered" [d_Name descriptor]);;
      Ok (MkRegistry (<[d_Name descriptor := module]> (modules r)) (sealed r))
  end.

Definition module_less : Module -> Module -> bool :=
  less_on String.ltb (fun m => d_Name (Descriptor m)).

(** [Registry.sealAndList] *)
Definition sealAndList (r : registry) : registry * res (list Module) :=
  if Nat.eqb (base.size (modules r)) 0
  then (r, Err (errors_New "at least one Host inventory module is required"))
  else (MkRegistry (modules r) true, Ok (sort_Slice module_less (snd <$> map_to_list (modules r)))).

(** [Registry.AdvertisedCapabilities] *)
Definition AdvertisedCapabilities (r : registry) : registry * res (list string) :=
  let '(r', listed) := sealAndList r in
  (r', ms ← listed;
       Ok (sort_Slice String.ltb (ms ≫= fun m => CapabilityNames (Descriptor m)))).

(** [bindDescriptor]: the source is overwritten, whatever the module set. *)
Definition bindDescriptor (f : Fragment) (d : ModuleDescriptor) : res Fragment :=
  fail_if (fr_Domain f !=s d_Domain d)
    (Errorf "Host inventory module %s returned domain %s, want %s" [d_Name d; fr_Domain f; d_Domain d]);;
  match List.find (fun c => negb (existsb (String.eqb (cap_Name c)) (CapabilityNames d))) (Capabilities f) with
  | Some c =>
      Err (Errorf "Host inventory module %s returned undeclared capability %s" [d_Name d; cap_Name c])
  | None =>
      fail_if (negb (Nat.eqb (length (Capabilities f)) (length (CapabilityNames d))))
        (Errorf "Host inventory module %s did not report every declared capability" [d_Name d]);;
      Ok (MkFragment (fr_Domain f)
            (MkSource (d_Name d) (d_Version d) (d_SchemaVersion d) (d_ArtifactDigest d))
            (Evidence f) (Capabilities f) (fr_Compute f) (fr_Memory f) (fr_PCI f) (fr_Network f)
            (fr_Storage f) (fr_Virtualization f))
  end.

(** The goroutine of one module. *)
Definition collect_one (m : Module) : res Fragment :=
  match Observe m with
  | Err err => Err (Wrapf "collect Host inventory module %s: %w" [d_Name (Descriptor m)] err)
  | Ok fragment => bindDescriptor fragment (Descriptor m)
  end.

Fixpoint failures (rs : list (res Fragment)) : list goerr :=
  match rs with [] => [] | Ok _ :: rest => failures rest | Err e :: rest => e :: failures rest end.
Fixpoint successes (rs : list (res Fragment)) : list Fragment :=
  match rs with [] => [] | Ok f :: rest => f :: successes rest | Err _ :: rest => successes rest end.

Definition collection_status (fs : list Fragment) : string :=
  if existsb (fun f => existsb (fun c => cap_State c ==s AvailabilityUnknown) (Capabilities f)) fs
  then "DEGRADED" else "COMPLETE".

(** [Registry.Collect].  The goroutines run concurrently; [first] says which of
    several failures [group.Wait] reports. *)
Definition Collect (first : goerr -> list goerr -> goerr) (r : registry) (hostID : string)
    (generation : Z) : registry * res Snapshot :=
  if (hostID ==s "") || (generation =? 0)
  then (r, Err (errors_New "Host identity and observation generation are required"))
  else
    let '(r', listed) := sealAndList r in
    (r', ms ← listed;
         let results := collect_one <$> ms in
         match failures results with
         | e :: rest => Err (first e rest)
         | [] =>
             let fragments := successes results in
             NormalizeAndValidate
               (MkSnapshot SnapshotSchemaV3 hostID generation (collection_status fragments) [] fragments)
         end).

(** ** Lemmas *)

Lemma failures_none {A} (f : A -> res Fragment) l : failures (f <$> l) = [] ->
  mapM f l = Ok (successes (f <$> l)).
Proof.
  induction l as [|x l IH]; cbn; [done|]. destruct (f x); [|done]. intros H. cbn. by rewrite IH.
Qed.

Lemma bindDescriptor_spec f d f' : bindDescriptor f d = Ok f' ->
  fr_Domain f' = d_Domain d /\ ModuleName (fr_Source f') = d_Name d
  /\ ArtifactDigest (fr_Source f') = d_ArtifactDigest d
  /\ Capabilities f' = Capabilities f
  /\ Forall (fun n => n ∈ CapabilityNames d) (names (Capabilities f))
  /\ length (Capabilities f) = length (CapabilityNames d).
Proof.
  unfold bindDescriptor. intros H. apply bind_Ok_inv in H as ([] & H1 & H).
  destruct (List.find _ _) eqn:Ef; [done|]. apply bind_Ok_inv in H as ([] & H2 & [= <-]). run_guards.
  cbn. repeat split; try done.
  - unfold names. apply Forall_fmap, Forall_forall. intros c Hc.
    apply list_elem_of_In in Hc. pose proof (List.find_none _ _ Ef c Hc) as Hn. cbn in *.
    apply negb_false_iff, existsb_exists in Hn as (x & Hx & E). apply String.eqb_eq in E. subst.
    by apply list_elem_of_In.
  - by apply Nat.eqb_eq.
Qed.

Lemma normalizeFragment_keeps f f' : normalizeFragment f = Ok f' ->
  fr_Source f' = fr_Source f /\ fr_Domain f' = fr_Domain f /\ names (Capabilities f') ≡ₚ names (Capabilities f).
Proof.
  unfold normalizeFragment. intros H.
  apply bind_Ok_inv in H as ([] & _ & H). apply bind_Ok_inv in H as ([] & _ & H).
  apply bind_Ok_inv in H as ([] & _ & H). apply bind_Ok_inv in H as (caps & Hc & H).
  assert (fr_Source f' = fr_Source f /\ fr_Domain f' = fr_Domain f
    /\ Capabilities f' = sort_Slice (less_on String.ltb cap_Name) caps) as (E1 & E2 & E3).
  { unfold normalize_domain in H. repeat case_match; try (apply bind_Ok_inv in H as (? & _ & H));
      injection H as <-; done. }
  split; [done|]. split; [done|]. rewrite E3. unfold names. rewrite sort_perm.
  apply mapM_Ok_Forall2 in Hc. clear -Hc. induction Hc as [|c c' l l' Hc _ IH]; [done|]. cbn. rewrite IH.
  unfold normalize_capability in Hc. run_guards. by subst c'.
Qed.

Lemma bind_NoDup_member {A B} (f : A -> list B) l x : NoDup (l ≫= f) -> x ∈ l -> NoDup (f x).
Proof.
  intros Hnd Hx. induction Hx as [l|y l Hx IH]; cbn in Hnd; apply NoDup_app in Hnd as (? & ? & ?); auto.
Qed.

Lemma names_bind (fs : list Fragment) : names (fs ≫= Capabilities) = fs ≫= fun f => names (Capabilities f).
Proof. unfold names. induction fs as [|f fs IH]; [done|]. cbn. by rewrite fmap_app, IH. Qed.

Lemma Forall2_source {A B} (P : A -> B -> Prop) l k y : Forall2 P l k -> y ∈ k -> exists x, x ∈ l /\ P x y.
Proof.
  induction 1 as [|x z l k Hp _ IH]; [by intros ?%elem_of_nil|].
  intros [->|Hy]%elem_of_cons; [exists x; split; [by left|done]|].
  destruct (IH Hy) as (w & ? & ?). exists w. split; [by right|done].
Qed.

(** As many distinct names as are declared, all of them declared. *)
Lemma NoDup_covers (l declared : list string) : NoDup l -> Forall (fun n => n ∈ declared) l ->
  length l = length declared -> l ≡ₚ declared.
Proof.
  intros Hnd Hin Hlen. apply submseteq_length_Permutation; [|lia].
  apply NoDup_submseteq; [done|]. by apply Forall_forall.
Qed.

(** ** Properties *)

(** a collection that succeeds reports exactly what was declared: every
    fragment comes from a registered module, under the domain and artifact
    digest that module registered, and carries each of its declared capabilities
    once and no other; the registry is sealed from then on. *)
Theorem collect_reports_declared first r hostID generation r' s :
  Collect first r hostID generation = (r', Ok s) ->
  sealed r' = true /\ modules r' = modules r
  /\ HostIdentity s = hostID /\ ObservationGeneration s = generation
  /\ length (Fragments s) = base.size (modules r)
  /\ forall f, f ∈ Fragments s -> exists m, (exists name, modules r !! name = Some m)
     /\ fr_Domain f = d_Domain (Descriptor m) /\ ModuleName (fr_Source f) = d_Name (Descriptor m)
     /\ ArtifactDigest (fr_Source f) = d_ArtifactDigest (Descriptor m)
     /\ names (Capabilities f) ≡ₚ CapabilityNames (Descriptor m).
Proof.
  unfold Collect. destruct (_ || _); [done|]. unfold sealAndList.
  destruct (Nat.eqb _ 0); [done|]. intros H.
  set (ms := sort_Slice module_less (snd <$> map_to_list (modules r))) in *.
  injection H as <- H. cbn in H.
  destruct (failures (collect_one <$> ms)) as [|e rest] eqn:Ef; [|done].
  apply failures_none in Ef. apply NormalizeAndValidate_iff in H as (_ & fs & Hfs & Hnd & ->).
  cbn in Hfs. apply mapM_Ok_Forall2 in Ef, Hfs.
  split; [done|]. split; [done|]. split; [done|]. split; [done|]. split.
  - cbn. rewrite sort_length, <- (Forall2_length _ _ _ Hfs), <- (Forall2_length _ _ _ Ef).
    unfold ms. by rewrite sort_length, length_fmap, length_map_to_list.
  - cbn. intros f Hf. rewrite sort_elem in Hf.
    destruct (Forall2_source _ _ _ _ Hfs Hf) as (g & Hg & Hn).
    destruct (Forall2_source _ _ _ _ Ef Hg) as (m & Hm & Hc).
    exists m. split.
    { unfold ms in Hm. rewrite sort_elem in Hm. apply list_elem_of_fmap in Hm as ([name m'] & -> & Hm).
      exists name. by apply elem_of_map_to_list. }
    unfold collect_one in Hc. destruct (Observe m) as [o|]; [|done].
    apply bindDescriptor_spec in Hc as (H1 & H2 & H3 & H4 & H5 & H6).
    apply normalizeFragment_keeps in Hn as (E1 & E2 & E3). rewrite E1, E2. repeat split; try done.
    rewrite names_bind in Hnd. apply bind_NoDup_member with (x := f) in Hnd; [|done].
    rewrite H4 in E3. apply NoDup_covers; [done|by rewrite E3|].
    rewrite (Permutation_length E3). unfold names. by rewrite length_fmap.
Qed.
(** *** A concrete collection *)

Definition demo_module (fragment : Fragment) : Module :=
  MkModule (MkDescriptor (ModuleName (fr_Source fragment)) "1.0" (fr_Domain fragment) "kim.inventory/v1"
    (sha256_hex "artifact") (names (Capabilities fragment))) (Ok fragment).

Definition demo_registry : registry :=
  MkRegistry (list_to_map ((fun f => (ModuleName (fr_Source f), demo_module f)) <$> demo_fragments)) false.

Definition demo_collected : registry * res Snapshot := Collect (fun e _ => e) demo_registry "host-a" 7.
Definition demo_collected_snapshot : Snapshot := value_of demo_collected.2 (demo_snapshot []).

Lemma collect_reports_declared_witness :
  sealed demo_collected.1 = true /\ HostIdentity demo_collected_snapshot = "host-a"%string.
Proof.
  destruct (collect_reports_declared (fun e _ => e) demo_registry "host-a" 7 demo_collected.1
    demo_collected_snapshot) as (H1 & _ & H2 & _).
  - vm_cast_no_check (eq_refl demo_collected).
  - split; [exact H1|exact H2].
Defined.
End Registry.
