(* ===== verification/Placement.v ===== *)
(** * placement/evaluator.go: eligibility, score and selection

    [Evaluate] compares a request with the authority snapshot of one Host and
    lists every reason against it; [Select] ranks the eligible Hosts.  Nothing
    has side effects.  All counters are [uint64]. *)

From S2P Require Import Prelude GoStd GoJson Inventory.
Local Open Scope Z_scope.
Local Open Scope go_scope.

Module Placement.

(** A nil pointer is [None]; a nil slice and an empty one are the same list. *)
Record PCIRequirement := MkPCIReq {
  pr_DeviceAddress : string; pr_PolicyID : string; pr_QualificationID : string;
  RequiredIOMMUGroup : string;
  pr_PolicyGeneration : Z; pr_QualificationRevision : Z;
  RequiredNUMANodeID : option Z;
  pr_HandoffID : string; SourceClaimID : string; SourceDeviceAddress : string; pr_SourceHostID : string;
  SourceRetirementEvidenceID : string;
  SourceAllocationGeneration : Z;
}.

Record NetworkRequirement := MkNetReq {
  nr_PortID : string; nr_NetworkID : string; nr_SubnetID : string; nr_SegmentClaimID : string;
  IPAddress : string; MACAddress : string; BindingType : string; nr_DeviceAddress : string;
  AllocationSource : string;
  nr_NetworkGeneration : Z; nr_SubnetGeneration : Z; nr_SegmentGeneration : Z;
  nr_HostMappingGeneration : Z;
  RequiredMTU : Z;
  nr_HandoffID : string; nr_SourceHostID : string; SourceQuiescenceEvidenceID : string;
  SourceQuiescenceEvidenceDigest : string;
  SourcePortGeneration : Z; SourceBindingGeneration : Z;
  DestinationPortGeneration : Z; DestinationBindingGeneration : Z;
  PortRevision : Z;
  nr_AttachmentIntentID : string;
}.

Record StorageRequirement := MkStoReq {
  sr_VolumeID : string; sr_AttachmentID : string; sr_BackendID : string; sr_VGUUID : string;
  sr_StorageClassID : string;
  CapacityAllocationID : string;
  sr_BackendGeneration : Z; sr_StorageClassRevision : Z;
  sr_CapacityGeneration : Z; AttachmentGeneration : Z;
  CapacityAllocationGeneration : Z;
  AttachmentIntentGeneration : Z;
  sr_FencingPolicyRevision : Z;
  SizeBytes : Z;
  AccessMode : string;
  Bootable : bool;
  VolumeRevision : Z;
  sr_AttachmentIntentID : string;
}.

(** [ExtraSpecs] may be a nil map, which JSON tells from an empty one. *)
Record Request := MkRequest {
  RequestID : string; ProjectID : string; WorkloadID : string; ImageID : string; FlavorID : string;
  rq_PoolID : string;
  ImageRevision : Z; FlavorRevision : Z;
  FlavorShapeDigest : string;
  VCPUs : Z; MemoryMiB : Z; RootDiskGiB : Z;
  NUMAPolicy : string; CPUAllocation : string;
  NUMANodes : option Z;
  HugePageSizeKiB : option Z;
  CPUPinning : bool;
  CatalogAccessAllowed : bool;
  ExtraSpecs : option (gmap string string);
  rq_PCI : list PCIRequirement;
  rq_Network : list NetworkRequirement;
  rq_Storage : list StorageRequirement;
}.

Record PCIDeviceAuthority := MkPCIAuth {
  pa_DeviceAddress : string; ObservationState : string; pa_RelationshipState : string;
  pa_PFAddress : string; pa_IOMMUGroup : string;
  pa_NUMANodeID : Z; pa_VFIndex : Z;
  pa_ObservationGeneration : Z;
  pa_QualificationID : string; BindingState : string; BindingProfile : string;
  pa_QualificationRevision : Z; BindingGeneration : Z;
  pa_PolicyID : string; PolicyState : string; PolicyProfile : string;
  pa_PolicyGeneration : Z;
  AssignmentQualified : bool;
  ActiveClaim : bool;
}.

Record NetworkAuthority := MkNetAuth {
  na_PortID : string; na_NetworkID : string; NetworkState : string; NetworkProjectID : string;
  na_SubnetID : string; SubnetState : string; na_SegmentClaimID : string; SegmentState : string;
  MappingState : string;
  na_NetworkGeneration : Z; na_SubnetGeneration : Z; na_SegmentGeneration : Z;
  na_HostMappingGeneration : Z;
  NetworkMTU : Z; MappingMaximumMTU : Z;
  IPAddressAllowed : bool; IdentityConflict : bool; PortConflict : bool;
  BindingSupported : bool;
  HandoffReady : bool;
}.

Record StorageAuthority := MkStoAuth {
  sa_VolumeID : string; sa_AttachmentID : string; sa_BackendID : string; BackendType : string;
  BackendState : string;
  BackendHostID : string; sa_VGUUID : string; sa_CapabilityState : string; SupportTier : string;
  sa_StorageClassID : string; StorageClassState : string; AllowedBackendType : string;
  Locality : string; CapacityState : string; HealthState : string;
  sa_BackendGeneration : Z; BackendCapabilityGeneration : Z;
  sa_StorageClassRevision : Z; sa_FencingPolicyRevision : Z;
  sa_CapacityGeneration : Z;
  sa_TotalBytes : Z; ObservedFreeBytes : Z; ExternalOrUnknownBytes : Z;
  HardReserveBytes : Z; ClaimedBytes : Z;
  SingleWriterAllowed : bool;
  ThinProvisioning : bool; EncryptionRequired : bool;
  VolumeConflict : bool; AttachmentConflict : bool;
  ResourceConsumerReady : bool;
}.

Record AuthoritySnapshot := MkAuthority {
  DatabaseMode : string;
  au_HostID : string; au_PoolID : string;
  au_PoolGeneration : Z; au_MembershipSetGeneration : Z; au_MembershipGeneration : Z;
  au_HierarchyID : string;
  au_HierarchyGeneration : Z;
  au_PoolPolicyID : string;
  au_PoolPolicyGeneration : Z;
  PoolState : string; MembershipState : string;
  au_CapabilityGeneration : Z;
  ReadinessCapabilityGeneration : Z;
  CapabilityState : string; ReadinessState : string; PreflightState : string; ComplianceState : string;
  au_BaselineAssignmentGeneration : Z; au_PreflightGeneration : Z; au_ComplianceGeneration : Z;
  au_Inventory : Inventory.Snapshot;
  ClaimedVCPUs : Z; ClaimedMemoryMiB : Z;
  ClaimedHugePages : gmap Z Z;
  PCIDevices : gmap string PCIDeviceAuthority;
  Networks : gmap string NetworkAuthority;
  au_Storage : gmap string StorageAuthority;
}.

Record RequiredClaim := MkClaim {
  cl_VCPUs : Z; cl_MemoryMiB : Z;
  cl_HugePageSizeKiB : option Z;
  HugePagePages : Z;
  cl_CPUAllocation : string;
}.

Record Evaluation := MkEvaluation {
  ev_RequestID : string; RequestDigest : string; HostID : string; PoolID : string;
  ev_ImageID : string; ev_FlavorID : string;
  ev_ImageRevision : Z; ev_FlavorRevision : Z;
  ev_FlavorShapeDigest : string;
  Eligible : bool;
  ReasonCodes : list string;
  Score : Z;
  EvaluationDigest : string;
  PoolGeneration : Z; MembershipSetGeneration : Z; MembershipGeneration : Z;
  HierarchyID : string;
  HierarchyGeneration : Z;
  PoolPolicyID : string;
  PoolPolicyGeneration : Z;
  CapabilityGeneration : Z;
  BaselineAssignmentGeneration : Z;
  PreflightGeneration : Z; ComplianceGeneration : Z;
  ev_RequiredClaim : RequiredClaim;
}.

(** ** Arithmetic *)

Definition saturatingSubtract (total used : Z) : Z := if total <=? used then 0 else total - used.

Definition saturatingAdd (left right : Z) : Z :=
  let result := u64 (left + right) in if result <? left then MaxUint64 else result.

Definition ceilDivide (value divisor : Z) : Z :=
  if divisor =? 0 then 0 else u64 (u64 (value + divisor) - 1) / divisor.

(** ** Fingerprints *)

Section Json.
Local Open Scope string_scope.

Definition JOpt {A} (f : A -> json) (o : option A) : json :=
  match o with Some a => f a | None => JNull end.
(** A nil slice is [null]; [append] to nil leaves an empty list nil. *)
Definition JList {A} (f : A -> json) (l : list A) : json :=
  match l with [] => JNull | _ => JArr (f <$> l) end.
(** A map's members in key order. *)
Definition JMap (m : gmap string string) : json :=
  JObj ((fun p => (fst p, JStr (snd p))) <$> sort_Slice (less_on String.ltb fst) (map_to_list m)).

Definition pci_json (r : PCIRequirement) : json :=
  JObj [("DeviceAddress", JStr (pr_DeviceAddress r)); ("PolicyID", JStr (pr_PolicyID r));
        ("QualificationID", JStr (pr_QualificationID r)); ("RequiredIOMMUGroup", JStr (RequiredIOMMUGroup r));
        ("PolicyGeneration", JUint (pr_PolicyGeneration r));
        ("QualificationRevision", JUint (pr_QualificationRevision r));
        ("RequiredNUMANodeID", JOpt JInt (RequiredNUMANodeID r));
        ("HandoffID", JStr (pr_HandoffID r)); ("SourceClaimID", JStr (SourceClaimID r));
        ("SourceDeviceAddress", JStr (SourceDeviceAddress r)); ("SourceHostID", JStr (pr_SourceHostID r));
        ("SourceRetirementEvidenceID", JStr (SourceRetirementEvidenceID r));
        ("SourceAllocationGeneration", JUint (SourceAllocationGeneration r))].

Definition network_json (r : NetworkRequirement) : json :=
  JObj [("PortID", JStr (nr_PortID r)); ("NetworkID", JStr (nr_NetworkID r)); ("SubnetID", JStr (nr_SubnetID r));
        ("SegmentClaimID", JStr (nr_SegmentClaimID r)); ("IPAddress", JStr (IPAddress r));
        ("MACAddress", JStr (MACAddress r)); ("BindingType", JStr (BindingType r));
        ("DeviceAddress", JStr (nr_DeviceAddress r)); ("AllocationSource", JStr (AllocationSource r));
        ("NetworkGeneration", JUint (nr_NetworkGeneration r)); ("SubnetGeneration", JUint (nr_SubnetGeneration r));
        ("SegmentGeneration", JUint (nr_SegmentGeneration r));
        ("HostMappingGeneration", JUint (nr_HostMappingGeneration r)); ("RequiredMTU", JUint (RequiredMTU r));
        ("HandoffID", JStr (nr_HandoffID r)); ("SourceHostID", JStr (nr_SourceHostID r));
        ("SourceQuiescenceEvidenceID", JStr (SourceQuiescenceEvidenceID r));
        ("SourceQuiescenceEvidenceDigest", JStr (SourceQuiescenceEvidenceDigest r));
        ("SourcePortGeneration", JUint (SourcePortGeneration r));
        ("SourceBindingGeneration", JUint (SourceBindingGeneration r));
        ("DestinationPortGeneration", JUint (DestinationPortGeneration r));
        ("DestinationBindingGeneration", JUint (DestinationBindingGeneration r));
        ("PortRevision", JUint (PortRevision r)); ("AttachmentIntentID", JStr (nr_AttachmentIntentID r))].

Definition storage_json (r : StorageRequirement) : json :=
  JObj [("VolumeID", JStr (sr_VolumeID r)); ("AttachmentID", JStr (sr_AttachmentID r));
        ("BackendID", JStr (sr_BackendID r)); ("VGUUID", JStr (sr_VGUUID r));
        ("StorageClassID", JStr (sr_StorageClassID r)); ("CapacityAllocationID", JStr (CapacityAllocationID r));
        ("BackendGeneration", JUint (sr_BackendGeneration r));
        ("StorageClassRevision", JUint (sr_StorageClassRevision r));
        ("CapacityGeneration", JUint (sr_CapacityGeneration r));
        ("AttachmentGeneration", JUint (AttachmentGeneration r));
        ("CapacityAllocationGeneration", JUint (CapacityAllocationGeneration r));
        ("AttachmentIntentGeneration", JUint (AttachmentIntentGeneration r));
        ("FencingPolicyRevision", JUint (sr_FencingPolicyRevision r)); ("SizeBytes", JUint (SizeBytes r));
        ("AccessMode", JStr (AccessMode r)); ("Bootable", JBool (Bootable r));
        ("VolumeRevision", JUint (VolumeRevision r)); ("AttachmentIntentID", JStr (sr_AttachmentIntentID r))].

Definition request_json (r : Request) : json :=
  JObj [("RequestID", JStr (RequestID r)); ("ProjectID", JStr (ProjectID r)); ("WorkloadID", JStr (WorkloadID r));
        ("ImageID", JStr (ImageID r)); ("FlavorID", JStr (FlavorID r)); ("PoolID", JStr (rq_PoolID r));
        ("ImageRevision", JUint (ImageRevision r)); ("FlavorRevision", JUint (FlavorRevision r));
        ("FlavorShapeDigest", JStr (FlavorShapeDigest r)); ("VCPUs", JUint (VCPUs r));
        ("MemoryMiB", JUint (MemoryMiB r)); ("RootDiskGiB", JUint (RootDiskGiB r));
        ("NUMAPolicy", JStr (NUMAPolicy r)); ("CPUAllocation", JStr (CPUAllocation r));
        ("NUMANodes", JOpt JUint (NUMANodes r)); ("HugePageSizeKiB", JOpt JUint (HugePageSizeKiB r));
        ("CPUPinning", JBool (CPUPinning r)); ("CatalogAccessAllowed", JBool (CatalogAccessAllowed r));
        ("ExtraSpecs", JOpt JMap (ExtraSpecs r)); ("PCI", JList pci_json (rq_PCI r));
        ("Network", JList network_json (rq_Network r)); ("Storage", JList storage_json (rq_Storage r))].

Definition claim_json (c : RequiredClaim) : json :=
  JObj [("VCPUs", JUint (cl_VCPUs c)); ("MemoryMiB", JUint (cl_MemoryMiB c));
        ("HugePageSizeKiB", JOpt JUint (cl_HugePageSizeKiB c)); ("HugePagePages", JUint (HugePagePages c));
        ("CPUAllocation", JStr (cl_CPUAllocation c))].

Definition evaluation_json (e : Evaluation) : json :=
  JObj [("RequestID", JStr (ev_RequestID e)); ("RequestDigest", JStr (RequestDigest e)); ("HostID", JStr (HostID e));
        ("PoolID", JStr (PoolID e)); ("ImageID", JStr (ev_ImageID e)); ("FlavorID", JStr (ev_FlavorID e));
        ("ImageRevision", JUint (ev_ImageRevision e)); ("FlavorRevision", JUint (ev_FlavorRevision e));
        ("FlavorShapeDigest", JStr (ev_FlavorShapeDigest e)); ("Eligible", JBool (Eligible e));
        ("ReasonCodes", JList JStr (ReasonCodes e)); ("Score", JInt (Score e));
        ("EvaluationDigest", JStr (EvaluationDigest e)); ("PoolGeneration", JUint (PoolGeneration e));
        ("MembershipSetGeneration", JUint (MembershipSetGeneration e));
        ("MembershipGeneration", JUint (MembershipGeneration e)); ("HierarchyID", JStr (HierarchyID e));
        ("HierarchyGeneration", JUint (HierarchyGeneration e)); ("PoolPolicyID", JStr (PoolPolicyID e));
        ("PoolPolicyGeneration", JUint (PoolPolicyGeneration e));
        ("CapabilityGeneration", JUint (CapabilityGeneration e));
        ("BaselineAssignmentGeneration", JUint (BaselineAssignmentGeneration e));
        ("PreflightGeneration", JUint (PreflightGeneration e));
        ("ComplianceGeneration", JUint (ComplianceGeneration e));
        ("RequiredClaim", claim_json (ev_RequiredClaim e))].
End Json.

(** [digest]; marshalling these types never fails. *)
Definition digest (j : json) : string := sha256_hex (marshal j).

(** ** Validation of a request *)

Definition pci_less : PCIRequirement -> PCIRequirement -> bool := less_on String.ltb pr_DeviceAddress.
Definition network_less : NetworkRequirement -> NetworkRequirement -> bool := less_on String.ltb nr_PortID.
Definition storage_less : StorageRequirement -> StorageRequirement -> bool := less_on String.ltb sr_VolumeID.

Definition check_pci (prev : option PCIRequirement) (r : PCIRequirement) : res unit :=
  fail_if ((pr_DeviceAddress r ==s "") || (pr_PolicyID r ==s "") || (pr_PolicyGeneration r =? 0)
           || (pr_QualificationID r ==s "") || (pr_QualificationRevision r =? 0)
           || Inventory.same_as_previous (Inventory.on_string pr_DeviceAddress) prev r)
    (Errorf "invalid or duplicate PCI requirement for device %q" [pr_DeviceAddress r]).

Definition allocation_source (r : NetworkRequirement) : string :=
  if AllocationSource r ==s "" then "EXPLICIT" else AllocationSource r.

Definition identities_valid (r : NetworkRequirement) : bool :=
  let source := allocation_source r in
  ((source ==s "EXPLICIT") && (IPAddress r !=s "") && (MACAddress r !=s ""))
  || ((source ==s "AUTOMATIC") && (IPAddress r ==s "") && (MACAddress r ==s "")).

Definition handoff_valid (r : NetworkRequirement) : bool :=
  (nr_HandoffID r ==s "")
  || ((nr_SourceHostID r !=s "") && (SourceQuiescenceEvidenceID r !=s "")
      && (len (SourceQuiescenceEvidenceDigest r) =? 64)
      && (0 <? SourcePortGeneration r) && (0 <? SourceBindingGeneration r)
      && (DestinationPortGeneration r =? u64 (SourcePortGeneration r + 1))
      && (DestinationBindingGeneration r =? u64 (SourceBindingGeneration r + 1))
      && (allocation_source r ==s "EXPLICIT")).

(** The loop over the network requirements, with the IP and MAC identities met. *)
Fixpoint check_networks (pcis : list PCIRequirement) (prev : option NetworkRequirement)
    (ips macs : list string) (l : list NetworkRequirement) : res unit :=
  match l with
  | [] => Ok tt
  | r :: rest =>
      fail_if ((nr_PortID r ==s "") || (nr_NetworkID r ==s "") || (nr_NetworkGeneration r =? 0)
               || (nr_SubnetID r ==s "") || (nr_SubnetGeneration r =? 0) || (nr_SegmentClaimID r ==s "")
               || (nr_SegmentGeneration r =? 0) || (nr_HostMappingGeneration r =? 0)
               || negb (identities_valid r) || negb (handoff_valid r) || (RequiredMTU r <? 576)
               || ((BindingType r !=s "OVS") && (BindingType r !=s "SRIOV_DIRECT"))
               || Inventory.same_as_previous (Inventory.on_string nr_PortID) prev r)
        (Errorf "invalid or duplicate Network requirement for Port %q" [nr_PortID r]);;
      fail_if ((BindingType r ==s "OVS") && (nr_DeviceAddress r !=s ""))
        (Errorf "OVS Port %q cannot request a PCI device" [nr_PortID r]);;
      fail_if ((BindingType r ==s "SRIOV_DIRECT")
               && ((nr_DeviceAddress r ==s "")
                   || negb (existsb (fun p => pr_DeviceAddress p ==s nr_DeviceAddress r) pcis)))
        (Errorf "SR-IOV Port %q requires the same qualified PCI device" [nr_PortID r]);;
      if allocation_source r ==s "EXPLICIT" then
        let ipKey := (nr_SubnetID r ++ "/" ++ IPAddress r)%string in
        let macKey := (nr_NetworkID r ++ "/" ++ MACAddress r)%string in
        fail_if (existsb (String.eqb ipKey) ips)
          (Errorf "duplicate IP identity %q in Placement request" [IPAddress r]);;
        fail_if (existsb (String.eqb macKey) macs)
          (Errorf "duplicate MAC identity %q in Placement request" [MACAddress r]);;
        check_networks pcis (Some r) (ipKey :: ips) (macKey :: macs) rest
      else check_networks pcis (Some r) ips macs rest
  end.

Definition resource_contract (r : StorageRequirement) : bool :=
  ((VolumeRevision r =? 0) && (sr_AttachmentIntentID r ==s "") && (AttachmentIntentGeneration r =? 0)
   && (CapacityAllocationID r ==s "") && (CapacityAllocationGeneration r =? 0))
  || ((0 <? VolumeRevision r) && (sr_AttachmentIntentID r !=s "") && (0 <? AttachmentIntentGeneration r)
      && (CapacityAllocationID r !=s "") && (0 <? CapacityAllocationGeneration r)).

(** The loop over the storage requirements, with the attachments met. *)
Fixpoint check_storages (prev : option StorageRequirement) (attachments : list string)
    (l : list StorageRequirement) : res unit :=
  match l with
  | [] => Ok tt
  | r :: rest =>
      fail_if ((sr_VolumeID r ==s "") || (sr_AttachmentID r ==s "") || (sr_BackendID r ==s "")
               || (sr_VGUUID r ==s "") || (sr_BackendGeneration r =? 0) || (sr_StorageClassID r ==s "")
               || (sr_StorageClassRevision r =? 0) || (sr_CapacityGeneration r =? 0)
               || (AttachmentGeneration r =? 0) || (sr_FencingPolicyRevision r =? 0) || (SizeBytes r =? 0)
               || (AccessMode r !=s "SINGLE_WRITER") || negb (resource_contract r)
               || Inventory.same_as_previous (Inventory.on_string sr_VolumeID) prev r)
        (Errorf "invalid or duplicate Storage requirement for Volume %q" [sr_VolumeID r]);;
      fail_if (existsb (String.eqb (sr_AttachmentID r)) attachments)
        (Errorf "duplicate Storage Attachment %q" [sr_AttachmentID r]);;
      check_storages (Some r) (sr_AttachmentID r :: attachments) rest
  end.

(** The request with its three lists sorted, as [Evaluate] goes on with it. *)
Definition sorted_request (r : Request) : Request :=
  MkRequest (RequestID r) (ProjectID r) (WorkloadID r) (ImageID r) (FlavorID r) (rq_PoolID r)
    (ImageRevision r) (FlavorRevision r) (FlavorShapeDigest r) (VCPUs r) (MemoryMiB r) (RootDiskGiB r)
    (NUMAPolicy r) (CPUAllocation r) (NUMANodes r) (HugePageSizeKiB r) (CPUPinning r)
    (CatalogAccessAllowed r) (ExtraSpecs r)
    (sort_Slice pci_less (rq_PCI r)) (sort_Slice network_less (rq_Network r))
    (sort_Slice storage_less (rq_Storage r)).

Definition validate_request (r : Request) : res unit :=
  Inventory.check_each check_pci None (rq_PCI r);;
  check_networks (rq_PCI r) None [] [] (rq_Network r);;
  check_storages None [] (rq_Storage r).

(** ** Capacity *)

Record hostCapacity := MkCapacity {
  hc_VCPUs : Z; IsolatedVCPUs : Z; hc_MemoryMiB : Z; ObservedAvailableMemoryMiB : Z; hc_NUMANodes : Z;
  HugePageTotal : gmap Z Z; HugePageFree : gmap Z Z;
}.

Definition zero_capacity : hostCapacity := MkCapacity 0 0 0 0 0 ∅ ∅.

(** [capabilityAvailable]: any capability of that name and state. *)
Definition capabilityAvailable (capabilities : list Inventory.Capability) (name : string) : bool :=
  existsb (fun c => (Inventory.cap_Name c ==s name)
                    && (Inventory.cap_State c ==s Inventory.AvailabilityAvailable)) capabilities.

(** [m[k] += v] on a map of [uint64]. *)
Definition add_to (m : gmap Z Z) (k v : Z) : gmap Z Z := <[k := u64 (default 0 (m !! k) + v)]> m.

Definition count_thread (c : hostCapacity) (t : Inventory.CPUThread) : hostCapacity :=
  if Inventory.Online t then
    MkCapacity (u64 (hc_VCPUs c + 1))
      (if Inventory.Isolated t then u64 (IsolatedVCPUs c + 1) else IsolatedVCPUs c)
      (hc_MemoryMiB c) (ObservedAvailableMemoryMiB c) (hc_NUMANodes c) (HugePageTotal c) (HugePageFree c)
  else c.

Definition count_pool (c : hostCapacity) (p : Inventory.HugePagePool) : hostCapacity :=
  let sizeKiB := Inventory.PageSizeBytes p / 1024 in
  MkCapacity (hc_VCPUs c) (IsolatedVCPUs c) (hc_MemoryMiB c) (ObservedAvailableMemoryMiB c) (hc_NUMANodes c)
    (add_to (HugePageTotal c) sizeKiB (Inventory.TotalPages p))
    (add_to (HugePageFree c) sizeKiB (Inventory.FreePages p)).

Definition mib : Z := 1024 * 1024.

(** One fragment of the loop of [extractCapacity]; the flags say whether CPU
    and memory topology were seen. *)
Definition count_fragment (acc : hostCapacity * bool * bool) (f : Inventory.Fragment) : hostCapacity * bool * bool :=
  let '(c, computeSeen, memorySeen) := acc in
  match Inventory.fr_Compute f with
  | Some compute =>
      if capabilityAvailable (Inventory.Capabilities f) "kim.host.cpu-topology.v1"
      then (fold_left count_thread (Inventory.Threads compute) c, true, memorySeen)
      else acc
  | None =>
      match Inventory.fr_Memory f with
      | Some memory =>
          if capabilityAvailable (Inventory.Capabilities f) "kim.host.memory.v1"
          then
            let c1 := MkCapacity (hc_VCPUs c) (IsolatedVCPUs c) (Inventory.mem_TotalBytes memory / mib)
                        (Inventory.AvailableBytes memory / mib)
                        (Z.of_nat (length (Inventory.NUMANodes memory))) (HugePageTotal c) (HugePageFree c) in
            (fold_left count_pool (Inventory.HugePagePools memory) c1, computeSeen, true)
          else acc
      | None => acc
      end
  end.

(** A reason appended when its condition holds. *)
Definition reason (condition : bool) (code : string) : list string := if condition then [code] else [].

(** [extractCapacity] *)
Definition extractCapacity (s : Inventory.Snapshot) : hostCapacity * list string :=
  let '(c, computeSeen, memorySeen) := fold_left count_fragment (Inventory.Fragments s) (zero_capacity, false, false) in
  (c, reason (negb computeSeen) "cpu_topology_unavailable"
      ++ reason (negb memorySeen) "memory_topology_unavailable").

(** ** Reasons *)

Definition authority_reasons (r : Request) (a : AuthoritySnapshot) : list string :=
  reason (DatabaseMode a !=s "ACTIVE") "database_authority_not_active"
  ++ reason ((rq_PoolID r ==s "") || (au_PoolID a !=s rq_PoolID r)) "placement_pool_mismatch"
  ++ reason (PoolState a !=s "ACTIVE") "placement_pool_not_active"
  ++ reason (MembershipState a !=s "ACTIVE") "placement_membership_not_active"
  ++ reason ((CapabilityState a !=s "CURRENT")
             || (Inventory.ObservationGeneration (au_Inventory a) !=z au_CapabilityGeneration a))
       "host_capability_not_current"
  ++ reason (ReadinessCapabilityGeneration a !=z au_CapabilityGeneration a)
       "readiness_capability_generation_stale"
  ++ reason ((ReadinessState a !=s "READY") || (PreflightState a !=s "PASSED")
             || (ComplianceState a !=s "COMPLIANT")) "host_readiness_not_eligible"
  ++ reason (negb (CatalogAccessAllowed r)) "catalog_access_denied".

Definition pci_reasons (a : AuthoritySnapshot) (r : PCIRequirement) : list string :=
  let prefix := ("pci:" ++ pr_DeviceAddress r ++ ":")%string in
  match PCIDevices a !! pr_DeviceAddress r with
  | None => [(prefix +:+ "observation_missing")]
  | Some d =>
      reason ((pa_ObservationGeneration d !=z au_CapabilityGeneration a) || (ObservationState d !=s "AVAILABLE")
              || (pa_RelationshipState d !=s "AVAILABLE") || (pa_PFAddress d ==s "") || (pa_VFIndex d <? 0))
        (prefix +:+ "observation_not_eligible")
      ++ reason ((BindingState d !=s "CURRENT") || (BindingGeneration d !=z au_CapabilityGeneration a)
                 || (pa_QualificationID d !=s pr_QualificationID r)
                 || (pa_QualificationRevision d !=z pr_QualificationRevision r) || negb (AssignmentQualified d))
           (prefix +:+ "qualification_not_current")
      ++ reason ((pa_PolicyID d !=s pr_PolicyID r) || (PolicyState d !=s "ALLOWED")
                 || (pa_PolicyGeneration d !=z pr_PolicyGeneration r) || (PolicyProfile d !=s BindingProfile d))
           (prefix +:+ "policy_not_allowed")
      ++ reason (match RequiredNUMANodeID r with Some n => pa_NUMANodeID d !=z n | None => false end)
           (prefix +:+ "numa_mismatch")
      ++ reason ((RequiredIOMMUGroup r !=s "") && (pa_IOMMUGroup d !=s RequiredIOMMUGroup r))
           (prefix +:+ "iommu_group_mismatch")
      ++ reason (ActiveClaim d) (prefix +:+ "already_claimed")
  end.

Definition network_reasons (project : string) (a : AuthoritySnapshot) (r : NetworkRequirement) : list string :=
  let prefix := ("network:" ++ nr_PortID r ++ ":")%string in
  match Networks a !! nr_PortID r with
  | None => [(prefix +:+ "authority_missing")]
  | Some n =>
      reason ((na_NetworkID n !=s nr_NetworkID r) || (NetworkProjectID n !=s project)
              || (NetworkState n !=s "ACTIVE") || (na_NetworkGeneration n !=z nr_NetworkGeneration r))
        (prefix +:+ "network_not_current")
      ++ reason ((na_SubnetID n !=s nr_SubnetID r) || (SubnetState n !=s "ACTIVE")
                 || (na_SubnetGeneration n !=z nr_SubnetGeneration r)) (prefix +:+ "subnet_not_current")
      ++ reason ((na_SegmentClaimID n !=s nr_SegmentClaimID r) || (SegmentState n !=s "ACTIVE")
                 || (na_SegmentGeneration n !=z nr_SegmentGeneration r)) (prefix +:+ "segment_not_current")
      ++ reason ((MappingState n !=s "CURRENT") || (na_HostMappingGeneration n !=z nr_HostMappingGeneration r))
           (prefix +:+ "host_mapping_not_current")
      ++ reason ((NetworkMTU n <? RequiredMTU r) || (MappingMaximumMTU n <? RequiredMTU r))
           (prefix +:+ "mtu_not_eligible")
      ++ reason (negb (IPAddressAllowed n)) (prefix +:+ "ip_not_allowed")
      ++ reason (IdentityConflict n) (prefix +:+ "identity_claim_conflict")
      ++ reason (PortConflict n) (prefix +:+ "port_conflict")
      ++ reason ((nr_HandoffID r !=s "") && negb (HandoffReady n)) (prefix +:+ "handoff_not_current")
      ++ reason (negb (BindingSupported n)) (prefix +:+ "binding_not_supported")
  end.

(** What a backend can still give a volume. *)
Definition storage_available (s : StorageAuthority) : Z :=
  let ledger := saturatingSubtract (sa_TotalBytes s) (saturatingAdd (HardReserveBytes s) (ClaimedBytes s)) in
  let observed := saturatingSubtract (ObservedFreeBytes s) (ExternalOrUnknownBytes s) in
  if observed <? ledger then observed else ledger.

Definition storage_reasons (a : AuthoritySnapshot) (r : StorageRequirement) : list string :=
  let prefix := ("storage:" ++ sr_VolumeID r ++ ":")%string in
  match au_Storage a !! sr_VolumeID r with
  | None => [(prefix +:+ "authority_missing")]
  | Some s =>
      reason ((sa_BackendID s !=s sr_BackendID r) || (BackendType s !=s "LOCAL_LVM") || (BackendState s !=s "ACTIVE")
              || (sa_BackendGeneration s !=z sr_BackendGeneration r)
              || ((SupportTier s !=s "VALIDATED") && (SupportTier s !=s "SUPPORTED")))
        (prefix +:+ "backend_not_current")
      ++ reason ((BackendHostID s !=s au_HostID a) || (sa_VGUUID s !=s sr_VGUUID r)
                 || (sa_CapabilityState s !=s "CURRENT")
                 || (BackendCapabilityGeneration s !=z au_CapabilityGeneration a))
           (prefix +:+ "locality_or_capability_not_current")
      ++ reason ((sa_StorageClassID s !=s sr_StorageClassID r)
                 || (sa_StorageClassRevision s !=z sr_StorageClassRevision r) || (StorageClassState s !=s "ACTIVE")
                 || (AllowedBackendType s !=s "LOCAL_LVM") || (Locality s !=s "HOST_LOCAL")
                 || negb (SingleWriterAllowed s) || ThinProvisioning s || EncryptionRequired s
                 || (sa_FencingPolicyRevision s !=z sr_FencingPolicyRevision r))
           (prefix +:+ "storage_class_not_current")
      ++ reason ((sa_CapacityGeneration s !=z sr_CapacityGeneration r) || (CapacityState s !=s "CURRENT")
                 || (HealthState s !=s "HEALTHY")) (prefix +:+ "capacity_not_current")
      ++ reason (storage_available s <? SizeBytes r) (prefix +:+ "insufficient_capacity")
      ++ reason (VolumeConflict s) (prefix +:+ "volume_conflict")
      ++ reason (AttachmentConflict s) (prefix +:+ "attachment_conflict")
      ++ reason ((0 <? VolumeRevision r) && negb (ResourceConsumerReady s)) (prefix +:+ "volume_resource_not_ready")
  end.

Definition available_vcpus (r : Request) (a : AuthoritySnapshot) (c : hostCapacity) : Z :=
  if CPUPinning r || (CPUAllocation r ==s "DEDICATED")
  then saturatingSubtract (IsolatedVCPUs c) (ClaimedVCPUs a)
  else saturatingSubtract (hc_VCPUs c) (ClaimedVCPUs a).

Definition available_memory (a : AuthoritySnapshot) (c : hostCapacity) : Z :=
  let ledger := saturatingSubtract (hc_MemoryMiB c) (ClaimedMemoryMiB a) in
  if ObservedAvailableMemoryMiB c <? ledger then ObservedAvailableMemoryMiB c else ledger.

Definition required_pages (r : Request) (pageSize : Z) : Z :=
  ceilDivide (u64 (MemoryMiB r * 1024)) pageSize.

Definition available_pages (a : AuthoritySnapshot) (c : hostCapacity) (pageSize : Z) : Z :=
  let ledger := saturatingSubtract (default 0 (HugePageTotal c !! pageSize))
                  (default 0 (ClaimedHugePages a !! pageSize)) in
  let free := default 0 (HugePageFree c !! pageSize) in
  if free <? ledger then free else ledger.

Definition compute_reasons (r : Request) (a : AuthoritySnapshot) (c : hostCapacity) : list string :=
  reason (available_vcpus r a c <? VCPUs r) "insufficient_vcpu_capacity"
  ++ reason (available_memory a c <? MemoryMiB r) "insufficient_memory_capacity"
  ++ (if NUMAPolicy r ==s "REQUIRED" then
        match NUMANodes r with
        | Some n => reason (hc_NUMANodes c <? n) "insufficient_numa_nodes"
        | None => []
        end
      else [])
  ++ match HugePageSizeKiB r with
     | Some pageSize =>
         reason (available_pages a c pageSize <? required_pages r pageSize) "insufficient_hugepage_capacity"
     | None => []
     end.

(** Every reason against the Host, in the order they are found. *)
Definition all_reasons (r : Request) (a : AuthoritySnapshot) : list string :=
  let '(c, capacityReasons) := extractCapacity (au_Inventory a) in
  authority_reasons r a
  ++ (rq_PCI r ≫= pci_reasons a)
  ++ (rq_Network r ≫= network_reasons (ProjectID r) a)
  ++ (rq_Storage r ≫= storage_reasons a)
  ++ capacityReasons
  ++ compute_reasons r a c.

Definition score (r : Request) (a : AuthoritySnapshot) (c : hostCapacity) : Z :=
  let remainingCPU := u64 (available_vcpus r a c - VCPUs r) in
  let remainingMemoryGiB := u64 (available_memory a c - MemoryMiB r) / 1024 in
  i64 (u64 (u64 (remainingCPU * 1000) + remainingMemoryGiB)).

(** The evaluation of a sorted request, before its digest. *)
Definition undigested (r : Request) (a : AuthoritySnapshot) : Evaluation :=
  let c := fst (extractCapacity (au_Inventory a)) in
  let reasons := sort_Slice String.ltb (all_reasons r a) in
  let eligible := Nat.eqb (length reasons) 0 in
  MkEvaluation (RequestID r) (digest (request_json r)) (au_HostID a) (au_PoolID a)
    (ImageID r) (FlavorID r) (ImageRevision r) (FlavorRevision r) (FlavorShapeDigest r)
    eligible reasons (if eligible then score r a c else 0) ""
    (au_PoolGeneration a) (au_MembershipSetGeneration a) (au_MembershipGeneration a)
    (au_HierarchyID a) (au_HierarchyGeneration a) (au_PoolPolicyID a) (au_PoolPolicyGeneration a)
    (au_CapabilityGeneration a) (au_BaselineAssignmentGeneration a) (au_PreflightGeneration a)
    (au_ComplianceGeneration a)
    (MkClaim (VCPUs r) (MemoryMiB r) (HugePageSizeKiB r)
       (match HugePageSizeKiB r with Some pageSize => required_pages r pageSize | None => 0 end)
       (CPUAllocation r)).

Definition with_digest (e : Evaluation) (d : string) : Evaluation :=
  MkEvaluation (ev_RequestID e) (RequestDigest e) (HostID e) (PoolID e) (ev_ImageID e) (ev_FlavorID e)
    (ev_ImageRevision e) (ev_FlavorRevision e) (ev_FlavorShapeDigest e) (Eligible e) (ReasonCodes e) (Score e) d
    (PoolGeneration e) (MembershipSetGeneration e) (MembershipGeneration e) (HierarchyID e)
    (HierarchyGeneration e) (PoolPolicyID e) (PoolPolicyGeneration e) (CapabilityGeneration e)
    (BaselineAssignmentGeneration e) (PreflightGeneration e) (ComplianceGeneration e) (ev_RequiredClaim e).

(** [evaluationWithoutDigest] *)
Definition evaluationWithoutDigest (e : Evaluation) : Evaluation := with_digest e "".

(** [Evaluate] *)
Definition Evaluate (request : Request) (authority : AuthoritySnapshot) : res Evaluation :=
  let r := sorted_request request in
  validate_request r;;
  let e := undigested r authority in
  Ok (with_digest e (digest (evaluation_json (evaluationWithoutDigest e)))).

(** [Select] *)
Definition selection_less : Evaluation -> Evaluation -> bool :=
  less_then (less_on Z.gtb Score) (less_on String.ltb HostID).

Definition Select (evaluations : list Evaluation) : list Evaluation :=
  sort_Slice selection_less (List.filter Eligible evaluations).

(** ** What eligibility means

    The same conditions without reason codes and in unbounded arithmetic. *)

Definition authority_admits (r : Request) (a : AuthoritySnapshot) : Prop :=
  DatabaseMode a = "ACTIVE"%string /\ rq_PoolID r <> ""%string /\ au_PoolID a = rq_PoolID r
  /\ PoolState a = "ACTIVE"%string /\ MembershipState a = "ACTIVE"%string
  /\ CapabilityState a = "CURRENT"%string
  /\ Inventory.ObservationGeneration (au_Inventory a) = au_CapabilityGeneration a
  /\ ReadinessCapabilityGeneration a = au_CapabilityGeneration a
  /\ ReadinessState a = "READY"%string /\ PreflightState a = "PASSED"%string
  /\ ComplianceState a = "COMPLIANT"%string /\ CatalogAccessAllowed r = true.

(** The device is observed now, qualified now, allowed, local, and free. *)
Definition pci_admits (a : AuthoritySnapshot) (r : PCIRequirement) : Prop :=
  exists d, PCIDevices a !! pr_DeviceAddress r = Some d
  /\ pa_ObservationGeneration d = au_CapabilityGeneration a /\ ObservationState d = "AVAILABLE"%string
  /\ pa_RelationshipState d = "AVAILABLE"%string /\ pa_PFAddress d <> ""%string /\ 0 <= pa_VFIndex d
  /\ BindingState d = "CURRENT"%string /\ BindingGeneration d = au_CapabilityGeneration a
  /\ pa_QualificationID d = pr_QualificationID r
  /\ pa_QualificationRevision d = pr_QualificationRevision r /\ AssignmentQualified d = true
  /\ pa_PolicyID d = pr_PolicyID r /\ PolicyState d = "ALLOWED"%string
  /\ pa_PolicyGeneration d = pr_PolicyGeneration r /\ PolicyProfile d = BindingProfile d
  /\ (forall n, RequiredNUMANodeID r = Some n -> pa_NUMANodeID d = n)
  /\ (RequiredIOMMUGroup r = ""%string \/ pa_IOMMUGroup d = RequiredIOMMUGroup r)
  /\ ActiveClaim d = false.

Definition network_admits (project : string) (a : AuthoritySnapshot) (r : NetworkRequirement) : Prop :=
  exists n, Networks a !! nr_PortID r = Some n
  /\ na_NetworkID n = nr_NetworkID r /\ NetworkProjectID n = project
  /\ NetworkState n = "ACTIVE"%string /\ na_NetworkGeneration n = nr_NetworkGeneration r
  /\ na_SubnetID n = nr_SubnetID r /\ SubnetState n = "ACTIVE"%string
  /\ na_SubnetGeneration n = nr_SubnetGeneration r
  /\ na_SegmentClaimID n = nr_SegmentClaimID r /\ SegmentState n = "ACTIVE"%string
  /\ na_SegmentGeneration n = nr_SegmentGeneration r
  /\ MappingState n = "CURRENT"%string /\ na_HostMappingGeneration n = nr_HostMappingGeneration r
  /\ RequiredMTU r <= NetworkMTU n /\ RequiredMTU r <= MappingMaximumMTU n
  /\ IPAddressAllowed n = true /\ IdentityConflict n = false /\ PortConflict n = false
  /\ (nr_HandoffID r = ""%string \/ HandoffReady n = true) /\ BindingSupported n = true.

(** A current, local, healthy backend whose reserve, claims and this volume
    together fit in its total, and the volume in what was seen free. *)
Definition storage_admits (a : AuthoritySnapshot) (r : StorageRequirement) : Prop :=
  exists s, au_Storage a !! sr_VolumeID r = Some s
  /\ sa_BackendID s = sr_BackendID r /\ BackendType s = "LOCAL_LVM"%string /\ BackendState s = "ACTIVE"%string
  /\ sa_BackendGeneration s = sr_BackendGeneration r
  /\ (SupportTier s = "VALIDATED"%string \/ SupportTier s = "SUPPORTED"%string)
  /\ BackendHostID s = au_HostID a /\ sa_VGUUID s = sr_VGUUID r /\ sa_CapabilityState s = "CURRENT"%string
  /\ BackendCapabilityGeneration s = au_CapabilityGeneration a
  /\ sa_StorageClassID s = sr_StorageClassID r /\ sa_StorageClassRevision s = sr_StorageClassRevision r
  /\ StorageClassState s = "ACTIVE"%string /\ AllowedBackendType s = "LOCAL_LVM"%string
  /\ Locality s = "HOST_LOCAL"%string /\ SingleWriterAllowed s = true
  /\ ThinProvisioning s = false /\ EncryptionRequired s = false
  /\ sa_FencingPolicyRevision s = sr_FencingPolicyRevision r
  /\ sa_CapacityGeneration s = sr_CapacityGeneration r /\ CapacityState s = "CURRENT"%string
  /\ HealthState s = "HEALTHY"%string
  /\ HardReserveBytes s + ClaimedBytes s + SizeBytes r <= sa_TotalBytes s
  /\ ExternalOrUnknownBytes s + SizeBytes r <= ObservedFreeBytes s
  /\ VolumeConflict s = false /\ AttachmentConflict s = false
  /\ (VolumeRevision r = 0 \/ ResourceConsumerReady s = true).

(** A claim of [wanted] fits beside the claims already made. *)
Definition fits (wanted claimed total : Z) : Prop := wanted = 0 \/ claimed + wanted <= total.

(** The number of pages that hold the request's memory. *)
Definition exact_pages (r : Request) (pageSize : Z) : Z := (MemoryMiB r * 1024 + pageSize - 1) / pageSize.

Definition cpu_pool (r : Request) (c : hostCapacity) : Z :=
  if CPUPinning r || (CPUAllocation r ==s "DEDICATED") then IsolatedVCPUs c else hc_VCPUs c.

(** A claim fits in a capacity the code extracted. *)
Definition compute_fits (r : Request) (a : AuthoritySnapshot) (c : hostCapacity) : Prop :=
  fits (VCPUs r) (ClaimedVCPUs a) (cpu_pool r c)
  /\ fits (MemoryMiB r) (ClaimedMemoryMiB a) (hc_MemoryMiB c)
  /\ MemoryMiB r <= ObservedAvailableMemoryMiB c
  /\ (forall n, NUMAPolicy r = "REQUIRED"%string -> NUMANodes r = Some n -> n <= hc_NUMANodes c)
  /\ (forall p, HugePageSizeKiB r = Some p ->
        fits (exact_pages r p) (default 0 (ClaimedHugePages a !! p)) (default 0 (HugePageTotal c !! p))
        /\ exact_pages r p <= default 0 (HugePageFree c !! p)).

(** *** What an inventory shows

    Its threads, memory and pages counted without bounds, in the fragments that
    report the topology as available *)
Definition reports (name : string) (f : Inventory.Fragment) : Prop :=
  Exists (fun c => Inventory.cap_Name c = name /\ Inventory.cap_State c = "AVAILABLE"%string) (Inventory.Capabilities f).
#[export] Instance reports_decision name f : Decision (reports name f).
Proof. unfold reports. apply _. Defined.

Definition cpu_reports (l : list Inventory.Fragment) : list Inventory.Compute := l ≫= fun f =>
  match Inventory.fr_Compute f with
  | Some compute => if decide (reports "kim.host.cpu-topology.v1" f) then [compute] else []
  | None => []
  end.
Definition memory_reports (l : list Inventory.Fragment) : list Inventory.Memory := l ≫= fun f =>
  match Inventory.fr_Compute f, Inventory.fr_Memory f with
  | None, Some memory => if decide (reports "kim.host.memory.v1" f) then [memory] else []
  | _, _ => []
  end.

Definition online (t : Inventory.CPUThread) : Prop := Inventory.Online t = true.
Definition isolated (t : Inventory.CPUThread) : Prop := Inventory.Online t = true /\ Inventory.Isolated t = true.
Definition count_of {A} (P : A -> Prop) `{forall x, Decision (P x)} (l : list A) : Z := Z.of_nat (length (filter P l)).
Definition online_vcpus (l : list Inventory.Fragment) : Z := count_of online (cpu_reports l ≫= Inventory.Threads).
Definition isolated_vcpus (l : list Inventory.Fragment) : Z := count_of isolated (cpu_reports l ≫= Inventory.Threads).

(** The memory of the last report, in MiB; the pages of one size in KiB *)
Definition last_memory (value : Inventory.Memory -> Z) (l : list Inventory.Fragment) : Z :=
  from_option value 0 (last (memory_reports l)).
Definition total_mib (m : Inventory.Memory) : Z := Inventory.mem_TotalBytes m / 1048576.
Definition available_mib (m : Inventory.Memory) : Z := Inventory.AvailableBytes m / 1048576.
Definition numa_nodes (m : Inventory.Memory) : Z := Z.of_nat (length (Inventory.NUMANodes m)).
Definition pages_of (value : Inventory.HugePagePool -> Z) (sizeKiB : Z) (l : list Inventory.HugePagePool) : Z :=
  foldr Z.add 0 (value <$> filter (fun q => Inventory.PageSizeBytes q / 1024 = sizeKiB) l).
Definition pages (value : Inventory.HugePagePool -> Z) (sizeKiB : Z) (l : list Inventory.Fragment) : Z :=
  pages_of value sizeKiB (memory_reports l ≫= Inventory.HugePagePools).

(** The counts fit in 64 bits; the code's sums of pages would wrap otherwise. *)
Definition countable (l : list Inventory.Fragment) : Prop :=
  is_u64 (online_vcpus l) /\ is_u64 (isolated_vcpus l)
  /\ forall p, is_u64 (pages Inventory.TotalPages p l) /\ is_u64 (pages Inventory.FreePages p l).

Definition topology_seen (l : list Inventory.Fragment) : Prop := cpu_reports l <> [] /\ memory_reports l <> [].

(** CPU, memory, nodes and pages beside the claims already made *)
Definition compute_admits (r : Request) (a : AuthoritySnapshot) (l : list Inventory.Fragment) : Prop :=
  (CPUPinning r = true \/ CPUAllocation r = "DEDICATED"%string -> fits (VCPUs r) (ClaimedVCPUs a) (isolated_vcpus l))
  /\ (CPUPinning r = false /\ CPUAllocation r <> "DEDICATED"%string -> fits (VCPUs r) (ClaimedVCPUs a) (online_vcpus l))
  /\ fits (MemoryMiB r) (ClaimedMemoryMiB a) (last_memory total_mib l)
  /\ MemoryMiB r <= last_memory available_mib l
  /\ (forall n, NUMAPolicy r = "REQUIRED"%string -> NUMANodes r = Some n -> n <= last_memory numa_nodes l)
  /\ (forall p, HugePageSizeKiB r = Some p ->
        fits (exact_pages r p) (default 0 (ClaimedHugePages a !! p)) (pages Inventory.TotalPages p l)
        /\ exact_pages r p <= pages Inventory.FreePages p l).

Definition host_admits (r : Request) (a : AuthoritySnapshot) : Prop :=
  authority_admits r a
  /\ Forall (pci_admits a) (rq_PCI r)
  /\ Forall (network_admits (ProjectID r) a) (rq_Network r)
  /\ Forall (storage_admits a) (rq_Storage r)
  /\ topology_seen (Inventory.Fragments (au_Inventory a))
  /\ compute_admits r a (Inventory.Fragments (au_Inventory a)).

(** Values the program's integer types can hold. *)
Definition storage_typed (s : StorageAuthority) : Prop :=
  is_u64 (sa_TotalBytes s) /\ is_u64 (ObservedFreeBytes s) /\ is_u64 (ExternalOrUnknownBytes s)
  /\ is_u64 (HardReserveBytes s) /\ is_u64 (ClaimedBytes s).

Definition inventory_typed (s : Inventory.Snapshot) : Prop :=
  Forall (fun f => match Inventory.fr_Memory f with
                   | Some m => is_u64 (Inventory.mem_TotalBytes m) /\ is_u64 (Inventory.AvailableBytes m)
                               /\ Forall (fun p => 0 <= Inventory.FreePages p) (Inventory.HugePagePools m)
                   | None => True end) (Inventory.Fragments s).

(** A HugePage size in KiB below 2^63; the sizes Linux knows are below 2^25. *)
Definition typed (r : Request) (a : AuthoritySnapshot) : Prop :=
  is_u64 (VCPUs r) /\ is_u64 (MemoryMiB r) /\ is_u64 (ClaimedVCPUs a) /\ is_u64 (ClaimedMemoryMiB a)
  /\ (forall p, HugePageSizeKiB r = Some p -> 0 < p < two63)
  /\ map_Forall (fun _ n => is_u64 n) (ClaimedHugePages a)
  /\ map_Forall (fun _ s => storage_typed s) (au_Storage a)
  /\ Forall (fun s => 0 <= VolumeRevision s) (rq_Storage r)
  /\ inventory_typed (au_Inventory a) /\ countable (Inventory.Fragments (au_Inventory a)).

(** ** Lemmas *)

Lemma reason_nil c code : reason c code = [] <-> c = false.
Proof. unfold reason. by destruct c. Qed.

Lemma app_nil_iff {A} (l k : list A) : l ++ k = [] <-> l = [] /\ k = [].
Proof. split; [apply app_eq_nil|by intros [-> ->]]. Qed.

Lemma bind_nil_iff {A B} (f : A -> list B) l : l ≫= f = [] <-> Forall (fun x => f x = []) l.
Proof.
  induction l as [|x l IH]; cbn; [by split|]. rewrite app_nil_iff, IH, Forall_cons. done.
Qed.

Lemma seqb_false a b : (a !=s b)%go = false <-> a = b.
Proof. rewrite negb_false_iff. apply String.eqb_eq. Qed.
Lemma zeqb_false a b : (a !=z b)%go = false <-> a = b.
Proof. rewrite negb_false_iff. apply Z.eqb_eq. Qed.
Lemma saturatingSubtract_le total used wanted : 0 <= wanted ->
  (saturatingSubtract total used <? wanted) = false <-> fits wanted used total.
Proof. intros. unfold saturatingSubtract, fits. destruct (Z.leb_spec total used); lia. Qed.

Lemma min_ltb a b w : ((if a <? b then a else b) <? w) = false <-> (a <? w) = false /\ (b <? w) = false.
Proof. destruct (Z.ltb_spec a b); lia. Qed.

(** An empty list of reasons, as conditions. *)
Ltac no_reasons :=
  rewrite ?app_nil_iff, ?reason_nil;
  rewrite ?orb_false_iff, ?andb_false_iff, ?seqb_false, ?zeqb_false, ?String.eqb_neq, ?negb_false_iff, ?Z.ltb_ge.

Lemma authority_reasons_nil r a : authority_reasons r a = [] <-> authority_admits r a.
Proof. unfold authority_reasons, authority_admits. no_reasons. tauto. Qed.

Lemma pci_reasons_nil a r : pci_reasons a r = [] <-> pci_admits a r.
Proof.
  unfold pci_reasons, pci_admits. destruct (PCIDevices a !! pr_DeviceAddress r) as [d|].
  2: { split; [done|]. by intros (? & ? & _). }
  no_reasons. transitivity (
    pa_ObservationGeneration d = au_CapabilityGeneration a /\ ObservationState d = "AVAILABLE"%string
    /\ pa_RelationshipState d = "AVAILABLE"%string /\ pa_PFAddress d <> ""%string /\ 0 <= pa_VFIndex d
    /\ BindingState d = "CURRENT"%string /\ BindingGeneration d = au_CapabilityGeneration a
    /\ pa_QualificationID d = pr_QualificationID r
    /\ pa_QualificationRevision d = pr_QualificationRevision r /\ AssignmentQualified d = true
    /\ pa_PolicyID d = pr_PolicyID r /\ PolicyState d = "ALLOWED"%string
    /\ pa_PolicyGeneration d = pr_PolicyGeneration r /\ PolicyProfile d = BindingProfile d
    /\ (forall n, RequiredNUMANodeID r = Some n -> pa_NUMANodeID d = n)
    /\ (RequiredIOMMUGroup r = ""%string \/ pa_IOMMUGroup d = RequiredIOMMUGroup r)
    /\ ActiveClaim d = false).
  - assert ((match RequiredNUMANodeID r with Some n => pa_NUMANodeID d !=z n | None => false end)%go = false
      <-> forall n, RequiredNUMANodeID r = Some n -> pa_NUMANodeID d = n) as ->; [|tauto].
    destruct (RequiredNUMANodeID r) as [n|]; [rewrite zeqb_false|by split].
    split; [by intros ? ? [= <-]|auto].
  - split; [eauto 30|]. intros (d' & [= <-] & H). exact H.
Qed.

Lemma network_reasons_nil project a r : network_reasons project a r = [] <-> network_admits project a r.
Proof.
  unfold network_reasons, network_admits. destruct (Networks a !! nr_PortID r) as [n|].
  2: { split; [done|]. by intros (? & ? & _). }
  no_reasons. split.
  - intros H. exists n. tauto.
  - intros (n' & [= <-] & H). tauto.
Qed.

Lemma saturatingAdd_exact x y t : is_u64 x -> is_u64 y -> is_u64 t -> forall w, 0 < w ->
  fits w (saturatingAdd x y) t <-> x + y + w <= t.
Proof.
  unfold is_u64, fits, saturatingAdd. intros Hx Hy Ht w Hw.
  destruct (Z_lt_dec (x + y) two64) as [Hlt|Hge].
  - rewrite u64_id by (unfold is_u64; lia). destruct (Z.ltb_spec (x + y) x); lia.
  - rewrite u64_wrap by lia. destruct (Z.ltb_spec (x + y - two64) x); unfold MaxUint64, two64 in *; lia.
Qed.

Lemma storage_reasons_nil a r : map_Forall (fun _ s => storage_typed s) (au_Storage a) ->
  0 < SizeBytes r -> 0 <= VolumeRevision r ->
  storage_reasons a r = [] <-> storage_admits a r.
Proof.
  intros Htyped Hsize Hrev. unfold storage_reasons, storage_admits.
  destruct (au_Storage a !! sr_VolumeID r) as [s|] eqn:Es.
  2: { split; [done|]. by intros (? & ? & _). }
  destruct (Htyped _ _ Es) as (H1 & H2 & H3 & H4 & H5).
  assert ((storage_available s <? SizeBytes r) = false <->
    HardReserveBytes s + ClaimedBytes s + SizeBytes r <= sa_TotalBytes s
    /\ ExternalOrUnknownBytes s + SizeBytes r <= ObservedFreeBytes s) as Havail.
  { unfold storage_available. rewrite min_ltb, !saturatingSubtract_le by lia.
    rewrite saturatingAdd_exact by done. unfold fits. lia. }
  assert ((0 <? VolumeRevision r) = false <-> VolumeRevision r = 0) as Hzero by lia.
  rewrite ?app_nil_iff, ?reason_nil, Havail.
  rewrite ?orb_false_iff, ?andb_false_iff, ?seqb_false, ?zeqb_false, ?negb_false_iff, Hzero. split.
  - intros H. exists s. tauto.
  - intros (s' & [= <-] & H). tauto.
Qed.

(** *** Capacity is within bounds *)

Lemma fold_left_keeps {A B} (P : B -> Prop) (f : B -> A -> B) l b :
  P b -> (forall b a, a ∈ l -> P b -> P (f b a)) -> P (fold_left f l b).
Proof.
  revert b. induction l as [|x l IH]; intros b Hb Hf; [done|]. cbn. apply IH.
  - apply Hf; [by left|done].
  - intros. apply Hf; [by right|done].
Qed.

Definition memory_bounded (c : hostCapacity) : Prop := 0 <= hc_MemoryMiB c < 17592186044416.

Lemma count_threads_memory l c : hc_MemoryMiB (fold_left count_thread l c) = hc_MemoryMiB c.
Proof.
  apply (fold_left_keeps (fun x => hc_MemoryMiB x = hc_MemoryMiB c)); [done|].
  intros b t _ H. unfold count_thread. by destruct (Inventory.Online t).
Qed.

Lemma count_pools_memory l c : hc_MemoryMiB (fold_left count_pool l c) = hc_MemoryMiB c.
Proof. by apply (fold_left_keeps (fun x => hc_MemoryMiB x = hc_MemoryMiB c)). Qed.

Lemma capacity_memory_bounded s : inventory_typed s -> memory_bounded (fst (extractCapacity s)).
Proof.
  intros Ht. unfold extractCapacity.
  assert (memory_bounded (fold_left count_fragment (Inventory.Fragments s) (zero_capacity, false, false)).1.1) as H.
  { apply (fold_left_keeps (fun acc => memory_bounded acc.1.1)); [by vm_compute|].
    intros [[c cs] ms] f Hf Hc. cbn in Hc. unfold count_fragment.
    destruct (Inventory.fr_Compute f) as [co|].
    - destruct (capabilityAvailable _ _); [|done]. cbn. unfold memory_bounded. by rewrite count_threads_memory.
    - destruct (Inventory.fr_Memory f) as [m|] eqn:Em; [|done].
      destruct (capabilityAvailable _ _); [|done]. cbn. unfold memory_bounded. rewrite count_pools_memory. cbn.
      unfold inventory_typed in Ht. rewrite Forall_forall in Ht. specialize (Ht f Hf). cbn in Ht. rewrite Em in Ht.
      destruct Ht as ([H1 H2] & _ & _). unfold mib, two64 in *. split.
      + apply Z.div_pos; lia.
      + apply Z.div_lt_upper_bound; lia. }
  destruct (fold_left _ _ _) as [[c cs] ms]. exact H.
Qed.

Lemma required_pages_exact r p c : memory_bounded c -> 0 <= MemoryMiB r <= hc_MemoryMiB c ->
  0 < p < two63 -> required_pages r p = exact_pages r p.
Proof.
  unfold memory_bounded, two63. intros Hc Hm Hp. unfold required_pages, exact_pages, ceilDivide.
  rewrite (proj2 (Z.eqb_neq p 0)) by lia.
  rewrite (u64_id (MemoryMiB r * 1024)) by (unfold is_u64, two64; lia).
  rewrite (u64_id (MemoryMiB r * 1024 + p)) by (unfold is_u64, two64; lia).
  by rewrite u64_id by (unfold is_u64, two64; lia).
Qed.

Lemma compute_reasons_nil r a c : typed r a -> memory_bounded c ->
  compute_reasons r a c = [] <-> compute_fits r a c.
Proof.
  intros (Hv & Hm & Hcv & Hcm & Hp & Hch & _) Hc. unfold compute_reasons, compute_fits.
  rewrite !app_nil_iff, !reason_nil.
  assert ((available_vcpus r a c <? VCPUs r) = false <-> fits (VCPUs r) (ClaimedVCPUs a) (cpu_pool r c)) as ->.
  { unfold available_vcpus, cpu_pool. destruct Hv. destruct (_ || _); by apply saturatingSubtract_le. }
  assert ((available_memory a c <? MemoryMiB r) = false <->
    MemoryMiB r <= ObservedAvailableMemoryMiB c /\ fits (MemoryMiB r) (ClaimedMemoryMiB a) (hc_MemoryMiB c)) as ->.
  { unfold available_memory. destruct Hm. rewrite min_ltb, saturatingSubtract_le, Z.ltb_ge by done. done. }
  assert ((if (NUMAPolicy r ==s "REQUIRED")%go then
      match NUMANodes r with Some n => reason (hc_NUMANodes c <? n) "insufficient_numa_nodes" | None => [] end
      else []) = []
    <-> (forall n, NUMAPolicy r = "REQUIRED"%string -> NUMANodes r = Some n -> n <= hc_NUMANodes c)) as ->.
  { destruct (String.eqb_spec (NUMAPolicy r) "REQUIRED"); [|by split].
    destruct (NUMANodes r) as [n|]; [|by split]. rewrite reason_nil.
    split; [intros ? ? _ [= <-]; lia|intros H; specialize (H n ltac:(done) eq_refl); lia]. }
  enough (fits (MemoryMiB r) (ClaimedMemoryMiB a) (hc_MemoryMiB c) ->
    (match HugePageSizeKiB r with
     | Some pageSize => reason (available_pages a c pageSize <? required_pages r pageSize) "insufficient_hugepage_capacity"
     | None => [] end = []
    <-> forall p, HugePageSizeKiB r = Some p ->
        fits (exact_pages r p) (default 0 (ClaimedHugePages a !! p)) (default 0 (HugePageTotal c !! p))
        /\ exact_pages r p <= default 0 (HugePageFree c !! p))) as H by tauto.
  intros Hfits. destruct (HugePageSizeKiB r) as [p|]; [|by split].
  assert (0 <= MemoryMiB r <= hc_MemoryMiB c) as Hmem.
  { unfold fits, is_u64, memory_bounded in *. lia. }
  pose proof (Hp p eq_refl) as Hpp. rewrite reason_nil, (required_pages_exact r p c) by done.
  assert (0 <= exact_pages r p) by (unfold exact_pages, memory_bounded in *; apply Z.div_pos; lia).
  unfold available_pages. rewrite min_ltb, saturatingSubtract_le by done. split.
  - intros [? ?] p' [= <-]. split; [done|lia].
  - intros H'. destruct (H' p eq_refl). split; [lia|done].
Qed.

(** *** The capacity extracted is the one the inventory shows *)

Lemma capability_reports f name : capabilityAvailable (Inventory.Capabilities f) name = true <-> reports name f.
Proof.
  unfold capabilityAvailable, reports. rewrite List.existsb_exists, Exists_exists.
  split; intros (c & Hin & H); exists c; (split; [by apply list_elem_of_In|]).
  - apply andb_prop in H as [H1 H2]. by apply String.eqb_eq in H1, H2.
  - destruct H as [-> ->]. by rewrite String.eqb_refl.
Qed.
Lemma decide_reports {A} f name (x y : A) :
  (if decide (reports name f) then x else y) = if capabilityAvailable (Inventory.Capabilities f) name then x else y.
Proof.
  pose proof (capability_reports f name) as H. destruct (capabilityAvailable _ _), (decide _); try done; exfalso; [tauto|].
  by apply H in r.
Qed.

Lemma u64_add a b : u64 (u64 a + b) = u64 (a + b).
Proof. unfold u64. by rewrite Zplus_mod_idemp_l. Qed.

Lemma count_of_cons {A} (P : A -> Prop) `{forall x, Decision (P x)} x l :
  count_of P (x :: l) = (if decide (P x) then 1 else 0) + count_of P l.
Proof. unfold count_of. rewrite filter_cons. destruct (decide (P x)); cbn [length]; lia. Qed.
Lemma count_of_app {A} (P : A -> Prop) `{forall x, Decision (P x)} l k : count_of P (l ++ k) = count_of P l + count_of P k.
Proof. unfold count_of. rewrite filter_app, length_app. lia. Qed.
Lemma pages_of_cons value p q l :
  pages_of value p (q :: l) = (if decide (Inventory.PageSizeBytes q / 1024 = p) then value q else 0) + pages_of value p l.
Proof. unfold pages_of. rewrite filter_cons. destruct (decide _); done. Qed.
Lemma pages_of_app value p l k : pages_of value p (l ++ k) = pages_of value p l + pages_of value p k.
Proof. induction l as [|q l IH]; [done|]. rewrite <- app_comm_cons, !pages_of_cons, IH. lia. Qed.

Lemma threads_counted l : forall c n m, hc_VCPUs c = u64 n -> IsolatedVCPUs c = u64 m ->
  let c' := fold_left count_thread l c in
  hc_VCPUs c' = u64 (n + count_of online l) /\ IsolatedVCPUs c' = u64 (m + count_of isolated l)
  /\ hc_MemoryMiB c' = hc_MemoryMiB c /\ ObservedAvailableMemoryMiB c' = ObservedAvailableMemoryMiB c
  /\ hc_NUMANodes c' = hc_NUMANodes c /\ HugePageTotal c' = HugePageTotal c /\ HugePageFree c' = HugePageFree c.
Proof.
  induction l as [|t l IH]; intros c n m Hn Hm; cbn [fold_left].
  { change (count_of online []) with 0. change (count_of isolated []) with 0. rewrite !Z.add_0_r. by split_and!. }
  rewrite !count_of_cons. unfold online at 1, isolated at 1.
  destruct (IH (count_thread c t) (n + (if decide (Inventory.Online t = true) then 1 else 0))
    (m + (if decide (Inventory.Online t = true /\ Inventory.Isolated t = true) then 1 else 0))) as (E1 & E2 & E3 & E4 & E5 & E6 & E7).
  - unfold count_thread. destruct (Inventory.Online t) eqn:Eo; cbn; [by rewrite Hn, u64_add|by rewrite Z.add_0_r].
  - unfold count_thread. destruct (Inventory.Online t), (Inventory.Isolated t); cbn; rewrite ?Z.add_0_r; try done. by rewrite Hm, u64_add.
  - rewrite !Z.add_assoc. split_and!; try done; unfold count_thread in *; by destruct (Inventory.Online t).
Qed.

Lemma pools_counted l : forall c (n m : Z -> Z),
  (forall p, default 0 (HugePageTotal c !! p) = u64 (n p)) -> (forall p, default 0 (HugePageFree c !! p) = u64 (m p)) ->
  let c' := fold_left count_pool l c in
  (forall p, default 0 (HugePageTotal c' !! p) = u64 (n p + pages_of Inventory.TotalPages p l))
  /\ (forall p, default 0 (HugePageFree c' !! p) = u64 (m p + pages_of Inventory.FreePages p l))
  /\ hc_VCPUs c' = hc_VCPUs c /\ IsolatedVCPUs c' = IsolatedVCPUs c /\ hc_MemoryMiB c' = hc_MemoryMiB c
  /\ ObservedAvailableMemoryMiB c' = ObservedAvailableMemoryMiB c /\ hc_NUMANodes c' = hc_NUMANodes c.
Proof.
  induction l as [|q l IH]; intros c n m Hn Hm; cbn [fold_left].
  { split_and!; try done; intros p; unfold pages_of; cbn; by rewrite Z.add_0_r. }
  assert (forall g (k v p : Z), (forall p, default 0 (g !! p) = u64 (n p)) ->
    default 0 (add_to g k v !! p) = u64 (n p + if decide (k = p) then v else 0)) as Hadd.
  { intros g k v p Hg. unfold add_to. rewrite lookup_insert. case_decide as E; [subst|by rewrite Z.add_0_r].
    cbn. by rewrite Hg, u64_add. }
  assert (forall g (k v p : Z), (forall p, default 0 (g !! p) = u64 (m p)) ->
    default 0 (add_to g k v !! p) = u64 (m p + if decide (k = p) then v else 0)) as Hadd'.
  { intros g k v p Hg. unfold add_to. rewrite lookup_insert. case_decide as E; [subst|by rewrite Z.add_0_r].
    cbn. by rewrite Hg, u64_add. }
  destruct (IH (count_pool c q) (fun p => n p + if decide (Inventory.PageSizeBytes q / 1024 = p) then Inventory.TotalPages q else 0)
    (fun p => m p + if decide (Inventory.PageSizeBytes q / 1024 = p) then Inventory.FreePages q else 0)) as (E1 & E2 & E3 & E4 & E5 & E6 & E7).
  - intros p. by apply Hadd.
  - intros p. by apply Hadd'.
  - split_and!; try done; intros p; rewrite pages_of_cons, Z.add_assoc; [apply E1|apply E2].
Qed.

(** What the loop over the fragments has counted *)
Record counted (l : list Inventory.Fragment) (acc : hostCapacity * bool * bool) : Prop := MkCounted {
  ctd_online : hc_VCPUs acc.1.1 = u64 (online_vcpus l);
  ctd_isolated : IsolatedVCPUs acc.1.1 = u64 (isolated_vcpus l);
  ctd_memory : hc_MemoryMiB acc.1.1 = last_memory total_mib l;
  ctd_available : ObservedAvailableMemoryMiB acc.1.1 = last_memory available_mib l;
  ctd_nodes : hc_NUMANodes acc.1.1 = last_memory numa_nodes l;
  ctd_total p : default 0 (HugePageTotal acc.1.1 !! p) = u64 (pages Inventory.TotalPages p l);
  ctd_free p : default 0 (HugePageFree acc.1.1 !! p) = u64 (pages Inventory.FreePages p l);
  ctd_compute : acc.1.2 = true <-> cpu_reports l <> [];
  ctd_memory_seen : acc.2 = true <-> memory_reports l <> [];
}.

Lemma reports_app l f :
  cpu_reports (l ++ [f]) = cpu_reports l ++
    match Inventory.fr_Compute f with
    | Some compute => if capabilityAvailable (Inventory.Capabilities f) "kim.host.cpu-topology.v1" then [compute] else []
    | None => []
    end
  /\ memory_reports (l ++ [f]) = memory_reports l ++
    match Inventory.fr_Compute f, Inventory.fr_Memory f with
    | None, Some memory => if capabilityAvailable (Inventory.Capabilities f) "kim.host.memory.v1" then [memory] else []
    | _, _ => []
    end.
Proof.
  unfold cpu_reports, memory_reports. rewrite !bind_app. cbn [mbind list_bind]. rewrite !app_nil_r.
  split; f_equal; destruct (Inventory.fr_Compute f); try destruct (Inventory.fr_Memory f); by rewrite ?decide_reports.
Qed.

Lemma fragment_counted l acc f : counted l acc -> counted (l ++ [f]) (count_fragment acc f).
Proof.
  destruct acc as [[c cs] ms]. intros [H1 H2 H3 H4 H5 H6 H7 H8 H9]. cbn [fst snd] in *.
  destruct (reports_app l f) as [Ec Em]. unfold count_fragment.
  destruct (Inventory.fr_Compute f) as [co|] eqn:Ef; [|destruct (Inventory.fr_Memory f) as [mem|] eqn:Eg];
    try destruct (capabilityAvailable _ _); rewrite ?app_nil_r in Ec, Em;
    try (constructor; unfold online_vcpus, isolated_vcpus, last_memory, pages; rewrite ?Ec, ?Em; done).
  - destruct (threads_counted (Inventory.Threads co) c _ _ H1 H2) as (E1 & E2 & E3 & E4 & E5 & E6 & E7).
    constructor; unfold online_vcpus, isolated_vcpus, last_memory, pages in *; cbn [fst snd]; rewrite ?Ec, ?Em, ?bind_app, ?count_of_app;
      cbn [mbind list_bind]; rewrite ?app_nil_r; try done.
    + by rewrite E3.
    + by rewrite E4.
    + by rewrite E5.
    + intros p. by rewrite E6.
    + intros p. by rewrite E7.
    + split; [|done]. intros _ [_ ?]%app_eq_nil. done.
  - set (c1 := MkCapacity _ _ _ _ _ _ _).
    destruct (pools_counted (Inventory.HugePagePools mem) c1 _ _ H6 H7) as (E1 & E2 & E3 & E4 & E5 & E6 & E7).
    constructor; unfold online_vcpus, isolated_vcpus, last_memory, pages in *; cbn [fst snd]; rewrite ?Ec, ?Em, ?bind_app, ?last_snoc;
      cbn [mbind list_bind from_option]; rewrite ?app_nil_r; try done.
    + by rewrite E3.
    + by rewrite E4.
    + intros p. by rewrite pages_of_app, E1.
    + intros p. by rewrite pages_of_app, E2.
    + split; [|done]. intros _ [_ ?]%app_eq_nil. done.
Qed.

Lemma capacity_counted l : counted l (fold_left count_fragment l (zero_capacity, false, false)).
Proof.
  induction l as [|f l IH] using rev_ind; [by constructor|]. rewrite fold_left_app. by apply fragment_counted.
Qed.

Lemma capacity_admits r a s : countable (Inventory.Fragments s) ->
  (snd (extractCapacity s) = [] <-> topology_seen (Inventory.Fragments s))
  /\ (compute_fits r a (fst (extractCapacity s)) <-> compute_admits r a (Inventory.Fragments s)).
Proof.
  intros (Hon & His & Hpages). unfold extractCapacity. destruct (capacity_counted (Inventory.Fragments s)) as [E1 E2 E3 E4 E5 E6 E7 E8 E9].
  destruct (fold_left _ _ _) as [[c cs] ms]. cbn [fst snd] in *. rewrite u64_id in E1, E2 by done. split.
  - unfold topology_seen. rewrite <- E8, <- E9, app_nil_iff, !reason_nil, !negb_false_iff. done.
  - assert (forall p, default 0 (HugePageTotal c !! p) = pages Inventory.TotalPages p (Inventory.Fragments s)
      /\ default 0 (HugePageFree c !! p) = pages Inventory.FreePages p (Inventory.Fragments s)) as Hp.
    { intros p. destruct (Hpages p). by rewrite E6, E7, !u64_id. }
    unfold compute_fits, compute_admits, cpu_pool. rewrite E1, E2, E3, E4, E5.
    assert ((forall p, HugePageSizeKiB r = Some p ->
        fits (exact_pages r p) (default 0 (ClaimedHugePages a !! p)) (default 0 (HugePageTotal c !! p))
        /\ exact_pages r p <= default 0 (HugePageFree c !! p))
      <-> forall p, HugePageSizeKiB r = Some p ->
        fits (exact_pages r p) (default 0 (ClaimedHugePages a !! p)) (pages Inventory.TotalPages p (Inventory.Fragments s))
        /\ exact_pages r p <= pages Inventory.FreePages p (Inventory.Fragments s)) as ->.
    { split; intros H p Ep; specialize (H p Ep); destruct (Hp p) as [Et Efr]; by rewrite Et, Efr in *. }
    destruct (CPUPinning r), (String.eqb_spec (CPUAllocation r) "DEDICATED"); cbn [orb]; intuition congruence.
Qed.

Lemma all_reasons_nil r a : typed r a -> Forall (fun s => 0 < SizeBytes s) (rq_Storage r) ->
  all_reasons r a = [] <-> host_admits r a.
Proof.
  intros Ht Hsize. pose proof Ht as (_ & _ & _ & _ & _ & _ & Hst & Hrev & Hinv & Hcount).
  pose proof (capacity_memory_bounded _ Hinv) as Hc. unfold all_reasons, host_admits.
  destruct (capacity_admits r a (au_Inventory a) Hcount) as [<- <-].
  destruct (extractCapacity (au_Inventory a)) as [c reasons]. cbn -[compute_reasons compute_fits] in *.
  rewrite !app_nil_iff, !bind_nil_iff, authority_reasons_nil, compute_reasons_nil by done.
  assert (Forall (fun x => storage_reasons a x = []) (rq_Storage r) <-> Forall (storage_admits a) (rq_Storage r)) as ->.
  { rewrite !Forall_forall. rewrite Forall_forall in Hsize. rewrite Forall_forall in Hrev.
    split; intros H x Hx; apply storage_reasons_nil; auto. }
  assert (Forall (fun x => pci_reasons a x = []) (rq_PCI r) <-> Forall (pci_admits a) (rq_PCI r)) as ->.
  { apply Forall_iff. intros x. apply pci_reasons_nil. }
  assert (Forall (fun x => network_reasons (ProjectID r) a x = []) (rq_Network r)
    <-> Forall (network_admits (ProjectID r) a) (rq_Network r)) as ->.
  { apply Forall_iff. intros x. apply network_reasons_nil. }
  tauto.
Qed.

Lemma check_storages_sizes prev attachments l : check_storages prev attachments l = Ok tt ->
  Forall (fun s => SizeBytes s <> 0) l.
Proof.
  revert prev attachments. induction l as [|r l IH]; intros prev attachments; [constructor|].
  cbn [check_storages]. intros H. apply bind_Ok_inv in H as ([] & H1 & H).
  apply bind_Ok_inv in H as ([] & _ & H). constructor; [|by eapply IH]. by run_guards.
Qed.

Lemma host_admits_sorted r a : host_admits (sorted_request r) a <-> host_admits r a.
Proof.
  unfold host_admits. cbn. by rewrite !sort_perm.
Qed.

Lemma Evaluate_inv r a e : Evaluate r a = Ok e ->
  validate_request (sorted_request r) = Ok tt
  /\ Eligible e = Nat.eqb (length (all_reasons (sorted_request r) a)) 0
  /\ ReasonCodes e = sort_Slice String.ltb (all_reasons (sorted_request r) a)
  /\ HostID e = au_HostID a
  /\ (Eligible e = true -> Score e = score (sorted_request r) a (fst (extractCapacity (au_Inventory a)))).
Proof.
  unfold Evaluate. intros H. apply bind_Ok_inv in H as ([] & Hv & [= <-]).
  split; [done|]. cbn. rewrite sort_length. split; [done|]. split; [done|]. split; [done|]. by intros ->.
Qed.

(** ** Properties *)


(** *** The order of requirements *)

(** No element has the key of the one before it. *)
Fixpoint adjacent_distinct {A} (key : A -> string) (prev : option A) (l : list A) : Prop :=
  match l with
  | [] => True
  | x :: rest => (forall p, prev = Some p -> key p <> key x) /\ adjacent_distinct key (Some x) rest
  end.

Lemma not_same_as_previous {A} (key : A -> string) prev x :
  Inventory.same_as_previous (Inventory.on_string key) prev x = false -> forall p, prev = Some p -> key p <> key x.
Proof.
  unfold Inventory.same_as_previous, Inventory.on_string. intros H p ->. by apply String.eqb_neq.
Qed.

Lemma check_pci_distinct l : forall prev,
  Inventory.check_each check_pci prev l = Ok tt -> adjacent_distinct pr_DeviceAddress prev l.
Proof.
  induction l as [|r l IH]; intros prev; [done|]. cbn [Inventory.check_each adjacent_distinct]. intros H.
  apply bind_Ok_inv in H as ([] & H1 & H). split; [|by apply IH].
  unfold check_pci in H1. run_guards. by apply not_same_as_previous.
Qed.

Lemma check_networks_distinct pcis l : forall prev ips macs,
  check_networks pcis prev ips macs l = Ok tt -> adjacent_distinct nr_PortID prev l.
Proof.
  induction l as [|r l IH]; intros prev ips macs; [done|]. cbn [check_networks adjacent_distinct]. intros H.
  apply bind_Ok_inv in H as ([] & H1 & H). apply bind_Ok_inv in H as ([] & _ & H).
  apply bind_Ok_inv in H as ([] & _ & H). split.
  - apply fail_if_Ok_inv, orb_false_elim in H1 as [_ H1]. by apply not_same_as_previous.
  - destruct (allocation_source r ==s "EXPLICIT")%go; [|by eapply IH].
    apply bind_Ok_inv in H as ([] & _ & H). apply bind_Ok_inv in H as ([] & _ & H). by eapply IH.
Qed.

Lemma check_storages_distinct l : forall prev attachments,
  check_storages prev attachments l = Ok tt -> adjacent_distinct sr_VolumeID prev l.
Proof.
  induction l as [|r l IH]; intros prev attachments; [done|]. cbn [check_storages adjacent_distinct]. intros H.
  apply bind_Ok_inv in H as ([] & H1 & H). apply bind_Ok_inv in H as ([] & _ & H). split; [|by eapply IH].
  apply fail_if_Ok_inv, orb_false_elim in H1 as [_ H1]. by apply not_same_as_previous.
Qed.

Lemma sorted_distinct_untied {A} (key : A -> string) l : forall prev,
  sorted_by (less_on String.ltb key) l -> adjacent_distinct key prev l -> untied (less_on String.ltb key) l.
Proof.
  intros prev Hs. revert prev. induction Hs as [|x l Hs IH Hall]; intros prev Hd.
  { by intros x y ?%elem_of_nil. }
  cbn in Hd. destruct Hd as [_ Hd]. specialize (IH _ Hd).
  assert (forall z, z ∈ l -> String.ltb (key x) (key z) = true) as Hlt.
  { intros z Hz. rewrite Forall_forall in Hall. pose proof (Hall z Hz) as Hzx. unfold less_on in Hzx.
    destruct (String.ltb (key x) (key z)) eqn:E; [done|]. pose proof (string_ltb_tie _ _ E Hzx) as Ek.
    destruct l as [|y l]; [by apply elem_of_nil in Hz|]. cbn in Hd. destruct Hd as [Hne _].
    specialize (Hne x eq_refl). apply elem_of_cons in Hz as [->|Hz]; [done|].
    inversion Hs as [|? ? _ Hall']; subst. rewrite Forall_forall in Hall'. pose proof (Hall' z Hz) as Hzy.
    pose proof (Hall y ltac:(left)) as Hyx. unfold less_on in *. rewrite <- Ek in Hzy.
    pose proof (string_ltb_tie _ _ Hzy Hyx). congruence. }
  intros a b Ha Hb H1 H2. unfold less_on in H1, H2.
  apply elem_of_cons in Ha as [->|Ha], Hb as [->|Hb]; try done.
  - rewrite (Hlt b Hb) in H1. done.
  - rewrite (Hlt a Ha) in H2. done.
  - by apply IH.
Qed.

Lemma sort_distinct_perm {A} (key : A -> string) l1 l2 :
  adjacent_distinct key None (sort_Slice (less_on String.ltb key) l1) -> l1 ≡ₚ l2 ->
  sort_Slice (less_on String.ltb key) l2 = sort_Slice (less_on String.ltb key) l1.
Proof.
  intros Hd Hp. symmetry. apply sort_permutation_invariant; [apply _| |done].
  pose proof (sorted_distinct_untied key _ None (sort_sorted _ l1) Hd) as Hu.
  intros x y Hx Hy. apply Hu; by rewrite sort_elem.
Qed.

Lemma StronglySorted_weaken {A} (P Q : A -> A -> Prop) l :
  (forall x y, P x y -> Q x y) -> StronglySorted P l -> StronglySorted Q l.
Proof.
  intros H. induction 1 as [|x l Hs IH Hall]; constructor; [done|].
  eapply Forall_impl; [exact Hall|]. intros y. apply H.
Qed.

(** A request with its requirements in another order. *)
Definition with_lists (r : Request) p n s : Request :=
  MkRequest (RequestID r) (ProjectID r) (WorkloadID r) (ImageID r) (FlavorID r) (rq_PoolID r)
    (ImageRevision r) (FlavorRevision r) (FlavorShapeDigest r) (VCPUs r) (MemoryMiB r) (RootDiskGiB r)
    (NUMAPolicy r) (CPUAllocation r) (NUMANodes r) (HugePageSizeKiB r) (CPUPinning r)
    (CatalogAccessAllowed r) (ExtraSpecs r) p n s.

(** an evaluation, digests included, does not depend on the order in which
    the request lists its device, network and storage requirements. *)
Theorem evaluation_order_irrelevant r a e p n s :
  Evaluate r a = Ok e -> rq_PCI r ≡ₚ p -> rq_Network r ≡ₚ n -> rq_Storage r ≡ₚ s ->
  Evaluate (with_lists r p n s) a = Ok e.
Proof.
  intros H Hp Hn Hs. rewrite <- H. pose proof H as Hv. apply Evaluate_inv in Hv as (Hv & _).
  assert (sorted_request (with_lists r p n s) = sorted_request r) as E.
  { unfold validate_request in Hv. apply bind_Ok_inv in Hv as ([] & H1 & Hv).
    apply bind_Ok_inv in Hv as ([] & H2 & H3). cbn in H1, H2, H3.
    apply check_pci_distinct in H1. apply check_networks_distinct in H2. apply check_storages_distinct in H3.
    unfold sorted_request. cbn. f_equal; by apply sort_distinct_perm. }
  unfold Evaluate. by rewrite E.
Qed.

(** selection is deterministic and best first: only eligible Hosts are
    returned, each once, the ranking does not depend on the order of the
    candidates, and no candidate beats an earlier one by score, nor, at the same
    score, by Host id. *)
Theorem Select_deterministic l1 l2 :
  l1 ≡ₚ l2 -> NoDup (HostID <$> l1) ->
  Select l1 = Select l2
  /\ Select l1 ≡ₚ List.filter Eligible l1
  /\ StronglySorted (fun x y => Score y < Score x
       \/ (Score y = Score x /\ String.ltb (HostID y) (HostID x) = false)) (Select l1).
Proof.
  intros Hp Hnd. unfold Select.
  assert (forall l, List.filter Eligible l = filter (fun e => Eligible e = true) l) as Hfilter.
  { induction l as [|x l IH]; [done|]. cbn [List.filter]. rewrite filter_cons, IH.
    destruct (Eligible x); by case_decide. }
  assert (StrictWeak selection_less) as Hw by (unfold selection_less; apply _).
  split; [|split].
  - apply sort_permutation_invariant; [done| |by rewrite !Hfilter, Hp].
    intros x y Hx Hy H1 H2. rewrite Hfilter in Hx, Hy.
    apply list_elem_of_filter in Hx as [_ Hx], Hy as [_ Hy].
    assert (HostID x = HostID y) as E.
    { unfold selection_less, less_then, less_on in *. apply orb_false_elim in H1 as [E1 E2], H2 as [E3 E4].
      rewrite E1, E3 in *. cbn in *. by apply string_ltb_tie. }
    clear -Hnd Hx Hy E. apply list_elem_of_lookup in Hx as [i Hi], Hy as [j Hj].
    assert (i = j) as ->; [|congruence].
    eapply NoDup_lookup; [exact Hnd| |]; rewrite list_lookup_fmap.
    + by rewrite Hi.
    + by rewrite Hj, E.
  - apply sort_perm.
  - eapply StronglySorted_weaken; [|apply (sort_sorted selection_less)]. intros x y H.
    unfold selection_less, less_then, less_on in H. apply orb_false_elim in H as [H1 H2].
    destruct (Score x >? Score y) eqn:E; cbn in H2; [left; lia|right]. split; [lia|done].
Qed.

(** *** HugePage pools *)

Definition total_pages (l : list Inventory.HugePagePool) : Z :=
  foldr (fun p acc => Inventory.TotalPages p + acc) 0 l.

Lemma total_pages_nonneg l : Forall (fun p => 0 <= Inventory.TotalPages p) l -> 0 <= total_pages l.
Proof. unfold total_pages. induction 1; cbn [foldr]; lia. Qed.

Lemma count_pools_total size l : forall c,
  Forall (fun p => Inventory.PageSizeBytes p = size) l ->
  Forall (fun p => 0 <= Inventory.TotalPages p) l ->
  0 <= default 0 (HugePageTotal c !! (size / 1024)) ->
  default 0 (HugePageTotal c !! (size / 1024)) + total_pages l < two64 ->
  default 0 (HugePageTotal (fold_left count_pool l c) !! (size / 1024))
  = default 0 (HugePageTotal c !! (size / 1024)) + total_pages l.
Proof.
  induction l as [|p l IH]; intros c Hsize Hpos Hc Hlt; [cbn; lia|].
  inversion Hsize as [|? ? Hp Hsize']; subst. inversion Hpos as [|? ? Hp0 Hpos']; subst.
  pose proof (total_pages_nonneg l Hpos'). change (total_pages (p :: l)) with (Inventory.TotalPages p + total_pages l) in *.
  assert (default 0 (HugePageTotal (count_pool c p) !! (Inventory.PageSizeBytes p / 1024))
    = default 0 (HugePageTotal c !! (Inventory.PageSizeBytes p / 1024)) + Inventory.TotalPages p) as E.
  { unfold count_pool, add_to. cbn [HugePageTotal]. rewrite lookup_insert_eq. cbn.
    apply u64_id. unfold is_u64. lia. }
  cbn [fold_left]. rewrite IH by (done || lia). lia.
Qed.

Lemma count_fragment_no_memory acc f : Inventory.fr_Memory f = None ->
  HugePageTotal (count_fragment acc f).1.1 = HugePageTotal acc.1.1.
Proof.
  intros Hm. destruct acc as [[c cs] ms]. unfold count_fragment. rewrite Hm.
  destruct (Inventory.fr_Compute f) as [co|]; [|done]. destruct (capabilityAvailable _ _); [|done]. cbn.
  apply (fold_left_keeps (fun x => HugePageTotal x = HugePageTotal c)); [done|].
  intros b t _ H. unfold count_thread. by destruct (Inventory.Online t).
Qed.

Lemma count_fragments_no_memory l acc : Forall (fun f => Inventory.fr_Memory f = None) l ->
  HugePageTotal (fold_left count_fragment l acc).1.1 = HugePageTotal acc.1.1.
Proof.
  intros H. revert acc. induction H as [|f l Hf Hl IH]; intros acc; [done|]. cbn [fold_left].
  by rewrite IH, count_fragment_no_memory.
Qed.

(** on a NUMA Host the HugePages are counted twice: Linux reports the pages
    of one size both in the Host's pool and in each node's, the collector sends
    both, and the evaluator adds them all, so the capacity it compares claims
    with is twice the pages that exist. *)
Theorem hugepages_counted_twice s pre post f m host_pool node_pools size :
  Inventory.Fragments s = pre ++ f :: post ->
  Forall (fun g => Inventory.fr_Memory g = None) (pre ++ post) ->
  Inventory.fr_Compute f = None -> Inventory.fr_Memory f = Some m ->
  capabilityAvailable (Inventory.Capabilities f) "kim.host.memory.v1" = true ->
  Inventory.HugePagePools m = host_pool :: node_pools ->
  Forall (fun p => Inventory.PageSizeBytes p = size) (host_pool :: node_pools) ->
  Forall (fun p => 0 <= Inventory.TotalPages p) (host_pool :: node_pools) ->
  total_pages node_pools = Inventory.TotalPages host_pool ->
  2 * Inventory.TotalPages host_pool < two64 ->
  default 0 (HugePageTotal (fst (extractCapacity s)) !! (size / 1024)) = 2 * Inventory.TotalPages host_pool.
Proof.
  intros Hs Hother Hco Hme Hcap Hpools Hsize Hpos Hsum Hlt. unfold extractCapacity. rewrite Hs.
  apply Forall_app in Hother as [Hpre Hpost]. rewrite fold_left_app. cbn [fold_left].
  set (acc := fold_left count_fragment pre (zero_capacity, false, false)).
  assert (HugePageTotal acc.1.1 = ∅) as Hacc by (unfold acc; by rewrite count_fragments_no_memory).
  assert (default 0 (HugePageTotal (fold_left count_fragment post (count_fragment acc f)).1.1 !! (size / 1024))
    = 2 * Inventory.TotalPages host_pool) as H.
  { rewrite count_fragments_no_memory by done. destruct acc as [[c cs] ms]. cbn in Hacc.
    unfold count_fragment. rewrite Hco, Hme, Hcap. cbn [fst]. rewrite Hpools.
    assert (total_pages (host_pool :: node_pools) = 2 * Inventory.TotalPages host_pool) as Et
      by (change (Inventory.TotalPages host_pool + total_pages node_pools = 2 * Inventory.TotalPages host_pool); lia).
    rewrite (count_pools_total size); [| done | done |cbn [HugePageTotal]; rewrite Hacc; done |].
    - cbn [HugePageTotal]. rewrite Hacc, lookup_empty. cbn [default]. rewrite Et. done.
    - cbn [HugePageTotal]. rewrite Hacc, lookup_empty. cbn [default]. rewrite Et. exact Hlt. }
  destruct (fold_left count_fragment post _) as [[c cs] ms]. exact H.
Qed.

(** *** A concrete Host and request *)

Definition demo_threads : list Inventory.CPUThread :=
  (fun i => Inventory.MkThread i i 0 0 true false) <$> [0; 1; 2; 3].
(** Sixteen 1 GiB pages, all on node 0. *)
Definition demo_pools : list Inventory.HugePagePool :=
  [Inventory.MkPool None 1073741824 16 16 0 0; Inventory.MkPool (Some 0) 1073741824 16 16 0 0].
Definition demo_compute_fragment : Inventory.Fragment :=
  Inventory.MkFragment Inventory.DomainCompute (Inventory.demo_source "compute") []
    [Inventory.demo_capability "kim.host.cpu-topology.v1"]
    (Some (Inventory.MkCompute "x86_64" "cpu" demo_threads)) None None None None None.
Definition demo_memory : Inventory.Memory :=
  Inventory.MkMemory 68719476736 68719476736 [Inventory.MkNode 0 [0; 1; 2; 3] 68719476736] demo_pools.
Definition demo_memory_fragment : Inventory.Fragment :=
  Inventory.MkFragment Inventory.DomainMemory (Inventory.demo_source "memory") []
    [Inventory.demo_capability "kim.host.memory.v1"] None (Some demo_memory) None None None None.
Definition demo_inventory : Inventory.Snapshot :=
  Inventory.MkSnapshot Inventory.SnapshotSchemaV3 "host-a" 7 "COMPLETE" [] [demo_compute_fragment; demo_memory_fragment].

Definition demo_authority (claimed : gmap Z Z) : AuthoritySnapshot :=
  MkAuthority "ACTIVE" "host-a" "pool-1" 1 1 1 "hierarchy" 1 "policy" 1 "ACTIVE" "ACTIVE" 7 7
    "CURRENT" "READY" "PASSED" "COMPLIANT" 1 1 1 demo_inventory 0 0 claimed ∅ ∅ ∅.

Definition demo_pci (address : string) : PCIRequirement :=
  MkPCIReq address "policy" "qualification" "" 1 1 None "" "" "" "" "" 0.

Definition demo_request (memory : Z) (pages : option Z) (pcis : list PCIRequirement) : Request :=
  MkRequest "request" "project" "workload" "image" "flavor" "pool-1" 1 1 "shape" 2 memory 10
    "PREFERRED" "SHARED" None pages false true None pcis [] [].

(** Sixteen pages are granted although all sixteen of the Host are claimed. *)
Example demo_overcommit :
  match Evaluate (demo_request 16384 (Some 1048576) []) (demo_authority {[ 1048576 := 16 ]}) with
  | Ok e => Eligible e = true
  | Err _ => False
  end.
Proof. vm_compute. reflexivity. Qed.

Definition demo_evaluation : Evaluation :=
  match Evaluate (demo_request 4096 (Some 1048576) []) (demo_authority ∅) with
  | Ok e => e
  | Err _ => undigested (demo_request 0 None []) (demo_authority ∅)
  end.

Lemma demo_countable : countable (Inventory.Fragments demo_inventory).
Proof.
  assert (memory_reports (Inventory.Fragments demo_inventory) = [demo_memory]) as Em by (vm_compute; reflexivity).
  split; [vm_compute; split; discriminate || reflexivity|]. split; [vm_compute; split; discriminate || reflexivity|].
  intros p. unfold pages. rewrite Em. cbn [mbind list_bind Inventory.HugePagePools demo_memory]. rewrite app_nil_r.
  unfold demo_pools. rewrite !pages_of_cons. unfold pages_of. cbn [Inventory.PageSizeBytes Inventory.TotalPages Inventory.FreePages].
  destruct (decide _); vm_compute; split; split; discriminate || reflexivity.
Qed.

Lemma demo_typed : typed (demo_request 4096 (Some 1048576) []) (demo_authority ∅).
Proof.
  unfold typed. do 4 (split; [vm_compute; split; discriminate || reflexivity|]).
  split; [intros p [= <-]; vm_compute; split; reflexivity|].
  split; [apply map_Forall_empty|]. split; [apply map_Forall_empty|]. split; [apply Forall_nil_2|].
  split; [|exact demo_countable].
  unfold inventory_typed. cbn [au_Inventory demo_authority demo_inventory Inventory.Fragments].
  apply Forall_cons_2; [exact I|]. apply Forall_cons_2; [|apply Forall_nil_2].
  cbn [Inventory.fr_Memory demo_memory_fragment]. split; [vm_compute; split; discriminate || reflexivity|].
  split; [vm_compute; split; discriminate || reflexivity|].
  repeat (apply Forall_cons_2; [vm_compute; discriminate|]). apply Forall_nil_2.
Qed.


Definition demo_two_devices : Evaluation :=
  match Evaluate (demo_request 4096 None [demo_pci "b"; demo_pci "a"]) (demo_authority ∅) with
  | Ok e => e
  | Err _ => undigested (demo_request 0 None []) (demo_authority ∅)
  end.

Lemma evaluation_order_irrelevant_witness :
  Evaluate (with_lists (demo_request 4096 None [demo_pci "b"; demo_pci "a"]) [demo_pci "a"; demo_pci "b"] [] [])
    (demo_authority ∅) = Ok demo_two_devices.
Proof.
  apply evaluation_order_irrelevant.
  - vm_cast_no_check (eq_refl (Evaluate (demo_request 4096 None [demo_pci "b"; demo_pci "a"]) (demo_authority ∅))).
  - apply perm_swap.
  - apply perm_nil.
  - apply perm_nil.
Defined.

Lemma Select_deterministic_witness :
  Select [demo_evaluation] = Select [demo_evaluation]
  /\ Select [demo_evaluation] ≡ₚ List.filter Eligible [demo_evaluation].
Proof.
  destruct (Select_deterministic [demo_evaluation] [demo_evaluation]) as (H1 & H2 & _).
  - apply Permutation_refl.
  - apply NoDup_singleton.
  - split; [exact H1|exact H2].
Defined.

Lemma hugepages_counted_twice_witness :
  default 0 (HugePageTotal (fst (extractCapacity demo_inventory)) !! (1073741824 / 1024)) = 2 * 16.
Proof.
  apply (hugepages_counted_twice demo_inventory [demo_compute_fragment] [] demo_memory_fragment demo_memory
    (Inventory.MkPool None 1073741824 16 16 0 0) [Inventory.MkPool (Some 0) 1073741824 16 16 0 0]).
  - reflexivity.
  - apply Forall_cons_2; [reflexivity|apply Forall_nil_2].
  - reflexivity.
  - reflexivity.
  - reflexivity.
  - reflexivity.
  - repeat (apply Forall_cons_2; [reflexivity|]). apply Forall_nil_2.
  - repeat (apply Forall_cons_2; [vm_compute; discriminate|]). apply Forall_nil_2.
  - reflexivity.
  - vm_compute. reflexivity.
Defined.
End Placement.
