(* ===== verification/GoTime.v ===== *)
(** * time.Time, as the program prints and reads it

    An instant is its microseconds since the epoch, the resolution of
    [timestamptz]; the process runs in UTC.  A [timestamp] is a [time.Time] by
    its clock reading and its zone, which is all that reading and writing JSON
    uses.  [parse_format] is the round trip. *)

From S2P Require Import Prelude GoStd GoJson.
Local Open Scope Z_scope.

Definition day_us : Z := 86400000000.

(** Year, month and day of a day number, by 400-year eras that start on the
    first of March. *)
Definition civil_of_days (days : Z) : Z * Z * Z :=
  let z := days + 719468 in
  let era := z / 146097 in
  let doe := z mod 146097 in
  let yoe := (doe - doe / 1460 + doe / 36524 - doe / 146096) / 365 in
  let doy := doe - (365 * yoe + yoe / 4 - yoe / 100) in
  let mp := (5 * doy + 2) / 153 in
  let month := if mp <? 10 then mp + 3 else mp - 9 in
  (yoe + era * 400 + (if month <=? 2 then 1 else 0), month, doy - (153 * mp + 2) / 5 + 1).

(** The last [width] digits of a number *)
Definition digit (z : Z) : ascii := ascii_of (48 + z mod 10).
Fixpoint fixed (width : nat) (z : Z) : list ascii :=
  match width with O => [] | S w => fixed w (z / 10) ++ [digit z] end.

(** The fraction of a second, without its trailing zeros. *)
Fixpoint drop_zeros (l : list ascii) : list ascii :=
  match l with
  | [] => []
  | a :: l' => if (a =? "0")%char then drop_zeros l' else l
  end.
Definition fraction (nanos : Z) : list ascii :=
  if nanos =? 0 then [] else "."%char :: rev (drop_zeros (rev (fixed 9 nanos))).

(** A clock reading, with the offset of its zone in minutes *)
Record timestamp := MkTime {
  t_year : Z; t_month : Z; t_day : Z; t_hour : Z; t_minute : Z; t_second : Z; t_nanos : Z; t_offset : Z;
}.

Definition utc (us : Z) : timestamp :=
  let '(year, month, day) := civil_of_days (us / day_us) in
  let t := us mod day_us in
  MkTime year month day (t / 3600000000) (t / 60000000 mod 60) (t / 1000000 mod 60) (t mod 1000000 * 1000) 0.

(** [t.Format(time.RFC3339Nano)]: a year has at least four digits. *)
Definition year_text (year : Z) : list ascii :=
  let text z := if z <=? 9999 then fixed 4 z else list_ascii_of_string (FormatUint z) in
  if year <? 0 then "-"%char :: text (- year) else text year.
Definition zone_text (offset : Z) : list ascii :=
  if offset =? 0 then ["Z"%char]
  else (if offset <? 0 then "-"%char else "+"%char)
       :: fixed 2 (Z.abs offset / 60) ++ ":"%char :: fixed 2 (Z.abs offset mod 60).
Definition clock_text (t : timestamp) : list ascii :=
  "-"%char :: fixed 2 (t_month t) ++ "-"%char :: fixed 2 (t_day t) ++ "T"%char :: fixed 2 (t_hour t)
  ++ ":"%char :: fixed 2 (t_minute t) ++ ":"%char :: fixed 2 (t_second t) ++ fraction (t_nanos t)
  ++ zone_text (t_offset t).
Definition format_time (t : timestamp) : string := string_of_list_ascii (year_text (t_year t) ++ clock_text t).
Definition RFC3339Nano (us : Z) : string := format_time (utc us).

Example epoch_text : RFC3339Nano 0 = "1970-01-01T00:00:00Z"%string. Proof. reflexivity. Qed.
Example leap_day_text : RFC3339Nano 1709210096120450 = "2024-02-29T12:34:56.12045Z"%string.
Proof. reflexivity. Qed.

(** [Time.MarshalJSON] refuses a year of more than four digits, and a zone a
    day away. *)
Definition time_json (t : timestamp) : res json :=
  fail_if ((t_year t <? 0) || (9999 <? t_year t))
    (errors_New "Time.MarshalJSON: year outside of range [0,9999]");;
  fail_if (24 <=? Z.abs (t_offset t) / 60)
    (errors_New "Time.MarshalJSON: timezone hour outside of range [0,23]");;
  Ok (JStr (format_time t)).

(** ** Reading *)

(** [getnum] and [atoi]: digits, all of them or as many as there are *)
Definition digit_value (a : ascii) : option Z :=
  let c := byte_of a in if (48 <=? c) && (c <=? 57) then Some (c - 48) else None.
Fixpoint read_fixed (width : nat) (acc : Z) (l : list ascii) : option (Z * list ascii) :=
  match width, l with
  | O, _ => Some (acc, l)
  | S w, a :: l' => v ← digit_value a; read_fixed w (10 * acc + v) l'
  | S _, [] => None
  end.
Fixpoint read_digits (l : list ascii) : list Z * list ascii :=
  match l with
  | a :: l' =>
      match digit_value a with Some v => let '(ds, rest) := read_digits l' in (v :: ds, rest) | None => ([], l) end
  | [] => ([], [])
  end.
Definition literal (a : ascii) (l : list ascii) : option (list ascii) :=
  match l with b :: l' => if (b =? a)%char then Some l' else None | [] => None end.

(** The hour may have one digit. *)
Definition read_hour (l : list ascii) : option (Z * list ascii) :=
  match l with
  | a :: b :: l' =>
      match digit_value b with Some _ => read_fixed 2 0 l | None => v ← digit_value a; Some (v, b :: l') end
  | [a] => v ← digit_value a; Some (v, [])
  | [] => None
  end.

(** A fraction of any length after [.] or [,], of which nine digits count *)
Fixpoint decimal (ds : list Z) (acc : Z) : Z := match ds with [] => acc | d :: ds' => decimal ds' (10 * acc + d) end.
Definition nanos_of (ds : list Z) : Z := let ds := firstn 9 ds in decimal ds 0 * 10 ^ (9 - Z.of_nat (length ds)).
Definition read_fraction (l : list ascii) : Z * list ascii :=
  match l with
  | a :: l' =>
      if ((a =? ".")%char || (a =? ",")%char)
      then match read_digits l' with ([], _) => (0, l) | (ds, rest) => (nanos_of ds, rest) end
      else (0, l)
  | [] => (0, l)
  end.

Definition read_zone (l : list ascii) : option (Z * list ascii) :=
  match l with
  | a :: l' =>
      if (a =? "Z")%char then Some (0, l') else
      if (a =? "+")%char || (a =? "-")%char then
        '(h, l) ← read_fixed 2 0 l'; l ← literal ":" l; '(m, l) ← read_fixed 2 0 l;
        if (24 <? h) || (60 <? m) then None
        else Some ((if (a =? "-")%char then -1 else 1) * (60 * h + m), l)
      else None
  | [] => None
  end.

Definition leap (year : Z) : bool :=
  (year mod 4 =? 0) && (negb (year mod 100 =? 0) || (year mod 400 =? 0)).
Definition days_in (year month : Z) : Z :=
  if month =? 2 then if leap year then 29 else 28
  else if existsb (Z.eqb month) [4; 6; 9; 11] then 30 else 31.
Definition valid_clock (t : timestamp) : bool :=
  (1 <=? t_month t) && (t_month t <=? 12) && (1 <=? t_day t) && (t_day t <=? days_in (t_year t) (t_month t))
  && (0 <=? t_hour t) && (t_hour t <? 24) && (0 <=? t_minute t) && (t_minute t <? 60)
  && (0 <=? t_second t) && (t_second t <? 60).

(** [time.Parse(time.RFC3339, s)], which [Time.UnmarshalJSON] falls back to *)
Definition parse_time (s : string) : option timestamp :=
  '(year, l) ← read_fixed 4 0 (list_ascii_of_string s); l ← literal "-" l;
  '(month, l) ← read_fixed 2 0 l; l ← literal "-" l;
  '(day, l) ← read_fixed 2 0 l; l ← literal "T" l;
  '(hour, l) ← read_hour l; l ← literal ":" l;
  '(minute, l) ← read_fixed 2 0 l; l ← literal ":" l;
  '(second, l) ← read_fixed 2 0 l;
  let '(nanos, l) := read_fraction l in
  '(offset, l) ← read_zone l;
  let t := MkTime year month day hour minute second nanos offset in
  match l with [] => if valid_clock t then Some t else None | _ :: _ => None end.

Definition time_field {R} (name : string) (set : timestamp -> R -> R) : field R :=
  (name, fun j r => match j with
     | JStr s => match parse_time s with Some t => Some (set t r) | None => None end
     | JNull => Some r
     | _ => None
     end).

(** The zero [time.Time] *)
Definition zero_time : timestamp := MkTime 1 1 1 0 0 0 0 0.

Example parse_zone : parse_time "2024-02-29T9:34:56,120450+05:30" = Some (MkTime 2024 2 29 9 34 56 120450000 330).
Proof. reflexivity. Qed.
Example parse_no_leap : parse_time "2023-02-29T12:34:56Z" = None. Proof. reflexivity. Qed.

(** ** The round trip *)

Ltac div_lia := Z.to_euclidean_division_equations; lia.

Lemma digit_value_digit z : digit_value (digit z) = Some (z mod 10).
Proof.
  unfold digit_value, digit. pose proof (Z.mod_pos_bound z 10 ltac:(lia)) as H.
  rewrite byte_of_ascii_of by lia. destruct ((48 <=? 48 + z mod 10) && (48 + z mod 10 <=? 57)) eqn:E; [f_equal; lia|].
  exfalso. apply andb_false_iff in E as [E|E]; bools; lia.
Qed.

Lemma read_fixed_app w : forall n acc l rest, read_fixed w acc l = Some (n, []) ->
  read_fixed w acc (l ++ rest) = Some (n, rest).
Proof.
  induction w as [|w IH]; intros n acc l rest H.
  - injection H as <- ->. done.
  - destruct l as [|a l]; [done|]. cbn in *. destruct (digit_value a) as [v|]; [|done]. by apply IH.
Qed.

Lemma read_fixed_snoc w : forall n acc l a v, read_fixed w acc l = Some (n, []) -> digit_value a = Some v ->
  read_fixed (S w) acc (l ++ [a]) = Some (10 * n + v, []).
Proof.
  induction w as [|w IH]; intros n acc l a v H Ha.
  - injection H as -> ->. cbn. by rewrite Ha.
  - destruct l as [|b l]; [done|]. cbn [read_fixed app] in *. destruct (digit_value b) as [v'|]; [|done]. cbn in *.
    by apply IH.
Qed.

Lemma read_fixed_fixed w : forall z rest, 0 <= z < 10 ^ Z.of_nat w -> read_fixed w 0 (fixed w z ++ rest) = Some (z, rest).
Proof.
  intros z rest Hz. apply read_fixed_app. revert z Hz. induction w as [|w IH]; intros z Hz.
  - cbn in *. f_equal. f_equal. lia.
  - rewrite Nat2Z.inj_succ, Z.pow_succ_r in Hz by lia. cbn [fixed].
    rewrite (read_fixed_snoc _ (z / 10) _ _ _ (z mod 10)); [by rewrite <- Z.div_mod by lia| |apply digit_value_digit].
    apply IH. pose proof (Z.pow_pos_nonneg 10 (Z.of_nat w) ltac:(lia) ltac:(lia)).
    split; [apply Z.div_pos; lia|apply Z.div_lt_upper_bound; lia].
Qed.

(** Stripping the zeros at the end of nine digits keeps their value. *)
Definition digit_values (l : list ascii) (ds : list Z) : Prop := Forall2 (fun a d => digit_value a = Some d) l ds.

Lemma digit_values_rev l ds : digit_values l ds -> digit_values (rev l) (rev ds).
Proof. unfold digit_values. intros H. rewrite !rev_alt. by apply Forall2_reverse. Qed.

Lemma read_digits_app l ds rest : digit_values l ds ->
  match rest with a :: _ => digit_value a = None | [] => True end -> read_digits (l ++ rest) = (ds, rest).
Proof.
  intros H Hr. induction H as [|a d l ds Ha H IH]; cbn.
  - destruct rest as [|a rest]; [done|]. cbn. by rewrite Hr.
  - by rewrite Ha, IH.
Qed.

Lemma decimal_app ds ds' acc : decimal (ds ++ ds') acc = decimal ds' (decimal ds acc).
Proof. revert acc. induction ds; intros; cbn; auto. Qed.

Lemma fixed_digits w : forall z, 0 <= z < 10 ^ Z.of_nat w ->
  exists ds, digit_values (fixed w z) ds /\ decimal ds 0 = z /\ length ds = w.
Proof.
  induction w as [|w IH]; intros z Hz.
  - exists []. cbn in *. split_and!; [constructor|lia|done].
  - rewrite Nat2Z.inj_succ, Z.pow_succ_r in Hz by lia.
    destruct (IH (z / 10)) as (ds & H1 & H2 & H3).
    { split; [apply Z.div_pos; lia|apply Z.div_lt_upper_bound; lia]. }
    exists (ds ++ [z mod 10]). cbn [fixed]. split_and!.
    + apply Forall2_app; [done|]. constructor; [apply digit_value_digit|constructor].
    + rewrite decimal_app, H2. cbn [decimal]. by rewrite <- Z.div_mod by lia.
    + rewrite length_app, H3. cbn. lia.
Qed.

Lemma digit_zero a d : digit_value a = Some d -> (a =? "0")%char = true -> d = 0.
Proof. intros H E. apply Ascii.eqb_eq in E as ->. cbv in H. congruence. Qed.

Lemma drop_zeros_digits l ds : digit_values l ds ->
  exists k ds', ds = replicate k 0 ++ ds' /\ digit_values (drop_zeros l) ds'.
Proof.
  induction 1 as [|a d l ds Ha H (k & ds' & -> & IH)]; cbn.
  - exists 0%nat, []. split; [done|constructor].
  - destruct (a =? "0")%char eqn:E.
    + apply (digit_zero _ _ Ha) in E as ->. by exists (S k), ds'.
    + exists 0%nat, (d :: replicate k 0 ++ ds'). split; [done|]. constructor; [done|].
      exact H.
Qed.

Lemma decimal_zeros k acc : decimal (replicate k 0) acc = acc * 10 ^ Z.of_nat k.
Proof.
  revert acc. induction k as [|k IH]; intros acc; cbn [replicate decimal]; [cbn; lia|].
  rewrite IH, Nat2Z.inj_succ, Z.pow_succ_r by lia. lia.
Qed.

Lemma read_fraction_text z rest : 0 <= z < 10 ^ 9 ->
  match rest with a :: _ => digit_value a = None /\ (a =? ".")%char = false /\ (a =? ",")%char = false | [] => True end ->
  read_fraction (fraction z ++ rest) = (z, rest).
Proof.
  intros Hz Hr. unfold fraction. destruct (z =? 0) eqn:E0.
  - apply Z.eqb_eq in E0 as ->. destruct rest as [|a rest]; [done|]. cbn. by destruct Hr as (_ & -> & ->).
  - destruct (fixed_digits 9 z Hz) as (ds & H1 & H2 & H3). apply Z.eqb_neq in E0.
    assert (digit_values (rev (fixed 9 z)) (rev ds)) as Hrev by by apply digit_values_rev.
    destruct (drop_zeros_digits _ _ Hrev) as (k & ds' & Hds & Hdrop).
    apply (f_equal (@rev Z)) in Hds. rewrite rev_involutive, rev_app_distr in Hds.
    assert (digit_values (rev (drop_zeros (rev (fixed 9 z)))) (rev ds')) as Hl by by apply digit_values_rev.
    cbn [app read_fraction]. cbn [Ascii.eqb Bool.eqb orb].
    rewrite (read_digits_app _ (rev ds')); [|done|by destruct rest; [|destruct Hr]].
    assert (rev (replicate k 0) = replicate k 0) as Hz0 by (rewrite rev_alt; apply reverse_replicate).
    rewrite Hz0 in Hds. rewrite Hds, decimal_app, decimal_zeros in H2.
    assert (length (rev ds') + k = 9)%nat as Hlen by (rewrite <- H3, Hds, length_app, length_replicate; done).
    destruct (rev ds') as [|d0 dr] eqn:Ed; [cbn in H2; lia|]. rewrite <- Ed in *.
    unfold nanos_of. rewrite firstn_all2 by lia. f_equal. rewrite <- H2. f_equal. f_equal. lia.
Qed.

(** A clock reading the parser can give back *)
Definition printable (t : timestamp) : Prop :=
  0 <= t_year t <= 9999 /\ valid_clock t = true /\ 0 <= t_nanos t < 10 ^ 9 /\ - 1440 < t_offset t < 1440.

Lemma read_zone_text z : - 1440 < z < 1440 -> read_zone (zone_text z) = Some (z, []).
Proof.
  intros Hz. unfold zone_text. destruct (z =? 0) eqn:E0; [apply Z.eqb_eq in E0 as ->; done|].
  apply Z.eqb_neq in E0.
  assert (0 <= Z.abs z / 60 <= 23) as Hh by div_lia. assert (0 <= Z.abs z mod 60 < 60) as Hm by div_lia.
  unfold read_zone. destruct (z <? 0) eqn:Es; cbn [Ascii.eqb Bool.eqb orb];
    rewrite read_fixed_fixed by (cbn; lia); cbn [mbind option_bind literal Ascii.eqb Bool.eqb];
    rewrite <- (app_nil_r (fixed 2 (Z.abs z mod 60))), read_fixed_fixed by (cbn; lia); cbn [mbind option_bind];
    rewrite (proj2 (Z.ltb_ge 24 _)), (proj2 (Z.ltb_ge 60 _)) by lia; cbn [orb]; do 2 f_equal; div_lia.
Qed.

Lemma read_hour_text z rest : 0 <= z < 24 -> read_hour (fixed 2 z ++ rest) = Some (z, rest).
Proof.
  intros Hz. pose proof (read_fixed_fixed 2 z rest ltac:(cbn; lia)) as H. cbn [fixed app] in *.
  unfold read_hour. rewrite digit_value_digit. exact H.
Qed.

Lemma parse_format t : printable t -> parse_time (format_time t) = Some t.
Proof.
  intros (Hy & Hv & Hn & Ho). pose proof Hv as Hb. unfold valid_clock in Hb. bools.
  assert (t_day t <= 31).
  { unfold days_in in *. destruct (t_month t =? 2); [destruct (leap (t_year t))|destruct (existsb _ _)]; lia. }
  unfold parse_time, format_time.
  rewrite list_ascii_of_string_of_list_ascii. unfold year_text.
  rewrite (proj2 (Z.ltb_ge _ 0)), (proj2 (Z.leb_le _ 9999)) by lia. unfold clock_text.
  rewrite read_fixed_fixed by (cbn; lia); cbn [mbind option_bind literal Ascii.eqb Bool.eqb].
  rewrite read_fixed_fixed by (cbn; lia); cbn [mbind option_bind literal Ascii.eqb Bool.eqb].
  rewrite read_fixed_fixed by (cbn; lia); cbn [mbind option_bind literal Ascii.eqb Bool.eqb].
  rewrite read_hour_text by lia; cbn [mbind option_bind literal Ascii.eqb Bool.eqb].
  rewrite read_fixed_fixed by (cbn; lia); cbn [mbind option_bind literal Ascii.eqb Bool.eqb].
  rewrite read_fixed_fixed by (cbn; lia); cbn [mbind option_bind literal Ascii.eqb Bool.eqb].
  rewrite read_fraction_text; [|done|].
  - rewrite read_zone_text by done. cbn [mbind option_bind]. destruct t; cbn in *. by rewrite Hv.
  - unfold zone_text. destruct (_ =? 0); [done|]. by destruct (_ <? 0).
Qed.

(** Every instant has a valid reading. *)
Lemma year_of_era doe : 0 <= doe < 146097 ->
  let yoe := (doe - doe / 1460 + doe / 36524 - doe / 146096) / 365 in
  let doy := doe - (365 * yoe + yoe / 4 - yoe / 100) in
  0 <= yoe <= 399 /\ 0 <= doy <= 365 /\ (doy = 365 -> leap (yoe + 1) = true).
Proof.
  intros H yoe doy. assert (0 <= yoe <= 399) as Hy by (subst yoe; div_lia).
  assert (yoe = (doe - doe / 1460 + doe / 36524 - doe / 146096) / 365) as E by reflexivity.
  subst doy. clearbody yoe. split_and!; [lia|lia|div_lia..|].
  intros D. unfold leap. assert ((yoe + 1) mod 4 = 0) as H4 by (div_lia).
  rewrite H4. cbn [Z.eqb andb]. destruct (Z.eq_dec yoe 399) as [->|Hne]; [done|].
  assert ((yoe + 1) mod 100 <> 0) as H100 by (div_lia).
  apply Z.eqb_neq in H100. by rewrite H100.
Qed.

Lemma leap_era year era : leap (year + era * 400) = leap year.
Proof.
  unfold leap. replace (era * 400) with (era * 100 * 4) at 1 by lia. rewrite Z.mod_add by lia.
  replace (era * 400) with (era * 4 * 100) at 1 by lia. by rewrite !Z.mod_add by lia.
Qed.

(** Evaluate the tests between numbers. *)
Ltac eval_tests :=
  cbn [existsb]; repeat match goal with
  | |- context [?x <? ?y] => let v := eval vm_compute in (x <? y) in
      first [constr_eq v true|constr_eq v false]; change (x <? y) with v; cbv iota
  | |- context [?x =? ?y] => let v := eval vm_compute in (x =? y) in
      first [constr_eq v true|constr_eq v false]; change (x =? y) with v; cbv iota
  end.

Lemma civil_valid days : let '(year, month, day) := civil_of_days days in
  1 <= month <= 12 /\ 1 <= day <= days_in year month.
Proof.
  unfold civil_of_days. pose proof (Z.mod_pos_bound (days + 719468) 146097 ltac:(lia)) as Hdoe.
  destruct (year_of_era _ Hdoe) as (Hy & Hd & Hl).
  set (doe := (days + 719468) mod 146097) in *. set (era := (days + 719468) / 146097).
  set (yoe := (doe - doe / 1460 + doe / 36524 - doe / 146096) / 365) in *.
  set (doy := doe - (365 * yoe + yoe / 4 - yoe / 100)) in *. cbv zeta. clearbody yoe era. clearbody doy. clear Hdoe doe.
  assert (0 <= (5 * doy + 2) / 153 <= 11) as Hm by div_lia.
  set (mp := (5 * doy + 2) / 153) in *.
  assert (forall year, (doy = 365 -> leap year = true) ->
    1 <= doy - (153 * mp + 2) / 5 + 1 <= days_in year (if mp <? 10 then mp + 3 else mp - 9)) as H.
  { intros year Hleap. unfold days_in.
    assert (mp = 0 \/ mp = 1 \/ mp = 2 \/ mp = 3 \/ mp = 4 \/ mp = 5 \/ mp = 6 \/ mp = 7 \/ mp = 8 \/ mp = 9 \/ mp = 10
      \/ mp = 11) as Hc by lia.
    repeat destruct Hc as [Hc|Hc]; rewrite Hc; eval_tests; cbn [orb existsb]; subst mp; try div_lia.
    destruct (leap year); [div_lia|]. destruct (Z.eq_dec doy 365) as [->|]; [by specialize (Hleap eq_refl)|div_lia]. }
  split; [destruct (mp <? 10) eqn:E; lia|]. destruct (mp <? 10) eqn:E.
  - apply H. intros ->. subst mp. cbn in E. discriminate.
  - replace ((if mp - 9 <=? 2 then 1 else 0)) with 1 by (destruct (mp - 9 <=? 2) eqn:E2; lia).
    apply H. intros D. rewrite <- (Hl D). replace (yoe + era * 400 + 1) with (yoe + 1 + era * 400) by lia.
    apply leap_era.
Qed.

Lemma utc_printable us : 0 <= t_year (utc us) <= 9999 -> printable (utc us).
Proof.
  unfold utc, printable, valid_clock. pose proof (civil_valid (us / day_us)) as H.
  destruct (civil_of_days _) as [[year month] day]. cbn. intros Hy. unfold day_us in *.
  pose proof (Z.mod_pos_bound us 86400000000 ltac:(lia)).
  split_and!; try done; try div_lia.
Qed.
