(* ===== verification/GoFloat.v ===== *)
(** * float64, as a decoded JSON number

    A number decoded into [any] is a float64, and writing it again prints the
    shortest decimal that reads back as it.  A literal is read exactly, as a
    fraction, and rounded to 53 bits, ties to even ([strconv.ParseFloat]); the
    digits are the first of 1 to 17 that read back ([strconv.FormatFloat] with
    precision -1), in the notation [encoding/json] chooses. *)

From S2P Require Import Prelude GoStd GoJson GoTime.
Local Open Scope Z_scope.
Local Open Scope go_scope.

(** ** Reading *)

(** A double [significand * 2^exponent], without its sign. *)
Record double := MkDouble { significand : Z; exponent : Z }.

(** A decimal [digits * 10^ten]. *)
Record decimal := MkDecimal { negative : bool; digits : Z; ten : Z }.

Definition digit_value (a : ascii) : Z := byte_of a - 48.
Definition digits_value (l : list ascii) : Z := fold_left (fun z a => z * 10 + digit_value a) l 0.

(** An exponent part, after the [e] *)
Definition exponent_value (l : list ascii) : Z :=
  match l with
  | [] => 0
  | a :: l' =>
      if (a =? "-")%char then - digits_value l'
      else if (a =? "+")%char then digits_value l' else digits_value l
  end.

(** The value of a valid JSON number literal *)
Definition read_decimal (literal : string) : decimal :=
  let l := list_ascii_of_string literal in
  let '(neg, l) := match l with
                   | a :: l' => if (a =? "-")%char then (true, l') else (false, l)
                   | [] => (false, l)
                   end in
  let '(whole, l) := span is_digit l in
  let '(fraction, l) := match l with
                        | a :: l' => if (a =? ".")%char then span is_digit l' else ([], l)
                        | [] => ([], l)
                        end in
  let e := match l with _ :: l' => exponent_value l' | [] => 0 end in
  MkDecimal neg (digits_value (whole ++ fraction)) (e - Z.of_nat (length fraction)).

(** [num / den], rounded to the nearest integer, ties to even *)
Definition round_even (num den : Z) : Z :=
  let q := num / den in
  let r := num mod den in
  if (2 * r <? den) || ((2 * r =? den) && Z.even q) then q else q + 1.

(** [num / den] scaled by [2^-x] *)
Definition scaled (num den x : Z) : Z * Z :=
  if x <? 0 then (num * 2 ^ (- x), den) else (num, den * 2 ^ x).

(** The double nearest to [num / den], or [None] when it overflows *)
Definition nearest (num den : Z) : option double :=
  if num =? 0 then Some (MkDouble 0 0)
  else
    let e := Z.log2 num - Z.log2 den in
    let e := let '(n, d) := scaled num den e in if n <? d then e - 1 else e in
    let x := Z.max (-1074) (e - 52) in
    let '(n, d) := scaled num den x in
    let q := round_even n d in
    let '(q, x) := if q =? 2 ^ 53 then (2 ^ 52, x + 1) else (q, x) in
    if 971 <? x then None else Some (MkDouble q x).

Definition decimal_fraction (d : Z) (t : Z) : Z * Z :=
  if t <? 0 then (d, 10 ^ (- t)) else (d * 10 ^ t, 1).

(** The number of decimal digits of a positive integer *)
Definition decimal_length (z : Z) : Z := Z.of_nat (String.length (FormatUint z)).

(** [strconv.ParseFloat]: an exponent beyond every double is not computed. *)
Definition ParseFloat (literal : string) : option (bool * double) :=
  let d := read_decimal literal in
  if digits d =? 0 then Some (negative d, MkDouble 0 0)
  else
    let magnitude := decimal_length (digits d) + ten d in
    if 310 <? magnitude then None
    else if magnitude <? -330 then Some (negative d, MkDouble 0 0)
    else
      let '(n, den) := decimal_fraction (digits d) (ten d) in
      match nearest n den with Some x => Some (negative d, x) | None => None end.

(** ** Writing *)

Definition double_fraction (x : double) : Z * Z :=
  if exponent x <? 0 then (significand x, 2 ^ (- exponent x)) else (significand x * 2 ^ exponent x, 1).

(** The decimal exponent of [num / den]: [10^t <= num / den < 10^(t+1)] *)
Definition decimal_exponent (num den : Z) : Z :=
  let t := (Z.log2 num - Z.log2 den) * 30103 / 100000 in
  let at_least t := let '(n, d) := decimal_fraction 1 t in n * den <=? num * d in
  if at_least (t + 1) then t + 1 else if at_least t then t else t - 1.

#[export] Instance double_eq_dec : EqDecision double.
Proof. solve_decision. Defined.

(** The decimals of [n] digits below and above the value, if they read back. *)
Definition reads_as (x : double) (d t : Z) : bool :=
  let '(n, den) := decimal_fraction d t in bool_decide (nearest n den = Some x).
Definition candidate (x : double) (num den e : Z) (n : nat) : option (Z * Z) :=
  let t := e - Z.of_nat n + 1 in
  let '(a, b) := decimal_fraction 1 (- t) in
  let num := num * a in
  let den := den * b in
  let low := num / den in
  let high := low + 1 in
  match reads_as x low t, reads_as x high t with
  | true, true => Some (if 2 * (num mod den) <? den then low else if 2 * (num mod den) =? den
                        then (if Z.even low then low else high) else high, t)
  | true, false => Some (low, t)
  | false, true => Some (high, t)
  | false, false => None
  end.
Fixpoint first_candidate (x : double) (num den e : Z) (n todo : nat) : Z * Z :=
  match todo with
  | O => (0, 0)
  | S todo' => match candidate x num den e n with
               | Some c => c
               | None => first_candidate x num den e (S n) todo'
               end
  end.

Definition zeros (n : Z) : string := string_of_list_ascii (replicate (Z.to_nat n) "0"%char).

(** The text of [digits * 10^t]: plain, or in scientific notation below 1e-6
    and from 1e21 on. *)
Definition drop_trailing_zeros (s : string) : string :=
  string_of_list_ascii (rev (drop_zeros (rev (list_ascii_of_string s)))).
Definition float_text (d t : Z) : string :=
  let point := decimal_length d + t in
  let s := drop_trailing_zeros (FormatUint d) in
  let n := len s in
  if (point <=? -6) || (21 <? point) then
    let e := point - 1 in
    let mantissa := match s with
                    | String a EmptyString => s
                    | String a rest => String a ("." ++ rest)
                    | EmptyString => s
                    end in
    (mantissa ++ "e" ++ (if (e <? 0)%Z then "-" else "+") ++ FormatUint (Z.abs e))%string
  else if point <=? 0 then ("0." ++ zeros (- point) ++ s)%string
  else if n <=? point then (s ++ zeros (point - n))%string
  else (substring 0 (Z.to_nat point) s ++ "." ++ substring (Z.to_nat point) (Z.to_nat (n - point)) s)%string.

(** [json.Marshal] of a float64 *)
Definition FormatFloat (neg : bool) (x : double) : string :=
  let sign := if neg then "-"%string else ""%string in
  if significand x =? 0 then (sign ++ "0")%string
  else
    let '(num, den) := double_fraction x in
    let '(d, t) := first_candidate x num den (decimal_exponent num den) 1 17 in
    (sign ++ float_text d t)%string.

(** A literal decoded into [any] and written again *)
Definition float_literal (literal : string) : option string :=
  match ParseFloat literal with Some (neg, x) => Some (FormatFloat neg x) | None => None end.

Example float_integer : float_literal "42" = Some "42"%string. Proof. vm_compute. reflexivity. Qed.
Example float_tenth : float_literal "1e-1" = Some "0.1"%string. Proof. vm_compute. reflexivity. Qed.
Example float_inexact : float_literal "9007199254740993" = Some "9007199254740992"%string.
Proof. vm_compute. reflexivity. Qed.
Example float_third : float_literal "0.333333333333333333333" = Some "0.3333333333333333"%string.
Proof. vm_compute. reflexivity. Qed.
Example float_large : float_literal "-1.50E+21" = Some "-1.5e+21"%string. Proof. vm_compute. reflexivity. Qed.
Example float_small : float_literal "0.00000012" = Some "1.2e-7"%string. Proof. vm_compute. reflexivity. Qed.
Example float_hundred : float_literal "123000" = Some "123000"%string. Proof. vm_compute. reflexivity. Qed.
Example float_limit : float_literal "999999999999999868928" = Some "999999999999999900000"%string.
Proof. vm_compute. reflexivity. Qed.
Example float_overflow : float_literal "1e400" = None. Proof. vm_compute. reflexivity. Qed.
Example float_denormal : float_literal "5e-324" = Some "5e-324"%string. Proof. vm_compute. reflexivity. Qed.
