(* ===== verification/GoRaw.v ===== *)
(** * json.RawMessage and map[string]any

    A [json.RawMessage] member keeps the text it was decoded from, and is
    written again without its white space and with the HTML escapes of
    [json.Marshal].  A value decoded into [any] is normalized: members sorted
    by key, the last one of a name kept, numbers through float64. *)

From S2P Require Import Prelude GoStd GoJson GoTime GoFloat.
Local Open Scope Z_scope.
Local Open Scope go_scope.

(** ** Untyped values *)

(** [m[key] = value] in a map written with sorted keys *)
Fixpoint set_member (key : string) (value : json) (ms : list (string * json)) : list (string * json) :=
  match ms with
  | [] => [(key, value)]
  | (k, v) :: ms' =>
      if (k =? key)%string then (key, value) :: ms'
      else if String.ltb key k then (key, value) :: ms
      else (k, v) :: set_member key value ms'
  end.

(** What [json.Marshal] writes for the value decoded into an [any]; [None] when
    a number overflows. *)
Fixpoint any_value (j : json) : option json :=
  match j with
  | JNum lit => JNum <$> float_literal lit
  | JArr els =>
      JArr <$> (fix elements (l : list json) : option (list json) :=
                  match l with
                  | [] => Some []
                  | e :: l' => e' ← any_value e; l'' ← elements l'; Some (e' :: l'')
                  end) els
  | JObj ms =>
      JObj <$> (fix members (acc l : list (string * json)) : option (list (string * json)) :=
                  match l with
                  | [] => Some acc
                  | (k, v) :: l' => v' ← any_value v; members (set_member k v' acc) l'
                  end) [] ms
  | _ => Some j
  end.

(** A [map[string]any] field, the value of a nil map being [JNull]: a repeated
    member adds to the map it finds. *)
Definition map_members (j : json) : list (string * json) := match j with JObj ms => ms | _ => [] end.
Definition store_map {R} (get : R -> json) (set : json -> R -> R) (j : json) (r : R) : option R :=
  match j with
  | JObj _ =>
      match any_value j with
      | Some (JObj ms) =>
          Some (set (JObj (fold_left (fun acc m => set_member (fst m) (snd m) acc) ms (map_members (get r)))) r)
      | _ => None
      end
  | JNull => Some (set JNull r)
  | _ => None
  end.
Definition map_field {R} (name : string) (get : R -> json) (set : json -> R -> R) : field R :=
  (name, store_map get set).

Example any_normalizes :
  any_value (JObj [("b", JNum "1.0"); ("a", JArr [JNull; JNum "1e2"]); ("b", JNum "2")])%string
  = Some (JObj [("a", JArr [JNull; JNum "100"]); ("b", JNum "2")])%string.
Proof. vm_compute. reflexivity. Qed.

(** ** Raw members *)

(** The members of the object a text starts with, each with the text of its value. *)
Fixpoint raw_members (fuel : nat) (first : bool) (l : list ascii) : option (list (string * bytes)) :=
  match fuel with
  | O => None
  | S k =>
      match skip_space l with
      | [] => None
      | a :: l' =>
          if first && (a =? "}")%char then Some []
          else
            match read (parse_fuel l) (a :: l') with
            | Some (JStr key, rest) =>
                match skip_space rest with
                | b :: rest' =>
                    if (b =? ":")%char then
                      let v := skip_space rest' in
                      match read (parse_fuel v) v with
                      | Some (_, after) =>
                          let raw := string_of_list_ascii (take (length v - length after) v) in
                          match skip_space after with
                          | c :: more =>
                              if (c =? ",")%char then cons (key, raw) <$> raw_members k false more
                              else if (c =? "}")%char then Some [(key, raw)] else None
                          | [] => None
                          end
                      | None => None
                      end
                    else None
                | [] => None
                end
            | _ => None
            end
      end
  end.
Definition raw_object (s : bytes) : list (string * bytes) :=
  match skip_space (list_ascii_of_string s) with
  | a :: l => if (a =? "{")%char then default [] (raw_members (S (length l)) true l) else []
  | [] => []
  end.

(** The text a RawMessage field is left with: the last member that selects it,
    among [names], the fields of the struct; empty when there is none. *)
Definition raw_member (names : list string) (name : string) (s : bytes) : bytes :=
  let fields : list (field unit) := (fun n => (n, fun _ r => Some r)) <$> names in
  foldl (fun acc m => match find_field fields (fst m) with
                      | Some (n, _) => if (n =? name)%string then snd m else acc
                      | None => acc
                      end) ""%string (raw_object s).

(** A text with quotes written as apostrophes *)
Definition quoted (s : string) : bytes :=
  string_of_list_ascii (map (fun a => if (a =? "'")%char then quote else a) (list_ascii_of_string s)).

Example raw_keeps_text :
  raw_member ["a"; "p"]%string "p" (quoted " { 'a' : 1, 'P' : {'x' : [1, 2.50]} } "%string)
  = quoted "{'x' : [1, 2.50]}"%string.
Proof. vm_compute. reflexivity. Qed.

(** ** Writing a raw message *)

(** Where the scanner is: outside a string, inside, or after a backslash. *)
Inductive scan_state := Outside | Inside | Escaped.

Definition scan_next (st : scan_state) (a : ascii) : scan_state :=
  match st with
  | Outside => if (a =? quote)%char then Inside else Outside
  | Inside => if (a =? quote)%char then Outside else if (a =? backslash)%char then Escaped else Inside
  | Escaped => Inside
  end.

(** [appendCompact] with HTML escapes, on valid JSON *)
Fixpoint compact_text (st : scan_state) (l : list ascii) : list ascii :=
  match l with
  | [] => []
  | a :: l1 =>
      let c := byte_of a in
      let plain_byte :=
        match st with
        | Outside => if is_space a then compact_text st l1 else a :: compact_text (scan_next st a) l1
        | _ => a :: compact_text (scan_next st a) l1
        end in
      if (c =? 60) || (c =? 62) || (c =? 38) then unicode_escape c ++ compact_text (scan_next st a) l1
      else
        match l1 with
        | b :: d :: l3 =>
            if (c =? 226) && (byte_of b =? 128) && ((byte_of d =? 168) || (byte_of d =? 169))
            then unicode_escape (8192 + byte_of d - 128) ++ compact_text Inside l3
            else plain_byte
        | _ => plain_byte
        end
  end.

(** [json.Marshal] of a RawMessage, as a literal that is written as it is; the
    empty message is the nil one, and a text that is not one JSON value is an
    error. *)
Definition raw_json (raw : bytes) : option json :=
  if raw ==s "" then Some JNull
  else match unmarshal raw with
       | Some _ => Some (JNum (string_of_list_ascii (compact_text Outside (list_ascii_of_string raw))))
       | None => None
       end.

(** ** Round trips *)

Lemma compact_ascii a l : byte_of a < 128 ->
  compact_text Inside (escape_ascii a ++ l) = escape_ascii a ++ compact_text Inside l.
Proof.
  destruct a as [[] [] [] [] [] [] [] []]; intros H;
    first [exfalso; vm_compute in H; discriminate H | destruct l as [|? [|? ?]]; reflexivity].
Qed.

Lemma compact_string s l : ascii_text s ->
  compact_text Outside (write_string s ++ l) = write_string s ++ compact_text Outside l.
Proof.
  intros H. unfold write_string.
  assert (forall t, compact_text Outside (quote :: t) = quote :: compact_text Inside t) as Hq
    by (intros [|? [|? ?]]; reflexivity).
  rewrite <- app_comm_cons, Hq, <- app_comm_cons. f_equal. rewrite <- !app_assoc. unfold ascii_text in H.
  induction H as [|a s' Ha Hs IH].
  - destruct l as [|? [|? ?]]; reflexivity.
  - cbn [escape_text]. destruct (Z.ltb_spec (byte_of a) 128); [|lia].
    rewrite <- !app_assoc, compact_ascii by done. f_equal. exact IH.
Qed.

(** A byte that is neither white space nor special outside strings *)
Definition bare (a : ascii) : bool :=
  negb (is_space a) && negb (a =? quote)%char && (byte_of a <? 128)
  && negb ((byte_of a =? 60) || (byte_of a =? 62) || (byte_of a =? 38)).

Lemma compact_bare a l : bare a = true -> compact_text Outside (a :: l) = a :: compact_text Outside l.
Proof.
  unfold bare. intros H. bools. cbn [compact_text scan_next]. bools.
  rewrite (proj2 (Z.eqb_neq (byte_of a) 60)), (proj2 (Z.eqb_neq (byte_of a) 62)),
    (proj2 (Z.eqb_neq (byte_of a) 38)), (proj2 (Z.eqb_neq (byte_of a) 226)) by lia.
  cbn [orb andb]. repeat match goal with H : _ = false |- _ => rewrite ?H; clear H end.
  by destruct l as [|? [|? ?]].
Qed.

Lemma compact_bares w l : Forall (fun a => bare a = true) w ->
  compact_text Outside (w ++ l) = w ++ compact_text Outside l.
Proof. induction 1 as [|a w Ha Hw IH]; [done|]. cbn [app]. by rewrite compact_bare, IH. Qed.

Lemma number_char_bare a : number_char a = true -> bare a = true.
Proof. destruct a as [[] [] [] [] [] [] [] []]; intros H; first [discriminate H|reflexivity]. Qed.

Definition compacts (j : json) : Prop := forall l, plain j ->
  compact_text Outside (write j ++ l) = write j ++ compact_text Outside l.

Ltac bare_text := apply compact_bares; repeat (constructor; [reflexivity|]); constructor.

(** Text written by [json.Marshal] is compact. *)
Lemma compact_write j : compacts j.
Proof.
  induction j as [| [] |lit|s|els IH|ms IH] using json_nested_ind; intros l Hp.
  - bare_text.
  - bare_text.
  - bare_text.
  - apply compact_bares. destruct Hp as [_ Hp]. eapply Forall_impl; [exact Hp|]. apply number_char_bare.
  - by apply compact_string.
  - rewrite write_arr, <- !app_comm_cons, compact_bare by done. f_equal. rewrite <- !app_assoc.
    cbn [plain] in Hp.
    enough (forall b, compact_text Outside (write_elements b els ++ ["]"%char] ++ l)
                      = write_elements b els ++ ["]"%char] ++ compact_text Outside l) as H by apply (H true).
    induction IH as [|e els He Hels IH']; intros b.
    + by apply (compact_bare "]"%char).
    + change (write_elements b (e :: els))
        with ((if b then [] else [","%char]) ++ write e ++ write_elements false els).
      cbn [foldr] in Hp. destruct Hp as [He' Hp].
      rewrite <- !app_assoc, compact_bares by (destruct b; repeat constructor).
      f_equal. rewrite He by done. f_equal. by apply IH'.
  - rewrite write_obj, <- !app_comm_cons, compact_bare by done. f_equal. rewrite <- !app_assoc.
    cbn [plain] in Hp.
    enough (forall b, compact_text Outside (write_members b ms ++ ["}"%char] ++ l)
                      = write_members b ms ++ ["}"%char] ++ compact_text Outside l) as H by apply (H true).
    induction IH as [|[k v] ms Hv Hms IH']; intros b.
    + by apply (compact_bare "}"%char).
    + change (write_members b ((k, v) :: ms))
        with ((if b then [] else [","%char]) ++ write_string k ++ [":"%char] ++ write v ++ write_members false ms).
      cbn [foldr fst snd] in Hp. destruct Hp as (Hk & Hv' & Hp).
      rewrite <- !app_assoc, compact_bares by (destruct b; repeat constructor).
      f_equal. rewrite compact_string by done. f_equal. cbn [app]. rewrite compact_bare by done. f_equal.
      rewrite Hv by done. f_equal. by apply IH'.
Qed.

Lemma raw_json_marshal j : plain j -> raw_json (marshal j) = Some (JNum (marshal j)).
Proof.
  intros Hp. unfold raw_json. destruct (marshal j ==s "") eqn:E.
  - apply String.eqb_eq in E. destruct (write_head j Hp) as (a & t & Ew & _).
    unfold marshal in E. by rewrite Ew in E.
  - rewrite unmarshal_marshal by done. unfold marshal at 1. rewrite list_ascii_of_string_of_list_ascii.
    rewrite <- (app_nil_r (write j)) at 1. rewrite compact_write by done. by rewrite app_nil_r.
Qed.

(** A value and its text as a literal are written alike. *)
Lemma write_raw j : write (JNum (marshal j)) = write j.
Proof. unfold marshal. cbn. by rewrite list_ascii_of_string_of_list_ascii. Qed.

(** Members that are written alike, one by one. *)
Lemma marshal_members ms ms' :
  Forall2 (fun m m' => fst m = fst m' /\ write (snd m) = write (snd m')) ms ms' ->
  marshal (JObj ms) = marshal (JObj ms').
Proof.
  intros H. unfold marshal. rewrite !write_obj. do 3 f_equal.
  enough (forall b, write_members b ms = write_members b ms') as G by apply G.
  induction H as [|[k v] [k' v'] ms ms' [Hk Hv] H IH]; intros b; [done|]. cbn in Hk, Hv. subst k'.
  change (write_members b ((k, v) :: ms))
    with ((if b then [] else [","%char]) ++ write_string k ++ [":"%char] ++ write v ++ write_members false ms).
  change (write_members b ((k, v') :: ms'))
    with ((if b then [] else [","%char]) ++ write_string k ++ [":"%char] ++ write v' ++ write_members false ms').
  by rewrite Hv, IH.
Qed.

(** One member of a written object *)
Lemma raw_members_step k v fuel first rest : ascii_text k -> plain v -> separator rest ->
  raw_members (S fuel) first (write_string k ++ ":"%char :: write v ++ rest)
  = match skip_space rest with
    | c :: more => if (c =? ",")%char then cons (k, marshal v) <$> raw_members fuel false more
                   else if (c =? "}")%char then Some [(k, marshal v)] else None
    | [] => None
    end.
Proof.
  intros Hk Hv Hs. set (l := write_string k ++ _). cbn [raw_members].
  assert (skip_space l = quote :: tl l) as -> by reflexivity.
  change (quote =? "}")%char with false. rewrite andb_false_r. cbv iota.
  change (quote :: tl l) with l. unfold parse_fuel at 1.
  replace (2 * length l + 2)%nat with (S (2 * length l + 1)) by lia. unfold l at 2.
  rewrite read_string by done. cbn [skip_space]. change (is_space ":") with false. cbv iota.
  change (":" =? ":")%char with true. cbv iota zeta. rewrite skip_space_write by done.
  rewrite read_write; [|done| |done].
  - rewrite length_app, Nat.add_sub, take_app_length. unfold marshal. done.
  - unfold parse_fuel. rewrite length_app. pose proof (cost_write v Hv). lia.
Qed.

(** The raw members of a written object are the texts of its members. *)
Lemma raw_members_write ms : forall k v fuel first rest, plain (JObj ((k, v) :: ms)) -> (length ms < fuel)%nat ->
  raw_members fuel first (write_string k ++ ":"%char :: write v ++ write_members false ms ++ "}"%char :: rest)
  = Some ((fun m => (fst m, marshal (snd m))) <$> ((k, v) :: ms)).
Proof.
  induction ms as [|[k' v'] ms IH]; intros k v fuel first rest Hp Hf; (destruct fuel as [|fuel]; [lia|]);
    cbn [plain foldr fst snd] in Hp; destruct Hp as (Hk & Hv & Hp); rewrite raw_members_step; try done.
  - cbn. auto with go.
  - change (write_members false ((k', v') :: ms))
      with (","%char :: write_string k' ++ [":"%char] ++ write v' ++ write_members false ms).
    cbn [app skip_space]. change (is_space ",") with false. cbv iota. change ("," =? ",")%char with true. cbv iota.
    repeat (rewrite <- app_assoc; cbn [app]). cbn [length] in Hf. by rewrite IH by (done || lia).
  - cbn. auto with go.
Qed.

Lemma raw_object_marshal ms : plain (JObj ms) ->
  raw_object (marshal (JObj ms)) = (fun m => (fst m, marshal (snd m))) <$> ms.
Proof.
  intros Hp. unfold raw_object, marshal at 1. rewrite list_ascii_of_string_of_list_ascii, write_obj.
  cbn [skip_space]. change (is_space "{") with false. cbv iota. change ("{" =? "{")%char with true. cbv iota.
  destruct ms as [|[k v] ms]; [reflexivity|].
  change (write_members true ((k, v) :: ms)) with (write_string k ++ [":"%char] ++ write v ++ write_members false ms).
  repeat (rewrite <- app_assoc; cbn [app]).
  rewrite (raw_members_write ms k v _ true []); [done|done|].
  clear Hp. rewrite length_app. cbn [length]. rewrite !length_app. cbn [length].
  enough (length ms <= length (write_members false ms))%nat by lia.
  induction ms as [|[k' v'] ms IH]; [cbn; lia|].
  change (write_members false ((k', v') :: ms))
    with (","%char :: write_string k' ++ [":"%char] ++ write v' ++ write_members false ms).
  cbn [length]. rewrite length_app. cbn [length app]. rewrite !length_app. cbn in *. lia.
Qed.

(** ** Maps written by json.Marshal *)

Definition key_before (m m' : string * json) : Prop := String.ltb (fst m) (fst m') = true.

Lemma set_member_Forall (P : string * json -> Prop) k v ms :
  P (k, v) -> Forall P ms -> Forall P (set_member k v ms).
Proof.
  intros Hkv. induction 1 as [|[k1 v1] ms H1 Hms IH]; cbn [set_member]; [by repeat constructor|].
  destruct (k1 =? k)%string; [by constructor|]. destruct (String.ltb k k1); by repeat constructor.
Qed.

Lemma set_member_sorted k v ms :
  StronglySorted key_before ms -> StronglySorted key_before (set_member k v ms).
Proof.
  induction 1 as [|[k1 v1] ms Hms IH H1]; cbn [set_member]; [by repeat constructor|].
  destruct (String.eqb_spec k1 k) as [->|Hne]; [by constructor|].
  destruct (String.ltb k k1) eqn:E.
  - constructor; [by constructor|]. constructor; [done|]. eapply Forall_impl; [exact H1|].
    intros m. unfold key_before. cbn. by apply string_ltb_trans.
  - constructor; [done|]. apply set_member_Forall; [|done]. unfold key_before. cbn.
    destruct (String.ltb k1 k) eqn:E'; [done|]. by destruct (Hne (string_ltb_tie _ _ E' E)).
Qed.

Lemma set_member_last k v ms : Forall (fun m => String.ltb (fst m) k = true) ms ->
  set_member k v ms = ms ++ [(k, v)].
Proof.
  induction 1 as [|[k1 v1] ms H1 Hms IH]; [done|]. cbn [set_member app]. cbn in H1.
  destruct (String.eqb_spec k1 k) as [->|_]; [by rewrite string_ltb_irrefl in H1|].
  destruct (String.ltb k k1) eqn:E; [|by rewrite IH].
  pose proof (string_ltb_trans _ _ _ H1 E) as H. by rewrite string_ltb_irrefl in H.
Qed.

(** Storing the members of a sorted map, in order, gives the map. *)
Lemma store_sorted ms : forall acc, StronglySorted key_before (acc ++ ms) ->
  fold_left (fun acc m => set_member (fst m) (snd m) acc) ms acc = acc ++ ms.
Proof.
  induction ms as [|[k v] ms IH]; intros acc H; cbn [fold_left fst snd]; [by rewrite app_nil_r|].
  rewrite set_member_last.
  - rewrite IH, <- app_assoc; [done|]. by rewrite <- app_assoc.
  - clear IH. induction acc as [|m acc IHa]; [constructor|]. apply StronglySorted_inv in H as [H1 H2].
    constructor; [|by apply IHa]. apply Forall_app in H2 as [_ H2]. by apply Forall_cons in H2 as [H2 _].
Qed.

Lemma any_members_sorted ms ms' : any_value (JObj ms) = Some (JObj ms') -> StronglySorted key_before ms'.
Proof.
  cbn [any_value]. assert (StronglySorted key_before []) as H0 by constructor.
  revert H0. generalize (@nil (string * json)). induction ms as [|[k v] ms IH]; intros acc Hacc H.
  - cbn in H. by injection H as <-.
  - destruct (any_value v) as [v'|]; cbn in H; [|done]. eapply IH; [|exact H]. by apply set_member_sorted.
Qed.

(** A nil map, or one as [json.Marshal] writes it: what a [map[string]any] that
    was decoded, or built from strings and booleans, holds. *)
Definition map_value (j : json) : Prop :=
  match j with JNull => True | JObj _ => any_value j = Some j | _ => False end.

(** A field holding a nil map reads such a value back. *)
Lemma store_map_reads {R} (get : R -> json) set j r : get r = JNull -> map_value j ->
  store_map get set j r = Some (set j r).
Proof.
  intros Hr Hj. destruct j as [| | | | |ms]; try done. unfold store_map.
  cbn [map_value] in Hj. rewrite Hj, Hr. cbn [map_members]. rewrite (store_sorted ms []); [done|].
  by eapply any_members_sorted.
Qed.
