(* ===== verification/JsonOrder.v ===== *)
(** * Members in another order

    A jsonb column gives the members of an object back in an order of its own.
    Decoding into a struct does not depend on it: the fields of a struct are set
    independently ([commuting]), and every member names its own field. *)

From S2P Require Import Prelude GoStd GoJson GoTime.
Local Open Scope Z_scope.

#[local] Set Warnings "-register-all".

(** The same value, the members of its objects in any order *)
Inductive reordered : json -> json -> Prop :=
| reordered_refl j : reordered j j
| reordered_obj ms ms' ns :
    fst <$> ms = fst <$> ms' -> Forall2 reordered (snd <$> ms) (snd <$> ms') -> ms' ≡ₚ ns ->
    reordered (JObj ms) (JObj ns).

(** What is not an object has nothing to reorder. *)
Definition scalar (j : json) : Prop := match j with JObj _ => False | _ => True end.

Lemma reordered_scalar j j' : scalar j -> reordered j j' -> j' = j.
Proof. intros Hs H. inversion H; subst; [done|by destruct Hs]. Qed.

Section Struct.
Context {R : Type}.
Implicit Types (fields : list (field R)) (ms ns : list (string * json)).

Definition commute (f g : field R) : Prop := forall j k r, (snd f j r ≫= snd g k) = (snd g k r ≫= snd f j).
Definition commuting fields : Prop := ForallOrdPairs commute fields.

Lemma commuting_in fields f g : commuting fields -> In f fields -> In g fields -> fst f <> fst g -> commute f g.
Proof.
  intros Hc Hf Hg Hne. destruct (ForallOrdPairs_In Hc f g Hf Hg) as [<-|[H|H]]; [done|done|].
  intros j k r. symmetry. apply H.
Qed.

(** Every member is a field by its own name, and no name comes twice. *)
Definition known fields ms : Prop := Forall (fun m => In (fst m) (fst <$> fields)) ms /\ NoDup (fst <$> ms).

(** The names alone decide it. *)
Definition known_names (fields names : list string) : bool :=
  forallb (fun k => existsb (String.eqb k) fields) names && bool_decide (NoDup names).
Lemma known_by_names fields ms fnames names : fst <$> fields = fnames -> fst <$> ms = names ->
  known_names fnames names = true -> known fields ms.
Proof.
  intros <- <- H. unfold known_names in H. bools. split; [|done].
  match goal with H : forallb _ _ = true |- _ => rename H into Ha end.
  apply List.Forall_forall. intros m Hm. rewrite forallb_forall in Ha.
  assert (In (fst m) (fst <$> ms)) as Hin by (apply (in_map fst); done).
  apply Ha, existsb_exists in Hin as (k & Hk & ->%String.eqb_eq). done.
Qed.

Lemma known_perm fields ms ns : ms ≡ₚ ns -> known fields ms -> known fields ns.
Proof. intros P [H1 H2]. split; [by rewrite <- P|]. by rewrite <- P. Qed.

Lemma known_tail fields m ms : known fields (m :: ms) -> known fields ms.
Proof. intros [H1 H2]. inversion H1; subst. cbn in H2. apply NoDup_cons in H2 as [_ H2]. by split. Qed.

Lemma find_known fields k : In k (fst <$> fields) -> exists store, find_field fields k = Some (k, store) /\ In (k, store) fields.
Proof.
  intros Hk. unfold find_field. destruct (List.find (fun f => (fst f =? k)%string) fields) as [[n store]|] eqn:E.
  - apply find_some in E as [Hin E]. apply String.eqb_eq in E. cbn in E. subst n. by exists store.
  - exfalso. apply list_elem_of_In, list_elem_of_fmap in Hk as (f & -> & Hf).
    eapply find_none in E; [|by apply list_elem_of_In]. by rewrite String.eqb_refl in E.
Qed.

Lemma decode_members_cons strict fields k v ms r store : find_field fields k = Some (k, store) ->
  decode_members strict fields ((k, v) :: ms) r = store v r ≫= decode_members strict fields ms.
Proof. intros H. cbn [decode_members]. rewrite H. by destruct (store v r). Qed.

Lemma decode_members_perm strict fields ms ns r : commuting fields -> ms ≡ₚ ns -> known fields ms ->
  decode_members strict fields ms r = decode_members strict fields ns r.
Proof.
  intros Hc P. revert r. induction P as [|[k v] ms ns P IH|[k v] [k' v'] ms|ms ms' ns P1 IH1 P2 IH2]; intros r Hk.
  - done.
  - destruct (find_known fields k) as (store & E & _); [by destruct Hk as [H _]; inversion H|].
    rewrite !(decode_members_cons _ _ _ _ _ _ _ E). destruct (store v r); [|done]. cbn. apply IH. by eapply known_tail.
  - destruct Hk as [Hin Hnd]. inversion Hin as [|? ? H1 Hin']; subst. inversion Hin' as [|? ? H2 _]; subst. cbn in *.
    destruct (find_known fields k H2) as (store & E & Hf). destruct (find_known fields k' H1) as (store' & E' & Hf').
    assert (k <> k') as Hne.
    { intros ->. apply NoDup_cons in Hnd as [Hn _]. apply Hn. by left. }
    rewrite E, E'. pose proof (commuting_in _ _ _ Hc Hf Hf' Hne v v' r) as H. cbn in H.
    destruct (store v r) as [r1|] eqn:E1, (store' v' r) as [r2|] eqn:E2; cbn in H;
      rewrite ?E, ?E', ?H, <- ?H; try done; rewrite <- ?H; try done; by destruct (store v r2).
  - rewrite IH1 by done. apply IH2. by eapply known_perm.
Qed.

(** Values that a field cannot tell apart *)
Definition stores_alike fields (a b : string * json) : Prop :=
  fst a = fst b /\ forall f, In f fields -> fst f = fst a -> forall r, snd f (snd a) r = snd f (snd b) r.

Lemma decode_members_alike strict fields ms ns r : Forall2 (stores_alike fields) ms ns -> known fields ms ->
  decode_members strict fields ms r = decode_members strict fields ns r.
Proof.
  intros H. revert r. induction H as [|[k v] [k' v'] ms ns [Ek Hs] H IH]; intros r Hk; [done|]. cbn in Ek, Hs. subst k'.
  destruct (find_known fields k) as (store & E & Hf); [by destruct Hk as [Hin _]; inversion Hin|].
  rewrite !(decode_members_cons _ _ _ _ _ _ _ E). pose proof (Hs _ Hf eq_refl r) as Hst. cbn in Hst. rewrite <- Hst.
  destruct (store v r); [|done]. cbn. apply IH. by eapply known_tail.
Qed.

Lemma decode_reordered strict fields ms j r : commuting fields -> known fields ms -> reordered (JObj ms) j ->
  (forall a b, In a ms -> fst a = fst b -> reordered (snd a) (snd b) -> stores_alike fields a b) ->
  decode_struct strict fields j r = decode_struct strict fields (JObj ms) r.
Proof.
  intros Hc Hk Hr Ha. inversion Hr as [|? ms' ns Hn H P]; subst; [done|]. cbn [decode_struct]. symmetry.
  assert (known fields ms') as Hk'.
  { destruct Hk as [H1 H2]. split; [|by rewrite <- Hn]. rewrite List.Forall_forall in *. intros m Hm.
    apply list_elem_of_In in Hm. apply (list_elem_of_fmap_2 fst) in Hm. rewrite <- Hn in Hm.
    apply list_elem_of_fmap in Hm as (m' & -> & Hm'). apply H1. by apply list_elem_of_In. }
  rewrite <- (decode_members_perm strict fields ms' ns) by done. apply decode_members_alike; [|done].
  clear -Hn H Ha. revert ms' Hn H. induction ms as [|a ms IH]; intros [|b ms'] Hn H; try done.
  cbn in Hn. injection Hn as E Hn. cbn in H. apply Forall2_cons in H as [Hab H]. constructor.
  - apply Ha; [by left|done|done].
  - apply IH; [|done|done]. intros x y Hx. apply Ha. by right.
Qed.

Lemma scalar_alike fields a b : scalar (snd a) -> fst a = fst b -> reordered (snd a) (snd b) -> stores_alike fields a b.
Proof. intros Hs E Hr. apply (reordered_scalar _ _ Hs) in Hr. split; [done|]. by rewrite Hr. Qed.
End Struct.

(** Check two fields of concrete structs against each other. *)
Ltac commute_fields :=
  repeat first [apply FOP_nil|apply FOP_cons; [repeat first [apply List.Forall_nil|apply List.Forall_cons]|]];
  intros j k r; unfold mbind, option_bind; cbn -[ParseInt parse_time]; destruct j; try reflexivity; destruct k;
  cbn -[ParseInt parse_time]; repeat first [reflexivity|case_match; simplify_eq/=].

(** The members of a concrete object are fields of a concrete struct. *)
Ltac known_members := eapply known_by_names; [reflexivity|reflexivity|vm_compute; reflexivity].
