(* ===== verification/ControlDb.v ===== *)
(** * The control-plane tables

    The PostgreSQL schema of db/migrations as far as the modelled transactions
    of internal/persistence/postgres read or write it.  A table is a finite map
    from its primary key to the other columns; [created_at], [updated_at] and
    the other columns nothing reads are left out.  A transaction is a function
    of the tables and of the database time (microseconds since the epoch): it
    returns the tables it commits, or the error that rolls it back.  The
    constraints an INSERT can violate are tested where it is made; foreign keys
    to rows the same transaction has read or written are not. *)

From S2P Require Import Prelude GoStd GoJson Inventory.
Local Open Scope Z_scope.
Local Open Scope go_scope.

(** ** Rows *)

(** kim.host_identities *)
Record identity_row := MkIdentity { enrollment_state : string; host_authority_generation : Z }.

(** kim.host_enrollment_decisions, by decision id *)
Record decision_row := MkDecision {
  dec_host : string; dec_revision : Z; dec_policy : string; dec_policy_generation : Z;
  dec_hardware : string; dec_state : string; dec_actor : string; dec_reason : string;
}.

(** kim.host_enrollment_bindings_current *)
Record enrollment_row := MkEnrollment { enr_decision : string; enr_revision : Z; enr_state : string }.

(** kim.agent_credential_binding_evidence, by Host and revision *)
Record evidence_row := MkCredentialEvidence {
  cev_fingerprint : string; cev_public_key : string; cev_issuer : string; cev_profile : string;
  cev_trust : Z; cev_decision : string; cev_enrollment : Z; cev_digest : string; cev_state : string;
  cev_not_before : Z; cev_not_after : Z;
}.

(** kim.agent_credential_bindings_current *)
Record credential_row := MkCredential { crd_revision : Z; crd_state : string; crd_trust : Z }.

(** kim.agent_transport_session_attempts *)
Record attempt_row := MkAttempt {
  att_host : string; att_connection : string; att_transport : string; att_protocol : string;
  att_artifact : string; att_credential : Z; att_evidence : json; att_digest : string;
}.

(** A row of one of the event tables, whose [event_sequence] is its place in a
    list; a column the table does not have is empty. *)
Record event := MkEvent {
  evt_type : string; evt_reason : string; evt_generation : option Z; evt_payload : json;
}.

(** kim.agent_transport_sessions_current *)
Record session_row := MkSession {
  ses_generation : Z; ses_state : string; ses_protocol : string; ses_artifact : string;
  ses_credential : Z; ses_attempt : option string;
}.

(** kim.host_session_authorizations_current *)
Record authorization_row := MkAuthorization {
  ath_session : Z; ath_attempt : string; ath_credential : Z; ath_enrollment : Z;
  ath_capability : option Z; ath_state : string; ath_reason : string;
}.

(** kim.host_capability_projections *)
Record projection_row := MkProjection {
  prj_generation : Z; prj_message : string; prj_schema : string; prj_state : string;
  prj_snapshot : string; prj_capability : string; prj_payload : bytes;
}.

(** kim.host_readiness_gates_current *)
Record gate_row := MkGate {
  gat_capability : Z; gat_baseline : Z; gat_preflight : Z; gat_preflight_state : string;
  gat_compliance : Z; gat_compliance_state : string; gat_state : string;
}.

(** kim.host_operation_authorities_current *)
Record authority_row := MkAuthorityRow {
  aut_generation : Z; aut_state : string; aut_session : Z; aut_credential : Z; aut_enrollment : Z;
  aut_capability : Z; aut_baseline : Z; aut_preflight : Z; aut_compliance : Z;
  aut_policy : string; aut_policy_generation : Z; aut_armed_by : string; aut_reason : string;
}.

(** kim.execution_jobs *)
Record job_row := MkJob {
  job_resource_type : string; job_resource_id : string; job_revision : Z; job_state : string;
  job_command : option string;
}.

(** kim.execution_commands *)
Record command_row := MkCommand {
  cmd_job : string; cmd_host : string; cmd_type : string; cmd_schema : string; cmd_target : string;
  cmd_payload : json; cmd_digest : string;
}.

(** kim.execution_commands_current *)
Record state_row := MkState { cst_state : string; cst_attempt : Z }.

(** kim.command_lease_grants, by command and lease generation *)
Record grant_row := MkGrant {
  grt_attempt : Z; grt_host : string; grt_authority : Z; grt_session : Z; grt_token : string;
  grt_not_before : Z; grt_expires : Z; grt_scope : string;
}.

(** kim.command_leases_current: a generation, the columns of its grant, and a state *)
Record lease_row := MkLease { lse_generation : Z; lse_grant : grant_row; lse_state : string }.

(** kim.command_attempts, by command and attempt index *)
Record command_attempt_row := MkCommandAttempt { cat_lease : Z; cat_authority : Z; cat_session : Z }.

(** kim.command_results, by command and attempt index *)
Record result_row := MkResult {
  res_id : string; res_digest : string; res_outcome : string; res_payload : json; res_receipt : string;
}.

(** kim.command_verification_evidence *)
Record verification_row := MkVerificationRow {
  ver_command : string; ver_attempt : Z; ver_generation : Z; ver_digest : string; ver_state : string;
  ver_verifier : string; ver_evidence : json;
}.

(** kim.agent_message_receipts, by Host and message *)
Record receipt_row := MkReceiptRow {
  rcp_generation : Z; rcp_stream : string; rcp_scope : string; rcp_sequence : Z; rcp_digest : string;
  rcp_disposition : string; rcp_payload : json;
}.

(** kim.outbox_messages *)
Record outbox_row := MkOutbox {
  out_aggregate_type : string; out_aggregate : string; out_event : string; out_schema : string;
  out_digest : string; out_payload : json; out_state : string; out_available : Z; out_created : Z;
  out_owner : option string; out_claim : option Z; out_last_claim : Z; out_expires : option Z;
  out_attempts : Z;
}.

(** kim.outbox_delivery_attempts, by message and claim generation *)
Record outbox_attempt_row := MkOutboxAttempt { oat_owner : string; oat_expires : Z }.

(** kim.host_inventory_snapshots, by Host and observation generation *)
Record snapshot_row := MkSnapshotRow {
  snp_message : string; snp_schema : string; snp_status : string; snp_payload_digest : string;
  snp_capability_digest : string; snp_payload : bytes;
}.

(** kim.host_pci_device_projections, by Host and address; the columns copied
    from the device are the device. *)
Record pci_row := MkPciRow {
  pcr_generation : Z; pcr_message : string; pcr_digest : string; pcr_state : string;
  pcr_device : Inventory.PCIDevice;
}.

(** The columns of kim.virtual_machines_current, kim.vm_materialization_readiness_current,
    kim.vm_power_observation_evidence and kim.vm_power_state_current that the
    verification of a power command uses. *)
Record vm_row := MkVm { vm_generation : Z; vm_host : string; vm_desired : string }.
Record readiness_row := MkVmReadiness { rdy_generation : Z; rdy_boot : string }.
Record power_evidence_row := MkPowerEvidence {
  pev_vm : string; pev_generation : Z; pev_host : string; pev_command : string; pev_attempt : Z;
  pev_verification : string; pev_desired : string; pev_observed : string; pev_observation : Z;
  pev_digest : string; pev_verifier : string;
}.
Record power_row := MkPower {
  pow_generation : Z; pow_desired : string; pow_observed : string; pow_state : string;
  pow_observation : Z; pow_evidence : string;
}.

(** kim.agent_resync_checkpoints *)
Record checkpoint_row := MkCheckpointRow { ckp_generation : Z; ckp_digest : string; ckp_payload : json }.

(** kim.inbox_messages, by consumer and message *)
Record inbox_row := MkInbox { inb_digest : string; inb_state : string }.

(** kim.gateway_command_delivery_events, by consumer, message, route attempt
    and event type *)
Record route_row := MkRoute { rte_host : string; rte_session : Z; rte_payload : json }.

(** ** The database *)

Record db := MkDb {
  database_mode : string;
  identities : gmap string identity_row;
  enrollment_decisions : gmap string decision_row;
  enrollment_bindings : gmap string enrollment_row;
  credential_evidence : gmap (string * Z) evidence_row;
  credential_bindings : gmap string credential_row;
  session_attempts : gmap string attempt_row;
  session_events : gmap string (list event);
  sessions : gmap string session_row;
  authorizations : gmap string authorization_row;
  projections : gmap string projection_row;
  gates : gmap string gate_row;
  authorities : gmap string authority_row;
  authority_events : gmap (string * Z) (list event);
  jobs : gmap string job_row;
  job_events : gmap string (list event);
  commands : gmap string command_row;
  command_states : gmap string state_row;
  lease_grants : gmap (string * Z) grant_row;
  leases : gmap string lease_row;
  lease_events : gmap (string * Z) (list event);
  attempts : gmap (string * Z) command_attempt_row;
  attempt_events : gmap (string * Z) (list event);
  results : gmap (string * Z) result_row;
  verifications : gmap string verification_row;
  receipts : gmap (string * string) receipt_row;
  outbox : gmap string outbox_row;
  outbox_attempts : gmap (string * Z) outbox_attempt_row;
  outbox_events : gmap (string * Z * string) json;
  inventory_snapshots : gmap (string * Z) snapshot_row;
  pci_projections : gmap (string * string) pci_row;
  vms : gmap string vm_row;
  vm_readiness : gmap string readiness_row;
  power_evidence : gmap string power_evidence_row;
  power_states : gmap string power_row;
  checkpoints : gmap string checkpoint_row;
  inbox : gmap (string * string) inbox_row;
  inbox_conflicts : gmap (string * string * string) string;
  route_events : gmap (string * string * Z * string) route_row;
}.

#[export] Instance db_eta : Eta db := fun d =>
  MkDb (database_mode d) (identities d) (enrollment_decisions d) (enrollment_bindings d)
    (credential_evidence d) (credential_bindings d) (session_attempts d) (session_events d)
    (sessions d) (authorizations d) (projections d) (gates d) (authorities d)
    (authority_events d) (jobs d) (job_events d) (commands d) (command_states d)
    (lease_grants d) (leases d) (lease_events d) (attempts d) (attempt_events d) (results d)
    (verifications d) (receipts d) (outbox d) (outbox_attempts d) (outbox_events d)
    (inventory_snapshots d) (pci_projections d) (vms d) (vm_readiness d) (power_evidence d)
    (power_states d) (checkpoints d) (inbox d) (inbox_conflicts d) (route_events d).

#[export] Instance session_row_eta : Eta session_row := fun r =>
  MkSession (ses_generation r) (ses_state r) (ses_protocol r) (ses_artifact r)
    (ses_credential r) (ses_attempt r).
#[export] Instance authorization_row_eta : Eta authorization_row := fun r =>
  MkAuthorization (ath_session r) (ath_attempt r) (ath_credential r) (ath_enrollment r)
    (ath_capability r) (ath_state r) (ath_reason r).
#[export] Instance authority_row_eta : Eta authority_row := fun r =>
  MkAuthorityRow (aut_generation r) (aut_state r) (aut_session r) (aut_credential r)
    (aut_enrollment r) (aut_capability r) (aut_baseline r) (aut_preflight r) (aut_compliance r)
    (aut_policy r) (aut_policy_generation r) (aut_armed_by r) (aut_reason r).
#[export] Instance identity_row_eta : Eta identity_row := fun r =>
  MkIdentity (enrollment_state r) (host_authority_generation r).
#[export] Instance lease_row_eta : Eta lease_row := fun r =>
  MkLease (lse_generation r) (lse_grant r) (lse_state r).
#[export] Instance state_row_eta : Eta state_row := fun r =>
  MkState (cst_state r) (cst_attempt r).
#[export] Instance job_row_eta : Eta job_row := fun r =>
  MkJob (job_resource_type r) (job_resource_id r) (job_revision r) (job_state r) (job_command r).
#[export] Instance outbox_row_eta : Eta outbox_row := fun r =>
  MkOutbox (out_aggregate_type r) (out_aggregate r) (out_event r) (out_schema r) (out_digest r)
    (out_payload r) (out_state r) (out_available r) (out_created r) (out_owner r) (out_claim r)
    (out_last_claim r) (out_expires r) (out_attempts r).

(** ** Statements *)

Definition ErrNoRows : goerr := errors_New "no rows in result set".
Definition unique_violation (table : string) : goerr :=
  Errorf "duplicate key value violates unique constraint of %s" [table].
Definition check_violation (table : string) : goerr :=
  Errorf "new row for relation %s violates check constraint" [table].
Definition out_of_range : goerr := errors_New "bigint out of range".

(** [~ '^[0-9a-f]{64}$'] *)
Definition hex64 (s : string) : bool :=
  (len s =? 64)
  && forallb (fun c => ((48 <=? byte_of c) && (byte_of c <=? 57))
                       || ((97 <=? byte_of c) && (byte_of c <=? 102))) (list_ascii_of_string s).

(** [digestBytes] *)
Definition digestBytes (value : bytes) : string := sha256_hex value.

(** [... WHERE EXISTS row], over a whole table. *)
Definition any_row `{Countable K} {A} (p : K -> A -> bool) (m : gmap K A) : bool :=
  existsb (fun kv => p (fst kv) (snd kv)) (map_to_list m).

Lemma any_row_false `{Countable K} {A} (p : K -> A -> bool) (m : gmap K A) :
  (forall k a, m !! k = Some a -> p k a = false) -> any_row p m = false.
Proof.
  intros H'. unfold any_row. destruct (existsb _ _) eqn:E; [|done].
  apply List.existsb_exists in E as ([k a] & Hin & Hp). simpl in Hp.
  apply list_elem_of_In, elem_of_map_to_list in Hin. by rewrite (H' k a Hin) in Hp.
Qed.

Lemma any_row_false_inv `{Countable K} {A} (p : K -> A -> bool) (m : gmap K A) k a :
  any_row p m = false -> m !! k = Some a -> p k a = false.
Proof.
  intros Hf Hk. destruct (p k a) eqn:E; [|done]. unfold any_row in Hf. rewrite <- Hf. symmetry.
  apply List.existsb_exists. exists (k, a). split; [|done]. by apply list_elem_of_In, elem_of_map_to_list.
Qed.

(** [SELECT ... WHERE key] of a row that must exist. *)
Definition row {A} (o : option A) (missing : goerr) : res A :=
  match o with Some a => Ok a | None => Err missing end.

(** Append an event: its sequence is [COALESCE(max(event_sequence),0)+1]. *)
Definition append_event `{Countable K} (k : K) (e : event) (m : gmap K (list event)) :
  gmap K (list event) := <[k := default [] (m !! k) ++ [e]]> m.

(** [interval] arithmetic and [time.Duration.Microseconds]: nanoseconds to
    microseconds, towards zero. *)
Definition microseconds (duration : Z) : Z := Z.quot duration 1000.
