(* ===== verification/CommandEvents.v ===== *)
(** * postgres/execution.go: evidence events and the fencing of leases

    Lease, attempt and job events are append-only.  A lease event type occurs
    once per lease and an attempt event type once per attempt (stale results
    apart): writing the same event again is a success, writing a different one
    under the same type a conflict.  Fencing or expiring a lease leaves its
    command UNKNOWN, never failed. *)

From S2P Require Import Prelude GoStd GoJson ControlDb.
Local Open Scope Z_scope.
Local Open Scope go_scope.

Definition ErrCommandEvidenceConflict : goerr := errors_New "Command evidence conflict".

Definition tokenSHA256 (token : string) : string := sha256_hex token.

Definition event_digest (e : event) : string := digestBytes (marshal (evt_payload e)).

(** The accepted event of a type. *)
Definition event_of (type : string) (events : list event) : option event :=
  List.find (fun e => evt_type e ==s type) events.

(** [appendLeaseEventTx] *)
Definition appendLeaseEventTx (commandID : string) (leaseGeneration : Z) (eventType : string)
    (payload : json) (d : db) : res db :=
  let key := (commandID, leaseGeneration) in
  let e := MkEvent eventType "" None payload in
  match event_of eventType (default [] (lease_events d !! key)) with
  | None => Ok (d <| lease_events ::= append_event key e |>)
  | Some accepted =>
      fail_if (event_digest accepted !=s event_digest e) ErrCommandEvidenceConflict;; Ok d
  end.

(** [appendAttemptEventTx]; the attempt is a foreign key. *)
Definition appendAttemptEventTx (commandID : string) (attemptIndex : Z) (eventType reason : string)
    (payload : json) (d : db) : res db :=
  let key := (commandID, attemptIndex) in
  let e := MkEvent eventType reason None payload in
  match (if eventType ==s "STALE_RESULT_REJECTED" then None
         else event_of eventType (default [] (attempt_events d !! key))) with
  | None =>
      row (attempts d !! key) (Errorf "insert violates foreign key to %s" ["command_attempts"%string]);;
      Ok (d <| attempt_events ::= append_event key e |>)
  | Some accepted =>
      fail_if ((evt_reason accepted !=s reason) || (event_digest accepted !=s event_digest e))
        ErrCommandEvidenceConflict;;
      Ok d
  end.

(** [appendJobEventTx] *)
Definition appendJobEventTx (jobID eventType : string) (payload : json) (d : db) : db :=
  d <| job_events ::= append_event jobID (MkEvent eventType "" None payload) |>.

(** [UPDATE kim.execution_commands_current SET command_state] *)
Definition set_command_state (commandID state : string) (d : db) : db :=
  d <| command_states ::= alter (fun r => r <| cst_state := state |>) commandID |>.

(** [UPDATE kim.execution_jobs SET job_state ... FROM kim.execution_commands] *)
Definition set_job_state (jobID state : string) (d : db) : db :=
  d <| jobs ::= alter (fun r => r <| job_state := state |>) jobID |>.
Definition set_job_state_of (commandID state : string) (d : db) : db :=
  match commands d !! commandID with
  | Some command => set_job_state (cmd_job command) state d
  | None => d
  end.

Definition is_active (l : lease_row) : bool := lse_state l ==s "ACTIVE".

(** [markLeaseUnknownTx] *)
Definition markLeaseUnknownTx (commandID : string) (leaseGeneration attemptIndex : Z)
    (leaseEvent reason : string) (d : db) : res db :=
  let d := d <| leases ::= alter (fun l => if is_active l then l <| lse_state := leaseEvent |> else l)
                                 commandID |> in
  d ← appendLeaseEventTx commandID leaseGeneration leaseEvent (JObj [("reason"%string, JStr reason)]) d;
  d ← appendAttemptEventTx commandID attemptIndex "UNKNOWN" reason
        (JObj [("lease_generation"%string, JInt leaseGeneration)]) d;
  Ok (set_job_state_of commandID "ACTION_REQUIRED" (set_command_state commandID "UNKNOWN" d)).

(** The ACTIVE leases of a Host, in the order of their commands. *)
Definition active_leases (hostID : string) (d : db) : list (string * lease_row) :=
  sort_Slice (less_on String.ltb fst)
    (List.filter (fun kl => (grt_host (lse_grant (snd kl)) ==s hostID) && is_active (snd kl))
       (map_to_list (leases d))).

(** [fenceHostCommandLeasesTx] *)
Definition fence_lease (reason : string) (d : db) (kl : string * lease_row) : res db :=
  markLeaseUnknownTx (fst kl) (lse_generation (snd kl)) (grt_attempt (lse_grant (snd kl))) "FENCED" reason d.
Definition fenceHostCommandLeasesTx (hostID reason : string) (d : db) : res db :=
  foldM (fence_lease reason) (active_leases hostID d) d.
