(* ===== verification/HostTrust.v ===== *)
(** * postgres/host_trust_authority.go: enrollment, credentials and mutation authority

    A Host is discovered, enrolled and bound to a credential; its session is
    authorized when identity, credential, session and capability agree; its
    mutation authority is armed explicitly, for the exact generations it was
    granted on, and fenced by the transaction that changes any of them.
    [lockHostAuthorityTx] serializes the transactions of a Host: each is one
    step here. *)

From S2P Require Import Prelude GoStd GoJson ControlDb CommandEvents.
Local Open Scope Z_scope.
Local Open Scope go_scope.

Definition ErrCredentialBindingNotCurrent : goerr := errors_New "Agent credential binding is not current".
Definition ErrSessionNotAuthorized : goerr := errors_New "Host Agent session is not authorized".
Definition ErrHostAuthorityNotReady : goerr := errors_New "Host authority gates are not ready".
Definition ErrHostAuthorityNotArmed : goerr := errors_New "Host operation authority is not armed".

Record EnrollmentDecision := MkEnrollmentDecision {
  ed_DecisionID : string; ed_HostID : string; ed_Revision : Z; ed_PolicyID : string;
  ed_PolicyGeneration : Z; HardwareEvidenceDigest : string; ed_State : string; ed_ActorID : string;
  ed_ReasonCode : string;
}.

Record AgentCredentialBindingEvidence := MkBindingEvidence {
  cb_HostID : string; cb_Revision : Z; CertificateFingerprint : string; PublicKeyDigest : string;
  IssuerID : string; ProfileRevision : string; TrustGeneration : Z; EnrollmentDecisionID : string;
  EnrollmentRevision : Z; EvidenceDigest : string; cb_State : string; ValidNotBefore : Z;
  ValidNotAfter : Z;
}.

Record HostReadinessGate := MkHostReadinessGate {
  rg_HostID : string; rg_CapabilityGeneration : Z; rg_BaselineAssignmentGeneration : Z;
  rg_PreflightGeneration : Z; PreflightState : string; rg_ComplianceGeneration : Z;
  ComplianceState : string;
}.

Record HostAuthorityArmRequest := MkArmRequest {
  ar_HostID : string; ar_PolicyID : string; ar_PolicyGeneration : Z; ar_ActorID : string;
  ar_ReasonCode : string;
}.

Record HostMutationAuthority := MkMutationAuthority {
  ma_HostID : string; AuthorityGeneration : Z; ma_SessionGeneration : Z; CredentialBindingRevision : Z;
  EnrollmentDecisionRevision : Z; ma_CapabilityGeneration : Z; ma_BaselineAssignmentGeneration : Z;
  ma_PreflightGeneration : Z; ma_ComplianceGeneration : Z;
}.

(** [RegisterDiscoveredHost]; [length(host_id) BETWEEN 1 AND 255] counts the
    characters of UTF-8 text, that is the bytes that do not continue one. *)
Definition char_length (s : string) : Z :=
  Z.of_nat (length (List.filter (fun c => negb ((128 <=? byte_of c) && (byte_of c <=? 191)))
                      (list_ascii_of_string s))).
Definition RegisterDiscoveredHost (hostID : string) (d : db) : res db :=
  fail_if (hostID ==s "") (errors_New "Host identity is required");;
  fail_if (255 <? char_length hostID) (check_violation "host_identities");;
  match identities d !! hostID with
  | Some _ => Ok d
  | None => Ok (d <| identities ::= <[hostID := MkIdentity "DISCOVERED" 0]> |>)
  end.

(** ** Fencing *)

(** [appendHostAuthorityEventTx] *)
Definition appendHostAuthorityEventTx (hostID : string) (generation : Z) (eventType reason : string)
    (payload : json) (d : db) : db :=
  d <| authority_events ::= append_event (hostID, generation) (MkEvent eventType reason None payload) |>.

(** [fenceHostOperationAuthorityTx] *)
Definition fenceHostOperationAuthorityTx (hostID reason : string) (d : db) : res db :=
  match authorities d !! hostID with
  | Some a =>
      if aut_state a ==s "ARMED" then
        let d := d <| authorities ::= <[hostID := a <| aut_state := "FENCED" |> <| aut_reason := reason |>]> |> in
        let d := appendHostAuthorityEventTx hostID (aut_generation a) "FENCED" reason
                   (JObj [("reason"%string, JStr reason)]) d in
        fenceHostCommandLeasesTx hostID reason d
      else fenceHostCommandLeasesTx hostID reason d
  | None => fenceHostCommandLeasesTx hostID reason d
  end.

Definition set_session_state (hostID state : string) (d : db) : db :=
  d <| sessions ::= alter (fun s => s <| ses_state := state |>) hostID |>.

Definition set_authorization (hostID state reason : string) (d : db) : db :=
  d <| authorizations ::= alter (fun a => a <| ath_state := state |> <| ath_reason := reason |>) hostID |>.

(** The end of both transactions that change the trust in a Host: anything but
    a good state fences the session, and every change fences the authority. *)
Definition distrust (good : bool) (hostID reason : string) (d : db) : res db :=
  let d := if good then d else set_session_state hostID "FENCED" d in
  let d := set_authorization hostID (if good then "STALE" else "FENCED") reason d in
  fenceHostOperationAuthorityTx hostID reason d.

(** ** Enrollment *)

Definition enrollment_states (decisionState : string) : res (string * string) :=
  if decisionState ==s "APPROVED" then Ok ("ENROLLED", "APPROVED")%string
  else if decisionState ==s "REJECTED" then Ok ("REJECTED", "QUARANTINED")%string
  else if decisionState ==s "QUARANTINED" then Ok ("QUARANTINED", "QUARANTINED")%string
  else if decisionState ==s "DECOMMISSIONED" then Ok ("DECOMMISSIONED", "DECOMMISSIONED")%string
  else Err (errors_New "unsupported Enrollment decision state").

(** [INSERT INTO kim.host_enrollment_decisions] *)
Definition insert_decision (e : EnrollmentDecision) (d : db) : res db :=
  fail_if (bool_decide (is_Some (enrollment_decisions d !! ed_DecisionID e))
           || any_row (fun _ r => (dec_host r ==s ed_HostID e) && (dec_revision r =? ed_Revision e))
                (enrollment_decisions d))
    (unique_violation "host_enrollment_decisions");;
  fail_if (negb (hex64 (HardwareEvidenceDigest e))) (check_violation "host_enrollment_decisions");;
  Ok (d <| enrollment_decisions ::= <[ed_DecisionID e :=
        MkDecision (ed_HostID e) (ed_Revision e) (ed_PolicyID e) (ed_PolicyGeneration e)
          (HardwareEvidenceDigest e) (ed_State e) (ed_ActorID e) (ed_ReasonCode e)]> |>).

(** [RecordEnrollmentDecision] *)
Definition RecordEnrollmentDecision (e : EnrollmentDecision) (d : db) : res db :=
  fail_if ((ed_DecisionID e ==s "") || (ed_HostID e ==s "") || (ed_Revision e <? 1) || (ed_PolicyID e ==s "")
           || (ed_PolicyGeneration e <? 1) || (len (HardwareEvidenceDigest e) !=z 64) || (ed_ActorID e ==s "")
           || (ed_ReasonCode e ==s ""))
    (errors_New "complete Enrollment decision is required");;
  '(bindingState, identityState) ← enrollment_states (ed_State e);
  identity ← row (identities d !! ed_HostID e) ErrNoRows;
  fail_if ((enrollment_state identity ==s "DECOMMISSIONED") && (ed_State e !=s "DECOMMISSIONED"))
    (errors_New "decommissioned Host identity cannot be reenrolled");;
  d ← match insert_decision e d with
      | Ok d => Ok d | Err err => Err (Wrapf "record Enrollment decision: %w" [] err)
      end;
  fail_if (match enrollment_bindings d !! ed_HostID e with
           | Some b => ed_Revision e <=? enr_revision b | None => false end)
    (errors_New "Enrollment decision revision is not newer than current");;
  let d := d <| enrollment_bindings ::= <[ed_HostID e :=
             MkEnrollment (ed_DecisionID e) (ed_Revision e) bindingState]> |> in
  let d := d <| identities ::= <[ed_HostID e := identity <| enrollment_state := identityState |>]> |> in
  distrust (ed_State e ==s "APPROVED") (ed_HostID e) "enrollment_decision_changed" d.

(** ** Credentials *)

Definition credential_state (bindingState : string) : res string :=
  if bindingState ==s "ACTIVE" then Ok "CURRENT"%string
  else if (bindingState ==s "REVOKED") || (bindingState ==s "EXPIRED") || (bindingState ==s "QUARANTINED")
  then Ok bindingState
  else Err (errors_New "unsupported Credential Binding state").

(** [INSERT INTO kim.agent_credential_binding_evidence] *)
Definition insert_credential_evidence (b : AgentCredentialBindingEvidence) (d : db) : res db :=
  let key := (cb_HostID b, cb_Revision b) in
  fail_if (bool_decide (is_Some (credential_evidence d !! key)))
    (unique_violation "agent_credential_binding_evidence");;
  fail_if (negb (hex64 (CertificateFingerprint b)) || negb (hex64 (PublicKeyDigest b))
           || negb (hex64 (EvidenceDigest b)) || (ValidNotAfter b <=? ValidNotBefore b))
    (check_violation "agent_credential_binding_evidence");;
  Ok (d <| credential_evidence ::= <[key :=
        MkCredentialEvidence (CertificateFingerprint b) (PublicKeyDigest b) (IssuerID b)
          (ProfileRevision b) (TrustGeneration b) (EnrollmentDecisionID b) (EnrollmentRevision b)
          (EvidenceDigest b) (cb_State b) (ValidNotBefore b) (ValidNotAfter b)]> |>).

(** [RecordAgentCredentialBinding] *)
Definition RecordAgentCredentialBinding (b : AgentCredentialBindingEvidence) (d : db) : res db :=
  fail_if ((cb_HostID b ==s "") || (cb_Revision b <? 1) || (len (CertificateFingerprint b) !=z 64)
           || (len (PublicKeyDigest b) !=z 64) || (IssuerID b ==s "") || (ProfileRevision b ==s "")
           || (TrustGeneration b <? 1) || (EnrollmentDecisionID b ==s "") || (EnrollmentRevision b <? 1)
           || (len (EvidenceDigest b) !=z 64) || (ValidNotAfter b <=? ValidNotBefore b))
    (errors_New "complete Agent Credential Binding evidence is required");;
  currentState ← credential_state (cb_State b);
  enrollment ← row (enrollment_bindings d !! cb_HostID b) ErrCredentialBindingNotCurrent;
  fail_if ((enr_decision enrollment !=s EnrollmentDecisionID b)
           || (enr_revision enrollment !=z EnrollmentRevision b) || (enr_state enrollment !=s "ENROLLED"))
    ErrCredentialBindingNotCurrent;;
  d ← match insert_credential_evidence b d with
      | Ok d => Ok d | Err err => Err (Wrapf "record Agent Credential Binding evidence: %w" [] err)
      end;
  fail_if (match credential_bindings d !! cb_HostID b with
           | Some c => cb_Revision b <=? crd_revision c | None => false end)
    (errors_New "Credential Binding revision is not newer than current");;
  let d := d <| credential_bindings ::= <[cb_HostID b :=
             MkCredential (cb_Revision b) currentState (TrustGeneration b)]> |> in
  distrust (cb_State b ==s "ACTIVE") (cb_HostID b) "credential_binding_changed" d.

(** [statement_timestamp()] is within the validity of the evidence. *)
Definition time_valid (now : Z) (e : evidence_row) : bool :=
  (cev_not_before e <=? now) && (now <? cev_not_after e).

(** The rows of the query both functions below make: the Host, its enrollment,
    its credential binding at [revision] and the evidence of that revision. *)
Definition trust_rows (hostID : string) (revision : Z) (d : db) :
    option (identity_row * enrollment_row * credential_row * evidence_row) :=
  host ← identities d !! hostID;
  enrollment ← enrollment_bindings d !! hostID;
  current ← credential_bindings d !! hostID;
  evidence ← credential_evidence d !! (hostID, crd_revision current);
  if crd_revision current =? revision then Some (host, enrollment, current, evidence) else None.

Definition identity_current (host : identity_row) (enrollment : enrollment_row)
    (current : credential_row) (evidence : evidence_row) : bool :=
  (enr_revision enrollment =? cev_enrollment evidence) && (enr_state enrollment ==s "ENROLLED")
  && (enrollment_state host ==s "APPROVED") && (crd_state current ==s "CURRENT")
  && (cev_state evidence ==s "ACTIVE").

(** [validateCurrentCredentialBindingTx] *)
Definition validateCurrentCredentialBindingTx (now : Z) (hostID : string) (revision : Z)
    (certificateFingerprint : string) (d : db) : res Z :=
  match trust_rows hostID revision d with
  | Some (host, enrollment, current, evidence) =>
      fail_if (negb (time_valid now evidence)) ErrCredentialBindingNotCurrent;;
      fail_if (negb (identity_current host enrollment current evidence)
               || (cev_fingerprint evidence !=s certificateFingerprint))
        ErrCredentialBindingNotCurrent;;
      Ok (enr_revision enrollment)
  | None => Err ErrCredentialBindingNotCurrent
  end.

(** [refreshHostSessionAuthorizationTx] *)
Definition authorization_of (now : Z) (s : session_row) (projection : option projection_row)
    (host : identity_row) (enrollment : enrollment_row) (current : credential_row) (evidence : evidence_row) :
    string * string * option Z :=
  if (ses_state s !=s "CURRENT") || negb (identity_current host enrollment current evidence)
     || negb (time_valid now evidence)
  then ("FENCED", "identity_or_session_not_current", None)%string
  else match projection with
       | None => ("PENDING_CAPABILITY", "current_capability_required", None)%string
       | Some p =>
           if prj_state p ==s "CURRENT"
           then ("AUTHORIZED", "identity_session_and_capability_current", Some (prj_generation p))%string
           else ("PENDING_CAPABILITY", "capability_projection_not_current", Some (prj_generation p))%string
       end.

Definition refreshHostSessionAuthorizationTx (now : Z) (hostID : string) (d : db) : res db :=
  match sessions d !! hostID with
  | None => Ok d
  | Some s =>
      attemptID ← row (ses_attempt s) (errors_New "cannot scan NULL into *string");
      match trust_rows hostID (ses_credential s) d with
      | None => Err ErrSessionNotAuthorized
      | Some (host, enrollment, current, evidence) =>
          let '(state, reason, capability) :=
            authorization_of now s (projections d !! hostID) host enrollment current evidence in
          Ok (d <| authorizations ::= <[hostID :=
                MkAuthorization (ses_generation s) attemptID (ses_credential s) (enr_revision enrollment)
                  capability state reason]> |>)
      end
  end.

(** ** Readiness *)

Definition gate_state_of (g : HostReadinessGate) (p : projection_row) : string :=
  if (PreflightState g ==s "UNKNOWN") || (ComplianceState g ==s "UNKNOWN") || (prj_state p !=s "CURRENT")
     || (prj_generation p !=z rg_CapabilityGeneration g)
  then "UNKNOWN"
  else if (PreflightState g ==s "PASSED") && (ComplianceState g ==s "COMPLIANT") then "READY"
  else "BLOCKED".

#[export] Instance gate_row_eq_dec : EqDecision gate_row.
Proof. solve_decision. Defined.

(** [UpdateHostReadinessGate] *)
Definition UpdateHostReadinessGate (g : HostReadinessGate) (d : db) : res db :=
  fail_if ((rg_HostID g ==s "") || (rg_CapabilityGeneration g <? 1)
           || (rg_BaselineAssignmentGeneration g <? 1) || (rg_PreflightGeneration g <? 1)
           || (rg_ComplianceGeneration g <? 1))
    (errors_New "complete Host readiness gate is required");;
  projection ← row (projections d !! rg_HostID g) ErrHostAuthorityNotReady;
  fail_if (negb (existsb (String.eqb (PreflightState g)) ["PASSED"; "FAILED"; "UNKNOWN"])
           || negb (existsb (String.eqb (ComplianceState g)) ["COMPLIANT"; "NON_COMPLIANT"; "DEGRADED"; "UNKNOWN"]))
    (check_violation "host_readiness_gates_current");;
  let new := MkGate (rg_CapabilityGeneration g) (rg_BaselineAssignmentGeneration g)
               (rg_PreflightGeneration g) (PreflightState g) (rg_ComplianceGeneration g)
               (ComplianceState g) (gate_state_of g projection) in
  if bool_decide (gates d !! rg_HostID g = Some new) then Ok d
  else fenceHostOperationAuthorityTx (rg_HostID g) "readiness_gate_changed"
         (d <| gates ::= <[rg_HostID g := new]> |>).

(** ** Arming and authorizing *)

(** The rows that must agree before a Host is armed. *)
Record armable := MkArmable {
  ab_host : identity_row; ab_enrollment : enrollment_row; ab_credential : credential_row;
  ab_evidence : evidence_row; ab_session : session_row; ab_authorization : authorization_row;
  ab_gate : gate_row; ab_projection : projection_row; ab_capability : Z;
}.

(** The queries of [ArmHostOperationAuthority]: every row exists, and the
    capability of the session authorization is not NULL. *)
Definition armable_rows (hostID : string) (d : db) : option armable :=
  host ← identities d !! hostID;
  enrollment ← enrollment_bindings d !! hostID;
  credential ← credential_bindings d !! hostID;
  evidence ← credential_evidence d !! (hostID, crd_revision credential);
  session ← sessions d !! hostID;
  authorization ← authorizations d !! hostID;
  gate ← gates d !! hostID;
  projection ← projections d !! hostID;
  capability ← ath_capability authorization;
  Some (MkArmable host enrollment credential evidence session authorization gate projection capability).

Definition is_armable (now : Z) (mode : string) (r : armable) : bool :=
  (mode ==s "ACTIVE") && (enrollment_state (ab_host r) ==s "APPROVED")
  && (enr_state (ab_enrollment r) ==s "ENROLLED") && (crd_state (ab_credential r) ==s "CURRENT")
  && (cev_state (ab_evidence r) ==s "ACTIVE") && time_valid now (ab_evidence r)
  && (ses_state (ab_session r) ==s "CURRENT") && (ath_state (ab_authorization r) ==s "AUTHORIZED")
  && (gat_state (ab_gate r) ==s "READY") && (gat_preflight_state (ab_gate r) ==s "PASSED")
  && (gat_compliance_state (ab_gate r) ==s "COMPLIANT")
  && (ath_session (ab_authorization r) =? ses_generation (ab_session r))
  && (ath_credential (ab_authorization r) =? crd_revision (ab_credential r))
  && (ath_enrollment (ab_authorization r) =? enr_revision (ab_enrollment r))
  && (gat_capability (ab_gate r) =? ab_capability r)
  && (prj_generation (ab_projection r) =? ab_capability r)
  && (prj_state (ab_projection r) ==s "CURRENT").

Definition authority_of (hostID : string) (generation : Z) (r : armable) : HostMutationAuthority :=
  MkMutationAuthority hostID generation (ses_generation (ab_session r)) (crd_revision (ab_credential r))
    (enr_revision (ab_enrollment r)) (ab_capability r) (gat_baseline (ab_gate r))
    (gat_preflight (ab_gate r)) (gat_compliance (ab_gate r)).

(** [ArmHostOperationAuthority] *)
Definition ArmHostOperationAuthority (now : Z) (request : HostAuthorityArmRequest) (d : db) :
    res (db * HostMutationAuthority) :=
  let hostID := ar_HostID request in
  fail_if ((hostID ==s "") || (ar_PolicyID request ==s "") || (ar_PolicyGeneration request <? 1)
           || (ar_ActorID request ==s "") || (ar_ReasonCode request ==s ""))
    (errors_New "complete Host authority arming request is required");;
  r ← row (armable_rows hostID d) ErrHostAuthorityNotReady;
  fail_if (negb (is_armable now (database_mode d) r)) ErrHostAuthorityNotReady;;
  fail_if (MaxInt64 <=? host_authority_generation (ab_host r)) out_of_range;;
  let generation := host_authority_generation (ab_host r) + 1 in
  let d := d <| identities ::= <[hostID := (ab_host r) <| host_authority_generation := generation |>]> |> in
  let a := authority_of hostID generation r in
  let d := d <| authorities ::= <[hostID :=
             MkAuthorityRow generation "ARMED" (ma_SessionGeneration a) (CredentialBindingRevision a)
               (EnrollmentDecisionRevision a) (ma_CapabilityGeneration a) (ma_BaselineAssignmentGeneration a)
               (ma_PreflightGeneration a) (ma_ComplianceGeneration a) (ar_PolicyID request)
               (ar_PolicyGeneration request) (ar_ActorID request) (ar_ReasonCode request)]> |> in
  Ok (appendHostAuthorityEventTx hostID generation "ARMED" (ar_ReasonCode request)
        (JObj [("actor_id", JStr (ar_ActorID request)); ("policy_generation", JInt (ar_PolicyGeneration request));
               ("policy_id", JStr (ar_PolicyID request))]%string) d, a).

(** The joined rows of [AuthorizeHostMutation] and [readHostMutationAuthorityTx]
    (one query, written twice), and the states they test. *)
Definition mutation_authority (now : Z) (hostID : string) (authorityGeneration : Z) (d : db) :
    option HostMutationAuthority :=
  a ← authorities d !! hostID;
  host ← identities d !! hostID;
  session ← sessions d !! hostID;
  authorization ← authorizations d !! hostID;
  credential ← credential_bindings d !! hostID;
  evidence ← credential_evidence d !! (hostID, crd_revision credential);
  enrollment ← enrollment_bindings d !! hostID;
  gate ← gates d !! hostID;
  projection ← projections d !! hostID;
  if (aut_generation a =? authorityGeneration)
     && (enrollment_state host ==s "APPROVED") && (host_authority_generation host =? aut_generation a)
     && (ses_generation session =? aut_session a)
     && (ath_session authorization =? aut_session a)
     && bool_decide (ath_capability authorization = Some (aut_capability a))
     && (crd_revision credential =? aut_credential a)
     && (cev_state evidence ==s "ACTIVE") && time_valid now evidence
     && (enr_revision enrollment =? aut_enrollment a)
     && (gat_capability gate =? aut_capability a) && (gat_baseline gate =? aut_baseline a)
     && (gat_preflight gate =? aut_preflight a) && (gat_compliance gate =? aut_compliance a)
     && (prj_generation projection =? aut_capability a) && (prj_state projection ==s "CURRENT")
     && (aut_state a ==s "ARMED") && (ses_state session ==s "CURRENT")
     && (ath_state authorization ==s "AUTHORIZED") && (crd_state credential ==s "CURRENT")
     && (enr_state enrollment ==s "ENROLLED") && (gat_state gate ==s "READY")
  then Some (MkMutationAuthority hostID (aut_generation a) (aut_session a) (aut_credential a)
               (aut_enrollment a) (aut_capability a) (aut_baseline a) (aut_preflight a) (aut_compliance a))
  else None.

(** [AuthorizeHostMutation] and [readHostMutationAuthorityTx] *)
Definition AuthorizeHostMutation (now : Z) (hostID : string) (authorityGeneration : Z) (d : db) :
    res HostMutationAuthority :=
  row (mutation_authority now hostID authorityGeneration d) ErrHostAuthorityNotArmed.
Definition readHostMutationAuthorityTx (now : Z) (hostID : string) (authorityGeneration : Z) (d : db) :
    res HostMutationAuthority :=
  row (mutation_authority now hostID authorityGeneration d) ErrHostAuthorityNotArmed.
