(* ===== verification/SessionRegistry.v ===== *)
(** * postgres/session_registry.go: the admission of Agent sessions

    One current session per Host.  An attempt is recorded once, with its
    evidence; a new attempt advances the session generation by one, fences the
    session before it, and the mutation authority granted on it. *)

From S2P Require Import Prelude GoStd GoJson ControlDb CommandEvents HostTrust.
Local Open Scope Z_scope.
Local Open Scope go_scope.

Definition ErrDatabaseAuthorityNotActive : goerr := errors_New "database authority is not active".
Definition ErrSessionAttemptConflict : goerr := errors_New "Agent session attempt evidence conflict".
Definition ErrSessionGenerationConflict : goerr := errors_New "Agent proposed session generation is not current".

Record AgentSessionAdmission := MkAdmission {
  SessionAttemptID : string; sa_HostID : string; ConnectionInstanceID : string;
  TransportProfile : string; ProtocolVersion : string; AgentArtifactDigest : string;
  sa_CredentialBindingRevision : Z; PeerCertificateFingerprint : string; HandshakeEvidence : json;
  ExpectedSessionGeneration : Z;
}.

Record AgentSessionGrant := MkSessionGrant {
  sg_HostID : string; sg_SessionAttemptID : string; sg_SessionGeneration : Z; DatabaseTime : option Z;
}.

(** [appendSessionEventTx]; a generation that is not positive is NULL. *)
Definition appendSessionEventTx (attemptID eventType : string) (generation : Z) (payload : json) (d : db) : db :=
  d <| session_events ::= append_event attemptID
         (MkEvent eventType "" (if 0 <? generation then Some generation else None) payload) |>.

Definition attempt_of (r : AgentSessionAdmission) : attempt_row :=
  MkAttempt (sa_HostID r) (ConnectionInstanceID r) (TransportProfile r) (ProtocolVersion r)
    (AgentArtifactDigest r) (sa_CredentialBindingRevision r) (HandshakeEvidence r)
    (digestBytes (marshal (HandshakeEvidence r))).

(** The columns a repeated attempt must agree on. *)
Definition same_attempt (a b : attempt_row) : bool :=
  (att_host a ==s att_host b) && (att_connection a ==s att_connection b)
  && (att_transport a ==s att_transport b) && (att_protocol a ==s att_protocol b)
  && (att_artifact a ==s att_artifact b) && (att_credential a =? att_credential b)
  && (att_digest a ==s att_digest b).

(** [INSERT INTO kim.agent_transport_session_attempts ... ON CONFLICT DO NOTHING]
    and, when nothing was inserted, the comparison with the accepted row; the
    flag is [createdAttempt]. *)
Definition record_attempt (r : AgentSessionAdmission) (d : db) : res (db * bool) :=
  let new := attempt_of r in
  fail_if (negb (hex64 (AgentArtifactDigest r)))
    (Wrapf "record Agent session attempt: %w" [] (check_violation "agent_transport_session_attempts"));;
  if any_row (fun id a => (id ==s SessionAttemptID r)
                          || ((att_host a ==s sa_HostID r) && (att_connection a ==s ConnectionInstanceID r)))
       (session_attempts d)
  then
    accepted ← row (session_attempts d !! SessionAttemptID r) ErrSessionAttemptConflict;
    fail_if (negb (same_attempt accepted new)) ErrSessionAttemptConflict;;
    Ok (d, false)
  else Ok (d <| session_attempts ::= <[SessionAttemptID r := new]> |>, true).

(** The row of a new current session, with its events. *)
Definition grant_session (r : AgentSessionAdmission) (old : option session_row) (newGeneration : Z) (d : db) :
    res db :=
  fail_if (newGeneration <? 1) (check_violation "agent_transport_sessions_current");;
  let d := match old ≫= ses_attempt, old with
           | Some oldAttempt, Some s =>
               appendSessionEventTx oldAttempt "FENCED" (ses_generation s)
                 (JObj [("superseded_by"%string, JStr (SessionAttemptID r))]) d
           | _, _ => d
           end in
  let d := appendSessionEventTx (SessionAttemptID r) "OPENED" 0
             (JObj [("connection_instance_id"%string, JStr (ConnectionInstanceID r))]) d in
  let d := appendSessionEventTx (SessionAttemptID r) "CURRENT_GRANTED" newGeneration
             (JObj [("session_generation"%string, JInt newGeneration)]) d in
  Ok (d <| sessions ::= <[sa_HostID r :=
        MkSession newGeneration "CURRENT" (ProtocolVersion r) (AgentArtifactDigest r)
          (sa_CredentialBindingRevision r) (Some (SessionAttemptID r))]> |>).

(** [AdmitAgentSessionTx] and [AdmitAgentSession] *)
Definition AdmitAgentSession (now : Z) (r : AgentSessionAdmission) (d : db) : res (db * AgentSessionGrant) :=
  let hostID := sa_HostID r in
  fail_if ((SessionAttemptID r ==s "") || (hostID ==s "") || (ConnectionInstanceID r ==s "")
           || (TransportProfile r ==s "") || (ProtocolVersion r ==s "") || (sa_CredentialBindingRevision r <? 1)
           || (len (PeerCertificateFingerprint r) !=z 64))
    (errors_New "complete Agent session admission identity is required");;
  fail_if (len (AgentArtifactDigest r) !=z 64)
    (errors_New "Agent artifact digest must contain 64 hexadecimal characters");;
  fail_if (database_mode d !=s "ACTIVE") ErrDatabaseAuthorityNotActive;;
  validateCurrentCredentialBindingTx now hostID (sa_CredentialBindingRevision r)
    (PeerCertificateFingerprint r) d;;
  '(d, createdAttempt) ← record_attempt r d;
  let old := sessions d !! hostID in
  let oldGeneration := match old with Some s => ses_generation s | None => 0 end in
  let newGeneration := i64 (oldGeneration + 1) in
  if bool_decide ((old ≫= ses_attempt) = Some (SessionAttemptID r))
  then Ok (d, MkSessionGrant hostID (SessionAttemptID r) oldGeneration None)
  else
    fail_if (negb createdAttempt) ErrSessionAttemptConflict;;
    fail_if ((0 <? ExpectedSessionGeneration r) && (ExpectedSessionGeneration r !=z newGeneration))
      ErrSessionGenerationConflict;;
    d ← grant_session r old newGeneration d;
    d ← fenceHostOperationAuthorityTx hostID "session_generation_changed" d;
    d ← refreshHostSessionAuthorizationTx now hostID d;
    Ok (d, MkSessionGrant hostID (SessionAttemptID r) newGeneration (Some now)).
