(* ===== verification/Receipts.v ===== *)
(** * postgres/agent_receipt.go and agent_resync.go: message receipts

    An Agent message is accepted once: its receipt is written in the
    transaction of its effects, a redelivery gets the same receipt back, and
    the same message id or sequence number with other contents is refused. *)

From S2P Require Import Prelude GoStd GoJson Envelope ControlDb.
Local Open Scope Z_scope.
Local Open Scope go_scope.

Definition ErrAgentMessageEvidenceConflict : goerr := errors_New "Agent message receipt evidence conflict".
Definition ErrAgentResyncSessionStale : goerr := errors_New "Agent resync session is not current".

(** [readAgentReceiptTx] *)
Definition receipt_of (hostID messageID : string) (r : receipt_row) : Receipt :=
  MkReceipt hostID (u64 (rcp_generation r)) (rcp_stream r) messageID (rcp_scope r) (rcp_sequence r)
    (rcp_digest r) (rcp_disposition r).
Definition readAgentReceiptTx (hostID messageID : string) (d : db) : option Receipt :=
  receipt_of hostID messageID <$> receipts d !! (hostID, messageID).

(** [SELECT session_generation ... WHERE state = 'CURRENT'] *)
Definition current_session (hostID : string) (d : db) : option Z :=
  s ← sessions d !! hostID;
  if ses_state s ==s "CURRENT" then Some (ses_generation s) else None.

(** UNIQUE (host_id, logical_stream, sequence_scope, sequence_number) *)
Definition sequence_taken (e : Envelope) (d : db) : bool :=
  any_row (fun key r => (fst key ==s HostIdentity e) && (rcp_stream r ==s Stream e)
                        && (rcp_scope r ==s SequenceScope e) && (rcp_sequence r =? Sequence e))
    (receipts d).

(** [recordAgentReceiptTx]; a [bigint] parameter holds at most [MaxInt64]. *)
Definition receipt_payload (currentGeneration : Z) (e : Envelope) : json :=
  JObj [("accepted_session_generation", JInt currentGeneration);
        ("transport_session_generation", JUint (SessionGeneration e))]%string.
Definition recordAgentReceiptTx (e : Envelope) (currentGeneration : Z) (disposition : string) (d : db) :
    res (db * Receipt) :=
  fail_if ((disposition !=s "ACCEPTED") && (disposition !=s "STALE"))
    (errors_New "unsupported Agent receipt disposition");;
  fail_if (MaxInt64 <? Sequence e) (Wrapf "commit Agent message receipt: %w" [] out_of_range);;
  fail_if ((currentGeneration <? 1) || negb (hex64 (PayloadDigest e)))
    (Wrapf "commit Agent message receipt: %w" [] (check_violation "agent_message_receipts"));;
  match readAgentReceiptTx (HostIdentity e) (MessageID e) d with
  | Some concurrent =>
      fail_if (negb (is_Ok (ValidateFor concurrent e))) ErrAgentMessageEvidenceConflict;;
      Ok (d, concurrent)
  | None =>
      fail_if (sequence_taken e d) ErrAgentMessageEvidenceConflict;;
      let r := MkReceiptRow currentGeneration (Stream e) (SequenceScope e) (Sequence e) (PayloadDigest e)
                 disposition (receipt_payload currentGeneration e) in
      Ok (d <| receipts ::= <[(HostIdentity e, MessageID e) := r]> |>,
          receipt_of (HostIdentity e) (MessageID e) r)
  end.

(** [acceptAgentMessageTx] *)
Definition acceptAgentMessageTx (e : Envelope) (d : db) : res (db * Receipt) :=
  match readAgentReceiptTx (HostIdentity e) (MessageID e) d with
  | Some existing =>
      fail_if (negb (is_Ok (ValidateFor existing e))) ErrAgentMessageEvidenceConflict;;
      Ok (d, existing)
  | None =>
      currentGeneration ← row (current_session (HostIdentity e) d)
        (Wrapf "read current Agent session for message receipt: %w" [] ErrNoRows);
      let disposition := if u64 currentGeneration !=z SessionGeneration e then "STALE"%string
                         else "ACCEPTED"%string in
      recordAgentReceiptTx e currentGeneration disposition d
  end.

(** [AcceptAgentMessage] *)
Definition AcceptAgentMessage (maxMessageBytes : Z) (e : Envelope) (d : db) : res (db * Receipt) :=
  Validate e maxMessageBytes;;
  acceptAgentMessageTx e d.

(** [CommitAgentResyncCheckpoint] *)
Definition CommitAgentResyncCheckpoint (hostID : string) (sessionGeneration : Z) (journalDigest : string)
    (checkpoint : json) (d : db) : res db :=
  fail_if ((hostID ==s "") || (sessionGeneration =? 0) || (len journalDigest !=z 64))
    (errors_New "complete Agent resync checkpoint identity is required");;
  currentGeneration ← row (current_session hostID d)
    (Wrapf "read current Agent session for resync: %w" [] ErrNoRows);
  fail_if (u64 currentGeneration !=z sessionGeneration) ErrAgentResyncSessionStale;;
  fail_if (negb (hex64 journalDigest))
    (Wrapf "commit Agent resync checkpoint: %w" [] (check_violation "agent_resync_checkpoints"));;
  Ok (d <| checkpoints ::= <[hostID := MkCheckpointRow currentGeneration journalDigest checkpoint]> |>).

(** ** Lemmas *)

(** A receipt row that the table's constraints admit. *)
Definition receipt_row_ok (r : receipt_row) : Prop :=
  is_i64 (rcp_generation r) /\ 0 < rcp_generation r /\ In (rcp_disposition r) dispositions.

Lemma receipt_of_identifies hostID messageID r e :
  identifies (receipt_of hostID messageID r) e <->
  hostID = HostIdentity e /\ rcp_stream r = Stream e /\ messageID = MessageID e
  /\ rcp_scope r = SequenceScope e /\ rcp_sequence r = Sequence e /\ rcp_digest r = PayloadDigest e.
Proof. done. Qed.

Lemma receipt_of_valid hostID messageID r e : receipt_row_ok r ->
  identifies (receipt_of hostID messageID r) e -> ValidateFor (receipt_of hostID messageID r) e = Ok tt.
Proof.
  intros (Hi & Hp & Hd) H. apply ValidateFor_iff. split_and!; [done| |done].
  cbn [rcpt_AcceptedSessionGeneration receipt_of]. rewrite u64_id; [lia|].
  unfold is_i64, is_u64, two63, two64 in *. lia.
Qed.
