(* ===== verification/Execution.v ===== *)
(** * postgres/execution.go: commands, leases, attempts and results

    A command is dispatched under a lease: a generation, an attempt, a secret
    token and the mutation authority it was granted on.  An attempt is journaled
    and its result accepted only while that lease is active, unexpired and its
    authority current; a lease that ends any other way leaves the command
    UNKNOWN, and only verification evidence makes it dispatchable again. *)

From S2P Require Import Prelude GoStd GoJson GoTime ControlDb CommandEvents HostTrust.
Local Open Scope Z_scope.
Local Open Scope go_scope.

Definition ErrCommandNotDispatchable : goerr := errors_New "Command is not dispatchable".
Definition ErrActiveCommandLease : goerr := errors_New "Command already has an active Lease".
Definition ErrStaleCommandLease : goerr := errors_New "Command Lease is stale or fenced".
Definition ErrCommandResultConflict : goerr := errors_New "Command Result evidence conflict".
Definition ErrStaleCommandResult : goerr := errors_New "stale Command Result cannot change authority".
Definition ErrVerificationConflict : goerr := errors_New "Command verification evidence conflict".

(** A [map[string]any] is the value [json.Marshal] writes for it. *)
Record ExecutionCommandRequest := MkCommandRequest {
  JobID : string; ec_CommandID : string; ec_HostID : string; ResourceType : string;
  ResourceID : string; DesiredRevision : Z; CommandType : string; ec_SchemaVersion : string;
  TargetResourceID : string; ec_Payload : json;
}.

Record CommandLeaseGrant := MkLeaseGrant {
  lg_CommandID : string; lg_HostID : string; LeaseGeneration : Z; lg_AttemptIndex : Z;
  lg_HostAuthorityGeneration : Z; lg_SessionGeneration : Z; Token : string; NotBefore : Z;
  ExpiresAt : Z; lg_AuthorityScope : string;
}.

(** tokenprotect.ProtectedValue and Protector, an interface with [Protect]
    of a token bound to a command id *)
Record ProtectedValue := MkProtected {
  KeyID : string; Algorithm : string; Nonce : string; Ciphertext : string;
}.
Definition Protect := bytes -> bytes -> res ProtectedValue.

Record CommandLeaseRequest := MkLeaseRequest {
  lr_CommandID : string; lr_HostAuthorityGeneration : Z; Duration : Z; ExecutionTimeout : Z;
  DeliveryProtector : option Protect; AuthorityScope : string;
}.

Definition CommandLeaseScopeMutation : string := "MUTATION".
Definition CommandLeaseScopeReadOnlyVerification : string := "READ_ONLY_VERIFICATION".

Record CommandLeaseDeliveryIntent := MkDeliveryIntent {
  di_SchemaVersion : string; di_CommandID : string; di_LeaseGeneration : Z; di_AttemptIndex : Z;
  di_HostID : string; di_HostAuthorityGeneration : Z; di_SessionGeneration : Z; TokenDigest : string;
  ProtectedToken : ProtectedValue; ExecutionTimeoutMillis : Z; di_ExpiresAt : timestamp;
}.

Record CommandAttemptStart := MkAttemptStart {
  as_CommandID : string; as_AttemptIndex : Z; as_LeaseToken : string; JournalEvidenceDigest : string;
}.

Record CommandResultSubmission := MkSubmission {
  rs_CommandID : string; rs_AttemptIndex : Z; rs_LeaseToken : string; ResultID : string;
  Outcome : string; rs_Payload : json;
}.

Record CommandResultReceipt := MkResultReceipt {
  ReceiptID : string; rr_CommandID : string; rr_AttemptIndex : Z; ResultDigest : string; rr_Outcome : string;
}.

Definition hour : Z := 3600000000000.

(** ** Creating a command *)

Definition same_job (r : ExecutionCommandRequest) (j : job_row) : bool :=
  (job_resource_type j ==s ResourceType r) && (job_resource_id j ==s ResourceID r)
  && (job_revision j =? DesiredRevision r).

Definition command_of (r : ExecutionCommandRequest) : command_row :=
  MkCommand (JobID r) (ec_HostID r) (CommandType r) (ec_SchemaVersion r) (TargetResourceID r)
    (ec_Payload r) (digestBytes (marshal (ec_Payload r))).

Definition same_command (a b : command_row) : bool :=
  (cmd_job a ==s cmd_job b) && (cmd_host a ==s cmd_host b) && (cmd_type a ==s cmd_type b)
  && (cmd_schema a ==s cmd_schema b) && (cmd_target a ==s cmd_target b) && (cmd_digest a ==s cmd_digest b).

(** [CreateExecutionCommand] *)
Definition CreateExecutionCommand (r : ExecutionCommandRequest) (d : db) : res db :=
  fail_if ((JobID r ==s "") || (ec_CommandID r ==s "") || (ec_HostID r ==s "") || (ResourceType r ==s "")
           || (ResourceID r ==s "") || (DesiredRevision r <? 1) || (CommandType r ==s "")
           || (ec_SchemaVersion r ==s "") || (TargetResourceID r ==s ""))
    (errors_New "complete typed Command identity is required");;
  let d := match jobs d !! JobID r with
           | Some _ => d
           | None => d <| jobs ::= <[JobID r :=
                       MkJob (ResourceType r) (ResourceID r) (DesiredRevision r) "DISPATCHABLE" None]> |>
           end in
  job ← row (jobs d !! JobID r) ErrCommandEvidenceConflict;
  fail_if (negb (same_job r job)) ErrCommandEvidenceConflict;;
  match commands d !! ec_CommandID r with
  | Some accepted => fail_if (negb (same_command accepted (command_of r))) ErrCommandEvidenceConflict;; Ok d
  | None =>
      row (identities d !! ec_HostID r) (Errorf "insert violates foreign key to %s" ["host_identities"%string]);;
      let d := d <| commands ::= <[ec_CommandID r := command_of r]> |> in
      let d := d <| command_states ::= <[ec_CommandID r := MkState "PENDING" 0]> |> in
      let d := d <| jobs ::= alter (fun j => j <| job_command := Some (ec_CommandID r) |>) (JobID r) |> in
      Ok (appendJobEventTx (JobID r) "COMMAND_CREATED"
            (JObj [("command_id", JStr (ec_CommandID r));
                   ("payload_digest", JStr (cmd_digest (command_of r)))]%string) d)
  end.

(** ** Authority *)

(** [isReadOnlyVerificationCommand] *)
Definition isReadOnlyVerificationCommand (commandType schemaVersion : string) : bool :=
  ((commandType ==s "SOURCE_ROOT_SAFETY_READ_BACK")
     && (schemaVersion ==s "kim.command.source-root-safety-read-back/v1"))
  || ((commandType ==s "NETWORK_PORT_OVS_DATAPLANE_OBSERVE")
     && (schemaVersion ==s "kim.command.network-port-ovs-dataplane-observe/v1"))
  || ((commandType ==s "LOCAL_LVM_VOLUME_READ_BACK")
     && (schemaVersion ==s "kim.command.local-lvm-volume-read-back/v1"))
  || ((commandType ==s "LOCAL_LVM_VOLUME_DELETE_READ_BACK")
     && (schemaVersion ==s "kim.command.local-lvm-volume-delete-read-back/v1")).

(** [readHostReadOnlyVerificationAuthorityTx]: the Host, the generation and
    the session; the other fields of the authority stay zero. *)
Definition read_only_authority (hostID : string) (authorityGeneration : Z) (d : db) :
    option HostMutationAuthority :=
  a ← authorities d !! hostID;
  host ← identities d !! hostID;
  session ← sessions d !! hostID;
  authorization ← authorizations d !! hostID;
  if (aut_generation a =? authorityGeneration) && (host_authority_generation host =? aut_generation a)
     && (ses_state session ==s "CURRENT") && (ath_session authorization =? ses_generation session)
     && ((aut_state a ==s "ARMED") || (aut_state a ==s "FENCED")) && (ath_state authorization ==s "AUTHORIZED")
  then Some (MkMutationAuthority hostID (aut_generation a) (ses_generation session) 0 0 0 0 0 0)
  else None.
Definition readHostReadOnlyVerificationAuthorityTx (hostID : string) (authorityGeneration : Z) (d : db) :
    res HostMutationAuthority :=
  row (read_only_authority hostID authorityGeneration d) ErrHostAuthorityNotArmed.

(** ** Acquiring a lease *)

Definition lease_authority (now : Z) (scope commandType schemaVersion hostID : string)
    (authorityGeneration : Z) (d : db) : res HostMutationAuthority :=
  if scope ==s CommandLeaseScopeMutation
  then readHostMutationAuthorityTx now hostID authorityGeneration d
  else if scope ==s CommandLeaseScopeReadOnlyVerification then
    fail_if (negb (isReadOnlyVerificationCommand commandType schemaVersion)) ErrCommandNotDispatchable;;
    readHostReadOnlyVerificationAuthorityTx hostID authorityGeneration d
  else Err (errors_New "unsupported Command Lease authority scope").

(** [SELECT COALESCE(max(lease_generation),0)+1] *)
Definition grants_of (commandID : string) (d : db) : list (Z * grant_row) :=
  (fun kg => (snd (fst kg), snd kg)) <$>
    List.filter (fun kg => fst (fst kg) ==s commandID) (map_to_list (lease_grants d)).
Definition max_generation (commandID : string) (d : db) : Z :=
  foldr (fun g m => Z.max (fst g) m) 0 (grants_of commandID d).

(** The immutable grant, the current lease, the attempt, and the states. *)
Definition insert_grant (commandID : string) (leaseGeneration : Z) (g : grant_row) (d : db) : res db :=
  fail_if (bool_decide (is_Some (lease_grants d !! (commandID, leaseGeneration)))
           || existsb (fun kg => grt_attempt (snd kg) =? grt_attempt g) (grants_of commandID d)
           || bool_decide (is_Some (attempts d !! (commandID, grt_attempt g))))
    (unique_violation "command_lease_grants");;
  fail_if (grt_expires g <=? grt_not_before g) (check_violation "command_lease_grants");;
  let d := d <| lease_grants ::= <[(commandID, leaseGeneration) := g]> |> in
  let d := d <| leases ::= <[commandID := MkLease leaseGeneration g "ACTIVE"]> |> in
  Ok (d <| attempts ::= <[(commandID, grt_attempt g) :=
        MkCommandAttempt leaseGeneration (grt_authority g) (grt_session g)]> |>).

Definition protected_json (v : ProtectedValue) : json :=
  JObj [("key_id", JStr (KeyID v)); ("algorithm", JStr (Algorithm v)); ("nonce", JStr (Nonce v));
        ("ciphertext", JStr (Ciphertext v))]%string.

(** [json.Marshal] of a [CommandLeaseDeliveryIntent] *)
Definition intent_json (i : CommandLeaseDeliveryIntent) : res json :=
  expires ← time_json (di_ExpiresAt i);
  Ok (JObj [("schema_version", JStr (di_SchemaVersion i)); ("command_id", JStr (di_CommandID i));
        ("lease_generation", JInt (di_LeaseGeneration i)); ("attempt_index", JInt (di_AttemptIndex i));
        ("host_id", JStr (di_HostID i));
        ("host_authority_generation", JInt (di_HostAuthorityGeneration i));
        ("session_generation", JInt (di_SessionGeneration i)); ("token_digest", JStr (TokenDigest i));
        ("protected_token", protected_json (ProtectedToken i));
        ("execution_timeout_millis", JInt (ExecutionTimeoutMillis i)); ("expires_at", expires)]%string).

(** [INSERT INTO kim.outbox_messages ... ON CONFLICT (message_id) DO NOTHING];
    the flag is [RowsAffected() = 1]. *)
Definition enqueue (now : Z) (messageID aggregateID eventType schemaVersion : string) (payload : json) (d : db) :
    db * bool :=
  match outbox d !! messageID with
  | Some _ => (d, false)
  | None =>
      (d <| outbox ::= <[messageID :=
         MkOutbox "COMMAND" aggregateID eventType schemaVersion (digestBytes (marshal payload)) payload
           "PENDING" now now None None 0 None 0]> |>, true)
  end.

Definition lease_message_id (commandID : string) (leaseGeneration : Z) : string :=
  ("command-lease-delivery/" ++ commandID ++ "/" ++ FormatInt leaseGeneration)%string.

Definition enqueue_delivery (now : Z) (i : CommandLeaseDeliveryIntent) (d : db) : res db :=
  payload ← intent_json i;
  let '(d, inserted) :=
    enqueue now (lease_message_id (di_CommandID i) (di_LeaseGeneration i)) (di_CommandID i)
      "COMMAND_LEASE_DELIVERY_REQUESTED" (di_SchemaVersion i) payload d in
  fail_if (negb inserted) ErrCommandEvidenceConflict;; Ok d.

(** The checks of [AcquireCommandLease] before its transaction, and the scope
    it settles on. *)
Definition lease_request_scope (r : CommandLeaseRequest) : string :=
  if AuthorityScope r ==s "" then CommandLeaseScopeMutation else AuthorityScope r.
Definition check_lease_request (r : CommandLeaseRequest) : res unit :=
  fail_if ((lr_CommandID r ==s "") || (lr_HostAuthorityGeneration r <? 1) || (Duration r <=? 0)
           || (hour <? Duration r))
    (errors_New "complete bounded Command Lease request is required");;
  fail_if (bool_decide (is_Some (DeliveryProtector r))
           && ((ExecutionTimeout r <=? 0) || (Duration r <=? ExecutionTimeout r) || (hour <? ExecutionTimeout r)))
    (errors_New "protected delivery requires an execution timeout shorter than the Lease").

Definition protect_token (r : CommandLeaseRequest) (token : string) : res (option ProtectedValue) :=
  match DeliveryProtector r with
  | None => Ok None
  | Some protect =>
      match protect token (lr_CommandID r) with
      | Ok v => Ok (Some v)
      | Err e => Err (Wrapf "protect Command Lease capability: %w" [] e)
      end
  end.

(** [command_state], once it can be dispatched *)
Definition dispatchable (state : string) : bool := (state ==s "PENDING") || (state ==s "REDISPATCHABLE").

(** [AcquireCommandLease], with the 32 bytes its token is made of *)
Definition AcquireCommandLease (now : Z) (tokenBytes : bytes) (r : CommandLeaseRequest) (d : db) :
    res (db * CommandLeaseGrant) :=
  check_lease_request r;;
  let commandID := lr_CommandID r in
  let scope := lease_request_scope r in
  let token := RawURLEncoding tokenBytes in
  protectedToken ← protect_token r token;
  command ← row (commands d !! commandID) ErrCommandNotDispatchable;
  let hostID := cmd_host command in
  current ← row (command_states d !! commandID) ErrCommandNotDispatchable;
  fail_if ((cst_state current ==s "LEASED") || (cst_state current ==s "EXECUTING")) ErrActiveCommandLease;;
  fail_if (negb (dispatchable (cst_state current))) ErrCommandNotDispatchable;;
  authority ← lease_authority now scope (cmd_type command) (cmd_schema command) hostID
                (lr_HostAuthorityGeneration r) d;
  fail_if (MaxInt64 <=? max_generation commandID d) out_of_range;;
  let leaseGeneration := max_generation commandID d + 1 in
  fail_if (MaxInt32 <=? cst_attempt current) out_of_range;;
  let attemptIndex := cst_attempt current + 1 in
  let expires := now + microseconds (Duration r) in
  let grant := MkGrant attemptIndex hostID (AuthorityGeneration authority) (ma_SessionGeneration authority)
                 (tokenSHA256 token) now expires scope in
  d ← insert_grant commandID leaseGeneration grant d;
  let d := d <| command_states ::= <[commandID := MkState "LEASED" attemptIndex]> |> in
  let d := set_job_state (cmd_job command) "LEASED" d in
  d ← appendLeaseEventTx commandID leaseGeneration "GRANTED"
        (JObj [("attempt_index", JInt attemptIndex); ("expires_at", JStr (RFC3339Nano expires));
               ("host_authority_generation", JInt (AuthorityGeneration authority));
               ("session_generation", JInt (ma_SessionGeneration authority))]%string) d;
  d ← appendAttemptEventTx commandID attemptIndex "LEASED" "lease_granted"
        (JObj [("lease_generation"%string, JInt leaseGeneration)]) d;
  d ← match protectedToken with
      | None => Ok d
      | Some v =>
          enqueue_delivery now
            (MkDeliveryIntent "kim.internal.command-lease-delivery/v1" commandID leaseGeneration attemptIndex
               hostID (AuthorityGeneration authority) (ma_SessionGeneration authority) (tokenSHA256 token) v
               (Z.quot (ExecutionTimeout r) 1000000) (utc expires)) d
      end;
  Ok (d, MkLeaseGrant commandID hostID leaseGeneration attemptIndex (AuthorityGeneration authority)
           (ma_SessionGeneration authority) token now expires scope).

(** ** Using a lease *)

Definition lease_live (now : Z) (l : lease_row) : bool :=
  (grt_not_before (lse_grant l) <=? now) && (now <? grt_expires (lse_grant l)).

(** [validateActiveLeaseTx] *)
Definition active_lease (now : Z) (commandID : string) (attemptIndex : Z) (token : string) (d : db) :
    option lease_row :=
  lease ← leases d !! commandID;
  if (grt_attempt (lse_grant lease) =? attemptIndex) && lease_live now lease
     && (lse_state lease ==s "ACTIVE") && (grt_token (lse_grant lease) ==s tokenSHA256 token)
  then Some lease else None.
Definition lease_authority_current (now : Z) (commandID : string) (lease : lease_row) (d : db) :
    res HostMutationAuthority :=
  let g := lse_grant lease in
  if grt_scope g ==s CommandLeaseScopeMutation
  then readHostMutationAuthorityTx now (grt_host g) (grt_authority g) d
  else if grt_scope g ==s CommandLeaseScopeReadOnlyVerification then
    command ← row (commands d !! commandID) ErrStaleCommandLease;
    fail_if (negb (isReadOnlyVerificationCommand (cmd_type command) (cmd_schema command))) ErrStaleCommandLease;;
    readHostReadOnlyVerificationAuthorityTx (grt_host g) (grt_authority g) d
  else Err ErrStaleCommandLease.
Definition validateActiveLeaseTx (now : Z) (commandID : string) (attemptIndex : Z) (token : string) (d : db) :
    res lease_row :=
  lease ← row (active_lease now commandID attemptIndex token d) ErrStaleCommandLease;
  match lease_authority_current now commandID lease d with
  | Ok authority =>
      fail_if (ma_SessionGeneration authority !=z grt_session (lse_grant lease)) ErrStaleCommandLease;;
      Ok lease
  | Err _ => Err ErrStaleCommandLease
  end.

(** [MarkCommandAttemptJournaled] *)
Definition MarkCommandAttemptJournaled (now : Z) (start : CommandAttemptStart) (d : db) : res db :=
  let commandID := as_CommandID start in
  fail_if ((commandID ==s "") || (as_AttemptIndex start <? 1) || (as_LeaseToken start ==s "")
           || (len (JournalEvidenceDigest start) !=z 64))
    (errors_New "complete Agent journal evidence is required");;
  lease ← validateActiveLeaseTx now commandID (as_AttemptIndex start) (as_LeaseToken start) d;
  d ← appendAttemptEventTx commandID (as_AttemptIndex start) "JOURNALED" "write_before_execute"
        (JObj [("journal_evidence_digest"%string, JStr (JournalEvidenceDigest start))]) d;
  d ← appendLeaseEventTx commandID (lse_generation lease) "STARTED"
        (JObj [("attempt_index"%string, JInt (as_AttemptIndex start))]) d;
  Ok (set_job_state_of commandID "EXECUTING" (set_command_state commandID "EXECUTING" d)).

(** [expireElapsedLeaseTx] *)
Definition expireElapsedLeaseTx (now : Z) (commandID : string) (attemptIndex : Z) (d : db) : res db :=
  match leases d !! commandID with
  | Some lease =>
      if (grt_attempt (lse_grant lease) =? attemptIndex) && (grt_expires (lse_grant lease) <=? now)
         && is_active lease
      then markLeaseUnknownTx commandID (lse_generation lease) attemptIndex "EXPIRED" "lease_expired" d
      else Ok d
  | None => Ok d
  end.

(** ** Results *)

Definition NUL : string := Eval compute in of_bytes [0].

Definition result_of (s : CommandResultSubmission) : result_row :=
  let digest := digestBytes (marshal (rs_Payload s)) in
  MkResult (ResultID s) digest (Outcome s) (rs_Payload s)
    (digestBytes (rs_CommandID s ++ NUL ++ FormatInt (rs_AttemptIndex s) ++ NUL ++ ResultID s ++ NUL
                  ++ Outcome s ++ NUL ++ digest)).

Definition same_result (a b : result_row) : bool :=
  (res_id a ==s res_id b) && (res_digest a ==s res_digest b) && (res_outcome a ==s res_outcome b).

Definition result_receipt (s : CommandResultSubmission) (r : result_row) : CommandResultReceipt :=
  MkResultReceipt (res_receipt r) (rs_CommandID s) (rs_AttemptIndex s) (res_digest (result_of s)) (Outcome s).

(** The states a result leads to. *)
Definition outcome_states (outcome : string) : string * string :=
  if outcome ==s "FAILED" then ("FAILED", "FAILED")%string
  else if outcome ==s "UNKNOWN" then ("UNKNOWN", "ACTION_REQUIRED")%string
  else ("VERIFYING", "VERIFYING")%string.

Definition insert_result (key : string * Z) (r : result_row) (d : db) : res db :=
  fail_if (any_row (fun _ o => (res_id o ==s res_id r) || (res_receipt o ==s res_receipt r)) (results d))
    (unique_violation "command_results");;
  Ok (d <| results ::= <[key := r]> |>).

(** The acceptance of a first result, under its lease. *)
Definition consume_lease (s : CommandResultSubmission) (lease : lease_row) (d : db) : res db :=
  let commandID := rs_CommandID s in
  let r := result_of s in
  d ← insert_result (commandID, rs_AttemptIndex s) r d;
  d ← appendAttemptEventTx commandID (rs_AttemptIndex s) "RESULT_ACCEPTED" "result_durably_accepted"
        (JObj [("outcome", JStr (Outcome s)); ("result_digest", JStr (res_digest r));
               ("result_id", JStr (ResultID s))]%string) d;
  d ← appendLeaseEventTx commandID (lse_generation lease) "CONSUMED"
        (JObj [("result_id"%string, JStr (ResultID s))]) d;
  let d := d <| leases ::= alter (fun l => l <| lse_state := "CONSUMED"%string |>) commandID |> in
  let '(commandState, jobState) := outcome_states (Outcome s) in
  Ok (set_job_state_of commandID jobState (set_command_state commandID commandState d)).

(** A result whose lease or authority is gone: the evidence is kept, and the
    transaction commits. *)
Definition reject_stale_result (now : Z) (s : CommandResultSubmission) (d : db) : res db :=
  d ← expireElapsedLeaseTx now (rs_CommandID s) (rs_AttemptIndex s) d;
  appendAttemptEventTx (rs_CommandID s) (rs_AttemptIndex s) "STALE_RESULT_REJECTED"
    "lease_or_authority_not_current"
    (JObj [("result_digest", JStr (res_digest (result_of s))); ("result_id", JStr (ResultID s))]%string) d.

Definition check_submission (s : CommandResultSubmission) : res unit :=
  fail_if ((rs_CommandID s ==s "") || (rs_AttemptIndex s <? 1) || (rs_LeaseToken s ==s "") || (ResultID s ==s ""))
    (errors_New "complete Command Result identity is required");;
  fail_if ((Outcome s !=s "SUCCEEDED") && (Outcome s !=s "FAILED") && (Outcome s !=s "UNKNOWN"))
    (errors_New "unsupported execution outcome").

(** [AcceptCommandResult]: the tables it leaves, and its answer; a stale result
    is an error that commits. *)
Definition accept_result_tx (now : Z) (s : CommandResultSubmission) (d : db) :
    res (db * res CommandResultReceipt) :=
  match results d !! (rs_CommandID s, rs_AttemptIndex s) with
  | Some accepted =>
      fail_if (negb (same_result accepted (result_of s))) ErrCommandResultConflict;;
      Ok (d, Ok (result_receipt s accepted))
  | None =>
      match validateActiveLeaseTx now (rs_CommandID s) (rs_AttemptIndex s) (rs_LeaseToken s) d with
      | Ok lease => d ← consume_lease s lease d; Ok (d, Ok (result_receipt s (result_of s)))
      | Err _ => d ← reject_stale_result now s d; Ok (d, Err ErrStaleCommandResult)
      end
  end.
Definition AcceptCommandResult (now : Z) (s : CommandResultSubmission) (d : db) :
    db * res CommandResultReceipt :=
  match (check_submission s;; accept_result_tx now s d) with
  | Ok outcome => outcome
  | Err e => (d, Err e)
  end.

(** ** Expiry *)

(** [ExpireCommandLease] *)
Definition ExpireCommandLease (now : Z) (commandID : string) (d : db) : res db :=
  lease ← row (leases d !! commandID) ErrStaleCommandLease;
  fail_if (now <? grt_expires (lse_grant lease)) ErrStaleCommandLease;;
  fail_if (negb (is_active lease)) ErrStaleCommandLease;;
  markLeaseUnknownTx commandID (lse_generation lease) (grt_attempt (lse_grant lease)) "EXPIRED" "lease_expired" d.

(** The candidates of [ExpireDueCommandLeases]. *)
Definition due_leases (now limit : Z) (d : db) : list string :=
  take (Z.to_nat limit) (fst <$>
    sort_Slice (less_then (less_on Z.ltb (fun kl => grt_expires (lse_grant (snd kl))))
                          (less_on String.ltb fst))
      (List.filter (fun kl : string * lease_row => is_active (snd kl) && (grt_expires (lse_grant (snd kl)) <=? now))
         (map_to_list (leases d)))).

(** The loop: one transaction per candidate; [Ok] carries the count and
    [Err] the error that ended it, with the tables so far. *)
Fixpoint expire_each (now : Z) (commandIDs : list string) (d : db) (expired : Z) : db * Z * option goerr :=
  match commandIDs with
  | [] => (d, expired, None)
  | commandID :: rest =>
      match ExpireCommandLease now commandID d with
      | Ok d' => expire_each now rest d' (expired + 1)
      | Err e =>
          if errors_Is e ErrStaleCommandLease then expire_each now rest d expired
          else (d, expired, Some e)
      end
  end.

(** [ExpireDueCommandLeases], with nothing in between its transactions *)
Definition ExpireDueCommandLeases (now limit : Z) (d : db) : db * Z * option goerr :=
  if (limit <? 1) || (1000 <? limit)
  then (d, 0, Some (errors_New "expired Command Lease batch limit must be between 1 and 1000"))
  else expire_each now (due_leases now limit d) d 0.
