(* ===== verification/Verification.v ===== *)
(** * postgres/execution.go and vm_power_state.go: verification and Agent decisions

    Read-back evidence resolves a command: MATCHED makes it SUCCEEDED,
    NOT_APPLIED makes it dispatchable again, anything else leaves it UNKNOWN.
    What an Agent reports is decided in one transaction with the receipt of its
    message. *)

From S2P Require Import Prelude GoStd GoJson Envelope ControlDb CommandEvents HostTrust Receipts.
From S2P Require Import Execution.
Local Open Scope Z_scope.
Local Open Scope go_scope.

Record CommandVerification := MkVerification {
  VerificationID : string; cv_CommandID : string; cv_AttemptIndex : Z; cv_ObservationGeneration : Z;
  ObservationDigest : string; cv_State : string; VerifierArtifactDigest : string; cv_Evidence : json;
}.

Record AgentCommandResultDecision := MkResultDecision {
  Start : CommandAttemptStart; Result : CommandResultSubmission; rd_Verification : option CommandVerification;
}.

Record AgentVerificationObservationDecision := MkObservationDecision {
  vd_TargetResourceID : string; CommandPayloadDigest : string; vd_Verification : CommandVerification;
}.

Record CommandDispatchCandidate := MkDispatchCandidate {
  dc_CommandID : string; dc_HostID : string; dc_HostAuthorityGeneration : Z; dc_SessionGeneration : Z;
  dc_CommandType : string; dc_SchemaVersion : string; dc_TargetResourceID : string; dc_Payload : json;
  dc_PayloadDigest : string;
}.

Record CommandVerificationCandidate := MkVerificationCandidate {
  vc_CommandID : string; vc_HostID : string; vc_SessionGeneration : Z; vc_AttemptIndex : Z;
  vc_CommandType : string; vc_SchemaVersion : string; vc_TargetResourceID : string; vc_Payload : json;
  vc_PayloadDigest : string;
}.

(** ** The power state of a virtual machine *)

(** [m[key]] of a decoded [map[string]any], and [.(string)] or "" *)
Definition json_member (key : string) (j : json) : option json :=
  match j with JObj ms => snd <$> List.find (fun m => fst m ==s key) ms | _ => None end.
Definition json_text (o : option json) : string :=
  match o with Some (JStr s) => s | _ => ""%string end.

Definition power_evidence_id (v : CommandVerification) : string :=
  ("vm-power/" ++ cv_CommandID v ++ "/" ++ FormatInt (cv_AttemptIndex v))%string.

Definition same_power_evidence (a b : power_evidence_row) : bool :=
  (pev_vm a ==s pev_vm b) && (pev_generation a =? pev_generation b) && (pev_command a ==s pev_command b)
  && (pev_attempt a =? pev_attempt b) && (pev_verification a ==s pev_verification b)
  && (pev_desired a ==s pev_desired b) && (pev_observed a ==s pev_desired b)
  && (pev_observation a =? pev_observation b) && (pev_digest a ==s pev_digest b)
  && (pev_verifier a ==s pev_verifier b).

(** The evidence a verification must show: the VM and its desired state, in
    [read_back] when there is one. *)
Definition read_back_matches (vmID desired : string) (evidence : json) : bool :=
  let e := match json_member "read_back" evidence with Some (JObj ms) => JObj ms | _ => evidence end in
  (json_text (json_member "domain_uuid" e) ==s vmID)
  && (json_text (json_member "desired_state" e) ==s desired)
  && (json_text (json_member "observed_state" e) ==s desired).

Definition vm_current (vmID hostID desired : string) (vmGeneration : Z) (d : db) : bool :=
  match vms d !! vmID, vm_readiness d !! vmID with
  | Some vm, Some ready =>
      (rdy_generation ready =? vm_generation vm) && (vm_generation vm =? vmGeneration)
      && (vm_host vm ==s hostID) && (vm_desired vm ==s desired) && (rdy_boot ready ==s "READY")
  | _, _ => false
  end.

Definition insert_power_evidence (id : string) (e : power_evidence_row) (d : db) : res db :=
  match power_evidence d !! id with
  | Some accepted => fail_if (negb (same_power_evidence accepted e)) ErrVerificationConflict;; Ok d
  | None =>
      fail_if (any_row (fun _ o => pev_verification o ==s pev_verification e) (power_evidence d))
        (unique_violation "vm_power_observation_evidence");;
      Ok (d <| power_evidence ::= <[id := e]> |>)
  end.

(** [ON CONFLICT (vm_id) DO UPDATE ... WHERE] the new row is later *)
Definition project_power (vmID : string) (p : power_row) (d : db) : db :=
  match power_states d !! vmID with
  | Some old =>
      if (pow_generation old <? pow_generation p)
         || ((pow_generation old =? pow_generation p) && (pow_observation old <? pow_observation p))
      then d <| power_states ::= <[vmID := p]> |> else d
  | None => d <| power_states ::= <[vmID := p]> |>
  end.

(** [projectMatchedVMPowerVerificationTx] *)
Definition desired_state (payload : json) : option string :=
  decode_struct false [string_field "desired_state" (fun s _ => s)] payload ""%string.
Definition projectMatchedVMPowerVerificationTx (v : CommandVerification) (d : db) : res db :=
  match (command ← commands d !! cv_CommandID v; job ← jobs d !! cmd_job command;
         if job_resource_type job ==s "VIRTUAL_MACHINE_POWER" then Some (command, job) else None) with
  | None => Ok d
  | Some (command, job) =>
      fail_if ((cmd_type command !=s "VIRTUAL_MACHINE_POWER_STATE_ENSURE")
               || (cmd_schema command !=s "kim.command.virtual-machine-power-state/v1")) ErrVerificationConflict;;
      desired ← row (desired_state (cmd_payload command)) ErrVerificationConflict;
      fail_if ((desired !=s "RUNNING") && (desired !=s "SHUTOFF")) ErrVerificationConflict;;
      let vmID := job_resource_id job in
      fail_if (negb (read_back_matches vmID desired (cv_Evidence v))) ErrVerificationConflict;;
      fail_if (negb (vm_current vmID (cmd_host command) desired (job_revision job) d)) ErrVerificationConflict;;
      d ← insert_power_evidence (power_evidence_id v)
            (MkPowerEvidence vmID (job_revision job) (cmd_host command) (cv_CommandID v) (cv_AttemptIndex v)
               (VerificationID v) desired desired (cv_ObservationGeneration v) (ObservationDigest v)
               (VerifierArtifactDigest v)) d;
      Ok (project_power vmID (MkPower (job_revision job) desired desired "MATCHED"
            (cv_ObservationGeneration v) (power_evidence_id v)) d)
  end.

(** ** Recording a verification *)

Definition verification_of (v : CommandVerification) : verification_row :=
  MkVerificationRow (cv_CommandID v) (cv_AttemptIndex v) (cv_ObservationGeneration v) (ObservationDigest v)
    (cv_State v) (VerifierArtifactDigest v) (cv_Evidence v).

(** [jsonb] equality of two values that [json.Marshal] wrote *)
Definition same_verification (a b : verification_row) : bool :=
  (ver_command a ==s ver_command b) && (ver_attempt a =? ver_attempt b)
  && (ver_generation a =? ver_generation b) && (ver_digest a ==s ver_digest b)
  && (ver_state a ==s ver_state b) && (ver_verifier a ==s ver_verifier b)
  && (marshal (ver_evidence a) ==s marshal (ver_evidence b)).

Definition check_verification (v : CommandVerification) : res unit :=
  fail_if ((VerificationID v ==s "") || (cv_CommandID v ==s "") || (cv_AttemptIndex v <? 1)
           || (cv_ObservationGeneration v <? 1) || (len (ObservationDigest v) !=z 64)
           || (len (VerifierArtifactDigest v) !=z 64))
    (errors_New "complete verification evidence is required");;
  fail_if ((cv_State v !=s "MATCHED") && (cv_State v !=s "NOT_APPLIED") && (cv_State v !=s "CONFLICTING")
           && (cv_State v !=s "UNKNOWN"))
    (errors_New "unsupported verification state").

(** The command state, job state and job event a verification leads to. *)
Definition resolution (verificationState commandState : string) : res (string * string * string) :=
  if verificationState ==s "MATCHED" then
    fail_if ((commandState !=s "VERIFYING") && (commandState !=s "UNKNOWN")) ErrVerificationConflict;;
    Ok ("SUCCEEDED", "SUCCEEDED", "VERIFICATION_MATCHED")%string
  else if verificationState ==s "NOT_APPLIED" then
    fail_if (commandState !=s "UNKNOWN") ErrVerificationConflict;;
    Ok ("REDISPATCHABLE", "DISPATCHABLE", "VERIFICATION_NOT_APPLIED")%string
  else Ok ("UNKNOWN", "ACTION_REQUIRED", "VERIFICATION_UNRESOLVED")%string.

(** [RecordCommandVerification] *)
Definition resolve_command (v : CommandVerification) (commandState jobID : string) (d : db) : res db :=
  d ← (if cv_State v ==s "MATCHED" then projectMatchedVMPowerVerificationTx v d else Ok d);
  '(commandNext, jobNext, eventType) ← resolution (cv_State v) commandState;
  let d := set_job_state jobID jobNext (set_command_state (cv_CommandID v) commandNext d) in
  Ok (appendJobEventTx jobID eventType
        (JObj [("attempt_index", JInt (cv_AttemptIndex v));
               ("observation_generation", JInt (cv_ObservationGeneration v));
               ("verification_id", JStr (VerificationID v))]%string) d).
Definition RecordCommandVerification (v : CommandVerification) (d : db) : res db :=
  check_verification v;;
  current ← row (command_states d !! cv_CommandID v) ErrVerificationConflict;
  command ← row (commands d !! cv_CommandID v) ErrVerificationConflict;
  fail_if (cst_attempt current !=z cv_AttemptIndex v) ErrVerificationConflict;;
  fail_if (negb (hex64 (ObservationDigest v)) || negb (hex64 (VerifierArtifactDigest v)))
    (check_violation "command_verification_evidence");;
  match verifications d !! VerificationID v with
  | Some accepted => fail_if (negb (same_verification accepted (verification_of v))) ErrVerificationConflict;; Ok d
  | None =>
      row (attempts d !! (cv_CommandID v, cv_AttemptIndex v))
        (Errorf "insert violates foreign key to %s" ["command_attempts"%string]);;
      let d := d <| verifications ::= <[VerificationID v := verification_of v]> |> in
      resolve_command v (cst_state current) (cmd_job command) d
  end.

(** ** Decisions on Agent messages *)

(** [AcceptAgentCommandResult] *)
Definition decide_result (now : Z) (e : Envelope) (decision : AgentCommandResultDecision) (d : db) :
    res (db * Receipt) :=
  d ← MarkCommandAttemptJournaled now (Start decision) d;
  let '(d, answer) := AcceptCommandResult now (Result decision) d in
  answer;;
  d ← match rd_Verification decision with Some v => RecordCommandVerification v d | None => Ok d end;
  acceptAgentMessageTx e d.
Definition AcceptAgentCommandResult (now maxMessageBytes : Z) (e : Envelope)
    (decision : AgentCommandResultDecision) (d : db) : res (db * Receipt) :=
  Validate e maxMessageBytes;;
  let s := Result decision in
  fail_if ((as_CommandID (Start decision) ==s "") || (as_CommandID (Start decision) !=s rs_CommandID s)
           || (CorrelationKey e !=s rs_CommandID s) || (Sequence e !=z u64 (rs_AttemptIndex s)))
    ErrCommandEvidenceConflict;;
  match readAgentReceiptTx (HostIdentity e) (MessageID e) d with
  | Some existing =>
      fail_if (negb (is_Ok (ValidateFor existing e))) ErrAgentMessageEvidenceConflict;; Ok (d, existing)
  | None =>
      command ← row (commands d !! rs_CommandID s) ErrCommandEvidenceConflict;
      current ← row (command_states d !! rs_CommandID s) ErrCommandEvidenceConflict;
      session ← row (sessions d !! cmd_host command) ErrCommandEvidenceConflict;
      fail_if ((cmd_host command !=s HostIdentity e) || (ses_generation session !=z i64 (SessionGeneration e))
               || (ses_state session !=s "CURRENT")) ErrStaleCommandResult;;
      if (cst_state current !=s "LEASED") && (cst_state current !=s "EXECUTING") then
        d ← appendAttemptEventTx (rs_CommandID s) (rs_AttemptIndex s) "STALE_RESULT_REJECTED"
              "command_authority_not_current"
              (JObj [("result_id", JStr (ResultID s));
                     ("transport_session_generation", JUint (SessionGeneration e))]%string) d;
        recordAgentReceiptTx e (ses_generation session) "STALE" d
      else decide_result now e decision d
  end.

(** [AcceptAgentVerificationObservation] *)
Definition AcceptAgentVerificationObservation (maxMessageBytes : Z) (e : Envelope)
    (decision : AgentVerificationObservationDecision) (d : db) : res (db * Receipt) :=
  Validate e maxMessageBytes;;
  let v := vd_Verification decision in
  fail_if ((cv_CommandID v ==s "") || (CorrelationKey e !=s cv_CommandID v)
           || (Sequence e !=z u64 (cv_AttemptIndex v))) ErrVerificationConflict;;
  match readAgentReceiptTx (HostIdentity e) (MessageID e) d with
  | Some existing =>
      fail_if (negb (is_Ok (ValidateFor existing e))) ErrAgentMessageEvidenceConflict;; Ok (d, existing)
  | None =>
      command ← row (commands d !! cv_CommandID v) ErrVerificationConflict;
      current ← row (command_states d !! cv_CommandID v) ErrVerificationConflict;
      session ← row (sessions d !! cmd_host command) ErrVerificationConflict;
      authorization ← row (authorizations d !! cmd_host command) ErrVerificationConflict;
      fail_if ((ath_session authorization !=z ses_generation session)
               || (cmd_host command !=s HostIdentity e)
               || (ses_generation session !=z i64 (SessionGeneration e)) || (ses_state session !=s "CURRENT")
               || (ath_state authorization !=s "AUTHORIZED") || (cst_state current !=s "UNKNOWN")
               || (cst_attempt current !=z cv_AttemptIndex v)
               || (cmd_target command !=s vd_TargetResourceID decision)
               || (cmd_digest command !=s CommandPayloadDigest decision)) ErrVerificationConflict;;
      d ← RecordCommandVerification v d;
      acceptAgentMessageTx e d
  end.

(** ** Candidates *)

(** [LoadCommandVerificationCandidate] *)
Definition LoadCommandVerificationCandidate (commandID : string) (d : db) : res CommandVerificationCandidate :=
  '(candidate, state) ← row
    (command ← commands d !! commandID;
     current ← command_states d !! commandID;
     session ← sessions d !! cmd_host command;
     authorization ← authorizations d !! cmd_host command;
     if (ses_state session ==s "CURRENT") && (ath_session authorization =? ses_generation session)
        && (ath_state authorization ==s "AUTHORIZED")
     then Some (MkVerificationCandidate commandID (cmd_host command) (ses_generation session)
                  (cst_attempt current) (cmd_type command) (cmd_schema command) (cmd_target command)
                  (cmd_payload command) (cmd_digest command), cst_state current)
     else None)
    (Wrapf "load Command verification candidate: %w" [] ErrNoRows);
  fail_if ((state !=s "UNKNOWN") || (vc_AttemptIndex candidate <? 1)) ErrCommandNotDispatchable;;
  Ok candidate.

(** [LoadCommandDispatchCandidate] *)
Definition LoadCommandDispatchCandidate (commandID : string) (d : db) : res CommandDispatchCandidate :=
  command ← row (commands d !! commandID) ErrCommandNotDispatchable;
  current ← row (command_states d !! commandID) ErrCommandNotDispatchable;
  authority ← row (authorities d !! cmd_host command) ErrCommandNotDispatchable;
  fail_if ((cst_state current !=s "PENDING") && (cst_state current !=s "REDISPATCHABLE"))
    ErrCommandNotDispatchable;;
  Ok (MkDispatchCandidate commandID (cmd_host command) (aut_generation authority) (aut_session authority)
        (cmd_type command) (cmd_schema command) (cmd_target command) (cmd_payload command) (cmd_digest command)).
