(* ===== verification/HostInventory.v ===== *)
(** * postgres/host_inventory.go: accepting an inventory snapshot

    One transaction writes the receipt, the immutable snapshot, the capability
    projection of the Host when the snapshot is newer, and the projections of
    its PCI devices.  A newer projection fences the mutation authority armed on
    the one before it.  The snapshot is the decoded payload; its own JSON text is
    not modelled (nil and empty lists, one value here, differ in it). *)

From S2P Require Import Prelude GoStd GoJson Envelope Inventory ControlDb CommandEvents HostTrust.
From S2P Require Import Receipts.
Local Open Scope Z_scope.
Local Open Scope go_scope.

Definition ErrHostInventoryEvidenceConflict : goerr := errors_New "Host inventory evidence conflict".

(** ** JSON of a PCI device *)

(** A member with [omitempty]. *)
Definition omit_text (name value : string) : list (string * json) :=
  if value ==s "" then [] else [(name, JStr value)].
Definition device_json (v : Inventory.PCIDevice) : json :=
  JObj ([("address", JStr (Inventory.pci_Address v)); ("vendor_id", JStr (Inventory.VendorID v));
         ("device_id", JStr (Inventory.DeviceID v))]%string
        ++ omit_text "subsystem_vendor_id" (Inventory.SubsystemVendorID v)
        ++ omit_text "subsystem_device_id" (Inventory.SubsystemDeviceID v)
        ++ omit_text "driver" (Inventory.pci_Driver v)
        ++ omit_text "device_revision" (Inventory.DeviceRevision v)
        ++ omit_text "firmware_revision" (Inventory.FirmwareRevision v)
        ++ omit_text "iommu_group" (Inventory.pci_IOMMUGroup v)
        ++ [("numa_node_id", JInt (Inventory.pci_NUMANodeID v));
            ("sriov_total_vfs", JUint (Inventory.SRIOVTotalVFs v));
            ("sriov_enabled_vfs", JUint (Inventory.SRIOVEnabledVFs v))]%string
        ++ omit_text "pf_address" (Inventory.pci_PFAddress v)
        ++ match Inventory.pci_VFIndex v with Some i => [("vf_index"%string, JUint i)] | None => [] end
        ++ [("relationship_state"%string, JStr (Inventory.RelationshipState v))]
        ++ omit_text "relationship_reason" (Inventory.RelationshipReason v)).

(** ** The snapshot and the capability projection *)

(** [INSERT INTO kim.host_inventory_snapshots ... ON CONFLICT DO NOTHING], and
    the comparison with the accepted row. *)
Definition same_snapshot (a b : snapshot_row) : bool :=
  (snp_message a ==s snp_message b) && (snp_payload_digest a ==s snp_payload_digest b)
  && (snp_capability_digest a ==s snp_capability_digest b).
Definition insert_snapshot (hostID : string) (generation : Z) (s : snapshot_row) (d : db) : res db :=
  fail_if (MaxInt64 <? generation) (Wrapf "commit Host inventory snapshot: %w" [] out_of_range);;
  if bool_decide (is_Some (inventory_snapshots d !! (hostID, generation)))
     || any_row (fun key r => (fst key ==s hostID) && (snp_message r ==s snp_message s)) (inventory_snapshots d)
  then
    accepted ← row (inventory_snapshots d !! (hostID, generation)) ErrHostInventoryEvidenceConflict;
    fail_if (negb (same_snapshot accepted s)) ErrHostInventoryEvidenceConflict;; Ok d
  else Ok (d <| inventory_snapshots ::= <[(hostID, generation) := s]> |>).

(** [INSERT INTO kim.host_capability_projections ... ON CONFLICT (host_id) DO
    UPDATE ... WHERE] the new generation is later; a change fences. *)
Definition project_capabilities (hostID : string) (p : projection_row) (d : db) : res db :=
  match projections d !! hostID with
  | Some current =>
      if prj_generation current <? prj_generation p
      then fenceHostOperationAuthorityTx hostID "capability_generation_changed"
             (d <| projections ::= <[hostID := p]> |>)
      else
        fail_if ((prj_generation current =? prj_generation p) && (prj_snapshot current !=s prj_snapshot p))
          ErrHostInventoryEvidenceConflict;;
        Ok d
  | None =>
      fenceHostOperationAuthorityTx hostID "capability_generation_changed"
        (d <| projections ::= <[hostID := p]> |>)
  end.

(** ** PCI devices *)

(** [capabilityState] *)
Definition capabilityState (capabilities : list Inventory.Capability) (name : string) : string :=
  match List.find (fun c => Inventory.cap_Name c ==s name) capabilities with
  | Some c => Inventory.cap_State c
  | None => Inventory.AvailabilityUnknown
  end.

(** Values the columns of the table admit. *)
Definition device_admitted (v : Inventory.PCIDevice) : bool :=
  (Inventory.SRIOVTotalVFs v <=? MaxInt32) && (Inventory.SRIOVEnabledVFs v <=? Inventory.SRIOVTotalVFs v)
  && (-1 <=? Inventory.pci_NUMANodeID v) && (Inventory.pci_NUMANodeID v <=? MaxInt32)
  && match Inventory.pci_VFIndex v with
     | Some i => (i <=? MaxInt32) && (Inventory.pci_PFAddress v !=s "")
     | None => Inventory.pci_PFAddress v ==s ""
     end.

Definition project_device (e : Envelope) (hostID : string) (generation : Z) (observationState : string)
    (d : db) (v : Inventory.PCIDevice) : res db :=
  fail_if (negb (device_admitted v))
    (Wrapf "update PCI device projection %s: %w" [Inventory.pci_Address v]
       (check_violation "host_pci_device_projections"));;
  let key := (hostID, Inventory.pci_Address v) in
  let new := MkPciRow generation (MessageID e) (digestBytes (marshal (device_json v))) observationState v in
  match pci_projections d !! key with
  | Some old => if pcr_generation old <? generation then Ok (d <| pci_projections ::= <[key := new]> |>) else Ok d
  | None => Ok (d <| pci_projections ::= <[key := new]> |>)
  end.

(** [applyPCIDeviceProjectionsTx] *)
Definition project_fragment (e : Envelope) (s : Inventory.Snapshot) (d : db) (f : Inventory.Fragment) : res db :=
  match Inventory.fr_PCI f with
  | None => Ok d
  | Some pci =>
      foldM (project_device e (Inventory.HostIdentity s) (Inventory.ObservationGeneration s)
               (capabilityState (Inventory.Capabilities f) "kim.host.pci-observation.v1"))
        (Inventory.pci_Devices pci) d
  end.
Definition applyPCIDeviceProjectionsTx (e : Envelope) (s : Inventory.Snapshot) (d : db) : res db :=
  foldM (project_fragment e s) (Inventory.Fragments s) d.

(** ** The transaction *)

(** [applyHostInventoryTx] *)
Definition applyHostInventoryTx (now : Z) (e : Envelope) (s : Inventory.Snapshot) (capabilityPayload : bytes)
    (capabilityDigest : string) (d : db) : res db :=
  let hostID := Inventory.HostIdentity s in
  let generation := Inventory.ObservationGeneration s in
  d ← insert_snapshot hostID generation
        (MkSnapshotRow (MessageID e) (Inventory.SchemaVersion s) (Inventory.CollectionStatus s)
           (PayloadDigest e) capabilityDigest (Payload e)) d;
  let state := if Inventory.CollectionStatus s !=s "COMPLETE" then "DEGRADED"%string else "CURRENT"%string in
  d ← project_capabilities hostID
        (MkProjection generation (MessageID e) (Inventory.SchemaVersion s) state (PayloadDigest e)
           capabilityDigest capabilityPayload) d;
  d ← applyPCIDeviceProjectionsTx e s d;
  refreshHostSessionAuthorizationTx now hostID d.

(** The transaction of [AcceptHostInventory] *)
Definition accept_inventory_tx (now : Z) (e : Envelope) (s : Inventory.Snapshot) (capabilityPayload : bytes)
    (d : db) : res (db * Receipt) :=
  '(d, receipt) ← acceptAgentMessageTx e d;
  if rcpt_Disposition receipt !=s "ACCEPTED" then Ok (d, receipt)
  else
    d ← applyHostInventoryTx now e s capabilityPayload (sha256_hex capabilityPayload) d;
    Ok (d, receipt).
