(* ===== verification/Outbox.v ===== *)
(** * postgres/outbox.go: the durable outbox

    A publisher claims messages for a bounded time under a claim generation;
    only the current owner and generation can finish a message.  Every attempt
    leaves evidence, and the same evidence written twice is a success. *)

From S2P Require Import Prelude GoStd GoJson GoTime ControlDb.
Local Open Scope Z_scope.
Local Open Scope go_scope.

Definition ErrStaleOutboxClaim : goerr := errors_New "stale outbox claim".
Definition ErrOutboxEvidenceConflict : goerr := errors_New "outbox evidence digest conflict".

Record OutboxClaimRequest := MkClaimRequest {
  cr_Owner : string; Limit : Z; Lease : Z; EventTypes : list string;
}.

Record OutboxMessage := MkOutboxMessage {
  om_MessageID : string; AggregateType : string; AggregateID : string; EventType : string;
  om_SchemaVersion : string; om_PayloadDigest : string; om_Payload : json; om_ClaimGeneration : Z;
  ClaimExpiresAt : Z;
}.

Record OutboxClaim := MkClaim { cl_MessageID : string; cl_Owner : string; ClaimGeneration : Z }.

(** [appendOutboxDeliveryEventTx] *)
Definition appendOutboxDeliveryEventTx (claim : OutboxClaim) (eventType : string) (payload : json) (d : db) :
    res db :=
  fail_if ((cl_MessageID claim ==s "") || (cl_Owner claim ==s "") || (ClaimGeneration claim <? 1))
    (errors_New "complete outbox claim identity is required");;
  let key := (cl_MessageID claim, ClaimGeneration claim, eventType) in
  match outbox_events d !! key with
  | None =>
      row (outbox_attempts d !! (cl_MessageID claim, ClaimGeneration claim))
        (Wrapf "append outbox delivery event %s: %w" [eventType]
           (Errorf "insert violates foreign key to %s" ["outbox_delivery_attempts"%string]));;
      Ok (d <| outbox_events ::= <[key := payload]> |>)
  | Some accepted =>
      fail_if (digestBytes (marshal accepted) !=s digestBytes (marshal payload)) ErrOutboxEvidenceConflict;;
      Ok d
  end.

(** The WHERE clause of the claim. *)
Definition claimable (now : Z) (eventTypes : list string) (m : outbox_row) : bool :=
  (out_available m <=? now)
  && (Nat.eqb (length eventTypes) 0 || existsb (String.eqb (out_event m)) eventTypes)
  && ((out_state m ==s "PENDING")
      || ((out_state m ==s "CLAIMED") && match out_expires m with Some t => t <=? now | None => false end)).

(** The candidates, oldest first; no other transaction holds one of their rows. *)
Definition candidates (now : Z) (request : OutboxClaimRequest) (d : db) : list (string * outbox_row) :=
  take (Z.to_nat (Limit request))
    (sort_Slice (less_then (less_on Z.ltb (fun km => out_available (snd km)))
                  (less_then (less_on Z.ltb (fun km => out_created (snd km))) (less_on String.ltb fst)))
       (List.filter (fun km => claimable now (EventTypes request) (snd km)) (map_to_list (outbox d)))).

(** The updated row of a candidate, and the message returned for it. *)
Definition claim_row (now : Z) (request : OutboxClaimRequest) (m : outbox_row) : outbox_row :=
  m <| out_state := "CLAIMED"%string |> <| out_owner := Some (cr_Owner request) |>
    <| out_claim := Some (out_last_claim m + 1) |> <| out_last_claim := out_last_claim m + 1 |>
    <| out_expires := Some (now + microseconds (Lease request)) |> <| out_attempts := out_attempts m + 1 |>.
Definition message_of (now : Z) (request : OutboxClaimRequest) (km : string * outbox_row) : OutboxMessage :=
  let m := snd km in
  MkOutboxMessage (fst km) (out_aggregate_type m) (out_aggregate m) (out_event m) (out_schema m)
    (out_digest m) (out_payload m) (out_last_claim m + 1) (now + microseconds (Lease request)).

Definition claim_message (now : Z) (request : OutboxClaimRequest) (d : db) (km : string * outbox_row) : res db :=
  fail_if ((MaxInt64 <=? out_last_claim (snd km)) || (MaxInt32 <=? out_attempts (snd km)))
    (Wrapf "claim outbox messages: %w" [] out_of_range);;
  Ok (d <| outbox ::= <[fst km := claim_row now request (snd km)]> |>).

(** The attempt and the grant event of a claimed message. *)
Definition record_claim (request : OutboxClaimRequest) (d : db) (m : OutboxMessage) : res db :=
  let key := (om_MessageID m, om_ClaimGeneration m) in
  fail_if (bool_decide (is_Some (outbox_attempts d !! key)) || (om_ClaimGeneration m <? 1))
    (Wrapf "record outbox delivery attempt: %w" [] (unique_violation "outbox_delivery_attempts"));;
  appendOutboxDeliveryEventTx (MkClaim (om_MessageID m) (cr_Owner request) (om_ClaimGeneration m)) "CLAIM_GRANTED"
    (JObj [("claim_owner", JStr (cr_Owner request));
           ("lease_expires_at", JStr (RFC3339Nano (ClaimExpiresAt m)))]%string)
    (d <| outbox_attempts ::= <[key := MkOutboxAttempt (cr_Owner request) (ClaimExpiresAt m)]> |>).

(** [ClaimOutboxTx] *)
Definition ClaimOutboxTx (now : Z) (request : OutboxClaimRequest) (d : db) : res (db * list OutboxMessage) :=
  fail_if (cr_Owner request ==s "") (errors_New "outbox claim owner is required");;
  fail_if ((Limit request <? 1) || (1000 <? Limit request))
    (errors_New "outbox claim limit must be between 1 and 1000");;
  fail_if (Lease request <=? 0) (errors_New "outbox claim lease must be positive");;
  let claimed := candidates now request d in
  let messages := message_of now request <$> claimed in
  d ← foldM (claim_message now request) claimed d;
  d ← foldM (record_claim request) messages d;
  Ok (d, messages).

(** [RecordOutboxDispatchStartedTx] *)
Definition RecordOutboxDispatchStartedTx (claim : OutboxClaim) (detail : json) (d : db) : res db :=
  appendOutboxDeliveryEventTx claim "DISPATCH_STARTED" detail d.

(** [RecordOutboxDispatchUnknownTx] *)
Definition RecordOutboxDispatchUnknownTx (claim : OutboxClaim) (detail : json) (d : db) : res db :=
  appendOutboxDeliveryEventTx claim "DISPATCH_UNKNOWN" detail d.

(** [WHERE state = 'CLAIMED' AND claim_owner AND claim_generation] *)
Definition owns (claim : OutboxClaim) (m : outbox_row) : bool :=
  (out_state m ==s "CLAIMED") && bool_decide (out_owner m = Some (cl_Owner claim))
  && bool_decide (out_claim m = Some (ClaimGeneration claim)).

Definition finish (claim : OutboxClaim) (state : string) (d : db) : res db :=
  m ← row (outbox d !! cl_MessageID claim) ErrStaleOutboxClaim;
  fail_if (negb (owns claim m)) ErrStaleOutboxClaim;;
  Ok (d <| outbox ::= <[cl_MessageID claim :=
        m <| out_state := state |> <| out_owner := None |> <| out_claim := None |> <| out_expires := None |>]> |>).

(** [MarkOutboxDeliveredTx] *)
Definition MarkOutboxDeliveredTx (claim : OutboxClaim) (acknowledgement : json) (d : db) : res db :=
  d ← finish claim "DELIVERED" d;
  appendOutboxDeliveryEventTx claim "DELIVERY_ACKNOWLEDGED" acknowledgement d.

(** [MarkOutboxDeadLetterTx] *)
Definition MarkOutboxDeadLetterTx (claim : OutboxClaim) (reason : json) (d : db) : res db :=
  d ← finish claim "DEAD_LETTER" d;
  appendOutboxDeliveryEventTx claim "DEAD_LETTERED" reason d.
