(* ===== verification/Contract.v ===== *)
(** * execution/contract.go: the typed messages of command execution

    What the Agent and the control plane send each other about a command: the
    typed messages, their JSON, and the strict decoders with their checks.  A
    [json.RawMessage] is its text, a [map[string]any] the value [json.Marshal]
    writes for it. *)

From S2P Require Import Prelude GoStd GoJson GoTime GoFloat GoRaw.
Local Open Scope Z_scope.
Local Open Scope go_scope.

Definition CommandLeaseSchema : string := "kim.execution.command-lease/v1".
Definition CommandResultSchema : string := "kim.execution.command-result/v1".
Definition VerificationRequestSchema : string := "kim.execution.verification-request/v1".
Definition VerificationObservationSchema : string := "kim.execution.verification-observation/v1".

Record Observation := MkObservation {
  ob_State : string; ob_Digest : string; ob_Generation : Z; ob_Evidence : json;
}.

Record CommandLease := MkCommandLease {
  cl_SchemaVersion : string; cl_CommandID : string; cl_LeaseGeneration : Z; cl_AttemptIndex : Z;
  cl_HostID : string; cl_HostAuthorityGeneration : Z; cl_SessionGeneration : Z; cl_LeaseToken : string;
  cl_CommandType : string; cl_CommandSchemaVersion : string; cl_TargetResourceID : string;
  cl_CommandPayload : bytes; cl_CommandPayloadDigest : string; cl_ExecutionTimeoutMillis : Z;
}.

Record CommandResult := MkCommandResult {
  cr_SchemaVersion : string; cr_CommandID : string; cr_AttemptIndex : Z; cr_LeaseToken : string;
  cr_JournalDigest : string; cr_ResultID : string; cr_Outcome : string; cr_Result : json;
  cr_Observation : Observation; cr_VerifierDigest : string;
}.

Record VerificationRequest := MkVerificationRequest {
  vr_SchemaVersion : string; vr_CommandID : string; vr_AttemptIndex : Z; vr_HostID : string;
  vr_SessionGeneration : Z; vr_CommandType : string; vr_CommandSchemaVersion : string;
  vr_TargetResourceID : string; vr_CommandPayload : bytes; vr_CommandPayloadDigest : string;
}.

Record VerificationObservation := MkVerificationObservation {
  vo_SchemaVersion : string; vo_CommandID : string; vo_AttemptIndex : Z; vo_TargetResourceID : string;
  vo_CommandPayloadDigest : string; vo_Observation : Observation; vo_VerifierDigest : string;
  vo_JournalDigest : string;
}.

#[export] Instance observation_eta : Eta Observation := fun o =>
  MkObservation (ob_State o) (ob_Digest o) (ob_Generation o) (ob_Evidence o).
#[export] Instance command_lease_eta : Eta CommandLease := fun l =>
  MkCommandLease (cl_SchemaVersion l) (cl_CommandID l) (cl_LeaseGeneration l) (cl_AttemptIndex l)
    (cl_HostID l) (cl_HostAuthorityGeneration l) (cl_SessionGeneration l) (cl_LeaseToken l)
    (cl_CommandType l) (cl_CommandSchemaVersion l) (cl_TargetResourceID l) (cl_CommandPayload l)
    (cl_CommandPayloadDigest l) (cl_ExecutionTimeoutMillis l).
#[export] Instance command_result_eta : Eta CommandResult := fun r =>
  MkCommandResult (cr_SchemaVersion r) (cr_CommandID r) (cr_AttemptIndex r) (cr_LeaseToken r)
    (cr_JournalDigest r) (cr_ResultID r) (cr_Outcome r) (cr_Result r) (cr_Observation r) (cr_VerifierDigest r).
#[export] Instance verification_request_eta : Eta VerificationRequest := fun r =>
  MkVerificationRequest (vr_SchemaVersion r) (vr_CommandID r) (vr_AttemptIndex r) (vr_HostID r)
    (vr_SessionGeneration r) (vr_CommandType r) (vr_CommandSchemaVersion r) (vr_TargetResourceID r)
    (vr_CommandPayload r) (vr_CommandPayloadDigest r).
#[export] Instance verification_observation_eta : Eta VerificationObservation := fun v =>
  MkVerificationObservation (vo_SchemaVersion v) (vo_CommandID v) (vo_AttemptIndex v) (vo_TargetResourceID v)
    (vo_CommandPayloadDigest v) (vo_Observation v) (vo_VerifierDigest v) (vo_JournalDigest v).

(** ** JSON *)

(** The members of the structs, in the order [json.Marshal] writes them; a raw
    member that is not JSON makes it fail. *)
Definition lease_body (l : CommandLease) (payload : json) : json :=
  JObj
    [("schema_version", JStr (cl_SchemaVersion l)); ("command_id", JStr (cl_CommandID l));
     ("lease_generation", JInt (cl_LeaseGeneration l)); ("attempt_index", JInt (cl_AttemptIndex l));
     ("host_id", JStr (cl_HostID l)); ("host_authority_generation", JInt (cl_HostAuthorityGeneration l));
     ("session_generation", JInt (cl_SessionGeneration l)); ("lease_token", JStr (cl_LeaseToken l));
     ("command_type", JStr (cl_CommandType l)); ("command_schema_version", JStr (cl_CommandSchemaVersion l));
     ("target_resource_id", JStr (cl_TargetResourceID l)); ("command_payload", payload);
     ("command_payload_digest", JStr (cl_CommandPayloadDigest l));
     ("execution_timeout_millis", JInt (cl_ExecutionTimeoutMillis l))]%string.
Definition lease_json (l : CommandLease) : option json :=
  payload ← raw_json (cl_CommandPayload l); Some (lease_body l payload).

Definition observation_json (o : Observation) : json :=
  JObj [("state", JStr (ob_State o)); ("digest", JStr (ob_Digest o)); ("generation", JInt (ob_Generation o));
        ("evidence", ob_Evidence o)]%string.

Definition result_json (r : CommandResult) : json :=
  JObj [("schema_version", JStr (cr_SchemaVersion r)); ("command_id", JStr (cr_CommandID r));
        ("attempt_index", JInt (cr_AttemptIndex r)); ("lease_token", JStr (cr_LeaseToken r));
        ("journal_digest", JStr (cr_JournalDigest r)); ("result_id", JStr (cr_ResultID r));
        ("outcome", JStr (cr_Outcome r)); ("result", cr_Result r);
        ("observation", observation_json (cr_Observation r)); ("verifier_digest", JStr (cr_VerifierDigest r))]%string.

Definition request_body (r : VerificationRequest) (payload : json) : json :=
  JObj
    [("schema_version", JStr (vr_SchemaVersion r)); ("command_id", JStr (vr_CommandID r));
     ("attempt_index", JInt (vr_AttemptIndex r)); ("host_id", JStr (vr_HostID r));
     ("session_generation", JInt (vr_SessionGeneration r)); ("command_type", JStr (vr_CommandType r));
     ("command_schema_version", JStr (vr_CommandSchemaVersion r));
     ("target_resource_id", JStr (vr_TargetResourceID r)); ("command_payload", payload);
     ("command_payload_digest", JStr (vr_CommandPayloadDigest r))]%string.
Definition request_json (r : VerificationRequest) : option json :=
  payload ← raw_json (vr_CommandPayload r); Some (request_body r payload).

Definition verification_json (v : VerificationObservation) : json :=
  JObj [("schema_version", JStr (vo_SchemaVersion v)); ("command_id", JStr (vo_CommandID v));
        ("attempt_index", JInt (vo_AttemptIndex v)); ("target_resource_id", JStr (vo_TargetResourceID v));
        ("command_payload_digest", JStr (vo_CommandPayloadDigest v));
        ("observation", observation_json (vo_Observation v)); ("verifier_digest", JStr (vo_VerifierDigest v));
        ("journal_digest", JStr (vo_JournalDigest v))]%string.

(** A raw field takes any value; its text is read from the source. *)
Definition raw_field {R} (name : string) : field R := (name, fun _ r => Some r).

Definition lease_fields : list (field CommandLease) :=
  [string_field "schema_version" (fun s l => l <| cl_SchemaVersion := s |>);
   string_field "command_id" (fun s l => l <| cl_CommandID := s |>);
   int_field "lease_generation" (fun z l => l <| cl_LeaseGeneration := z |>);
   int_field "attempt_index" (fun z l => l <| cl_AttemptIndex := z |>);
   string_field "host_id" (fun s l => l <| cl_HostID := s |>);
   int_field "host_authority_generation" (fun z l => l <| cl_HostAuthorityGeneration := z |>);
   int_field "session_generation" (fun z l => l <| cl_SessionGeneration := z |>);
   string_field "lease_token" (fun s l => l <| cl_LeaseToken := s |>);
   string_field "command_type" (fun s l => l <| cl_CommandType := s |>);
   string_field "command_schema_version" (fun s l => l <| cl_CommandSchemaVersion := s |>);
   string_field "target_resource_id" (fun s l => l <| cl_TargetResourceID := s |>);
   raw_field "command_payload";
   string_field "command_payload_digest" (fun s l => l <| cl_CommandPayloadDigest := s |>);
   int_field "execution_timeout_millis" (fun z l => l <| cl_ExecutionTimeoutMillis := z |>)].

Definition observation_fields : list (field Observation) :=
  [string_field "state" (fun s o => o <| ob_State := s |>);
   string_field "digest" (fun s o => o <| ob_Digest := s |>);
   int_field "generation" (fun z o => o <| ob_Generation := z |>);
   map_field "evidence" ob_Evidence (fun j o => o <| ob_Evidence := j |>)].

Definition result_fields : list (field CommandResult) :=
  [string_field "schema_version" (fun s r => r <| cr_SchemaVersion := s |>);
   string_field "command_id" (fun s r => r <| cr_CommandID := s |>);
   int_field "attempt_index" (fun z r => r <| cr_AttemptIndex := z |>);
   string_field "lease_token" (fun s r => r <| cr_LeaseToken := s |>);
   string_field "journal_digest" (fun s r => r <| cr_JournalDigest := s |>);
   string_field "result_id" (fun s r => r <| cr_ResultID := s |>);
   string_field "outcome" (fun s r => r <| cr_Outcome := s |>);
   map_field "result" cr_Result (fun j r => r <| cr_Result := j |>);
   struct_field "observation" true observation_fields cr_Observation (fun o r => r <| cr_Observation := o |>);
   string_field "verifier_digest" (fun s r => r <| cr_VerifierDigest := s |>)].

Definition request_fields : list (field VerificationRequest) :=
  [string_field "schema_version" (fun s r => r <| vr_SchemaVersion := s |>);
   string_field "command_id" (fun s r => r <| vr_CommandID := s |>);
   int_field "attempt_index" (fun z r => r <| vr_AttemptIndex := z |>);
   string_field "host_id" (fun s r => r <| vr_HostID := s |>);
   int_field "session_generation" (fun z r => r <| vr_SessionGeneration := z |>);
   string_field "command_type" (fun s r => r <| vr_CommandType := s |>);
   string_field "command_schema_version" (fun s r => r <| vr_CommandSchemaVersion := s |>);
   string_field "target_resource_id" (fun s r => r <| vr_TargetResourceID := s |>);
   raw_field "command_payload";
   string_field "command_payload_digest" (fun s r => r <| vr_CommandPayloadDigest := s |>)].

Definition verification_fields : list (field VerificationObservation) :=
  [string_field "schema_version" (fun s v => v <| vo_SchemaVersion := s |>);
   string_field "command_id" (fun s v => v <| vo_CommandID := s |>);
   int_field "attempt_index" (fun z v => v <| vo_AttemptIndex := z |>);
   string_field "target_resource_id" (fun s v => v <| vo_TargetResourceID := s |>);
   string_field "command_payload_digest" (fun s v => v <| vo_CommandPayloadDigest := s |>);
   struct_field "observation" true observation_fields vo_Observation (fun o v => v <| vo_Observation := o |>);
   string_field "verifier_digest" (fun s v => v <| vo_VerifierDigest := s |>);
   string_field "journal_digest" (fun s v => v <| vo_JournalDigest := s |>)].

Definition zero_observation : Observation := MkObservation "" "" 0 JNull.
Definition zero_lease : CommandLease := MkCommandLease "" "" 0 0 "" 0 0 "" "" "" "" "" "" 0.
Definition zero_result : CommandResult := MkCommandResult "" "" 0 "" "" "" "" JNull zero_observation "".
Definition zero_request : VerificationRequest := MkVerificationRequest "" "" 0 "" 0 "" "" "" "" "".
Definition zero_verification : VerificationObservation :=
  MkVerificationObservation "" "" 0 "" "" zero_observation "" "".

(** [decodeStrict]; the text of a decoding error is left out. *)
Definition decodeStrict {R} (fields : list (field R)) (zero : R) (payload : bytes) : res R :=
  match decode_value payload with
  | Some (j, rest) =>
      match decode_struct true fields j zero with
      | Some r =>
          fail_if (negb (at_EOF rest)) (errors_New "trailing JSON values are not allowed");; Ok r
      | None => Err (errors_New "json: cannot decode execution message")
      end
  | None => Err (errors_New "json: cannot decode execution message")
  end.

(** ** Decoders *)

(** What [DecodeCommandLease] checks *)
Definition check_CommandLease (l : CommandLease) : res CommandLease :=
  fail_if ((cl_SchemaVersion l !=s CommandLeaseSchema) || (cl_CommandID l ==s "") || (cl_LeaseGeneration l <? 1)
           || (cl_AttemptIndex l <? 1) || (cl_HostID l ==s "") || (cl_HostAuthorityGeneration l <? 1)
           || (cl_SessionGeneration l <? 1) || (cl_LeaseToken l ==s "") || (cl_CommandType l ==s "")
           || (cl_CommandSchemaVersion l ==s "") || (cl_TargetResourceID l ==s "")
           || (len (cl_CommandPayload l) =? 0)
           || (len (cl_CommandPayloadDigest l) !=z 64) || (cl_ExecutionTimeoutMillis l <? 1)
           || (3600000 <? cl_ExecutionTimeoutMillis l))
    (errors_New "incomplete typed Command Lease");;
  Ok l.

(** What [DecodeCommandResult] checks *)
Definition check_CommandResult (r : CommandResult) : res CommandResult :=
  fail_if ((cr_SchemaVersion r !=s CommandResultSchema) || (cr_CommandID r ==s "") || (cr_AttemptIndex r <? 1)
           || (cr_LeaseToken r ==s "") || (len (cr_JournalDigest r) !=z 64) || (cr_ResultID r ==s "")
           || (len (ob_Digest (cr_Observation r)) !=z 64) || (ob_Generation (cr_Observation r) <? 1)
           || (len (cr_VerifierDigest r) !=z 64))
    (errors_New "incomplete typed Command Result");;
  fail_if ((cr_Outcome r !=s "SUCCEEDED") && (cr_Outcome r !=s "FAILED") && (cr_Outcome r !=s "UNKNOWN"))
    (Errorf "unsupported Command outcome %q" [cr_Outcome r]);;
  Ok r.

(** What [DecodeVerificationRequest] checks *)
Definition check_VerificationRequest (r : VerificationRequest) : res VerificationRequest :=
  fail_if ((vr_SchemaVersion r !=s VerificationRequestSchema) || (vr_CommandID r ==s "")
           || (vr_AttemptIndex r <? 1) || (vr_HostID r ==s "") || (vr_SessionGeneration r <? 1)
           || (vr_CommandType r ==s "") || (vr_CommandSchemaVersion r ==s "") || (vr_TargetResourceID r ==s "")
           || (len (vr_CommandPayload r) =? 0) || (len (vr_CommandPayloadDigest r) !=z 64))
    (errors_New "incomplete typed Verification Request");;
  Ok r.

(** What [DecodeVerificationObservation] checks *)
Definition check_VerificationObservation (o : VerificationObservation) : res VerificationObservation :=
  fail_if ((vo_SchemaVersion o !=s VerificationObservationSchema) || (vo_CommandID o ==s "")
           || (vo_AttemptIndex o <? 1) || (vo_TargetResourceID o ==s "")
           || (len (vo_CommandPayloadDigest o) !=z 64) || (ob_Generation (vo_Observation o) <? 1)
           || (len (ob_Digest (vo_Observation o)) !=z 64) || (len (vo_VerifierDigest o) !=z 64)
           || (len (vo_JournalDigest o) !=z 64))
    (errors_New "incomplete typed Verification Observation");;
  Ok o.

Definition DecodeCommandLease (payload : bytes) : res CommandLease :=
  lease ← decodeStrict lease_fields zero_lease payload;
  check_CommandLease (lease <| cl_CommandPayload := raw_member (fst <$> lease_fields) "command_payload" payload |>).

Definition DecodeCommandResult (payload : bytes) : res CommandResult :=
  result ← decodeStrict result_fields zero_result payload;
  check_CommandResult result.

Definition DecodeVerificationRequest (payload : bytes) : res VerificationRequest :=
  request ← decodeStrict request_fields zero_request payload;
  check_VerificationRequest
    (request <| vr_CommandPayload := raw_member (fst <$> request_fields) "command_payload" payload |>).

Definition DecodeVerificationObservation (payload : bytes) : res VerificationObservation :=
  observation ← decodeStrict verification_fields zero_verification payload;
  check_VerificationObservation observation.
