(* ===== verification/ContractProofs.v ===== *)
(** * The typed messages are read back as they were written

    What one side writes with [json.Marshal] passes the other side's strict
    decoder unchanged: the command payload keeps its very bytes, so its digest
    does too. *)

From S2P Require Import Prelude GoStd GoJson GoTime GoFloat GoRaw Contract.
Local Open Scope Z_scope.
Local Open Scope go_scope.

(** Machine integers and map values of the messages *)
Definition observation_typed (o : Observation) : Prop := is_i64 (ob_Generation o) /\ map_value (ob_Evidence o).
Definition result_typed (r : CommandResult) : Prop :=
  is_i64 (cr_AttemptIndex r) /\ map_value (cr_Result r) /\ observation_typed (cr_Observation r).
Definition verification_typed (v : VerificationObservation) : Prop :=
  is_i64 (vo_AttemptIndex v) /\ observation_typed (vo_Observation v).
Definition lease_typed (l : CommandLease) : Prop :=
  is_i64 (cl_LeaseGeneration l) /\ is_i64 (cl_AttemptIndex l) /\ is_i64 (cl_HostAuthorityGeneration l)
  /\ is_i64 (cl_SessionGeneration l) /\ is_i64 (cl_ExecutionTimeoutMillis l).
Definition request_typed (r : VerificationRequest) : Prop :=
  is_i64 (vr_AttemptIndex r) /\ is_i64 (vr_SessionGeneration r).

(** The text fields of a lease and of a request are ASCII. *)
Definition lease_ascii (l : CommandLease) : Prop :=
  Forall ascii_text
    [cl_SchemaVersion l; cl_CommandID l; cl_HostID l; cl_LeaseToken l; cl_CommandType l;
     cl_CommandSchemaVersion l; cl_TargetResourceID l; cl_CommandPayloadDigest l].
Definition request_ascii (r : VerificationRequest) : Prop :=
  Forall ascii_text
    [vr_SchemaVersion r; vr_CommandID r; vr_HostID r; vr_CommandType r; vr_CommandSchemaVersion r;
     vr_TargetResourceID r; vr_CommandPayloadDigest r].

Section Strict.
Context {R : Type} (fields : list (field R)) (zero : R).

Lemma decodeStrict_marshal j r : plain j -> decode_struct true fields j zero = Some r ->
  decodeStrict fields zero (marshal j) = Ok r.
Proof.
  intros Hp Hd. unfold decodeStrict.
  pose proof (decode_value_marshal j "" Hp separator_nil) as H. rewrite string_app_nil_r in H.
  by rewrite H, Hd.
Qed.
End Strict.

(** ** Results and observations *)

Lemma decode_observation o : observation_typed o ->
  decode_struct true observation_fields (observation_json o) zero_observation = Some o.
Proof.
  intros [Hg He]. destruct o as [s d g e]. cbn [ob_Generation ob_Evidence] in *.
  unfold observation_json. cbn [decode_struct ob_State ob_Digest ob_Generation ob_Evidence].
  cbn -[store_map ParseInt FormatInt]. rewrite ParseInt_FormatInt by done.
  by rewrite store_map_reads.
Qed.

Lemma decode_result r : result_typed r ->
  decode_struct true result_fields (result_json r) zero_result = Some r.
Proof.
  intros (Hi & Hm & Ho). destruct r as [s c i t jd id out res ob vd]. cbn in Hi, Hm, Ho.
  unfold result_json. cbn [decode_struct]. cbn -[store_map ParseInt FormatInt decode_struct observation_json observation_fields].
  rewrite ParseInt_FormatInt by done. rewrite store_map_reads by done.
  cbn -[observation_json observation_fields decode_struct]. by rewrite decode_observation.
Qed.

Lemma decode_verification v : verification_typed v ->
  decode_struct true verification_fields (verification_json v) zero_verification = Some v.
Proof.
  intros (Hi & Ho). destruct v as [s c i t d ob vd jd]. cbn in Hi, Ho.
  unfold verification_json. cbn [decode_struct]. cbn -[ParseInt FormatInt decode_struct observation_json observation_fields].
  rewrite ParseInt_FormatInt by done.
  cbn -[observation_json observation_fields decode_struct]. by rewrite decode_observation.
Qed.

(** a Command Result the Agent writes is read back unchanged by the control
    plane's strict decoder, its result and evidence maps included, whenever it
    passes the decoder's checks. *)
Theorem command_result_round_trip r : result_typed r -> plain (result_json r) ->
  DecodeCommandResult (marshal (result_json r)) = check_CommandResult r.
Proof.
  intros Ht Hp. unfold DecodeCommandResult.
  by rewrite (decodeStrict_marshal _ _ _ r Hp (decode_result r Ht)).
Qed.

Lemma verification_round_trip v : verification_typed v -> plain (verification_json v) ->
  DecodeVerificationObservation (marshal (verification_json v)) = check_VerificationObservation v.
Proof.
  intros Ht Hp. unfold DecodeVerificationObservation.
  by rewrite (decodeStrict_marshal _ _ _ v Hp (decode_verification v Ht)).
Qed.

(** ** Leases and requests *)

(** Decoding a lease leaves its raw payload to be read from the text. *)
Lemma decode_lease l p : lease_typed l ->
  decode_struct true lease_fields (lease_body l p) zero_lease = Some (l <| cl_CommandPayload := "" |>).
Proof.
  intros (? & ? & ? & ? & ?). destruct l as [s c g i h ha sg t ct cs tr pl pd et]. cbn in *.
  repeat (rewrite ParseInt_FormatInt by done; cbn). done.
Qed.

Lemma decode_request r p : request_typed r ->
  decode_struct true request_fields (request_body r p) zero_request = Some (r <| vr_CommandPayload := "" |>).
Proof.
  intros (? & ?). destruct r as [s c i h sg ct cs tr pl pd]. cbn in *.
  repeat (rewrite ParseInt_FormatInt by done; cbn). done.
Qed.

Ltac forall_texts H :=
  repeat match type of H with
  | Forall _ (_ :: _) => let H1 := fresh in apply Forall_cons in H as [H1 H]
  end.

Lemma lease_plain l p : lease_ascii l -> plain p -> plain (lease_body l p).
Proof. unfold lease_ascii, lease_body. intros H Hp. forall_texts H. plain_members. done. Qed.

Lemma request_plain r p : request_ascii r -> plain p -> plain (request_body r p).
Proof. unfold request_ascii, request_body. intros H Hp. forall_texts H. plain_members. done. Qed.

(** A raw member is written as the value it is the text of. *)
Lemma marshal_lease_body l p : marshal (lease_body l (JNum (marshal p))) = marshal (lease_body l p).
Proof. apply marshal_members. repeat (constructor; [cbn [fst snd]; by rewrite ?write_raw|]). constructor. Qed.

Lemma marshal_request_body r p : marshal (request_body r (JNum (marshal p))) = marshal (request_body r p).
Proof. apply marshal_members. repeat (constructor; [cbn [fst snd]; by rewrite ?write_raw|]). constructor. Qed.

Lemma raw_lease_payload l p : lease_ascii l -> plain p ->
  raw_member (fst <$> lease_fields) "command_payload" (marshal (lease_body l p)) = marshal p.
Proof.
  intros Hl Hp. unfold raw_member.
  pose proof (lease_plain l p Hl Hp) as H. unfold lease_body in *. rewrite raw_object_marshal by done.
  reflexivity.
Qed.

Lemma raw_request_payload r p : request_ascii r -> plain p ->
  raw_member (fst <$> request_fields) "command_payload" (marshal (request_body r p)) = marshal p.
Proof.
  intros Hr Hp. unfold raw_member.
  pose proof (request_plain r p Hr Hp) as H. unfold request_body in *. rewrite raw_object_marshal by done.
  reflexivity.
Qed.

(** The text of a lease whose payload compacts to [marshal p] *)
Lemma lease_text_round_trip l p : lease_typed l -> lease_ascii l -> plain p ->
  raw_json (cl_CommandPayload l) = Some (JNum (marshal p)) ->
  exists text, lease_json l = Some text
  /\ DecodeCommandLease (marshal text) = check_CommandLease (l <| cl_CommandPayload := marshal p |>).
Proof.
  intros Ht Ha Hp Hl. unfold lease_json. rewrite Hl. cbn [mbind option_bind].
  eexists. split; [reflexivity|]. rewrite marshal_lease_body. unfold DecodeCommandLease.
  rewrite (decodeStrict_marshal _ _ _ _ (lease_plain l p Ha Hp) (decode_lease l p Ht)). cbn [mbind res_bind].
  by rewrite raw_lease_payload.
Qed.

(** The text fields of a result are ASCII. *)
Definition result_ascii (r : CommandResult) : Prop :=
  Forall ascii_text
    [cr_SchemaVersion r; cr_CommandID r; cr_LeaseToken r; cr_JournalDigest r; cr_ResultID r; cr_Outcome r;
     cr_VerifierDigest r; ob_State (cr_Observation r); ob_Digest (cr_Observation r)].

Lemma result_plain r : result_ascii r -> plain (cr_Result r) -> plain (ob_Evidence (cr_Observation r)) ->
  plain (result_json r).
Proof.
  unfold result_ascii, result_json, observation_json. intros H H1 H2. forall_texts H. plain_members; done.
Qed.

(** a Command Lease is read back unchanged by the Agent's strict decoder,
    its raw payload byte for byte, whenever the payload is a compact JSON text,
    as [json.Marshal] writes it, and the lease passes the decoder's checks. *)
Theorem command_lease_round_trip l p : lease_typed l -> lease_ascii l -> plain p ->
  cl_CommandPayload l = marshal p ->
  exists text, lease_json l = Some text /\ DecodeCommandLease (marshal text) = check_CommandLease l.
Proof.
  intros Ht Ha Hp Hl. destruct (lease_text_round_trip l p Ht Ha Hp) as (text & H1 & H2).
  - rewrite Hl. by apply raw_json_marshal.
  - exists text. split; [done|]. rewrite H2, <- Hl. by destruct l.
Qed.

Lemma verification_request_round_trip r p : request_typed r -> request_ascii r -> plain p ->
  vr_CommandPayload r = marshal p ->
  exists text, request_json r = Some text
  /\ DecodeVerificationRequest (marshal text) = check_VerificationRequest r.
Proof.
  intros Ht Ha Hp Hr. unfold request_json. rewrite Hr, raw_json_marshal by done. cbn [mbind option_bind].
  eexists. split; [reflexivity|]. rewrite marshal_request_body. unfold DecodeVerificationRequest.
  rewrite (decodeStrict_marshal _ _ _ _ (request_plain r p Ha Hp) (decode_request r p Ht)). cbn [mbind res_bind].
  rewrite raw_request_payload by done. rewrite <- Hr. by destruct r.
Qed.

(** ** Concrete messages *)

Definition demo_payload : json := JObj [("desired_state", JStr "RUNNING"); ("vcpus", JNum "4")]%string.
Definition demo_lease : CommandLease :=
  MkCommandLease CommandLeaseSchema "cmd-1" 1 1 "host-a" 1 2 "token-1" "vm.power" "vm.power/v1" "vm-1"
    (marshal demo_payload) (sha256_hex (marshal demo_payload)) 30000.
Definition demo_observation : Observation :=
  MkObservation "APPLIED" (sha256_hex "state") 1 (JObj [("backend", JStr "libvirt")]%string).
Definition demo_result : CommandResult :=
  MkCommandResult CommandResultSchema "cmd-1" 1 "token-1" (sha256_hex "journal") "cmd-1-result-1" "SUCCEEDED"
    (JObj [("power", JStr "RUNNING"); ("uptime", JNum "12.5")]%string) demo_observation (sha256_hex "verifier").

Lemma demo_payload_plain : plain demo_payload.
Proof. unfold demo_payload. plain_members. split; [vm_compute; reflexivity|]. repeat constructor. Qed.

Lemma demo_result_plain : plain (result_json demo_result).
Proof.
  unfold result_json, observation_json, demo_result, demo_observation.
  cbn [cr_SchemaVersion cr_CommandID cr_AttemptIndex cr_LeaseToken cr_JournalDigest cr_ResultID cr_Outcome
    cr_Result cr_Observation cr_VerifierDigest ob_State ob_Digest ob_Generation ob_Evidence].
  plain_members. split; [vm_compute; reflexivity|]. repeat constructor.
Qed.

Lemma command_lease_round_trip_witness :
  exists text, lease_json demo_lease = Some text
  /\ DecodeCommandLease (marshal text) = check_CommandLease demo_lease
  /\ check_CommandLease demo_lease = Ok demo_lease.
Proof.
  destruct (command_lease_round_trip demo_lease demo_payload) as (text & H1 & H2).
  - unfold lease_typed, is_i64. cbn. unfold two63. lia.
  - unfold lease_ascii. repeat (constructor; [ascii_literal|]). constructor.
  - exact demo_payload_plain.
  - reflexivity.
  - exists text. split; [exact H1|]. split; [exact H2|]. vm_compute. reflexivity.
Defined.

Lemma command_result_round_trip_witness :
  DecodeCommandResult (marshal (result_json demo_result)) = check_CommandResult demo_result
  /\ check_CommandResult demo_result = Ok demo_result.
Proof.
  split; [|vm_compute; reflexivity]. apply command_result_round_trip.
  - unfold result_typed, observation_typed, is_i64. repeat split; vm_compute; congruence.
  - exact demo_result_plain.
Defined.
