(* ===== verification/MessageReceiver.v ===== *)
(** * gateway/message_receiver.go: what an Agent message asks the database

    A decoded result or observation becomes the decision its transaction takes.
    The receiver around them, with the image catalogue's own follow-up, is in
    GatewayServer.v. *)

From S2P Require Import Prelude GoStd GoJson Envelope ControlDb HostTrust Receipts Execution.
From S2P Require Import Verification Contract.
Local Open Scope Z_scope.
Local Open Scope go_scope.

(** The [switch] on the observed state. *)
Definition verification_state (observed : string) : string :=
  if observed ==s "MATCHED" then "MATCHED"
  else if observed ==s "NOT_APPLIED" then "NOT_APPLIED"
  else if observed ==s "CONFLICTING" then "CONFLICTING"
  else "UNKNOWN".

(** The decision on a Command Result; a FAILED one carries no verification. *)
Definition result_decision (r : CommandResult) : AgentCommandResultDecision :=
  let o := cr_Observation r in
  MkResultDecision
    (MkAttemptStart (cr_CommandID r) (cr_AttemptIndex r) (cr_LeaseToken r) (cr_JournalDigest r))
    (MkSubmission (cr_CommandID r) (cr_AttemptIndex r) (cr_LeaseToken r) (cr_ResultID r) (cr_Outcome r)
       (cr_Result r))
    (if cr_Outcome r !=s "FAILED" then
       Some (MkVerification (cr_CommandID r ++ "-verification-" ++ FormatInt (cr_AttemptIndex r)) (cr_CommandID r)
               (cr_AttemptIndex r) (ob_Generation o) (ob_Digest o) (verification_state (ob_State o))
               (cr_VerifierDigest r) (ob_Evidence o))
     else None).

(** The decision on a Verification Observation. *)
Definition observation_decision (v : VerificationObservation) : AgentVerificationObservationDecision :=
  let o := vo_Observation v in
  MkObservationDecision (vo_TargetResourceID v) (vo_CommandPayloadDigest v)
    (MkVerification (vo_CommandID v ++ "-resync-verification-" ++ FormatInt (vo_AttemptIndex v)) (vo_CommandID v)
       (vo_AttemptIndex v) (ob_Generation o) (ob_Digest o) (verification_state (ob_State o))
       (vo_VerifierDigest v)
       (JObj [("journal_digest", JStr (vo_JournalDigest v)); ("read_back", ob_Evidence o)]%string)).

(** The two typed branches of [Receive], after decoding. *)
Definition receive_result (now maxMessageBytes : Z) (e : Envelope) (r : CommandResult) (d : db) :
    res (db * Receipt) :=
  fail_if ((CorrelationKey e !=s cr_CommandID r) || (Sequence e !=z u64 (cr_AttemptIndex r)))
    (errors_New "Command Result envelope identity mismatch");;
  AcceptAgentCommandResult now maxMessageBytes e (result_decision r) d.
Definition receive_observation (maxMessageBytes : Z) (e : Envelope) (v : VerificationObservation) (d : db) :
    res (db * Receipt) :=
  fail_if ((CorrelationKey e !=s vo_CommandID v) || (Sequence e !=z u64 (vo_AttemptIndex v)))
    (errors_New "Verification Observation envelope identity mismatch");;
  AcceptAgentVerificationObservation maxMessageBytes e (observation_decision v) d.
