(* ===== verification/ControlFrames.v ===== *)
(** * What each transaction leaves alone

    The tables fall into those that decide who may mutate a Host
    ([trust_tables]) and those that follow its commands ([command_tables]).
    The lemmas here say which of them each transaction keeps, what fencing does
    to both, and that receipts and verification evidence are never lost. *)

From S2P Require Import Prelude GoStd GoJson Envelope ControlDb CommandEvents HostTrust SessionRegistry.
From S2P Require Import Receipts HostInventory Execution Verification Outbox.
Local Open Scope Z_scope.
Local Open Scope go_scope.

Definition trust_tables (d : db) :=
  (identities d, enrollment_bindings d, credential_evidence d, credential_bindings d, sessions d,
   projections d, gates d, authorities d).

Definition command_tables (d : db) :=
  (commands d, command_states d, leases d, lease_grants d, attempts d, results d, verifications d).

(** Tables that only ever gain rows. *)
Definition keeps_rows (d d' : db) : Prop :=
  receipts d ⊆ receipts d' /\ verifications d ⊆ verifications d' /\ results d ⊆ results d'
  /\ inbox d ⊆ inbox d' /\ inbox_conflicts d ⊆ inbox_conflicts d' /\ route_events d ⊆ route_events d'.

#[export] Instance keeps_rows_preorder : PreOrder keeps_rows.
Proof.
  split.
  - intros d. by split_and!.
  - intros a b c (H1 & H2 & H3 & H4 & H5 & H6) (G1 & G2 & G3 & G4 & G5 & G6). split_and!; etrans; eassumption.
Qed.

Lemma hex64_length s : hex64 s = true -> len s = 64.
Proof. unfold hex64. intros H. bools. done. Qed.

Lemma hex64_sha256 s : hex64 (sha256_hex s) = true.
Proof.
  unfold hex64. rewrite sha256_hex_length. apply forallb_forall. intros c Hc.
  pose proof (sha256_hex_chars s) as H. rewrite List.Forall_forall in H. specialize (H c Hc).
  unfold hex_char in H. lia.
Qed.

(** [foldM] relates its ends when each step does. *)
Lemma foldM_related {A B} (R : relation B) `{!PreOrder R} (f : B -> A -> res B) l :
  (forall b a b', f b a = Ok b' -> R b b') -> forall b b', foldM f l b = Ok b' -> R b b'.
Proof.
  intros Hf. induction l as [|a l IH]; intros b b' H; cbn [foldM] in H.
  - by injection H as <-.
  - apply bind_Ok_inv in H as (b1 & Hb & H). etrans; [by eapply Hf|by eapply IH].
Qed.

Lemma foldM_same {A B C} (view : B -> C) (f : B -> A -> res B) l :
  (forall b a b', f b a = Ok b' -> view b' = view b) -> forall b b', foldM f l b = Ok b' -> view b' = view b.
Proof.
  intros Hf b b' H. symmetry.
  assert (PreOrder (fun x y : B => view x = view y)) by (split; red; [done|intros ? ? ? -> ->; done]).
  eapply (foldM_related (fun x y => view x = view y)); [|exact H]. intros; symmetry; eauto.
Qed.

Create HintDb frame.

(** Open the guards of every transaction in the hypotheses. *)
Ltac open_tx :=
  repeat first [progress run_guards | match goal with
  | H : (let '(_, _) := ?p in _) = Ok _ |- _ => destruct p eqn:?
  | H : row ?o _ = Ok _ |- _ => destruct o eqn:?; cbn [row] in H
  | H : match ?o with Some _ => _ | None => _ end = Ok _ |- _ => destruct o eqn:?
  | H : match ?o with Ok _ => _ | Err _ => _ end = Ok _ |- _ => destruct o eqn:?
  | H : (if ?b then _ else _) = Ok _ |- _ => destruct b eqn:?
  | H : Ok _ = Ok _ |- _ => injection H as H
  | H : (_, _) = (_, _) |- _ => injection H as H
  | H : Some _ = Some _ |- _ => injection H as H
  end]; subst; cbn [fst snd] in *.

(** A frame whose tables are the same term once the updates compute. *)
Ltac same_tables := unfold keeps_rows; split_and!; reflexivity.

(** ** Events *)

Definition framed (d d' : db) : Prop :=
  trust_tables d' = trust_tables d /\ command_tables d' = command_tables d /\ keeps_rows d d'.

#[export] Instance framed_preorder : PreOrder framed.
Proof.
  split.
  - intros d. by split_and!.
  - intros a b c (H1 & H2 & H3) (G1 & G2 & G3). split_and!; [congruence|congruence|by etrans].
Qed.

Lemma appendLeaseEventTx_frame c g t p d d' : appendLeaseEventTx c g t p d = Ok d' -> framed d d'.
Proof. unfold appendLeaseEventTx, framed. intros. open_tx; same_tables. Qed.

Lemma appendAttemptEventTx_frame c i t r p d d' : appendAttemptEventTx c i t r p d = Ok d' -> framed d d'.
Proof. unfold appendAttemptEventTx, framed. intros. open_tx; same_tables. Qed.

Lemma set_job_state_frame j s d : framed d (set_job_state j s d).
Proof. unfold framed. same_tables. Qed.

Lemma set_job_state_of_frame c s d : framed d (set_job_state_of c s d).
Proof. unfold set_job_state_of, framed. destruct (commands d !! c); same_tables. Qed.

(** ** Fencing *)

(** What a lease becomes when it ends with [event]. *)
Definition retire (event : string) (l : lease_row) : lease_row :=
  if is_active l then l <| lse_state := event |> else l.

Definition fact_tables (d : db) := (commands d, lease_grants d, attempts d, results d, verifications d).

(** The leases of [fence] end with [event] and their commands are UNKNOWN. *)
Record ended (ends : string -> bool) (event : string) (d d' : db) : Prop := MkEnded {
  end_trust : trust_tables d' = trust_tables d;
  end_facts : fact_tables d' = fact_tables d;
  end_keeps : keeps_rows d d';
  end_lease c : leases d' !! c = (if ends c then retire event else id) <$> leases d !! c;
  end_state c : command_states d' !! c =
    (if ends c then fun st => st <| cst_state := "UNKNOWN"%string |> else id) <$> command_states d !! c;
}.

Lemma ended_none event d : ended (fun _ => false) event d d.
Proof. split; intros; [done..| |]; by rewrite option_fmap_id. Qed.

Lemma retire_retire e1 e2 l : e1 <> "ACTIVE"%string -> retire e2 (retire e1 l) = retire e1 l.
Proof.
  intros He. unfold retire. destruct (is_active l) eqn:E; [|by rewrite E].
  unfold is_active at 1. cbn. apply String.eqb_neq in He. by rewrite He.
Qed.

Lemma ended_trans e1 e2 event d d1 d2 : event <> "ACTIVE"%string ->
  ended e1 event d d1 -> ended e2 event d1 d2 -> ended (fun c => e1 c || e2 c) event d d2.
Proof.
  intros He [T1 F1 K1 L1 S1] [T2 F2 K2 L2 S2]. split.
  - congruence.
  - congruence.
  - by etrans.
  - intros c. rewrite L2, L1. destruct (e1 c), (e2 c); cbn; destruct (leases d !! c); cbn; try done.
    by rewrite retire_retire.
  - intros c. rewrite S2, S1. by destruct (e1 c), (e2 c); cbn; destruct (command_states d !! c).
Qed.

Lemma framed_ended ends event d d1 d2 : framed d1 d2 -> ended ends event d d1 -> ended ends event d d2.
Proof.
  intros (T & C & K) [T1 F1 K1 L1 S1]. unfold command_tables in C. injection C as C1 C2 C3 C4 C5 C6 C7.
  split.
  - congruence.
  - rewrite <- F1. unfold fact_tables. congruence.
  - by etrans.
  - intros c. by rewrite C3.
  - intros c. by rewrite C2.
Qed.

Lemma alter_lookup {A} (f : A -> A) k c (m : gmap string A) :
  alter f k m !! c = (if (k =? c)%string then f else id) <$> m !! c.
Proof.
  destruct (String.eqb_spec k c) as [->|Hne].
  - by rewrite lookup_alter_eq.
  - rewrite lookup_alter_ne by done. by rewrite option_fmap_id.
Qed.

Lemma markLeaseUnknownTx_ended c g i event reason d d' :
  markLeaseUnknownTx c g i event reason d = Ok d' -> ended (String.eqb c) event d d'.
Proof.
  unfold markLeaseUnknownTx. intros H.
  apply bind_Ok_inv in H as (d1 & H1 & H). apply bind_Ok_inv in H as (d2 & H2 & H). injection H as <-.
  apply appendLeaseEventTx_frame in H1. apply appendAttemptEventTx_frame in H2.
  eapply framed_ended; [apply set_job_state_of_frame|].
  assert (Hf := transitivity H1 H2). clear H1 H2. destruct Hf as (T & C & K).
  unfold command_tables in C. injection C as C1 C2 C3 C4 C5 C6 C7. split.
  - done.
  - unfold fact_tables. cbn. congruence.
  - done.
  - intros k. cbn. rewrite C3. cbn. by rewrite alter_lookup.
  - intros k. cbn. rewrite C2. cbn. by rewrite alter_lookup.
Qed.

Definition on_host (hostID : string) (d : db) (c : string) : bool :=
  match leases d !! c with
  | Some l => (grt_host (lse_grant l) ==s hostID) && is_active l
  | None => false
  end.

Lemma active_leases_spec hostID d c l : (c, l) ∈ active_leases hostID d <->
  leases d !! c = Some l /\ on_host hostID d c = true.
Proof.
  unfold active_leases, on_host. rewrite sort_elem, list_elem_of_In, filter_In, <- list_elem_of_In,
    elem_of_map_to_list. cbn. split.
  - intros [H1 H2]. by rewrite H1.
  - intros [H1 H2]. by rewrite H1 in H2.
Qed.

Lemma fence_leases_ended reason kls : forall d d',
  foldM (fence_lease reason) kls d = Ok d' ->
  ended (fun c => existsb (String.eqb c) (fst <$> kls)) "FENCED" d d'.
Proof.
  induction kls as [|[k l] kls IH]; intros d d' H; cbn [foldM] in H.
  - injection H as <-. apply ended_none.
  - apply bind_Ok_inv in H as (d1 & H1 & H). unfold fence_lease in H1. cbn [fst snd] in H1.
    apply markLeaseUnknownTx_ended in H1. apply IH in H.
    assert ("FENCED"%string <> "ACTIVE"%string) as Hne by discriminate.
    destruct (ended_trans _ _ _ _ _ _ Hne H1 H) as [T F K L S].
    split; [done..| |]; intros c; cbn; [rewrite L|rewrite S]; by rewrite (String.eqb_sym c k).
Qed.

(** Every ACTIVE lease of the Host is FENCED and its command UNKNOWN; nothing
    else of the commands changes. *)
Lemma fenceHostCommandLeasesTx_ended hostID reason d d' :
  fenceHostCommandLeasesTx hostID reason d = Ok d' -> ended (on_host hostID d) "FENCED" d d'.
Proof.
  intros H. apply fence_leases_ended in H as [T F K L S].
  assert (forall c, existsb (String.eqb c) (fst <$> active_leases hostID d) = on_host hostID d c) as E.
  { intros c. apply eq_true_iff_eq. rewrite existsb_string_in, <- list_elem_of_In, list_elem_of_fmap.
    split.
    - intros ([k l] & -> & Hk). by apply active_leases_spec in Hk as [_ Hk].
    - intros Hc. unfold on_host in Hc. destruct (leases d !! c) as [l|] eqn:El; [|done].
      exists (c, l). split; [done|]. apply active_leases_spec. split; [done|]. unfold on_host. by rewrite El. }
  split; [done..| |]; intros c; [rewrite L|rewrite S]; by rewrite E.
Qed.

(** ** The authority of a Host *)

Definition disarm (reason : string) (a : authority_row) : authority_row :=
  if aut_state a ==s "ARMED" then a <| aut_state := "FENCED"%string |> <| aut_reason := reason |> else a.

(** [fenceHostOperationAuthorityTx]: the trust tables but for the authority,
    which is no longer ARMED. *)
Record fenced (hostID reason : string) (d d' : db) : Prop := MkFenced {
  fen_trust : (identities d', enrollment_bindings d', credential_evidence d', credential_bindings d',
               sessions d', projections d', gates d')
              = (identities d, enrollment_bindings d, credential_evidence d, credential_bindings d,
                 sessions d, projections d, gates d);
  fen_authority h : authorities d' !! h =
    (if (hostID =? h)%string then disarm reason else id) <$> authorities d !! h;
  fen_facts : fact_tables d' = fact_tables d;
  fen_keeps : keeps_rows d d';
  fen_lease c : leases d' !! c = (if on_host hostID d c then retire "FENCED" else id) <$> leases d !! c;
  fen_state c : command_states d' !! c =
    (if on_host hostID d c then fun st => st <| cst_state := "UNKNOWN"%string |> else id)
      <$> command_states d !! c;
}.

Lemma ended_fenced hostID reason d d1 d' :
  trust_tables d1 = trust_tables (d <| authorities ::= alter (disarm reason) hostID |>) ->
  command_tables d1 = command_tables d -> keeps_rows d d1 ->
  ended (on_host hostID d1) "FENCED" d1 d' -> fenced hostID reason d d'.
Proof.
  intros T1 C1 K1 [T F K L S]. rewrite <- T in T1. clear T.
  unfold trust_tables in T1. injection T1 as E1 E2 E3 E4 E5 E6 E7 E8.
  unfold command_tables in C1. injection C1 as C1 C2 C3 C4 C5 C6 C7. cbn in *.
  assert (forall c, on_host hostID d1 c = on_host hostID d c) as Eo by (intros; unfold on_host; by rewrite C3).
  split.
  - congruence.
  - intros h. rewrite E8. apply alter_lookup.
  - rewrite F. unfold fact_tables. congruence.
  - by etrans.
  - intros c. by rewrite L, Eo, C3.
  - intros c. by rewrite S, Eo, C2.
Qed.

Lemma fenceHostOperationAuthorityTx_fenced hostID reason d d' :
  fenceHostOperationAuthorityTx hostID reason d = Ok d' -> fenced hostID reason d d'.
Proof.
  unfold fenceHostOperationAuthorityTx. intros H.
  assert (forall a, authorities d !! hostID = Some a -> (aut_state a ==s "ARMED") = false ->
    alter (disarm reason) hostID (authorities d) = authorities d) as Hid.
  { intros a Ha Hs. apply alter_id. intros a'. rewrite Ha. intros [= <-]. unfold disarm. by rewrite Hs. }
  destruct (authorities d !! hostID) as [a|] eqn:Ea; [destruct (aut_state a ==s "ARMED") eqn:Es|];
    apply fenceHostCommandLeasesTx_ended in H; (eapply ended_fenced; [| | |exact H]); try done.
  - unfold trust_tables. cbn. repeat f_equal. apply map_eq. intros h. rewrite alter_lookup.
    destruct (String.eqb_spec hostID h) as [<-|Hne].
    + rewrite lookup_insert_eq, Ea. cbn. unfold disarm. by rewrite Es.
    + rewrite lookup_insert_ne by done. by rewrite option_fmap_id.
  - unfold trust_tables. cbn. repeat f_equal. symmetry. by apply (Hid a).
  - unfold trust_tables. cbn. repeat f_equal. apply map_eq. intros h. rewrite alter_lookup.
    destruct (String.eqb_spec hostID h) as [<-|Hne]; [by rewrite Ea|by rewrite option_fmap_id].
Qed.

(** ** Transactions that leave the trust tables alone *)

Lemma recordAgentReceiptTx_framed e g disposition d d' r :
  recordAgentReceiptTx e g disposition d = Ok (d', r) -> framed d d'.
Proof.
  unfold recordAgentReceiptTx. intros H. open_tx; [done|].
  split_and!; [done..|]. unfold keeps_rows; cbn. split_and!; [|done..].
  apply insert_subseteq. unfold readAgentReceiptTx in *. by destruct (receipts d !! _).
Qed.

Lemma acceptAgentMessageTx_framed e d d' r : acceptAgentMessageTx e d = Ok (d', r) -> framed d d'.
Proof.
  unfold acceptAgentMessageTx. intros H. open_tx; [done|]. by eapply recordAgentReceiptTx_framed.
Qed.

Lemma refresh_framed now h d d' : refreshHostSessionAuthorizationTx now h d = Ok d' -> framed d d'.
Proof.
  unfold refreshHostSessionAuthorizationTx. intros H.
  destruct (sessions d !! h); [|by injection H as <-]. open_tx.
  destruct (authorization_of _ _ _ _ _ _ _) as [[? ?] ?]. open_tx. unfold framed. same_tables.
Qed.

Lemma ended_trust ends event d d' : ended ends event d d' -> trust_tables d' = trust_tables d /\ keeps_rows d d'.
Proof. by intros [T _ K _ _]. Qed.

Lemma finish_framed claim state d d' : finish claim state d = Ok d' -> framed d d'.
Proof. unfold finish. intros. open_tx. unfold framed. same_tables. Qed.

Lemma appendOutboxDeliveryEventTx_framed claim t p d d' :
  appendOutboxDeliveryEventTx claim t p d = Ok d' -> framed d d'.
Proof. unfold appendOutboxDeliveryEventTx. intros. open_tx; unfold framed; same_tables. Qed.

Lemma ClaimOutboxTx_framed now r d d' ms : ClaimOutboxTx now r d = Ok (d', ms) -> framed d d'.
Proof.
  unfold ClaimOutboxTx. intros H. open_tx. etrans.
  - eapply (foldM_related framed); [|eassumption]. intros b [k m] b'.
    unfold claim_message. intros. open_tx. unfold framed; same_tables.
  - eapply (foldM_related framed); [|eassumption]. intros b m b' Hb. unfold record_claim in Hb.
    open_tx. apply appendOutboxDeliveryEventTx_framed in Hb. etrans; [|exact Hb]. unfold framed; same_tables.
Qed.

Lemma MarkOutboxDeliveredTx_framed claim p d d' : MarkOutboxDeliveredTx claim p d = Ok d' -> framed d d'.
Proof.
  unfold MarkOutboxDeliveredTx. intros H. open_tx. etrans; [by eapply finish_framed|].
  by eapply appendOutboxDeliveryEventTx_framed.
Qed.

Lemma MarkOutboxDeadLetterTx_framed claim p d d' : MarkOutboxDeadLetterTx claim p d = Ok d' -> framed d d'.
Proof.
  unfold MarkOutboxDeadLetterTx. intros H. open_tx. etrans; [by eapply finish_framed|].
  by eapply appendOutboxDeliveryEventTx_framed.
Qed.

Lemma CommitAgentResyncCheckpoint_framed h g j c d d' :
  CommitAgentResyncCheckpoint h g j c d = Ok d' -> framed d d'.
Proof. unfold CommitAgentResyncCheckpoint. intros. open_tx. unfold framed; same_tables. Qed.
