(* ===== verification/CommandSteps.v ===== *)
(** * The life of a command

    [command_inv] is what the execution transactions keep true of every
    command: its attempts are numbered without gaps, it is leased or executing
    exactly while its lease is ACTIVE, and every attempt but the current one
    (the current one too, once the command is dispatchable again) was verified
    NOT_APPLIED.  [lifecycle] is the state machine they implement. *)

From S2P Require Import Prelude GoStd GoJson Envelope ControlDb CommandEvents HostTrust SessionRegistry.
From S2P Require Import Receipts HostInventory Execution Verification Outbox ControlFrames.
Local Open Scope Z_scope.
Local Open Scope go_scope.

(** ** The invariant *)

(** Evidence that attempt [i] of [c] had no effect. *)
Definition not_applied (d : db) (c : string) (i : Z) : Prop :=
  exists id v, verifications d !! id = Some v /\ ver_command v = c /\ ver_attempt v = i
               /\ ver_state v = "NOT_APPLIED"%string.

Definition in_flight (state : string) : Prop := state = "LEASED"%string \/ state = "EXECUTING"%string.

#[export] Instance in_flight_dec state : Decision (in_flight state).
Proof. unfold in_flight. apply _. Defined.

Record command_ok (d : db) (c : string) (st : state_row) : Prop := MkCommandOk {
  ok_nonneg : 0 <= cst_attempt st;
  ok_command : is_Some (commands d !! c);
  ok_attempts i : is_Some (attempts d !! (c, i)) <-> 1 <= i <= cst_attempt st;
  ok_lease l : leases d !! c = Some l ->
    1 <= cst_attempt st /\ grt_attempt (lse_grant l) = cst_attempt st /\ lease_grants d !! (c, lse_generation l) = Some (lse_grant l);
  ok_active : in_flight (cst_state st) <-> (exists l, leases d !! c = Some l /\ is_active l = true);
  ok_pending : cst_state st = "PENDING"%string -> cst_attempt st = 0;
  ok_resolved i : 1 <= i < cst_attempt st -> not_applied d c i;
  ok_redispatch : cst_state st = "REDISPATCHABLE"%string -> not_applied d c (cst_attempt st);
  ok_result i r : results d !! (c, i) = Some r ->
    1 <= i <= cst_attempt st /\ (i = cst_attempt st -> ~ in_flight (cst_state st));
}.

(** A command the tables do not know. *)
Definition command_absent (d : db) (c : string) : Prop :=
  commands d !! c = None /\ leases d !! c = None
  /\ forall i, attempts d !! (c, i) = None /\ results d !! (c, i) = None.

Definition command_at (d : db) (c : string) : Prop :=
  match command_states d !! c with Some st => command_ok d c st | None => command_absent d c end.

Definition command_inv (d : db) : Prop := forall c, command_at d c.

(** ** The state machine *)

Inductive lifecycle : state_row -> state_row -> Prop :=
| life_leased s n : dispatchable s = true -> lifecycle (MkState s n) (MkState "LEASED" (n + 1))
| life_started s n : in_flight s -> lifecycle (MkState s n) (MkState "EXECUTING" n)
| life_result s n s' : in_flight s -> s' ∈ ["VERIFYING"; "FAILED"; "UNKNOWN"]%string ->
    lifecycle (MkState s n) (MkState s' n)
| life_ended s n : in_flight s -> lifecycle (MkState s n) (MkState "UNKNOWN" n)
| life_matched s n : s ∈ ["VERIFYING"; "UNKNOWN"]%string -> lifecycle (MkState s n) (MkState "SUCCEEDED" n)
| life_not_applied n : lifecycle (MkState "UNKNOWN" n) (MkState "REDISPATCHABLE" n)
| life_unresolved s n : s ∈ ["VERIFYING"; "UNKNOWN"]%string -> lifecycle (MkState s n) (MkState "UNKNOWN" n).

(** A command that exists keeps existing and moves along the state machine. *)
Definition moves (d d' : db) : Prop := forall c st, command_states d !! c = Some st ->
  exists st', command_states d' !! c = Some st' /\ rtc lifecycle st st'.

#[export] Instance moves_preorder : PreOrder moves.
Proof.
  split.
  - intros d c st H. exists st. split; [done|]. apply rtc_refl.
  - intros a b c H1 H2 k st H. destruct (H1 k st H) as (st1 & G1 & R1).
    destruct (H2 k st1 G1) as (st2 & G2 & R2). exists st2. split; [done|]. by etrans.
Qed.

(** What every transaction does to commands: it keeps the invariant and the
    evidence, and moves commands along the state machine. *)
Record command_step (d d' : db) : Prop := MkCommandStep {
  cs_keeps : keeps_rows d d';
  cs_inv : command_inv d -> command_inv d';
  cs_moves : command_inv d -> moves d d';
}.

#[export] Instance command_step_preorder : PreOrder command_step.
Proof.
  split.
  - intros d. by split.
  - intros a b c [K1 I1 M1] [K2 I2 M2]. split.
    + by etrans.
    + auto.
    + intros H. etrans; eauto.
Qed.

(** A command transaction leaves the trust tables alone as well. *)
Definition command_tx (d d' : db) : Prop := trust_tables d' = trust_tables d /\ command_step d d'.

#[export] Instance command_tx_preorder : PreOrder command_tx.
Proof.
  split.
  - intros d. by split.
  - intros a b c [T1 S1] [T2 S2]. split; [congruence|by etrans].
Qed.

Lemma not_applied_mono d d' c i : keeps_rows d d' -> not_applied d c i -> not_applied d' c i.
Proof.
  intros (_ & K & _) (id & v & H & ?). exists id, v. split; [|done]. by eapply lookup_weaken.
Qed.

Lemma command_at_tables d d' : command_tables d' = command_tables d -> command_inv d -> command_inv d'.
Proof.
  unfold command_tables. intros [= E1 E2 E3 E4 E5 E6 E7] H c. specialize (H c). unfold command_at in *.
  rewrite E2. destruct (command_states d !! c) as [st|].
  - destruct H as [H1 H2 H3 H4 H5 H6 H7 H8 H9]. unfold not_applied in *. split; unfold not_applied.
    + done.
    + by rewrite E1.
    + intros i. by rewrite E5.
    + rewrite E3, E4. done.
    + by rewrite E3.
    + done.
    + by rewrite E7.
    + by rewrite E7.
    + by rewrite E6.
  - unfold command_absent in *. by rewrite E1, E3, E5, E6.
Qed.

Lemma framed_step d d' : framed d d' -> command_tx d d'.
Proof.
  intros (T & C & K). split; [done|]. split; [done|by apply command_at_tables|].
  intros _ c st H. exists st. unfold command_tables in C. injection C as C1 C2 C3 C4 C5 C6 C7.
  split; [by rewrite C2|apply rtc_refl].
Qed.

(** ** Ending leases *)

(** Leases that end only where one is ACTIVE. *)
Lemma is_active_retire e l : e <> "ACTIVE"%string -> is_active (retire e l) = false.
Proof.
  intros He. unfold retire. destruct (is_active l) eqn:E; [|done].
  unfold is_active. cbn. by apply String.eqb_neq.
Qed.

Lemma retire_grant e l : lse_grant (retire e l) = lse_grant l /\ lse_generation (retire e l) = lse_generation l.
Proof. unfold retire. by destruct (is_active l). Qed.

Lemma ended_step ends event d d' : event <> "ACTIVE"%string ->
  (forall c, ends c = true -> exists l, leases d !! c = Some l /\ is_active l = true) ->
  fact_tables d' = fact_tables d -> keeps_rows d d' ->
  (forall c, leases d' !! c = (if ends c then retire event else id) <$> leases d !! c) ->
  (forall c, command_states d' !! c =
    (if ends c then fun st => st <| cst_state := "UNKNOWN"%string |> else id) <$> command_states d !! c) ->
  command_step d d'.
Proof.
  intros He Hends F K L S. unfold fact_tables in F. injection F as F1 F2 F3 F4 F5. split; [done| |].
  - intros I c. specialize (I c). unfold command_at in *. rewrite S.
    destruct (command_states d !! c) as [st|]; cbn.
    2: { destruct I as (A1 & A2 & A3). split_and!; rewrite ?F1; [done| |by rewrite F3, F4]. by rewrite L, A2. }
    destruct I as [I1 I2 I3 I4 I5 I6 I7 I8 I9]. destruct (ends c) eqn:Ec.
    + destruct (Hends c Ec) as (l & Hl & Ha). split; cbn.
      * done.
      * by rewrite F1.
      * by rewrite F3.
      * intros l' Hl'. rewrite L, Ec, Hl in Hl'. cbn in Hl'. injection Hl' as <-.
        destruct (retire_grant event l) as [-> ->]. rewrite F2. by apply I4.
      * split.
        -- intros [?|?]; discriminate.
        -- intros (l' & Hl' & Ha'). rewrite L, Ec, Hl in Hl'. cbn in Hl'. injection Hl' as <-.
           by rewrite is_active_retire in Ha'.
      * discriminate.
      * intros i Hi. by eapply not_applied_mono; [|apply I7].
      * discriminate.
      * intros i r Hr. rewrite F4 in Hr. apply I9 in Hr as [Hr _]. split; [done|].
        intros _ [?|?]; discriminate.
    + split; cbn; rewrite ?F1, ?F2, ?F3, ?F4; try done.
      * intros l Hl. rewrite L, Ec, option_fmap_id in Hl. by apply I4.
      * rewrite L, Ec, option_fmap_id. done.
      * intros i Hi. by eapply not_applied_mono; [|apply I7].
      * intros Hs. by eapply not_applied_mono; [|apply I8].
  - intros I c st Hc. rewrite S, Hc. cbn. eexists. split; [done|]. destruct (ends c) eqn:Ec; [|apply rtc_refl].
    apply rtc_once. destruct st as [s n]. cbn. apply life_ended.
    specialize (I c). unfold command_at in I. rewrite Hc in I. apply (ok_active _ _ _ I). by apply Hends.
Qed.

Lemma on_host_active h d c : on_host h d c = true -> exists l, leases d !! c = Some l /\ is_active l = true.
Proof. unfold on_host. destruct (leases d !! c) as [l|]; [|done]. intros. bools. eauto. Qed.

Lemma fenced_step h reason d d' : fenced h reason d d' -> command_step d d'.
Proof.
  intros [T A F K L S]. eapply (ended_step (on_host h d) "FENCED"); [discriminate|apply on_host_active|done..].
Qed.

Lemma markLeaseUnknownTx_tx c g i event reason d d' l : event <> "ACTIVE"%string ->
  leases d !! c = Some l -> is_active l = true ->
  markLeaseUnknownTx c g i event reason d = Ok d' -> command_tx d d'.
Proof.
  intros He Hl Ha H. apply markLeaseUnknownTx_ended in H as [T F K L S]. split; [done|].
  eapply (ended_step (String.eqb c) event); try done. intros c' Hc. bools. subst. eauto.
Qed.

Lemma expireElapsedLeaseTx_tx now c i d d' : expireElapsedLeaseTx now c i d = Ok d' -> command_tx d d'.
Proof.
  assert ("EXPIRED"%string <> "ACTIVE"%string) as He by discriminate.
  unfold expireElapsedLeaseTx. intros H. destruct (leases d !! c) as [l|] eqn:El; [|by injection H as <-].
  split_guard_in H; [|by injection H as <-]. bools. by eapply (markLeaseUnknownTx_tx c _ _ "EXPIRED").
Qed.

Lemma ExpireCommandLease_tx now c d d' : ExpireCommandLease now c d = Ok d' -> command_tx d d'.
Proof.
  assert ("EXPIRED"%string <> "ACTIVE"%string) as He by discriminate.
  unfold ExpireCommandLease. intros H. open_tx. by eapply (markLeaseUnknownTx_tx c _ _ "EXPIRED").
Qed.

Lemma expire_each_tx now cs : forall d n d' n' e,
  expire_each now cs d n = (d', n', e) -> command_tx d d'.
Proof.
  induction cs as [|c cs IH]; intros d n d' n' e H; cbn [expire_each] in H.
  - by injection H as <- <- <-.
  - destruct (ExpireCommandLease now c d) as [d1|err] eqn:E1.
    + etrans; [by eapply ExpireCommandLease_tx|by eapply IH].
    + destruct (errors_Is err ErrStaleCommandLease); [by eapply IH|by injection H as <- <- <-].
Qed.

Lemma ExpireDueCommandLeases_tx now limit d d' n e :
  ExpireDueCommandLeases now limit d = (d', n, e) -> command_tx d d'.
Proof.
  unfold ExpireDueCommandLeases. intros H. destruct (_ || _); [by injection H as <- <- <-|].
  by eapply expire_each_tx.
Qed.

(** ** Transactions on one command *)

Definition same_rows (d d' : db) (c : string) : Prop :=
  commands d' !! c = commands d !! c /\ command_states d' !! c = command_states d !! c
  /\ leases d' !! c = leases d !! c
  /\ forall i, attempts d' !! (c, i) = attempts d !! (c, i) /\ results d' !! (c, i) = results d !! (c, i)
               /\ lease_grants d' !! (c, i) = lease_grants d !! (c, i).

Lemma command_at_same d d' c : same_rows d d' c -> keeps_rows d d' -> command_at d c -> command_at d' c.
Proof.
  intros (E1 & E2 & E3 & E4) K. unfold command_at. rewrite E2. destruct (command_states d !! c) as [st|].
  - intros [I1 I2 I3 I4 I5 I6 I7 I8 I9]. split.
    + done.
    + by rewrite E1.
    + intros i. destruct (E4 i) as [-> _]. apply I3.
    + intros l. rewrite E3. destruct (E4 (lse_generation l)) as (_ & _ & ->). apply I4.
    + by rewrite E3.
    + done.
    + intros i Hi. by eapply not_applied_mono; [|apply I7].
    + intros Hs. by eapply not_applied_mono; [|apply I8].
    + intros i. destruct (E4 i) as (_ & -> & _). apply I9.
  - intros (A1 & A2 & A3). split_and!; [by rewrite E1|by rewrite E3|].
    intros i. destruct (E4 i) as (-> & -> & _). apply A3.
Qed.

Lemma command_step_at c0 d d' :
  (forall c, c <> c0 -> same_rows d d' c) -> keeps_rows d d' ->
  (command_inv d -> command_at d' c0) ->
  (command_inv d -> forall st, command_states d !! c0 = Some st ->
     exists st', command_states d' !! c0 = Some st' /\ rtc lifecycle st st') ->
  command_step d d'.
Proof.
  intros Hs K Hat Hm. split; [done| |].
  - intros I c. destruct (decide (c = c0)) as [->|Hne]; [by apply Hat|].
    eapply command_at_same; eauto.
  - intros I c st Hst. destruct (decide (c = c0)) as [->|Hne]; [by apply Hm|].
    exists st. split; [|apply rtc_refl]. destruct (Hs c Hne) as (_ & -> & _). done.
Qed.

Lemma pair_ne {A} (a b : string) (i j : A) : b <> a -> (a, i) <> (b, j).
Proof. congruence. Qed.

(** Rows of the other commands after an explicit update. *)
Ltac other_rows :=
  let c := fresh "c" in let Hne := fresh "Hne" in
  intros c Hne; unfold same_rows; cbn; split_and!;
  rewrite ?lookup_insert_ne, ?lookup_alter_ne by congruence; try done;
  let i := fresh "i" in intros i; split_and!;
  rewrite ?lookup_insert_ne, ?lookup_alter_ne by (by apply pair_ne); done.

Lemma CreateExecutionCommand_tx r d d' : CreateExecutionCommand r d = Ok d' -> command_tx d d'.
Proof.
  unfold CreateExecutionCommand. intros H. apply bind_Ok_inv in H as ([] & _ & H).
  set (d0 := match jobs d !! JobID r with Some _ => d | None => _ end) in H.
  assert (framed d d0) as F0 by (subst d0; destruct (jobs d !! JobID r); unfold framed; same_tables).
  etrans; [by apply framed_step|]. clearbody d0. clear F0.
  destruct (commands d0 !! ec_CommandID r) as [accepted|] eqn:Ec.
  { open_tx; apply framed_step; reflexivity. }
  open_tx. split; [done|]. apply (command_step_at (ec_CommandID r)).
  - other_rows.
  - unfold keeps_rows; cbn; done.
  - intros I. specialize (I (ec_CommandID r)). unfold command_at in *. cbn. rewrite lookup_insert_eq.
    destruct (command_states d0 !! ec_CommandID r) as [st|] eqn:Es.
    { destruct (ok_command _ _ _ I) as [x Hx]. congruence. }
    destruct I as (A1 & A2 & A3). split; cbn.
    + lia.
    + rewrite lookup_insert_eq. eauto.
    + intros i. destruct (A3 i) as [-> _]. split; [by intros [? ?]|lia].
    + rewrite A2. done.
    + rewrite A2. split; [intros [?|?]; discriminate|by intros (? & ? & _)].
    + done.
    + lia.
    + discriminate.
    + intros i x. destruct (A3 i) as [_ ->]. done.
  - intros I st Hst. specialize (I (ec_CommandID r)). unfold command_at in I. rewrite Hst in I.
    destruct (ok_command _ _ _ I) as [x Hx]. congruence.
Qed.

Lemma grants_of_attempt c d g r : lease_grants d !! (c, g) = Some r -> (g, r) ∈ grants_of c d.
Proof.
  intros H. unfold grants_of. apply list_elem_of_fmap. exists ((c, g), r). split; [done|].
  apply list_elem_of_In, filter_In. rewrite <- list_elem_of_In, elem_of_map_to_list. cbn.
  by rewrite String.eqb_refl.
Qed.

Lemma dispatchable_cases s : dispatchable s = true -> s = "PENDING"%string \/ s = "REDISPATCHABLE"%string.
Proof. unfold dispatchable. intros H. apply orb_prop in H as [H|H]; bools; auto. Qed.

(** A lease granted to a dispatchable command starts its next attempt. *)
Lemma grant_step c g grant d d1 st : insert_grant c g grant d = Ok d1 ->
  command_states d !! c = Some st -> dispatchable (cst_state st) = true ->
  grt_attempt grant = cst_attempt st + 1 ->
  command_tx d (d1 <| command_states ::= <[c := MkState "LEASED" (cst_attempt st + 1)]> |>).
Proof.
  unfold insert_grant. intros H Hst Hd Hg. open_tx. split; [done|]. apply (command_step_at c).
  - other_rows.
  - unfold keeps_rows; cbn; done.
  - intros I. specialize (I c). unfold command_at in *. cbn. rewrite lookup_insert_eq.
    rewrite Hst in I. destruct I as [I1 I2 I3 I4 I5 I6 I7 I8 I9].
    split; cbn.
    + lia.
    + done.
    + intros i. rewrite Hg. destruct (decide (i = cst_attempt st + 1)) as [->|Hne].
      * rewrite lookup_insert_eq. split; [lia|eauto].
      * rewrite lookup_insert_ne by congruence. rewrite I3. lia.
    + intros l. rewrite lookup_insert_eq. intros [= <-]. cbn. rewrite lookup_insert_eq. split_and!; [lia|done..].
    + split; [|by left]. intros _. eexists. by rewrite lookup_insert_eq.
    + discriminate.
    + intros i Hi. apply (not_applied_mono d); [by unfold keeps_rows; cbn|].
      destruct (decide (i = cst_attempt st)) as [->|Hne]; [|apply I7; lia].
      apply dispatchable_cases in Hd as [Hp|Hr]; [|by apply I8].
      rewrite (I6 Hp) in Hi. lia.
    + discriminate.
    + intros i r Hr. apply I9 in Hr as [Hr _]. split; [lia|]. lia.
  - intros _ st' Hst'. rewrite Hst in Hst'. injection Hst' as <-. cbn. rewrite lookup_insert_eq.
    eexists. split; [done|]. apply rtc_once. destruct st as [s n]. cbn. by apply life_leased.
Qed.

Lemma enqueue_framed now m a t s p d d' b : enqueue now m a t s p d = (d', b) -> framed d d'.
Proof. unfold enqueue. destruct (outbox d !! m); intros [= <- <-]; unfold framed; same_tables. Qed.

Lemma enqueue_delivery_framed now i d d' : enqueue_delivery now i d = Ok d' -> framed d d'.
Proof.
  unfold enqueue_delivery. intros H. open_tx. by eapply enqueue_framed.
Qed.

(** Events, receipts and outbox rows do not touch commands. *)
Ltac frame_hyps :=
  repeat match goal with
  | H : appendLeaseEventTx _ _ _ _ _ = Ok _ |- _ => apply appendLeaseEventTx_frame, framed_step in H
  | H : appendAttemptEventTx _ _ _ _ _ _ = Ok _ |- _ => apply appendAttemptEventTx_frame, framed_step in H
  | H : enqueue_delivery _ _ _ = Ok _ |- _ => apply enqueue_delivery_framed, framed_step in H
  | H : acceptAgentMessageTx _ _ = Ok _ |- _ => apply acceptAgentMessageTx_framed, framed_step in H
  | H : recordAgentReceiptTx _ _ _ _ = Ok _ |- _ => apply recordAgentReceiptTx_framed, framed_step in H
  end.

(** Compose the transactions of the hypotheses, from the first tables on. *)
Ltac chain_tx :=
  repeat match goal with
  | |- command_tx ?d ?d => reflexivity
  | H : command_tx ?d ?d1 |- command_tx ?d _ => etrans; [exact H|clear H]
  | H : command_tx (set_job_state ?j ?s ?d) _ |- command_tx ?d _ =>
      etrans; [apply framed_step, (set_job_state_frame j s)|]
  end.

Lemma AcquireCommandLease_tx now tok r d d' g : AcquireCommandLease now tok r d = Ok (d', g) -> command_tx d d'.
Proof.
  unfold AcquireCommandLease. intros H. open_tx; frame_hyps.
  all: match goal with
  | Hg : insert_grant _ _ _ _ = Ok _, Hs : command_states _ !! _ = Some _ |- _ =>
      etrans; [eapply (grant_step _ _ _ _ _ _ Hg Hs); done|clear Hg]
  end.
  all: chain_tx.
Qed.

Lemma validateActiveLeaseTx_active now c i tok d l : validateActiveLeaseTx now c i tok d = Ok l ->
  leases d !! c = Some l /\ is_active l = true /\ grt_attempt (lse_grant l) = i
  /\ lease_live now l = true /\ grt_token (lse_grant l) = tokenSHA256 tok.
Proof.
  unfold validateActiveLeaseTx, active_lease. intros H. apply bind_Ok_inv in H as (l' & Hl & H).
  destruct (leases d !! c) as [l0|]; [|done]. cbn in Hl.
  destruct (_ && _ && _ && _) eqn:E; [|done]. cbn in Hl. injection Hl as ->. open_tx.
  split_and!; try done. unfold is_active. by apply String.eqb_eq.
Qed.

Lemma active_in_flight d c l : command_inv d -> leases d !! c = Some l -> is_active l = true ->
  exists st, command_states d !! c = Some st /\ in_flight (cst_state st) /\ command_ok d c st.
Proof.
  intros I Hl Ha. specialize (I c). unfold command_at in I. destruct (command_states d !! c) as [st|].
  - exists st. split_and!; [done| |done]. apply (ok_active _ _ _ I). eauto.
  - destruct I as (_ & A & _). congruence.
Qed.

(** A command whose lease is ACTIVE starts executing. *)
Lemma start_step c d l : leases d !! c = Some l -> is_active l = true ->
  command_tx d (set_command_state c "EXECUTING" d).
Proof.
  intros Hl Ha. split; [done|]. apply (command_step_at c).
  - unfold set_command_state. other_rows.
  - unfold keeps_rows; cbn; done.
  - intros I. destruct (active_in_flight _ _ _ I Hl Ha) as (st & Hst & Hf & []).
    unfold command_at. cbn. rewrite lookup_alter_eq, Hst. cbn. split; cbn; try done.
    + split; [|by right]. intros _. eauto.
    + intros i r Hr. apply ok_result0 in Hr. tauto.
  - intros I st Hst. destruct (active_in_flight _ _ _ I Hl Ha) as (st' & Hst' & Hf & _).
    rewrite Hst in Hst'. injection Hst' as <-. cbn. rewrite lookup_alter_eq, Hst. cbn.
    eexists. split; [done|]. apply rtc_once. destruct st. by apply life_started.
Qed.

Lemma set_job_state_of_tx c s d : command_tx d (set_job_state_of c s d).
Proof. apply framed_step, set_job_state_of_frame. Qed.

Lemma framed_leases d d' c l : framed d d' -> leases d !! c = Some l -> leases d' !! c = Some l.
Proof. intros (_ & [= E1 E2 E3 E4 E5 E6 E7] & _). by rewrite E3. Qed.

Lemma MarkCommandAttemptJournaled_tx now s d d' : MarkCommandAttemptJournaled now s d = Ok d' -> command_tx d d'.
Proof.
  unfold MarkCommandAttemptJournaled. intros H. open_tx.
  match goal with H : validateActiveLeaseTx _ _ _ _ _ = Ok _ |- _ =>
    apply validateActiveLeaseTx_active in H as (Hl & Ha & _) end.
  match goal with
  | H1 : appendAttemptEventTx _ _ _ _ _ _ = Ok ?d1, H2 : appendLeaseEventTx _ _ _ _ _ = Ok ?d2 |- _ =>
      apply appendAttemptEventTx_frame in H1; apply appendLeaseEventTx_frame in H2;
      pose proof (transitivity H1 H2) as F
  end.
  etrans; [by apply framed_step|]. etrans; [|apply set_job_state_of_tx].
  eapply start_step; [by eapply framed_leases|done].
Qed.

(** ** Results *)

(** The tables a first result leaves, before its events. *)
Definition consumed (c : string) (i : Z) (r : result_row) (d : db) : db :=
  d <| results ::= <[(c, i) := r]> |> <| leases ::= alter (fun l => l <| lse_state := "CONSUMED"%string |>) c |>.

Lemma outcome_states_spec o :
  fst (outcome_states o) ∈ ["VERIFYING"; "FAILED"; "UNKNOWN"]%string /\ ~ in_flight (fst (outcome_states o))
  /\ fst (outcome_states o) <> "PENDING"%string /\ fst (outcome_states o) <> "REDISPATCHABLE"%string.
Proof.
  unfold outcome_states. destruct (o ==s "FAILED"); [|destruct (o ==s "UNKNOWN")]; cbn;
    (split_and!; [set_solver|intros [H|H]; cbn in H; congruence|congruence|congruence]).
Qed.

Lemma result_step c i r o d l : leases d !! c = Some l -> is_active l = true ->
  grt_attempt (lse_grant l) = i -> results d !! (c, i) = None ->
  command_tx d (set_command_state c (fst (outcome_states o)) (consumed c i r d)).
Proof.
  intros Hl Ha Hi Hr. destruct (outcome_states_spec o) as (Hin & Hn & Hp & Hq). set (s := fst (outcome_states o)) in *.
  split; [done|]. apply (command_step_at c).
  - unfold set_command_state, consumed. other_rows.
  - unfold keeps_rows; cbn. split_and!; [done|done|by apply insert_subseteq|done..].
  - intros I. destruct (active_in_flight _ _ _ I Hl Ha) as (st & Hst & Hf & [I1 I2 I3 I4 I5 I6 I7 I8 I9]).
    unfold command_at. cbn. rewrite lookup_alter_eq, Hst. cbn. split; cbn; try done.
    + intros l'. rewrite lookup_alter_eq, Hl. cbn. intros [= <-]. exact (I4 l Hl).
    + split; [done|]. rewrite lookup_alter_eq, Hl. cbn. intros (l' & [= <-] & E). discriminate E.
    + intros j x. destruct (decide (j = i)) as [->|Hne].
      * intros _. destruct (I4 l Hl) as (? & E & _). rewrite <- Hi. rewrite E.
        split; [lia|done].
      * rewrite lookup_insert_ne by congruence. intros Hx. apply I9 in Hx as [Hx _]. done.
  - intros I st Hst. destruct (active_in_flight _ _ _ I Hl Ha) as (st' & Hst' & Hf & _).
    rewrite Hst in Hst'. injection Hst' as <-. cbn. rewrite lookup_alter_eq, Hst. cbn.
    eexists. split; [done|]. apply rtc_once. destruct st. by apply life_result.
Qed.

(** Framed tables stay so under the same update. *)
Lemma framed_leases_update f d d' : framed d d' -> framed (d <| leases ::= f |>) (d' <| leases ::= f |>).
Proof.
  intros (T & [= E1 E2 E3 E4 E5 E6 E7] & K). split_and!; [done| |done].
  unfold command_tables. cbn. congruence.
Qed.

Lemma framed_state_update c s d d' : framed d d' -> framed (set_command_state c s d) (set_command_state c s d').
Proof.
  intros (T & [= E1 E2 E3 E4 E5 E6 E7] & K). split_and!; [done| |done].
  unfold command_tables. cbn. congruence.
Qed.

Lemma consume_lease_framed s l d d' : consume_lease s l d = Ok d' ->
  framed (set_command_state (rs_CommandID s) (fst (outcome_states (Outcome s)))
            (consumed (rs_CommandID s) (rs_AttemptIndex s) (result_of s) d)) d'.
Proof.
  unfold consume_lease, insert_result. intros H.
  destruct (outcome_states (Outcome s)) as [cs js] eqn:Eo. open_tx.
  match goal with
  | H1 : appendAttemptEventTx _ _ _ _ _ _ = Ok ?d1, H2 : appendLeaseEventTx _ _ _ _ _ = Ok ?d2 |- _ =>
      apply appendAttemptEventTx_frame in H1; apply appendLeaseEventTx_frame in H2;
      pose proof (transitivity H1 H2) as F
  end.
  etrans; [|apply set_job_state_of_frame]. apply framed_state_update. unfold consumed.
  by apply framed_leases_update.
Qed.

Lemma consume_lease_tx s l d d' : consume_lease s l d = Ok d' ->
  leases d !! rs_CommandID s = Some l -> is_active l = true -> grt_attempt (lse_grant l) = rs_AttemptIndex s ->
  results d !! (rs_CommandID s, rs_AttemptIndex s) = None -> command_tx d d'.
Proof.
  intros H Hl Ha Hi Hr. apply consume_lease_framed in H. etrans; [|by apply framed_step].
  by apply (result_step (rs_CommandID s) (rs_AttemptIndex s) (result_of s) (Outcome s) _ l).
Qed.

Lemma reject_stale_result_tx now s d d' : reject_stale_result now s d = Ok d' -> command_tx d d'.
Proof.
  unfold reject_stale_result. intros H. open_tx.
  match goal with H : expireElapsedLeaseTx _ _ _ _ = Ok _ |- _ => apply expireElapsedLeaseTx_tx in H end.
  frame_hyps. chain_tx.
Qed.

Lemma AcceptCommandResult_tx now s d d' r : AcceptCommandResult now s d = (d', r) -> command_tx d d'.
Proof.
  unfold AcceptCommandResult. intros H.
  destruct (_ ;; _) as [[d1 r1]|e] eqn:E; [|by injection H as <- <-]. injection H as <- <-.
  apply bind_Ok_inv in E as ([] & _ & E). unfold accept_result_tx in E.
  destruct (results d !! _) as [accepted|] eqn:Er; [open_tx; reflexivity|].
  destruct (validateActiveLeaseTx _ _ _ _ _) as [l|e] eqn:Ev; open_tx.
  - apply validateActiveLeaseTx_active in Ev as (Hl & Ha & Hi & _). by eapply consume_lease_tx.
  - by eapply reject_stale_result_tx.
Qed.

(** ** Verifications *)

Lemma insert_power_evidence_framed id e d d' : insert_power_evidence id e d = Ok d' -> framed d d'.
Proof. unfold insert_power_evidence. intros. open_tx; unfold framed; same_tables. Qed.

Lemma project_power_framed vm p d : framed d (project_power vm p d).
Proof.
  unfold project_power. destruct (power_states d !! vm); [destruct (_ || _)|]; unfold framed; same_tables.
Qed.

Lemma projectMatched_framed v d d' : projectMatchedVMPowerVerificationTx v d = Ok d' -> framed d d'.
Proof.
  unfold projectMatchedVMPowerVerificationTx. intros H. open_tx; [|done].
  etrans; [by eapply insert_power_evidence_framed|apply project_power_framed].
Qed.

(** The states a verification may be recorded in, and the one it leads to. *)
Lemma resolution_spec vs s cs js ev : resolution vs s = Ok (cs, js, ev) ->
  s ∈ ["VERIFYING"; "UNKNOWN"]%string ->
  ~ in_flight cs /\ cs <> "PENDING"%string /\ (cs = "REDISPATCHABLE"%string -> vs = "NOT_APPLIED"%string)
  /\ forall n, lifecycle (MkState s n) (MkState cs n).
Proof.
  unfold resolution. intros H Hs.
  destruct (vs ==s "MATCHED"); [|destruct (vs ==s "NOT_APPLIED") eqn:En]; open_tx;
    (split_and!; [intros [?|?]; congruence|congruence|try congruence|]).
  - intros n. by apply life_matched.
  - intros n. apply life_not_applied.
  - intros n. by apply life_unresolved.
Qed.

Lemma settled_not_in_flight s : s ∈ ["VERIFYING"; "UNKNOWN"]%string -> ~ in_flight s.
Proof.
  intros H [->| ->]; apply list_elem_of_In in H as [H|[H|[]]]; discriminate.
Qed.

(** A verification of a command that is neither dispatchable nor in flight. *)
Lemma verification_step v st cs js ev d : command_states d !! cv_CommandID v = Some st ->
  cst_attempt st = cv_AttemptIndex v -> cst_state st ∈ ["VERIFYING"; "UNKNOWN"]%string ->
  verifications d !! VerificationID v = None -> resolution (cv_State v) (cst_state st) = Ok (cs, js, ev) ->
  command_tx d (set_command_state (cv_CommandID v) cs
                  (d <| verifications ::= <[VerificationID v := verification_of v]> |>)).
Proof.
  intros Hst Hn Hs Hv Hr. destruct (resolution_spec _ _ _ _ _ Hr Hs) as (Hf & Hp & Hq & Hl).
  assert (keeps_rows d (set_command_state (cv_CommandID v) cs
    (d <| verifications ::= <[VerificationID v := verification_of v]> |>))) as K.
  { unfold keeps_rows; cbn. split_and!; [done|by apply insert_subseteq|done..]. }
  split; [done|]. apply (command_step_at (cv_CommandID v)).
  - unfold set_command_state. other_rows.
  - done.
  - intros I. specialize (I (cv_CommandID v)). unfold command_at in *. cbn. rewrite lookup_alter_eq, Hst.
    rewrite Hst in I. destruct I as [I1 I2 I3 I4 I5 I6 I7 I8 I9]. cbn. split; cbn; try done.
    + split; [done|]. intros Ha. apply I5 in Ha. by apply settled_not_in_flight in Hs.
    + intros i Hi. by eapply not_applied_mono; [|apply I7].
    + intros E. exists (VerificationID v), (verification_of v). cbn. rewrite lookup_insert_eq. auto.
    + intros i r Hi. by apply I9 in Hi as [Hi _].
  - intros I st' Hst'. rewrite Hst in Hst'. injection Hst' as <-. cbn. rewrite lookup_alter_eq, Hst. cbn.
    eexists. split; [done|]. apply rtc_once. destruct st as [s n]. apply Hl.
Qed.

Lemma RecordCommandVerification_tx v d d' : RecordCommandVerification v d = Ok d' ->
  (forall st, command_states d !! cv_CommandID v = Some st -> cst_state st ∈ ["VERIFYING"; "UNKNOWN"]%string) ->
  command_tx d d'.
Proof.
  unfold RecordCommandVerification. intros H Hs. apply bind_Ok_inv in H as ([] & _ & H).
  destruct (command_states d !! cv_CommandID v) as [st|] eqn:Est; [|done]. cbn [row mbind res_bind] in H.
  specialize (Hs st eq_refl). open_tx; [reflexivity|]. unfold resolve_command in *.
  apply bind_Ok_inv in H as (d1 & Hp & H).
  assert (framed (d <| verifications ::= <[VerificationID v := verification_of v]> |>) d1) as F.
  { destruct (cv_State v ==s "MATCHED"); [by eapply projectMatched_framed|by injection Hp as <-]. }
  clear Hp. open_tx. etrans; [by eapply verification_step|]. apply framed_step.
  etrans; [by apply framed_state_update|]. unfold framed. same_tables.
Qed.

(** ** Agent decisions *)

Lemma consume_lease_state s l d d' st : consume_lease s l d = Ok d' ->
  command_states d' !! rs_CommandID s = Some st -> cst_state st = fst (outcome_states (Outcome s)).
Proof.
  intros H Hst. apply consume_lease_framed in H as (_ & [= E1 E2 E3 E4 E5 E6 E7] & _).
  rewrite E2 in Hst. cbn in Hst. rewrite lookup_alter_eq in Hst.
  destruct (command_states d !! rs_CommandID s); [|done]. by injection Hst as <-.
Qed.

(** The parts of [command_tx] that need no invariant. *)
Definition command_free (d d' : db) : Prop := trust_tables d' = trust_tables d /\ keeps_rows d d'.

#[export] Instance command_free_preorder : PreOrder command_free.
Proof.
  split.
  - intros d. by split.
  - intros a b c [T1 K1] [T2 K2]. split; [congruence|by etrans].
Qed.

Lemma command_tx_free d d' : command_tx d d' -> command_free d d'.
Proof. intros [T [K _ _]]. by split. Qed.

Lemma command_tx_given d d' : command_free d d' -> (command_inv d -> command_tx d d') -> command_tx d d'.
Proof.
  intros [T K] H. split; [done|]. split; [done| |]; intros I; destruct (H I) as [_ [_ G1 G2]]; auto.
Qed.

Lemma RecordCommandVerification_free v d d' : RecordCommandVerification v d = Ok d' -> command_free d d'.
Proof.
  unfold RecordCommandVerification. intros H. open_tx; [reflexivity|]. unfold resolve_command in *.
  apply bind_Ok_inv in H as (d1 & Hp & H).
  assert (framed (d <| verifications ::= <[VerificationID v := verification_of v]> |>) d1) as (T & _ & K).
  { destruct (cv_State v ==s "MATCHED"); [by eapply projectMatched_framed|by injection Hp as <-]. }
  clear Hp. open_tx. split; [done|]. etrans; [|exact K].
  unfold keeps_rows; cbn. split_and!; [done|by apply insert_subseteq|done..].
Qed.

(** What an Agent result decides: the receiver sends no verification with a
    FAILED result. *)
Definition receiver_decision (decision : AgentCommandResultDecision) : Prop :=
  as_CommandID (Start decision) = rs_CommandID (Result decision)
  /\ as_AttemptIndex (Start decision) = rs_AttemptIndex (Result decision)
  /\ match rd_Verification decision with
     | Some v => cv_CommandID v = rs_CommandID (Result decision) /\ Outcome (Result decision) <> "FAILED"%string
     | None => True
     end.

Lemma outcome_settled o : o <> "FAILED"%string ->
  fst (outcome_states o) ∈ ["VERIFYING"; "UNKNOWN"]%string.
Proof.
  intros H. unfold outcome_states. apply String.eqb_neq in H. rewrite H.
  destruct (o ==s "UNKNOWN"); cbn; apply list_elem_of_In; cbn; auto.
Qed.

(** A result is accepted for an attempt in flight only if it has none yet. *)
Lemma decide_result_state now decision d1 d2 rr : receiver_decision decision ->
  command_inv d1 ->
  (exists l, leases d1 !! rs_CommandID (Result decision) = Some l /\ is_active l = true
             /\ grt_attempt (lse_grant l) = rs_AttemptIndex (Result decision)) ->
  AcceptCommandResult now (Result decision) d1 = (d2, Ok rr) ->
  forall v st, rd_Verification decision = Some v -> command_states d2 !! cv_CommandID v = Some st ->
  cst_state st ∈ ["VERIFYING"; "UNKNOWN"]%string.
Proof.
  intros (Hc & Hi & Hv) I (l & Hl & Ha & Hn) H v st Ev Est. rewrite Ev in Hv. destruct Hv as [Hv Ho].
  rewrite Hv in Est. unfold AcceptCommandResult in H.
  destruct (_ ;; _) as [[d3 r3]|err] eqn:E; [|done]. injection H as -> ->.
  apply bind_Ok_inv in E as ([] & _ & E). unfold accept_result_tx in E.
  destruct (active_in_flight _ _ _ I Hl Ha) as (st1 & Hst1 & Hf & Hok).
  destruct (results d1 !! _) as [accepted|] eqn:Er.
  { apply (ok_result _ _ _ Hok) in Er as [_ Er]. exfalso. apply Er; [|done].
    destruct (ok_lease _ _ _ Hok l Hl) as (_ & El & _). congruence. }
  destruct (validateActiveLeaseTx _ _ _ _ _) as [l'|err] eqn:Ev'; open_tx.
  rewrite (consume_lease_state _ _ _ _ _ Hr Est). by apply outcome_settled.
Qed.

Lemma MarkCommandAttemptJournaled_lease now s d d' : MarkCommandAttemptJournaled now s d = Ok d' ->
  exists l, leases d' !! as_CommandID s = Some l /\ is_active l = true
            /\ grt_attempt (lse_grant l) = as_AttemptIndex s.
Proof.
  unfold MarkCommandAttemptJournaled. intros H. open_tx.
  match goal with H : validateActiveLeaseTx _ _ _ _ _ = Ok ?l |- _ =>
    apply validateActiveLeaseTx_active in H as (Hl & Ha & Hi & _); exists l end.
  match goal with
  | H1 : appendAttemptEventTx _ _ _ _ _ _ = Ok ?d1, H2 : appendLeaseEventTx _ _ _ _ _ = Ok ?d2 |- _ =>
      apply appendAttemptEventTx_frame in H1; apply appendLeaseEventTx_frame in H2;
      pose proof (transitivity H1 H2) as F
  end.
  split; [|done]. eapply framed_leases; [apply set_job_state_of_frame|]. cbn. by eapply framed_leases.
Qed.

Lemma decide_result_tx now e decision d d' r : receiver_decision decision ->
  decide_result now e decision d = Ok (d', r) -> command_tx d d'.
Proof.
  intros Hd H. unfold decide_result in H. apply bind_Ok_inv in H as (d1 & Hm & H).
  pose proof (MarkCommandAttemptJournaled_lease _ _ _ _ Hm) as (l & Hl & Ha & Hi).
  apply MarkCommandAttemptJournaled_tx in Hm.
  destruct (AcceptCommandResult now (Result decision) d1) as [d2 [rr|err]] eqn:Er; [|done].
  cbn [mbind res_bind] in H. apply bind_Ok_inv in H as (d3 & Hv & H). frame_hyps.
  etrans; [exact Hm|]. etrans; [|exact H].
  pose proof (AcceptCommandResult_tx _ _ _ _ _ Er) as T.
  destruct (rd_Verification decision) as [v|] eqn:Ev; [|by injection Hv as <-].
  apply command_tx_given.
  - etrans; [by apply command_tx_free|]. by eapply RecordCommandVerification_free.
  - intros I. etrans; [exact T|]. eapply RecordCommandVerification_tx; [exact Hv|].
    intros st Hst. destruct Hd as (Hc & Hn & Hv').
    eapply decide_result_state; try done. exists l. by rewrite <- Hc, <- Hn.
Qed.

Lemma AcceptAgentCommandResult_tx now m e decision d d' r : receiver_decision decision ->
  AcceptAgentCommandResult now m e decision d = Ok (d', r) -> command_tx d d'.
Proof.
  unfold AcceptAgentCommandResult. intros Hd H. open_tx.
  - reflexivity.
  - frame_hyps. chain_tx.
  - by eapply decide_result_tx.
Qed.

Lemma AcceptAgentVerificationObservation_tx m e decision d d' r :
  AcceptAgentVerificationObservation m e decision d = Ok (d', r) -> command_tx d d'.
Proof.
  unfold AcceptAgentVerificationObservation. intros H. open_tx; [reflexivity|]. frame_hyps.
  match goal with H : RecordCommandVerification _ _ = Ok _ |- _ =>
    eapply RecordCommandVerification_tx in H; [by etrans|] end.
  intros st Hst. match goal with H1 : command_states d !! _ = Some ?x, Hx : cst_state ?x = _ |- _ =>
    rewrite H1 in Hst; injection Hst as <-; rewrite Hx end. apply list_elem_of_In. cbn. auto.
Qed.
