(* ===== verification/LeaseEvents.v ===== *)
(** * The evidence of an open lease

    Lease and attempt events are written once per type, and a second, different
    event of a type is a conflict that rolls its transaction back.  [event_inv]
    is why this never happens to the transactions that end a lease: while a
    lease is ACTIVE none of the events that end it, or its attempt, has been
    recorded.  So fencing and expiry cannot be blocked by evidence, and a sweep
    of due leases makes progress until none is left. *)

From S2P Require Import Prelude GoStd GoJson Envelope Inventory ControlDb CommandEvents HostTrust SessionRegistry.
From S2P Require Import Receipts HostInventory Execution Verification Outbox ControlFrames CommandSteps.
Local Open Scope Z_scope.
Local Open Scope go_scope.

(** ** The invariant *)

(** The events that end a lease, and those that end an attempt. *)
Definition lease_end (type : string) : bool := existsb (String.eqb type) ["CONSUMED"; "FENCED"; "EXPIRED"]%string.
Definition attempt_end (type : string) : bool := existsb (String.eqb type) ["UNKNOWN"; "RESULT_ACCEPTED"]%string.

Definition events_of {K} `{Countable K} (m : gmap K (list event)) (k : K) : list event := default [] (m !! k).

Definition lease_open (d : db) (c : string) (l : lease_row) : Prop :=
  (forall t, lease_end t = true -> event_of t (events_of (lease_events d) (c, lse_generation l)) = None)
  /\ (forall t, attempt_end t = true ->
        event_of t (events_of (attempt_events d) (c, grt_attempt (lse_grant l))) = None).

(** [event_inv_on P]: only the leases of the commands of [P] need be open. *)
Record event_inv_on (P : string -> Prop) (d : db) : Prop := MkEventInv {
  ev_lease c l : leases d !! c = Some l ->
    is_Some (lease_grants d !! (c, lse_generation l)) /\ is_Some (attempts d !! (c, grt_attempt (lse_grant l)));
  ev_new_lease c g : lease_grants d !! (c, g) = None -> lease_events d !! (c, g) = None;
  ev_new_attempt c i : attempts d !! (c, i) = None -> attempt_events d !! (c, i) = None;
  ev_open c l : P c -> leases d !! c = Some l -> is_active l = true -> lease_open d c l;
}.
Definition event_inv : db -> Prop := event_inv_on (fun _ => True).

Definition event_tables (d : db) := (leases d, lease_grants d, attempts d, lease_events d, attempt_events d).

(** A transaction that keeps the invariant. *)
Definition event_step (d d' : db) : Prop := event_inv d -> event_inv d'.

#[export] Instance event_step_preorder : PreOrder event_step.
Proof. split; [by intros d I|]. intros a b c H1 H2 I. by apply H2, H1. Qed.

Lemma event_inv_tables P d d' : event_tables d' = event_tables d -> event_inv_on P d -> event_inv_on P d'.
Proof.
  intros [= E1 E2 E3 E4 E5] [I1 I2 I3 I4]. split; unfold lease_open; rewrite ?E1, ?E2, ?E3, ?E4, ?E5; done.
Qed.

Lemma event_inv_weaken (P Q : string -> Prop) d : (forall c, Q c -> P c) -> event_inv_on P d -> event_inv_on Q d.
Proof. intros H [I1 I2 I3 I4]. split; auto. Qed.

Lemma same_event_tables d d' : event_tables d' = event_tables d -> event_step d d'.
Proof. intros E I. by eapply event_inv_tables. Qed.

(** ** Events *)

Lemma events_append {K} `{Countable K} (k k' : K) e (m : gmap K (list event)) :
  events_of (append_event k e m) k' = if decide (k = k') then events_of m k ++ [e] else events_of m k'.
Proof.
  unfold events_of, append_event. destruct (decide (k = k')) as [<-|Hne].
  - by rewrite lookup_insert_eq.
  - by rewrite lookup_insert_ne.
Qed.

Lemma event_of_app t es e : evt_type e <> t -> event_of t (es ++ [e]) = event_of t es.
Proof.
  intros Ht. unfold event_of. induction es as [|x es IH]; cbn.
  - apply String.eqb_neq in Ht. by rewrite Ht.
  - by destruct (evt_type x ==s t).
Qed.

Lemma appendLeaseEventTx_event P c g t p d d' : appendLeaseEventTx c g t p d = Ok d' ->
  is_Some (lease_grants d !! (c, g)) -> (P c -> lease_end t = false) ->
  event_inv_on P d -> event_inv_on P d'.
Proof.
  unfold appendLeaseEventTx. intros H Hg Ht I. destruct (event_of t _) eqn:Eo; open_tx; [done|].
  destruct I as [I1 I2 I3 I4]. split; cbn; [done| |done|].
  - intros c' g' Hn. unfold append_event. rewrite lookup_insert_ne; [by apply I2|]. intros [= <- <-].
    rewrite Hn in Hg. by destruct Hg.
  - intros c' l HP Hl Ha. destruct (I4 c' l HP Hl Ha) as [O1 O2]. split; [|done]. intros t' Ht'. cbn.
    rewrite events_append. destruct (decide _) as [E|]; [rewrite E; injection E as -> _|by apply O1].
    rewrite event_of_app; [by apply O1|]. cbn. intros <-. by rewrite Ht in Ht'.
Qed.

Lemma appendAttemptEventTx_event P c i t r p d d' : appendAttemptEventTx c i t r p d = Ok d' ->
  (P c -> attempt_end t = false) -> event_inv_on P d -> event_inv_on P d'.
Proof.
  unfold appendAttemptEventTx. intros H Ht I.
  destruct (if t ==s "STALE_RESULT_REJECTED" then _ else _) eqn:Eo; open_tx; [done|].
  destruct I as [I1 I2 I3 I4]. split; cbn; [done|done| |].
  - intros c' i' Hn. unfold append_event. rewrite lookup_insert_ne; [by apply I3|]. intros [= <- <-]. congruence.
  - intros c' l HP Hl Ha. destruct (I4 c' l HP Hl Ha) as [O1 O2]. split; [done|]. intros t' Ht'. cbn.
    rewrite events_append. destruct (decide _) as [E|]; [rewrite E; injection E as -> _|by apply O2].
    rewrite event_of_app; [by apply O2|]. cbn. intros <-. by rewrite Ht in Ht'.
Qed.

(** What the two functions keep. *)
Definition row_tables (d : db) :=
  (leases d, lease_grants d, attempts d, command_states d, commands d, results d, authorities d).

Lemma appendLeaseEventTx_rows c g t p d d' : appendLeaseEventTx c g t p d = Ok d' -> row_tables d' = row_tables d.
Proof. unfold appendLeaseEventTx. intros. open_tx; reflexivity. Qed.
Lemma appendAttemptEventTx_rows c i t r p d d' :
  appendAttemptEventTx c i t r p d = Ok d' -> row_tables d' = row_tables d.
Proof. unfold appendAttemptEventTx. intros. open_tx; reflexivity. Qed.

Lemma set_job_state_of_tables c s d : event_tables (set_job_state_of c s d) = event_tables d.
Proof. unfold set_job_state_of. by destruct (commands d !! c). Qed.

(** ** Ending a lease *)

Lemma retire_lease_event e c d : e <> "ACTIVE"%string -> event_inv d ->
  event_inv (d <| leases ::= alter (retire e) c |>).
Proof.
  intros He [I1 I2 I3 I4]. split; cbn; [|done|done|].
  - intros k l Hl. rewrite alter_lookup in Hl. destruct (leases d !! k) as [l0|] eqn:El; [|done].
    destruct (c =? k)%string; injection Hl as <-; [destruct (retire_grant e l0) as [-> ->]|]; by apply (I1 k).
  - intros k l _ Hl Ha. rewrite alter_lookup in Hl. destruct (leases d !! k) as [l0|] eqn:El; [|done].
    destruct (c =? k)%string; injection Hl as <-; [by rewrite is_active_retire in Ha|by apply (I4 k)].
Qed.

Lemma markLeaseUnknownTx_event c g i e r d d' l : e <> "ACTIVE"%string ->
  leases d !! c = Some l -> lse_generation l = g ->
  markLeaseUnknownTx c g i e r d = Ok d' -> event_step d d'.
Proof.
  intros He Hl Hg H I. unfold markLeaseUnknownTx in H.
  apply bind_Ok_inv in H as (d1 & H1 & H). apply bind_Ok_inv in H as (d2 & H2 & H). injection H as <-.
  eapply event_inv_tables; [apply set_job_state_of_tables|].
  assert (event_inv_on (fun k => k <> c) d2) as I2.
  { eapply appendAttemptEventTx_event; [exact H2|done|].
    eapply appendLeaseEventTx_event; [exact H1| |done|].
    - cbn. rewrite <- Hg. by apply (ev_lease _ _ I).
    - eapply event_inv_weaken; [|by apply (retire_lease_event e c)]. done. }
  apply appendLeaseEventTx_rows in H1 as [= R1 _ _ _ _ _ _].
  apply appendAttemptEventTx_rows in H2 as [= R2 _ _ _ _ _ _].
  destruct I2 as [J1 J2 J3 J4]. split; [done..|]. intros k l' _ Hl' Ha.
  apply J4; [|done..]. intros ->. cbn in Hl'. rewrite R2, R1 in Hl'. cbn in Hl'.
  rewrite lookup_alter_eq, Hl in Hl'. injection Hl' as <-. fold (retire e l) in Ha. by rewrite is_active_retire in Ha.
Qed.

(** Ending an ACTIVE lease cannot fail. *)
Lemma markLeaseUnknownTx_total c e r d l : lease_end e = true -> event_inv d ->
  leases d !! c = Some l -> is_active l = true ->
  exists d', markLeaseUnknownTx c (lse_generation l) (grt_attempt (lse_grant l)) e r d = Ok d'.
Proof.
  intros He I Hl Ha. destruct (ev_open _ _ I c l) as [O1 O2]; [done..|].
  destruct (ev_lease _ _ I c l Hl) as [_ [x Hx]].
  unfold markLeaseUnknownTx, appendLeaseEventTx, appendAttemptEventTx. cbn.
  unfold events_of in O1, O2. rewrite O1 by done. cbn. rewrite O2 by done. rewrite Hx. cbn. eauto.
Qed.

(** ** Fencing *)

Lemma fmap_filter_NoDup {A B} (f : A -> B) (p : A -> bool) (l : list A) :
  NoDup (f <$> l) -> NoDup (f <$> List.filter p l).
Proof.
  induction l as [|a l IH]; cbn; [done|]. intros [Hn Hd]%NoDup_cons. destruct (p a); cbn; [|by apply IH].
  apply NoDup_cons. split; [|by apply IH]. rewrite list_elem_of_fmap. intros (x & Hx & Hin). apply Hn.
  apply list_elem_of_In, filter_In in Hin as [Hin _]. rewrite Hx. by apply list_elem_of_fmap_2, list_elem_of_In.
Qed.

Lemma active_leases_NoDup h d : NoDup (fst <$> active_leases h d).
Proof.
  unfold active_leases. rewrite sort_perm. apply fmap_filter_NoDup, NoDup_fst_map_to_list.
Qed.

(** A list of ACTIVE leases can be ended one after the other. *)
Lemma fence_leases_total r kls : forall d, event_inv d -> NoDup (fst <$> kls) ->
  (forall k l, (k, l) ∈ kls -> leases d !! k = Some l /\ is_active l = true) ->
  exists d', foldM (fence_lease r) kls d = Ok d' /\ event_inv d'.
Proof.
  induction kls as [|[k l] kls IH]; intros d I Hd Hk; cbn [foldM]; [eauto|].
  cbn in Hd. apply NoDup_cons in Hd as [Hn Hd]. destruct (Hk k l) as [Hl Ha]; [left|].
  destruct (markLeaseUnknownTx_total k "FENCED" r d l) as [d1 E1]; [done..|].
  change (fence_lease r d (k, l)) with (markLeaseUnknownTx k (lse_generation l) (grt_attempt (lse_grant l)) "FENCED" r d).
  rewrite E1. cbn [mbind res_bind]. apply IH; [|done|].
  - eapply markLeaseUnknownTx_event; [|exact Hl|done|exact E1|done]. discriminate.
  - intros k' l' Hin. destruct (Hk k' l') as [Hl' Ha']; [by right|]. split; [|done].
    apply markLeaseUnknownTx_ended in E1 as [_ _ _ L _]. rewrite L.
    destruct (String.eqb_spec k k') as [<-|]; [|by rewrite Hl'].
    exfalso. apply Hn. by apply (list_elem_of_fmap_2 fst _ _ Hin).
Qed.

Lemma fenceHostCommandLeasesTx_total h r d : event_inv d ->
  exists d', fenceHostCommandLeasesTx h r d = Ok d' /\ event_inv d'.
Proof.
  intros I. apply fence_leases_total; [done|apply active_leases_NoDup|].
  intros k l H. apply active_leases_spec in H as [Hl H]. split; [done|].
  unfold on_host in H. rewrite Hl in H. by bools.
Qed.

Lemma fence_total h r d : event_inv d ->
  exists d', fenceHostOperationAuthorityTx h r d = Ok d' /\ event_inv d'.
Proof.
  intros I. unfold fenceHostOperationAuthorityTx.
  destruct (authorities d !! h) as [a|]; [destruct (aut_state a ==s "ARMED")|];
    apply fenceHostCommandLeasesTx_total; try done; by eapply event_inv_tables; [|exact I].
Qed.

Lemma fence_event h r d d' : fenceHostOperationAuthorityTx h r d = Ok d' -> event_step d d'.
Proof. intros H I. destruct (fence_total h r d I) as (d1 & E & I1). congruence. Qed.

(** ** The other transactions *)

Ltac quiet_tx := apply same_event_tables; reflexivity.

Lemma distrust_event good h r d d' : distrust good h r d = Ok d' -> event_step d d'.
Proof.
  unfold distrust. intros H. apply fence_event in H. etrans; [|exact H]. destruct good; quiet_tx.
Qed.

Lemma RecordEnrollmentDecision_event e d d' : RecordEnrollmentDecision e d = Ok d' -> event_step d d'.
Proof.
  unfold RecordEnrollmentDecision, insert_decision. intros H. open_tx; try done.
  all: match goal with H : distrust _ _ _ _ = Ok _ |- _ => apply distrust_event in H; etrans; [|exact H] end; quiet_tx.
Qed.

Lemma RecordAgentCredentialBinding_event b d d' : RecordAgentCredentialBinding b d = Ok d' -> event_step d d'.
Proof.
  unfold RecordAgentCredentialBinding, insert_credential_evidence. intros H. open_tx; try done.
  all: match goal with H : distrust _ _ _ _ = Ok _ |- _ => apply distrust_event in H; etrans; [|exact H] end; quiet_tx.
Qed.

Lemma UpdateHostReadinessGate_event g d d' : UpdateHostReadinessGate g d = Ok d' -> event_step d d'.
Proof.
  unfold UpdateHostReadinessGate. intros H. open_tx; [done|]. apply fence_event in H. etrans; [|exact H]. quiet_tx.
Qed.

Lemma refresh_event now h d d' : refreshHostSessionAuthorizationTx now h d = Ok d' -> event_step d d'.
Proof.
  unfold refreshHostSessionAuthorizationTx. intros H.
  destruct (sessions d !! h); [|by injection H as <-]. open_tx.
  destruct (authorization_of _ _ _ _ _ _ _) as [[? ?] ?]. open_tx. quiet_tx.
Qed.

Lemma AdmitAgentSession_event now r d d' g : AdmitAgentSession now r d = Ok (d', g) -> event_step d d'.
Proof.
  unfold AdmitAgentSession, record_attempt, grant_session. intros H. open_tx; try done; try quiet_tx.
  all: match goal with
  | H1 : fenceHostOperationAuthorityTx _ _ _ = Ok _, H2 : refreshHostSessionAuthorizationTx _ _ _ = Ok _ |- _ =>
      apply fence_event in H1; apply refresh_event in H2; etrans; [|exact H2]; etrans; [|exact H1] end.
  all: match goal with |- context [match ?o with Some _ => match _ with _ => _ end | None => _ end] => destruct o end.
  all: try match goal with |- context [match ?o with Some _ => appendSessionEventTx _ _ _ _ _ | None => _ end] =>
    destruct o end.
  all: quiet_tx.
Qed.

Lemma acceptAgentMessageTx_event e d d' r : acceptAgentMessageTx e d = Ok (d', r) -> event_step d d'.
Proof. unfold acceptAgentMessageTx, recordAgentReceiptTx. intros H. open_tx; try done; quiet_tx. Qed.

Lemma recordAgentReceiptTx_event e g s d d' r : recordAgentReceiptTx e g s d = Ok (d', r) -> event_step d d'.
Proof. unfold recordAgentReceiptTx. intros H. open_tx; try done; quiet_tx. Qed.

Lemma applyPCI_tables e s d d' : applyPCIDeviceProjectionsTx e s d = Ok d' -> event_tables d' = event_tables d.
Proof.
  unfold applyPCIDeviceProjectionsTx. apply (foldM_same event_tables). clear d d'. intros d f d' H.
  unfold project_fragment in H. destruct (Inventory.fr_PCI f) as [pci|]; [|by injection H as <-].
  revert H. apply (foldM_same event_tables). clear d d'. intros d v d' H. unfold project_device in H.
  open_tx; reflexivity.
Qed.

Lemma accept_inventory_tx_event now e s p d d' r : accept_inventory_tx now e s p d = Ok (d', r) -> event_step d d'.
Proof.
  unfold accept_inventory_tx, applyHostInventoryTx, insert_snapshot, project_capabilities. intros H. open_tx.
  all: repeat match goal with
  | H : acceptAgentMessageTx _ _ = Ok _ |- _ => apply acceptAgentMessageTx_event in H; etrans; [exact H|]; clear H
  | H : refreshHostSessionAuthorizationTx _ _ _ = Ok _ |- _ =>
      apply refresh_event in H; etrans; [|exact H]; clear H
  | H : fenceHostOperationAuthorityTx _ _ _ = Ok _ |- _ => apply fence_event in H
  | H : applyPCIDeviceProjectionsTx _ _ _ = Ok ?d2 |- event_step _ ?d2 =>
      etrans; [|apply same_event_tables; eapply applyPCI_tables; exact H]; clear H
  end.
  all: try done.
  all: match goal with H : event_step ?x ?y |- event_step _ ?y => etrans; [|exact H]; quiet_tx | _ => quiet_tx end.
Qed.

(** ** Commands *)

Lemma CreateExecutionCommand_event r d d' : CreateExecutionCommand r d = Ok d' -> event_step d d'.
Proof.
  unfold CreateExecutionCommand. intros H. apply bind_Ok_inv in H as ([] & _ & H).
  destruct (jobs d !! JobID r); open_tx; try done; quiet_tx.
Qed.

(** A lease granted on a fresh generation and a fresh attempt is open. *)
Lemma insert_grant_event c g grant d d' : insert_grant c g grant d = Ok d' -> event_step d d'.
Proof.
  unfold insert_grant. intros H [I1 I2 I3 I4]. open_tx.
  assert (lease_grants d !! (c, g) = None) as Hg by (by apply eq_None_not_Some).
  assert (attempts d !! (c, grt_attempt grant) = None) as Ha by (by apply eq_None_not_Some).
  split; cbn.
  - intros k l. destruct (decide (k = c)) as [->|Hne].
    + rewrite lookup_insert_eq. intros [= <-]. cbn. rewrite !lookup_insert_eq. eauto.
    + rewrite !lookup_insert_ne by (congruence || by apply pair_ne). apply I1.
  - intros k j. rewrite lookup_insert_None. intros [Hn _]. by apply I2.
  - intros k j. rewrite lookup_insert_None. intros [Hn _]. by apply I3.
  - intros k l _. destruct (decide (k = c)) as [->|Hne].
    + rewrite lookup_insert_eq. intros [= <-] _. unfold lease_open, events_of. cbn.
      by rewrite (I2 _ _ Hg), (I3 _ _ Ha).
    + rewrite lookup_insert_ne by congruence. by apply I4.
Qed.

Lemma enqueue_event now m a t s p d d' b : enqueue now m a t s p d = (d', b) -> event_step d d'.
Proof. unfold enqueue. destruct (outbox d !! m); intros [= <- <-]; quiet_tx. Qed.

Lemma enqueue_delivery_event now i d d' : enqueue_delivery now i d = Ok d' -> event_step d d'.
Proof. unfold enqueue_delivery. intros H. open_tx. by eapply enqueue_event. Qed.

Lemma appendAttemptEventTx_open c i t r p d d' : appendAttemptEventTx c i t r p d = Ok d' ->
  attempt_end t = false -> event_step d d'.
Proof. intros H Ht I. by eapply appendAttemptEventTx_event. Qed.

Lemma appendLeaseEventTx_open c g t p d d' : appendLeaseEventTx c g t p d = Ok d' ->
  is_Some (lease_grants d !! (c, g)) -> lease_end t = false -> event_step d d'.
Proof. intros H Hg Ht I. by eapply appendLeaseEventTx_event. Qed.

Lemma AcquireCommandLease_event now tok r d d' g : AcquireCommandLease now tok r d = Ok (d', g) -> event_step d d'.
Proof.
  unfold AcquireCommandLease. intros H. open_tx.
  all: match goal with
  | H1 : insert_grant ?c ?g _ _ = Ok ?d1, H2 : appendLeaseEventTx _ _ _ _ _ = Ok ?d2,
    H3 : appendAttemptEventTx _ _ _ _ _ _ = Ok ?d3 |- _ =>
      assert (is_Some (lease_grants d1 !! (c, g))) as Hg
        by (unfold insert_grant in H1; open_tx; cbn; rewrite lookup_insert_eq; eauto);
      apply insert_grant_event in H1; apply appendLeaseEventTx_open in H2; [|exact Hg|done];
      apply appendAttemptEventTx_open in H3; [|done];
      assert (event_step d1 d2) as H2' by (etrans; [|exact H2]; quiet_tx);
      pose proof (transitivity H1 (transitivity H2' H3)) as H4
  end.
  all: try exact H4.
  match goal with H : enqueue_delivery _ _ _ = Ok _ |- _ => apply enqueue_delivery_event in H end. by etrans.
Qed.

Lemma MarkCommandAttemptJournaled_event now s d d' : MarkCommandAttemptJournaled now s d = Ok d' -> event_step d d'.
Proof.
  unfold MarkCommandAttemptJournaled. intros H. open_tx.
  match goal with H : validateActiveLeaseTx _ _ _ _ _ = Ok _ |- _ =>
    apply validateActiveLeaseTx_active in H as (Hl & Ha & _) end.
  intros I. destruct (ev_lease _ _ I _ _ Hl) as [Hg _].
  match goal with H1 : appendAttemptEventTx _ _ _ _ _ _ = Ok ?d1, H2 : appendLeaseEventTx _ _ _ _ _ = Ok ?d2 |- _ =>
    pose proof (appendAttemptEventTx_rows _ _ _ _ _ _ _ H1) as R; injection R as _ R _ _ _ _ _;
    apply appendAttemptEventTx_open in H1; [|done]; apply appendLeaseEventTx_open in H2; [|by rewrite R|done];
    eapply event_inv_tables; [apply set_job_state_of_tables|]; cbn;
    eapply event_inv_tables; [|apply H2, H1, I]; reflexivity
  end.
Qed.

Lemma expireElapsedLeaseTx_event now c i d d' : expireElapsedLeaseTx now c i d = Ok d' -> event_step d d'.
Proof.
  unfold expireElapsedLeaseTx. intros H. destruct (leases d !! c) as [l|] eqn:El; [|by injection H as <-].
  destruct (_ && _); [|by injection H as <-]. eapply markLeaseUnknownTx_event; [|exact El|done|exact H]. discriminate.
Qed.

Lemma consume_lease_event s l d d' : leases d !! rs_CommandID s = Some l ->
  consume_lease s l d = Ok d' -> event_step d d'.
Proof.
  intros Hl H I. unfold consume_lease, insert_result in H. destruct (outcome_states (Outcome s)) as [cs js].
  open_tx. destruct (ev_lease _ _ I _ _ Hl) as [Hg _]. set (c := rs_CommandID s) in *.
  match goal with H1 : appendAttemptEventTx _ _ _ _ _ _ = Ok ?d1, H2 : appendLeaseEventTx _ _ _ _ _ = Ok ?d2 |- _ =>
    pose proof (appendAttemptEventTx_rows _ _ _ _ _ _ _ H1) as [= R1 R2 _ _ _ _ _];
    pose proof (appendLeaseEventTx_rows _ _ _ _ _ _ H2) as [= R3 _ _ _ _ _ _];
    apply (appendAttemptEventTx_event (fun k => k <> c)) in H1;
      [|done|eapply event_inv_tables; [|by eapply event_inv_weaken; [|exact I]]; reflexivity];
    apply (appendLeaseEventTx_event (fun k => k <> c)) in H2; [|by rewrite R2|done|done];
    eapply event_inv_tables; [apply set_job_state_of_tables|];
    destruct H2 as [J1 J2 J3 J4]; split; cbn; [|done|done|]
  end.
  - intros k x Hx. rewrite alter_lookup in Hx. destruct (leases _ !! k) as [x0|] eqn:Ex in Hx; [|done].
    destruct (c =? k)%string; injection Hx as <-; exact (J1 k x0 Ex).
  - intros k x _ Hx Ha. rewrite alter_lookup in Hx. destruct (leases _ !! k) as [x0|] eqn:Ex in Hx; [|done].
    destruct (String.eqb_spec c k) as [<-|Hne]; injection Hx as <-; [discriminate Ha|].
    apply J4; [congruence|done..].
Qed.

Lemma AcceptCommandResult_event now s d d' r : AcceptCommandResult now s d = (d', r) -> event_step d d'.
Proof.
  unfold AcceptCommandResult. intros H.
  destruct (_ ;; _) as [[d1 r1]|e] eqn:E; [|by injection H as <- <-]. injection H as <- <-.
  apply bind_Ok_inv in E as ([] & _ & E). unfold accept_result_tx in E.
  destruct (results d !! _) as [accepted|] eqn:Er; [open_tx; reflexivity|].
  destruct (validateActiveLeaseTx _ _ _ _ _) as [l|e] eqn:Ev; open_tx.
  - apply validateActiveLeaseTx_active in Ev as (Hl & _). by eapply consume_lease_event.
  - unfold reject_stale_result in *. open_tx.
    match goal with H1 : expireElapsedLeaseTx _ _ _ _ = Ok _, H2 : appendAttemptEventTx _ _ _ _ _ _ = Ok _ |- _ =>
      apply expireElapsedLeaseTx_event in H1; apply appendAttemptEventTx_open in H2; [|done]; by etrans end.
Qed.

Lemma RecordCommandVerification_event v d d' : RecordCommandVerification v d = Ok d' -> event_step d d'.
Proof.
  unfold RecordCommandVerification, resolve_command. intros H. open_tx; [done| |].
  all: try match goal with H : projectMatchedVMPowerVerificationTx _ _ = Ok _ |- _ =>
    unfold projectMatchedVMPowerVerificationTx, insert_power_evidence in H; open_tx end.
  all: try (unfold project_power; match goal with |- context [match ?o with Some _ => _ | None => _ end] =>
    destruct o; [destruct (_ || _)|] end).
  all: quiet_tx.
Qed.

Lemma AcceptAgentCommandResult_event now m e decision d d' r :
  AcceptAgentCommandResult now m e decision d = Ok (d', r) -> event_step d d'.
Proof.
  unfold AcceptAgentCommandResult, decide_result. intros H. open_tx; [done|..].
  all: repeat match goal with
  | H : appendAttemptEventTx _ _ _ _ _ _ = Ok _ |- _ => apply appendAttemptEventTx_open in H; [|done]
  | H : recordAgentReceiptTx _ _ _ _ = Ok _ |- _ => apply recordAgentReceiptTx_event in H
  | H : MarkCommandAttemptJournaled _ _ _ = Ok _ |- _ => apply MarkCommandAttemptJournaled_event in H
  | H : AcceptCommandResult _ _ _ = _ |- _ => apply AcceptCommandResult_event in H
  | H : RecordCommandVerification _ _ = Ok _ |- _ => apply RecordCommandVerification_event in H
  | H : acceptAgentMessageTx _ _ = Ok _ |- _ => apply acceptAgentMessageTx_event in H
  end.
  all: repeat (etrans; [eassumption|]); done.
Qed.

Lemma AcceptAgentVerificationObservation_event m e decision d d' r :
  AcceptAgentVerificationObservation m e decision d = Ok (d', r) -> event_step d d'.
Proof.
  unfold AcceptAgentVerificationObservation. intros H. open_tx; [done|].
  match goal with H1 : RecordCommandVerification _ _ = Ok _, H2 : acceptAgentMessageTx _ _ = Ok _ |- _ =>
    apply RecordCommandVerification_event in H1; apply acceptAgentMessageTx_event in H2 end. by etrans.
Qed.

(** ** The outbox *)

Lemma appendOutboxDeliveryEventTx_tables claim t p d d' :
  appendOutboxDeliveryEventTx claim t p d = Ok d' -> event_tables d' = event_tables d.
Proof. unfold appendOutboxDeliveryEventTx. intros. open_tx; reflexivity. Qed.

Lemma ClaimOutboxTx_tables now r d d' ms : ClaimOutboxTx now r d = Ok (d', ms) -> event_tables d' = event_tables d.
Proof.
  unfold ClaimOutboxTx. intros H. open_tx. etrans.
  - eapply (foldM_same event_tables); [|eassumption]. intros b m b' Hb. unfold record_claim in Hb.
    open_tx. by apply appendOutboxDeliveryEventTx_tables in Hb.
  - eapply (foldM_same event_tables); [|eassumption]. intros b [k m] b'.
    unfold claim_message. intros. open_tx. reflexivity.
Qed.

(** ** Expiry *)

Lemma ExpireCommandLease_event now c d d' : ExpireCommandLease now c d = Ok d' -> event_step d d'.
Proof.
  unfold ExpireCommandLease. intros H. open_tx.
  by eapply (markLeaseUnknownTx_event c _ _ "EXPIRED").
Qed.

Lemma expire_each_event now cs : forall d n d' n' e, expire_each now cs d n = (d', n', e) -> event_step d d'.
Proof.
  induction cs as [|c cs IH]; intros d n d' n' e H; cbn [expire_each] in H.
  - by injection H as <- <- <-.
  - destruct (ExpireCommandLease now c d) as [d1|err] eqn:E1.
    + etrans; [by eapply ExpireCommandLease_event|by eapply IH].
    + destruct (errors_Is err ErrStaleCommandLease); [by eapply IH|by injection H as <- <- <-].
Qed.

Lemma ExpireDueCommandLeases_event now limit d d' n e :
  ExpireDueCommandLeases now limit d = (d', n, e) -> event_step d d'.
Proof.
  unfold ExpireDueCommandLeases. intros H. destruct (_ || _); [by injection H as <- <- <-|].
  by eapply expire_each_event.
Qed.

(** An ACTIVE lease past its expiry, and the commands that have one. *)
Definition overdue (now : Z) (l : lease_row) : bool := is_active l && (grt_expires (lse_grant l) <=? now).
Definition all_due (now : Z) (d : db) : list string :=
  fst <$> sort_Slice (less_then (less_on Z.ltb (fun kl => grt_expires (lse_grant (snd kl))))
                        (less_on String.ltb fst))
            (List.filter (fun kl : string * lease_row => overdue now (snd kl)) (map_to_list (leases d))).

Lemma due_leases_all now limit d : due_leases now limit d = take (Z.to_nat limit) (all_due now d).
Proof. done. Qed.

Lemma all_due_spec now d c : c ∈ all_due now d <-> exists l, leases d !! c = Some l /\ overdue now l = true.
Proof.
  unfold all_due. rewrite list_elem_of_fmap. split.
  - intros ([k l] & -> & H). rewrite sort_elem, list_elem_of_In, filter_In, <- list_elem_of_In,
      elem_of_map_to_list in H. exists l. tauto.
  - intros (l & Hl & Ho). exists (c, l). split; [done|].
    rewrite sort_elem, list_elem_of_In, filter_In, <- list_elem_of_In, elem_of_map_to_list. tauto.
Qed.

Lemma all_due_NoDup now d : NoDup (all_due now d).
Proof. unfold all_due. rewrite sort_perm. apply fmap_filter_NoDup, NoDup_fst_map_to_list. Qed.

(** Each of a list of due commands is expired, without an error. *)
Lemma expire_each_total now cs : forall d n, event_inv d -> NoDup cs ->
  (forall c, c ∈ cs -> c ∈ all_due now d) ->
  exists d', expire_each now cs d n = (d', n + Z.of_nat (length cs), None) /\ event_inv d'
             /\ ended (fun c => existsb (String.eqb c) cs) "EXPIRED" d d'.
Proof.
  induction cs as [|c cs IH]; intros d n I Hd Hc; cbn [expire_each].
  - exists d. rewrite Z.add_0_r. split_and!; [done..|]. apply ended_none.
  - apply NoDup_cons in Hd as [Hn Hd].
    destruct (proj1 (all_due_spec now d c)) as (l & Hl & Ho); [apply Hc; left|].
    unfold overdue in Ho. bools.
    destruct (markLeaseUnknownTx_total c "EXPIRED" "lease_expired" d l) as [d1 E1]; [done..|].
    assert (ExpireCommandLease now c d = Ok d1) as ->.
    { unfold ExpireCommandLease. rewrite Hl. cbn [row mbind res_bind].
      rewrite (proj2 (Z.ltb_ge _ _)) by lia. match goal with H : is_active l = true |- _ => rewrite H end.
      cbn. exact E1. }
    pose proof (markLeaseUnknownTx_ended _ _ _ _ _ _ _ E1) as H1.
    assert (event_inv d1) as I1.
    { eapply markLeaseUnknownTx_event; [|exact Hl|done|exact E1|done]. discriminate. }
    destruct (IH d1 (n + 1) I1 Hd) as (d' & E & I' & H2).
    { intros k Hk. destruct (proj1 (all_due_spec now d k)) as (lk & Hlk & Hok); [apply Hc; by right|].
      apply all_due_spec. exists lk. split; [|done]. rewrite (end_lease _ _ _ _ H1), Hlk.
      destruct (String.eqb_spec c k) as [->|]; [done|done]. }
    exists d'. rewrite E. split_and!; [|done|].
    + f_equal. f_equal. cbn [length]. lia.
    + assert ("EXPIRED"%string <> "ACTIVE"%string) as Hne by discriminate.
      destruct (ended_trans _ _ _ _ _ _ Hne H1 H2) as [T F K L S].
      split; [done..| |]; intros k; cbn; [rewrite L|rewrite S]; by rewrite (String.eqb_sym k c).
Qed.

Lemma expired_due now cs d d' : ended (fun c => existsb (String.eqb c) cs) "EXPIRED" d d' ->
  forall c, c ∈ all_due now d' <-> c ∈ all_due now d /\ c ∉ cs.
Proof.
  intros [_ _ _ L _] c. rewrite !all_due_spec. split.
  - intros (l & Hl & Ho). rewrite L in Hl. destruct (leases d !! c) as [l0|]; [|done].
    destruct (existsb (String.eqb c) cs) eqn:Ec; injection Hl as <-.
    + unfold overdue in Ho. by rewrite is_active_retire in Ho.
    + split; [eauto|]. intros Hc. apply not_true_iff_false in Ec. apply Ec.
      by apply existsb_string_in, list_elem_of_In.
  - intros [(l & Hl & Ho) Hc]. exists l. rewrite L, Hl.
    destruct (existsb (String.eqb c) cs) eqn:Ec; [|done].
    destruct Hc. by apply list_elem_of_In, existsb_string_in.
Qed.

(** One sweep expires as many due leases as its limit allows, and fails on none. *)
Lemma sweep_spec now limit d : event_inv d -> 1 <= limit <= 1000 ->
  exists d', ExpireDueCommandLeases now limit d
             = (d', Z.min limit (Z.of_nat (length (all_due now d))), None)
  /\ event_inv d' /\ ended (fun c => existsb (String.eqb c) (due_leases now limit d)) "EXPIRED" d d'
  /\ length (all_due now d') = (length (all_due now d) - Z.to_nat limit)%nat.
Proof.
  intros I Hl. unfold ExpireDueCommandLeases.
  rewrite (proj2 (Z.ltb_ge _ _)), (proj2 (Z.ltb_ge _ _)) by lia. cbn [orb].
  pose proof (all_due_NoDup now d) as Hd. rewrite due_leases_all.
  destruct (expire_each_total now (take (Z.to_nat limit) (all_due now d)) d 0 I) as (d' & E & I' & H).
  - rewrite <- (take_drop (Z.to_nat limit) (all_due now d)) in Hd. by apply NoDup_app in Hd as (? & _ & ?).
  - intros c Hc. rewrite <- (take_drop (Z.to_nat limit) (all_due now d)). apply elem_of_app. by left.
  - exists d'. split_and!; [|done|done|].
    + rewrite E, length_take. f_equal. f_equal. lia.
    + rewrite <- length_drop. apply Permutation_length, NoDup_Permutation; [apply all_due_NoDup| |].
      * rewrite <- (take_drop (Z.to_nat limit) (all_due now d)) in Hd. by apply NoDup_app in Hd as (? & _ & ?).
      * intros c. rewrite (expired_due _ _ _ _ H).
        rewrite <- (take_drop (Z.to_nat limit) (all_due now d)) in Hd. apply NoDup_app in Hd as (_ & Hd & _).
        rewrite <- (take_drop (Z.to_nat limit) (all_due now d)) at 1. rewrite elem_of_app. split; [tauto|].
        intros Hc. split; [by right|]. intros Ht. by apply (Hd c).
Qed.
