(* ===== verification/CommandDelivery.v ===== *)
(** * postgres/command_delivery.go: leases and verification requests on their way

    A lease granted with a protected token, or a request to verify an UNKNOWN
    command, leaves through the outbox and an internal bus to a Gateway.  The
    bus is no authority: both ends read the tables again.  [jsonb_text], what
    PostgreSQL returns for a jsonb payload, the protector of tokens and the
    failures of the database are arguments. *)

From S2P Require Import Prelude GoStd GoJson Envelope GoTime GoFloat GoRaw Contract.
From S2P Require Import ControlDb CommandEvents HostTrust Receipts Execution Verification.
Local Open Scope Z_scope.
Local Open Scope go_scope.

Definition ErrInternalDeliveryConflict : goerr := errors_New "internal delivery message evidence conflict".
Definition ErrInternalDeliveryStale : goerr := errors_New "internal delivery authority is stale".
Definition ErrDeliveryKeyUnavailable : goerr := errors_New "internal delivery key revision is unavailable".
(** tokenprotect.ErrKeyUnavailable *)
Definition ErrKeyUnavailable : goerr := errors_New "protected capability key is unavailable".

Definition foreign_key_violation (table : string) : goerr :=
  Errorf "insert violates foreign key constraint to %s" [table].

(** [Protector.Unprotect] *)
Definition Unprotect := ProtectedValue -> bytes -> res bytes.

(** What happens to a transaction besides its statements: nothing, or an error
    of the connection when it begins, at the query that reads the authority, or
    when it commits.  None of them leaves anything in the tables. *)
Inductive outage := NoOutage | AtBegin (e : goerr) | AtQuery (e : goerr) | AtCommit (e : goerr).

Section Jsonb.
Context (jsonb_text : json -> bytes).

(** ** Revalidation of a lease *)

(** The rows the query of [loadCurrentCommandDeliveryTx] joins *)
Definition delivery_rows (now : Z) (lease : CommandLease) (d : db) : option (command_row * state_row * lease_row) :=
  command ← commands d !! cl_CommandID lease;
  current ← command_states d !! cl_CommandID lease;
  active ← leases d !! cl_CommandID lease;
  let g := lse_grant active in
  if (cmd_host command ==s cl_HostID lease) && (lse_generation active =? cl_LeaseGeneration lease)
     && (grt_attempt g =? cl_AttemptIndex lease) && (grt_authority g =? cl_HostAuthorityGeneration lease)
     && (grt_session g =? cl_SessionGeneration lease) && lease_live now active
  then Some (command, current, active) else None.

(** The columns it scans into the lease *)
Definition scan_command (command : command_row) (lease : CommandLease) : CommandLease :=
  lease <| cl_CommandType := cmd_type command |> <| cl_CommandSchemaVersion := cmd_schema command |>
        <| cl_TargetResourceID := cmd_target command |> <| cl_CommandPayload := jsonb_text (cmd_payload command) |>
        <| cl_CommandPayloadDigest := cmd_digest command |>.

(** [loadCurrentCommandDeliveryTx]: the lease it leaves, and its error *)
Definition loadCurrentCommandDeliveryTx (now : Z) (lease : CommandLease) (d : db) : CommandLease * res unit :=
  match delivery_rows now lease d with
  | None => (lease, Err ErrInternalDeliveryStale)
  | Some (command, current, active) =>
      let lease := scan_command command lease in
      if (lse_state active !=s "ACTIVE") || ((cst_state current !=s "LEASED") && (cst_state current !=s "EXECUTING"))
         || (grt_token (lse_grant active) !=s tokenSHA256 (cl_LeaseToken lease))
      then (lease, Err ErrInternalDeliveryStale) else
      match readHostMutationAuthorityTx now (cl_HostID lease) (cl_HostAuthorityGeneration lease) d with
      | Err _ => (lease, Err ErrInternalDeliveryStale)
      | Ok authority =>
          if ma_SessionGeneration authority !=z cl_SessionGeneration lease
          then (lease, Err ErrInternalDeliveryStale) else (lease, Ok tt)
      end
  end.

(** [RecoverCommandDelivery]: the lease is meaningful without an error only *)
Definition recovered_lease (intent : CommandLeaseDeliveryIntent) (plaintext : bytes) : CommandLease :=
  MkCommandLease CommandLeaseSchema (di_CommandID intent) (di_LeaseGeneration intent) (di_AttemptIndex intent)
    (di_HostID intent) (di_HostAuthorityGeneration intent) (di_SessionGeneration intent) plaintext "" "" "" "" ""
    (ExecutionTimeoutMillis intent).
Definition check_intent (intent : CommandLeaseDeliveryIntent) : bool :=
  (di_SchemaVersion intent !=s "kim.internal.command-lease-delivery/v1") || (di_CommandID intent ==s "")
  || (di_LeaseGeneration intent <? 1) || (di_AttemptIndex intent <? 1) || (di_HostID intent ==s "")
  || (di_HostAuthorityGeneration intent <? 1) || (di_SessionGeneration intent <? 1)
  || (len (TokenDigest intent) !=z 64) || (ExecutionTimeoutMillis intent <? 1).
Definition RecoverCommandDelivery (failure : outage) (now : Z) (intent : CommandLeaseDeliveryIntent)
    (protector : option Unprotect) (d : db) : res CommandLease :=
  match protector with
  | None => Err ErrInternalDeliveryConflict
  | Some unprotect =>
      fail_if (check_intent intent) ErrInternalDeliveryConflict;;
      match unprotect (ProtectedToken intent) (di_CommandID intent) with
      | Err e => Err (if errors_Is e ErrKeyUnavailable then ErrDeliveryKeyUnavailable else ErrInternalDeliveryConflict)
      | Ok plaintext =>
          fail_if (tokenSHA256 plaintext !=s TokenDigest intent) ErrInternalDeliveryConflict;;
          match failure with
          | AtBegin e => Err e
          | AtQuery _ => Err ErrInternalDeliveryStale
          | _ =>
              match loadCurrentCommandDeliveryTx now (recovered_lease intent plaintext) d with
              | (_, Err e) => Err e
              | (lease, Ok _) => match failure with AtCommit e => Err e | _ => Ok lease end
              end
          end
      end
  end.

(** ** The inbox of a Gateway *)

Record InternalDeliveryInboxDecision := MkInboxDecision {
  dec_State : string; Duplicate : bool; dec_Lease : CommandLease;
}.

(** [INSERT INTO kim.inbox_message_conflicts ... ON CONFLICT DO NOTHING] *)
Definition insert_conflict (consumer messageID accepted conflicting : string) (d : db) : res db :=
  fail_if (negb (hex64 accepted) || negb (hex64 conflicting)) (check_violation "inbox_message_conflicts");;
  match inbox_conflicts d !! (consumer, messageID, conflicting) with
  | Some _ => Ok d
  | None => Ok (d <| inbox_conflicts ::= <[(consumer, messageID, conflicting) := accepted]> |>)
  end.

(** [INSERT INTO kim.inbox_messages] *)
Definition insert_inbox (consumer messageID payloadDigest state : string) (d : db) : res db :=
  fail_if (bool_decide (is_Some (inbox d !! (consumer, messageID)))) (unique_violation "inbox_messages");;
  fail_if (negb (hex64 payloadDigest)
           || negb (existsb (String.eqb state) ["ACCEPTED"; "REJECTED"; "QUARANTINED"]%string))
    (check_violation "inbox_messages");;
  Ok (d <| inbox ::= <[(consumer, messageID) := MkInbox payloadDigest state]> |>).

(** The transaction the two [Accept] functions share: what they return when the
    message identity was used for another payload, and otherwise the tables,
    the state and the [Duplicate] flag as far as the transaction set them, and
    its error.  [revalidate] is the query of the authority. *)
Inductive inbox_result :=
| InboxConflict (d : db)
| InboxDecided (d : db) (state : string) (duplicate : bool) (e : option goerr).

Definition inbox_tx (consumer messageID payloadDigest : string) (failure : outage)
    (revalidate : db -> bool) (d : db) : inbox_result :=
  match failure with
  | AtBegin e => InboxDecided d "" false (Some e)
  | _ =>
      let decide (state : string) (duplicate : bool) :=
        match failure with
        | AtQuery e => InboxDecided d state duplicate (Some e)
        | _ =>
            let state := (if revalidate d then "ACCEPTED" else "REJECTED")%string in
            match (if duplicate then Ok d else insert_inbox consumer messageID payloadDigest state d) with
            | Err e => InboxDecided d state duplicate (Some e)
            | Ok d' =>
                match failure with
                | AtCommit e => InboxDecided d state duplicate (Some e)
                | _ => InboxDecided d' state duplicate None
                end
            end
        end in
      match inbox d !! (consumer, messageID) with
      | None => decide "" false
      | Some r =>
          if inb_digest r !=s payloadDigest then
            match insert_conflict consumer messageID (inb_digest r) payloadDigest d with
            | Err e => InboxDecided d "" false (Some e)
            | Ok d' => match failure with AtCommit e => InboxDecided d "" false (Some e) | _ => InboxConflict d' end
            end
          else decide (inb_state r) true
      end
  end.

(** [AcceptInternalCommandDelivery]: the tables, the decision and the error *)
Definition zero_decision : InternalDeliveryInboxDecision := MkInboxDecision "" false zero_lease.
Definition check_delivery (consumer messageID payloadDigest : string) : bool :=
  (consumer ==s "") || (messageID ==s "") || (len payloadDigest !=z 64).

Definition AcceptInternalCommandDelivery (failure : outage) (now : Z) (consumer messageID payloadDigest : string)
    (e : Envelope) (maxMessageBytes : Z) (d : db) : db * InternalDeliveryInboxDecision * option goerr :=
  if check_delivery consumer messageID payloadDigest || (MessageID e ==s "")
  then (d, zero_decision, Some ErrInternalDeliveryConflict) else
  match Validate e maxMessageBytes with
  | Err err => (d, zero_decision, Some err)
  | Ok _ =>
      match DecodeCommandLease (Payload e) with
      | Err _ => (d, zero_decision, Some ErrInternalDeliveryConflict)
      | Ok lease =>
          if (cl_HostID lease !=s HostIdentity e) || (cl_SessionGeneration lease !=z i64 (SessionGeneration e))
             || (cl_CommandID lease !=s CorrelationKey e) || (Sequence e !=z u64 (cl_AttemptIndex lease))
          then (d, zero_decision, Some ErrInternalDeliveryConflict) else
          match inbox_tx consumer messageID payloadDigest failure
                  (fun d => is_Ok (snd (loadCurrentCommandDeliveryTx now lease d))) d with
          | InboxConflict d' => (d', MkInboxDecision "" false lease, Some ErrInternalDeliveryConflict)
          | InboxDecided d' state duplicate None => (d', MkInboxDecision state duplicate lease, None)
          | InboxDecided _ _ _ (Some err) =>
              (d, zero_decision, Some (Wrapf "accept internal Command delivery: %w" [] err))
          end
      end
  end.

(** ** Verification requests *)

Definition CommandVerificationDeliverySchema : string := "kim.internal.command-verification-delivery/v1".

(** The intent has the members of a [VerificationRequest], and no others. *)
Record CommandVerificationDeliveryIntent := MkVerificationIntent {
  vi_SchemaVersion : string; vi_CommandID : string; vi_AttemptIndex : Z; vi_HostID : string;
  vi_SessionGeneration : Z; vi_CommandType : string; vi_CommandSchemaVersion : string;
  vi_TargetResourceID : string; vi_CommandPayload : bytes; vi_CommandPayloadDigest : string;
}.

(** [canonicalJSONDigest]; the text of its error is not used. *)
Definition canonicalJSONDigest (payload : bytes) : option string :=
  j ← unmarshal payload; value ← any_value j; Some (digestBytes (marshal value)).

Definition request_of_intent (intent : CommandVerificationDeliveryIntent) : VerificationRequest :=
  MkVerificationRequest VerificationRequestSchema (vi_CommandID intent) (vi_AttemptIndex intent) (vi_HostID intent)
    (vi_SessionGeneration intent) (vi_CommandType intent) (vi_CommandSchemaVersion intent)
    (vi_TargetResourceID intent) (vi_CommandPayload intent) (vi_CommandPayloadDigest intent).

(** [RecoverCommandVerificationDelivery]: every error of its query is taken for
    a stale authority. *)
Definition RecoverCommandVerificationDelivery (failure : outage) (intent : CommandVerificationDeliveryIntent) (d : db) :
    res VerificationRequest :=
  fail_if ((vi_SchemaVersion intent !=s CommandVerificationDeliverySchema) || (vi_CommandID intent ==s "")
           || (vi_AttemptIndex intent <? 1) || (vi_HostID intent ==s "") || (vi_SessionGeneration intent <? 1)
           || (len (vi_CommandPayloadDigest intent) !=z 64)) ErrInternalDeliveryConflict;;
  match failure, LoadCommandVerificationCandidate (vi_CommandID intent) d with
  | NoOutage, Ok c =>
      fail_if ((vc_HostID c !=s vi_HostID intent) || (vc_SessionGeneration c !=z vi_SessionGeneration intent)
               || (vc_AttemptIndex c !=z vi_AttemptIndex intent) || (vc_CommandType c !=s vi_CommandType intent)
               || (vc_SchemaVersion c !=s vi_CommandSchemaVersion intent)
               || (vc_TargetResourceID c !=s vi_TargetResourceID intent)
               || (vc_PayloadDigest c !=s vi_CommandPayloadDigest intent)
               || bool_decide (canonicalJSONDigest (vi_CommandPayload intent) <> Some (vi_CommandPayloadDigest intent)))
        ErrInternalDeliveryConflict;;
      Ok (request_of_intent intent)
  | _, _ => Err ErrInternalDeliveryStale
  end.

(** The query of [AcceptInternalVerificationDelivery] and its test *)
Definition verification_wanted (request : VerificationRequest) (d : db) : bool :=
  match (command ← commands d !! vr_CommandID request;
         current ← command_states d !! vr_CommandID request;
         session ← sessions d !! cmd_host command;
         authorization ← authorizations d !! cmd_host command;
         Some (command, current, session, authorization)) with
  | Some (command, current, session, authorization) =>
      (ses_state session ==s "CURRENT") && (ses_generation session =? vr_SessionGeneration request)
      && (ath_session authorization =? vr_SessionGeneration request) && (ath_state authorization ==s "AUTHORIZED")
      && (cmd_host command ==s vr_HostID request)
      && (cst_state current ==s "UNKNOWN") && (cst_attempt current =? vr_AttemptIndex request)
      && (cmd_type command ==s vr_CommandType request) && (cmd_schema command ==s vr_CommandSchemaVersion request)
      && (cmd_target command ==s vr_TargetResourceID request)
      && (cmd_digest command ==s vr_CommandPayloadDigest request)
  | None => false
  end.

Definition request_lease (request : VerificationRequest) : CommandLease :=
  zero_lease <| cl_HostID := vr_HostID request |> <| cl_SessionGeneration := vr_SessionGeneration request |>.

(** [AcceptInternalVerificationDelivery]: the error of its transaction is not
    returned. *)
Definition AcceptInternalVerificationDelivery (failure : outage) (consumer messageID payloadDigest : string)
    (e : Envelope) (maxMessageBytes : Z) (d : db) : db * InternalDeliveryInboxDecision * option goerr :=
  if check_delivery consumer messageID payloadDigest || (SchemaVersion e !=s VerificationRequestSchema)
  then (d, zero_decision, Some ErrInternalDeliveryConflict) else
  match Validate e maxMessageBytes with
  | Err err => (d, zero_decision, Some err)
  | Ok _ =>
      match DecodeVerificationRequest (Payload e) with
      | Err _ => (d, zero_decision, Some ErrInternalDeliveryConflict)
      | Ok request =>
          if (vr_HostID request !=s HostIdentity e) || (vr_SessionGeneration request !=z i64 (SessionGeneration e))
             || (vr_CommandID request !=s CorrelationKey e) || (vr_AttemptIndex request !=z i64 (Sequence e))
          then (d, zero_decision, Some ErrInternalDeliveryConflict) else
          if bool_decide (canonicalJSONDigest (vr_CommandPayload request) <> Some (vr_CommandPayloadDigest request))
          then (d, zero_decision, Some ErrInternalDeliveryConflict) else
          match inbox_tx consumer messageID payloadDigest failure (verification_wanted request) d with
          | InboxConflict d' => (d', MkInboxDecision "" false (request_lease request), Some ErrInternalDeliveryConflict)
          | InboxDecided d' state duplicate None => (d', MkInboxDecision state duplicate (request_lease request), None)
          | InboxDecided _ state duplicate (Some _) =>
              (d, MkInboxDecision state duplicate (request_lease request), None)
          end
      end
  end.

(** The candidates of [EnqueuePendingCommandVerifications], in the order of
    [updated_at], a column of kim.execution_commands_current that is not among
    the tables, and of the command's name. *)
Definition pending_order (updated_at : string -> Z) (a b : string) : bool :=
  (updated_at a <? updated_at b) || ((updated_at a =? updated_at b) && String.ltb a b).
Definition pending_intent (d : db) (commandID : string) : option CommandVerificationDeliveryIntent :=
  command ← commands d !! commandID;
  current ← command_states d !! commandID;
  session ← sessions d !! cmd_host command;
  authorization ← authorizations d !! cmd_host command;
  if (ses_state session ==s "CURRENT") && (ath_session authorization =? ses_generation session)
     && (ath_state authorization ==s "AUTHORIZED") && (cst_state current ==s "UNKNOWN")
  then Some (MkVerificationIntent CommandVerificationDeliverySchema commandID (cst_attempt current) (cmd_host command)
               (ses_generation session) (cmd_type command) (cmd_schema command) (cmd_target command)
               (jsonb_text (cmd_payload command)) (cmd_digest command))
  else None.
Definition pending_verifications (updated_at : string -> Z) (limit : Z) (d : db) :
    list CommandVerificationDeliveryIntent :=
  firstn (Z.to_nat limit)
    (omap (pending_intent d) (sort_Slice (pending_order updated_at) (fst <$> map_to_list (commands d)))).

(** [json.Marshal] of an intent: [None] when the payload is not JSON. *)
Definition verification_intent_json (intent : CommandVerificationDeliveryIntent) : option json :=
  payload ← raw_json (vi_CommandPayload intent);
  Some (JObj [("schema_version", JStr (vi_SchemaVersion intent)); ("command_id", JStr (vi_CommandID intent));
        ("attempt_index", JInt (vi_AttemptIndex intent)); ("host_id", JStr (vi_HostID intent));
        ("session_generation", JInt (vi_SessionGeneration intent)); ("command_type", JStr (vi_CommandType intent));
        ("command_schema_version", JStr (vi_CommandSchemaVersion intent));
        ("target_resource_id", JStr (vi_TargetResourceID intent)); ("command_payload", payload);
        ("command_payload_digest", JStr (vi_CommandPayloadDigest intent))]%string).

Definition verification_message_id (intent : CommandVerificationDeliveryIntent) : string :=
  ("command-verification/" ++ vi_CommandID intent ++ "/" ++ FormatInt (vi_AttemptIndex intent) ++ "/"
   ++ FormatInt (vi_SessionGeneration intent))%string.
Definition enqueue_verification (now : Z) (acc : db * Z) (intent : CommandVerificationDeliveryIntent) : res (db * Z) :=
  let '(d, created) := acc in
  match verification_intent_json intent with
  | None => Err (errors_New "json: error calling MarshalJSON for type json.RawMessage")
  | Some payload =>
      let '(d, inserted) := enqueue now (verification_message_id intent) (vi_CommandID intent)
        "COMMAND_VERIFICATION_DELIVERY_REQUESTED" (vi_SchemaVersion intent) payload d in
      Ok (d, if inserted then created + 1 else created)
  end.
Definition EnqueuePendingCommandVerifications (updated_at : string -> Z) (now limit : Z) (d : db) : res (db * Z) :=
  fail_if ((limit <? 1) || (1000 <? limit)) (errors_New "bounded verification enqueue configuration is required");;
  foldM (enqueue_verification now) (pending_verifications updated_at limit d) (d, 0).

(** ** Routes *)

Definition route_event_ok (eventType : string) : bool :=
  existsb (String.eqb eventType) ["ROUTE_STARTED"; "ROUTE_ACCEPTED"; "ROUTE_UNKNOWN"]%string.

(** [INSERT INTO kim.gateway_command_delivery_events], with its checks and
    references; [skip] is [ON CONFLICT DO NOTHING]. *)
Definition insert_route (skip : bool) (consumer messageID : string) (attempt : Z) (eventType : string) (r : route_row)
    (d : db) : res db :=
  fail_if ((attempt <? 1) || (rte_session r <? 1) || negb (route_event_ok eventType))
    (check_violation "gateway_command_delivery_events");;
  match route_events d !! (consumer, messageID, attempt, eventType) with
  | Some _ => if skip then Ok d else Err (unique_violation "gateway_command_delivery_events")
  | None =>
      fail_if (bool_decide (inbox d !! (consumer, messageID) = None)) (foreign_key_violation "inbox_messages");;
      fail_if (bool_decide (identities d !! rte_host r = None)) (foreign_key_violation "host_identities");;
      Ok (d <| route_events ::= <[(consumer, messageID, attempt, eventType) := r]> |>)
  end.

(** [RecordGatewayCommandRoute] *)
Definition RecordGatewayCommandRoute (failure : outage) (consumer messageID eventType hostID : string)
    (sessionGeneration routeAttempt : Z) (detail : json) (d : db) : db * res unit :=
  if (consumer ==s "") || (messageID ==s "") || (hostID ==s "") || (sessionGeneration <? 1) || (routeAttempt <? 1)
     || negb (route_event_ok eventType)
  then (d, Err (errors_New "complete Gateway route evidence is required")) else
  match failure with
  | AtBegin e | AtQuery e | AtCommit e => (d, Err e)
  | NoOutage =>
      match insert_route true consumer messageID routeAttempt eventType (MkRoute hostID sessionGeneration detail) d with
      | Ok d' => (d', Ok tt)
      | Err e => (d, Err e)
      end
  end.

(** [StartGatewayCommandRoute]: with an error the attempt is not used. *)
Definition route_attempts (consumer messageID : string) (d : db) : list Z :=
  (fun kr : string * string * Z * string * route_row => snd (fst (fst kr))) <$>
    List.filter (fun kr : string * string * Z * string * route_row =>
                   let '(c, m, _, _) := fst kr in (c ==s consumer) && (m ==s messageID))
      (map_to_list (route_events d)).
Definition next_route_attempt (consumer messageID : string) (d : db) : Z :=
  foldr Z.max 0 (route_attempts consumer messageID d) + 1.
Definition StartGatewayCommandRoute (failure : outage) (consumer messageID hostID : string) (sessionGeneration : Z)
    (d : db) : db * res Z :=
  if (consumer ==s "") || (messageID ==s "") || (hostID ==s "") || (sessionGeneration <? 1)
  then (d, Err (errors_New "complete Gateway route identity is required")) else
  match failure with
  | AtBegin e | AtQuery e | AtCommit e => (d, Err e)
  | NoOutage =>
      let attempt := next_route_attempt consumer messageID d in
      if MaxInt64 <? attempt then (d, Err out_of_range) else
      match insert_route false consumer messageID attempt "ROUTE_STARTED"
              (MkRoute hostID sessionGeneration (JObj [("boundary", JStr "gateway_route_attempt")]%string)) d with
      | Ok d' => (d', Ok attempt)
      | Err e => (d, Err e)
      end
  end.
End Jsonb.
