(* ===== verification/DeliverySteps.v ===== *)
(** * What the delivery transactions touch

    Inbox rows, conflicts and route events are only ever added, an outbox row
    is added once; no transaction of a Gateway or a publisher changes a command,
    a lease or an authority. *)

From S2P Require Import Prelude GoStd GoJson Envelope Contract ControlDb CommandEvents HostTrust.
From S2P Require Import Receipts Execution Verification CommandDelivery ControlFrames CommandSteps LeaseEvents.
Local Open Scope Z_scope.
Local Open Scope go_scope.

(** The tables of the delivery plane, which grow, and no others. *)
Record delivered (d d' : db) : Prop := MkDeliveredStep {
  dlv_framed : framed d d';
  dlv_events : event_tables d' = event_tables d;
}.

#[export] Instance delivered_preorder : PreOrder delivered.
Proof.
  split; [intros d; by split|]. intros a b c [F1 E1] [F2 E2]. split; [by etrans|congruence].
Qed.

(** A row added under a key that is free. *)
Ltac added := split; [split_and!; try reflexivity; unfold keeps_rows; cbn; split_and!; try done;
  by apply insert_subseteq|reflexivity].

Lemma insert_conflict_delivered c m a x d d' : insert_conflict c m a x d = Ok d' -> delivered d d'.
Proof. unfold insert_conflict. intros H. open_tx; [done|added]. Qed.

Lemma insert_inbox_delivered c m x s d d' : insert_inbox c m x s d = Ok d' -> delivered d d'.
Proof.
  unfold insert_inbox. intros H. open_tx.
  apply eq_None_not_Some in Hr. added.
Qed.

Lemma insert_route_delivered skip c m n t r d d' : insert_route skip c m n t r d = Ok d' -> delivered d d'.
Proof. unfold insert_route. intros H. open_tx; try done. added. Qed.

(** What a committed [inbox_tx] leaves *)
Definition inbox_tables (d : db) (r : inbox_result) : db :=
  match r with InboxConflict d' => d' | InboxDecided d' _ _ None => d' | InboxDecided _ _ _ (Some _) => d end.

Lemma inbox_tx_delivered c m x f v d : delivered d (inbox_tables d (inbox_tx c m x f v d)).
Proof.
  unfold inbox_tx. destruct f; cbn; try done.
  all: destruct (inbox d !! (c, m)) as [r|] eqn:E; [destruct (inb_digest r !=s x)|]; cbn; try done.
  all: match goal with
    | |- context [insert_conflict ?c ?m ?a ?x ?d] => destruct (insert_conflict c m a x d) eqn:Hi; cbn; try done;
        by eapply insert_conflict_delivered
    | |- context [insert_inbox ?c ?m ?x ?s ?d] => destruct (insert_inbox c m x s d) eqn:Hi; cbn; try done;
        by eapply insert_inbox_delivered
    end.
Qed.

Section Jsonb.
Context (jsonb_text : json -> bytes).

(** Both ways into the inbox leave the tables of [inbox_tx]. *)
Lemma accept_command_delivered f now c m x e n d :
  delivered d (fst (fst (AcceptInternalCommandDelivery jsonb_text f now c m x e n d))).
Proof.
  unfold AcceptInternalCommandDelivery. destruct (_ || _); [done|]. destruct (Validate e n); [|done].
  destruct (DecodeCommandLease _) as [lease|]; [|done]. destruct (_ || _); [done|].
  match goal with |- context [inbox_tx ?c ?m ?x ?f ?v ?d] =>
    pose proof (inbox_tx_delivered c m x f v d) as H; destruct (inbox_tx c m x f v d) as [|? ? ? []] end; exact H || done.
Qed.

Lemma accept_verification_delivered f c m x e n d :
  delivered d (fst (fst (AcceptInternalVerificationDelivery f c m x e n d))).
Proof.
  unfold AcceptInternalVerificationDelivery. destruct (_ || _); [done|]. destruct (Validate e n); [|done].
  destruct (DecodeVerificationRequest _) as [request|]; [|done]. destruct (_ || _); [done|].
  destruct (bool_decide _); [done|].
  match goal with |- context [inbox_tx ?c ?m ?x ?f ?v ?d] =>
    pose proof (inbox_tx_delivered c m x f v d) as H; destruct (inbox_tx c m x f v d) as [|? ? ? []] end; exact H || done.
Qed.

Lemma enqueue_delivered now m a t s p d d' b : enqueue now m a t s p d = (d', b) -> delivered d d'.
Proof. unfold enqueue. destruct (outbox d !! m); intros [= <- <-]; [done|]. by split; [split_and!|]. Qed.

Lemma EnqueuePending_delivered up now n d d' k :
  EnqueuePendingCommandVerifications jsonb_text up now n d = Ok (d', k) -> delivered d d'.
Proof.
  unfold EnqueuePendingCommandVerifications. intros H. open_tx.
  assert (PreOrder (fun a b : db * Z => delivered (fst a) (fst b))) as Hpre.
  { split; [by intros ?|]. intros x y z Hxy Hyz. by etrans. }
  refine (foldM_related (fun a b : db * Z => delivered (fst a) (fst b)) _ _ _ _ _ H).
  intros [d1 k1] i [d2 k2]. unfold enqueue_verification. destruct (verification_intent_json i); [|done].
  destruct (enqueue _ _ _ _ _ _ _) as [d3 b] eqn:E. intros [= <- _]. by eapply enqueue_delivered.
Qed.

Lemma RecordGatewayCommandRoute_delivered f c m t h g n p d :
  delivered d (fst (RecordGatewayCommandRoute f c m t h g n p d)).
Proof.
  unfold RecordGatewayCommandRoute. destruct (_ || _); [done|]. destruct f; [|done..].
  destruct (insert_route _ _ _ _ _ _ _) eqn:E; [|done]. by eapply insert_route_delivered.
Qed.

Lemma StartGatewayCommandRoute_delivered f c m h g d :
  delivered d (fst (StartGatewayCommandRoute f c m h g d)).
Proof.
  unfold StartGatewayCommandRoute. destruct (_ || _); [done|]. destruct f; [|done..].
  destruct (MaxInt64 <? _); [done|].
  destruct (insert_route _ _ _ _ _ _ _) eqn:E; [|done]. by eapply insert_route_delivered.
Qed.
End Jsonb.

Lemma delivered_step d d' : delivered d d' -> command_tx d d' /\ event_step d d'.
Proof. intros [F E]. split; [by apply framed_step|by apply same_event_tables]. Qed.
