(* ===== verification/HostSteps.v ===== *)
(** * The authority of a Host

    [host_view] is everything that decides whether a Host may be mutated.
    Every transaction either leaves the view of a Host alone, or leaves its
    authority disarmed, or arms it with the next generation on the exact rows
    it pins ([host_step]).  The session of a Host is replaced by the next
    generation only. *)

From S2P Require Import Prelude GoStd GoJson Envelope Inventory ControlDb CommandEvents HostTrust.
From S2P Require Import SessionRegistry Receipts HostInventory Execution Verification ControlFrames CommandSteps.
Local Open Scope Z_scope.
Local Open Scope go_scope.

Record host_view := MkView {
  view_identity : option identity_row; view_enrollment : option enrollment_row;
  view_credential : option credential_row; view_evidence : option evidence_row;
  view_session : option session_row; view_projection : option projection_row;
  view_gate : option gate_row; view_authority : option authority_row;
}.

Definition view_of (d : db) (h : string) : host_view :=
  MkView (identities d !! h) (enrollment_bindings d !! h) (credential_bindings d !! h)
    (c ← credential_bindings d !! h; credential_evidence d !! (h, crd_revision c))
    (sessions d !! h) (projections d !! h) (gates d !! h) (authorities d !! h).

(** The last authority generation of a Host. *)
Definition view_generation (v : host_view) : Z :=
  match view_identity v with Some i => host_authority_generation i | None => 0 end.

(** The rows an authority pins are the current ones. *)
Record pinned (v : host_view) (a : authority_row) : Prop := MkPinned {
  pin_identity : exists i, view_identity v = Some i /\ enrollment_state i = "APPROVED"%string
                           /\ host_authority_generation i = aut_generation a;
  pin_enrollment : exists e, view_enrollment v = Some e /\ enr_state e = "ENROLLED"%string
                             /\ enr_revision e = aut_enrollment a;
  pin_credential : exists c, view_credential v = Some c /\ crd_state c = "CURRENT"%string
                             /\ crd_revision c = aut_credential a;
  pin_evidence : exists e, view_evidence v = Some e /\ cev_state e = "ACTIVE"%string;
  pin_session : exists s, view_session v = Some s /\ ses_state s = "CURRENT"%string
                          /\ ses_generation s = aut_session a;
  pin_projection : exists p, view_projection v = Some p /\ prj_state p = "CURRENT"%string
                             /\ prj_generation p = aut_capability a;
  pin_gate : exists g, view_gate v = Some g /\ gat_state g = "READY"%string
                       /\ gat_capability g = aut_capability a /\ gat_baseline g = aut_baseline a
                       /\ gat_preflight g = aut_preflight a /\ gat_compliance g = aut_compliance a;
}.

Definition armed (a : authority_row) : Prop := aut_state a = "ARMED"%string.

Inductive host_step (v v' : host_view) : Prop :=
| host_same : v' = v -> host_step v v'
| host_discovered : view_identity v = None -> view_generation v' = 0 ->
    view_authority v' = view_authority v -> host_step v v'
| host_disarmed : view_generation v' = view_generation v ->
    (forall a', view_authority v' = Some a' -> ~ armed a') -> host_step v v'
| host_armed a' : view_authority v' = Some a' -> armed a' ->
    aut_generation a' = view_generation v + 1 -> view_generation v' = view_generation v + 1 ->
    pinned v' a' -> host_step v v'.

(** A session keeps its generation, or the Host gets the next one. *)
Definition session_generation (v : host_view) : Z :=
  match view_session v with Some s => ses_generation s | None => 0 end.
Definition session_step (v v' : host_view) : Prop :=
  session_generation v' = session_generation v
  \/ (session_generation v' = i64 (session_generation v + 1) /\ 1 <= session_generation v').

(** What a transaction does to Hosts and commands. *)
Record control_step (d d' : db) : Prop := MkControlStep {
  ctl_host h : host_step (view_of d h) (view_of d' h);
  ctl_session h : session_step (view_of d h) (view_of d' h);
  ctl_command : command_step d d';
}.

Lemma view_of_tables d d' : trust_tables d' = trust_tables d -> forall h, view_of d' h = view_of d h.
Proof. intros [= E1 E2 E3 E4 E5 E6 E7 E8] h. unfold view_of. by rewrite E1, E2, E3, E4, E5, E6, E7, E8. Qed.

Lemma command_tx_control d d' : command_tx d d' -> control_step d d'.
Proof.
  intros [T S]. split; [intros h|intros h|done].
  - apply host_same. by apply view_of_tables.
  - left. by rewrite (view_of_tables _ _ T).
Qed.

Lemma control_then_command d d1 d' : control_step d d1 -> command_tx d1 d' -> control_step d d'.
Proof.
  intros [H1 S1 C1] [T2 C2]. split; [intros h|intros h|by etrans]; by rewrite (view_of_tables _ _ T2 h).
Qed.

(** A transaction that touches no command. *)
Lemma quiet_step d d' : command_tables d' = command_tables d -> keeps_rows d d' -> command_step d d'.
Proof.
  intros C K. split; [done|by apply command_at_tables|].
  intros _ c st Hc. exists st. injection C as C1 C2 C3 C4 C5 C6 C7. split; [by rewrite C2|apply rtc_refl].
Qed.

(** ** Fencing transactions *)

(** Tables changed for one Host only, before its authority is fenced. *)
Record host_update (h : string) (d d1 : db) : Prop := MkHostUpdate {
  upd_other k : k <> h -> view_of d1 k = view_of d k;
  upd_generation : view_generation (view_of d1 h) = view_generation (view_of d h);
  upd_session : session_step (view_of d h) (view_of d1 h);
  upd_command : command_tables d1 = command_tables d;
  upd_keeps : keeps_rows d d1;
}.

Lemma disarm_not_armed reason a : ~ armed (disarm reason a).
Proof.
  unfold disarm, armed. destruct (aut_state a ==s "ARMED") eqn:E; [by cbn|].
  by apply String.eqb_neq in E.
Qed.

Lemma fenced_view h reason d d' : fenced h reason d d' -> forall k,
  view_identity (view_of d' k) = view_identity (view_of d k) /\
  view_session (view_of d' k) = view_session (view_of d k) /\
  (k <> h -> view_of d' k = view_of d k) /\
  (forall a', view_authority (view_of d' h) = Some a' -> ~ armed a').
Proof.
  intros [[= E1 E2 E3 E4 E5 E6 E7] A _ _ _ _] k. unfold view_of. cbn. rewrite E1, E2, E3, E4, E5, E6, E7, !A.
  split_and!.
  - done.
  - done.
  - intros Hne. destruct (String.eqb_spec h k); [congruence|]. by rewrite option_fmap_id.
  - intros a'. rewrite String.eqb_refl. destruct (authorities d !! h) as [a|]; [|done]. cbn.
    intros [= <-]. apply disarm_not_armed.
Qed.

Lemma update_fenced_step h reason d d1 d' : host_update h d d1 -> fenced h reason d1 d' -> control_step d d'.
Proof.
  intros [U1 U2 US U3 U4] F. pose proof (fenced_view _ _ _ _ F) as V. split.
  - intros k. destruct (V k) as (V1 & VS & V2 & V3). destruct (decide (k = h)) as [->|Hne].
    + apply host_disarmed; [|done]. rewrite <- U2. unfold view_generation. by rewrite V1.
    + apply host_same. rewrite V2 by done. by apply U1.
  - intros k. destruct (V k) as (_ & VS & _). unfold session_step, session_generation in *. rewrite VS.
    destruct (decide (k = h)) as [->|Hne]; [done|]. left. by rewrite U1.
  - etrans; [|by eapply fenced_step]. by apply quiet_step.
Qed.

(** Rows of other Hosts after an explicit update. *)
Ltac other_view :=
  let k := fresh "k" in let Hne := fresh "Hne" in
  intros k Hne; unfold view_of; cbn;
  rewrite ?lookup_insert_ne, ?lookup_alter_ne by congruence;
  try reflexivity;
  match goal with |- context [credential_bindings ?d !! ?k] => destruct (credential_bindings d !! k) end; cbn;
  rewrite ?lookup_insert_ne by (by apply pair_ne); reflexivity.

Lemma RegisterDiscoveredHost_step h d d' : RegisterDiscoveredHost h d = Ok d' -> control_step d d'.
Proof.
  unfold RegisterDiscoveredHost. intros H. open_tx; [by apply command_tx_control|]. split.
  - intros k. destruct (decide (k = h)) as [->|Hne].
    + apply host_discovered; cbn; [done| |done]. unfold view_generation. cbn. by rewrite lookup_insert_eq.
    + apply host_same. revert k Hne. other_view.
  - intros k. by left.
  - apply quiet_step; [done|unfold keeps_rows; cbn; done].
Qed.

Lemma distrust_step good h reason d0 d d' : distrust good h reason d = Ok d' ->
  host_update h d0 d -> control_step d0 d'.
Proof.
  unfold distrust. intros H [U1 U2 US U3 U4]. apply fenceHostOperationAuthorityTx_fenced in H.
  eapply update_fenced_step; [|exact H]. split.
  - intros k Hne. rewrite <- U1 by done. revert k Hne. destruct good; [done|]. other_view.
  - rewrite <- U2. by destruct good.
  - unfold session_step, session_generation in *. destruct good; [done|]. cbn. rewrite lookup_alter_eq.
    cbn in US. by destruct (sessions d !! h).
  - rewrite <- U3. by destruct good.
  - etrans; [exact U4|]. destruct good; unfold keeps_rows; cbn; done.
Qed.

Lemma RecordEnrollmentDecision_step e d d' : RecordEnrollmentDecision e d = Ok d' -> control_step d d'.
Proof.
  unfold RecordEnrollmentDecision, insert_decision. intros H. open_tx; try done.
  all: match goal with H : distrust _ _ _ _ = Ok _ |- _ => eapply distrust_step; [exact H|] end; split.
  all: try (unfold keeps_rows; cbn; done).
  all: try other_view.
  all: try (by left).
  all: unfold view_generation; cbn; rewrite lookup_insert_eq.
  all: by match goal with H : identities _ !! _ = Some _ |- _ => rewrite H end.
Qed.

Lemma RecordAgentCredentialBinding_step b d d' : RecordAgentCredentialBinding b d = Ok d' -> control_step d d'.
Proof.
  unfold RecordAgentCredentialBinding, insert_credential_evidence. intros H. open_tx; try done.
  all: match goal with H : distrust _ _ _ _ = Ok _ |- _ => eapply distrust_step; [exact H|] end; split.
  all: try (unfold keeps_rows; cbn; done).
  all: try other_view.
  all: try (by left).
  all: done.
Qed.

Lemma UpdateHostReadinessGate_step g d d' : UpdateHostReadinessGate g d = Ok d' -> control_step d d'.
Proof.
  unfold UpdateHostReadinessGate. intros H. open_tx; [by apply command_tx_control|].
  apply fenceHostOperationAuthorityTx_fenced in H. eapply update_fenced_step; [|exact H]. split.
  - other_view.
  - done.
  - by left.
  - done.
  - unfold keeps_rows; cbn; done.
Qed.

Lemma armable_rows_spec h d r : armable_rows h d = Some r ->
  identities d !! h = Some (ab_host r) /\ enrollment_bindings d !! h = Some (ab_enrollment r)
  /\ credential_bindings d !! h = Some (ab_credential r)
  /\ credential_evidence d !! (h, crd_revision (ab_credential r)) = Some (ab_evidence r)
  /\ sessions d !! h = Some (ab_session r) /\ authorizations d !! h = Some (ab_authorization r)
  /\ gates d !! h = Some (ab_gate r) /\ projections d !! h = Some (ab_projection r)
  /\ ath_capability (ab_authorization r) = Some (ab_capability r).
Proof.
  unfold armable_rows. intros H.
  repeat match goal with
  | H : (?o ≫= _) = Some _ |- _ => destruct o eqn:?; cbn in H; [|discriminate H]
  end.
  injection H as <-. cbn. by split_and!.
Qed.

Lemma ArmHostOperationAuthority_step now r d d' a : ArmHostOperationAuthority now r d = Ok (d', a) ->
  control_step d d'.
Proof.
  unfold ArmHostOperationAuthority. intros H. open_tx.
  match goal with H : armable_rows _ _ = Some _ |- _ =>
    apply armable_rows_spec in H as (L1 & L2 & L3 & L4 & L5 & L6 & L7 & L8 & L9) end.
  match goal with H : is_armable _ _ _ = true |- _ => unfold is_armable in H end. bools.
  split; [|intros k; by left|apply quiet_step; [done|unfold keeps_rows; cbn; done]].
  intros k. destruct (decide (k = ar_HostID r)) as [->|Hne]; [|apply host_same; revert k Hne; other_view].
  eapply host_armed.
  - cbn. by rewrite lookup_insert_eq.
  - done.
  - unfold view_generation. cbn. by rewrite L1.
  - unfold view_generation. cbn. by rewrite lookup_insert_eq, L1.
  - split; cbn; rewrite ?lookup_insert_eq, ?L2, ?L3, ?L5, ?L7, ?L8; eauto 10 with lia.
Qed.

(** ** Inventory *)

Lemma applyPCI_framed e s d d' : applyPCIDeviceProjectionsTx e s d = Ok d' -> framed d d'.
Proof.
  unfold applyPCIDeviceProjectionsTx. apply (foldM_related framed). clear d d'. intros d f d' H.
  unfold project_fragment in H. destruct (Inventory.fr_PCI f) as [pci|]; [|by injection H as <-].
  revert H. apply (foldM_related framed). clear d d'. intros d v d' H. unfold project_device in H.
  open_tx; unfold framed; same_tables.
Qed.

Lemma insert_snapshot_framed h g s d d' : insert_snapshot h g s d = Ok d' -> framed d d'.
Proof. unfold insert_snapshot. intros H. open_tx; unfold framed; same_tables. Qed.

Lemma project_capabilities_step h p d d' : project_capabilities h p d = Ok d' -> control_step d d'.
Proof.
  unfold project_capabilities. intros H. open_tx.
  2: by apply command_tx_control.
  all: apply fenceHostOperationAuthorityTx_fenced in H; eapply update_fenced_step; [|exact H]; split;
    [other_view|done|by left|done|unfold keeps_rows; cbn; done].
Qed.

Lemma command_then_control d d1 d' : command_tx d d1 -> control_step d1 d' -> control_step d d'.
Proof.
  intros [T C1] [H S C]. split; [intros h|intros h|by etrans]; by rewrite <- (view_of_tables d d1 T).
Qed.

Lemma accept_inventory_tx_step now e s p d d' r : accept_inventory_tx now e s p d = Ok (d', r) -> control_step d d'.
Proof.
  unfold accept_inventory_tx, applyHostInventoryTx. intros H. open_tx; frame_hyps.
  { by apply command_tx_control. }
  match goal with
  | H1 : insert_snapshot _ _ _ _ = Ok _, H2 : project_capabilities _ _ _ = Ok _,
    H3 : applyPCIDeviceProjectionsTx _ _ _ = Ok _, H4 : refreshHostSessionAuthorizationTx _ _ _ = Ok _ |- _ =>
      apply insert_snapshot_framed, framed_step in H1; apply project_capabilities_step in H2;
      apply applyPCI_framed in H3; apply refresh_framed in H4; pose proof (transitivity H3 H4) as F;
      eapply command_then_control; [etrans; [eassumption|exact H1]|];
      eapply control_then_command; [exact H2|by apply framed_step]
  end.
Qed.

(** ** Sessions *)

Lemma record_attempt_framed r d d' b : record_attempt r d = Ok (d', b) -> framed d d'.
Proof. unfold record_attempt. intros H. open_tx; unfold framed; same_tables. Qed.

Definition oldGeneration (h : string) (d : db) : Z :=
  match sessions d !! h with Some s => ses_generation s | None => 0 end.

Lemma grant_session_update r old g d d' : grant_session r old g d = Ok d' ->
  g = i64 (oldGeneration (sa_HostID r) d + 1) -> host_update (sa_HostID r) d d'.
Proof.
  unfold grant_session. intros H Hg. open_tx.
  set (d0 := match old ≫= ses_attempt with Some _ => _ | None => d end).
  assert (framed d d0) as (T & C & K).
  { subst d0. destruct (old ≫= ses_attempt), old; unfold framed; same_tables. }
  assert (sessions d0 = sessions d) as Es by (by injection T).
  pose proof (view_of_tables _ _ T) as V. clearbody d0. split.
  - intros k Hne. rewrite <- V. revert k Hne. other_view.
  - rewrite <- V. done.
  - right. unfold session_generation. cbn. rewrite lookup_insert_eq. done.
  - by rewrite <- C.
  - etrans; [exact K|]. unfold keeps_rows; cbn; done.
Qed.

Lemma AdmitAgentSession_step now r d d' g : AdmitAgentSession now r d = Ok (d', g) -> control_step d d'.
Proof.
  unfold AdmitAgentSession. intros H. open_tx; try done.
  all: match goal with H : record_attempt _ _ = Ok _ |- _ => apply record_attempt_framed, framed_step in H end.
  - by apply command_tx_control.
  - match goal with
    | H1 : grant_session _ _ _ _ = Ok _, H2 : fenceHostOperationAuthorityTx _ _ _ = Ok _,
      H3 : refreshHostSessionAuthorizationTx _ _ _ = Ok _ |- _ =>
        apply grant_session_update in H1; [|done]; apply fenceHostOperationAuthorityTx_fenced in H2;
        apply refresh_framed in H3; pose proof (update_fenced_step _ _ _ _ _ H1 H2) as C;
        eapply command_then_control; [eassumption|];
        eapply control_then_command; [exact C|by apply framed_step]
    end.
Qed.
