(* ===== verification/ControlPlane.v ===== *)
(** * The control plane as a whole

    A [request] is one call of the control plane's database API with its
    arguments, [apply] what it does to the tables (nothing, when it fails), and
    [run] a history: any requests, in any order, at any times.  The transactions
    of a Host are serialized by its advisory lock, so a history is all the
    interleaving there is.  The theorems hold of every history. *)

From S2P Require Import Prelude GoStd GoJson Envelope Inventory ControlDb CommandEvents HostTrust.
From S2P Require Import SessionRegistry Receipts HostInventory Execution Verification Outbox Contract MessageReceiver.
From S2P Require Import ControlFrames CommandSteps LeaseEvents HostSteps CommandDelivery DeliverySteps.
Local Open Scope Z_scope.
Local Open Scope go_scope.

Inductive request :=
| Discover (hostID : string)
| Enroll (decision : EnrollmentDecision)
| BindCredential (binding : AgentCredentialBindingEvidence)
| Admit (admission : AgentSessionAdmission)
| Inventory (envelope : Envelope) (snapshot : Inventory.Snapshot) (capabilityPayload : bytes)
| Resync (hostID : string) (generation : Z) (journalDigest : string) (checkpoint : json)
| Gate (gate : HostReadinessGate)
| Arm (request : HostAuthorityArmRequest)
| CreateCommand (request : ExecutionCommandRequest)
| AcquireLease (tokenBytes : bytes) (request : CommandLeaseRequest)
| Journaled (start : CommandAttemptStart)
| SubmitResult (submission : CommandResultSubmission)
| AgentMessage (maxMessageBytes : Z) (envelope : Envelope)
| AgentResult (maxMessageBytes : Z) (envelope : Envelope) (result : CommandResult)
| AgentObservation (maxMessageBytes : Z) (envelope : Envelope) (observation : VerificationObservation)
| Expire (commandID : string)
| ExpireDue (limit : Z)
| ClaimOutbox (request : OutboxClaimRequest)
| DispatchStarted (claim : OutboxClaim) (detail : json)
| DispatchUnknown (claim : OutboxClaim) (detail : json)
| Delivered (claim : OutboxClaim) (acknowledgement : json)
| DeadLetter (claim : OutboxClaim) (reason : json)
| AcceptDelivery (jsonb_text : json -> bytes) (failure : outage) (consumer messageID digest : string)
    (envelope : Envelope) (maxMessageBytes : Z)
| AcceptVerificationDelivery (failure : outage) (consumer messageID digest : string) (envelope : Envelope)
    (maxMessageBytes : Z)
| EnqueueVerifications (jsonb_text : json -> bytes) (updated_at : string -> Z) (limit : Z)
| StartRoute (failure : outage) (consumer messageID hostID : string) (generation : Z)
| RecordRoute (failure : outage) (consumer messageID eventType hostID : string) (generation attempt : Z) (detail : json).

(** The tables after a call: those it commits, or those before it. *)
Definition committed (d : db) (r : res db) : db := match r with Ok d' => d' | Err _ => d end.
Definition answered {A} (d : db) (r : res (db * A)) : db := match r with Ok (d', _) => d' | Err _ => d end.

Definition apply (now : Z) (r : request) (d : db) : db :=
  match r with
  | Discover h => committed d (RegisterDiscoveredHost h d)
  | Enroll e => committed d (RecordEnrollmentDecision e d)
  | BindCredential b => committed d (RecordAgentCredentialBinding b d)
  | Admit r => answered d (AdmitAgentSession now r d)
  | Inventory e s p => answered d (accept_inventory_tx now e s p d)
  | Resync h g j c => committed d (CommitAgentResyncCheckpoint h g j c d)
  | Gate g => committed d (UpdateHostReadinessGate g d)
  | Arm r => answered d (ArmHostOperationAuthority now r d)
  | CreateCommand r => committed d (CreateExecutionCommand r d)
  | AcquireLease t r => answered d (AcquireCommandLease now t r d)
  | Journaled s => committed d (MarkCommandAttemptJournaled now s d)
  | SubmitResult s => fst (AcceptCommandResult now s d)
  | AgentMessage m e => answered d (AcceptAgentMessage m e d)
  | AgentResult m e r => answered d (receive_result now m e r d)
  | AgentObservation m e o => answered d (receive_observation m e o d)
  | Expire c => committed d (ExpireCommandLease now c d)
  | ExpireDue n => fst (fst (ExpireDueCommandLeases now n d))
  | ClaimOutbox r => answered d (ClaimOutboxTx now r d)
  | DispatchStarted c j => committed d (RecordOutboxDispatchStartedTx c j d)
  | DispatchUnknown c j => committed d (RecordOutboxDispatchUnknownTx c j d)
  | Delivered c j => committed d (MarkOutboxDeliveredTx c j d)
  | DeadLetter c j => committed d (MarkOutboxDeadLetterTx c j d)
  | AcceptDelivery text f c m x e n => fst (fst (AcceptInternalCommandDelivery text f now c m x e n d))
  | AcceptVerificationDelivery f c m x e n => fst (fst (AcceptInternalVerificationDelivery f c m x e n d))
  | EnqueueVerifications text at_ n => answered d (EnqueuePendingCommandVerifications text at_ now n d)
  | StartRoute f c m h g => fst (StartGatewayCommandRoute f c m h g d)
  | RecordRoute f c m t h g n j => fst (RecordGatewayCommandRoute f c m t h g n j d)
  end.

Definition history := list (Z * request).

Fixpoint run (h : history) (d : db) : db :=
  match h with
  | [] => d
  | (now, r) :: h' => run h' (apply now r d)
  end.

(** Empty tables. *)
Definition initial : db :=
  MkDb "ACTIVE" ∅ ∅ ∅ ∅ ∅ ∅ ∅ ∅ ∅ ∅ ∅ ∅ ∅ ∅ ∅ ∅ ∅ ∅ ∅ ∅ ∅ ∅ ∅ ∅ ∅ ∅ ∅ ∅ ∅ ∅ ∅ ∅ ∅ ∅ ∅ ∅ ∅ ∅.

Definition reachable (d : db) : Prop := exists h, d = run h initial.

(** ** Every request is a good step *)

(** The requests of the delivery plane *)
Lemma delivery_step d d' : delivered d d' -> control_step d d' /\ event_step d d'.
Proof. intros [T E]%delivered_step. split; [by apply command_tx_control|done]. Qed.

Ltac delivery_request :=
  apply delivery_step; first [apply accept_command_delivered|apply accept_verification_delivered|apply StartGatewayCommandRoute_delivered
    |apply RecordGatewayCommandRoute_delivered
    |match goal with |- delivered _ (answered _ ?r) => destruct r as [[]|] eqn:?; cbn [answered];
       [by eapply EnqueuePending_delivered|done] end].

Lemma committed_step d r : (forall d', r = Ok d' -> control_step d d') -> control_step d (committed d r).
Proof. destruct r as [d'|e]; intros H; [by apply H|]. by apply command_tx_control. Qed.

Lemma answered_step {A} d (r : res (db * A)) :
  (forall d' a, r = Ok (d', a) -> control_step d d') -> control_step d (answered d r).
Proof. destruct r as [[d' a]|e]; intros H; [by eapply H|]. by apply command_tx_control. Qed.

Lemma result_decision_receiver r : receiver_decision (result_decision r).
Proof.
  unfold receiver_decision, result_decision. cbn. split_and!; [done..|].
  destruct (cr_Outcome r !=s "FAILED") eqn:E; [|done]. cbn. bools. done.
Qed.

Lemma apply_step now r d : control_step d (apply now r d).
Proof.
  destruct r; cbn [apply].
  - apply committed_step, RegisterDiscoveredHost_step.
  - apply committed_step, RecordEnrollmentDecision_step.
  - apply committed_step, RecordAgentCredentialBinding_step.
  - apply answered_step, AdmitAgentSession_step.
  - apply answered_step, accept_inventory_tx_step.
  - apply committed_step. intros. eapply command_tx_control, framed_step, CommitAgentResyncCheckpoint_framed. done.
  - apply committed_step, UpdateHostReadinessGate_step.
  - apply answered_step, ArmHostOperationAuthority_step.
  - apply committed_step. intros. eapply command_tx_control, CreateExecutionCommand_tx. done.
  - apply answered_step. intros. eapply command_tx_control, AcquireCommandLease_tx. done.
  - apply committed_step. intros. eapply command_tx_control, MarkCommandAttemptJournaled_tx. done.
  - destruct (AcceptCommandResult _ _ _) eqn:E. eapply command_tx_control, AcceptCommandResult_tx. done.
  - apply answered_step. unfold AcceptAgentMessage. intros d' a H. open_tx.
    by eapply command_tx_control, framed_step, acceptAgentMessageTx_framed.
  - apply answered_step. unfold receive_result. intros d' a H. open_tx.
    eapply command_tx_control, AcceptAgentCommandResult_tx; [apply result_decision_receiver|done].
  - apply answered_step. unfold receive_observation. intros d' a H. open_tx.
    by eapply command_tx_control, AcceptAgentVerificationObservation_tx.
  - apply committed_step. intros. eapply command_tx_control, ExpireCommandLease_tx. done.
  - destruct (ExpireDueCommandLeases _ _ _) as [[d' n] e] eqn:E.
    by eapply command_tx_control, ExpireDueCommandLeases_tx.
  - apply answered_step. intros. by eapply command_tx_control, framed_step, ClaimOutboxTx_framed.
  - apply committed_step. intros. by eapply command_tx_control, framed_step, appendOutboxDeliveryEventTx_framed.
  - apply committed_step. intros. by eapply command_tx_control, framed_step, appendOutboxDeliveryEventTx_framed.
  - apply committed_step. intros. by eapply command_tx_control, framed_step, MarkOutboxDeliveredTx_framed.
  - apply committed_step. intros. by eapply command_tx_control, framed_step, MarkOutboxDeadLetterTx_framed.
  - delivery_request.
  - delivery_request.
  - delivery_request.
  - delivery_request.
  - delivery_request.
Qed.

(** ** Invariants of every history *)

Definition host_ok (v : host_view) : Prop :=
  forall a, view_authority v = Some a -> armed a -> pinned v a.

Definition session_ok (v : host_view) : Prop := 0 <= session_generation v <= MaxInt64.

Record control_inv (d : db) : Prop := MkControlInv {
  inv_host h : host_ok (view_of d h);
  inv_session h : session_ok (view_of d h);
  inv_command : command_inv d;
  inv_event : event_inv d;
}.

Lemma host_step_ok v v' : host_step v v' -> host_ok v -> host_ok v'.
Proof.
  intros [->|Hn Hg Ha|Hg Ha|a' Ha Hs Hg Hg' Hp] H a E Harm.
  - by apply H.
  - rewrite Ha in E. destruct (H a E Harm) as [(i & Hi & _) _ _ _ _ _ _]. congruence.
  - by destruct (Ha a E).
  - by simplify_eq.
Qed.

(** The generation of a session is kept or is the next one. *)
Definition next_session (v v' : host_view) : Prop :=
  session_generation v' = session_generation v \/ session_generation v' = session_generation v + 1.

Lemma session_step_next v v' : session_step v v' -> session_ok v -> next_session v v' /\ session_ok v'.
Proof.
  unfold session_step, next_session, session_ok. intros [->|[E H1]] H; [tauto|].
  destruct (decide (session_generation v = MaxInt64)) as [Em|Hne].
  - exfalso. rewrite Em in E. change (i64 (MaxInt64 + 1)) with (- two63) in E. unfold two63 in E. lia.
  - assert (i64 (session_generation v + 1) = session_generation v + 1) as Ei.
    { apply i64_id. unfold is_i64, two63, MaxInt64 in *. lia. }
    rewrite Ei in E. unfold MaxInt64 in *. lia.
Qed.

Lemma initial_inv : control_inv initial.
Proof.
  split.
  - intros h a. unfold view_of. cbn. by rewrite lookup_empty.
  - intros h. unfold session_ok, session_generation, view_of. cbn. rewrite lookup_empty. unfold MaxInt64. lia.
  - intros c. unfold command_at, command_absent. cbn. rewrite !lookup_empty. split_and!; [done..|].
    intros i. by rewrite !lookup_empty.
  - by split; intros *; cbn; rewrite ?lookup_empty.
Qed.

Lemma committed_event d r : (forall d', r = Ok d' -> event_step d d') -> event_step d (committed d r).
Proof. destruct r as [d'|e]; intros H; [by apply H|done]. Qed.

Lemma answered_event {A} d (r : res (db * A)) :
  (forall d' a, r = Ok (d', a) -> event_step d d') -> event_step d (answered d r).
Proof. destruct r as [[d' a]|e]; intros H; [by eapply H|done]. Qed.

Lemma apply_event now r d : event_step d (apply now r d).
Proof.
  destruct r; cbn [apply].
  - apply committed_event. unfold RegisterDiscoveredHost. intros d' H. open_tx; quiet_tx.
  - apply committed_event, RecordEnrollmentDecision_event.
  - apply committed_event, RecordAgentCredentialBinding_event.
  - apply answered_event, AdmitAgentSession_event.
  - apply answered_event, accept_inventory_tx_event.
  - apply committed_event. unfold CommitAgentResyncCheckpoint. intros d' H. open_tx; quiet_tx.
  - apply committed_event, UpdateHostReadinessGate_event.
  - apply answered_event. unfold ArmHostOperationAuthority. intros d' a H. open_tx; quiet_tx.
  - apply committed_event, CreateExecutionCommand_event.
  - apply answered_event, AcquireCommandLease_event.
  - apply committed_event, MarkCommandAttemptJournaled_event.
  - destruct (AcceptCommandResult _ _ _) eqn:E. by eapply AcceptCommandResult_event.
  - apply answered_event. unfold AcceptAgentMessage. intros d' a H. open_tx. by eapply acceptAgentMessageTx_event.
  - apply answered_event. unfold receive_result. intros d' a H. open_tx. by eapply AcceptAgentCommandResult_event.
  - apply answered_event. unfold receive_observation. intros d' a H. open_tx.
    by eapply AcceptAgentVerificationObservation_event.
  - apply committed_event, ExpireCommandLease_event.
  - destruct (ExpireDueCommandLeases _ _ _) as [[d' n] e] eqn:E. by eapply ExpireDueCommandLeases_event.
  - apply answered_event. intros d' ms H. by eapply same_event_tables, ClaimOutboxTx_tables.
  - apply committed_event. intros d' H. by eapply same_event_tables, appendOutboxDeliveryEventTx_tables.
  - apply committed_event. intros d' H. by eapply same_event_tables, appendOutboxDeliveryEventTx_tables.
  - apply committed_event. unfold MarkOutboxDeliveredTx, finish. intros d' H. open_tx.
    match goal with H : appendOutboxDeliveryEventTx _ _ _ _ = Ok _ |- _ =>
      apply appendOutboxDeliveryEventTx_tables in H; apply same_event_tables; rewrite H; reflexivity end.
  - apply committed_event. unfold MarkOutboxDeadLetterTx, finish. intros d' H. open_tx.
    match goal with H : appendOutboxDeliveryEventTx _ _ _ _ = Ok _ |- _ =>
      apply appendOutboxDeliveryEventTx_tables in H; apply same_event_tables; rewrite H; reflexivity end.
  - delivery_request.
  - delivery_request.
  - delivery_request.
  - delivery_request.
  - delivery_request.
Qed.

Lemma apply_inv now r d : control_inv d -> control_inv (apply now r d).
Proof.
  intros [H S C V]. destruct (apply_step now r d) as [H1 S1 [K1 I1 M1]]. split.
  - intros h. by eapply host_step_ok.
  - intros h. by eapply session_step_next.
  - by apply I1.
  - by apply apply_event.
Qed.

Lemma run_inv hs : forall d, control_inv d -> control_inv (run hs d).
Proof.
  induction hs as [|[now r] hs IH]; intros d H; cbn [run]; [done|]. by apply IH, apply_inv.
Qed.

Lemma reachable_inv d : reachable d -> control_inv d.
Proof. intros [hs ->]. apply run_inv, initial_inv. Qed.

Lemma reachable_run d hs : reachable d -> reachable (run hs d).
Proof.
  intros [hs0 ->]. exists (hs0 ++ hs). generalize initial. induction hs0 as [|[t r] hs0 IH]; intros d; cbn; [done|].
  apply IH.
Qed.

Lemma run_keeps hs : forall d, keeps_rows d (run hs d).
Proof.
  induction hs as [|[now r] hs IH]; intros d; cbn [run]; [reflexivity|].
  etrans; [|apply IH]. apply (apply_step now r d).
Qed.

Lemma run_moves hs : forall d, control_inv d -> moves d (run hs d).
Proof.
  induction hs as [|[now r] hs IH]; intros d I; cbn [run]; [reflexivity|].
  etrans; [|apply IH; by apply apply_inv]. destruct (apply_step now r d) as [_ _ [_ _ M]]. apply M, I.
Qed.

(** ** Mutation authority *)

(** C1: Whatever the control plane has been asked to do, an ARMED mutation
    authority pins the current rows: the Host is APPROVED and at this authority
    generation, its enrollment, credential, session, capability projection and
    readiness gate are those it was armed on, in their good states. *)
Theorem armed_authority_is_current d h a : reachable d ->
  authorities d !! h = Some a -> armed a -> pinned (view_of d h) a.
Proof. intros R Ha Hs. by apply (inv_host _ (reachable_inv _ R) h). Qed.

(** The authority generation [g] of a Host is ARMED. *)
Definition armed_at (d : db) (h : string) (g : Z) : Prop :=
  exists a, authorities d !! h = Some a /\ armed a /\ aut_generation a = g.

(** The session authorization of an armed Host is the one it was armed on. *)
Definition session_authorized (d : db) (h : string) (a : authority_row) : Prop :=
  exists x, authorizations d !! h = Some x /\ ath_state x = "AUTHORIZED"%string
            /\ ath_session x = aut_session a /\ ath_capability x = Some (aut_capability a).

(** The certificate of the current credential is valid at [now]. *)
Definition certificate_valid (now : Z) (d : db) (h : string) : Prop :=
  exists e, view_evidence (view_of d h) = Some e /\ time_valid now e = true.

Lemma mutation_authority_needs now h g d m : mutation_authority now h g d = Some m ->
  certificate_valid now d h /\
  exists a, authorities d !! h = Some a /\ armed a /\ aut_generation a = g /\ session_authorized d h a
    /\ m = MkMutationAuthority h g (aut_session a) (aut_credential a) (aut_enrollment a) (aut_capability a)
             (aut_baseline a) (aut_preflight a) (aut_compliance a).
Proof.
  unfold mutation_authority. intros H.
  repeat match goal with
  | H : (?o ≫= _) = Some _ |- _ => destruct o eqn:?; cbn in H; [|discriminate H]
  end.
  match goal with H : (if ?b then _ else _) = Some _ |- _ => destruct b eqn:?; [|done]; injection H as <- end.
  bools. split.
  - exists e. split; [|done]. unfold view_of. cbn. by match goal with H : credential_bindings d !! h = _ |- _ => rewrite H end.
  - eexists. split; [done|]. split_and!; [done|done| |by f_equal]. eexists. split; [done|]. split_and!; congruence.
Qed.

Lemma mutation_authority_suffices now h g d a : authorities d !! h = Some a -> armed a -> aut_generation a = g ->
  pinned (view_of d h) a -> session_authorized d h a -> certificate_valid now d h ->
  is_Some (mutation_authority now h g d).
Proof.
  intros Ha Hs Hg [P1 P2 P3 P4 P5 P6 P7] (x & Hx & X1 & X2 & X3) (e & He & Ht).
  destruct P1 as (i & Hi & I1 & I2), P2 as (n & Hn & N1 & N2), P3 as (c & Hc & C1 & C2), P4 as (e' & He' & E1),
    P5 as (s & Hss & S1 & S2), P6 as (p & Hp & Q1 & Q2), P7 as (gt & Hgt & G1 & G2 & G3 & G4 & G5).
  unfold view_of in *. cbn in Hi, Hn, Hc, He, He', Hss, Hp, Hgt. rewrite Hc in He, He'. cbn in He, He'.
  rewrite He in He'. injection He' as <-.
  unfold mutation_authority. rewrite Ha. cbn. rewrite Hi. cbn. rewrite Hss. cbn. rewrite Hx. cbn. rewrite Hc. cbn.
  rewrite He. cbn. rewrite Hn. cbn. rewrite Hgt. cbn. rewrite Hp. cbn.
  rewrite Hg, I1, S1, S2, X1, X2, C1, C2, E1, Ht, N1, N2, G1, G2, G3, G4, G5, Q1, Q2, I2, Hg, Hs, X3,
    bool_decide_eq_true_2, !Z.eqb_refl by done.
  cbn. eauto.
Qed.

(** C6: The twenty-condition query that authorizes a mutation answers, in every
    reachable state, exactly this: the generation asked for is the ARMED one,
    the session authorization is still the AUTHORIZED one it was armed on, and
    the Agent's certificate is valid now.  Everything else the query tests is
    implied, because every change fences. *)
Theorem mutation_authorized_iff now h g d : reachable d ->
  is_Ok (AuthorizeHostMutation now h g d) = true <->
  (exists a, authorities d !! h = Some a /\ armed a /\ aut_generation a = g /\ session_authorized d h a)
  /\ certificate_valid now d h.
Proof.
  intros R. unfold AuthorizeHostMutation. split.
  - destruct (mutation_authority now h g d) as [m|] eqn:E; [|done]. intros _.
    apply mutation_authority_needs in E as (Hc & a & Ha & Hs & Hg & Hx & _). eauto 10.
  - intros [(a & Ha & Hs & Hg & Hx) Hc]. pose proof (inv_host _ (reachable_inv _ R) h a Ha Hs) as P.
    destruct (mutation_authority_suffices now h g d a Ha Hs Hg P Hx Hc) as [m ->]. done.
Qed.

(** Only arming raises the generation of a Host, and only to the next one. *)
Lemma apply_armed now r d h g : control_inv d -> armed_at (apply now r d) h g ->
  armed_at d h g \/ view_generation (view_of d h) < g.
Proof.
  intros I (a & Ha & Hs & Hg).
  destruct (ctl_host _ _ (apply_step now r d) h) as [E|Hn H0 HA|Hgen HA|a' HA Harm Hg1 Hg2 Hp].
  - left. exists a. split; [|done]. change (view_authority (view_of d h) = Some a). by rewrite <- E.
  - left. exists a. split; [|done]. change (view_authority (view_of d h) = Some a). by rewrite <- HA.
  - by destruct (HA a Ha).
  - right. assert (a' = a) as -> by (cbn in HA; congruence). lia.
Qed.

Lemma apply_generation now r d h : view_generation (view_of d h) <= view_generation (view_of (apply now r d) h).
Proof.
  destruct (ctl_host _ _ (apply_step now r d) h) as [E|Hn H0 HA|Hgen HA|a' HA Harm Hg1 Hg2 Hp].
  - by rewrite E.
  - rewrite H0. unfold view_generation. rewrite Hn. done.
  - lia.
  - lia.
Qed.

Lemma run_never_rearmed hs : forall d h g, control_inv d -> ~ armed_at d h g ->
  g <= view_generation (view_of d h) -> ~ armed_at (run hs d) h g.
Proof.
  induction hs as [|[now r] hs IH]; intros d h g I Hn Hg; cbn [run]; [done|].
  apply IH; [by apply apply_inv| |].
  - intros Ha. apply (apply_armed _ _ _ _ _ I) in Ha as [Ha|Ha]; [done|lia].
  - pose proof (apply_generation now r d h). lia.
Qed.

(** A mutation authority generation that is not ARMED now, and that the
    Host has reached, never authorizes a mutation again, whatever happens
    later: re-arming only ever grants a strictly newer generation. *)
Theorem dead_authority_never_returns d h g hs now : reachable d ->
  ~ armed_at d h g -> g <= view_generation (view_of d h) ->
  AuthorizeHostMutation now h g (run hs d) = Err ErrHostAuthorityNotArmed.
Proof.
  intros R Hn Hg. pose proof (run_never_rearmed hs d h g (reachable_inv _ R) Hn Hg) as H.
  unfold AuthorizeHostMutation. destruct (mutation_authority now h g (run hs d)) as [m|] eqn:E; [|done].
  exfalso. apply mutation_authority_needs in E as (_ & a & Ha & Hs & Ha' & _). apply H. by exists a.
Qed.

(** ** Sessions *)

(** C35: The session generation of a Host never goes back and never skips: a
    request leaves it alone or raises it by exactly one, and it never wraps
    around the 64-bit integers it is stored in. *)
Theorem session_generation_advances_by_one d h now r : reachable d ->
  next_session (view_of d h) (view_of (apply now r d) h)
  /\ 0 <= session_generation (view_of d h) <= session_generation (view_of (apply now r d) h)
  /\ session_generation (view_of (apply now r d) h) <= MaxInt64.
Proof.
  intros R. pose proof (inv_session _ (reachable_inv _ R) h) as S.
  destruct (session_step_next _ _ (ctl_session _ _ (apply_step now r d) h) S) as [N S'].
  split; [done|]. unfold next_session, session_ok in *. lia.
Qed.

(** ** Commands *)

Lemma lease_acquired now tok r d d' g : AcquireCommandLease now tok r d = Ok (d', g) ->
  exists st, command_states d !! lr_CommandID r = Some st /\ dispatchable (cst_state st) = true
  /\ lg_AttemptIndex g = cst_attempt st + 1 /\ lg_CommandID g = lr_CommandID r.
Proof.
  unfold AcquireCommandLease. intros H.
  apply bind_Ok_inv in H as ([] & _ & H). apply bind_Ok_inv in H as (v & _ & H).
  apply bind_Ok_inv in H as (c & _ & H). apply bind_Ok_inv in H as (st & Hst & H).
  destruct (command_states d !! lr_CommandID r) as [st'|]; [|done]. injection Hst as ->.
  exists st. split; [done|]. open_tx; by split_and!.
Qed.

(** C2: No blind redispatch.  When a lease is granted for attempt n of a
    command, every earlier attempt has recorded verification evidence that it
    was NOT_APPLIED, and no lease of the command is ACTIVE: an attempt whose
    effect is unknown is never repeated, and two attempts never run at once. *)
Theorem no_blind_redispatch now tok r d d' g : reachable d ->
  AcquireCommandLease now tok r d = Ok (d', g) ->
  (forall i, 1 <= i < lg_AttemptIndex g -> not_applied d (lr_CommandID r) i)
  /\ (forall l, leases d !! lr_CommandID r = Some l -> is_active l = false).
Proof.
  intros R H. apply lease_acquired in H as (st & Hst & Hd & Hg & _).
  pose proof (inv_command _ (reachable_inv _ R) (lr_CommandID r)) as I. unfold command_at in I. rewrite Hst in I.
  apply dispatchable_cases in Hd. split.
  - intros i Hi. rewrite Hg in Hi. destruct (decide (i = cst_attempt st)) as [->|Hne]; [|apply (ok_resolved _ _ _ I); lia].
    destruct Hd as [Hd|Hd]; [|by apply (ok_redispatch _ _ _ I)]. apply (ok_pending _ _ _ I) in Hd. lia.
  - intros l Hl. destruct (is_active l) eqn:Ha; [|done]. exfalso.
    assert (in_flight (cst_state st)) as [Hf|Hf] by (apply (ok_active _ _ _ I); eauto); destruct Hd; congruence.
Qed.

(** C32: Every command follows the state machine [lifecycle], along any history:
    the detailed transactions refine it, and a command once created is never
    lost. *)
Theorem commands_follow_lifecycle d hs c st : reachable d -> command_states d !! c = Some st ->
  exists st', command_states (run hs d) !! c = Some st' /\ rtc lifecycle st st'.
Proof. intros R. apply (run_moves hs d (reachable_inv _ R)). Qed.

Lemma terminal_lifecycle st st' : cst_state st ∈ ["SUCCEEDED"; "FAILED"]%string -> lifecycle st st' -> False.
Proof.
  intros Hs H. apply list_elem_of_In in Hs.
  inversion H as [s n Hd|s n Hf|s n s' Hf|s n Hf|s n Hin|n|s n Hin]; subst; cbn in Hs;
    destruct Hs as [Hs|[Hs|[]]]; subst; try discriminate;
    try (destruct Hf as [Hf|Hf]; discriminate);
    apply list_elem_of_In in Hin as [?|[?|[]]]; discriminate.
Qed.

(** A command that SUCCEEDED or FAILED stays so for ever: no late result,
    expiry, fence or observation moves it. *)
Theorem terminal_commands_are_final d hs c st : reachable d -> command_states d !! c = Some st ->
  cst_state st ∈ ["SUCCEEDED"; "FAILED"]%string -> command_states (run hs d) !! c = Some st.
Proof.
  intros R Hst Ht. destruct (run_moves hs d (reachable_inv _ R) c st Hst) as (st' & Hst' & M).
  inversion M as [|? x ? Hx]; subst; [done|]. by destruct (terminal_lifecycle _ _ Ht Hx).
Qed.

(** ** Results, receipts and evidence *)

(** C33: A first result is accepted only under the ACTIVE lease of its attempt:
    unexpired, its token presented, and the authority it was granted on still
    current; the lease is CONSUMED by it and the command leaves LEASED and
    EXECUTING. *)
Theorem result_needs_live_lease now s d d' r :
  results d !! (rs_CommandID s, rs_AttemptIndex s) = None ->
  AcceptCommandResult now s d = (d', Ok r) ->
  exists l, leases d !! rs_CommandID s = Some l /\ is_active l = true
  /\ grt_attempt (lse_grant l) = rs_AttemptIndex s /\ lease_live now l = true
  /\ grt_token (lse_grant l) = tokenSHA256 (rs_LeaseToken s)
  /\ is_Ok (lease_authority_current now (rs_CommandID s) l d) = true
  /\ results d' !! (rs_CommandID s, rs_AttemptIndex s) = Some (result_of s)
  /\ leases d' !! rs_CommandID s = Some (l <| lse_state := "CONSUMED"%string |>).
Proof.
  intros Hn H. unfold AcceptCommandResult in H.
  destruct (_ ;; _) as [[d1 r1]|err] eqn:E; [|done]. injection H as -> ->.
  apply bind_Ok_inv in E as ([] & _ & E). unfold accept_result_tx in E. rewrite Hn in E.
  destruct (validateActiveLeaseTx _ _ _ _ _) as [l|err] eqn:Ev; open_tx.
  pose proof (validateActiveLeaseTx_active _ _ _ _ _ _ Ev) as (Hl & Ha & Hi & Ht & Hk).
  exists l. split_and!; try done.
  - unfold validateActiveLeaseTx in Ev. open_tx. by destruct (lease_authority_current _ _ _ _).
  - apply consume_lease_framed in Hr as (_ & [= E1 E2 E3 E4 E5 E6 E7] & _). rewrite E6. cbn.
    by rewrite lookup_insert_eq.
  - apply consume_lease_framed in Hr as (_ & [= E1 E2 E3 E4 E5 E6 E7] & _). rewrite E3. cbn.
    by rewrite lookup_alter_eq, Hl.
Qed.

(** Accepted evidence is immutable: a receipt, a result, a verification, an
    inbox decision or a routing event, once recorded, is in the tables
    unchanged after any history. *)
Theorem evidence_is_immutable d hs :
  (forall key r, receipts d !! key = Some r -> receipts (run hs d) !! key = Some r)
  /\ (forall key r, results d !! key = Some r -> results (run hs d) !! key = Some r)
  /\ (forall id v, verifications d !! id = Some v -> verifications (run hs d) !! id = Some v)
  /\ (forall key i, inbox d !! key = Some i -> inbox (run hs d) !! key = Some i)
  /\ (forall key r, route_events d !! key = Some r -> route_events (run hs d) !! key = Some r).
Proof.
  destruct (run_keeps hs d) as (K1 & K2 & K3 & K4 & K5 & K6). split_and!; intros ? ? H; by eapply lookup_weaken.
Qed.

Lemma current_session_bound h d g : control_inv d -> current_session h d = Some g -> g <= MaxInt64.
Proof.
  intros I H. pose proof (inv_session _ I h) as S. unfold session_ok, session_generation, view_of in S. cbn in S.
  unfold current_session in H. destruct (sessions d !! h) as [s|]; [|done]. cbn in H.
  destruct (ses_state s ==s "CURRENT"); [|done]. injection H as <-. lia.
Qed.

(** The receipt an Agent message was given answers every later delivery. *)
Lemma receipt_readable e d d' r : control_inv d -> acceptAgentMessageTx e d = Ok (d', r) ->
  readAgentReceiptTx (HostIdentity e) (MessageID e) d' = Some r /\ is_Ok (ValidateFor r e) = true.
Proof.
  unfold acceptAgentMessageTx. intros I H. open_tx.
  - split; [done|]. by destruct (ValidateFor r e).
  - match goal with H : current_session _ _ = Some _ |- _ => apply (current_session_bound _ _ _ I) in H end.
    unfold recordAgentReceiptTx in H. open_tx.
    + split; [done|]. by destruct (ValidateFor r e).
    + unfold readAgentReceiptTx at 1. cbn. rewrite lookup_insert_eq. split; [done|].
      rewrite receipt_of_valid; [done| |by split_and!].
      unfold receipt_row_ok, is_i64, MaxInt64, two63 in *. cbn. split_and!; [lia..|].
      destruct (u64 a !=z SessionGeneration e); auto.
Qed.

(** C34: Redelivery is idempotent.  Once a message was answered with a receipt,
    every redelivery of it, on any later session generation and after any
    history, gets that very receipt and changes nothing. *)
Theorem redelivery_gets_same_receipt d e m d1 r hs m' g : reachable d ->
  AcceptAgentMessage m e d = Ok (d1, r) -> Validate (BindSession e g) m' = Ok tt ->
  AcceptAgentMessage m' (BindSession e g) (run hs d1) = Ok (run hs d1, r).
Proof.
  intros R H Hv. unfold AcceptAgentMessage in *. apply bind_Ok_inv in H as ([] & _ & H).
  pose proof (receipt_readable _ _ _ _ (reachable_inv _ R) H) as [Hr Hok].
  rewrite Hv. cbn [mbind res_bind]. unfold acceptAgentMessageTx. cbn [BindSession HostIdentity MessageID].
  assert (readAgentReceiptTx (HostIdentity e) (MessageID e) (run hs d1) = Some r) as ->.
  { unfold readAgentReceiptTx in *. destruct (receipts d1 !! _) as [x|] eqn:E; [|done].
    destruct (run_keeps hs d1) as (K & _). by rewrite (lookup_weaken _ _ _ _ E K). }
  fold (BindSession e g). rewrite ValidateFor_BindSession, Hok. done.
Qed.

(** ** Fencing *)


(** ** A history *)

Definition demo_digest : string := Eval compute in string_of_list_ascii (replicate 64 "a"%char).

Definition demo_inventory : Envelope :=
  MkEnvelope "host-1" 1 StreamInventory "inventory/1" Inventory.SnapshotSchemaV3 "inventory" 1 1 demo_digest "" "".
Definition demo_snapshot : Inventory.Snapshot :=
  Inventory.MkSnapshot Inventory.SnapshotSchemaV3 "host-1" 1 "COMPLETE" [] [].

(** A Host is discovered, enrolled, bound to a credential, connected, observed,
    found ready and armed. *)
Definition demo_arming : history :=
  [(1, Discover "host-1");
   (2, Enroll (MkEnrollmentDecision "decision-1" "host-1" 1 "policy" 1 demo_digest "APPROVED" "actor" "reason"));
   (3, BindCredential (MkBindingEvidence "host-1" 1 demo_digest demo_digest "issuer" "profile" 1 "decision-1" 1
         demo_digest "ACTIVE" 0 1000000));
   (4, Admit (MkAdmission "attempt-1" "host-1" "connection-1" "grpc" "v1" demo_digest 1 demo_digest JNull 0));
   (5, Inventory demo_inventory demo_snapshot "[]");
   (6, Gate (MkHostReadinessGate "host-1" 1 1 1 "PASSED" 1 "COMPLIANT"));
   (7, Arm (MkArmRequest "host-1" "policy" 1 "actor" "reason"))]%string.

Definition demo_token : bytes := "0123456789abcdef0123456789abcdef".
Definition demo_lease : CommandLeaseRequest := MkLeaseRequest "command-1" 1 60000000 0 None "".
Definition demo_start : CommandAttemptStart :=
  MkAttemptStart "command-1" 1 (RawURLEncoding demo_token) demo_digest.
Definition demo_result : CommandResultSubmission :=
  MkSubmission "command-1" 1 (RawURLEncoding demo_token) "result-1" "FAILED" (JObj []).

(** A command is created, leased, started, and fails; or its lease expires and
    it is found not to have been applied. *)
Definition demo_command : history :=
  [(8, CreateCommand (MkCommandRequest "job-1" "command-1" "host-1" "VOLUME" "volume-1" 1 "TYPE" "schema/v1"
         "volume-1" (JObj [])))]%string.
Definition demo_observed : Envelope :=
  MkEnvelope "host-1" 1 StreamResync "verification-observation/command-1/1" VerificationObservationSchema
    "command/command-1" 1 0 (sha256_hex "") "command-1" "".
Definition demo_observation : VerificationObservation :=
  MkVerificationObservation VerificationObservationSchema "command-1" 1 "volume-1" (sha256_hex "{}")
    (MkObservation "NOT_APPLIED" demo_digest 1 (JObj [])) demo_digest demo_digest.

Definition demo_armed : db := run demo_arming initial.
Definition demo_created : db := run demo_command demo_armed.
Definition demo_leased : db := run [(9, AcquireLease demo_token demo_lease)] demo_created.
Definition demo_started : db := run [(10, Journaled demo_start)] demo_leased.
Definition demo_failed : db := run [(11, SubmitResult demo_result)] demo_started.
Definition demo_expired : db := run [(70000, Expire "command-1")] demo_started.
Definition demo_verified : db := run [(70001, AgentObservation 1000 demo_observed demo_observation)] demo_expired.
Definition demo_degraded : db :=
  run [(8, Gate (MkHostReadinessGate "host-1" 1 1 2 "FAILED" 1 "COMPLIANT"))] demo_armed.

Lemma reachable_initial : reachable initial.
Proof. by exists []. Qed.

Lemma demo_armed_reachable : reachable demo_armed.
Proof. apply reachable_run, reachable_initial. Qed.
Lemma demo_created_reachable : reachable demo_created.
Proof. apply reachable_run, demo_armed_reachable. Qed.
Lemma demo_leased_reachable : reachable demo_leased.
Proof. apply reachable_run, demo_created_reachable. Qed.
Lemma demo_started_reachable : reachable demo_started.
Proof. apply reachable_run, demo_leased_reachable. Qed.
Lemma demo_failed_reachable : reachable demo_failed.
Proof. apply reachable_run, demo_started_reachable. Qed.
Lemma demo_verified_reachable : reachable demo_verified.
Proof. apply reachable_run, reachable_run, demo_started_reachable. Qed.
Lemma demo_degraded_reachable : reachable demo_degraded.
Proof. apply reachable_run, demo_armed_reachable. Qed.

#[local] Opaque demo_armed demo_created demo_leased demo_started demo_failed demo_expired demo_verified demo_degraded.

Definition demo_authority : authority_row := MkAuthorityRow 1 "ARMED" 1 1 1 1 1 1 1 "policy" 1 "actor" "reason".

Lemma armed_authority_is_current_witness : pinned (view_of demo_armed "host-1") demo_authority.
Proof.
  apply armed_authority_is_current; [apply demo_armed_reachable|vm_compute; reflexivity|reflexivity].
Defined.

Lemma mutation_authorized_iff_witness :
  (exists a, authorities demo_armed !! "host-1"%string = Some a /\ armed a /\ aut_generation a = 1
             /\ session_authorized demo_armed "host-1" a) /\ certificate_valid 9 demo_armed "host-1".
Proof.
  apply (mutation_authorized_iff 9 "host-1" 1 demo_armed); [apply demo_armed_reachable|vm_compute; reflexivity].
Defined.

(** Fenced by a failed preflight, then ready and armed again: generation 2. *)
Definition demo_rearm : history :=
  [(9, Gate (MkHostReadinessGate "host-1" 1 1 3 "PASSED" 1 "COMPLIANT"));
   (10, Arm (MkArmRequest "host-1" "policy" 1 "actor" "again"))]%string.

Lemma dead_authority_never_returns_witness :
  AuthorizeHostMutation 11 "host-1" 1 (run demo_rearm demo_degraded) = Err ErrHostAuthorityNotArmed
  /\ is_Ok (AuthorizeHostMutation 11 "host-1" 2 (run demo_rearm demo_degraded)) = true.
Proof.
  split; [|vm_compute; reflexivity]. apply dead_authority_never_returns.
  - apply demo_degraded_reachable.
  - intros (a & Ha & Hs & _). vm_compute in Ha. injection Ha as <-. discriminate Hs.
  - vm_compute. discriminate.
Defined.

Definition demo_second : AgentSessionAdmission :=
  MkAdmission "attempt-2" "host-1" "connection-2" "grpc" "v1" demo_digest 1 demo_digest JNull 2.

Lemma session_generation_advances_by_one_witness :
  next_session (view_of demo_armed "host-1") (view_of (apply 12 (Admit demo_second) demo_armed) "host-1")
  /\ session_generation (view_of (apply 12 (Admit demo_second) demo_armed) "host-1") = 2.
Proof.
  split; [|vm_compute; reflexivity]. apply session_generation_advances_by_one, demo_armed_reachable.
Defined.

Lemma is_Ok_inv {A} (r : res A) : is_Ok r = true -> exists a, r = Ok a.
Proof. destruct r; [eauto|done]. Qed.

Lemma no_blind_redispatch_witness : exists d' g,
  AcquireCommandLease 70002 demo_token demo_lease demo_verified = Ok (d', g) /\ lg_AttemptIndex g = 2
  /\ not_applied demo_verified "command-1" 1.
Proof.
  assert (is_Ok (AcquireCommandLease 70002 demo_token demo_lease demo_verified) = true) as Hok
    by (vm_compute; reflexivity).
  assert (command_states demo_verified !! "command-1"%string = Some (MkState "REDISPATCHABLE" 1)) as Hst
    by (vm_compute; reflexivity).
  apply is_Ok_inv in Hok as [[d' g] E]. exists d', g.
  destruct (lease_acquired _ _ _ _ _ _ E) as (st & Hst' & _ & Hg & _).
  assert (st = MkState "REDISPATCHABLE" 1) as ->.
  { change (command_states demo_verified !! "command-1"%string = Some st) in Hst'. congruence. }
  split; [done|]. split; [done|].
  destruct (no_blind_redispatch 70002 demo_token demo_lease demo_verified d' g) as [H _];
    [apply demo_verified_reachable|done|]. apply H. rewrite Hg. cbn. lia.
Defined.

Lemma commands_follow_lifecycle_witness : exists st',
  command_states (run [(11, SubmitResult demo_result)] demo_started) !! "command-1"%string = Some st'
  /\ rtc lifecycle (MkState "EXECUTING" 1) st'.
Proof. apply commands_follow_lifecycle; [apply demo_started_reachable|vm_compute; reflexivity]. Defined.

Lemma terminal_commands_are_final_witness :
  command_states (run [(12, SubmitResult demo_result); (70000, Expire "command-1"%string)] demo_failed)
    !! "command-1"%string = Some (MkState "FAILED" 1).
Proof.
  apply terminal_commands_are_final; [apply demo_failed_reachable|vm_compute; reflexivity|right; left].
Defined.

Lemma result_needs_live_lease_witness : exists l,
  leases demo_started !! "command-1"%string = Some l /\ is_active l = true /\ lease_live 11 l = true.
Proof.
  assert (snd (AcceptCommandResult 11 demo_result demo_started)
          = Ok (result_receipt demo_result (result_of demo_result))) as Hok by (vm_compute; reflexivity).
  destruct (AcceptCommandResult 11 demo_result demo_started) as [d' r] eqn:E. cbn [snd] in Hok. subst r.
  destruct (result_needs_live_lease 11 demo_result demo_started d' (result_receipt demo_result (result_of demo_result)))
    as (l & Hl & Ha & _ & Ht & _); [vm_compute; reflexivity|exact E|]. exists l. by split_and!.
Defined.

Lemma evidence_is_immutable_witness :
  results (run [(12, SubmitResult demo_result); (70000, Expire "command-1"%string)] demo_failed)
    !! ("command-1"%string, 1) = Some (result_of demo_result).
Proof. apply evidence_is_immutable. vm_compute. reflexivity. Defined.

Definition demo_message : Envelope :=
  MkEnvelope "host-1" 1 StreamHeartbeat "heartbeat/1" "heartbeat/v1" "heartbeat" 1 0 (sha256_hex "") "" "".
Definition demo_receipt : Receipt :=
  MkReceipt "host-1" 1 StreamHeartbeat "heartbeat/1" "heartbeat" 1 (sha256_hex "") "ACCEPTED".

(** Delivered again after the session was replaced. *)
Lemma redelivery_gets_same_receipt_witness : exists d1,
  AcceptAgentMessage 100 demo_message demo_armed = Ok (d1, demo_receipt)
  /\ AcceptAgentMessage 100 (BindSession demo_message 2) (run [(12, Admit demo_second)] d1)
     = Ok (run [(12, Admit demo_second)] d1, demo_receipt).
Proof.
  assert (match AcceptAgentMessage 100 demo_message demo_armed with Ok p => Some (snd p) | Err _ => None end
          = Some demo_receipt) as Hok by (vm_compute; reflexivity).
  destruct (AcceptAgentMessage 100 demo_message demo_armed) as [[d1 r]|e] eqn:E; [|discriminate Hok].
  cbn [snd] in Hok. injection Hok as ->. exists d1. split; [exact eq_refl|].
  apply (redelivery_gets_same_receipt demo_armed demo_message 100);
    [apply demo_armed_reachable|exact E|vm_compute; reflexivity].
Defined.

