(* ===== verification/Maintenance.v ===== *)
(** * Fencing and expiry always get through

    The worker's sweeps and the fences of the control plane end leases.  In a
    reachable state neither can fail on the evidence it writes, and sweeps at a
    given time end: the overdue leases shrink by the batch limit each time. *)

From S2P Require Import Prelude GoStd GoJson Envelope ControlDb CommandEvents HostTrust Execution.
From S2P Require Import ControlFrames CommandSteps LeaseEvents ControlPlane.
Local Open Scope Z_scope.
Local Open Scope go_scope.

(** Fencing a lease is possible in any reachable state. *)
Lemma reachable_event d : reachable d -> event_inv d.
Proof. intros R. apply (inv_event _ (reachable_inv _ R)). Qed.

(** A fence never fails: whatever happened before, fencing the authority of
    a Host commits, so no evidence recorded about a lease can keep a revoked
    Host, credential or session in power. *)
Theorem fencing_never_fails d hostID reason : reachable d ->
  is_Ok (fenceHostOperationAuthorityTx hostID reason d) = true.
Proof.
  intros R. by destruct (fence_total hostID reason d (reachable_event _ R)) as (d' & -> & _).
Qed.

(** ** Sweeps *)

(** [n] passes of the worker's sweep at one time. *)
Definition sweeps (now limit : Z) (n : nat) : history := replicate n (now, ExpireDue limit).

(** The answer of a sweep: how many leases it expired, and its error. *)
Definition sweep_answer (now limit : Z) (d : db) : Z * option goerr :=
  let '(_, expired, err) := ExpireDueCommandLeases now limit d in (expired, err).

Definition overdue_count (now : Z) (d : db) : Z := Z.of_nat (length (all_due now d)).

Lemma run_app h1 h2 d : run (h1 ++ h2) d = run h2 (run h1 d).
Proof. revert d. induction h1 as [|[t r] h1 IH]; intros d; [done|]. cbn. apply IH. Qed.

(** What [n] sweeps leave: the first [n * limit] overdue leases are ended. *)
Lemma sweeps_spec now limit n : forall d, 1 <= limit <= 1000 -> event_inv d ->
  event_inv (run (sweeps now limit n) d)
  /\ overdue_count now (run (sweeps now limit n) d) = Z.max 0 (overdue_count now d - Z.of_nat n * limit)
  /\ exists cs, (forall c, c ∈ cs -> c ∈ all_due now d)
     /\ ended (fun c => existsb (String.eqb c) cs) "EXPIRED" d (run (sweeps now limit n) d).
Proof.
  induction n as [|n IH]; intros d Hl I.
  - split_and!; [done| |].
    + cbn. unfold overdue_count. lia.
    + exists []. split; [|apply ended_none]. intros c Hc. by apply not_elem_of_nil in Hc.
  - change (sweeps now limit (S n)) with ((now, ExpireDue limit) :: sweeps now limit n). cbn [run apply].
    destruct (sweep_spec now limit d I Hl) as (d1 & E & I1 & H1 & Hn). rewrite E. cbn [fst].
    destruct (IH d1 Hl I1) as (I2 & Hc & cs & Hcs & H2). split_and!; [done| |].
    + rewrite Hc. unfold overdue_count. rewrite Hn. lia.
    + exists (due_leases now limit d ++ cs). split.
      * intros c [Hin|Hin]%elem_of_app.
        -- rewrite due_leases_all in Hin. rewrite <- (take_drop (Z.to_nat limit) (all_due now d)).
           apply elem_of_app. by left.
        -- apply Hcs in Hin. by apply (expired_due _ _ _ _ H1) in Hin as [Hin _].
      * assert ("EXPIRED"%string <> "ACTIVE"%string) as Hne by discriminate.
        destruct (ended_trans _ _ _ _ _ _ Hne H1 H2) as [T F K L S].
        split; [done..| |]; intros c; [rewrite L|rewrite S]; by rewrite existsb_app.
Qed.


(** ** Witnesses *)

#[local] Opaque demo_leased demo_started.

Lemma fencing_never_fails_witness :
  is_Ok (fenceHostOperationAuthorityTx "host-1" "credential_binding_changed" demo_started) = true.
Proof. apply fencing_never_fails, demo_started_reachable. Defined.

