(* ===== verification/ResultFlow.v ===== *)
(** * What a Result published under a live lease does

    [receive_result] on a message the gateway has not seen, for an attempt
    whose lease is live: the transaction commits, and leaves the command in the
    state its outcome and its observation call for.  The transaction is followed
    forwards, step by step; that no evidence already recorded stands in its way
    comes from the invariants of the reachable states. *)

From S2P Require Import Prelude GoStd GoJson Envelope GoRaw Contract ControlDb CommandEvents HostTrust.
From S2P Require Import Receipts Execution Verification MessageReceiver.
From S2P Require Import ControlFrames CommandSteps LeaseEvents ControlPlane.
Local Open Scope Z_scope.
Local Open Scope go_scope.

(** ** What the steps before the receipt leave alone *)

Definition base_tables (d : db) := (trust_tables d, authorizations d, commands d, receipts d).

Definition job_types_kept (d d' : db) : Prop :=
  forall k, job_resource_type <$> jobs d' !! k = job_resource_type <$> jobs d !! k.

Record steady (d d' : db) : Prop := MkSteady {
  std_base : base_tables d' = base_tables d;
  std_jobs : job_types_kept d d';
  std_attempts : attempts d' = attempts d;
}.

#[export] Instance steady_preorder : PreOrder steady.
Proof.
  split; [by intros d|]. intros a b c [B1 J1 A1] [B2 J2 A2].
  split; [congruence| |congruence]. intros k. by rewrite J2, J1.
Qed.

Lemma set_job_state_steady j s d : steady d (set_job_state j s d).
Proof.
  split; [done| |done]. intros k. cbn. rewrite alter_lookup. destruct (jobs d !! k); [|done].
  by destruct (j =? k)%string.
Qed.

Lemma set_job_state_of_steady c s d : steady d (set_job_state_of c s d).
Proof. unfold set_job_state_of. destruct (commands d !! c); [apply set_job_state_steady|done]. Qed.

Lemma set_job_state_of_commands c s d : command_states (set_job_state_of c s d) = command_states d
  /\ leases (set_job_state_of c s d) = leases d /\ results (set_job_state_of c s d) = results d
  /\ verifications (set_job_state_of c s d) = verifications d.
Proof. unfold set_job_state_of. by destruct (commands d !! c). Qed.

(** The lease check reads nothing else. *)
Lemma validate_tables now c i t d d' : base_tables d' = base_tables d -> leases d' = leases d ->
  validateActiveLeaseTx now c i t d' = validateActiveLeaseTx now c i t d.
Proof.
  intros [= E1 E2 E3 E4 E5 E6 E7 E8 E9 E10 E11] El.
  unfold validateActiveLeaseTx, active_lease, lease_authority_current, readHostMutationAuthorityTx,
    AuthorizeHostMutation, mutation_authority, readHostReadOnlyVerificationAuthorityTx, read_only_authority.
  by rewrite E1, E2, E3, E4, E5, E6, E7, E8, E9, E10, El.
Qed.

(** ** Evidence events *)

Lemma appendLeaseEventTx_new c g t p d : event_of t (events_of (lease_events d) (c, g)) = None ->
  appendLeaseEventTx c g t p d = Ok (d <| lease_events ::= append_event (c, g) (MkEvent t "" None p) |>).
Proof. unfold appendLeaseEventTx, events_of. by intros ->. Qed.

Lemma appendAttemptEventTx_new c i t r p d : event_of t (events_of (attempt_events d) (c, i)) = None ->
  is_Some (attempts d !! (c, i)) ->
  appendAttemptEventTx c i t r p d = Ok (d <| attempt_events ::= append_event (c, i) (MkEvent t r None p) |>).
Proof.
  unfold appendAttemptEventTx, events_of. intros -> [x Hx].
  by destruct (t ==s "STALE_RESULT_REJECTED"); rewrite Hx.
Qed.

(** ** The steps *)

Lemma journal_step now start d l :
  event_inv d -> as_CommandID start <> ""%string -> as_LeaseToken start <> ""%string ->
  1 <= as_AttemptIndex start -> len (JournalEvidenceDigest start) = 64 ->
  validateActiveLeaseTx now (as_CommandID start) (as_AttemptIndex start) (as_LeaseToken start) d = Ok l ->
  event_of "JOURNALED" (events_of (attempt_events d) (as_CommandID start, as_AttemptIndex start)) = None ->
  event_of "STARTED" (events_of (lease_events d) (as_CommandID start, lse_generation l)) = None ->
  exists d1, MarkCommandAttemptJournaled now start d = Ok d1 /\ steady d d1
  /\ command_states d1 = alter (fun r => r <| cst_state := "EXECUTING"%string |>) (as_CommandID start) (command_states d)
  /\ leases d1 = leases d /\ results d1 = results d /\ verifications d1 = verifications d.
Proof.
  intros I H1 H2 H3 H4 Hv Hj Hs. pose proof (validateActiveLeaseTx_active _ _ _ _ _ _ Hv) as (Hl & _ & Hi & _).
  destruct (ev_lease _ _ I _ _ Hl) as [_ Ha]. rewrite Hi in Ha.
  unfold MarkCommandAttemptJournaled. apply String.eqb_neq in H1, H2.
  rewrite H1, H2, H4, (proj2 (Z.ltb_ge _ _)) by lia. cbn [orb negb Z.eqb]. rewrite fail_if_pass by done.
  rewrite Hv. cbn [mbind res_bind].
  rewrite appendAttemptEventTx_new by done. cbn [mbind res_bind]. rewrite appendLeaseEventTx_new by done.
  cbn [mbind res_bind]. eexists. split; [reflexivity|].
  match goal with |- context [set_job_state_of ?c ?s ?x] =>
    pose proof (set_job_state_of_commands c s x) as (-> & -> & -> & ->); pose proof (set_job_state_of_steady c s x) as S
  end.
  split_and!; try reflexivity. etrans; [|exact S]. by split.
Qed.

(** A result no other result of the table collides with *)
Definition fresh_result (s : CommandResultSubmission) (d : db) : Prop :=
  any_row (fun _ o => (res_id o ==s res_id (result_of s)) || (res_receipt o ==s res_receipt (result_of s)))
    (results d) = false.

Lemma result_accept_step now s d l :
  event_inv d -> command_inv d -> check_submission s = Ok tt -> fresh_result s d ->
  validateActiveLeaseTx now (rs_CommandID s) (rs_AttemptIndex s) (rs_LeaseToken s) d = Ok l ->
  exists d2 answer, AcceptCommandResult now s d = (d2, Ok answer) /\ steady d d2
  /\ command_states d2 = alter (fun r => r <| cst_state := fst (outcome_states (Outcome s)) |>) (rs_CommandID s)
                           (command_states d)
  /\ results d2 = <[(rs_CommandID s, rs_AttemptIndex s) := result_of s]> (results d)
  /\ verifications d2 = verifications d.
Proof.
  intros I C Hs Hf Hv. pose proof (validateActiveLeaseTx_active _ _ _ _ _ _ Hv) as (Hl & Ha & Hi & _).
  destruct (ev_lease _ _ I _ _ Hl) as [_ Hat]. destruct (ev_open _ _ I _ _ Logic.I Hl Ha) as [Ol Oa].
  rewrite Hi in Hat, Oa.
  destruct (active_in_flight _ _ _ C Hl Ha) as (st & Hst & Hfl & Hok).
  assert (results d !! (rs_CommandID s, rs_AttemptIndex s) = None) as Hr.
  { destruct (results d !! _) eqn:E; [|done]. apply (ok_result _ _ _ Hok) in E as [_ E].
    destruct (ok_lease _ _ _ Hok _ Hl) as (_ & En & _). exfalso. apply E; congruence. }
  unfold AcceptCommandResult, accept_result_tx. rewrite Hs, Hr, Hv. cbn [mbind res_bind].
  unfold consume_lease, insert_result. rewrite Hf. cbn [fail_if mbind res_bind].
  rewrite appendAttemptEventTx_new; [|by apply Oa|done]. cbn [mbind res_bind].
  rewrite appendLeaseEventTx_new by (by apply Ol). cbn [mbind res_bind].
  destruct (outcome_states (Outcome s)) as [cs js]. do 2 eexists. split; [reflexivity|].
  match goal with |- context [set_job_state_of ?c ?s ?x] =>
    pose proof (set_job_state_of_commands c s x) as (-> & _ & -> & ->); pose proof (set_job_state_of_steady c s x) as S
  end.
  split_and!; try reflexivity. etrans; [|exact S]. by split.
Qed.

(** The job of the command is not the power state of a virtual machine, whose
    read-back has conditions of its own. *)
Definition plain_job (c : string) (d : db) : Prop :=
  forall command job, commands d !! c = Some command -> jobs d !! cmd_job command = Some job ->
  job_resource_type job <> "VIRTUAL_MACHINE_POWER"%string.

Lemma plain_job_steady c d d' : steady d d' -> plain_job c d -> plain_job c d'.
Proof.
  intros [[= _ _ _ _ _ _ _ _ _ E _] J _] H command job Hc Hj. rewrite E in Hc.
  specialize (J (cmd_job command)). rewrite Hj in J. cbn in J. symmetry in J.
  apply fmap_Some in J as (job0 & Hj0 & ->). by apply (H command job0).
Qed.

Lemma project_plain v d : plain_job (cv_CommandID v) d -> projectMatchedVMPowerVerificationTx v d = Ok d.
Proof.
  unfold projectMatchedVMPowerVerificationTx. intros H.
  destruct (commands d !! cv_CommandID v) as [command|] eqn:Ec; [|done]. cbn.
  destruct (jobs d !! cmd_job command) as [job|] eqn:Ej; [|done]. cbn.
  specialize (H command job Ec Ej). apply String.eqb_neq in H. by rewrite H.
Qed.

Lemma verify_step v d st :
  check_verification v = Ok tt -> hex64 (ObservationDigest v) = true -> hex64 (VerifierArtifactDigest v) = true ->
  command_states d !! cv_CommandID v = Some st -> cst_attempt st = cv_AttemptIndex v ->
  is_Some (commands d !! cv_CommandID v) -> is_Some (attempts d !! (cv_CommandID v, cv_AttemptIndex v)) ->
  verifications d !! VerificationID v = None -> plain_job (cv_CommandID v) d ->
  match resolution (cv_State v) (cst_state st) with
  | Ok (cs, _, _) => exists d3, RecordCommandVerification v d = Ok d3 /\ steady d d3
      /\ command_states d3 = alter (fun r => r <| cst_state := cs |>) (cv_CommandID v) (command_states d)
      /\ results d3 = results d
  | Err e => RecordCommandVerification v d = Err e
  end.
Proof.
  intros Hk Ho Hv Hst Hi [command Hc] [a Ha] Hn Hp. unfold RecordCommandVerification.
  rewrite Hk. cbn [mbind res_bind]. rewrite Hst. cbn [row mbind res_bind]. rewrite Hc. cbn [row mbind res_bind].
  rewrite Hi, Z.eqb_refl, Ho, Hv, Hn, Ha. cbn [negb orb fail_if row mbind res_bind].
  unfold resolve_command. set (d0 := d <| verifications ::= _ |>).
  assert ((if cv_State v ==s "MATCHED" then projectMatchedVMPowerVerificationTx v d0 else Ok d0) = Ok d0) as ->
    by (destruct (cv_State v ==s "MATCHED"); [by apply project_plain|done]).
  cbn [mbind res_bind]. destruct (resolution _ _) as [[[cs js] ev]|e]; [|done]. cbn [mbind res_bind].
  eexists. split; [reflexivity|]. split; [|done]. split; [done| |done].
  intros k. cbn. rewrite alter_lookup. destruct (jobs d !! k); [|done]. by destruct (cmd_job command =? k)%string.
Qed.

(** The receipt of a message the database has not seen *)
Definition new_message (e : Envelope) (d : db) : Prop :=
  receipts d !! (HostIdentity e, MessageID e) = None /\ sequence_taken e d = false.

Lemma receipt_step e d g : new_message e d -> current_session (HostIdentity e) d = Some g ->
  SessionGeneration e = u64 g -> 1 <= g -> Sequence e <= MaxInt64 -> hex64 (PayloadDigest e) = true ->
  exists d4 receipt, acceptAgentMessageTx e d = Ok (d4, receipt) /\ identifies receipt e
  /\ rcpt_Disposition receipt = "ACCEPTED"%string
  /\ command_states d4 = command_states d /\ results d4 = results d.
Proof.
  intros [Hn Hs] Hg He Hp Hq Hh. unfold acceptAgentMessageTx, recordAgentReceiptTx, readAgentReceiptTx.
  rewrite Hn, Hg, He, Hh, Hs. cbn [fmap option_fmap option_map row mbind res_bind]. rewrite Z.eqb_refl.
  cbn [negb]. rewrite (proj2 (Z.ltb_ge MaxInt64 _) Hq), (proj2 (Z.ltb_ge g 1)) by lia.
  do 2 eexists. split; [reflexivity|]. done.
Qed.

(** ** The whole transaction *)

(** The state a Result leaves its command in; [None] when its outcome and its
    observation contradict each other. *)
Definition settled (outcome observed : string) : option string :=
  if outcome ==s "FAILED" then Some "FAILED"%string
  else if verification_state observed ==s "MATCHED" then Some "SUCCEEDED"%string
  else if verification_state observed ==s "NOT_APPLIED" then
    if outcome ==s "UNKNOWN" then Some "REDISPATCHABLE"%string else None
  else Some "UNKNOWN"%string.

Definition verification_id (r : CommandResult) : string :=
  (cr_CommandID r ++ "-verification-" ++ FormatInt (cr_AttemptIndex r))%string.

(** The message is one the gateway may trust: a well-formed envelope of the
    Result, on the current session of the command's Host, that it has not seen. *)
Record trusted_message (maxMessageBytes : Z) (d : db) (e : Envelope) (r : CommandResult) : Prop := MkTrusted {
  tru_valid : Validate e maxMessageBytes = Ok tt;
  tru_result : check_CommandResult r = Ok r;
  tru_command : CorrelationKey e = cr_CommandID r;
  tru_sequence : Sequence e = cr_AttemptIndex r /\ cr_AttemptIndex r <= MaxInt64;
  tru_host : exists command, commands d !! cr_CommandID r = Some command /\ cmd_host command = HostIdentity e;
  tru_session : exists g, current_session (HostIdentity e) d = Some g /\ SessionGeneration e = u64 g /\ 1 <= g;
  tru_new : new_message e d;
  tru_hex : hex64 (PayloadDigest e) = true /\ hex64 (ob_Digest (cr_Observation r)) = true
            /\ hex64 (cr_VerifierDigest r) = true;
}.

(** The attempt is live and not yet journaled, and its evidence is not taken;
    only a Result that is not FAILED comes with a verification. *)
Record live_attempt (now : Z) (d : db) (r : CommandResult) (l : lease_row) : Prop := MkLive {
  liv_lease : validateActiveLeaseTx now (cr_CommandID r) (cr_AttemptIndex r) (cr_LeaseToken r) d = Ok l;
  liv_journaled : event_of "JOURNALED" (events_of (attempt_events d) (cr_CommandID r, cr_AttemptIndex r)) = None;
  liv_started : event_of "STARTED" (events_of (lease_events d) (cr_CommandID r, lse_generation l)) = None;
  liv_result : fresh_result (Result (result_decision r)) d;
  liv_verification : cr_Outcome r <> "FAILED"%string -> verifications d !! verification_id r = None;
  liv_job : cr_Outcome r <> "FAILED"%string -> plain_job (cr_CommandID r) d;
}.

(** The verification that goes with a Result that is not FAILED *)
Definition verification_of_result (r : CommandResult) : CommandVerification :=
  let o := cr_Observation r in
  MkVerification (verification_id r) (cr_CommandID r) (cr_AttemptIndex r) (ob_Generation o) (ob_Digest o)
    (verification_state (ob_State o)) (cr_VerifierDigest r) (ob_Evidence o).

Lemma checked_outcome r : check_CommandResult r = Ok r -> In (cr_Outcome r) ["SUCCEEDED"; "FAILED"; "UNKNOWN"]%string.
Proof.
  unfold check_CommandResult. intros H. run_guards.
  destruct (String.eqb_spec (cr_Outcome r) "SUCCEEDED") as [->|]; [left; done|].
  destruct (String.eqb_spec (cr_Outcome r) "FAILED") as [->|]; [right; left; done|].
  destruct (String.eqb_spec (cr_Outcome r) "UNKNOWN") as [->|]; [right; right; left; done|]. done.
Qed.

Lemma checked_result r : check_CommandResult r = Ok r ->
  cr_CommandID r <> ""%string /\ 1 <= cr_AttemptIndex r /\ cr_LeaseToken r <> ""%string
  /\ len (cr_JournalDigest r) = 64 /\ check_submission (Result (result_decision r)) = Ok tt
  /\ (forall v, rd_Verification (result_decision r) = Some v -> check_verification v = Ok tt).
Proof.
  unfold check_CommandResult. intros H. run_guards. split_and!; try done.
  - unfold check_submission. cbn [Result result_decision rs_CommandID rs_AttemptIndex rs_LeaseToken ResultID Outcome].
    known_tests. cbn [orb fail_if mbind res_bind].
    match goal with H : _ && _ && _ = false |- _ => by rewrite H end.
  - intros v. unfold result_decision. cbn [rd_Verification].
    destruct (cr_Outcome r !=s "FAILED"); [|discriminate]. intros [= <-].
    unfold check_verification.
    cbn [VerificationID cv_CommandID cv_AttemptIndex cv_ObservationGeneration ObservationDigest
      VerifierArtifactDigest cv_State].
    known_tests.
    assert ((cr_CommandID r ++ "-verification-" ++ FormatInt (cr_AttemptIndex r) =? "")%string = false) as ->
      by (destruct (cr_CommandID r) eqn:Ec; [congruence|reflexivity]).
    cbn [orb negb Z.eqb fail_if mbind res_bind]. unfold verification_state. repeat case_match; reflexivity.
Qed.

Lemma receipt_steady d d3 e g : steady d d3 -> new_message e d -> current_session (HostIdentity e) d = Some g ->
  new_message e d3 /\ current_session (HostIdentity e) d3 = Some g.
Proof.
  intros [[= _ _ _ _ E _ _ _ _ _ F] _ _]. unfold new_message, sequence_taken, current_session. by rewrite E, F.
Qed.

(** What a verification makes of a command whose Result was just accepted *)
Lemma settled_resolution o observed : o <> "FAILED"%string -> In o ["SUCCEEDED"; "FAILED"; "UNKNOWN"]%string ->
  match settled o observed with
  | Some s => exists j ev, resolution (verification_state observed) (fst (outcome_states o)) = Ok (s, j, ev)
  | None => resolution (verification_state observed) (fst (outcome_states o)) = Err ErrVerificationConflict
  end.
Proof.
  intros Hf Hin. unfold settled, outcome_states, resolution.
  destruct Hin as [<-|[<-|[<-|[]]]]; [|congruence|]; cbn;
    (destruct (verification_state observed ==s "MATCHED"); [|destruct (verification_state observed ==s "NOT_APPLIED")]);
    cbn; eauto.
Qed.

Lemma decide_result_spec now d e r l : control_inv d -> check_CommandResult r = Ok r ->
  live_attempt now d r l -> new_message e d -> is_Some (commands d !! cr_CommandID r) ->
  (exists g, current_session (HostIdentity e) d = Some g /\ SessionGeneration e = u64 g /\ 1 <= g) ->
  Sequence e <= MaxInt64 -> hex64 (PayloadDigest e) = true ->
  hex64 (ob_Digest (cr_Observation r)) = true -> hex64 (cr_VerifierDigest r) = true ->
  match settled (cr_Outcome r) (ob_State (cr_Observation r)) with
  | Some s => exists d' receipt, decide_result now e (result_decision r) d = Ok (d', receipt)
      /\ command_states d' !! cr_CommandID r = Some (MkState s (cr_AttemptIndex r))
      /\ results d' !! (cr_CommandID r, cr_AttemptIndex r) = Some (result_of (Result (result_decision r)))
      /\ identifies receipt e /\ rcpt_Disposition receipt = "ACCEPTED"%string
  | None => decide_result now e (result_decision r) d = Err ErrVerificationConflict
  end.
Proof.
  intros [_ _ C I] Hr [Hv Hj Hs Hf Hver Hjob] Hn Hc (g & Hg & He & Hp) Hq Hh Ho Hvd.
  destruct (checked_result r Hr) as (N1 & N2 & N3 & N4 & Hsub & Hcheck).
  pose proof (validateActiveLeaseTx_active _ _ _ _ _ _ Hv) as (Hl & Ha & Hi & _).
  destruct (active_in_flight _ _ _ C Hl Ha) as (st & Hst & _ & Hok).
  destruct (ok_lease _ _ _ Hok _ Hl) as (_ & Hn' & _). rewrite Hi in Hn'.
  destruct (journal_step now (Start (result_decision r)) d l I N1 N3 N2 N4 Hv Hj Hs)
    as (d1 & E1 & S1 & C1 & L1 & R1 & V1).
  pose proof (MarkCommandAttemptJournaled_event _ _ _ _ E1 I) as I1.
  destruct (MarkCommandAttemptJournaled_tx _ _ _ _ E1) as [_ [_ Q1 _]].
  assert (validateActiveLeaseTx now (cr_CommandID r) (cr_AttemptIndex r) (cr_LeaseToken r) d1 = Ok l) as Hv1
    by (rewrite (validate_tables _ _ _ _ d d1); [done|by apply std_base|done]).
  destruct (result_accept_step now (Result (result_decision r)) d1 l I1 (Q1 C) Hsub)
    as (d2 & answer & E2 & S2 & C2 & R2 & V2); [unfold fresh_result in *; by rewrite R1|done|].
  unfold decide_result. rewrite E1. cbn [mbind res_bind]. rewrite E2. cbn [mbind res_bind].
  pose proof (transitivity S1 S2) as [B J A].
  assert (command_states d2 !! cr_CommandID r
          = Some (MkState (fst (outcome_states (cr_Outcome r))) (cr_AttemptIndex r))) as Hst2.
  { rewrite C2, C1. cbn. rewrite !lookup_alter_eq, Hst. cbn. destruct st. cbn in *. by subst. }
  assert (forall d3 s, steady d d3 -> command_states d3 !! cr_CommandID r = Some (MkState s (cr_AttemptIndex r)) ->
    results d3 = results d2 ->
    exists d' receipt, acceptAgentMessageTx e d3 = Ok (d', receipt)
      /\ command_states d' !! cr_CommandID r = Some (MkState s (cr_AttemptIndex r))
      /\ results d' !! (cr_CommandID r, cr_AttemptIndex r) = Some (result_of (Result (result_decision r)))
      /\ identifies receipt e /\ rcpt_Disposition receipt = "ACCEPTED"%string) as Hlast.
  { intros d3 s S3 Hs3 Hr3. destruct (receipt_steady _ _ _ _ S3 Hn Hg) as [Hn3 Hg3].
    destruct (receipt_step e d3 g Hn3 Hg3 He Hp Hq Hh) as (d4 & receipt & E4 & H1 & H2 & H3 & H4).
    exists d4, receipt. rewrite H3, H4, Hr3, R2. by rewrite lookup_insert_eq. }
  pose proof (transitivity S1 S2) as S12.
  destruct (decide (cr_Outcome r = "FAILED"%string)) as [Ef|Hne].
  - assert (rd_Verification (result_decision r) = None) as -> by (unfold result_decision; cbn; by rewrite Ef).
    unfold settled. rewrite (proj2 (String.eqb_eq _ _) Ef). cbn [mbind res_bind].
    apply Hlast; [done| |done]. rewrite Hst2. by rewrite Ef.
  - assert (rd_Verification (result_decision r) = Some (verification_of_result r)) as Ev
      by (unfold result_decision; cbn; by rewrite (proj2 (String.eqb_neq _ _) Hne)).
    rewrite Ev. pose proof (settled_resolution _ (ob_State (cr_Observation r)) Hne (checked_outcome r Hr)) as Hset.
    destruct (ev_lease _ _ I _ _ Hl) as [_ Hat]. rewrite Hi in Hat.
    assert (commands d2 = commands d) as Ecm by (by injection B).
    pose proof (verify_step (verification_of_result r) d2 _ (Hcheck _ Ev) Ho Hvd Hst2 eq_refl) as Hv2.
    cbn [verification_of_result cv_CommandID cv_AttemptIndex VerificationID cv_State cst_state] in Hv2.
    rewrite Ecm, A, V2, V1 in Hv2. specialize (Hv2 Hc Hat (Hver Hne) (plain_job_steady _ _ _ S12 (Hjob Hne))).
    destruct (settled _ _) as [s|]; [destruct Hset as (j & ev & Hset)|]; rewrite Hset in Hv2; [|by rewrite Hv2].
    destruct Hv2 as (d3 & -> & S3 & C3 & R3). cbn [mbind res_bind].
    apply Hlast; [by etrans| |done]. rewrite C3. cbn. by rewrite lookup_alter_eq, Hst2.
Qed.

Lemma receive_result_spec now maxMessageBytes d e r l : reachable d ->
  trusted_message maxMessageBytes d e r -> live_attempt now d r l ->
  match settled (cr_Outcome r) (ob_State (cr_Observation r)) with
  | Some s => exists d' receipt, receive_result now maxMessageBytes e r d = Ok (d', receipt)
      /\ command_states d' !! cr_CommandID r = Some (MkState s (cr_AttemptIndex r))
      /\ results d' !! (cr_CommandID r, cr_AttemptIndex r) = Some (result_of (Result (result_decision r)))
      /\ identifies receipt e /\ rcpt_Disposition receipt = "ACCEPTED"%string
  | None => receive_result now maxMessageBytes e r d = Err ErrVerificationConflict
  end.
Proof.
  intros R [Tv Tr Tc [Ts Tm] (command & Tcmd & Th) (g & Tg & Tsg & Tp) Tn (X1 & X2 & X3)] L.
  pose proof (reachable_inv _ R) as Inv. pose proof (liv_lease _ _ _ _ L) as Hv.
  pose proof (validateActiveLeaseTx_active _ _ _ _ _ _ Hv) as (Hl & Ha & _).
  destruct (active_in_flight _ _ _ (inv_command _ Inv) Hl Ha) as (st & Hst & Hf & Hok).
  destruct (checked_result r Tr) as (N1 & N2 & _).
  assert (receive_result now maxMessageBytes e r d = decide_result now e (result_decision r) d) as ->.
  { assert (u64 (cr_AttemptIndex r) = cr_AttemptIndex r) as Eu
      by (apply u64_id; unfold is_u64, two64, MaxInt64 in *; lia).
    unfold receive_result, AcceptAgentCommandResult. rewrite Tv. cbn [mbind res_bind].
    cbn [result_decision Result Start as_CommandID rs_CommandID rs_AttemptIndex].
    rewrite Tc, Ts, Eu, !String.eqb_refl, Z.eqb_refl, (proj2 (String.eqb_neq _ _) N1).
    cbn [negb orb fail_if mbind res_bind].
    unfold readAgentReceiptTx. rewrite (proj1 Tn). cbn [fmap option_fmap option_map].
    rewrite Tcmd. cbn [row mbind res_bind]. rewrite Hst. cbn [row mbind res_bind]. rewrite Th.
    pose proof (current_session_bound _ _ _ Inv Tg) as Hb. unfold current_session in Tg.
    destruct (sessions d !! HostIdentity e) as [ses|]; [|done]. cbn in Tg.
    destruct (String.eqb_spec (ses_state ses) "CURRENT") as [Ec|]; [|done]. injection Tg as Tg.
    cbn [row mbind res_bind]. rewrite Ec, Tsg, Tg, String.eqb_refl, u64_id, i64_id, Z.eqb_refl
      by (unfold is_u64, is_i64, two64, two63, MaxInt64 in *; lia).
    cbn [negb orb fail_if mbind res_bind].
    by destruct Hf as [-> | ->]. }
  apply (decide_result_spec now d e r l); try done; eauto; lia.
Qed.

(** C10: a Result published under a live lease settles its command.  In any
    reachable state, when the message is well formed, checked, new, and of the
    current session of the command's Host; the lease of the attempt is active,
    carries the token, and the attempt has no JOURNALED and the lease no STARTED
    event yet; no Result of that attempt or of that id, and, unless the outcome
    is FAILED, no verification of its id is recorded; and, unless the outcome is
    FAILED, the job is not a VIRTUAL_MACHINE_POWER one (whose read-back has
    conditions of its own): then the transaction commits, with the Result
    recorded, an ACCEPTED receipt of this very message, and the command FAILED,
    SUCCEEDED, REDISPATCHABLE or UNKNOWN as its outcome and observation say; the
    one pair that contradicts itself, SUCCEEDED with NOT_APPLIED, rolls
    everything back. *)
Theorem live_result_settles_command now maxMessageBytes d e r l : reachable d ->
  trusted_message maxMessageBytes d e r -> live_attempt now d r l ->
  match settled (cr_Outcome r) (ob_State (cr_Observation r)) with
  | Some s => exists d' receipt, receive_result now maxMessageBytes e r d = Ok (d', receipt)
      /\ command_states d' !! cr_CommandID r = Some (MkState s (cr_AttemptIndex r))
      /\ results d' !! (cr_CommandID r, cr_AttemptIndex r) = Some (result_of (Result (result_decision r)))
      /\ identifies receipt e /\ rcpt_Disposition receipt = "ACCEPTED"%string
  | None => receive_result now maxMessageBytes e r d = Err ErrVerificationConflict
  end.
Proof. apply receive_result_spec. Qed.

(** ** A Result that succeeds *)

#[local] Opaque demo_leased.

Definition demo_success : CommandResult :=
  MkCommandResult CommandResultSchema "command-1" 1 (RawURLEncoding demo_token) demo_digest "command-1-result-1"
    "SUCCEEDED" (JObj []) (MkObservation "MATCHED" demo_digest 1 (JObj [])) demo_digest.
Definition demo_success_message : Envelope :=
  NewEnvelope "host-1" 1 StreamResult "command-result/command-1/1" CommandResultSchema "command/command-1" 1
    (marshal (result_json demo_success)).
Definition demo_correlated : Envelope :=
  let e := demo_success_message in
  MkEnvelope (HostIdentity e) (SessionGeneration e) (Stream e) (MessageID e) (SchemaVersion e) (SequenceScope e)
    (Sequence e) (ResourceGeneration e) (PayloadDigest e) "command-1" (Payload e).

Lemma demo_job_plain : plain_job "command-1" demo_leased.
Proof.
  intros command job Hc Hj.
  assert (option_map cmd_job (commands demo_leased !! "command-1"%string) = Some "job-1"%string) as Ec
    by (vm_compute; reflexivity).
  assert (option_map job_resource_type (jobs demo_leased !! "job-1"%string) = Some "VOLUME"%string) as Ej
    by (vm_compute; reflexivity).
  rewrite Hc in Ec. injection Ec as Ec. rewrite Ec in Hj. rewrite Hj in Ej. injection Ej as Ej.
  rewrite Ej. discriminate.
Qed.

Lemma live_result_settles_command_witness : exists d' receipt,
  receive_result 10 100000 demo_correlated demo_success demo_leased = Ok (d', receipt)
  /\ command_states d' !! "command-1"%string = Some (MkState "SUCCEEDED" 1)
  /\ rcpt_Disposition receipt = "ACCEPTED"%string.
Proof.
  assert (is_Ok (validateActiveLeaseTx 10 "command-1" 1 (RawURLEncoding demo_token) demo_leased) = true) as Hok
    by (vm_compute; reflexivity).
  destruct (validateActiveLeaseTx 10 "command-1" 1 (RawURLEncoding demo_token) demo_leased) as [l|] eqn:El;
    [|discriminate Hok].
  assert (option_map lse_generation (leases demo_leased !! "command-1"%string) = Some 1) as Eg
    by (vm_compute; reflexivity).
  pose proof (validateActiveLeaseTx_active _ _ _ _ _ _ El) as (Hl & _).
  rewrite Hl in Eg. injection Eg as Eg.
  destruct (live_result_settles_command 10 100000 demo_leased demo_correlated demo_success l)
    as (d' & receipt & H1 & H2 & _ & _ & H3).
  - apply demo_leased_reachable.
  - split; [vm_compute; reflexivity|vm_compute; reflexivity|reflexivity| | | | |].
    + split; vm_compute; [reflexivity|discriminate].
    + assert (option_map cmd_host (commands demo_leased !! "command-1"%string) = Some "host-1"%string) as Ec
        by (vm_compute; reflexivity).
      change (cr_CommandID demo_success) with "command-1"%string.
      destruct (commands demo_leased !! "command-1"%string) as [command|]; [|discriminate Ec].
      exists command. injection Ec as ->. split; reflexivity.
    + exists 1. split; [vm_compute; reflexivity|]. split; [vm_compute; reflexivity|lia].
    + split; vm_compute; reflexivity.
    + split_and!; vm_compute; reflexivity.
  - split; [exact El|vm_compute; reflexivity| |vm_compute; reflexivity|intros _; vm_compute; reflexivity|intros _; exact demo_job_plain].
    rewrite Eg. vm_compute. reflexivity.
  - exists d', receipt. split; [exact H1|]. split; [exact H2|exact H3].
Defined.
