(* ===== verification/ExecModule.v ===== *)
(** * agent/execution/module.go: typed command execution on the Agent

    The module decodes a Command Lease, records it in the execution journal,
    runs the registered typed backend, records the Result and publishes it.  A
    call returns the module, the journal's directory and the effects it had, in
    order: backend calls, each with the directory it found, and messages handed
    to the publisher.  A backend answers what it likes; its deadline is the
    environment's, and a map it returns is the value [json.Marshal] writes. *)

From S2P Require Import Prelude GoStd GoJson OsFiles RecordDir Envelope Manager Journal.
From S2P Require Import GoTime GoFloat GoRaw Contract ContractProofs.
Local Open Scope Z_scope.
Local Open Scope go_scope.

Module Exec.

Record BackendResult := MkBackendResult {
  br_Outcome : string; br_Result : json; br_Observation : Observation;
}.

(** The [Backend] interface; [Observer] and [CapabilityProvider] are the ones a
    backend may also implement. *)
Record Backend := MkBackend {
  CommandType : string;
  bk_SchemaVersion : string;
  Execute : CommandLease -> res BackendResult;
  Observer : option (VerificationRequest -> res Observation);
  Capabilities : option (list string);
}.

(** [Module], but for its publisher, an argument of the calls *)
Record module := MkModule {
  hostID : string;
  journal : Journal.journal;
  verifierDigest : string;
  backends : gmap string Backend;
  sealed : bool;
}.

#[export] Instance module_eta : Eta module := fun m =>
  MkModule (hostID m) (journal m) (verifierDigest m) (backends m) (sealed m).

(** [digestValue] *)
Definition digestValue (value : string) : string := sha256_hex value.

(** [NewModule]; [None] is a nil argument. *)
Definition NewModule (hostID : string) (journal : option Journal.journal)
    (publisher : option (Envelope -> res unit)) (verifierDigest : string) : res module :=
  let incomplete := Err (errors_New "complete Agent execution module dependencies are required") in
  match journal, publisher with
  | Some journal, Some _ =>
      if (hostID ==s "") || (len verifierDigest !=z 64) then incomplete
      else Ok (MkModule hostID journal verifierDigest ∅ false)
  | _, _ => incomplete
  end.

Definition NUL : string := Eval compute in of_bytes [0].
Definition backend_key (commandType schemaVersion : string) : string := (commandType ++ NUL ++ schemaVersion)%string.

(** [RegisterBackend] *)
Definition RegisterBackend (m : module) (backend : option Backend) : res module :=
  match backend with
  | None => Err (errors_New "typed execution backend descriptor is required")
  | Some b =>
      fail_if ((CommandType b ==s "") || (bk_SchemaVersion b ==s ""))
        (errors_New "typed execution backend descriptor is required");;
      let key := backend_key (CommandType b) (bk_SchemaVersion b) in
      fail_if (sealed m) (errors_New "typed execution backend registry is sealed");;
      fail_if (bool_decide (is_Some (backends m !! key)))
        (errors_New "typed execution backend already registered");;
      Ok (m <| backends := <[key := b]> (backends m) |>)
  end.

(** [Descriptor] *)
Definition base_capability : string := "kim.agent.execution/v1".
Definition add_capability (seen : list string) (capability : string) : list string :=
  if (capability !=s "") && negb (existsb (String.eqb capability) seen) then seen ++ [capability] else seen.
Definition Descriptor (m : module) : ModuleDescriptor :=
  let provided := map_to_list (backends m) ≫= fun kb => default [] (Capabilities (snd kb)) in
  let capabilities := foldl add_capability [base_capability] provided in
  MkDescriptor "execution" (take 1 capabilities ++ sort_Slice String.ltb (drop 1 capabilities))
    CommandLeaseSchema VerificationRequestSchema [CommandLeaseSchema; VerificationRequestSchema].

(** ** Handling *)

Inductive effect :=
| Executed (lease : CommandLease) (d : dir)
| Observed (request : VerificationRequest)
| Published (e : Envelope) (d : dir).

Definition command_scope (commandID : string) : string := ("command/" ++ commandID)%string.
Definition message_id (kind commandID : string) (attemptIndex : Z) : string :=
  (kind ++ "/" ++ commandID ++ "/" ++ FormatInt attemptIndex)%string.

Definition correlate (e : Envelope) (key : string) : Envelope :=
  MkEnvelope (HostIdentity e) (SessionGeneration e) (Stream e) (MessageID e) (SchemaVersion e)
    (SequenceScope e) (Sequence e) (ResourceGeneration e) (PayloadDigest e) key (Payload e).

(** What is reported when the backend fails *)
Definition uncertain (lease : CommandLease) : BackendResult :=
  MkBackendResult "UNKNOWN" (JObj [("reason", JStr "backend_execution_uncertain")]%string)
    (MkObservation "UNKNOWN" (digestValue "unknown") (cl_AttemptIndex lease)
       (JObj [("error_class", JStr "backend_execution")]%string)).

Definition execute (backend : Backend) (lease : CommandLease) : BackendResult :=
  match Execute backend lease with Ok r => r | Err _ => uncertain lease end.

Definition result_digest (r : BackendResult) : string := sha256_hex (marshal (br_Result r)).

Definition command_result (m : module) (lease : CommandLease) (journalDigest : string) (r : BackendResult) :
  CommandResult :=
  MkCommandResult CommandResultSchema (cl_CommandID lease) (cl_AttemptIndex lease) (cl_LeaseToken lease)
    journalDigest (cl_CommandID lease ++ "-result-" ++ FormatInt (cl_AttemptIndex lease))%string (br_Outcome r)
    (br_Result r) (br_Observation r) (verifierDigest m).

Definition result_message (m : module) (e : Envelope) (result : CommandResult) : Envelope :=
  correlate
    (NewEnvelope (hostID m) (SessionGeneration e) StreamResult
       (message_id "command-result" (cr_CommandID result) (cr_AttemptIndex result)) CommandResultSchema
       (command_scope (cr_CommandID result)) (u64 (cr_AttemptIndex result)) (marshal (result_json result)))
    (cr_CommandID result).

(** The part of [handleVerification] that builds and publishes the answer *)
Definition observation_message (m : module) (e : Envelope) (v : VerificationObservation) : Envelope :=
  correlate
    (NewEnvelope (hostID m) (SessionGeneration e) StreamResync
       (message_id "verification-observation" (vo_CommandID v) (vo_AttemptIndex v)) VerificationObservationSchema
       (command_scope (vo_CommandID v)) (u64 (vo_AttemptIndex v)) (marshal (verification_json v)))
    (vo_CommandID v).

Definition unknown_observation (request : VerificationRequest) (what : string) (evidence : list (string * json)) :
  Observation :=
  MkObservation "UNKNOWN" (digestValue what) (vr_AttemptIndex request) (JObj evidence).

Definition verification_observation (m : module) (request : VerificationRequest) (journalDigest : string)
    (o : Observation) : VerificationObservation :=
  MkVerificationObservation VerificationObservationSchema (vr_CommandID request) (vr_AttemptIndex request)
    (vr_TargetResourceID request) (vr_CommandPayloadDigest request) o (verifierDigest m) journalDigest.

(** What the read-back of a request is: the digest of the journal's record, the
    observation, and whether the backend was asked. *)
Definition read_back (m : module) (observe : VerificationRequest -> res Observation)
    (request : VerificationRequest) : res (string * Observation * bool) :=
  match Journal.Evidence (journal m) (vr_CommandID request) (vr_AttemptIndex request)
          (vr_CommandPayloadDigest request) (vr_TargetResourceID request) with
  | Err err =>
      if bool_decide (err = Journal.ErrNotFound) then
        Ok (digestValue "journal_evidence_absent",
            unknown_observation request "verification_journal_absent"
              [("error_class", JStr "journal_evidence_unavailable"); ("journal_state", JStr "ABSENT")]%string,
            false)
      else Err err
  | Ok (_, journalDigest) =>
      match observe request with
      | Ok observation => Ok (journalDigest, observation, true)
      | Err _ => Ok (journalDigest, unknown_observation request "verification_unknown"
                                      [("error_class", JStr "read_back")]%string, true)
      end
  end.

Section Handle.
Context (publish : Envelope -> res unit).

(** [handleVerification] *)
Definition handleVerification (m : module) (d : dir) (e : Envelope) : module * list effect * res unit :=
  let fail err := (m, [], Err err) in
  match DecodeVerificationRequest (Payload e) with
  | Err err => fail err
  | Ok request =>
      if (vr_HostID request !=s hostID m) || (HostIdentity e !=s hostID m)
         || (u64 (vr_SessionGeneration request) !=z SessionGeneration e)
         || (vr_CommandID request !=s CorrelationKey e) || (u64 (vr_AttemptIndex request) !=z Sequence e)
      then fail (errors_New "Verification Request identity mismatch") else
      if sha256_hex (vr_CommandPayload request) !=s vr_CommandPayloadDigest request
      then fail (errors_New "Verification Request payload digest mismatch") else
      let m := m <| sealed := true |> in
      match backends m !! backend_key (vr_CommandType request) (vr_CommandSchemaVersion request) ≫= Observer with
      | None => (m, [], Err (errors_New "typed backend does not support read-back verification"))
      | Some observe =>
          match read_back m observe request with
          | Err err => (m, [], Err err)
          | Ok (journalDigest, observation, asked) =>
              let message :=
                observation_message m e (verification_observation m request journalDigest observation) in
              (m, (if asked then [Observed request] else []) ++ [Published message d], publish message)
          end
      end
  end.

(** [Handle]; [prepare_os] and [complete_os] are what the journal's two writes
    meet. *)
Definition Handle (prepare_os complete_os : os_env) (m : module) (d : dir) (e : Envelope) :
  module * dir * list effect * res unit :=
  let fail err := (m, d, [], Err err) in
  if Stream e !=s StreamCommand
  then fail (errors_New "execution module received unsupported logical message") else
  if SchemaVersion e ==s VerificationRequestSchema
  then let '(m', effects, r) := handleVerification m d e in (m', d, effects, r) else
  if SchemaVersion e !=s CommandLeaseSchema
  then fail (errors_New "execution module received unsupported schema") else
  match DecodeCommandLease (Payload e) with
  | Err err => fail err
  | Ok lease =>
      if (cl_HostID lease !=s hostID m) || (HostIdentity e !=s hostID m)
         || (u64 (cl_SessionGeneration lease) !=z SessionGeneration e)
         || (cl_CommandID lease !=s CorrelationKey e)
      then fail (errors_New "Command Lease identity does not match current Agent envelope") else
      if sha256_hex (cl_CommandPayload lease) !=s cl_CommandPayloadDigest lease
      then fail (errors_New "Command payload digest mismatch") else
      let m := m <| sealed := true |> in
      match backends m !! backend_key (cl_CommandType lease) (cl_CommandSchemaVersion lease) with
      | None => (m, d, [], Err (Errorf "unsupported typed Command %s/%s"
                                  [cl_CommandType lease; cl_CommandSchemaVersion lease]))
      | Some backend =>
          match Journal.Prepare prepare_os (journal m) d (cl_CommandID lease) (cl_AttemptIndex lease)
                  (cl_CommandPayloadDigest lease) (cl_TargetResourceID lease) with
          | (j, d, _, Err err) => (m <| journal := j |>, d, [], Err err)
          | (j, d, _, Ok journalDigest) =>
              let backendResult := execute backend lease in
              match Journal.Complete complete_os j d (cl_CommandID lease) (cl_AttemptIndex lease)
                      (result_digest backendResult) (br_Outcome backendResult) with
              | (j', d', _, Err err) => (m <| journal := j' |>, d', [Executed lease d], Err err)
              | (j', d', _, Ok _) =>
                  let message := result_message m e (command_result m lease journalDigest backendResult) in
                  (m <| journal := j' |>, d', [Executed lease d; Published message d'], publish message)
              end
          end
      end
  end.
End Handle.

(** ** Lemmas *)

(** What the journal is asked for a lease *)
Definition prepare_op (lease : CommandLease) : Journal.op :=
  Journal.OpPrepare (cl_CommandID lease) (cl_AttemptIndex lease) (cl_CommandPayloadDigest lease)
    (cl_TargetResourceID lease).
Definition complete_op (lease : CommandLease) (r : BackendResult) : Journal.op :=
  Journal.OpComplete (cl_CommandID lease) (cl_AttemptIndex lease) (result_digest r) (br_Outcome r).

(** The lease a module accepts from an envelope *)
Record accepts (m : module) (e : Envelope) (lease : CommandLease) : Prop := MkAccepts {
  acc_decoded : DecodeCommandLease (Payload e) = Ok lease;
  acc_host : cl_HostID lease = hostID m;
  acc_envelope : HostIdentity e = hostID m;
  acc_session : u64 (cl_SessionGeneration lease) = SessionGeneration e;
  acc_command : cl_CommandID lease = CorrelationKey e;
  acc_digest : sha256_hex (cl_CommandPayload lease) = cl_CommandPayloadDigest lease;
}.

(** A call that did something with a lease *)
Record handled (publish : Envelope -> res unit) (os1 os2 : os_env) (m : module) (d : dir) (e : Envelope)
    (m' : module) (d' : dir) (effects : list effect) (r : res unit) (lease : CommandLease) : Prop := MkHandled {
  hnd_stream : Stream e = StreamCommand;
  hnd_accepts : accepts m e lease;
  hnd_module : m' = MkModule (hostID m) (journal m') (verifierDigest m) (backends m) true;
  hnd_run : exists backend j1 d1 tr1 digest,
    backends m !! backend_key (cl_CommandType lease) (cl_CommandSchemaVersion lease) = Some backend
    /\ Journal.run os1 (journal m) d (prepare_op lease) = (j1, d1, tr1, Ok digest)
    /\ exists tr2 completion,
         Journal.run os2 j1 d1 (complete_op lease (execute backend lease)) = (journal m', d', tr2, completion)
         /\ match completion with
            | Ok _ =>
                let message := result_message m e (command_result m lease digest (execute backend lease)) in
                effects = [Executed lease d1; Published message d'] /\ r = publish message
            | Err err => effects = [Executed lease d1] /\ r = Err err
            end;
}.

Lemma Handle_lease publish os1 os2 m d e m' d' effects r :
  Handle publish os1 os2 m d e = (m', d', effects, r) -> SchemaVersion e = CommandLeaseSchema ->
  effects = [] \/ exists lease, handled publish os1 os2 m d e m' d' effects r lease.
Proof.
  unfold Handle. intros H Hs. rewrite Hs in H. cbv zeta in H.
  change (CommandLeaseSchema ==s VerificationRequestSchema) with false in H.
  change (CommandLeaseSchema !=s CommandLeaseSchema) with false in H. cbv iota in H.
  destruct (Stream e !=s StreamCommand) eqn:Est; [left; congruence|].
  destruct (DecodeCommandLease (Payload e)) as [lease|] eqn:Ed; [|left; congruence].
  destruct (_ || _ || _ || _) eqn:Eg; [left; congruence|].
  destruct (_ !=s _) eqn:Eh in H; [left; congruence|]. bools.
  cbn [backends] in H. change (backends (m <| sealed := true |>)) with (backends m) in H.
  destruct (backends m !! _) as [backend|] eqn:Eb in H; [|left; congruence].
  change (journal (m <| sealed := true |>)) with (journal m) in H.
  destruct (Journal.Prepare _ _ _ _ _ _ _) as [[[j1 d1] tr1] [digest|err]] eqn:Ep; [|left; congruence].
  right. exists lease. split; [done|by split| |].
  { by destruct (Journal.Complete _ _ _ _ _ _ _) as [[[j2 d2] tr2] [?|?]]; injection H as <- _ _ _. }
  exists backend, j1, d1, tr1, digest. split; [exact Eb|]. split; [exact Ep|].
  unfold complete_op. cbn [Journal.run].
  destruct (Journal.Complete _ _ _ _ _ _ _) as [[[j2 d2] tr2] [digest2|err]] eqn:Ec;
    injection H as <- <- <- <-; do 2 eexists; (split; [reflexivity|]); split; reflexivity.
Qed.

(** A verification request never runs a backend. *)
Lemma Handle_verification publish os1 os2 m d e m' d' effects r :
  Handle publish os1 os2 m d e = (m', d', effects, r) -> SchemaVersion e <> CommandLeaseSchema ->
  journal m' = journal m /\ d' = d
  /\ Forall (fun f => match f with
                      | Executed _ _ => False
                      | Observed _ => True
                      | Published p _ => SchemaVersion p = VerificationObservationSchema
                      end) effects.
Proof.
  unfold Handle, handleVerification. intros H Hs. apply String.eqb_neq in Hs. rewrite Hs in H.
  repeat case_match; simplify_eq; (split; [reflexivity|]); (split; [reflexivity|]); repeat constructor.
Qed.

(** ** Properties *)

(** Wherever the machine stops, a restart would load a record of the lease. *)
Definition recorded (j : Journal.journal) (d : dir) (lease : CommandLease) (P : Journal.CommandRecord -> Prop) : Prop :=
  forall c, survives d c -> exists rs record, Journal.load (Journal.hostID j) c = Ok rs
  /\ rs !! Journal.recordKey (cl_CommandID lease) (cl_AttemptIndex lease) = Some record
  /\ Journal.CommandID record = cl_CommandID lease /\ Journal.AttemptIndex record = cl_AttemptIndex lease
  /\ Journal.CommandDigest record = sha256_hex (cl_CommandPayload lease)
  /\ Journal.TargetID record = cl_TargetResourceID lease
  /\ P record.

(** What the operations on the lease's record assume: a journal in step with
    its directory, and a temporary name and a file of its own for the record *)
Definition journal_ready (os : os_env) (j : Journal.journal) (d : dir) (lease : CommandLease) : Prop :=
  Journal.journal_ok j d /\ Journal.temp_name_ok os /\ Journal.op_ascii (prepare_op lease)
  /\ Journal.own_file j (Journal.op_key (prepare_op lease)).

Lemma prepared_records os j d lease j1 d1 tr digest : journal_ready os j d lease ->
  sha256_hex (cl_CommandPayload lease) = cl_CommandPayloadDigest lease ->
  Journal.run os j d (prepare_op lease) = (j1, d1, tr, Ok digest) ->
  Journal.journal_ok j1 d1 /\ Journal.hostID j1 = Journal.hostID j
  /\ recorded j d1 lease (fun record => digest = Journal.recordDigest record).
Proof.
  intros (Hok & Htmp & Ha & Hown) Hd E.
  pose proof (Journal.run_Ok_journal_ok _ _ _ _ _ _ _ _ Hok Htmp Ha Hown E) as Hok1.
  assert (Journal.hostID j1 = Journal.hostID j) as Hh.
  { cbn [Journal.run prepare_op] in E. unfold Journal.Prepare, Journal.record_durably in E.
    repeat case_match; by simplify_eq. }
  split; [done|]. split; [done|]. apply Journal.run_Ok in E as (_ & record & Hr & Hm & ->).
  intros c Hc'. exists (Journal.records j1), record. rewrite <- Hh. destruct Hm as (? & ? & ? & ?).
  split; [by apply (Journal.jok_durable _ _ Hok1)|]. repeat split; try done. congruence.
Qed.

Lemma prepared_own os j d lease j1 d1 tr digest : journal_ready os j d lease ->
  Journal.run os j d (prepare_op lease) = (j1, d1, tr, Ok digest) ->
  Journal.own_file j1 (Journal.op_key (prepare_op lease)).
Proof.
  intros (_ & _ & _ & Hown) E. cbn [Journal.run prepare_op Journal.op_key] in *.
  assert (Journal.records j1 = Journal.records j \/ exists x, Journal.records j1
    = <[Journal.recordKey (cl_CommandID lease) (cl_AttemptIndex lease) := x]> (Journal.records j)) as Hj.
  { unfold Journal.Prepare, Journal.record_durably in E. repeat case_match; simplify_eq; eauto. }
  intros k Hk. destruct Hj as [Hj|[x Hj]]; rewrite Hj in Hk; [by apply Hown|].
  destruct (decide (k = Journal.recordKey (cl_CommandID lease) (cl_AttemptIndex lease))) as [->|Hne]; [done|].
  rewrite lookup_insert_ne in Hk by done. by apply Hown.
Qed.

Lemma sha256_ascii s : ascii_text (sha256_hex s).
Proof.
  unfold ascii_text. eapply Forall_impl; [apply sha256_hex_chars|]. intros c. unfold hex_char. cbn. lia.
Qed.

Lemma completed_records os j d lease answer j2 d2 tr digest P :
  Journal.journal_ok j d -> Journal.temp_name_ok os -> ascii_text (br_Outcome answer) ->
  Journal.own_file j (Journal.op_key (prepare_op lease)) -> recorded j d lease P ->
  Journal.run os j d (complete_op lease answer) = (j2, d2, tr, Ok digest) ->
  recorded j d2 lease (fun record => Journal.State record = "COMPLETED"%string
    /\ Journal.ResultDigest record = sha256_hex (marshal (br_Result answer))
    /\ Journal.Outcome record = br_Outcome answer).
Proof.
  intros Hok Htmp Ho Hown Hrec E. destruct (Hrec _ (survives_current d)) as (rs & record & Hl & Hr & H1 & H2 & H3 & H4 & _).
  pose proof (Journal.jok_durable _ _ Hok _ (survives_current d)) as Hl'. unfold Journal.load in Hl. rewrite Hl' in Hl. injection Hl as <-.
  assert (Journal.op_ascii (complete_op lease answer)) as Ha by (split; [apply sha256_ascii|done]).
  pose proof (Journal.run_Ok_journal_ok _ _ _ (complete_op lease answer) _ _ _ _ Hok Htmp Ha Hown E) as Hok2.
  assert (Journal.hostID j2 = Journal.hostID j) as Hh.
  { cbn [Journal.run complete_op] in E. unfold Journal.Complete, Journal.record_durably in E.
    repeat case_match; by simplify_eq. }
  pose proof (Journal.run_evolves os j d (complete_op lease answer) _ record Hr) as He. rewrite E in He.
  destruct He as (r' & Hr' & _ & _ & ? & ? & ? & ? & _).
  apply Journal.run_Ok in E as (_ & r'' & Hr'' & Hm & _). cbn [Journal.op_key complete_op] in Hr''.
  rewrite Hr' in Hr''. injection Hr'' as <-. intros c Hc'. exists (Journal.records j2), r'. rewrite <- Hh.
  split; [by apply (Journal.jok_durable _ _ Hok2)|]. repeat split; try congruence; apply Hm.
Qed.

(** What the module makes of a lease's backend, once it has accepted the lease *)
Definition execute_of (m : module) (lease : CommandLease) : BackendResult :=
  match backends m !! backend_key (cl_CommandType lease) (cl_CommandSchemaVersion lease) with
  | Some backend => execute backend lease
  | None => uncertain lease
  end.

(** C5: write before execute: a backend runs only for a lease that was decoded
    from the envelope, names this Host and this session and whose payload has
    the digest it claims, and only once a restart from the journal's directory
    would load a record of that command, attempt, payload digest and target,
    whenever the machine stops. *)
Theorem backend_runs_on_durable_evidence publish os1 os2 m d e m' d' effects r lease d1 :
  journal_ready os1 (journal m) d lease ->
  Handle publish os1 os2 m d e = (m', d', effects, r) -> Executed lease d1 ∈ effects ->
  accepts m e lease /\ recorded (journal m) d1 lease (fun _ => True).
Proof.
  intros Hready H Hin. destruct (String.eqb_spec (SchemaVersion e) CommandLeaseSchema) as [Hs|Hs].
  - destruct (Handle_lease _ _ _ _ _ _ _ _ _ _ H Hs) as [->|(l & [_ Hl _ (backend & j1 & d0 & tr1 & digest & _ & Hp & tr2 & c & Hc & Hr)])];
      [by apply elem_of_nil in Hin|].
    assert (lease = l /\ d1 = d0) as [-> ->].
    { destruct c; destruct Hr as [-> _]; apply elem_of_cons in Hin as [[= -> ->]|Hin]; try done;
        [apply list_elem_of_singleton in Hin|apply elem_of_nil in Hin]; done. }
    split; [done|]. destruct (prepared_records _ _ _ _ _ _ _ _ Hready (acc_digest _ _ _ Hl) Hp)
      as (_ & _ & Hrec).
    intros cr Hcr. destruct (Hrec cr Hcr) as (rs & record & H1 & H2 & H3 & H4 & H5 & H6 & _). exists rs, record. auto 10.
  - destruct (Handle_verification _ _ _ _ _ _ _ _ _ _ H Hs) as (_ & _ & Hf).
    rewrite Forall_forall in Hf. by apply Hf in Hin.
Qed.

(** What the theorem below asks of the leases the module may accept: the
    journal is in step with its directory, and the backend's outcome is ASCII *)
Definition result_ready (os : os_env) (m : module) (d : dir) (e : Envelope) : Prop := forall lease,
  accepts m e lease -> journal_ready os (journal m) d lease /\ ascii_text (br_Outcome (execute_of m lease)).


(** Anything short of an accepted lease leaves the module alone. *)
Lemma Handle_refused publish os1 os2 m d e lease : Stream e = StreamCommand ->
  SchemaVersion e = CommandLeaseSchema -> DecodeCommandLease (Payload e) = Ok lease ->
  ~ accepts m e lease -> exists err, Handle publish os1 os2 m d e = (m, d, [], Err err).
Proof.
  intros Hst Hs Hd Hn. unfold Handle. rewrite Hst, Hs, Hd.
  change (StreamCommand !=s StreamCommand) with false.
  change (CommandLeaseSchema ==s VerificationRequestSchema) with false.
  change (CommandLeaseSchema !=s CommandLeaseSchema) with false. cbv iota zeta.
  destruct (_ || _ || _ || _) eqn:Eg; [by eexists|].
  destruct (sha256_hex (cl_CommandPayload lease) !=s cl_CommandPayloadDigest lease) eqn:Eh; [by eexists|].
  bools. destruct Hn. by split.
Qed.

(** What the module does with a lease it accepts, when the journal writes. *)
Lemma Handle_accepted publish os1 os2 m d e lease backend j1 d1 tr1 digest j2 d2 tr2 digest2 :
  Stream e = StreamCommand -> SchemaVersion e = CommandLeaseSchema -> accepts m e lease ->
  backends m !! backend_key (cl_CommandType lease) (cl_CommandSchemaVersion lease) = Some backend ->
  Journal.run os1 (journal m) d (prepare_op lease) = (j1, d1, tr1, Ok digest) ->
  Journal.run os2 j1 d1 (complete_op lease (execute backend lease)) = (j2, d2, tr2, Ok digest2) ->
  let message := result_message m e (command_result m lease digest (execute backend lease)) in
  Handle publish os1 os2 m d e
  = (m <| sealed := true |> <| journal := j2 |>, d2, [Executed lease d1; Published message d2], publish message).
Proof.
  cbn [Journal.run prepare_op complete_op].
  intros Hst Hs [Hd H1 H2 H3 H4 H5] Hb Hp Hc. unfold Handle. rewrite Hst, Hs, Hd.
  change (StreamCommand !=s StreamCommand) with false.
  change (CommandLeaseSchema ==s VerificationRequestSchema) with false.
  change (CommandLeaseSchema !=s CommandLeaseSchema) with false.
  assert ((cl_HostID lease !=s hostID m) || (HostIdentity e !=s hostID m)
    || (u64 (cl_SessionGeneration lease) !=z SessionGeneration e) || (cl_CommandID lease !=s CorrelationKey e)
    = false) as -> by (rewrite H1, H2, H3, H4, !String.eqb_refl, Z.eqb_refl; done).
  assert ((sha256_hex (cl_CommandPayload lease) !=s cl_CommandPayloadDigest lease) = false) as ->
    by (rewrite H5, String.eqb_refl; done).
  cbv iota zeta.
  change (backends (m <| sealed := true |>)) with (backends m). rewrite Hb.
  change (journal (m <| sealed := true |>)) with (journal m). rewrite Hp, Hc. reflexivity.
Qed.

(** The record a lease's first run leaves *)
Definition started_record (j : Journal.journal) (lease : CommandLease) : Journal.CommandRecord :=
  Journal.started (Journal.hostID j) (cl_CommandID lease) (cl_AttemptIndex lease) (cl_CommandPayloadDigest lease)
    (cl_TargetResourceID lease).
Definition completed_record (j : Journal.journal) (lease : CommandLease) (answer : BackendResult) :
  Journal.CommandRecord :=
  Journal.completed (started_record j lease) (result_digest answer) (br_Outcome answer).

Lemma first_run os1 os2 j d lease answer j1 d1 tr1 digest j2 d2 tr2 digest2 :
  Journal.records j !! Journal.recordKey (cl_CommandID lease) (cl_AttemptIndex lease) = None ->
  Journal.run os1 j d (prepare_op lease) = (j1, d1, tr1, Ok digest) ->
  Journal.run os2 j1 d1 (complete_op lease answer) = (j2, d2, tr2, Ok digest2) ->
  digest = Journal.recordDigest (started_record j lease)
  /\ Journal.closed j2 = false
  /\ Journal.records j2 !! Journal.recordKey (cl_CommandID lease) (cl_AttemptIndex lease)
     = Some (completed_record j lease answer).
Proof.
  intros Hnone Hp Hc. cbn [Journal.run prepare_op complete_op] in Hp, Hc.
  unfold Journal.Prepare in Hp. destruct (_ || _ || _ || _) in Hp; [done|].
  destruct (Journal.closed j) eqn:Hcl; [done|]. rewrite Hnone in Hp. unfold Journal.record_durably in Hp.
  destruct (Journal.persist _ _ _ _) as [[? ?] [?|?]]; [|done]. injection Hp as <- <- <- <-.
  split; [done|]. unfold Journal.Complete in Hc. destruct (_ || _) in Hc; [done|]. cbn in Hc.
  rewrite Hcl, lookup_insert_eq in Hc. cbn in Hc. unfold Journal.record_durably in Hc.
  destruct (Journal.persist _ _ _ _) as [[? ?] [?|?]]; [|done]. injection Hc as <- <- <- <-.
  cbn. split; [done|]. by rewrite lookup_insert_eq.
Qed.

(** Both journal operations find their work done. *)
Lemma second_run os j d lease answer record : Journal.closed j = false ->
  Journal.records j !! Journal.recordKey (cl_CommandID lease) (cl_AttemptIndex lease) = Some record ->
  Journal.matches record (prepare_op lease) -> Journal.matches record (complete_op lease answer) ->
  cl_CommandID lease <> ""%string -> 1 <= cl_AttemptIndex lease -> len (cl_CommandPayloadDigest lease) = 64 ->
  cl_TargetResourceID lease <> ""%string -> In (br_Outcome answer) ["SUCCEEDED"; "FAILED"; "UNKNOWN"]%string ->
  Journal.run os j d (prepare_op lease) = (j, d, [], Ok (Journal.recordDigest record))
  /\ Journal.run os j d (complete_op lease answer) = (j, d, [], Ok (Journal.recordDigest record)).
Proof.
  intros Hcl Hr (M1 & M2 & M3 & M4) (M5 & M6 & M7) H1 H2 H3 H4 H5.
  cbn [Journal.run prepare_op complete_op]. unfold Journal.Prepare, Journal.Complete.
  apply String.eqb_neq in H1, H4. rewrite H1, H3, H4, (proj2 (Z.ltb_ge _ _)) by lia.
  unfold result_digest in *. rewrite sha256_hex_length, Hcl, Hr, M1, M2, M3, M4, M5, M6, M7. cbn.
  rewrite !String.eqb_refl, Z.eqb_refl. cbn.
  destruct H5 as [<-|[<-|[<-|[]]]]; split; reflexivity.
Qed.

Lemma decoded_lease_checked payload lease : DecodeCommandLease payload = Ok lease ->
  cl_CommandID lease <> ""%string /\ 1 <= cl_AttemptIndex lease /\ len (cl_CommandPayloadDigest lease) = 64
  /\ cl_TargetResourceID lease <> ""%string /\ cl_LeaseToken lease <> ""%string /\ cl_HostID lease <> ""%string.
Proof.
  unfold DecodeCommandLease, check_CommandLease. intros H. run_guards. subst. repeat split; try done; lia.
Qed.

Lemma completed_outcome os j d lease answer j2 d2 tr digest :
  Journal.run os j d (complete_op lease answer) = (j2, d2, tr, Ok digest) ->
  In (br_Outcome answer) ["SUCCEEDED"; "FAILED"; "UNKNOWN"]%string.
Proof.
  cbn [Journal.run complete_op]. unfold Journal.Complete.
  destruct (String.eqb_spec (br_Outcome answer) "SUCCEEDED") as [->|]; [left; done|].
  destruct (String.eqb_spec (br_Outcome answer) "FAILED") as [->|]; [right; left; done|].
  destruct (String.eqb_spec (br_Outcome answer) "UNKNOWN") as [->|]; [right; right; left; done|].
  cbn. by rewrite orb_true_r.
Qed.

(** The Result of a lease's first run *)
Definition first_result (m : module) (lease : CommandLease) : CommandResult :=
  command_result m lease (Journal.recordDigest (started_record (journal m) lease)) (execute_of m lease).

Lemma Handle_first publish os1 os2 m d e m1 d1 lease da p r :
  Journal.records (journal m) !! Journal.recordKey (cl_CommandID lease) (cl_AttemptIndex lease) = None ->
  Handle publish os1 os2 m d e = (m1, d1, [Executed lease da; Published p d1], r) ->
  accepts m e lease /\ p = result_message m e (first_result m lease)
  /\ In (br_Outcome (execute_of m lease)) ["SUCCEEDED"; "FAILED"; "UNKNOWN"]%string.
Proof.
  intros Hnone H. destruct (String.eqb_spec (SchemaVersion e) CommandLeaseSchema) as [Hs|Hs];
    [|by destruct (Handle_verification _ _ _ _ _ _ _ _ _ _ H Hs) as (_ & _ & Hf); inversion Hf].
  destruct (Handle_lease _ _ _ _ _ _ _ _ _ _ H Hs) as
    [|(l & [Hst Hl Hm1 (backend & j1 & d0 & tr1 & digest & Hb & Hp & tr2 & c & Hc & Hr)])]; [done|].
  destruct c as [digest2|]; destruct Hr as [E Er]; [|done]. injection E as -> -> ->.
  destruct (first_run _ _ _ _ _ _ _ _ _ _ _ _ _ _ Hnone Hp Hc) as (-> & _ & _).
  assert (execute_of m l = execute backend l) as E by (unfold execute_of; by rewrite Hb).
  unfold first_result. rewrite E. split; [done|]. split; [done|]. by eapply completed_outcome.
Qed.

(** a lease delivered twice runs its backend twice: the journal answers the
    second delivery from its COMPLETED record, and the second Result goes out
    under the message identity of the first but with the digest of that record
    in place of the STARTED one. *)
Theorem redelivered_lease_runs_again publish os1 os2 os3 os4 m d e m1 d1 lease da p r d2 :
  Journal.records (journal m) !! Journal.recordKey (cl_CommandID lease) (cl_AttemptIndex lease) = None ->
  Handle publish os1 os2 m d e = (m1, d1, [Executed lease da; Published p d1], r) ->
  let answer := execute_of m lease in
  let result digest := result_message m e (command_result m lease digest answer) in
  let p' := result (Journal.recordDigest (completed_record (journal m) lease answer)) in
  p = result (Journal.recordDigest (started_record (journal m) lease))
  /\ Handle publish os3 os4 m1 d2 e = (m1, d2, [Executed lease d2; Published p' d2], publish p')
  /\ MessageID p' = MessageID p.
Proof.
  intros Hnone H. cbv zeta.
  destruct (String.eqb_spec (SchemaVersion e) CommandLeaseSchema) as [Hs|Hs];
    [|by destruct (Handle_verification _ _ _ _ _ _ _ _ _ _ H Hs) as (_ & _ & Hf); inversion Hf].
  destruct (Handle_lease _ _ _ _ _ _ _ _ _ _ H Hs) as
    [|(l & [Hst Hl Hm1 (backend & j1 & d0 & tr1 & digest & Hb & Hp & tr2 & c & Hc & Hr)])]; [done|].
  destruct c as [digest2|]; destruct Hr as [E Er]; [|done]. injection E as -> -> ->.
  assert (execute_of m l = execute backend l) as -> by (unfold execute_of; by rewrite Hb).
  destruct (first_run _ _ _ _ _ _ _ _ _ _ _ _ _ _ Hnone Hp Hc) as (-> & Hcl & Hrec).
  destruct (decoded_lease_checked _ _ (acc_decoded _ _ _ Hl)) as (C1 & C2 & C3 & C4 & _).
  assert (forall os, _) as Hagain by
    (intros os; exact (second_run os _ d2 _ _ _ Hcl Hrec
      (conj eq_refl (conj eq_refl (conj eq_refl eq_refl))) (conj eq_refl (conj eq_refl eq_refl))
      C1 C2 C3 C4 (completed_outcome _ _ _ _ _ _ _ _ _ Hc))).
  split; [reflexivity|]. split; [|unfold result_message, command_result; cbn [correlate NewEnvelope MessageID cr_CommandID cr_AttemptIndex]; reflexivity].
  destruct m1 as [h1 j2 v1 b1 s1]. injection Hm1 as -> -> -> ->. cbn [journal] in *.
  assert (accepts (MkModule (hostID m) j2 (verifierDigest m) (backends m) true) e l) as Hl1 by (destruct Hl; by split).
  exact (Handle_accepted publish os3 os4 _ d2 e l backend _ _ _ _ _ _ _ _ Hst Hs Hl1 Hb
    (proj1 (Hagain os3)) (proj2 (Hagain os4))).
Qed.

(** *** A lease of a power command *)

Definition demo_backend : Backend :=
  MkBackend "vm.power" "vm.power/v1"
    (fun _ => Ok (MkBackendResult "SUCCEEDED" (JObj [("power", JStr "RUNNING")]%string) demo_observation)) None None.
Definition demo_module : module :=
  MkModule "host-a" (Journal.MkJournal "host-a" ∅ false) (sha256_hex "verifier")
    {[ backend_key "vm.power" "vm.power/v1" := demo_backend ]} false.
Definition demo_envelope : Envelope :=
  correlate (NewEnvelope "host-a" 2 StreamCommand "command-lease/cmd-1/1" CommandLeaseSchema "command/cmd-1" 1
    (marshal (lease_body demo_lease demo_payload))) "cmd-1".
Definition demo_publish : Envelope -> res unit := fun _ => Ok tt.
Definition demo_os (n : string) : os_env := healthy (".tmp-" ++ n)%string.

Definition demo_run : module * dir * list effect * res unit :=
  Handle demo_publish (demo_os "1") (demo_os "2") demo_module ∅ demo_envelope.
Definition ran_in (effects : list effect) : dir := match effects with Executed _ d :: _ => d | _ => ∅ end.
Definition sent_by (effects : list effect) : Envelope :=
  match effects with [_; Published p _] => p | _ => zero_envelope end.
Definition demo_ran : dir := ran_in (snd (fst demo_run)).
Definition demo_sent : Envelope := sent_by (snd (fst demo_run)).

Definition demo_after : module := fst (fst (fst demo_run)).
Definition demo_dir : dir := snd (fst (fst demo_run)).

Lemma demo_run_shape :
  Handle demo_publish (demo_os "1") (demo_os "2") demo_module ∅ demo_envelope
  = (demo_after, demo_dir, [Executed demo_lease demo_ran; Published demo_sent demo_dir], Ok tt).
Proof. vm_cast_no_check (eq_refl demo_run). Qed.

#[local] Opaque demo_run demo_after demo_dir demo_ran demo_sent.

Lemma demo_ready : journal_ready (demo_os "1") (journal demo_module) ∅ demo_lease.
Proof.
  split; [|split; [|split]].
  - split; [|apply map_Forall_empty|ascii_literal].
    apply (durably_clean (Journal.load_entry _) Journal.key_of); [vm_compute; reflexivity|by intros ? ? ?%lookup_empty_Some].
  - split; vm_compute; reflexivity.
  - split; [vm_compute; split; congruence|]. split_and!; ascii_literal.
  - intros k [r Hr] _. vm_compute in Hr. discriminate Hr.
Qed.

Lemma backend_runs_on_durable_evidence_witness :
  accepts demo_module demo_envelope demo_lease
  /\ recorded (journal demo_module) demo_ran demo_lease (fun _ => True).
Proof.
  apply (backend_runs_on_durable_evidence _ _ _ _ _ _ _ _ _ _ _ _ demo_ready demo_run_shape). left.
Defined.

Lemma demo_result_ready : result_ready (demo_os "1") demo_module ∅ demo_envelope.
Proof.
  intros lease [Hd _ _ _ _ _]. assert (DecodeCommandLease (Payload demo_envelope) = Ok demo_lease) as E by (vm_compute; reflexivity).
  rewrite E in Hd. injection Hd as <-. split; [exact demo_ready|ascii_literal].
Qed.

Lemma executed_same l1 d1 l2 d2 fs : Executed l1 d1 :: fs = Executed l2 d2 :: fs -> l1 = l2.
Proof. by intros [=]. Qed.


Lemma redelivered_lease_runs_again_witness :
  exists m1 p', Handle demo_publish (demo_os "3") (demo_os "4") m1 ∅ demo_envelope
    = (m1, ∅, [Executed demo_lease ∅; Published p' ∅], Ok tt)
  /\ MessageID p' = MessageID demo_sent /\ (Payload p' =? Payload demo_sent)%string = false.
Proof.
  destruct (redelivered_lease_runs_again demo_publish (demo_os "1") (demo_os "2") (demo_os "3") (demo_os "4")
    demo_module ∅ demo_envelope demo_after demo_dir demo_lease demo_ran demo_sent (Ok tt) ∅) as (_ & H2 & H3).
  - vm_compute. reflexivity.
  - exact demo_run_shape.
  - do 2 eexists. split; [exact H2|]. split; [exact H3|]. vm_compute. reflexivity.
Defined.
End Exec.
