(* ===== verification/Dispatcher.v ===== *)
(** * execution/dispatcher: a command lease sent straight to the Agent stream

    [Dispatch] grants a lease and sends it as an envelope.  Its two
    transactions meet the tables the other transactions leave: those of the
    candidate and those of the grant are separate arguments.  The payload
    column is jsonb: what PostgreSQL returns for it, [jsonb_text], is a
    parameter of the model. *)

From S2P Require Import Prelude GoStd GoJson OsFiles Envelope GoTime GoFloat GoRaw.
From S2P Require Import Contract ContractProofs ControlDb HostTrust Receipts Execution Verification.
From S2P Require Import ControlFrames CommandSteps.
Local Open Scope Z_scope.
Local Open Scope go_scope.

Section Jsonb.
Context (jsonb_text : json -> bytes).

(** [Dispatcher]; the database and the sender are arguments of the calls. *)
Record Dispatcher := MkDispatcher { LeaseDuration : Z; dsp_ExecutionTimeout : Z }.

Definition zero_grant : CommandLeaseGrant := MkLeaseGrant "" "" 0 0 0 0 "" 0 0 "".

(** [time.Duration.Milliseconds] *)
Definition milliseconds (duration : Z) : Z := Z.quot duration 1000000.

Definition lease_of (dispatcher : Dispatcher) (commandID : string) (candidate : CommandDispatchCandidate)
    (grant : CommandLeaseGrant) : CommandLease :=
  MkCommandLease CommandLeaseSchema commandID (LeaseGeneration grant) (lg_AttemptIndex grant) (lg_HostID grant)
    (lg_HostAuthorityGeneration grant) (lg_SessionGeneration grant) (Token grant) (dc_CommandType candidate)
    (dc_SchemaVersion candidate) (dc_TargetResourceID candidate) (jsonb_text (dc_Payload candidate))
    (dc_PayloadDigest candidate) (milliseconds (dsp_ExecutionTimeout dispatcher)).

Definition command_envelope (host : string) (sessionGeneration : Z) (messageID schema commandID : string)
    (attemptIndex : Z) (payload : bytes) : Envelope :=
  let e := NewEnvelope host (u64 sessionGeneration) StreamCommand messageID schema ("command/" ++ commandID)%string
             (u64 attemptIndex) payload in
  MkEnvelope (HostIdentity e) (SessionGeneration e) (Stream e) (MessageID e) (SchemaVersion e)
    (SequenceScope e) (Sequence e) (ResourceGeneration e) (PayloadDigest e) commandID (Payload e).

(** [Dispatch]: the tables it leaves, the envelope it handed to the sender, and
    the grant and the error it returns *)
Definition Dispatch (send : Envelope -> res unit) (dispatcher : Dispatcher) (now : Z) (tokenBytes : bytes)
    (commandID : string) (d0 d : db) : db * option Envelope * CommandLeaseGrant * option goerr :=
  if (commandID ==s "") || (LeaseDuration dispatcher <=? 0) || (dsp_ExecutionTimeout dispatcher <=? 0)
     || (LeaseDuration dispatcher <=? dsp_ExecutionTimeout dispatcher)
  then (d, None, zero_grant, Some (errors_New "complete bounded dispatcher configuration is required")) else
  match LoadCommandDispatchCandidate commandID d0 with
  | Err err => (d, None, zero_grant, Some err)
  | Ok candidate =>
      match AcquireCommandLease now tokenBytes
              (MkLeaseRequest commandID (dc_HostAuthorityGeneration candidate) (LeaseDuration dispatcher) 0 None "") d with
      | Err err => (d, None, zero_grant, Some err)
      | Ok (d', grant) =>
          match lease_json (lease_of dispatcher commandID candidate grant) with
          | None => (d', None, grant, Some (errors_New "json: error calling MarshalJSON for type json.RawMessage"))
          | Some lease =>
              let envelope := command_envelope (lg_HostID grant) (lg_SessionGeneration grant)
                ("command-lease/" ++ commandID ++ "/" ++ FormatInt (LeaseGeneration grant))%string
                CommandLeaseSchema commandID (lg_AttemptIndex grant) (marshal lease) in
              (d', Some envelope, grant,
               match send envelope with
               | Ok _ => None
               | Err err => Some (Wrapf "dispatch Command Lease with uncertain delivery: %w" [] err)
               end)
          end
      end
  end.

(** [DispatchVerification]: the envelope it handed to the sender *)
Definition request_of (commandID : string) (candidate : CommandVerificationCandidate) : VerificationRequest :=
  MkVerificationRequest VerificationRequestSchema commandID (vc_AttemptIndex candidate) (vc_HostID candidate)
    (vc_SessionGeneration candidate) (vc_CommandType candidate) (vc_SchemaVersion candidate)
    (vc_TargetResourceID candidate) (jsonb_text (vc_Payload candidate)) (vc_PayloadDigest candidate).
Definition DispatchVerification (send : Envelope -> res unit) (commandID : string) (d : db) :
    option Envelope * res unit :=
  if commandID ==s "" then (None, Err (errors_New "verification dispatcher dependencies are required")) else
  match LoadCommandVerificationCandidate commandID d with
  | Err err => (None, Err err)
  | Ok candidate =>
      match request_json (request_of commandID candidate) with
      | None => (None, Err (errors_New "json: error calling MarshalJSON for type json.RawMessage"))
      | Some request =>
          let envelope := command_envelope (vc_HostID candidate) (vc_SessionGeneration candidate)
            ("verification-request/" ++ commandID ++ "/" ++ FormatInt (vc_AttemptIndex candidate))%string
            VerificationRequestSchema commandID (vc_AttemptIndex candidate) (marshal request) in
          (Some envelope, send envelope)
      end
  end.
End Jsonb.
