(* ===== verification/CommandFlow.v ===== *)
(** * A command from the control plane to the backend and back

    The dispatcher of the control plane, the Agent's execution module and the
    gateway's decoders put together: what the Agent makes of a lease the
    dispatcher sent, and what the gateway makes of the Result it publishes. *)

From S2P Require Import Prelude GoStd GoJson OsFiles Envelope Journal GoTime GoFloat GoRaw.
From S2P Require Import Contract ContractProofs ExecModule.
From S2P Require Import ControlDb HostTrust Receipts Execution Verification.
From S2P Require Import ControlFrames CommandSteps LeaseEvents ControlPlane MessageReceiver.
From S2P Require Import ResultFlow Dispatcher.
Local Open Scope Z_scope.
Local Open Scope go_scope.

(** ** The lease on its way out *)

Section Dispatched.
Context (jsonb_text : json -> bytes) (send : Envelope -> res unit) (dispatcher : Dispatcher).
Context (now : Z) (tok : bytes) (d0 d d' : db) (request : ExecutionCommandRequest).
Context (e : Envelope) (grant : CommandLeaseGrant) (err : option goerr) (p : json).
Abbreviation commandID := (ec_CommandID request).

(** The candidate of the command *)
Definition candidate_of : CommandDispatchCandidate :=
  match LoadCommandDispatchCandidate commandID d0 with
  | Ok candidate => candidate
  | Err _ => MkDispatchCandidate "" "" 0 0 "" "" "" JNull ""
  end.
Definition sent_lease : CommandLease := lease_of jsonb_text dispatcher commandID candidate_of grant.

(** Both transactions read the command as [CreateExecutionCommand] made it. *)
Hypothesis created0 : commands d0 !! commandID = Some (command_of request).
Hypothesis created : commands d !! commandID = Some (command_of request).
Hypothesis dispatched : Dispatch jsonb_text send dispatcher now tok commandID d0 d = (d', Some e, grant, err).

Lemma granted_host now' tok' r d1 d2 g c : AcquireCommandLease now' tok' r d1 = Ok (d2, g) ->
  commands d1 !! lr_CommandID r = Some c -> lg_HostID g = cmd_host c.
Proof.
  unfold AcquireCommandLease. intros H Hc.
  apply bind_Ok_inv in H as ([] & _ & H). apply bind_Ok_inv in H as (v & _ & H).
  rewrite Hc in H. cbn [row mbind res_bind] in H. open_tx; done.
Qed.

Lemma dispatched_envelope :
  LoadCommandDispatchCandidate commandID d0 = Ok candidate_of
  /\ dc_Payload candidate_of = ec_Payload request
  /\ dc_PayloadDigest candidate_of = sha256_hex (marshal (ec_Payload request))
  /\ lg_HostID grant = ec_HostID request
  /\ exists text, lease_json sent_lease = Some text
     /\ e = command_envelope (lg_HostID grant) (lg_SessionGeneration grant)
              ("command-lease/" ++ commandID ++ "/" ++ FormatInt (LeaseGeneration grant))%string
              CommandLeaseSchema commandID (lg_AttemptIndex grant) (marshal text).
Proof.
  pose proof dispatched as H. unfold Dispatch in H. unfold sent_lease, candidate_of.
  destruct (_ || _ || _ || _) in H; [done|].
  destruct (LoadCommandDispatchCandidate _ d0) as [candidate|] eqn:El; [|done].
  destruct (AcquireCommandLease _ _ _ d) as [[d1 g]|] eqn:Ea; [|done].
  destruct (lease_json _) as [text|] eqn:Et in H; [|done]. injection H as <- <- <- _.
  unfold LoadCommandDispatchCandidate in El. rewrite created0 in El. cbn [row mbind res_bind] in El.
  apply bind_Ok_inv in El as (st & _ & El). apply bind_Ok_inv in El as (a & _ & El).
  apply bind_Ok_inv in El as ([] & _ & [= El]). split; [done|]. rewrite <- El at 1 2. cbn.
  split; [done|]. split; [done|]. split; [exact (granted_host _ _ _ _ _ _ _ Ea created)|].
  exists text. split; [done|reflexivity].
Qed.

(** The lease the Agent decodes: the one sent, its payload compacted. *)
Definition received_lease : CommandLease := sent_lease <| cl_CommandPayload := marshal p |>.

(** The values are machine integers and ASCII text, the bytes PostgreSQL returns
    for the payload compact to the text of [p], and the lease passes the
    decoder's checks. *)
Hypothesis typed : lease_typed sent_lease.
Hypothesis ascii : lease_ascii sent_lease.
Hypothesis p_plain : plain p.
Hypothesis payload_text : raw_json (jsonb_text (ec_Payload request)) = Some (JNum (marshal p)).
Hypothesis checked : check_CommandLease received_lease = Ok received_lease.

(** C11: the Agent accepts a lease the dispatcher sent it exactly when the bytes
    PostgreSQL returns for the jsonb payload, white space removed, are still
    bytes with the digest the command was created with, that of its payload
    with sorted keys; otherwise it refuses the command without any effect. *)
Theorem dispatched_lease_accepted_iff m :
  Exec.hostID m = ec_HostID request ->
  (Exec.accepts m e received_lease <-> sha256_hex (marshal p) = sha256_hex (marshal (ec_Payload request)))
  /\ (sha256_hex (marshal p) <> sha256_hex (marshal (ec_Payload request)) ->
      forall publish os1 os2 ds, exists refusal,
        Exec.Handle publish os1 os2 m ds e = (m, ds, [], Err refusal)).
Proof.
  intros Hm. destruct dispatched_envelope as (_ & Hpay & Hdig & Hhost & text & Htext & He).
  destruct (lease_text_round_trip sent_lease p typed ascii p_plain) as (text' & Htext' & Hdec).
  { unfold sent_lease, lease_of. cbn [cl_CommandPayload]. by rewrite Hpay. }
  rewrite Htext in Htext'. injection Htext' as <-. fold received_lease in Hdec. rewrite checked in Hdec.
  assert (DecodeCommandLease (Payload e) = Ok received_lease) as Hd by (by rewrite He).
  assert (Exec.accepts m e received_lease
          <-> sha256_hex (marshal p) = sha256_hex (marshal (ec_Payload request))) as Hiff.
  { rewrite <- Hdig. split; [by intros []|]. intros Heq. split; try done.
    - cbn. by rewrite Hhost.
    - rewrite He. cbn. by rewrite Hhost.
    - by rewrite He.
    - by rewrite He. }
  split; [exact Hiff|]. intros Hne publish os1 os2 ds.
  apply (Exec.Handle_refused _ _ _ _ _ _ received_lease); [by rewrite He|by rewrite He|done|]. by rewrite Hiff.
Qed.
End Dispatched.

(** ** The Result on its way back *)

(** What the control plane asks of the answer of a backend *)
Record sound_answer (a : Exec.BackendResult) : Prop := MkSound {
  snd_result : map_value (Exec.br_Result a) /\ plain (Exec.br_Result a);
  snd_evidence : map_value (ob_Evidence (Exec.br_Observation a)) /\ plain (ob_Evidence (Exec.br_Observation a));
  snd_generation : 1 <= ob_Generation (Exec.br_Observation a) <= MaxInt64;
  snd_text : ascii_text (ob_State (Exec.br_Observation a)) /\ ascii_text (ob_Digest (Exec.br_Observation a));
  snd_digest : hex64 (ob_Digest (Exec.br_Observation a)) = true;
}.

Lemma ascii_text_app s t : ascii_text s -> ascii_text t -> ascii_text (s ++ t)%string.
Proof.
  unfold ascii_text. intros Hs Ht. induction s as [|a s IH]; [done|].
  apply Forall_cons in Hs as [Ha Hs]. constructor; [done|]. by apply IH.
Qed.

Lemma ascii_text_int z : ascii_text (FormatInt z).
Proof.
  destruct (number_text_int z) as [_ H]. eapply Forall_impl; [exact H|].
  intros c. destruct c as [[] [] [] [] [] [] [] []]; intros Hc; first [discriminate Hc|vm_compute; reflexivity].
Qed.

Section Returned.
Context (m : Exec.module) (lease : CommandLease).
Abbreviation answer := (Exec.execute_of m lease).
Abbreviation result := (Exec.first_result m lease).

Hypothesis typed : lease_typed lease.
Hypothesis ascii : lease_ascii lease.
Hypothesis sound : sound_answer answer.
Hypothesis verifier : hex64 (Exec.verifierDigest m) = true /\ ascii_text (Exec.verifierDigest m).

Lemma first_result_typed : result_typed result.
Proof.
  destruct typed as (_ & ? & _). destruct sound as [[? _] [? _] ? _ _]. split; [done|]. split; [done|].
  split; [|done]. cbn. unfold is_i64, two63, MaxInt64 in *. lia.
Qed.

Lemma outcome_ascii o : In o ["SUCCEEDED"; "FAILED"; "UNKNOWN"]%string -> ascii_text o.
Proof. intros [<-|[<-|[<-|[]]]]; ascii_literal. Qed.

Lemma first_result_plain : In (Exec.br_Outcome answer) ["SUCCEEDED"; "FAILED"; "UNKNOWN"]%string ->
  plain (result_json result).
Proof.
  intros Ho. destruct sound as [[_ ?] [_ ?] _ [? ?] _]. destruct verifier as [_ ?].
  pose proof ascii as Ha. unfold lease_ascii in Ha. forall_texts Ha. apply result_plain; [|done|done].
  unfold result_ascii, Exec.first_result, Exec.command_result.
  cbn [cr_SchemaVersion cr_CommandID cr_AttemptIndex cr_LeaseToken cr_JournalDigest cr_ResultID cr_Outcome
    cr_Result cr_Observation cr_VerifierDigest].
  constructor; [ascii_literal|]. do 2 (constructor; [done|]). constructor; [apply Exec.sha256_ascii|].
  constructor; [|repeat (constructor; [first [done|by apply outcome_ascii]|]); constructor].
  apply ascii_text_app; [done|]. apply ascii_text_app; [ascii_literal|]. apply ascii_text_int.
Qed.

Lemma first_result_checked : In (Exec.br_Outcome answer) ["SUCCEEDED"; "FAILED"; "UNKNOWN"]%string ->
  cl_CommandID lease <> ""%string -> 1 <= cl_AttemptIndex lease -> cl_LeaseToken lease <> ""%string ->
  check_CommandResult result = Ok result.
Proof.
  intros Ho H1 H2 H3. destruct sound as [_ _ ? _ Hd%hex64_length]. destruct verifier as [Hv%hex64_length _].
  assert (len (Journal.recordDigest (Exec.started_record (Exec.journal m) lease)) = 64) as Hj
    by apply sha256_hex_length.
  unfold check_CommandResult, Exec.first_result, Exec.command_result.
  cbn [cr_SchemaVersion cr_CommandID cr_AttemptIndex cr_LeaseToken cr_JournalDigest cr_ResultID cr_Outcome
    cr_Result cr_Observation cr_VerifierDigest].
  assert ((cl_CommandID lease ++ "-result-" ++ FormatInt (cl_AttemptIndex lease) =? "")%string = false) as ->
    by (destruct (cl_CommandID lease) eqn:Ec; [congruence|reflexivity]).
  rewrite String.eqb_refl. known_tests. cbn [orb negb fail_if mbind res_bind].
  destruct Ho as [<-|[<-|[<-|[]]]]; reflexivity.
Qed.
End Returned.

(** What the Agent published is, for the gateway, a readable and well-formed
    message of the lease's own Result. *)
Lemma published_message_trusted m e lease maxMessageBytes d :
  let p := Exec.result_message m e (Exec.first_result m lease) in
  Exec.accepts m e lease -> lease_typed lease -> lease_ascii lease -> sound_answer (Exec.execute_of m lease) ->
  hex64 (Exec.verifierDigest m) = true /\ ascii_text (Exec.verifierDigest m) ->
  In (Exec.br_Outcome (Exec.execute_of m lease)) ["SUCCEEDED"; "FAILED"; "UNKNOWN"]%string ->
  (exists command, commands d !! cl_CommandID lease = Some command /\ cmd_host command = cl_HostID lease) ->
  (exists g, current_session (cl_HostID lease) d = Some g /\ SessionGeneration e = u64 g /\ 1 <= g <= MaxInt64) ->
  new_message p d -> 1 <= maxMessageBytes -> len (Payload p) <= maxMessageBytes ->
  DecodeCommandResult (Payload p) = Ok (Exec.first_result m lease)
  /\ trusted_message maxMessageBytes d p (Exec.first_result m lease).
Proof.
  cbv zeta. intros Hl Ht Ha Hs Hv Ho (command & Hc & Hh) (g & Hg & Hsg & Hg1) Hn H1 Hlen.
  destruct (Exec.decoded_lease_checked _ _ (Exec.acc_decoded _ _ _ Hl)) as (C1 & C2 & C3 & C4 & C5 & C6).
  pose proof (first_result_checked m lease Hs Hv Ho C1 C2 C5) as Hk.
  pose proof (Exec.acc_host _ _ _ Hl) as Eh.
  assert (u64 (cl_AttemptIndex lease) = cl_AttemptIndex lease /\ cl_AttemptIndex lease <= MaxInt64) as [Eu Hm].
  { destruct Ht as (_ & Hi & _). unfold is_i64, two63 in Hi. split; [|unfold MaxInt64; lia].
    apply u64_id. unfold is_u64, two64. lia. }
  split.
  { change (Payload _) with (marshal (result_json (Exec.first_result m lease))).
    unfold DecodeCommandResult. rewrite (decodeStrict_marshal _ _ _ (Exec.first_result m lease)).
    - exact Hk.
    - by apply first_result_plain.
    - by apply decode_result, first_result_typed. }
  destruct Hs as [_ _ _ _ Hd], Hv as [Hv _]. split.
  - apply Validate_iff. unfold well_formed, Exec.result_message, Exec.message_id, Exec.command_scope.
    cbn [Exec.correlate NewEnvelope HostIdentity MessageID SchemaVersion SequenceScope SessionGeneration Stream
      Payload PayloadDigest]. rewrite <- Eh, Hsg, u64_id by (unfold is_u64, two64, MaxInt64 in *; lia).
    split_and!; try discriminate; try done; [lia|right; right; by left].
  - done.
  - done.
  - split; [exact Eu|done].
  - exists command. split; [done|]. rewrite Hh. exact Eh.
  - exists g. cbn [Exec.result_message Exec.correlate HostIdentity NewEnvelope SessionGeneration].
    rewrite <- Eh. split_and!; [done|done|lia].
  - done.
  - split_and!; [apply hex64_sha256|done|done].
Qed.


(** ** A payload of two members *)

#[local] Opaque demo_armed demo_created demo_leased.

Definition demo_dispatcher : Dispatcher := MkDispatcher 60000000000 30000000000.
Definition demo_send : Envelope -> res unit := fun _ => Ok tt.

(** A jsonb text with the shorter member names first *)
Definition by_length (j : json) : bytes :=
  marshal (match j with
           | JObj ms => JObj (sort_Slice (less_on Z.ltb (fun m => len (fst m))) ms)
           | _ => j
           end).

Definition demo_payload : json := JObj [("desired_state", JStr "READY"); ("size", JStr "10")]%string.
Definition demo_reordered : json := JObj [("size", JStr "10"); ("desired_state", JStr "READY")]%string.
Definition demo_request : ExecutionCommandRequest :=
  MkCommandRequest "job-2" "command-2" "host-1" "VOLUME" "volume-2" 1 "TYPE" "schema/v1" "volume-2" demo_payload.
Definition demo_tables : db := run [(8, CreateCommand demo_request)] demo_armed.
#[local] Opaque demo_tables.

Definition demo_sent (text : json -> bytes) (commandID : string) (d : db) :=
  Dispatch text demo_send demo_dispatcher 9 demo_token commandID d d.
Definition sent_envelope (text : json -> bytes) (commandID : string) (d : db) : Envelope :=
  default zero_envelope (snd (fst (fst (demo_sent text commandID d)))).
Definition sent_grant (text : json -> bytes) (commandID : string) (d : db) : CommandLeaseGrant :=
  snd (fst (demo_sent text commandID d)).

Lemma sent_shape text commandID d :
  bool_decide (is_Some (snd (fst (fst (demo_sent text commandID d))))) = true ->
  exists d' err, demo_sent text commandID d = (d', Some (sent_envelope text commandID d), sent_grant text commandID d, err).
Proof.
  unfold sent_envelope, sent_grant. destruct (demo_sent _ _ _) as [[[d' [e|]] g] err]; [eauto|done].
Qed.

(** The Agent refuses it under any journal, and any backends. *)
Lemma dispatched_lease_accepted_iff_witness :
  is_Some (snd (fst (fst (demo_sent by_length "command-2" demo_tables))))
  /\ forall m, Exec.hostID m = "host-1"%string -> forall publish os1 os2 ds, exists refusal,
       Exec.Handle publish os1 os2 m ds (sent_envelope by_length "command-2" demo_tables)
       = (m, ds, [], Err refusal).
Proof.
  destruct (sent_shape by_length "command-2" demo_tables) as (d' & err & E); [vm_compute; reflexivity|].
  split; [rewrite E; eexists; reflexivity|]. intros m Hm.
  assert (commands demo_tables !! "command-2"%string = Some (command_of demo_request)) as Hc
    by (vm_compute; reflexivity).
  destruct (dispatched_lease_accepted_iff by_length demo_send demo_dispatcher 9 demo_token demo_tables demo_tables d'
    demo_request (sent_envelope by_length "command-2" demo_tables) (sent_grant by_length "command-2" demo_tables)
    err demo_reordered Hc Hc E) with (m := m) as [_ H].
  - unfold lease_typed, is_i64. repeat split; vm_compute; congruence.
  - unfold lease_ascii. repeat (constructor; [ascii_literal|]). constructor.
  - unfold demo_reordered. plain_members.
  - vm_compute. reflexivity.
  - vm_compute. reflexivity.
  - exact Hm.
  - apply H. intros C. vm_compute in C. discriminate C.
Defined.

(** ** A command carried out *)

Definition demo_backend : Exec.Backend :=
  Exec.MkBackend "TYPE" "schema/v1"
    (fun _ => Ok (Exec.MkBackendResult "SUCCEEDED" (JObj []) (MkObservation "MATCHED" demo_digest 1 (JObj []))))
    None None.
Definition demo_agent : Exec.module :=
  Exec.MkModule "host-1" (Journal.MkJournal "host-1" ∅ false) demo_digest
    {[ Exec.backend_key "TYPE" "schema/v1" := demo_backend ]} false.

Definition demo_dispatched : db := run [(9, AcquireLease demo_token
  (MkLeaseRequest "command-1" 1 60000000000 0 None ""))] demo_created.

Definition demo_envelope : Envelope := Eval vm_compute in sent_envelope marshal "command-1" demo_created.
Definition demo_run : Exec.module * dir * list Exec.effect * res unit :=
  Exec.Handle demo_send (healthy ".tmp-1") (healthy ".tmp-2") demo_agent ∅ demo_envelope.
Definition demo_received : CommandLease :=
  match DecodeCommandLease (Payload demo_envelope) with Ok lease => lease | Err _ => zero_lease end.
Definition ran_in (effects : list Exec.effect) : dir :=
  match effects with Exec.Executed _ d :: _ => d | _ => ∅ end.
Definition published_by (effects : list Exec.effect) : Envelope :=
  match effects with [_; Exec.Published p _] => p | _ => zero_envelope end.
Definition ran_at : dir := ran_in (snd (fst demo_run)).
Definition demo_published : Envelope := published_by (snd (fst demo_run)).

Lemma demo_dispatched_reachable : reachable demo_dispatched.
Proof. apply reachable_run, demo_created_reachable. Qed.
#[local] Opaque demo_dispatched.

Lemma demo_flow_shape : demo_run = (fst (fst (fst demo_run)), snd (fst (fst demo_run)),
  [Exec.Executed demo_received ran_at; Exec.Published demo_published (snd (fst (fst demo_run)))], snd demo_run).
Proof. vm_cast_no_check (eq_refl demo_run). Qed.

Lemma demo_dispatched_job : plain_job "command-1" demo_dispatched.
Proof.
  intros command job Hc Hj.
  assert (option_map cmd_job (commands demo_dispatched !! "command-1"%string) = Some "job-1"%string) as Ec
    by (vm_compute; reflexivity).
  assert (option_map job_resource_type (jobs demo_dispatched !! "job-1"%string) = Some "VOLUME"%string) as Ej
    by (vm_compute; reflexivity).
  rewrite Hc in Ec. injection Ec as Ec. rewrite Ec in Hj. rewrite Hj in Ej. injection Ej as Ej.
  rewrite Ej. discriminate.
Qed.

