(* ===== verification/Outbound.v ===== *)
(** * gateway/outbound_registry.go: the live streams of a Gateway

    At most one stream per Host, of the highest session generation registered;
    a sink is a function of the envelope. *)

From S2P Require Import Prelude GoStd GoJson Envelope.
Local Open Scope Z_scope.
Local Open Scope go_scope.

Definition ErrNoCurrentAgentSession : goerr := errors_New "no current Agent transport session".
Definition ErrStaleOutboundSession : goerr := errors_New "outbound Agent session generation is stale".

Record registeredSink := MkSink { generation : Z; connectionID : string; sink : Envelope -> res unit }.

Abbreviation OutboundRegistry := (gmap string registeredSink).
Definition NewOutboundRegistry : OutboundRegistry := ∅.

(** [Register]; the function it returns is [unregister] of its arguments. *)
Definition Register (registry : OutboundRegistry) (hostID : string) (gen : Z) (connection : string)
    (send : option (Envelope -> res unit)) : OutboundRegistry * res unit :=
  match send with
  | None => (registry, Err (errors_New "complete outbound Agent session identity is required"))
  | Some send =>
      if (hostID ==s "") || (gen =? 0) || (connection ==s "")
      then (registry, Err (errors_New "complete outbound Agent session identity is required")) else
      match registry !! hostID with
      | Some current =>
          if gen <=? generation current then (registry, Err ErrStaleOutboundSession)
          else (<[hostID := MkSink gen connection send]> registry, Ok tt)
      | None => (<[hostID := MkSink gen connection send]> registry, Ok tt)
      end
  end.

Definition unregister (registry : OutboundRegistry) (hostID : string) (gen : Z) (connection : string) :
    OutboundRegistry :=
  match registry !! hostID with
  | Some current =>
      if (generation current =? gen) && (connectionID current ==s connection) then delete hostID registry
      else registry
  | None => registry
  end.

(** [Send], with what the sink was handed *)
Definition Send (registry : OutboundRegistry) (hostID : string) (gen : Z) (e : Envelope) :
    option (registeredSink * Envelope) * res unit :=
  match registry !! hostID with
  | None => (None, Err ErrNoCurrentAgentSession)
  | Some current =>
      if (generation current !=z gen) || (HostIdentity e !=s hostID) || (SessionGeneration e !=z gen)
      then (None, Err ErrStaleOutboundSession)
      else (Some (current, e), sink current e)
  end.

(** ** Properties *)

(** What happens to a registry, in any order. *)
Inductive registry_op :=
| OpRegister (hostID : string) (gen : Z) (connection : string) (send : option (Envelope -> res unit))
| OpUnregister (hostID : string) (gen : Z) (connection : string).

Definition registry_step (registry : OutboundRegistry) (o : registry_op) : OutboundRegistry :=
  match o with
  | OpRegister h g c s => fst (Register registry h g c s)
  | OpUnregister h g c => unregister registry h g c
  end.
Definition registry_run (registry : OutboundRegistry) (ops : list registry_op) : OutboundRegistry :=
  foldl registry_step registry ops.

(** An operation that ends this registration by name. *)
Definition ends (hostID : string) (s : registeredSink) (o : registry_op) : bool :=
  match o with
  | OpUnregister h g c => (h ==s hostID) && (g =? generation s) && (c ==s connectionID s)
  | OpRegister _ _ _ _ => false
  end.

Lemma registry_step_keeps registry o h s : registry !! h = Some s -> ends h s o = false ->
  exists s', registry_step registry o !! h = Some s' /\ (s' = s \/ generation s < generation s').
Proof.
  intros Hs He. destruct o as [h' g c snd|h' g c]; cbn [registry_step ends] in *.
  - unfold Register. destruct snd as [snd|]; [|eauto]. destruct (_ || _ || _) in |- *; [eauto|].
    destruct (decide (h' = h)) as [->|Hne].
    + rewrite Hs. destruct (Z.leb_spec g (generation s)); [eauto|]. cbn [fst]. rewrite lookup_insert_eq.
      eexists. split; [done|]. by right.
    + destruct (registry !! h') as [x|]; [destruct (g <=? generation x)|]; cbn [fst];
        rewrite ?lookup_insert_ne by done; eauto.
  - unfold unregister. destruct (decide (h' = h)) as [->|Hne].
    + rewrite Hs. rewrite String.eqb_refl in He. cbn in He.
      destruct ((generation s =? g) && (connectionID s ==s c)) eqn:E; [|eauto]. apply andb_prop in E as [E1 E2].
      apply Z.eqb_eq in E1. apply String.eqb_eq in E2. subst. by rewrite Z.eqb_refl, String.eqb_refl in He.
    + destruct (registry !! h') as [x|]; [destruct ((generation x =? g) && (connectionID x ==s c))|]; rewrite ?lookup_delete_ne by done; eauto.
Qed.

(** a live stream is only replaced by a later one: whatever registrations and
    clean-ups of other sessions happen, in any order, a Host that has a stream
    keeps it or gets one of a higher generation, until the clean-up of that
    very session and connection runs. *)
Theorem newer_stream_survives registry ops h s : registry !! h = Some s ->
  (forall s' o, s' = s \/ generation s < generation s' -> o ∈ ops -> ends h s' o = false) ->
  exists s', registry_run registry ops !! h = Some s' /\ (s' = s \/ generation s < generation s').
Proof.
  assert (forall s0, s0 = s \/ generation s < generation s0 -> registry !! h = Some s0 ->
    (forall s' o, s' = s \/ generation s < generation s' -> o ∈ ops -> ends h s' o = false) ->
    exists s', registry_run registry ops !! h = Some s' /\ (s' = s \/ generation s < generation s')) as Hgen;
    [|intros Hs; by apply (Hgen s); [left|]].
  revert registry. induction ops as [|o ops IH]; intros registry s0 H0 Hs He; [eauto|].
  destruct (registry_step_keeps registry o h s0 Hs) as (s1 & Hs1 & H1); [apply He; [done|left]|].
  apply (IH _ s1); [|done|].
  - destruct H0 as [->|], H1 as [->|]; auto. right. lia.
  - intros s' o' Hs' Ho'. apply He; [done|by right].
Qed.

(** Only the stream of exactly this Host and generation is written to. *)
Lemma Send_spec registry h g e :
  match fst (Send registry h g e) with
  | Some (s, e') => registry !! h = Some s /\ generation s = g /\ e' = e /\ HostIdentity e = h
                    /\ SessionGeneration e = g /\ snd (Send registry h g e) = sink s e
  | None => is_Ok (snd (Send registry h g e)) = false
  end.
Proof.
  unfold Send. destruct (registry !! h) as [s|]; [|done].
  destruct (_ || _ || _) eqn:E; [done|]. bools. cbn. by split_and!.
Qed.

Definition demo_registry : OutboundRegistry := {[ "host-1" := MkSink 2 "connection-2" (fun _ => Ok tt) ]}%string.

(** The late clean-up of the first session *)
Lemma newer_stream_survives_witness :
  is_Some (registry_run demo_registry [OpUnregister "host-1" 1 "connection-1"] !! "host-1"%string).
Proof.
  destruct (newer_stream_survives demo_registry [OpUnregister "host-1" 1 "connection-1"] "host-1"
    (MkSink 2 "connection-2" (fun _ => Ok tt))) as (s' & -> & _).
  - reflexivity.
  - intros s' o Hs Ho%list_elem_of_singleton. subst o. cbn [ends].
    rewrite (proj2 (Z.eqb_neq 1 (generation s'))) by (destruct Hs as [->|Hs]; cbn in *; lia). reflexivity.
  - eexists. reflexivity.
Defined.
