(* ===== verification/Delivery.v ===== *)
(** * execution/delivery/message.go: the bus message

    What a publisher puts on the internal bus and a Gateway takes from it: the
    Agent envelope with the identity of its outbox row. *)

From S2P Require Import Prelude GoStd GoJson Envelope Contract.
Local Open Scope Z_scope.
Local Open Scope go_scope.

(** ** The bus message *)

Definition Subject : string := "kim.internal.agent.command.v1".
Definition MessageSchema : string := "kim.internal.agent-command-delivery/v1".

Record Message := MkMessage { msg_SchemaVersion : string; OutboxID : string; msg_Envelope : Envelope }.

#[export] Instance message_eta : Eta Message := fun m =>
  MkMessage (msg_SchemaVersion m) (OutboxID m) (msg_Envelope m).

Definition message_json (m : Message) : json :=
  JObj [("schema_version", JStr (msg_SchemaVersion m)); ("outbox_id", JStr (OutboxID m));
        ("envelope", envelope_json (msg_Envelope m))]%string.

Definition message_fields : list (field Message) :=
  [string_field "schema_version" (fun s m => m <| msg_SchemaVersion := s |>);
   string_field "outbox_id" (fun s m => m <| OutboxID := s |>);
   struct_field "envelope" true envelope_fields msg_Envelope (fun e m => m <| msg_Envelope := e |>)].

(** [Encode] *)
Definition Encode (m : Message) (maxBytes : Z) : res bytes :=
  fail_if ((msg_SchemaVersion m !=s MessageSchema) || (OutboxID m ==s ""))
    (errors_New "incomplete internal delivery message");;
  Validate (msg_Envelope m) maxBytes;;
  Ok (marshal (message_json m)).

(** [Decode]; the text of a decoding error is left out. *)
Definition Decode (payload : bytes) (maxBytes : Z) : res Message :=
  match decode_value payload with
  | Some (j, rest) =>
      match decode_struct true message_fields j (MkMessage "" "" zero_envelope) with
      | Some message =>
          fail_if (negb (at_EOF rest)) (errors_New "trailing internal delivery values are not allowed");;
          fail_if ((msg_SchemaVersion message !=s MessageSchema) || (OutboxID message ==s ""))
            (errors_New "unsupported or incomplete internal delivery message");;
          Validate (msg_Envelope message) maxBytes;;
          Ok message
      | None => Err (errors_New "json: cannot decode internal delivery message")
      end
  | None => Err (errors_New "json: cannot decode internal delivery message")
  end.

(** [Digest] *)
Definition Digest (payload : bytes) : string := sha256_hex payload.

Lemma decode_encoded_message m maxBytes text :
  Encode m maxBytes = Ok text -> ascii_text (OutboxID m) -> envelope_ascii (msg_Envelope m) ->
  envelope_typed (msg_Envelope m) -> Decode text maxBytes = Ok m.
Proof.
  unfold Encode. intros H Ho Ha Ht. apply bind_Ok_inv in H as ([] & Hc & H).
  apply bind_Ok_inv in H as ([] & Hv & [= <-]). apply fail_if_Ok_inv in Hc.
  pose proof (orb_false_elim _ _ Hc) as [Hs _]. apply negb_false_iff, String.eqb_eq in Hs.
  assert (plain (message_json m)) as Hp.
  { unfold message_json. rewrite Hs. cbn [plain foldr fst snd].
    pose proof (envelope_plain _ Ha). split_and!; try ascii_literal; done. }
  unfold Decode. pose proof (decode_value_marshal (message_json m) "" Hp separator_nil) as Hd.
  rewrite string_app_nil_r in Hd. rewrite Hd. unfold message_json, message_fields. cbn [decode_struct decode_members].
  cbn -[envelope_json envelope_fields decode_struct zero_envelope].
  rewrite decode_envelope_json by done. destruct m as [s o e]. cbn [msg_SchemaVersion OutboxID msg_Envelope] in *.
  cbn -[envelope_json envelope_fields decode_struct zero_envelope Validate]. rewrite Hc. cbn [fail_if mbind res_bind]. by rewrite Hv.
Qed.

(** the bus message a publisher encodes is decoded by the Gateway as the same
    message, envelope and payload bytes included. *)
Theorem delivery_message_round_trip m maxBytes text :
  Encode m maxBytes = Ok text -> ascii_text (OutboxID m) -> envelope_ascii (msg_Envelope m) ->
  envelope_typed (msg_Envelope m) -> Decode text maxBytes = Ok m.
Proof. apply decode_encoded_message. Qed.

Definition demo_message : Message :=
  MkMessage MessageSchema "outbox-1"
    (NewEnvelope "host-1" 3 StreamCommand "command-lease/command-1/1" CommandLeaseSchema "command/command-1" 1 "{}").

Lemma delivery_message_round_trip_witness :
  exists text, Encode demo_message 4096 = Ok text /\ Decode text 4096 = Ok demo_message.
Proof.
  eexists. split; [vm_compute; reflexivity|].
  apply delivery_message_round_trip; [vm_compute; reflexivity|ascii_literal| |].
  - unfold envelope_ascii. cbn. split_and!; ascii_literal.
  - unfold envelope_typed, is_u64. vm_compute. repeat split; discriminate.
Defined.
