(* ===== verification/GatewayRoute.v ===== *)
(** * execution/delivery/gateway.go: from the bus to a live stream

    A Gateway records in its inbox what it makes of a message, asks the tables
    whether the lease or the request still holds, and hands the envelope to the
    stream registered for its Host.  Between its three transactions other
    transactions run: [others1] and [others2] are what they do to the tables. *)

From S2P Require Import Prelude GoStd GoJson Envelope Contract ControlDb CommandEvents HostTrust Execution.
From S2P Require Import Verification CommandDelivery Delivery Outbound ControlFrames DeliverySteps.
From S2P Require Import Dispatcher ControlPlane.
Local Open Scope Z_scope.
Local Open Scope go_scope.

Definition ConsumeAck : string := "ACK".
Definition ConsumeNak : string := "NAK".
Definition ConsumeTerm : string := "TERM".
Definition ErrMalformedBusMessage : goerr := errors_New "malformed internal bus message".

(** [GatewayHandler]; the database and the registry are arguments. *)
Record GatewayHandler := MkGatewayHandler { Consumer : string; MaxMessageBytes : Z }.

(** The failures its three transactions meet *)
Record outages := MkOutages { accept_outage : outage; start_outage : outage; record_outage : outage }.

(** [errors.Join] of an error and the answer of another call *)
Definition Join (err : goerr) (r : res unit) : goerr :=
  match r with Ok _ => Wrapf "%w" [] err | Err e => ErrJoin err e end.

Section Jsonb.
Context (jsonb_text : json -> bytes).

Definition accept_message (failure : outage) (now : Z) (handler : GatewayHandler) (busMessageID : string)
    (payload : bytes) (e : Envelope) (d : db) : db * InternalDeliveryInboxDecision * option goerr :=
  if SchemaVersion e ==s VerificationRequestSchema
  then AcceptInternalVerificationDelivery failure (Consumer handler) busMessageID (Digest payload) e
         (MaxMessageBytes handler) d
  else AcceptInternalCommandDelivery jsonb_text failure now (Consumer handler) busMessageID (Digest payload) e
         (MaxMessageBytes handler) d.

(** The part after the decision: the route is started, the envelope sent and
    the outcome recorded. *)
Definition route_message (fails : outages) (others1 others2 : db -> db) (handler : GatewayHandler)
    (registry : OutboundRegistry) (busMessageID : string) (e : Envelope) (lease : CommandLease) (d : db) :
    db * option (registeredSink * Envelope) * string * option goerr :=
  match StartGatewayCommandRoute (start_outage fails) (Consumer handler) busMessageID (cl_HostID lease)
          (cl_SessionGeneration lease) (others1 d) with
  | (d, Err err) => (d, None, ConsumeNak, Some err)
  | (d, Ok attempt) =>
      let record eventType detail :=
        RecordGatewayCommandRoute (record_outage fails) (Consumer handler) busMessageID eventType (cl_HostID lease)
          (cl_SessionGeneration lease) attempt (JObj [detail]) (others2 d) in
      match Send registry (cl_HostID lease) (u64 (cl_SessionGeneration lease)) e with
      | (sent, Err err) =>
          let '(d, recorded) := record "ROUTE_UNKNOWN" ("reason", JStr "outbound_registry_send_failed")%string in
          (d, sent, ConsumeNak, Some (Join err recorded))
      | (sent, Ok _) =>
          match record "ROUTE_ACCEPTED" ("boundary", JStr "gateway_live_stream_write")%string with
          | (d, Err err) => (d, sent, ConsumeNak, Some err)
          | (d, Ok _) => (d, sent, ConsumeAck, None)
          end
      end
  end.

(** [GatewayHandler.Handle]: the tables, what a sink was handed, the
    disposition of the bus message and the error *)
Definition Handle (fails : outages) (now : Z) (others1 others2 : db -> db) (handler : GatewayHandler)
    (registry : OutboundRegistry) (busMessageID : string) (payload : bytes) (d : db) :
    db * option (registeredSink * Envelope) * string * option goerr :=
  if (Consumer handler ==s "") || (busMessageID ==s "") || (MaxMessageBytes handler <? 1)
  then (d, None, ConsumeNak, Some (errors_New "complete Gateway delivery handler configuration is required")) else
  match Decode payload (MaxMessageBytes handler) with
  | Err _ => (d, None, ConsumeTerm, Some ErrMalformedBusMessage)
  | Ok message =>
      if OutboxID message !=s busMessageID then (d, None, ConsumeTerm, Some ErrMalformedBusMessage) else
      match accept_message (accept_outage fails) now handler busMessageID payload (msg_Envelope message) d with
      | (d, decision, Some err) =>
          (d, None, if errors_Is err ErrInternalDeliveryConflict then ConsumeTerm else ConsumeNak, Some err)
      | (d, decision, None) =>
          if dec_State decision ==s "REJECTED" then (d, None, ConsumeAck, None)
          else route_message fails others1 others2 handler registry busMessageID (msg_Envelope message)
                 (dec_Lease decision) d
      end
  end.

(** ** What is routed *)

(** The tables hold the lease: it is ACTIVE, unexpired and of the command's
    current attempt, the token is its token, and the mutation authority it was
    granted under is in force on its session. *)
Record routable (now : Z) (lease : CommandLease) (d : db) : Prop := MkRoutable {
  rtb_row : exists command current active, delivery_rows now lease d = Some (command, current, active)
    /\ lse_state active = "ACTIVE"%string /\ In (cst_state current) ["LEASED"; "EXECUTING"]%string
    /\ grt_token (lse_grant active) = tokenSHA256 (cl_LeaseToken lease);
  rtb_authority : exists authority,
    readHostMutationAuthorityTx now (cl_HostID lease) (cl_HostAuthorityGeneration lease) d = Ok authority
    /\ ma_SessionGeneration authority = cl_SessionGeneration lease;
}.

Lemma load_iff now lease d :
  is_Ok (snd (loadCurrentCommandDeliveryTx jsonb_text now lease d)) = true <-> routable now lease d.
Proof.
  unfold loadCurrentCommandDeliveryTx. destruct (delivery_rows now lease d) as [[[command current] active]|] eqn:Er.
  2: { split; [done|]. intros [(? & ? & ? & ? & _) _]. congruence. }
  change (cl_LeaseToken (scan_command jsonb_text command lease)) with (cl_LeaseToken lease).
  change (cl_HostID (scan_command jsonb_text command lease)) with (cl_HostID lease).
  change (cl_SessionGeneration (scan_command jsonb_text command lease)) with (cl_SessionGeneration lease).
  change (cl_HostAuthorityGeneration (scan_command jsonb_text command lease)) with (cl_HostAuthorityGeneration lease).
  destruct (_ || _) eqn:Et.
  - split; [done|]. intros [(? & ? & ? & E & Ha & Hc & Ht) _]. rewrite Er in E. injection E as <- <- <-.
    rewrite Ha, Ht, !String.eqb_refl in Et.
    destruct Hc as [Hc|[Hc|[]]]; rewrite <- Hc in Et; done.
  - assert (exists c0 c1 active0, Some (command, current, active) = Some (c0, c1, active0)
       /\ lse_state active0 = "ACTIVE"%string /\ In (cst_state c1) ["LEASED"; "EXECUTING"]%string
       /\ grt_token (lse_grant active0) = tokenSHA256 (cl_LeaseToken lease)) as Hrow.
    { exists command, current, active. bools. split_and!; try done. cbn.
      match goal with H : _ && _ = false |- _ => apply andb_false_iff in H as [H|H] end; bools; auto. }
    destruct (readHostMutationAuthorityTx now _ _ d) as [authority|] eqn:Ea.
    + destruct (ma_SessionGeneration authority !=z cl_SessionGeneration lease) eqn:Es.
      * split; [done|]. intros [_ (a & Ha & Hs)]. rewrite Ea in Ha. injection Ha as <-.
        rewrite Hs, Z.eqb_refl in Es. done.
      * split; [|done]. intros _. split; [by rewrite Er|]. exists authority. split; [done|]. by bools.
    + split; [done|]. intros [_ (a & Ha & _)]. congruence.
Qed.
End Jsonb.

(** ** The decision of the inbox *)

(** A decision without an error is that of a transaction that met no failure:
    what the query of the authority said, on record. *)
Lemma inbox_tx_decided c m x failure (revalidate : db -> bool) d d' state duplicate :
  inbox_tx c m x failure revalidate d = InboxDecided d' state duplicate None ->
  failure = NoOutage /\ state = (if revalidate d then "ACCEPTED" else "REJECTED")%string
  /\ exists r, inbox d' !! (c, m) = Some r /\ inb_digest r = x
     /\ match inbox d !! (c, m) with Some _ => d' = d | None => inb_state r = state end.
Proof.
  unfold inbox_tx. destruct failure; [|done| |].
  - destruct (inbox d !! (c, m)) as [r|] eqn:Er.
    + destruct (inb_digest r !=s x) eqn:Ex.
      * by destruct (insert_conflict _ _ _ _ _).
      * intros [= <- <- <-]. split_and!; [done|done|]. exists r. by bools.
    + destruct (insert_inbox _ _ _ _ _) as [d1|] eqn:Ei; [|done]. intros [= <- <- <-]. split_and!; [done|done|].
      unfold insert_inbox in Ei. open_tx. eexists. cbn. rewrite lookup_insert_eq. split_and!; done.
  - destruct (inbox d !! (c, m)) as [r|]; [destruct (inb_digest r !=s x)|]; try done.
    by destruct (insert_conflict _ _ _ _ _).
  - destruct (inbox d !! (c, m)) as [r|]; [destruct (inb_digest r !=s x)|]; try done.
    + by destruct (insert_conflict _ _ _ _ _).
    + by destruct (insert_inbox _ _ _ _ _).
Qed.

(** The parts of a delivered lease that its envelope repeats. *)
Definition lease_identity (e : Envelope) (lease : CommandLease) : Prop :=
  cl_HostID lease = HostIdentity e /\ cl_SessionGeneration lease = i64 (SessionGeneration e)
  /\ cl_CommandID lease = CorrelationKey e /\ u64 (cl_AttemptIndex lease) = Sequence e.

Section Decisions.
Context (jsonb_text : json -> bytes).

Lemma accept_command_inv failure now c m x e n d d' decision :
  AcceptInternalCommandDelivery jsonb_text failure now c m x e n d = (d', decision, None) ->
  exists lease, Validate e n = Ok tt /\ DecodeCommandLease (Payload e) = Ok lease /\ lease_identity e lease
  /\ dec_Lease decision = lease
  /\ inbox_tx c m x failure (fun d => is_Ok (snd (loadCurrentCommandDeliveryTx jsonb_text now lease d))) d
     = InboxDecided d' (dec_State decision) (Duplicate decision) None.
Proof.
  unfold AcceptInternalCommandDelivery. destruct (_ || _); [done|]. destruct (Validate e n) as [[]|] eqn:Ev; [|done].
  destruct (DecodeCommandLease (Payload e)) as [lease|] eqn:Ed; [|done].
  destruct (_ || _) eqn:Ei; [done|]. destruct (inbox_tx _ _ _ _ _ _) as [|d1 state dup [err|]] eqn:Et; [done|done|].
  intros [= <- <-]. exists lease. unfold lease_identity. bools. by split_and!.
Qed.

Lemma route_sent fails others1 others2 handler registry m e lease d d' s e' disposition err :
  route_message fails others1 others2 handler registry m e lease d = (d', Some (s, e'), disposition, err) ->
  e' = e /\ registry !! cl_HostID lease = Some s /\ generation s = u64 (cl_SessionGeneration lease)
  /\ SessionGeneration e = u64 (cl_SessionGeneration lease)
  /\ exists d1 attempt, StartGatewayCommandRoute (start_outage fails) (Consumer handler) m (cl_HostID lease)
       (cl_SessionGeneration lease) (others1 d) = (d1, Ok attempt) /\ delivered (others2 d1) d'.
Proof.
  unfold route_message. destruct (StartGatewayCommandRoute _ _ _ _ _ _) as [d1 [attempt|]] eqn:Es; [|done].
  unfold Send. destruct (registry !! cl_HostID lease) as [s0|] eqn:Er.
  2: { destruct (RecordGatewayCommandRoute _ _ _ _ _ _ _ _ _). done. }
  destruct (_ || _) eqn:Eg.
  1: { destruct (RecordGatewayCommandRoute _ _ _ _ _ _ _ _ _). done. }
  bools. intros Hsent.
  assert (forall t p, delivered (others2 d1) (fst (RecordGatewayCommandRoute (record_outage fails) (Consumer handler) m t
    (cl_HostID lease) (cl_SessionGeneration lease) attempt p (others2 d1)))) as Hd
    by (intros; apply RecordGatewayCommandRoute_delivered).
  destruct (sink s0 e) as [[]|]; cbn in Hsent;
    match type of Hsent with context [RecordGatewayCommandRoute ?f ?c ?m ?t ?h ?g ?n ?p ?d] =>
      specialize (Hd t p); destruct (RecordGatewayCommandRoute f c m t h g n p d) as [d2 [[]|]] end;
    injection Hsent as <- <- <- _ _; cbn in Hd; split_and!; try done; by exists d1, attempt.
Qed.

Lemma route_started failure c m h g d d' attempt :
  StartGatewayCommandRoute failure c m h g d = (d', Ok attempt) ->
  exists r, route_events d' !! (c, m, attempt, "ROUTE_STARTED"%string) = Some r /\ rte_host r = h /\ rte_session r = g.
Proof.
  unfold StartGatewayCommandRoute. destruct (_ || _); [done|]. destruct failure; [|done..].
  destruct (MaxInt64 <? _); [done|]. destruct (insert_route _ _ _ _ _ _ _) as [d1|] eqn:Ei; [|done].
  intros [= <- <-]. unfold insert_route in Ei. open_tx; try done. cbn. rewrite lookup_insert_eq. by eexists.
Qed.

End Decisions.

(** ** What is not checked *)

(** Every test of [AcceptInternalVerificationDelivery] before its transaction. *)
Definition request_checked (c m x : string) (e : Envelope) (n : Z) (request : VerificationRequest) : Prop :=
  check_delivery c m x = false /\ SchemaVersion e = VerificationRequestSchema /\ Validate e n = Ok tt
  /\ DecodeVerificationRequest (Payload e) = Ok request /\ vr_HostID request = HostIdentity e
  /\ vr_SessionGeneration request = i64 (SessionGeneration e) /\ vr_CommandID request = CorrelationKey e
  /\ vr_AttemptIndex request = i64 (Sequence e)
  /\ canonicalJSONDigest (vr_CommandPayload request) = Some (vr_CommandPayloadDigest request).

Lemma accept_verification_checked failure c m x e n d request : request_checked c m x e n request ->
  AcceptInternalVerificationDelivery failure c m x e n d =
  match inbox_tx c m x failure (verification_wanted request) d with
  | InboxConflict d' => (d', MkInboxDecision "" false (request_lease request), Some ErrInternalDeliveryConflict)
  | InboxDecided d' state duplicate None => (d', MkInboxDecision state duplicate (request_lease request), None)
  | InboxDecided _ state duplicate (Some _) => (d, MkInboxDecision state duplicate (request_lease request), None)
  end.
Proof.
  intros (H1 & H2 & H3 & H4 & H5 & H6 & H7 & H8 & H9). unfold AcceptInternalVerificationDelivery.
  rewrite H1, H2, H3, H4, H5, H6, H7, H8, H9, !String.eqb_refl, !Z.eqb_refl, bool_decide_eq_false_2; [done|].
  intros E. by apply E.
Qed.

Lemma accept_verification_inv failure c m x e n d d' decision :
  AcceptInternalVerificationDelivery failure c m x e n d = (d', decision, None) ->
  exists request, request_checked c m x e n request /\ dec_Lease decision = request_lease request.
Proof.
  unfold AcceptInternalVerificationDelivery, request_checked. destruct (check_delivery c m x) eqn:E1; [done|].
  destruct (SchemaVersion e !=s VerificationRequestSchema) eqn:E2; [done|]. cbn [orb].
  destruct (Validate e n) as [[]|] eqn:E3; [|done]. destruct (DecodeVerificationRequest _) as [request|] eqn:E4; [|done].
  destruct (_ || _) eqn:E5; [done|]. destruct (bool_decide _) eqn:E6; [done|].
  destruct (inbox_tx _ _ _ _ _ _) as [|d1 state dup [err|]]; [done|..]; intros [= <- <-]; exists request; bools;
    apply dec_stable in E6; by split_and!.
Qed.

Lemma decoded_request payload request : DecodeVerificationRequest payload = Ok request ->
  vr_HostID request <> "" /\ 1 <= vr_SessionGeneration request.
Proof.
  unfold DecodeVerificationRequest. intros H. apply bind_Ok_inv in H as (r & _ & H). unfold check_VerificationRequest in H.
  open_tx. bools. by split.
Qed.

(** The attempt a new route gets is positive and was never used. *)
Lemma next_route_positive c m d : 1 <= next_route_attempt c m d.
Proof. unfold next_route_attempt. induction (route_attempts c m d) as [|z l IH]; cbn; lia. Qed.

Lemma next_route_free c m d t : route_events d !! (c, m, next_route_attempt c m d, t) = None.
Proof.
  destruct (route_events d !! _) as [r|] eqn:Er; [|done]. exfalso.
  assert (next_route_attempt c m d ∈ route_attempts c m d) as Hel.
  { unfold route_attempts at 1. apply list_elem_of_fmap. exists (c, m, next_route_attempt c m d, t, r). split; [done|].
    apply list_elem_of_In, filter_In. split; [apply list_elem_of_In, elem_of_map_to_list, Er|].
    cbn. by rewrite !String.eqb_refl. }
  assert (forall k, k ∈ route_attempts c m d -> k <= foldr Z.max 0 (route_attempts c m d)) as Hmax.
  { clear Hel. induction (route_attempts c m d) as [|z l IH]; intros k Hk; [by apply elem_of_nil in Hk|].
    cbn. apply elem_of_cons in Hk as [->|Hk]; [lia|]. specialize (IH k Hk). lia. }
  apply Hmax in Hel. unfold next_route_attempt in Hel. lia.
Qed.

(** With an inbox row and a Host, a route is started and its outcome recorded. *)
Record route_ready (c m h : string) (g : Z) (d : db) : Prop := MkRouteReady {
  rdr_names : c <> ""%string /\ m <> ""%string /\ h <> ""%string /\ 1 <= g;
  rdr_inbox : is_Some (inbox d !! (c, m));
  rdr_host : is_Some (identities d !! h);
}.

Lemma insert_route_ready skip c m h g n t p d : route_ready c m h g d -> 1 <= n -> route_event_ok t = true ->
  route_events d !! (c, m, n, t) = None \/ skip = true ->
  exists d', insert_route skip c m n t (MkRoute h g p) d = Ok d' /\ route_ready c m h g d'.
Proof.
  intros [N [r Hin] [i Hid]] Hn Ht Hr. destruct N as (? & ? & ? & Hg). unfold insert_route. cbn [rte_session rte_host].
  rewrite Ht, (proj2 (Z.ltb_ge n 1) Hn), (proj2 (Z.ltb_ge g 1) Hg). cbn [orb negb].
  rewrite fail_if_pass by done. destruct (route_events d !! _) as [r0|] eqn:E.
  - destruct Hr as [? | ->]; [done|]. exists d. split; [done|]. by split; [split_and!|exists r|exists i].
  - rewrite Hin, Hid. cbn. eexists. split; [done|]. split; cbn; [by split_and!|by exists r|by exists i].
Qed.

Lemma start_ready c m h g d : route_ready c m h g d -> next_route_attempt c m d <= MaxInt64 ->
  exists d', StartGatewayCommandRoute NoOutage c m h g d = (d', Ok (next_route_attempt c m d)) /\ route_ready c m h g d'.
Proof.
  intros R Hn. destruct (rdr_names _ _ _ _ _ R) as (H1 & H2 & H3 & H4).
  apply String.eqb_neq in H1, H2, H3. apply Z.ltb_ge in H4.
  apply Z.ltb_ge in Hn. unfold StartGatewayCommandRoute. rewrite H1, H2, H3, H4, Hn. cbn [orb].
  destruct (insert_route_ready false c m h g (next_route_attempt c m d) "ROUTE_STARTED"
    (JObj [("boundary", JStr "gateway_route_attempt")]%string) d R) as (d' & -> & R'); try done.
  - apply next_route_positive.
  - left. apply next_route_free.
  - by exists d'.
Qed.

Lemma record_ready c m t h g n p d : route_ready c m h g d -> 1 <= n -> route_event_ok t = true ->
  exists d', RecordGatewayCommandRoute NoOutage c m t h g n p d = (d', Ok tt).
Proof.
  intros R Hn Ht. destruct (rdr_names _ _ _ _ _ R) as (H1 & H2 & H3 & H4).
  apply String.eqb_neq in H1, H2, H3. apply Z.ltb_ge in H4.
  unfold RecordGatewayCommandRoute. rewrite H1, H2, H3, H4, Ht, (proj2 (Z.ltb_ge n 1) Hn). cbn [orb negb].
  destruct (insert_route_ready true c m h g n t p d R) as (d' & -> & R'); try done; [by right|]. by exists d'.
Qed.

Lemma u64_i64 z : u64 (i64 z) = u64 z.
Proof. unfold u64, i64. rewrite Zminus_mod_idemp_l. f_equal. lia. Qed.

Definition no_outages : outages := MkOutages NoOutage NoOutage NoOutage.

Lemma route_healthy fails handler registry m e lease d s :
  start_outage fails = NoOutage -> record_outage fails = NoOutage ->
  route_ready (Consumer handler) m (cl_HostID lease) (cl_SessionGeneration lease) d ->
  next_route_attempt (Consumer handler) m d <= MaxInt64 ->
  registry !! cl_HostID lease = Some s -> generation s = u64 (cl_SessionGeneration lease) ->
  HostIdentity e = cl_HostID lease -> SessionGeneration e = generation s -> sink s e = Ok tt ->
  exists d', route_message fails id id handler registry m e lease d
    = (d', Some (s, e), ConsumeAck, None).
Proof.
  intros Hf1 Hf2 R Hn Hreg Hgen He Hse Hsink. unfold route_message. rewrite Hf1, Hf2. cbn [id].
  destruct (start_ready _ _ _ _ _ R Hn) as (d1 & -> & R1). unfold Send.
  rewrite Hreg, He, Hse, Hgen, Z.eqb_refl, String.eqb_refl. cbn [negb orb]. rewrite Hsink.
  edestruct record_ready as [d2 ->]; [exact R1|apply next_route_positive|done|by exists d2].
Qed.

Lemma route_unsent fails others1 others2 handler registry m e lease d d' disposition err :
  route_message fails others1 others2 handler registry m e lease d = (d', None, disposition, err) ->
  disposition = ConsumeNak.
Proof.
  unfold route_message. destruct (StartGatewayCommandRoute _ _ _ _ _ _) as [d1 [attempt|]].
  2: { by intros [= _ <- _]. }
  unfold Send. destruct (registry !! _) as [s|]; [destruct (_ || _); [|destruct (sink s e)]|];
    match goal with |- context [RecordGatewayCommandRoute ?f ?c ?m ?t ?h ?g ?n ?p ?d] =>
      destruct (RecordGatewayCommandRoute f c m t h g n p d) as [d2 [[]|]] end; by intros [=].
Qed.

(** Without failures the transaction never errs. *)
Lemma inbox_tx_healthy c m payload revalidate d d' state duplicate err :
  inbox_tx c m (Digest payload) NoOutage revalidate d = InboxDecided d' state duplicate (Some err) ->
  exists r, inbox d !! (c, m) = Some r /\ inb_digest r <> Digest payload.
Proof.
  unfold inbox_tx. destruct (inbox d !! (c, m)) as [r|] eqn:Er.
  - destruct (inb_digest r !=s Digest payload) eqn:Ex; [|done]. intros _. exists r. bools. done.
  - unfold insert_inbox, Digest. rewrite Er, hex64_sha256. by destruct (revalidate d).
Qed.

(** A healthy delivery that ends in an acknowledgement and routes nothing *)
Lemma accept_request_rejected handler m payload e d d1 decision :
  AcceptInternalVerificationDelivery NoOutage (Consumer handler) m (Digest payload) e (MaxMessageBytes handler) d
    = (d1, decision, None) -> dec_State decision = "REJECTED"%string ->
  exists request, request_checked (Consumer handler) m (Digest payload) e (MaxMessageBytes handler) request
  /\ is_Some (inbox d1 !! (Consumer handler, m)).
Proof.
  intros Ha Hs. apply accept_verification_inv in Ha as Hc. destruct Hc as (request & Hc & _).
  exists request. split; [done|]. rewrite (accept_verification_checked _ _ _ _ _ _ _ _ Hc) in Ha.
  destruct (inbox_tx _ _ _ _ _ _) as [|d2 state dup [err|]] eqn:Et; [done|..]; injection Ha as <- <-.
  - apply inbox_tx_healthy in Et as (r & Hr & _). by exists r.
  - apply inbox_tx_decided in Et as (_ & _ & r & Hr & _). by exists r.
Qed.

(** a failed revalidation is not noticed: a verification request the Gateway
    rejected, because the tables do not ask for it, is handed to the Agent when
    its message comes again and the transaction that revalidates it cannot
    begin; the message is then acknowledged without an error. *)
Theorem rejected_request_is_routed jsonb_text failure now handler registry m payload d d1 message s :
  Handle jsonb_text no_outages now id id handler registry m payload d = (d1, None, ConsumeAck, None) ->
  Decode payload (MaxMessageBytes handler) = Ok message ->
  SchemaVersion (msg_Envelope message) = VerificationRequestSchema ->
  is_Some (identities d1 !! HostIdentity (msg_Envelope message)) ->
  next_route_attempt (Consumer handler) m d1 <= MaxInt64 ->
  registry !! HostIdentity (msg_Envelope message) = Some s -> generation s = SessionGeneration (msg_Envelope message) ->
  is_u64 (generation s) -> sink s (msg_Envelope message) = Ok tt ->
  exists d2, Handle jsonb_text (MkOutages (AtBegin failure) NoOutage NoOutage) now id id handler registry m payload d1
    = (d2, Some (s, msg_Envelope message), ConsumeAck, None).
Proof.
  destruct message as [v o e]. cbn [msg_Envelope]. intros Hh Hd Hschema Hid Hn Hreg Hgen Hu Hsink. unfold Handle in *.
  destruct (_ || _) eqn:Eg; [done|]. rewrite Hd in *. cbn [OutboxID msg_Envelope] in *.
  destruct (o !=s m) eqn:Eo; [done|]. unfold accept_message in *. rewrite Hschema, String.eqb_refl in *.
  cbn [accept_outage no_outages] in *.
  destruct (AcceptInternalVerificationDelivery _ _ _ _ _ _ _) as [[d3 decision] [err|]] eqn:Ea in Hh; [done|].
  destruct (dec_State decision ==s "REJECTED") eqn:Es.
  2: { by apply route_unsent in Hh. }
  injection Hh as ->. apply String.eqb_eq in Es. destruct (accept_request_rejected _ _ _ _ _ _ _ Ea Es) as (request & Hc & Hin).
  rewrite (accept_verification_checked _ _ _ _ _ _ _ _ Hc). cbn [inbox_tx dec_State dec_Lease String.eqb].
  destruct Hc as (_ & _ & _ & [Hh Hg]%decoded_request & E1 & E2 & _). bools.
  assert (u64 (vr_SessionGeneration request) = generation s) as Eu.
  { rewrite E2, <- Hgen, u64_i64. by apply u64_id. }
  destruct (route_healthy (MkOutages (AtBegin failure) NoOutage NoOutage) handler registry m e (request_lease request) d1 s)
    as [d2 ->]; [done|done|..].
  - split; [split_and!|done|]; cbn; [done|congruence|done|done|by rewrite E1].
  - done.
  - cbn. by rewrite E1.
  - cbn. by rewrite Eu.
  - cbn. by rewrite E1.
  - by rewrite Hgen.
  - done.
  - by exists d2.
Qed.

(** Every test of [AcceptInternalCommandDelivery] before its transaction. *)
Definition lease_checked (c m x : string) (e : Envelope) (n : Z) (lease : CommandLease) : Prop :=
  check_delivery c m x = false /\ MessageID e <> ""%string /\ Validate e n = Ok tt
  /\ DecodeCommandLease (Payload e) = Ok lease /\ lease_identity e lease.

Lemma accept_command_checked jsonb_text failure now c m x e n d lease : lease_checked c m x e n lease ->
  AcceptInternalCommandDelivery jsonb_text failure now c m x e n d =
  match inbox_tx c m x failure (fun d => is_Ok (snd (loadCurrentCommandDeliveryTx jsonb_text now lease d))) d with
  | InboxConflict d' => (d', MkInboxDecision "" false lease, Some ErrInternalDeliveryConflict)
  | InboxDecided d' state duplicate None => (d', MkInboxDecision state duplicate lease, None)
  | InboxDecided _ _ _ (Some err) => (d, zero_decision, Some (Wrapf "accept internal Command delivery: %w" [] err))
  end.
Proof.
  intros (H1 & H2 & H3 & H4 & H5 & H6 & H7 & H8). apply String.eqb_neq in H2.
  unfold AcceptInternalCommandDelivery. by rewrite H1, H2, H3, H4, H5, H6, H7, H8, !String.eqb_refl, !Z.eqb_refl.
Qed.

Lemma decoded_lease payload lease : DecodeCommandLease payload = Ok lease ->
  cl_HostID lease <> ""%string /\ 1 <= cl_SessionGeneration lease.
Proof.
  unfold DecodeCommandLease. intros H. apply bind_Ok_inv in H as (r & _ & H). unfold check_CommandLease in H.
  open_tx. bools. by split.
Qed.

Lemma started_ready c m h g d d' n : StartGatewayCommandRoute NoOutage c m h g d = (d', Ok n) ->
  route_ready c m h g d /\ next_route_attempt c m d <= MaxInt64.
Proof.
  unfold StartGatewayCommandRoute. destruct (_ || _) eqn:E1; [done|]. destruct (MaxInt64 <? _) eqn:E2; [done|].
  destruct (insert_route _ _ _ _ _ _ _) as [d1|] eqn:E3; [|done]. intros _. unfold insert_route in E3.
  rewrite next_route_free in E3. open_tx. bools. cbn [rte_host] in *. split; [|done].
  split; [by split_and!|by apply not_eq_None_Some|by apply not_eq_None_Some].
Qed.

(** What a lease claims to be, and what it asks for apart. *)
Definition same_claim (l l' : CommandLease) : Prop :=
  cl_CommandID l' = cl_CommandID l /\ cl_HostID l' = cl_HostID l /\ cl_LeaseGeneration l' = cl_LeaseGeneration l
  /\ cl_AttemptIndex l' = cl_AttemptIndex l /\ cl_HostAuthorityGeneration l' = cl_HostAuthorityGeneration l
  /\ cl_SessionGeneration l' = cl_SessionGeneration l /\ cl_LeaseToken l' = cl_LeaseToken l.

Lemma routable_claim now l l' d : same_claim l l' -> routable now l d -> routable now l' d.
Proof.
  intros (E1 & E2 & E3 & E4 & E5 & E6 & E7) [R A]. split.
  - unfold delivery_rows in *. rewrite E1, E2, E3, E4, E5, E6, E7. exact R.
  - by rewrite E2, E5, E6.
Qed.

(** A lease the tables hold, in a message not seen before, is routed. *)
Lemma routable_is_routed jsonb_text now handler registry m payload d message lease s :
  Consumer handler <> ""%string -> m <> ""%string -> 1 <= MaxMessageBytes handler ->
  Decode payload (MaxMessageBytes handler) = Ok message -> OutboxID message = m ->
  SchemaVersion (msg_Envelope message) <> VerificationRequestSchema ->
  lease_checked (Consumer handler) m (Digest payload) (msg_Envelope message) (MaxMessageBytes handler) lease ->
  routable now lease d -> inbox d !! (Consumer handler, m) = None -> is_Some (identities d !! cl_HostID lease) ->
  next_route_attempt (Consumer handler) m d <= MaxInt64 ->
  registry !! cl_HostID lease = Some s -> generation s = SessionGeneration (msg_Envelope message) ->
  is_u64 (generation s) -> sink s (msg_Envelope message) = Ok tt ->
  exists d', Handle jsonb_text no_outages now id id handler registry m payload d
    = (d', Some (s, msg_Envelope message), ConsumeAck, None).
Proof.
  destruct message as [v o e]. cbn [msg_Envelope OutboxID]. intros Hc Hm Hb Hd Ho Hs Hl Hr Hin Hid Hn Hreg Hgen Hu Hsink.
  subst o. apply String.eqb_neq in Hc as Ec, Hm as Em, Hs. unfold Handle. rewrite Ec, Em, (proj2 (Z.ltb_ge _ _) Hb), Hd.
  cbn [orb OutboxID msg_Envelope]. rewrite String.eqb_refl. cbn [negb]. unfold accept_message. rewrite Hs.
  rewrite (accept_command_checked _ _ _ _ _ _ _ _ _ _ Hl). destruct Hl as (Hx & _ & _ & Hdec%decoded_lease & E1 & E2 & _ & _).
  apply (load_iff jsonb_text) in Hr. unfold inbox_tx. cbn [accept_outage no_outages]. rewrite Hin, Hr.
  unfold insert_inbox, Digest. rewrite Hin, hex64_sha256. cbn -[route_message next_route_attempt].
  assert (u64 (cl_SessionGeneration lease) = generation s) as Eu.
  { rewrite E2, <- Hgen, u64_i64. by apply u64_id. }
  match goal with |- context [route_message _ _ _ _ _ _ _ _ ?d1] =>
    destruct (route_healthy no_outages handler registry m e lease d1 s) as [d2 ->] end; try done.
  - split; [by destruct Hdec; split_and!| |done]. cbn. rewrite lookup_insert_eq. by eexists.
  - by exists d2.
Qed.

(** what a lease asks for is not checked on the way: when a Gateway routes
    a lease, it also routes, in its place, one whose command type, target,
    payload and payload digest were altered on the bus, whatever the tables say
    the command is, as long as its identity and its token are kept. *)
Theorem altered_lease_is_routed jsonb_text now handler registry m payload payload' d d1 s e lease message' lease' :
  Handle jsonb_text no_outages now id id handler registry m payload d = (d1, Some (s, e), ConsumeAck, None) ->
  SchemaVersion e <> VerificationRequestSchema -> DecodeCommandLease (Payload e) = Ok lease ->
  inbox d !! (Consumer handler, m) = None -> is_u64 (generation s) ->
  Decode payload' (MaxMessageBytes handler) = Ok message' -> OutboxID message' = m ->
  SchemaVersion (msg_Envelope message') = SchemaVersion e ->
  lease_checked (Consumer handler) m (Digest payload') (msg_Envelope message') (MaxMessageBytes handler) lease' ->
  SessionGeneration (msg_Envelope message') = SessionGeneration e ->
  same_claim lease lease' -> sink s (msg_Envelope message') = Ok tt ->
  exists d2, Handle jsonb_text no_outages now id id handler registry m payload' d
    = (d2, Some (s, msg_Envelope message'), ConsumeAck, None).
Proof.
  intros H Hs Hl Hin Hu Hd' Ho' Hs' Hl' Hse Hc Hsink. unfold Handle in H. destruct (_ || _) eqn:Eg; [done|].
  destruct (Decode payload _) as [message|]; [|done]. destruct (OutboxID message !=s m); [done|].
  destruct (accept_message _ _ _ _ _ _ _ _) as [[d2 decision] [err1|]] eqn:Ea; [done|].
  destruct (dec_State decision ==s "REJECTED") eqn:Es; [done|].
  apply route_sent in H as (-> & Hreg & Hgen & Hse1 & d3 & attempt & Hstart & _). unfold accept_message in Ea.
  apply String.eqb_neq in Hs as Hs1. rewrite Hs1 in Ea. apply accept_command_inv in Ea as (l & _ & Hl1 & _ & El & Ht).
  rewrite Hl in Hl1. injection Hl1 as <-. rewrite El in *. apply inbox_tx_decided in Ht as Hi. destruct Hi as (_ & Hst & _).
  destruct (is_Ok _) eqn:Eok; rewrite Hst in Es; [|done]. apply load_iff in Eok.
  apply started_ready in Hstart as [[Hn Hin2 Hid] Hn2]. cbn [id] in *.
  assert (identities d2 = identities d /\ route_events d2 = route_events d) as [Ei Er].
  { revert Ht. unfold inbox_tx. cbn [accept_outage no_outages]. rewrite Hin. destruct (insert_inbox _ _ _ _ _) eqn:E; [|done].
    intros [= <- _ _]. unfold insert_inbox in E. open_tx. done. }
  pose proof Hc as (_ & Eh & _). bools. apply (routable_is_routed jsonb_text now handler registry m payload' d message' lease'); try done.
  - congruence.
  - by apply (routable_claim now lease).
  - by rewrite Eh, <- Ei.
  - unfold next_route_attempt, route_attempts in *. by rewrite Er in Hn2.
  - by rewrite Eh.
  - congruence.
Qed.

(** What a delivery may leave of a message whose identity was used before. *)
Definition quarantined (c m x : string) (r : inbox_row) (d d' : db) : Prop :=
  inbox d' = inbox d /\ inbox_conflicts d' !! (c, m, x) = Some (inb_digest r).

(** A conflict recorded before is the row the table has. *)
Definition conflicts_name (c m x : string) (r : inbox_row) (d : db) : Prop :=
  forall a, inbox_conflicts d !! (c, m, x) = Some a -> a = inb_digest r.

Lemma inbox_tx_reused c m payload v d r : inbox d !! (c, m) = Some r -> inb_digest r <> Digest payload ->
  hex64 (inb_digest r) = true -> conflicts_name c m (Digest payload) r d ->
  exists d', inbox_tx c m (Digest payload) NoOutage v d = InboxConflict d' /\ quarantined c m (Digest payload) r d d'.
Proof.
  intros Hr Hx Hh Hn. apply String.eqb_neq in Hx. unfold inbox_tx, insert_conflict, quarantined, Digest in *.
  rewrite Hr, Hx, Hh, hex64_sha256. cbn [negb orb fail_if mbind res_bind].
  destruct (inbox_conflicts d !! _) as [a|] eqn:Ea.
  - exists d. split_and!; [done|done|]. by rewrite Ea, (Hn a Ea).
  - eexists. split_and!; [done|done|]. cbn. by rewrite lookup_insert_eq.
Qed.

Lemma accept_reused jsonb_text now handler m payload e d r d' decision err :
  inbox d !! (Consumer handler, m) = Some r -> inb_digest r <> Digest payload -> hex64 (inb_digest r) = true ->
  conflicts_name (Consumer handler) m (Digest payload) r d ->
  accept_message jsonb_text NoOutage now handler m payload e d = (d', decision, err) ->
  exists err', err = Some err'
  /\ (d' = d \/ err' = ErrInternalDeliveryConflict /\ quarantined (Consumer handler) m (Digest payload) r d d').
Proof.
  intros Hr Hx Hh Hn. unfold accept_message, AcceptInternalVerificationDelivery, AcceptInternalCommandDelivery.
  assert (forall v, exists d1, inbox_tx (Consumer handler) m (Digest payload) NoOutage v d = InboxConflict d1
    /\ quarantined (Consumer handler) m (Digest payload) r d d1) as Htx by (intros; by apply inbox_tx_reused).
  destruct (SchemaVersion e ==s VerificationRequestSchema); cbn [negb orb].
  - destruct (_ || _); [intros [= <- _ <-]; eauto|]. destruct (Validate e _); [|intros [= <- _ <-]; eauto].
    destruct (DecodeVerificationRequest _) as [request|]; [|intros [= <- _ <-]; eauto].
    destruct (_ || _); [intros [= <- _ <-]; eauto|]. destruct (bool_decide _); [intros [= <- _ <-]; eauto|].
    destruct (Htx (verification_wanted request)) as (d1 & -> & Hq). intros [= <- _ <-]. eauto.
  - destruct (_ || _); [intros [= <- _ <-]; eauto|]. destruct (Validate e _); [|intros [= <- _ <-]; eauto].
    destruct (DecodeCommandLease _) as [lease|]; [|intros [= <- _ <-]; eauto].
    destruct (_ || _); [intros [= <- _ <-]; eauto|].
    match goal with |- context [inbox_tx _ _ _ _ ?v _] => destruct (Htx v) as (d1 & -> & Hq) end.
    intros [= <- _ <-]. eauto.
Qed.

(** a bus identity names one payload: a message that comes under an identity
    whose inbox row holds another payload digest is never routed nor
    acknowledged as consumed; the row stays as it is, and either nothing is
    recorded or the message is quarantined as conflicting evidence and
    terminated. *)
Theorem reused_identity_never_routed jsonb_text fails now others1 others2 handler registry m payload d r d' sent disposition err :
  accept_outage fails = NoOutage -> inbox d !! (Consumer handler, m) = Some r -> inb_digest r <> Digest payload ->
  hex64 (inb_digest r) = true -> conflicts_name (Consumer handler) m (Digest payload) r d ->
  Handle jsonb_text fails now others1 others2 handler registry m payload d = (d', sent, disposition, err) ->
  sent = None /\ disposition <> ConsumeAck /\ err <> None
  /\ (d' = d \/ disposition = ConsumeTerm /\ err = Some ErrInternalDeliveryConflict
                /\ quarantined (Consumer handler) m (Digest payload) r d d').
Proof.
  intros Hf Hr Hx Hh Hn. unfold Handle. destruct (_ || _); [intros [= <- <- <- <-]; split_and!; try done; by left|].
  destruct (Decode payload _) as [message|]; [|intros [= <- <- <- <-]; split_and!; try done; by left].
  destruct (OutboxID message !=s m); [intros [= <- <- <- <-]; split_and!; try done; by left|]. rewrite Hf.
  destruct (accept_message _ _ _ _ _ _ _ _) as [[d1 decision] err1] eqn:Ea.
  apply (accept_reused _ _ _ _ _ _ _ r) in Ea as (err' & -> & Hcase); try done.
  intros [= <- <- <- <-]. split_and!; [done| |done|].
  - by destruct (errors_Is err' _).
  - destruct Hcase as [->|[-> Hq]]; [by left|right]. by split_and!.
Qed.

(** ** Concrete deliveries *)

(** A lease of [demo_leased] on the bus, another command in its place, and a
    request to verify a command nobody doubts *)
Definition demo_sink : registeredSink := MkSink 1 "connection-1" (fun _ => Ok tt).
Definition demo_streams : OutboundRegistry := {[ "host-1"%string := demo_sink ]}.
Definition demo_handler : GatewayHandler := MkGatewayHandler "gateway-1" 65536.
Definition demo_bus_id : string := "command-lease-delivery/command-1/1".

Definition demo_bus_lease (target : string) (payload : json) : CommandLease :=
  MkCommandLease CommandLeaseSchema "command-1" 1 1 "host-1" 1 1 (RawURLEncoding demo_token) "TYPE" "schema/v1" target
    (marshal payload) (sha256_hex (marshal payload)) 30000.
Definition demo_bus_envelope (lease : CommandLease) : Envelope :=
  command_envelope "host-1" 1 "command-lease/command-1/1" CommandLeaseSchema "command-1" 1
    (marshal (default JNull (lease_json lease))).
Definition demo_bus_text (m : string) (e : Envelope) : bytes := marshal (message_json (MkMessage MessageSchema m e)).

Definition demo_granted : CommandLease := Eval vm_compute in demo_bus_lease "volume-1" (JObj []).
Definition demo_altered : CommandLease := Eval vm_compute in demo_bus_lease "volume-9" (JObj [("wipe", JBool true)]%string).
Definition demo_granted_envelope : Envelope := Eval vm_compute in demo_bus_envelope demo_granted.
Definition demo_altered_envelope : Envelope := Eval vm_compute in demo_bus_envelope demo_altered.
Definition demo_granted_text : bytes := Eval vm_compute in demo_bus_text demo_bus_id demo_granted_envelope.
Definition demo_altered_text : bytes := Eval vm_compute in demo_bus_text demo_bus_id demo_altered_envelope.

Abbreviation demo_delivery text := (Handle marshal no_outages 20 id id demo_handler demo_streams demo_bus_id text).
Definition demo_after_delivery : db := fst (fst (fst (demo_delivery demo_granted_text demo_leased))).

(** The run once: what it answers, and the inbox it leaves *)
Definition demo_granted_digest : string := Eval vm_compute in Digest demo_granted_text.
Definition demo_altered_digest : string := Eval vm_compute in Digest demo_altered_text.
Lemma demo_facts :
  (let '(d, sent, disposition, err) := demo_delivery demo_granted_text demo_leased in
   (sent, disposition, err, inbox d !! ("gateway-1", demo_bus_id)%string,
    inbox_conflicts d !! ("gateway-1", demo_bus_id, demo_altered_digest)%string))
  = (Some (demo_sink, demo_granted_envelope), ConsumeAck, None, Some (MkInbox demo_granted_digest "ACCEPTED"), None).
Proof. vm_compute. reflexivity. Qed.
Lemma demo_altered_digest_is : Digest demo_altered_text = demo_altered_digest.
Proof. vm_compute. reflexivity. Qed.

#[local] Opaque demo_leased.

Lemma demo_delivered : demo_delivery demo_granted_text demo_leased
  = (demo_after_delivery, Some (demo_sink, demo_granted_envelope), ConsumeAck, None).
Proof.
  unfold demo_after_delivery. pose proof demo_facts as H.
  destruct (demo_delivery demo_granted_text demo_leased) as [[[d sent] disposition] err].
  injection H as H1 H2 H3 _ _. by subst.
Qed.

Lemma demo_inbox :
  inbox demo_after_delivery !! ("gateway-1", demo_bus_id)%string = Some (MkInbox demo_granted_digest "ACCEPTED")
  /\ inbox_conflicts demo_after_delivery !! ("gateway-1", demo_bus_id, demo_altered_digest)%string = None.
Proof.
  unfold demo_after_delivery. pose proof demo_facts as H.
  destruct (demo_delivery demo_granted_text demo_leased) as [[[d sent] disposition] err].
  injection H as _ _ _ H1 H2. by split.
Qed.

#[local] Opaque demo_after_delivery.

Lemma demo_granted_decoded : DecodeCommandLease (Payload demo_granted_envelope) = Ok demo_granted.
Proof. vm_compute. reflexivity. Qed.


Lemma altered_lease_is_routed_witness :
  (exists d2, demo_delivery demo_altered_text demo_leased = (d2, Some (demo_sink, demo_altered_envelope), ConsumeAck, None))
  /\ cmd_target <$> commands demo_leased !! "command-1"%string = Some "volume-1"%string
  /\ cl_TargetResourceID demo_altered = "volume-9"%string.
Proof.
  split; [|split; vm_compute; reflexivity].
  apply (altered_lease_is_routed marshal 20 demo_handler demo_streams demo_bus_id demo_granted_text demo_altered_text
    demo_leased demo_after_delivery demo_sink demo_granted_envelope demo_granted
    (MkMessage MessageSchema demo_bus_id demo_altered_envelope) demo_altered).
  - exact demo_delivered.
  - discriminate.
  - exact demo_granted_decoded.
  - vm_compute. reflexivity.
  - unfold is_u64. vm_compute. split; [discriminate|reflexivity].
  - vm_compute. reflexivity.
  - reflexivity.
  - reflexivity.
  - unfold lease_checked, lease_identity. split_and!; first [vm_compute; reflexivity|discriminate].
  - reflexivity.
  - unfold same_claim. split_and!; reflexivity.
  - reflexivity.
Defined.

Lemma reused_identity_never_routed_witness :
  inbox demo_after_delivery !! ("gateway-1", demo_bus_id)%string = Some (MkInbox demo_granted_digest "ACCEPTED")
  /\ exists d' disposition err, demo_delivery demo_altered_text demo_after_delivery = (d', None, disposition, Some err).
Proof.
  destruct demo_inbox as [Hin Hnone]. split; [exact Hin|].
  destruct (demo_delivery demo_altered_text demo_after_delivery) as [[[d' sent] disposition] err] eqn:E.
  destruct (reused_identity_never_routed marshal no_outages 20 id id demo_handler demo_streams demo_bus_id
    demo_altered_text demo_after_delivery _ d' sent disposition err eq_refl Hin) as (Hs & _ & He & _).
  - rewrite demo_altered_digest_is. discriminate.
  - vm_compute. reflexivity.
  - rewrite demo_altered_digest_is. intros a Ha. cbn [Consumer demo_handler] in Ha. rewrite Hnone in Ha. discriminate Ha.
  - exact E.
  - clear E. subst sent. destruct err as [err|]; [|exfalso; exact (He eq_refl)].
    exists d', disposition, err. exact eq_refl.
Defined.

(** The Gateway rejected a request for a command that is not UNKNOWN. *)
Definition demo_request : VerificationRequest :=
  MkVerificationRequest VerificationRequestSchema "command-1" 1 "host-1" 1 "TYPE" "schema/v1" "volume-1" "{}"
    (sha256_hex "{}").
Definition demo_request_envelope : Envelope := Eval vm_compute in
  command_envelope "host-1" 1 "verification-request/command-1/1" VerificationRequestSchema "command-1" 1
    (marshal (default JNull (request_json demo_request))).
Definition demo_request_id : string := "command-verification/command-1/1/1".
Definition demo_request_text : bytes := Eval vm_compute in demo_bus_text demo_request_id demo_request_envelope.
Abbreviation demo_requested fails :=
  (Handle marshal fails 20 id id demo_handler demo_streams demo_request_id demo_request_text).
Definition demo_rejected : db := fst (fst (fst (demo_requested no_outages demo_leased))).

Lemma demo_rejection_facts :
  (let '(d, sent, disposition, err) := demo_requested no_outages demo_leased in
   (sent, disposition, err, bool_decide (is_Some (identities d !! "host-1"%string)),
    next_route_attempt "gateway-1" demo_request_id d <=? MaxInt64))
  = (None, ConsumeAck, None, true, true).
Proof. vm_compute. reflexivity. Qed.
Lemma demo_rejection : demo_requested no_outages demo_leased = (demo_rejected, None, ConsumeAck, None).
Proof.
  unfold demo_rejected. pose proof demo_rejection_facts as H.
  destruct (demo_requested no_outages demo_leased) as [[[d sent] disposition] err].
  injection H as H1 H2 H3 _ _. by subst.
Qed.

Lemma demo_rejected_rows : is_Some (identities demo_rejected !! "host-1"%string)
  /\ next_route_attempt "gateway-1" demo_request_id demo_rejected <= MaxInt64.
Proof.
  unfold demo_rejected. pose proof demo_rejection_facts as H.
  destruct (demo_requested no_outages demo_leased) as [[[d sent] disposition] err].
  injection H as _ _ _ H1 H2. by bools.
Qed.

#[local] Opaque demo_rejected.

Lemma rejected_request_is_routed_witness : exists d2,
  demo_requested (MkOutages (AtBegin (errors_New "connection reset")) NoOutage NoOutage) demo_rejected
  = (d2, Some (demo_sink, demo_request_envelope), ConsumeAck, None).
Proof.
  apply (rejected_request_is_routed marshal (errors_New "connection reset") 20 demo_handler demo_streams demo_request_id
    demo_request_text demo_leased demo_rejected (MkMessage MessageSchema demo_request_id demo_request_envelope) demo_sink).
  - exact demo_rejection.
  - vm_compute. reflexivity.
  - reflexivity.
  - exact (proj1 demo_rejected_rows).
  - exact (proj2 demo_rejected_rows).
  - reflexivity.
  - reflexivity.
  - unfold is_u64. vm_compute. split; [discriminate|reflexivity].
  - reflexivity.
Defined.
