(* ===== verification/TokenProtect.v ===== *)
(** * security/tokenprotect: tokens at rest

    [AESGCM] seals a token under a key it names and binds it to additional
    data, the command it is for.  The cipher is code of a library: sealing and
    opening are parameters, and the one law the program relies on, that what
    was sealed opens, is a hypothesis.  [Protector] is what the lease and
    delivery transactions ask of it. *)

From S2P Require Import Prelude GoStd GoJson ControlDb Execution CommandDelivery.
Local Open Scope Z_scope.
Local Open Scope go_scope.

(** ** base64.RawURLEncoding.DecodeString *)

Fixpoint url_padded (l : list ascii) : option (list ascii) :=
  match l with
  | [] => Some []
  | [_] => None
  | [a; b] => Some [a; b; "="%char; "="%char]
  | [a; b; c] => Some [a; b; c; "="%char]
  | a :: b :: c :: d :: l' => l' ← url_padded l'; Some (a :: b :: c :: d :: l')
  end.
Definition url_back (a : ascii) : option ascii :=
  if (a =? "-")%char then Some "+"%char else if (a =? "_")%char then Some "/"%char
  else if (a =? "+")%char || (a =? "/")%char || (a =? "=")%char then None else Some a.
Definition RawURLDecodeString (s : string) : option bytes :=
  l ← mapM url_back (filter (fun c => line_break c = false) (list_ascii_of_string s));
  l ← url_padded l; of_bytes <$> b64_decode l.

(** ** The protector *)

Definition ErrAuthentication : goerr := errors_New "protected capability authentication failed".

Record AESGCM := MkAESGCM { aes_KeyID : string; Key : bytes }.

(** cipher.AEAD of AES in Galois counter mode, by key: the size of its nonces,
    [Seal] and [Open] *)
Record AEAD := MkAEAD {
  NonceSize : Z;
  aead_Seal : bytes -> bytes -> bytes -> bytes -> bytes;
  aead_Open : bytes -> bytes -> bytes -> bytes -> option bytes;
}.

Section Cipher.
Context (gcm : AEAD).

(** [aead]; aes.NewCipher takes a key of 32 bytes. *)
Definition check_key (protector : AESGCM) : res unit :=
  fail_if ((aes_KeyID protector ==s "") || (len (Key protector) !=z 32))
    (errors_New "AES-256-GCM key ID and 32-byte key are required").

(** [AESGCM.Protect], with what [context.Cause] says and the nonce it reads, or
    the error of reading one *)
Definition Protect (protector : AESGCM) (cause : res unit) (nonce : res bytes) (plaintext additionalData : bytes) :
    res ProtectedValue :=
  cause;;
  fail_if ((len plaintext =? 0) || (len additionalData =? 0))
    (errors_New "plaintext capability and additional data are required");;
  check_key protector;;
  nonce ← nonce;
  Ok (MkProtected (aes_KeyID protector) "AES-256-GCM" (RawURLEncoding nonce)
        (RawURLEncoding (aead_Seal gcm (Key protector) nonce plaintext additionalData))).

(** [AESGCM.Unprotect] *)
Definition Unprotect (protector : AESGCM) (cause : res unit) (protected : ProtectedValue) (additionalData : bytes) :
    res bytes :=
  cause;;
  fail_if (KeyID protected !=s aes_KeyID protector) ErrKeyUnavailable;;
  fail_if ((Algorithm protected !=s "AES-256-GCM") || (len additionalData =? 0)) ErrAuthentication;;
  check_key protector;;
  match RawURLDecodeString (Nonce protected) with
  | Some nonce =>
      fail_if (len nonce !=z NonceSize gcm) (errors_New "invalid protected capability nonce");;
      match RawURLDecodeString (Ciphertext protected) with
      | Some ciphertext => row (aead_Open gcm (Key protector) nonce ciphertext additionalData) ErrAuthentication
      | None => Err (errors_New "invalid protected capability ciphertext")
      end
  | None => Err (errors_New "invalid protected capability nonce")
  end.
End Cipher.

(** ** What the transactions rely on *)

(** A pair of [Protect] and [Unprotect] that agree. *)
Class Protector (protect : Execution.Protect) (unprotect : CommandDelivery.Unprotect) : Prop :=
  protector_opens plaintext additionalData v :
    protect plaintext additionalData = Ok v -> unprotect v additionalData = Ok plaintext.

(** ** The round trip *)

(** A character of the alphabet, as the URL alphabet writes and reads it *)
Definition url_char (c : ascii) : Prop :=
  (c =? "=")%char = false /\ url_back (raw_url_char c) = Some c /\ line_break (raw_url_char c) = false.

Lemma b64_url_char z : 0 <= z < 64 -> url_char (b64_char z).
Proof.
  intros Hz.
  assert (forallb (fun z => negb (b64_char z =? "=")%char && bool_decide (url_back (raw_url_char (b64_char z)) = Some (b64_char z))
    && negb (line_break (raw_url_char (b64_char z)))) (seqZ 0 64) = true) as H by (vm_compute; reflexivity).
  rewrite forallb_forall in H. specialize (H z). assert (In z (seqZ 0 64)) as Hin by (apply list_elem_of_In, elem_of_seqZ; lia).
  apply H in Hin. unfold url_char. by bools.
Qed.

(** What is left of an encoding without its padding *)
Lemma unpadded_encode l : Forall is_byte l ->
  let unpadded := filter (fun c => c <> "="%char) (b64_encode l) in
  Forall url_char unpadded /\ url_padded unpadded = Some (b64_encode l).
Proof.
  assert (forall z, 0 <= z < 64 -> b64_char z <> "="%char) as Hne.
  { intros z Hz. destruct (b64_url_char z Hz) as (H & _). intros E. rewrite E in H. done. }
  induction l as [|a|a b|a b c l IH] using list3_ind; rewrite ?Forall_cons; unfold is_byte;
    intros Hl; destruct_and?; cbn [b64_encode]; [by split; [constructor|]|..].
  all: repeat first [rewrite filter_cons_True by (apply Hne; Z.div_mod_to_equations; lia)
                    |rewrite filter_cons_False by (intros E; by apply E)|rewrite filter_nil].
  1,2: split; [repeat constructor; apply b64_url_char; Z.div_mod_to_equations; lia|done].
  destruct IH as [IH1 IH2]; [done|]. split.
  - repeat constructor; try (apply b64_url_char; Z.div_mod_to_equations; lia). exact IH1.
  - cbn [url_padded]. by rewrite IH2.
Qed.

Lemma RawURL_round_trip s : RawURLDecodeString (RawURLEncoding s) = Some s.
Proof.
  unfold RawURLDecodeString, RawURLEncoding. rewrite list_ascii_of_string_of_list_ascii.
  destruct (unpadded_encode (to_bytes s) (to_bytes_bytes s)) as [Hc Hp].
  set (l := filter (fun c => c <> "="%char) (b64_encode (to_bytes s))) in *. clearbody l.
  rewrite filter_all by (apply Forall_fmap; eapply Forall_impl; [exact Hc|]; by intros c (_ & _ & ?)).
  assert (mapM url_back (raw_url_char <$> l) = Some l) as ->.
  { clear Hp. induction Hc as [|c l (_ & E & _) _ IH]; [done|]. cbn. rewrite E. cbn. by rewrite IH. }
  cbn. rewrite Hp. cbn. rewrite b64_decode_encode by apply to_bytes_bytes. cbn. by rewrite of_to_bytes.
Qed.

Section Laws.
Context (gcm : AEAD).
Hypothesis opens : forall key nonce plaintext additionalData,
  aead_Open gcm key nonce (aead_Seal gcm key nonce plaintext additionalData) additionalData = Some plaintext.

(** AES-256-GCM is a protector, whatever nonces it reads. *)
#[export] Instance AESGCM_protector p nonce : len nonce = NonceSize gcm ->
  Protector (Protect gcm p (Ok tt) (Ok nonce)) (Unprotect gcm p (Ok tt)).
Proof.
  intros Hn plaintext additionalData v. unfold Protect, Unprotect. intros H. cbn [mbind res_bind] in *.
  apply bind_Ok_inv in H as ([] & H1 & H). apply bind_Ok_inv in H as ([] & H2 & [= <-]).
  cbn [KeyID Algorithm Nonce Ciphertext]. rewrite !String.eqb_refl. cbn [negb fail_if mbind res_bind String.eqb].
  apply fail_if_Ok_inv, orb_false_elim in H1 as [_ H1]. rewrite H1, H2. cbn [negb orb fail_if mbind res_bind].
  rewrite RawURL_round_trip, Hn, Z.eqb_refl. cbn [negb fail_if mbind res_bind]. by rewrite RawURL_round_trip, opens.
Qed.

(** A value sealed for one command, or under another key, is not opened. *)
Lemma Unprotect_other_key p v additionalData : KeyID v <> aes_KeyID p ->
  Unprotect gcm p (Ok tt) v additionalData = Err ErrKeyUnavailable.
Proof. intros Hk. apply String.eqb_neq in Hk. unfold Unprotect. by rewrite Hk. Qed.
End Laws.
