(* ===== verification/Publisher.v ===== *)
(** * execution/delivery/publisher.go: from the outbox to the bus

    A publisher claims outbox messages, reads the protected intent of each,
    asks the tables for the lease or the request it stands for, and publishes
    the envelope on the internal bus, with evidence before and after.  Every
    claim runs several transactions: an [environment] gives the time, the
    failures they meet and what other transactions do to the tables between
    them.  The bus is a function of the message; the messages it was handed are
    returned. *)

From S2P Require Import Prelude GoStd GoJson Envelope GoTime GoFloat GoRaw JsonOrder Contract.
From S2P Require Import ControlDb CommandEvents HostTrust Execution Verification Outbox.
From S2P Require Import CommandDelivery Delivery Dispatcher.
Local Open Scope Z_scope.
Local Open Scope go_scope.

Record PublishAcknowledgement := MkPubAck { ack_Stream : string; ack_Sequence : Z; ack_Duplicate : bool }.

(** [BusPublisher]: by subject, message id and payload *)
Definition BusPublisher := string -> string -> bytes -> res PublishAcknowledgement.

Record OutboxPublisher := MkPublisher {
  pub_Protector : option Unprotect; Owner : string; BatchLimit : Z; ClaimLease : Z; pub_MaxMessageBytes : Z;
}.

(** ** Reading an intent *)

#[export] Instance protected_eta : Eta ProtectedValue := fun v =>
  MkProtected (KeyID v) (Algorithm v) (Nonce v) (Ciphertext v).
#[export] Instance intent_eta : Eta CommandLeaseDeliveryIntent := fun i =>
  MkDeliveryIntent (di_SchemaVersion i) (di_CommandID i) (di_LeaseGeneration i) (di_AttemptIndex i) (di_HostID i)
    (di_HostAuthorityGeneration i) (di_SessionGeneration i) (TokenDigest i) (ProtectedToken i)
    (ExecutionTimeoutMillis i) (di_ExpiresAt i).

Definition protected_fields : list (field ProtectedValue) :=
  [string_field "key_id" (fun s v => v <| KeyID := s |>);
   string_field "algorithm" (fun s v => v <| Algorithm := s |>);
   string_field "nonce" (fun s v => v <| Nonce := s |>);
   string_field "ciphertext" (fun s v => v <| Ciphertext := s |>)].

Definition intent_fields : list (field CommandLeaseDeliveryIntent) :=
  [string_field "schema_version" (fun s i => i <| di_SchemaVersion := s |>);
   string_field "command_id" (fun s i => i <| di_CommandID := s |>);
   int_field "lease_generation" (fun z i => i <| di_LeaseGeneration := z |>);
   int_field "attempt_index" (fun z i => i <| di_AttemptIndex := z |>);
   string_field "host_id" (fun s i => i <| di_HostID := s |>);
   int_field "host_authority_generation" (fun z i => i <| di_HostAuthorityGeneration := z |>);
   int_field "session_generation" (fun z i => i <| di_SessionGeneration := z |>);
   string_field "token_digest" (fun s i => i <| TokenDigest := s |>);
   struct_field "protected_token" true protected_fields ProtectedToken (fun v i => i <| ProtectedToken := v |>);
   int_field "execution_timeout_millis" (fun z i => i <| ExecutionTimeoutMillis := z |>);
   time_field "expires_at" (fun t i => i <| di_ExpiresAt := t |>)].

Definition zero_intent : CommandLeaseDeliveryIntent :=
  MkDeliveryIntent "" "" 0 0 "" 0 0 "" (MkProtected "" "" "" "") 0 zero_time.

(** The text of a decoding error is left out. *)
Inductive intent_text := BadIntent | TrailingValues | Intent (i : CommandLeaseDeliveryIntent).
Definition read_intent (payload : bytes) : intent_text :=
  match decode_value payload with
  | Some (j, rest) =>
      match decode_struct true intent_fields j zero_intent with
      | Some i => if at_EOF rest then Intent i else TrailingValues
      | None => BadIntent
      end
  | None => BadIntent
  end.

#[export] Instance verification_intent_eta : Eta CommandVerificationDeliveryIntent := fun i =>
  MkVerificationIntent (vi_SchemaVersion i) (vi_CommandID i) (vi_AttemptIndex i) (vi_HostID i)
    (vi_SessionGeneration i) (vi_CommandType i) (vi_CommandSchemaVersion i) (vi_TargetResourceID i)
    (vi_CommandPayload i) (vi_CommandPayloadDigest i).

Definition verification_intent_fields : list (field CommandVerificationDeliveryIntent) :=
  [string_field "schema_version" (fun s i => i <| vi_SchemaVersion := s |>);
   string_field "command_id" (fun s i => i <| vi_CommandID := s |>);
   int_field "attempt_index" (fun z i => i <| vi_AttemptIndex := z |>);
   string_field "host_id" (fun s i => i <| vi_HostID := s |>);
   int_field "session_generation" (fun z i => i <| vi_SessionGeneration := z |>);
   string_field "command_type" (fun s i => i <| vi_CommandType := s |>);
   string_field "command_schema_version" (fun s i => i <| vi_CommandSchemaVersion := s |>);
   string_field "target_resource_id" (fun s i => i <| vi_TargetResourceID := s |>);
   raw_field "command_payload";
   string_field "command_payload_digest" (fun s i => i <| vi_CommandPayloadDigest := s |>)].

Definition zero_verification_intent : CommandVerificationDeliveryIntent :=
  MkVerificationIntent "" "" 0 "" 0 "" "" "" "" "".

Definition read_verification_intent (payload : bytes) : option CommandVerificationDeliveryIntent :=
  match decodeStrict verification_intent_fields zero_verification_intent payload with
  | Ok i => Some (i <| vi_CommandPayload := raw_member (fst <$> verification_intent_fields) "command_payload" payload |>)
  | Err _ => None
  end.

(** ** Transactions *)

Definition tx (failure : outage) (f : db -> res db) (d : db) : db * res unit :=
  match failure with
  | AtBegin e | AtQuery e | AtCommit e => (d, Err e)
  | NoOutage => match f d with Ok d' => (d', Ok tt) | Err e => (d, Err e) end
  end.

Definition result_error (r : res unit) : option goerr := match r with Ok _ => None | Err e => Some e end.

Definition deadLetter (failure : outage) (claim : OutboxClaim) (reason : string) (d : db) : db * res unit :=
  tx failure (MarkOutboxDeadLetterTx claim (JObj [("reason", JStr reason)]%string)) d.
Definition completeWithoutPublish (failure : outage) (claim : OutboxClaim) (reason : string) (d : db) : db * res unit :=
  tx failure (MarkOutboxDeliveredTx claim
    (JObj [("boundary", JStr "authority_revalidation"); ("published", JBool false); ("reason", JStr reason)]%string)) d.
(** [recordDispatch] of the two events *)
Definition record_started (failure : outage) (claim : OutboxClaim) (detail : json) (d : db) : db * res unit :=
  tx failure (RecordOutboxDispatchStartedTx claim detail) d.
Definition record_unknown (failure : outage) (claim : OutboxClaim) (detail : json) (d : db) : db * res unit :=
  tx failure (RecordOutboxDispatchUnknownTx claim detail) d.

(** ** Publishing a claim *)

(** What a claim meets: the time, and before each of its transactions what the
    others did, with how the transaction itself fails *)
Record environment := MkEnvironment {
  env_now : Z;
  env_recover : outage;
  env_before_start : db -> db; env_start : outage;
  env_before_finish : db -> db; env_finish : outage;
}.

(** The acknowledgement recorded once the bus has taken the message *)
Definition ack_json (ack : PublishAcknowledgement) (kind : list (string * json)) : json :=
  JObj ([("boundary", JStr "jetstream_puback"); ("duplicate", JBool (ack_Duplicate ack))]%string ++ kind
        ++ [("stream", JStr (ack_Stream ack)); ("stream_sequence", JUint (ack_Sequence ack))]%string).

Definition published := (string * bytes)%type.

(** What the two functions share once the envelope is built: its encoding, the
    evidence before, the bus, and the evidence after.  [Duplicate] and the other
    members of a detail are written in the order of their names. *)
Definition publish_envelope (bus : BusPublisher) (env : environment) (publisher : OutboxPublisher) (claim : OutboxClaim)
    (invalid : string) (started : bytes -> json) (unknown : json) (kind : list (string * json))
    (unknown_error : goerr -> goerr) (envelope : Envelope) (d : db) : db * list published * bool * option goerr :=
  match Encode (MkMessage MessageSchema (cl_MessageID claim) envelope) (pub_MaxMessageBytes publisher) with
  | Err _ => let '(d, r) := deadLetter (env_finish env) claim invalid (env_before_finish env d) in
             (d, [], false, result_error r)
  | Ok busPayload =>
      match record_started (env_start env) claim (started busPayload) (env_before_start env d) with
      | (d, Err e) => (d, [], false, Some e)
      | (d, Ok _) =>
          let sent := [(cl_MessageID claim, busPayload)] in
          match bus Subject (cl_MessageID claim) busPayload with
          | Err e =>
              let '(d, r) := record_unknown (env_finish env) claim unknown (env_before_finish env d) in
              (d, sent, false, Some (match r with Ok _ => Wrapf "%w" [] (unknown_error e)
                                     | Err e' => ErrJoin (unknown_error e) e' end))
          | Ok ack =>
              match tx (env_finish env) (MarkOutboxDeliveredTx claim (ack_json ack kind)) (env_before_finish env d) with
              | (d, Ok _) => (d, sent, true, None)
              | (d, Err e) => (d, sent, false, Some e)
              end
          end
      end
  end.

Section Jsonb.
Context (jsonb_text : json -> bytes).

(** [publishVerificationClaim] *)
Definition request_envelope (request : VerificationRequest) : Envelope :=
  command_envelope (vr_HostID request) (vr_SessionGeneration request)
    ("verification-request/" ++ vr_CommandID request ++ "/" ++ FormatInt (vr_AttemptIndex request))%string
    VerificationRequestSchema (vr_CommandID request) (vr_AttemptIndex request)
    (match request_json request with Some j => marshal j | None => ""%string end).

Definition publishVerificationClaim (bus : BusPublisher) (env : environment) (publisher : OutboxPublisher)
    (claim : OutboxClaim) (outbox : OutboxMessage) (d : db) : db * list published * bool * option goerr :=
  let dead reason d := let '(d, r) := deadLetter (env_finish env) claim reason (env_before_finish env d) in
                       (d, [], false, result_error r) in
  match read_verification_intent (jsonb_text (om_Payload outbox)) with
  | None => dead "invalid_verification_delivery_intent"%string d
  | Some intent =>
      match verification_intent_json intent with
      | None => dead "verification_intent_digest_conflict"%string d
      | Some canonical =>
          if Digest (marshal canonical) !=s om_PayloadDigest outbox
          then dead "verification_intent_digest_conflict"%string d else
          match RecoverCommandVerificationDelivery (env_recover env) intent d with
          | Err e =>
              if errors_Is e ErrInternalDeliveryStale then
                let '(d, r) := completeWithoutPublish (env_finish env) claim "verification_authority_stale"
                                 (env_before_finish env d) in
                (d, [], false, result_error r)
              else dead "verification_evidence_conflict"%string d
          | Ok request =>
              publish_envelope bus env publisher claim "invalid_verification_envelope"
                (fun _ => JObj [("bus_message_id", JStr (om_MessageID outbox)); ("kind", JStr "verification");
                                ("subject", JStr Subject)]%string)
                (JObj [("kind", JStr "verification"); ("subject", JStr Subject)]%string)
                [("kind", JStr "verification")]%string (fun e => e) (request_envelope request) d
          end
      end
  end.

(** [publishClaim] *)
Definition lease_envelope (lease : CommandLease) (payload : json) : Envelope :=
  command_envelope (cl_HostID lease) (cl_SessionGeneration lease)
    ("command-lease/" ++ cl_CommandID lease ++ "/" ++ FormatInt (cl_LeaseGeneration lease))%string
    CommandLeaseSchema (cl_CommandID lease) (cl_AttemptIndex lease) (marshal payload).

Definition publishClaim (bus : BusPublisher) (env : environment) (publisher : OutboxPublisher)
    (outbox : OutboxMessage) (d : db) : db * list published * bool * option goerr :=
  let claim := MkClaim (om_MessageID outbox) (Owner publisher) (om_ClaimGeneration outbox) in
  let dead reason d := let '(d, r) := deadLetter (env_finish env) claim reason (env_before_finish env d) in
                       (d, [], false, r) in
  let answer '(d, sent, accepted, r) := (d, sent, accepted, result_error r) in
  if om_SchemaVersion outbox ==s CommandVerificationDeliverySchema
  then publishVerificationClaim bus env publisher claim outbox d else
  if om_SchemaVersion outbox !=s "kim.internal.command-lease-delivery/v1"
  then answer (dead "outbox_schema_conflict"%string d) else
  match read_intent (jsonb_text (om_Payload outbox)) with
  | BadIntent =>
      let err := errors_New "json: cannot decode delivery intent" in
      let '(d, sent, accepted, r) := dead "invalid_protected_delivery_intent"%string d in
      (d, sent, accepted, Some (match r with Ok _ => Wrapf "%w" [] err | Err e => ErrJoin err e end))
  | TrailingValues => answer (dead "trailing_protected_delivery_intent"%string d)
  | Intent intent =>
      match intent_json intent with
      | Err _ => answer (dead "outbox_payload_digest_conflict"%string d)
      | Ok canonicalIntent =>
          if Digest (marshal canonicalIntent) !=s om_PayloadDigest outbox
          then answer (dead "outbox_payload_digest_conflict"%string d) else
          match RecoverCommandDelivery jsonb_text (env_recover env) (env_now env) intent (pub_Protector publisher) d with
          | Err e =>
              if errors_Is e ErrDeliveryKeyUnavailable
              then (d, [], false, Some (Wrapf "protected Command delivery key revision unavailable: %w" [] e))
              else if errors_Is e ErrInternalDeliveryConflict
              then answer (dead "protected_capability_conflict"%string d)
              else if errors_Is e ErrInternalDeliveryStale then
                let '(d, r) := completeWithoutPublish (env_finish env) claim "authority_stale_before_bus_publish"
                                 (env_before_finish env d) in
                (d, [], false, result_error r)
              else (d, [], false, Some e)
          | Ok lease =>
              match lease_json lease with
              | None => (d, [], false, Some (errors_New "json: error calling MarshalJSON for type json.RawMessage"))
              | Some payload =>
                  publish_envelope bus env publisher claim "invalid_agent_envelope"
                    (fun busPayload => JObj [("bus_message_id", JStr (om_MessageID outbox));
                       ("bus_payload_digest", JStr (Digest busPayload)); ("subject", JStr Subject)]%string)
                    (JObj [("reason", JStr "publish_or_puback_failed"); ("subject", JStr Subject)]%string) []
                    (Wrapf "publish internal Command delivery with unknown outcome: %w" [])
                    (lease_envelope lease payload) d
              end
          end
      end
  end.

(** [PublishOnce]: the claims of a batch one after the other, [envs] being what
    each of them meets; [others] runs between the claiming transaction and each
    claim. *)
Fixpoint publish_batch (bus : BusPublisher) (envs : nat -> environment) (others : nat -> db -> db)
    (publisher : OutboxPublisher) (messages : list OutboxMessage) (n : nat) (count : Z) (err : option goerr) (d : db) :
    db * list published * Z * option goerr :=
  match messages with
  | [] => (d, [], count, err)
  | outbox :: messages =>
      let '(d, sent, accepted, e) := publishClaim bus (envs n) publisher outbox (others n d) in
      let '(count, err) := match e with
        | Some e => (count, Some (match err with None => Wrapf "%w" [] e | Some b => ErrJoin b e end))
        | None => (if accepted then count + 1 else count, err)
        end in
      let '(d, sent', count, err) := publish_batch bus envs others publisher messages (S n) count err d in
      (d, sent ++ sent', count, err)
  end.

Definition PublishOnce (bus : BusPublisher) (claim_failure : outage) (now : Z) (envs : nat -> environment)
    (others : nat -> db -> db) (publisher : OutboxPublisher) (d : db) : db * list published * Z * option goerr :=
  if bool_decide (pub_Protector publisher = None) || (Owner publisher ==s "") || (BatchLimit publisher <? 1)
     || (1000 <? BatchLimit publisher) || (ClaimLease publisher <=? 0) || (pub_MaxMessageBytes publisher <? 1)
  then (d, [], 0, Some (errors_New "complete bounded Command delivery publisher configuration is required")) else
  match claim_failure with
  | AtBegin e | AtQuery e | AtCommit e => (d, [], 0, Some e)
  | NoOutage =>
      match ClaimOutboxTx now (MkClaimRequest (Owner publisher) (BatchLimit publisher) (ClaimLease publisher)
              ["COMMAND_LEASE_DELIVERY_REQUESTED"; "COMMAND_VERIFICATION_DELIVERY_REQUESTED"]%string) d with
      | Err e => (d, [], 0, Some e)
      | Ok (d, messages) => publish_batch bus envs others publisher messages 0 0 None d
      end
  end.
End Jsonb.
