(* ===== verification/DeliveryFlow.v ===== *)
(** * A lease from its grant to the Agent's stream

    The transaction that grants a lease, the token protector, the outbox
    publisher, the bus message and the Gateway put together: while the tables
    hold the lease, what the publisher makes of the granted intent is routed to
    the stream of the Host, and carries the token and the command; the Agent
    accepts it when the payload kept its digest. *)

From S2P Require Import Prelude GoStd GoJson Envelope GoTime GoFloat GoRaw JsonOrder Contract ContractProofs.
From S2P Require Import ControlDb CommandEvents HostTrust Receipts Execution Verification Outbox.
From S2P Require Import CommandDelivery DeliverySteps ControlFrames CommandSteps Outbound Delivery Dispatcher.
From S2P Require Import ControlPlane ExecModule CommandFlow GatewayRoute TokenProtect Publisher.
Local Open Scope Z_scope.
Local Open Scope go_scope.

(** ** The intent and its text *)

Lemma protected_commuting : commuting protected_fields.
Proof. unfold commuting, protected_fields. commute_fields. Qed.

Lemma intent_commuting : commuting intent_fields.
Proof. unfold commuting, intent_fields. commute_fields. Qed.

(** What PostgreSQL makes of a jsonb value: the same value, the members of its
    objects in an order of its own *)
Definition given_back (jsonb_text : json -> bytes) (j : json) : Prop :=
  exists j', decode_value (jsonb_text j) = Some (j', ""%string) /\ reordered j j'.

Definition intent_typed (i : CommandLeaseDeliveryIntent) : Prop :=
  is_i64 (di_LeaseGeneration i) /\ is_i64 (di_AttemptIndex i) /\ is_i64 (di_HostAuthorityGeneration i)
  /\ is_i64 (di_SessionGeneration i) /\ is_i64 (ExecutionTimeoutMillis i) /\ printable (di_ExpiresAt i).

Ltac each_member H := cbn in H; repeat destruct H as [<-|H];
  solve [exact I|reflexivity|discriminate|contradiction|by destruct H|
         match goal with N : ?x <> ?x |- _ => by destruct N end].

Lemma protected_alike v j : reordered (protected_json v) j ->
  forall r, decode_struct true protected_fields j r = Some v.
Proof.
  intros Hr r. unfold protected_json in Hr.
  erewrite (decode_reordered true protected_fields); [|exact protected_commuting| |exact Hr|].
  - by destruct v.
  - known_members.
  - intros a b Ha. apply scalar_alike. each_member Ha.
Qed.

(** An intent is read from the text of its jsonb value. *)
Lemma intent_read_back jsonb_text i j : intent_typed i -> intent_json i = Ok j -> given_back jsonb_text j ->
  read_intent (jsonb_text j) = Intent i.
Proof.
  intros (H1 & H2 & H3 & H4 & H5 & H6) Hj (j' & Hd & Hr). unfold read_intent. rewrite Hd. unfold intent_json in Hj.
  apply bind_Ok_inv in Hj as (t & Ht & [= <-]). unfold time_json in Ht.
  apply bind_Ok_inv in Ht as ([] & _ & Ht). apply bind_Ok_inv in Ht as ([] & _ & [= <-]).
  erewrite (decode_reordered true intent_fields); [|exact intent_commuting| |exact Hr|].
  - cbn -[ParseInt FormatInt parse_time format_time]. 
    repeat (rewrite ParseInt_FormatInt by done; cbn -[ParseInt FormatInt parse_time format_time]).
    rewrite parse_format by done. destruct i as [? ? ? ? ? ? ? ? [] ? ?]. done.
  - known_members.
  - clear Hd Hr. intros a b Ha. destruct (decide (fst a = "protected_token"%string)) as [E|E].
    + assert (snd a = protected_json (ProtectedToken i)) as Ea by each_member Ha.
      intros E' Hs. split; [done|]. intros f Hf Hn r. rewrite E in Hn. clear Ha.
      assert (f = struct_field "protected_token" true protected_fields ProtectedToken (fun v i => i <| ProtectedToken := v |>)) as ->
        by each_member Hf.
      rewrite Ea in *. cbn -[decode_struct protected_fields protected_json].
      by rewrite (protected_alike _ _ Hs), (protected_alike _ _ (reordered_refl _)).
    + apply scalar_alike. each_member Ha.
Qed.

(** ** From the grant to the bus *)

(** The intent of a grant whose token is protected as [v] *)
Definition intent_of (r : CommandLeaseRequest) (g : CommandLeaseGrant) (v : ProtectedValue) : CommandLeaseDeliveryIntent :=
  MkDeliveryIntent "kim.internal.command-lease-delivery/v1" (lr_CommandID r) (LeaseGeneration g) (lg_AttemptIndex g)
    (lg_HostID g) (lg_HostAuthorityGeneration g) (lg_SessionGeneration g) (tokenSHA256 (Token g)) v
    (Z.quot (ExecutionTimeout r) 1000000) (utc (ExpiresAt g)).

(** The message of the outbox that stands for a grant *)
Definition stands_for (r : CommandLeaseRequest) (g : CommandLeaseGrant) (v : ProtectedValue) (m : outbox_row) : Prop :=
  exists j, intent_json (intent_of r g v) = Ok j /\ out_payload m = j /\ out_digest m = digestBytes (marshal j)
  /\ out_schema m = "kim.internal.command-lease-delivery/v1"%string.

Lemma acquired_intent now tok r d d' g protect : DeliveryProtector r = Some protect ->
  AcquireCommandLease now tok r d = Ok (d', g) ->
  exists v m, protect (Token g) (lr_CommandID r) = Ok v
  /\ outbox d' !! lease_message_id (lr_CommandID r) (LeaseGeneration g) = Some m /\ stands_for r g v m.
Proof.
  intros Hp. unfold AcquireCommandLease, protect_token. rewrite Hp. intros H.
  apply bind_Ok_inv in H as ([] & _ & H). apply bind_Ok_inv in H as (v' & Hv & H).
  destruct (protect (RawURLEncoding tok) (lr_CommandID r)) as [v|] eqn:Ev; [|done]. injection Hv as <-.
  do 10 (apply bind_Ok_inv in H as (? & _ & H)). apply bind_Ok_inv in H as (d1 & Hq & [= <- <-]).
  exists v. unfold enqueue_delivery, enqueue in Hq. apply bind_Ok_inv in Hq as (j & Hj & Hq).
  cbn [di_CommandID di_LeaseGeneration di_SchemaVersion Token LeaseGeneration] in *.
  match type of Hq with context [outbox ?d !! ?k] => destruct (outbox d !! k) end; [done|].
  injection Hq as <-. eexists. split; [done|]. split; [apply lookup_insert_eq|]. exists j. split_and!; done.
Qed.

(** A published message is on the bus, its dispatch and its acknowledgement in
    the evidence of the claim. *)
Definition healthy (now : Z) : environment := MkEnvironment now NoOutage id NoOutage id NoOutage.

(** The claim is in force and has no evidence of a dispatch yet. *)
Record claim_ready (claim : OutboxClaim) (d : db) : Prop := MkClaimReady {
  rdy_identity : cl_MessageID claim <> ""%string /\ cl_Owner claim <> ""%string /\ 1 <= ClaimGeneration claim;
  rdy_owned : exists m, outbox d !! cl_MessageID claim = Some m /\ owns claim m = true;
  rdy_attempt : is_Some (outbox_attempts d !! (cl_MessageID claim, ClaimGeneration claim));
  rdy_fresh : forall t, In t ["DISPATCH_STARTED"; "DELIVERY_ACKNOWLEDGED"]%string ->
    outbox_events d !! (cl_MessageID claim, ClaimGeneration claim, t) = None;
}.

Lemma append_ready claim t detail d :
  cl_MessageID claim <> ""%string -> cl_Owner claim <> ""%string -> 1 <= ClaimGeneration claim ->
  is_Some (outbox_attempts d !! (cl_MessageID claim, ClaimGeneration claim)) ->
  outbox_events d !! (cl_MessageID claim, ClaimGeneration claim, t) = None ->
  appendOutboxDeliveryEventTx claim t detail d
  = Ok (d <| outbox_events ::= <[(cl_MessageID claim, ClaimGeneration claim, t) := detail]> |>).
Proof.
  intros H1 H2 H3 [a Ha] Hn. unfold appendOutboxDeliveryEventTx.
  apply String.eqb_neq in H1, H2. rewrite H1, H2, (proj2 (Z.ltb_ge _ _) H3). cbn [orb fail_if mbind res_bind].
  by rewrite Hn, Ha.
Qed.

Lemma published_envelope bus now publisher claim invalid started unknown kind unknown_error e d text ack :
  claim_ready claim d -> Encode (MkMessage MessageSchema (cl_MessageID claim) e) (pub_MaxMessageBytes publisher) = Ok text ->
  bus Subject (cl_MessageID claim) text = Ok ack ->
  exists d', publish_envelope bus (healthy now) publisher claim invalid started unknown kind unknown_error e d
    = (d', [(cl_MessageID claim, text)], true, None)
  /\ outbox_events d' !! (cl_MessageID claim, ClaimGeneration claim, "DISPATCH_STARTED"%string) = Some (started text)
  /\ out_state <$> outbox d' !! cl_MessageID claim = Some "DELIVERED"%string.
Proof.
  intros [(H1 & H2 & H3) (m & Hm & Ho) Ha Hf] He Hb. unfold publish_envelope. rewrite He.
  cbn [env_start env_before_start env_finish env_before_finish healthy id].
  unfold record_started, tx, RecordOutboxDispatchStartedTx.
  rewrite append_ready by (first [done|apply Hf; by left]). rewrite Hb. unfold MarkOutboxDeliveredTx, finish.
  match goal with |- context [update outbox_events ?f d] => set (d1 := update outbox_events f d) end.
  change (outbox d1) with (outbox d). rewrite Hm. cbn [row mbind res_bind]. rewrite Ho. cbn [negb fail_if mbind res_bind].
  match goal with |- context [appendOutboxDeliveryEventTx claim _ _ ?d'] => set (d2 := d') end.
  rewrite append_ready; [|done..|].
  - eexists. split; [reflexivity|]. cbn. rewrite lookup_insert_ne by congruence. by rewrite !lookup_insert_eq.
  - cbn. rewrite lookup_insert_ne by congruence. apply Hf. right. by left.
Qed.

(** ** From the outbox row to a lease and its message *)

Section Granted.
Context (jsonb_text : json -> bytes) (protect : Execution.Protect) (unprotect : CommandDelivery.Unprotect).
Context `{!Protector protect unprotect}.
Context (r : CommandLeaseRequest) (g : CommandLeaseGrant) (command : command_row) (p : json).

(** The lease a grant stands for, as the delivery fills it in from the command *)
Definition granted_lease : CommandLease :=
  MkCommandLease CommandLeaseSchema (lr_CommandID r) (LeaseGeneration g) (lg_AttemptIndex g) (lg_HostID g)
    (lg_HostAuthorityGeneration g) (lg_SessionGeneration g) (Token g) (cmd_type command) (cmd_schema command)
    (cmd_target command) (jsonb_text (cmd_payload command)) (cmd_digest command) (Z.quot (ExecutionTimeout r) 1000000).
(** ... and as the Agent reads it, its payload compacted. *)
Definition agent_lease : CommandLease := granted_lease <| cl_CommandPayload := marshal p |>.

Hypothesis typed : lease_typed granted_lease.
Hypothesis ascii : lease_ascii granted_lease.
Hypothesis p_plain : plain p.
Hypothesis payload_text : raw_json (jsonb_text (cmd_payload command)) = Some (JNum (marshal p)).
Hypothesis checked : check_CommandLease agent_lease = Ok agent_lease.

Lemma agent_lease_positive : lr_CommandID r <> ""%string /\ 1 <= LeaseGeneration g /\ 1 <= lg_AttemptIndex g
  /\ lg_HostID g <> ""%string /\ 1 <= lg_HostAuthorityGeneration g /\ 1 <= lg_SessionGeneration g
  /\ 1 <= Z.quot (ExecutionTimeout r) 1000000.
Proof.
  pose proof checked as H. unfold check_CommandLease, agent_lease, granted_lease in H. apply bind_Ok_inv in H as ([] & H & _).
  apply fail_if_Ok_inv in H. cbn [update cl_SchemaVersion cl_CommandID cl_LeaseGeneration cl_AttemptIndex cl_HostID
    cl_HostAuthorityGeneration cl_SessionGeneration cl_ExecutionTimeoutMillis] in H.
  repeat (apply orb_false_elim in H as [H ?]). bools. by split_and!.
Qed.

Lemma intent_checked v : check_intent (intent_of r g v) = false.
Proof.
  destruct agent_lease_positive as (H1 & H2 & H3 & H4 & H5 & H6 & H7). apply String.eqb_neq in H1, H4.
  unfold check_intent, intent_of. cbn [di_SchemaVersion di_CommandID di_LeaseGeneration di_AttemptIndex di_HostID
    di_HostAuthorityGeneration di_SessionGeneration TokenDigest ExecutionTimeoutMillis].
  unfold tokenSHA256. rewrite H1, H4, sha256_hex_length, !(proj2 (Z.ltb_ge _ _)) by done. done.
Qed.

Lemma intent_is_typed v j : intent_json (intent_of r g v) = Ok j -> intent_typed (intent_of r g v).
Proof.
  intros H. apply bind_Ok_inv in H as (t & H & _). apply bind_Ok_inv in H as ([] & H & _).
  apply fail_if_Ok_inv, orb_false_elim in H as [Hlo Hhi]. apply Z.ltb_ge in Hlo, Hhi. cbn [di_ExpiresAt intent_of] in *.
  destruct typed as (? & ? & ? & ? & ?). unfold intent_typed. cbn. split_and!; try done. by apply utc_printable.
Qed.

Lemma recovered now v d : protect (Token g) (lr_CommandID r) = Ok v -> routable now granted_lease d ->
  commands d !! lr_CommandID r = Some command ->
  RecoverCommandDelivery jsonb_text NoOutage now (intent_of r g v) (Some unprotect) d = Ok granted_lease.
Proof.
  intros Hv Hr Hc. unfold RecoverCommandDelivery. rewrite intent_checked. cbn [fail_if mbind res_bind].
  cbn [ProtectedToken di_CommandID intent_of TokenDigest]. rewrite (protector_opens _ _ _ Hv), String.eqb_refl.
  cbn [negb fail_if mbind res_bind].
  assert (routable now (recovered_lease (intent_of r g v) (Token g)) d) as Hr'
    by (eapply routable_claim; [|exact Hr]; unfold same_claim; split_and!; reflexivity).
  apply (load_iff jsonb_text) in Hr' as Hok. unfold loadCurrentCommandDeliveryTx in *.
  destruct Hr' as [(c & current & active & E & _) _]. rewrite E in *.
  assert (c = command) as ->.
  { unfold delivery_rows in E. cbn [recovered_lease cl_CommandID di_CommandID intent_of] in E. rewrite Hc in E.
    cbn [mbind option_bind] in E. destruct (command_states d !! _); [|done]. destruct (leases d !! _); [|done]. cbn in E.
    destruct (_ && _); [|done]. by injection E. }
  destruct (_ || _ || _); [done|]. destruct (readHostMutationAuthorityTx _ _ _ _) as [a|]; [|done].
  by destruct (_ !=z _).
Qed.

(** The message of the lease, as the Gateway decodes it *)
Definition lease_message (id : string) (text : json) : Message :=
  MkMessage MessageSchema id (lease_envelope granted_lease text).

Lemma lease_text : exists text, lease_json granted_lease = Some text
  /\ DecodeCommandLease (marshal text) = Ok agent_lease.
Proof.
  destruct (lease_text_round_trip granted_lease p typed ascii p_plain payload_text) as (text & H1 & H2).
  exists text. split; [done|]. rewrite H2. exact checked.
Qed.

Lemma positive_u64 z : is_i64 z -> 1 <= z -> is_u64 (u64 z) /\ u64 z <> 0 /\ i64 (u64 z) = z.
Proof.
  intros H H1. assert (is_u64 z) as Hu by (unfold is_i64, is_u64, two63, two64 in *; lia).
  rewrite u64_id, i64_id by done. split_and!; try done. lia.
Qed.

Lemma lease_message_sent id text n : id <> ""%string -> ascii_text id -> 1 <= n -> len (marshal text) <= n ->
  exists busText, Encode (lease_message id text) n = Ok busText /\ forall n', len (marshal text) <= n' -> 1 <= n' ->
    Decode busText n' = Ok (lease_message id text).
Proof.
  intros Hid Hida Hn Hl. destruct agent_lease_positive as (H1 & H2 & H3 & H4 & H5 & H6 & H7).
  destruct typed as (T1 & T2 & T3 & T4 & T5). cbn in T1, T2, T3, T4, T5.
  destruct (positive_u64 _ T4 H6) as (S1 & S2 & S3). destruct (positive_u64 _ T2 H3) as (A1 & A2 & A3).
  assert (forall n', len (marshal text) <= n' -> 1 <= n' -> Validate (lease_envelope granted_lease text) n' = Ok tt) as Hv.
  { intros n' Hn' Hn1. apply (NewEnvelope_valid (lg_HostID g) (u64 (lg_SessionGeneration g)) StreamCommand
      ("command-lease/" ++ lr_CommandID r ++ "/" ++ FormatInt (LeaseGeneration g)) CommandLeaseSchema
      ("command/" ++ lr_CommandID r) (u64 (lg_AttemptIndex g)) (marshal text) n'); try done. cbn. auto. }
  assert (forall n', len (marshal text) <= n' -> 1 <= n' ->
    Encode (lease_message id text) n' = Ok (marshal (message_json (lease_message id text)))) as He.
  { intros n' Hn' Hn1. unfold Encode. cbn [msg_SchemaVersion lease_message OutboxID msg_Envelope].
    apply String.eqb_neq in Hid. rewrite Hid. cbn. by rewrite Hv. }
  eexists. split; [by apply He|]. intros n' Hn' Hn1. apply decode_encoded_message; [by apply He|done| |].
  - pose proof ascii as Ha. unfold lease_ascii in Ha. forall_texts Ha. unfold envelope_ascii.
    split; [assumption|]. split; [ascii_literal|].
    split; [repeat apply ascii_text_app; try assumption; try ascii_literal; apply ascii_text_int|].
    split; [ascii_literal|]. split; [apply ascii_text_app; [ascii_literal|assumption]|].
    split; [apply Exec.sha256_ascii|assumption].
  - unfold envelope_typed. split; [exact S1|]. split; [exact A1|]. unfold is_u64, two64. cbn. lia.
Qed.

(** The claimed message of the outbox, and the publisher it was claimed by *)
Definition claims (publisher : OutboxPublisher) (id : string) (m : outbox_row) (om : OutboxMessage) : Prop :=
  om_MessageID om = id /\ om_Payload om = out_payload m /\ om_PayloadDigest om = out_digest m
  /\ om_SchemaVersion om = out_schema m /\ pub_Protector publisher = Some unprotect.

Lemma grant_published bus now publisher id v m om d text ack :
  stands_for r g v m -> protect (Token g) (lr_CommandID r) = Ok v -> claims publisher id m om ->
  given_back jsonb_text (out_payload m) -> routable now granted_lease d -> commands d !! lr_CommandID r = Some command ->
  claim_ready (MkClaim id (Owner publisher) (om_ClaimGeneration om)) d ->
  lease_json granted_lease = Some text -> forall busText,
  Encode (lease_message id text) (pub_MaxMessageBytes publisher) = Ok busText -> bus Subject id busText = Ok ack ->
  exists d', publishClaim jsonb_text bus (healthy now) publisher om d = (d', [(id, busText)], true, None).
Proof.
  intros (j & Hj & Hpay & Hdig & Hsch) Hv (E1 & E2 & E3 & E4 & E5) Hback Hr Hc Hready Htext busText He Hb.
  unfold publishClaim. rewrite E1, E2, E3, E4, E5, Hpay, Hdig, Hsch. rewrite Hpay in Hback.
  change (_ ==s CommandVerificationDeliverySchema) with false. cbn [String.eqb Ascii.eqb Bool.eqb negb].
  rewrite (intent_read_back _ _ _ (intent_is_typed _ _ Hj) Hj Hback), Hj. unfold digestBytes, Digest.
  rewrite String.eqb_refl. cbn [negb env_recover env_now healthy].
  rewrite (recovered _ _ _ Hv Hr Hc), Htext.
  destruct (published_envelope bus now publisher _ "invalid_agent_envelope"
    (fun busPayload => JObj [("bus_message_id", JStr id); ("bus_payload_digest", JStr (sha256_hex busPayload));
       ("subject", JStr Subject)]%string)
    (JObj [("reason", JStr "publish_or_puback_failed"); ("subject", JStr Subject)]%string) []
    (Wrapf "publish internal Command delivery with unknown outcome: %w" []) (lease_envelope granted_lease text)
    d busText ack Hready He Hb) as (d' & E & _). by exists d'.
Qed.

Lemma lease_message_routed now handler registry mid text busText d s :
  DecodeCommandLease (marshal text) = Ok agent_lease ->
  Decode busText (MaxMessageBytes handler) = Ok (lease_message mid text) -> len (marshal text) <= MaxMessageBytes handler ->
  Consumer handler <> ""%string -> mid <> ""%string -> 1 <= MaxMessageBytes handler ->
  routable now granted_lease d -> inbox d !! (Consumer handler, mid) = None -> is_Some (identities d !! lg_HostID g) ->
  next_route_attempt (Consumer handler) mid d <= MaxInt64 ->
  registry !! lg_HostID g = Some s -> generation s = u64 (lg_SessionGeneration g) ->
  sink s (lease_envelope granted_lease text) = Ok tt ->
  exists d', Handle jsonb_text no_outages now id id handler registry mid busText d
    = (d', Some (s, lease_envelope granted_lease text), ConsumeAck, None).
Proof.
  intros Hdec Hd Hl Hc Hm Hn Hr Hin Hid Hnext Hreg Hgen Hs.
  destruct agent_lease_positive as (H1 & H2 & H3 & H4 & H5 & H6 & H7).
  destruct typed as (T1 & T2 & T3 & T4 & T5). cbn in T1, T2, T3, T4, T5.
  destruct (positive_u64 _ T4 H6) as (S1 & S2 & S3). destruct (positive_u64 _ T2 H3) as (A1 & A2 & A3).
  apply (routable_is_routed jsonb_text now handler registry mid busText d (lease_message mid text) agent_lease s);
    try done; try (by rewrite Hgen).
  - split; [|split; [done|]; split; [|split; [done|]]].
    + apply String.eqb_neq in Hc, Hm. unfold check_delivery, Digest. rewrite Hc, Hm, sha256_hex_length. done.
    + apply (NewEnvelope_valid (lg_HostID g) (u64 (lg_SessionGeneration g)) StreamCommand
      ("command-lease/" ++ lr_CommandID r ++ "/" ++ FormatInt (LeaseGeneration g)) CommandLeaseSchema
      ("command/" ++ lr_CommandID r) (u64 (lg_AttemptIndex g)) (marshal text)); try done. cbn. auto.
    + unfold lease_identity. cbn. by rewrite S3.
  - eapply routable_claim; [|exact Hr]. unfold same_claim. by split_and!.
Qed.
End Granted.

(** What the decoder of the Agent asks of a lease holds of every granted one. *)
Lemma max_generation_nonneg commandID d : 0 <= max_generation commandID d.
Proof. unfold max_generation. induction (grants_of commandID d) as [|g gs IH]; cbn; lia. Qed.

Lemma token_nonempty s : s <> ""%string -> RawURLEncoding s <> ""%string.
Proof.
  intros Hs. unfold RawURLEncoding. destruct s as [|a s]; [done|].
  assert (exists t, b64_encode (to_bytes (String a s)) = b64_char (byte_of a / 4) :: t) as [t ->].
  { unfold to_bytes. cbn [list_ascii_of_string fmap list_fmap]. destruct (byte_of <$> _) as [|b [|c l]]; cbn [b64_encode]; eauto. }
  assert (0 <= byte_of a / 4 < 64) as Hr.
  { pose proof (byte_of_range a). split; [apply Z.div_pos; lia|apply Z.div_lt_upper_bound; lia]. }
  destruct (b64_char_spec _ Hr) as (_ & Hne & _). apply Ascii.eqb_neq in Hne.
  rewrite filter_cons_True by done. done.
Qed.

Lemma marshal_nonempty p : plain p -> marshal p <> ""%string.
Proof. intros Hp E. destruct (write_head p Hp) as (a & t & Ew & _). unfold marshal in E. by rewrite Ew in E. Qed.

Lemma lease_authority_generation now scope t schema host generation d a :
  lease_authority now scope t schema host generation d = Ok a -> AuthorityGeneration a = generation.
Proof.
  unfold lease_authority, readHostMutationAuthorityTx, readHostReadOnlyVerificationAuthorityTx, mutation_authority, read_only_authority.
  intros H. repeat case_match; try done.
  - destruct (_ ≫= _) as [a'|] eqn:E in H; [injection H as ->|done].
    repeat (apply bind_Some in E as (? & _ & E)). case_match eqn:Hc; [|done]. injection E as <-. cbn.
    repeat (apply andb_prop in Hc as [Hc _]). by apply Z.eqb_eq.
  - apply bind_Ok_inv in H as ([] & _ & H). destruct (_ ≫= _) as [a'|] eqn:E in H; [injection H as ->|done].
    repeat (apply bind_Some in E as (? & _ & E)). case_match eqn:Hc; [|done]. injection E as <-. cbn.
    repeat (apply andb_prop in Hc as [Hc _]). by apply Z.eqb_eq.
Qed.

Lemma acquired_grant now tok r d d1 g : AcquireCommandLease now tok r d = Ok (d1, g) ->
  check_lease_request r = Ok tt /\ Token g = RawURLEncoding tok /\ LeaseGeneration g = max_generation (lr_CommandID r) d + 1
  /\ lg_HostAuthorityGeneration g = lr_HostAuthorityGeneration r.
Proof.
  unfold AcquireCommandLease. intros H. apply bind_Ok_inv in H as ([] & Hlr & H). split; [done|].
  do 5 (apply bind_Ok_inv in H as (? & _ & H)). apply bind_Ok_inv in H as (a & Ha & H).
  apply lease_authority_generation in Ha. open_tx; by split_and!.
Qed.

Lemma granted_checked jsonb_text protect now tok r d d1 g request d0 d0' p : reachable d ->
  DeliveryProtector r = Some protect -> AcquireCommandLease now tok r d = Ok (d1, g) ->
  CreateExecutionCommand request d0 = Ok d0' -> commands d !! lr_CommandID r = Some (command_of request) ->
  tok <> ""%string -> 1000000 <= ExecutionTimeout r -> 1 <= lg_SessionGeneration g -> plain p ->
  check_CommandLease (agent_lease jsonb_text r g (command_of request) p)
  = Ok (agent_lease jsonb_text r g (command_of request) p).
Proof.
  intros R Hp Ha Hcr Hc Htok Ht Hs Hpl.
  pose proof (granted_host _ _ _ _ _ _ _ Ha Hc) as Hhost.
  pose proof (lease_acquired _ _ _ _ _ _ Ha) as (st & Hst & _ & Hat & _).
  pose proof (inv_command _ (reachable_inv _ R) (lr_CommandID r)) as I. unfold command_at in I. rewrite Hst in I.
  pose proof (ok_nonneg _ _ _ I) as H0. pose proof (max_generation_nonneg (lr_CommandID r) d) as Hm.
  apply token_nonempty in Htok. apply marshal_nonempty in Hpl.
  destruct (acquired_grant _ _ _ _ _ _ Ha) as (Hlr & Htg & Hlg & Hag).
  unfold check_lease_request in Hlr. rewrite Hp in Hlr.
  apply bind_Ok_inv in Hlr as ([] & Hl1%fail_if_Ok_inv & Hl2%fail_if_Ok_inv).
  unfold CreateExecutionCommand in Hcr. apply bind_Ok_inv in Hcr as ([] & Hid%fail_if_Ok_inv & _).
  repeat (apply orb_false_elim in Hid as [Hid ?]). repeat (apply orb_false_elim in Hl1 as [Hl1 ?]).
  rewrite bool_decide_eq_true_2 in Hl2 by done. cbn [andb] in Hl2.
  apply orb_false_elim in Hl2 as [Hl2 Hl3]. bools. unfold hour in *.
  assert (1 <= Z.quot (ExecutionTimeout r) 1000000 <= 3600000) as Hq.
  { split; [apply Z.quot_le_lower_bound; lia|apply Z.quot_le_upper_bound; lia]. }
  assert (len (marshal p) <> 0) as Hlen by (destruct (marshal p); [done|unfold len; cbn; lia]).
  unfold check_CommandLease, agent_lease, granted_lease.
  cbn [update cl_SchemaVersion cl_CommandID cl_LeaseGeneration cl_AttemptIndex cl_HostID cl_HostAuthorityGeneration
    cl_SessionGeneration cl_LeaseToken cl_CommandType cl_CommandSchemaVersion cl_TargetResourceID cl_CommandPayload
    cl_CommandPayloadDigest cl_ExecutionTimeoutMillis cmd_type cmd_schema cmd_target cmd_digest command_of].
  rewrite Htg, Hhost. cbn [cmd_host command_of].
  repeat match goal with H : ?s <> ""%string |- _ => apply String.eqb_neq in H; rewrite ?H; clear H end.
  unfold digestBytes. rewrite sha256_hex_length.
  rewrite !(proj2 (Z.ltb_ge _ _)), (proj2 (Z.eqb_neq _ _) Hlen) by lia. done.
Qed.

(** C4: a granted lease reaches the Agent.  When a lease of a created command is
    granted with a protector, for at least a millisecond, its message in the
    outbox, once claimed, is published by a publisher that has the key, and the
    Gateway writes it to the stream of the lease's Host, where the Agent decodes
    the lease with the token of the grant, and accepts it exactly when the text of
    the payload, as PostgreSQL gives it back, still has the digest recorded for
    the command (a change in the order of its members makes it refuse).  This
    holds provided the tables still hold the lease at both times, its values are
    machine integers and ASCII text within the size limits, PostgreSQL gives the
    jsonb values back up to the order of their members, the message was not routed
    before, the Host's stream is that of the lease's session, the bus takes the
    message, the stream takes the envelope and nothing fails. *)
Theorem granted_lease_reaches_the_stream jsonb_text protect unprotect `{!Protector protect unprotect}
    now tok r d d1 g request d0 d0' p m om bus ack publisher d2 now2 handler registry s d3 now3 :
  (* a command is created, and a lease of it granted *)
  CreateExecutionCommand request d0 = Ok d0' -> reachable d ->
  let command := command_of request in commands d !! lr_CommandID r = Some command ->
  DeliveryProtector r = Some protect -> AcquireCommandLease now tok r d = Ok (d1, g) -> tok <> ""%string ->
  1000000 <= ExecutionTimeout r -> 1 <= lg_SessionGeneration g ->
  let id := lease_message_id (lr_CommandID r) (LeaseGeneration g) in
  let lease := granted_lease jsonb_text r g command in
  let received := agent_lease jsonb_text r g command p in
  (* the message of the outbox is claimed, and read back *)
  outbox d1 !! id = Some m -> claims unprotect publisher id m om ->
  given_back jsonb_text (out_payload m) -> raw_json (jsonb_text (cmd_payload command)) = Some (JNum (marshal p)) ->
  (* its values are machine integers and ASCII text, within the limits *)
  lease_typed lease -> lease_ascii lease -> plain p ->
  (forall text, lease_json lease = Some text ->
     len (marshal text) <= pub_MaxMessageBytes publisher /\ len (marshal text) <= MaxMessageBytes handler) ->
  1 <= pub_MaxMessageBytes publisher -> 1 <= MaxMessageBytes handler -> Consumer handler <> ""%string ->
  (* at the publisher *)
  routable now2 lease d2 -> commands d2 !! lr_CommandID r = Some command ->
  claim_ready (MkClaim id (Owner publisher) (om_ClaimGeneration om)) d2 ->
  (forall subject text, bus subject id text = Ok ack) ->
  (* at the Gateway *)
  routable now3 lease d3 -> inbox d3 !! (Consumer handler, id) = None -> is_Some (identities d3 !! lg_HostID g) ->
  next_route_attempt (Consumer handler) id d3 <= MaxInt64 ->
  registry !! lg_HostID g = Some s -> generation s = u64 (lg_SessionGeneration g) -> (forall e, sink s e = Ok tt) ->
  exists d2' text d3' e,
    publishClaim jsonb_text bus (healthy now2) publisher om d2 = (d2', [(id, text)], true, None)
    /\ Handle jsonb_text no_outages now3 Datatypes.id Datatypes.id handler registry id text d3
       = (d3', Some (s, e), ConsumeAck, None)
    /\ DecodeCommandLease (Payload e) = Ok received /\ cl_LeaseToken received = Token g
    (* at the Agent of the Host *)
    /\ forall agent, Exec.hostID agent = cmd_host command ->
         Exec.accepts agent e received <-> sha256_hex (marshal p) = cmd_digest command.
Proof.
  intros Hcr R command Hcmd Hp Ha Htok Hms Hsn id lease received Hm Hclaims Hback Hraw Ht Hascii Hplain Hlen Hpn Hhn Hcons Hr2 Hc2 Hready Hbus
    Hr3 Hin Hident Hnext Hreg Hgen Hsink.
  pose proof (granted_checked jsonb_text _ _ _ _ _ _ _ _ _ _ p R Hp Ha Hcr Hcmd Htok Hms Hsn Hplain) as Hcheck.
  pose proof (granted_host _ _ _ _ _ _ _ Ha Hcmd) as Hhost.
  destruct (acquired_intent _ _ _ _ _ _ _ Hp Ha) as (v & m' & Hv & Hm' & Hst). fold id in Hm'.
  rewrite Hm in Hm'. injection Hm' as <-.
  destruct (lease_text jsonb_text r g command p Ht Hascii Hplain Hraw Hcheck) as (text & Htext & Hdec).
  destruct (Hlen _ Htext) as [Hl1 Hl2]. assert (id <> ""%string) as Hid by done.
  assert (ascii_text id) as Hida.
  { pose proof Hascii as H. unfold lease_ascii in H. forall_texts H. unfold id, lease_message_id.
    repeat apply ascii_text_app; try assumption; try ascii_literal. apply ascii_text_int. }
  destruct (lease_message_sent jsonb_text r g command p Ht Hascii Hcheck id text _ Hid Hida Hpn Hl1)
    as (busText & He & Hd).
  destruct (grant_published jsonb_text protect unprotect r g command p Ht Hcheck bus now2 publisher id v m om d2
    text ack Hst Hv Hclaims Hback Hr2 Hc2 Hready Htext busText He (Hbus _ _)) as (d2' & Hpub).
  destruct (lease_message_routed jsonb_text r g command p Ht Hcheck now3 handler registry id text busText d3 s Hdec
    (Hd _ Hl2 Hhn) Hl2 Hcons Hid Hhn Hr3 Hin Hident Hnext Hreg Hgen (Hsink _)) as (d3' & Hroute).
  exists d2', busText, d3', (lease_envelope lease text). split_and!; try done.
  intros agent Hag. split; [by intros []|]. intros Heq. split; try done; cbn; by rewrite Hhost.
Qed.

(** ** What a publisher does with a lease that is not held, or not readable *)

Lemma publish_envelope_sent bus env publisher claim invalid started unknown kind unknown_error e d d' sent accepted err s :
  publish_envelope bus env publisher claim invalid started unknown kind unknown_error e d = (d', sent, accepted, err) ->
  In s sent -> exists text d1, s = (cl_MessageID claim, text)
  /\ Encode (MkMessage MessageSchema (cl_MessageID claim) e) (pub_MaxMessageBytes publisher) = Ok text
  /\ RecordOutboxDispatchStartedTx claim (started text) (env_before_start env d) = Ok d1.
Proof.
  unfold publish_envelope. destruct (Encode _ _) as [text|] eqn:He.
  2: { destruct (deadLetter _ _ _ _). intros [= _ <- _ _] []. }
  destruct (record_started _ _ _ _) as [d1 [[]|]] eqn:Es; [|by intros [= _ <- _ _] []]. intros H Hin.
  assert (sent = [(cl_MessageID claim, text)]) as ->.
  { destruct (bus _ _ _) as [ack|]; [destruct (tx _ _ _) as [? []]|destruct (record_unknown _ _ _ _)]; by injection H. }
  destruct Hin as [<-|[]]. exists text, d1. split; [done|]. split; [done|].
  unfold record_started, tx in Es. destruct (env_start env); try done. by destruct (RecordOutboxDispatchStartedTx _ _ _); simplify_eq.
Qed.

Lemma recovered_held jsonb_text failure now i p d lease :
  RecoverCommandDelivery jsonb_text failure now i p d = Ok lease ->
  exists unprotect token, p = Some unprotect /\ unprotect (ProtectedToken i) (di_CommandID i) = Ok token
  /\ tokenSHA256 token = TokenDigest i /\ cl_LeaseToken lease = token /\ cl_CommandID lease = di_CommandID i
  /\ routable now lease d.
Proof.
  unfold RecoverCommandDelivery. destruct p as [unprotect|]; [|done]. intros H. apply bind_Ok_inv in H as ([] & _ & H).
  destruct (unprotect _ _) as [token|] eqn:Eu; [|done]. apply bind_Ok_inv in H as ([] & Ht & H).
  apply fail_if_Ok_inv, negb_false_iff, String.eqb_eq in Ht.
  destruct (loadCurrentCommandDeliveryTx _ _ _ _) as [l r] eqn:El.
  assert (is_Ok r = true /\ lease = l) as [Hr ->] by (destruct failure, r; simplify_eq; done).
  pose proof (load_iff jsonb_text now (recovered_lease i token) d) as [Hload _]. rewrite El in Hload.
  exists unprotect, token. split_and!; try done.
  all: unfold loadCurrentCommandDeliveryTx in El; destruct (delivery_rows _ _ _) as [[[c st] active]|];
    [|injection El as <- <-; done].
  all: assert (l = scan_command jsonb_text c (recovered_lease i token)) as -> by (repeat case_match; by injection El).
  1,2: done.
  eapply routable_claim; [|by apply Hload]. unfold same_claim. by split_and!.
Qed.

(** Nothing is sent on the other branches. *)
Ltac unsent H Hin :=
  repeat match type of H with
  | context [deadLetter ?a ?b ?c ?d] => destruct (deadLetter a b c d) as [? []]
  | context [completeWithoutPublish ?a ?b ?c ?d] => destruct (completeWithoutPublish a b c d)
  | context [errors_Is ?a ?b] => destruct (errors_Is a b)
  end; injection H as _ <- _ _; by destruct Hin.


(** C37: a passing failure of the query that revalidates a lease is taken for a
    lease that no longer holds: the outbox row is completed as DELIVERED, nothing
    is published, no error is returned, and the row is never claimed again,
    although the lease is in force. *)
Theorem failed_query_drops_the_delivery jsonb_text bus now publisher om intent canonical unprotect token error d :
  om_SchemaVersion om = "kim.internal.command-lease-delivery/v1"%string ->
  read_intent (jsonb_text (om_Payload om)) = Intent intent -> intent_json intent = Ok canonical ->
  om_PayloadDigest om = Digest (marshal canonical) ->
  pub_Protector publisher = Some unprotect -> check_intent intent = false ->
  unprotect (ProtectedToken intent) (di_CommandID intent) = Ok token -> tokenSHA256 token = TokenDigest intent ->
  claim_ready (MkClaim (om_MessageID om) (Owner publisher) (om_ClaimGeneration om)) d ->
  exists d' m, publishClaim jsonb_text bus (MkEnvironment now (AtQuery error) id NoOutage id NoOutage) publisher om d
    = (d', [], false, None)
  /\ outbox d' !! om_MessageID om = Some m /\ out_state m = "DELIVERED"%string
  /\ (forall later eventTypes, claimable later eventTypes m = false) /\ leases d' = leases d.
Proof.
  intros Hs Hi Hj Hdig Hp Hc Hu Ht [(H1 & H2 & H3) (m & Hm & Ho) Ha Hf]. unfold publishClaim.
  rewrite Hs, Hi, Hj, Hdig, Hp. change (_ ==s CommandVerificationDeliverySchema) with false.
  cbn [String.eqb Ascii.eqb Bool.eqb negb]. rewrite String.eqb_refl. unfold RecoverCommandDelivery.
  rewrite Hc, Hu, Ht, String.eqb_refl. cbn [negb fail_if mbind res_bind env_recover env_finish env_before_finish].
  change (errors_Is ErrInternalDeliveryStale ErrDeliveryKeyUnavailable) with false.
  change (errors_Is ErrInternalDeliveryStale ErrInternalDeliveryConflict) with false.
  change (errors_Is ErrInternalDeliveryStale ErrInternalDeliveryStale) with true.
  unfold completeWithoutPublish, tx, MarkOutboxDeliveredTx, finish. cbn [id cl_MessageID cl_Owner ClaimGeneration] in *.
  rewrite Hm. cbn [row mbind res_bind]. rewrite Ho. cbn [negb fail_if mbind res_bind].
  rewrite append_ready; [|done..|apply Hf; cbn; auto].
  eexists _, _. split; [reflexivity|]. cbn. rewrite lookup_insert_eq. split; [done|]. split; [done|]. split; [|done].
  intros later eventTypes. unfold claimable. cbn. apply andb_false_r.
Qed.

(** ** A concrete delivery *)

Definition demo_creation : ExecutionCommandRequest :=
  MkCommandRequest "job-1" "command-1" "host-1" "VOLUME" "volume-1" 1 "TYPE" "schema/v1" "volume-1" (JObj []).
Lemma demo_creation_command : commands demo_created !! "command-1"%string = Some (command_of demo_creation).
Proof. vm_compute. reflexivity. Qed.
Lemma demo_creation_made : exists d, CreateExecutionCommand demo_creation demo_armed = Ok d.
Proof.
  assert (is_Ok (CreateExecutionCommand demo_creation demo_armed) = true) as H by (vm_compute; reflexivity).
  destruct (CreateExecutionCommand demo_creation demo_armed); [eauto|discriminate H].
Qed.

(** A cipher that hides nothing, to run the protector on *)
Definition demo_gcm : AEAD := MkAEAD 12 (fun _ _ plaintext _ => plaintext) (fun _ _ ciphertext _ => Some ciphertext).
Definition demo_key : AESGCM := MkAESGCM "key-1" demo_token.
Definition demo_protect : Execution.Protect := Protect demo_gcm demo_key (Ok tt) (Ok "abcdefghijkl"%string).
Definition demo_unprotect : CommandDelivery.Unprotect := TokenProtect.Unprotect demo_gcm demo_key (Ok tt).

Lemma demo_protector : Protector demo_protect demo_unprotect.
Proof. apply AESGCM_protector; done. Qed.

Definition demo_protected : CommandLeaseRequest :=
  MkLeaseRequest "command-1" 1 60000000000 30000000000 (Some demo_protect) "".
Abbreviation demo_granting := (AcquireCommandLease 9 demo_token demo_protected demo_created).
Definition demo_grant : CommandLeaseGrant := Eval vm_compute in
  match demo_granting with Ok (_, g) => g | Err _ => zero_grant end.
Definition demo_protected_db : db := match demo_granting with Ok (d, _) => d | Err _ => initial end.
Definition demo_publisher : OutboxPublisher := MkPublisher (Some demo_unprotect) "publisher-1" 10 30000000000 65536.
Abbreviation demo_claiming := (ClaimOutboxTx 10 (MkClaimRequest "publisher-1" 10 30000000000
  ["COMMAND_LEASE_DELIVERY_REQUESTED"%string]) demo_protected_db).
Definition demo_claimed_db : db := match demo_claiming with Ok (d, _) => d | Err _ => initial end.
Definition demo_outbox : OutboxMessage := Eval vm_compute in
  match demo_claiming with Ok (_, [m]) => m | _ => MkOutboxMessage "" "" "" "" "" "" JNull 0 0 end.
Definition demo_row : outbox_row := Eval vm_compute in
  default (MkOutbox "" "" "" "" "" JNull "" 0 0 None None 0 None 0) (outbox demo_protected_db !! demo_bus_id).
Definition demo_bus : BusPublisher := fun _ _ _ => Ok (MkPubAck "stream-1" 1 false).

#[local] Opaque demo_created.

Lemma demo_granting_ok : demo_granting = Ok (demo_protected_db, demo_grant).
Proof.
  assert (match demo_granting with Ok (_, g) => Some g | Err _ => None end = Some demo_grant) as H by (vm_compute; reflexivity).
  unfold demo_protected_db. destruct demo_granting as [[d g]|e]; [injection H as ->; exact eq_refl | discriminate H].
Qed.

#[local] Opaque demo_protected_db demo_claimed_db.

(** PostgreSQL giving the members back last first *)
Definition demo_jsonb (j : json) : bytes := marshal (match j with JObj ms => JObj (rev ms) | _ => j end).

Lemma demo_given_back : given_back demo_jsonb (out_payload demo_row).
Proof.
  eexists. split; [vm_compute; reflexivity|]. eapply reordered_obj; [reflexivity| |].
  - repeat constructor.
  - exact (Permutation_rev _).
Qed.

Lemma demo_lease_held : routable 20 (granted_lease demo_jsonb demo_protected demo_grant (command_of demo_creation)) demo_claimed_db.
Proof. apply (load_iff demo_jsonb). vm_compute. reflexivity. Qed.

Lemma demo_claim_ready : claim_ready (MkClaim demo_bus_id "publisher-1" 1) demo_claimed_db.
Proof.
  split.
  - split_and!; done.
  - eexists. split; vm_compute; reflexivity.
  - vm_compute. eexists. reflexivity.
  - intros t [<-|[<-|[]]]; vm_compute; reflexivity.
Qed.

Lemma granted_lease_reaches_the_stream_witness : exists d2' text d3' e,
  publishClaim demo_jsonb demo_bus (healthy 20) demo_publisher demo_outbox demo_claimed_db
  = (d2', [(demo_bus_id, text)], true, None)
  /\ Handle demo_jsonb no_outages 20 id id demo_handler demo_streams demo_bus_id text demo_claimed_db
     = (d3', Some (demo_sink, e), ConsumeAck, None)
  /\ DecodeCommandLease (Payload e) = Ok (agent_lease demo_jsonb demo_protected demo_grant (command_of demo_creation) (JObj []))
  /\ cl_LeaseToken (agent_lease demo_jsonb demo_protected demo_grant (command_of demo_creation) (JObj [])) = Token demo_grant
  /\ forall agent, Exec.hostID agent = "host-1"%string ->
       Exec.accepts agent e (agent_lease demo_jsonb demo_protected demo_grant (command_of demo_creation) (JObj [])) <->
       sha256_hex (marshal (JObj [])) = cmd_digest (command_of demo_creation).
Proof.
  destruct demo_creation_made as [demo_made Hmade].
  apply (granted_lease_reaches_the_stream demo_jsonb demo_protect demo_unprotect (Protector0 := demo_protector)
    9 demo_token demo_protected demo_created demo_protected_db demo_grant demo_creation demo_armed demo_made (JObj []) demo_row demo_outbox
    demo_bus (MkPubAck "stream-1" 1 false) demo_publisher demo_claimed_db 20 demo_handler demo_streams demo_sink
    demo_claimed_db 20).
  - exact Hmade.
  - exact demo_created_reachable.
  - exact demo_creation_command.
  - reflexivity.
  - exact demo_granting_ok.
  - discriminate.
  - vm_compute. discriminate.
  - vm_compute. discriminate.
  - vm_compute. reflexivity.
  - split_and!; reflexivity.
  - exact demo_given_back.
  - vm_compute. reflexivity.
  - unfold lease_typed, is_i64. vm_compute. repeat split; discriminate.
  - unfold lease_ascii. cbn. repeat (constructor; [ascii_literal|]). constructor.
  - done.
  - intros text H. vm_compute in H. injection H as <-. vm_compute. split; discriminate.
  - vm_compute. discriminate.
  - vm_compute. discriminate.
  - discriminate.
  - exact demo_lease_held.
  - vm_compute. reflexivity.
  - exact demo_claim_ready.
  - done.
  - exact demo_lease_held.
  - vm_compute. reflexivity.
  - vm_compute. eexists. reflexivity.
  - vm_compute. discriminate.
  - reflexivity.
  - reflexivity.
  - done.
Defined.

Abbreviation demo_publishing env := (publishClaim demo_jsonb demo_bus env demo_publisher demo_outbox demo_claimed_db).
Definition demo_published_db : db := fst (fst (fst (demo_publishing (healthy 20)))).
Definition demo_published : list published := Eval vm_compute in snd (fst (fst (demo_publishing (healthy 20)))).

Lemma demo_publishing_ok : demo_publishing (healthy 20) = (demo_published_db, demo_published, true, None).
Proof.
  assert ((let '(_, sent, done, err) := demo_publishing (healthy 20) in (sent, done, err)) = (demo_published, true, None)) as H
    by (vm_compute; reflexivity).
  unfold demo_published_db. destruct (demo_publishing (healthy 20)) as [[[d sent] ok] err].
  injection H as H1 H2 H3. subst. exact eq_refl.
Qed.

#[local] Opaque demo_published_db.


Definition demo_intent : CommandLeaseDeliveryIntent :=
  intent_of demo_protected demo_grant (MkProtected "key-1" "AES-256-GCM" "YWJjZGVmZ2hpamts"
    "TURFeU16UTFOamM0T1dGaVkyUmxaakF4TWpNME5UWTNPRGxoWW1Oa1pXWQ").

Lemma failed_query_drops_the_delivery_witness : exists d' m,
  demo_publishing (MkEnvironment 20 (AtQuery (errors_New "connection reset")) id NoOutage id NoOutage) = (d', [], false, None)
  /\ outbox d' !! demo_bus_id = Some m /\ out_state m = "DELIVERED"%string
  /\ (forall later eventTypes, claimable later eventTypes m = false) /\ leases d' = leases demo_claimed_db.
Proof.
  apply (failed_query_drops_the_delivery demo_jsonb demo_bus 20 demo_publisher demo_outbox demo_intent
    (out_payload demo_row) demo_unprotect (Token demo_grant) (errors_New "connection reset") demo_claimed_db).
  - reflexivity.
  - vm_compute. reflexivity.
  - vm_compute. reflexivity.
  - vm_compute. reflexivity.
  - reflexivity.
  - vm_compute. reflexivity.
  - vm_compute. reflexivity.
  - vm_compute. reflexivity.
  - exact demo_claim_ready.
Defined.
