(* ===== verification/Northbound.v ===== *)
(** * northbound/resource and postgres/northbound_common.go

    What the Northbound resources share: their errors, the principal of a
    request, identifiers, the text functions of their validation, role bindings
    and the audit trail. *)

From S2P Require Import Prelude GoStd GoJson ControlDb.
Local Open Scope Z_scope.
Local Open Scope go_scope.

(** ** Errors and principals *)

Module resource.
Definition ErrValidation : goerr := errors_New "resource validation failed".
Definition ErrUnauthenticated : goerr := errors_New "Northbound principal is unauthenticated".
Definition ErrForbidden : goerr := errors_New "resource action is forbidden".
Definition ErrNotFound : goerr := errors_New "resource was not found".
Definition ErrConflict : goerr := errors_New "resource authority conflict".
Definition ErrStaleRevision : goerr := errors_New "resource revision is stale".
Definition ErrIdempotencyConflict : goerr := errors_New "resource idempotency conflict".
Definition ErrDependencyConflict : goerr := errors_New "resource has dependent resources".
Definition ErrDeleteProtected : goerr := errors_New "resource deletion is protected".
Definition ErrServiceUnavailable : goerr := errors_New "resource authority is unavailable".

Record Principal := MkPrincipal { Issuer : string; Subject : string; Type_ : string }.

Definition Valid (p : Principal) : bool :=
  (Issuer p !=s "") && (Subject p !=s "") && ((Type_ p ==s "HUMAN") || (Type_ p ==s "AUTOMATION")).

(** [NewID] of its 16 random bytes *)
Definition version_bits (value : list Z) : list Z :=
  alter (fun b => Z.lor (Z.land b 15) 64) 6%nat (alter (fun b => Z.lor (Z.land b 63) 128) 8%nat value).
Definition format_id (value : list Z) : string :=
  let part i n := hex_of_bytes (take n (drop i value)) in
  (part 0%nat 4%nat ++ "-" ++ part 4%nat 2%nat ++ "-" ++ part 6%nat 2%nat ++ "-" ++ part 8%nat 2%nat
   ++ "-" ++ part 10%nat 6%nat)%string.
Definition NewID (value : list Z) : string := format_id (version_bits value).
End resource.

(** ** Text *)

(** The encodings of the runes of [unicode.IsSpace] *)
Definition spaces : list (list Z) :=
  ((fun b => [b]) <$> [9; 10; 11; 12; 13; 32])
  ++ [[194; 133]; [194; 160]; [225; 154; 128]; [226; 128; 168]; [226; 128; 169]; [226; 128; 175];
      [226; 129; 159]; [227; 128; 128]]
  ++ ((fun b => [226; 128; b]) <$> seqZ 128 11).

Fixpoint strip_prefix (prefix l : list Z) : option (list Z) :=
  match prefix, l with
  | [], _ => Some l
  | a :: prefix, b :: l => if a =? b then strip_prefix prefix l else None
  | _ :: _, [] => None
  end.
(** One of the [spaces] at the front, each of them written [turn]ed *)
Definition strip_space (turn : list Z -> list Z) (l : list Z) : option (list Z) :=
  foldr (fun s r => match strip_prefix (turn s) l with Some l' => Some l' | None => r end) None spaces.
Fixpoint trim (turn : list Z -> list Z) (fuel : nat) (l : list Z) : list Z :=
  match fuel with
  | O => l
  | S fuel => match strip_space turn l with Some l' => trim turn fuel l' | None => l end
  end.
(** [strings.TrimSpace] *)
Definition TrimSpace (s : string) : string :=
  let l := to_bytes s in
  let l := trim id (length l) l in
  of_bytes (rev (trim (@rev Z) (length l) (rev l))).

(** [strings.ToLower] of ASCII text; other bytes are left as they are. *)
Definition lower (c : ascii) : ascii :=
  if (65 <=? byte_of c) && (byte_of c <=? 90) then ascii_of (byte_of c + 32) else c.
Definition ToLower (s : string) : string := string_of_list_ascii (lower <$> list_ascii_of_string s).

(** ** Patterns *)

Definition hex_lower (c : ascii) : bool :=
  ((48 <=? byte_of c) && (byte_of c <=? 57)) || ((97 <=? byte_of c) && (byte_of c <=? 102)).
Definition one_of (cs : string) (c : ascii) : bool := existsb (Ascii.eqb c) (list_ascii_of_string cs).
(** A pattern that is a list of classes matches a text of that length. *)
Definition matches (pattern : list (ascii -> bool)) (s : string) : bool :=
  let l := list_ascii_of_string s in
  Nat.eqb (length pattern) (length l) && forallb (fun pc => fst pc (snd pc)) (zip pattern l).

Definition uuid_pattern : list (ascii -> bool) :=
  replicate 8 hex_lower ++ [one_of "-"] ++ replicate 4 hex_lower ++ [one_of "-"] ++ [one_of "4"]
  ++ replicate 3 hex_lower ++ [one_of "-"] ++ [one_of "89ab"] ++ replicate 3 hex_lower ++ [one_of "-"]
  ++ replicate 12 hex_lower.
(** [idPattern] *)
Definition idPattern (s : string) : bool := matches uuid_pattern s.
(** [digestPattern] *)
Definition digestPattern (s : string) : bool := matches (replicate 64 hex_lower) s.
(** [sourcePattern] *)
Definition source_char (c : ascii) : bool :=
  ((48 <=? byte_of c) && (byte_of c <=? 57)) || ((97 <=? byte_of c) && (byte_of c <=? 122)).
Definition sourcePattern (s : string) : bool :=
  match list_ascii_of_string s with
  | a :: l => source_char a && forallb (fun c => source_char c || one_of "._-" c) l
              && (Nat.leb (length l) 127)
  | [] => false
  end.

(** ** Roles and audits *)

(** kim.northbound_role_bindings_current *)
Record binding_row := MkBinding {
  bnd_issuer : string; bnd_subject : string; bnd_type : string; bnd_scope_type : string; bnd_scope_id : string;
  bnd_role : string; bnd_state : string;
}.

Definition roles_for (action : string) : list string :=
  if (action ==s "READ") || (action ==s "LIST") then ["READER"; "WRITER"; "ADMIN"]%string
  else if action ==s "UPDATE" then ["WRITER"; "ADMIN"]%string else ["ADMIN"%string].

(** [authorizeNorthboundTx] *)
Definition binds (p : resource.Principal) (roles : list string) (projectID : string) (b : binding_row) : bool :=
  (bnd_issuer b ==s resource.Issuer p) && (bnd_subject b ==s resource.Subject p) && (bnd_type b ==s resource.Type_ p)
  && (bnd_state b ==s "ACTIVE") && existsb (String.eqb (bnd_role b)) roles
  && (((bnd_scope_type b ==s "SYSTEM") && (bnd_scope_id b ==s ""))
      || ((bnd_scope_type b ==s "PROJECT") && (bnd_scope_id b ==s projectID))).
Definition authorizeNorthboundTx (bindings : gmap string binding_row) (p : resource.Principal)
    (action projectID : string) : bool :=
  any_row (fun _ b => binds p (roles_for action) projectID b) bindings.

(** kim.northbound_audit_evidence *)
Record audit_row := MkAudit {
  aud_request : string; aud_principal : resource.Principal; aud_action : string; aud_resource_type : string;
  aud_resource : string; aud_scope_type : string; aud_scope : string; aud_revision : option Z; aud_result : string;
  aud_reason : string; aud_digest : option string;
}.

(** [auditTx] under the identifier it draws *)
Definition auditTx (auditID : string) (p : resource.Principal)
    (requestID action resourceType resourceID : string) (revision : Z)
    (scopeType scopeID result reason digest : string) (audits : gmap string audit_row) : res (gmap string audit_row) :=
  fail_if (bool_decide (is_Some (audits !! auditID))) (unique_violation "northbound_audit_evidence");;
  fail_if ((requestID ==s "") || (MaxInt64 <? revision) || ((digest !=s "") && negb (hex64 digest)))
    (check_violation "northbound_audit_evidence");;
  Ok (<[auditID := MkAudit requestID p action resourceType resourceID scopeType scopeID
         (if revision =? 0 then None else Some revision) result reason (if digest ==s "" then None else Some digest)]> audits).

(** ** Identifiers are well formed *)

Lemma hex_digit_lower z : 0 <= z < 16 -> hex_lower (hex_digit z) = true.
Proof.
  intros Hz. assert (forallb (fun z => hex_lower (hex_digit z)) (seqZ 0 16) = true) as H by (vm_compute; reflexivity).
  rewrite forallb_forall in H. apply H, list_elem_of_In, elem_of_seqZ. lia.
Qed.

Example trims : TrimSpace (of_bytes [32; 194; 160; 97; 32; 98; 227; 128; 128; 10]) = "a b"%string.
Proof. vm_compute. reflexivity. Qed.
Example lowers : ToLower "AbC1"%string = "abc1"%string. Proof. reflexivity. Qed.
Example an_id : idPattern (resource.NewID (seqZ 0 16)) = true. Proof. vm_compute. reflexivity. Qed.
