(* ===== verification/ImageCatalog.v ===== *)
(** * northbound/image/service.go and postgres/northbound_image.go: Images

    The Image resource: logical revisions a caller declares with the digest it
    expects, ingestion operations that make an Agent fetch the artifact, and the
    catalogue from which placement takes verified Images.  The tables extend
    those of the control plane: an ingestion runs as an execution command, and
    its verification evidence decides it.  Columns nothing reads are left out;
    [statement_timestamp()] is the [now] of a call. *)

From S2P Require Import Prelude GoStd GoJson ControlDb CommandEvents HostTrust Execution Verification Northbound.
Local Open Scope Z_scope.
Local Open Scope go_scope.

(** ** The contract: northbound/image/service.go *)

Record Desired := MkDesired {
  de_ProjectID : string; de_Name : string; de_Architecture : string; de_Format : string; de_ExpectedDigest : string;
  de_SourceID : string; de_Visibility : string; de_DeleteProtection : bool;
}.
Record ImageResource := MkImageResource {
  im_ID : string; im_Desired : Desired; im_VerifiedDigest : option string; im_VerifiedSizeBytes : option Z;
  im_VerificationState : string; im_LifecycleState : string; im_Revision : Z; im_CreatedAt : Z; im_UpdatedAt : Z;
}.
Record CreateRequest := MkCreateRequest {
  cq_Desired : Desired; cq_IdempotencyKey : string; cq_RequestID : string; CanonicalPath : string;
}.
Record Patch := MkPatch {
  pa_Name : option string; pa_Architecture : option string; pa_Format : option string;
  pa_ExpectedDigest : option string; pa_SourceID : option string; pa_Visibility : option string;
  pa_LifecycleState : option string; pa_DeleteProtection : option bool;
}.
Record ListRequest := MkListRequest { lq_ProjectID : string; AfterID : string; lq_Limit : Z }.
Record Page := MkPage { Items : list ImageResource; NextAfter : string }.
Record Operation := MkOperation {
  op_ID : string; op_Type : string; op_TargetResourceType : string; op_TargetResourceID : string;
  op_TargetRevision : Z; op_AcceptedAt : Z; op_Phase : string; op_TerminalState : option string;
  op_ErrorCode : option string; op_Retryable : bool; op_Cancellable : bool; op_CompletedAt : option Z;
}.
Record IngestionRequest := MkIngestionRequest { iq_IdempotencyKey : string; iq_RequestID : string }.

#[export] Instance desired_eta : Eta Desired := fun d =>
  MkDesired (de_ProjectID d) (de_Name d) (de_Architecture d) (de_Format d) (de_ExpectedDigest d) (de_SourceID d)
    (de_Visibility d) (de_DeleteProtection d).
#[export] Instance create_request_eta : Eta CreateRequest := fun r =>
  MkCreateRequest (cq_Desired r) (cq_IdempotencyKey r) (cq_RequestID r) (CanonicalPath r).
#[export] Instance patch_eta : Eta Patch := fun p =>
  MkPatch (pa_Name p) (pa_Architecture p) (pa_Format p) (pa_ExpectedDigest p) (pa_SourceID p) (pa_Visibility p)
    (pa_LifecycleState p) (pa_DeleteProtection p).

Definition one_in (l : list string) (s : string) : bool := existsb (String.eqb s) l.
Definition architectures : list string := ["X86_64"; "AARCH64"]%string.
Definition formats : list string := ["RAW"; "QCOW2"]%string.
Definition visibilities : list string := ["PRIVATE"; "SHARED"; "PUBLIC"]%string.

(** [validDesired] *)
Definition validDesired (d : Desired) : bool :=
  idPattern (de_ProjectID d) && (de_Name d !=s "") && (len (de_Name d) <=? 255)
  && one_in architectures (de_Architecture d) && one_in formats (de_Format d) && digestPattern (de_ExpectedDigest d)
  && sourcePattern (de_SourceID d) && one_in visibilities (de_Visibility d).

(** [DesiredDigest] *)
Definition desired_json (d : Desired) : json :=
  JObj [("projectId", JStr (de_ProjectID d)); ("name", JStr (de_Name d)); ("architecture", JStr (de_Architecture d));
        ("format", JStr (de_Format d)); ("expectedDigest", JStr (de_ExpectedDigest d));
        ("sourceId", JStr (de_SourceID d)); ("visibility", JStr (de_Visibility d));
        ("deleteProtection", JBool (de_DeleteProtection d))]%string.
Definition DesiredDigest (d : Desired) : string := sha256_hex (marshal (desired_json d)).

(** [Patch.empty], [Patch.valid] *)
Definition patch_empty (p : Patch) : bool :=
  bool_decide (pa_Name p = None) && bool_decide (pa_Architecture p = None) && bool_decide (pa_Format p = None)
  && bool_decide (pa_ExpectedDigest p = None) && bool_decide (pa_SourceID p = None)
  && bool_decide (pa_Visibility p = None) && bool_decide (pa_LifecycleState p = None)
  && bool_decide (pa_DeleteProtection p = None).
Definition when {A} (o : option A) (p : A -> bool) : bool := match o with Some a => p a | None => true end.
Definition patch_valid (p : Patch) : bool :=
  when (pa_Name p) (fun s => (s !=s "") && (len s <=? 255)) && when (pa_Architecture p) (one_in architectures)
  && when (pa_Format p) (one_in formats) && when (pa_ExpectedDigest p) digestPattern
  && when (pa_SourceID p) sourcePattern && when (pa_Visibility p) (one_in visibilities)
  && when (pa_LifecycleState p) (one_in ["ACTIVE"; "DEPRECATED"]%string).

(** ** The tables *)

(** kim.northbound_image_revision_evidence, by image and revision: the desired
    state and its digest *)
Record revision_row := MkRevisionRow { rev_desired : Desired; rev_digest : string }.
(** kim.northbound_images_current *)
Record image_row := MkImageRow {
  img_revision : Z; img_owner : string; img_lifecycle : string; img_verification : string;
  img_digest : option string; img_size : option Z; img_operation : option string; img_authority : Z;
  img_deleted : option Z; img_created : Z; img_updated : Z;
}.
(** kim.northbound_image_idempotency_evidence, by issuer, subject, project, key *)
Record image_key_row := MkImageKey { iky_digest : string; iky_image : string; iky_revision : Z; iky_request : string }.
(** kim.image_ingestion_operation_evidence *)
Record ingestion_row := MkIngestion {
  ing_image : string; ing_revision : Z; ing_generation : Z; ing_source : string; ing_expected : string;
  ing_issuer : string; ing_subject : string; ing_request : string; ing_key : string; ing_digest : string;
  ing_accepted : Z;
}.
(** kim.image_ingestion_operations_current *)
Record ingestion_state_row := MkIngestionState {
  ist_phase : string; ist_terminal : option string; ist_error : option string; ist_retryable : bool;
  ist_cancellable : bool; ist_attempt : Z; ist_completed : option Z;
}.
(** kim.image_ingestion_attempt_evidence, by operation and attempt *)
Record ingestion_attempt_row := MkIngestionAttempt { iat_identity : string; iat_response : string }.
(** kim.image_ingestion_command_evidence, by operation *)
Record ingestion_command_row := MkIngestionCommand {
  icm_job : string; icm_command : string; icm_host : string; icm_authority : Z; icm_digest : string;
}.
(** kim.image_artifact_observation_evidence *)
Record artifact_observation_row := MkArtifactObservation {
  aob_operation : string; aob_command : string; aob_verification : string; aob_attempt : Z; aob_image : string;
  aob_revision : Z; aob_generation : Z; aob_source : string; aob_size : Z; aob_digest : string; aob_identity : string;
  aob_observation : Z; aob_verifier : string; aob_read_back : string; aob_evidence : string;
}.
(** kim.image_artifact_verification_evidence *)
Record artifact_verification_row := MkArtifactVerification {
  avr_operation : string; avr_observation : string; avr_expected : string; avr_observed : string; avr_size : Z;
  avr_state : string; avr_reason : string; avr_digest : string;
}.
(** kim.image_ingestion_terminal_evidence *)
Record terminal_row := MkTerminal {
  trm_operation : string; trm_verification : string; trm_state : string; trm_digest : string;
}.
(** kim.image_revision_evidence, by image and revision *)
Record catalog_revision_row := MkCatalogRevision {
  crv_owner : string; crv_format : string; crv_size : Z; crv_declared : string; crv_observed : string;
  crv_signature : string; crv_source : string; crv_visibility : string; crv_state : string; crv_reason : string;
  crv_metadata : json; crv_metadata_digest : string; crv_digest : string;
}.
(** kim.images_current *)
Record catalog_image_row := MkCatalogImage {
  cim_revision : Z; cim_owner : string; cim_lifecycle : string; cim_authority : Z;
}.

(** The tables above, those of the control plane, the projects and roles, and
    the Images that kim.placement_admission_decisions and
    kim.vm_materialization_plan_evidence name *)
Record catalogue := MkCatalogue {
  control : db;
  project_states : gmap string string;
  role_bindings : gmap string binding_row;
  audits : gmap string audit_row;
  image_revisions : gmap (string * Z) revision_row;
  images : gmap string image_row;
  image_keys : gmap (string * string * string * string) image_key_row;
  ingestions : gmap string ingestion_row;
  ingestion_states : gmap string ingestion_state_row;
  ingestion_attempts : gmap (string * Z) ingestion_attempt_row;
  ingestion_commands : gmap string ingestion_command_row;
  artifact_observations : gmap string artifact_observation_row;
  artifact_verifications : gmap string artifact_verification_row;
  ingestion_terminals : gmap string terminal_row;
  catalog_revisions : gmap (string * Z) catalog_revision_row;
  catalog_images : gmap string catalog_image_row;
  admitted_images : gset string;
  planned_images : gset string;
}.

#[export] Instance image_row_eta : Eta image_row := fun r =>
  MkImageRow (img_revision r) (img_owner r) (img_lifecycle r) (img_verification r) (img_digest r) (img_size r)
    (img_operation r) (img_authority r) (img_deleted r) (img_created r) (img_updated r).
#[export] Instance ingestion_state_eta : Eta ingestion_state_row := fun r =>
  MkIngestionState (ist_phase r) (ist_terminal r) (ist_error r) (ist_retryable r) (ist_cancellable r) (ist_attempt r)
    (ist_completed r).
#[export] Instance catalog_image_eta : Eta catalog_image_row := fun r =>
  MkCatalogImage (cim_revision r) (cim_owner r) (cim_lifecycle r) (cim_authority r).
#[export] Instance catalogue_eta : Eta catalogue := fun d =>
  MkCatalogue (control d) (project_states d) (role_bindings d) (audits d) (image_revisions d) (images d) (image_keys d)
    (ingestions d) (ingestion_states d) (ingestion_attempts d) (ingestion_commands d) (artifact_observations d)
    (artifact_verifications d) (ingestion_terminals d) (catalog_revisions d) (catalog_images d) (admitted_images d)
    (planned_images d).

(** ** Statements *)

(** [length(text)] counts characters. *)
Definition text_length (s : string) : Z :=
  Z.of_nat (length (List.filter (fun b => negb ((128 <=? b) && (b <=? 191))) (to_bytes s))).
Definition revision_ok (revision : Z) (d : Desired) : bool :=
  (0 <? revision) && (1 <=? text_length (de_Name d)) && (text_length (de_Name d) <=? 255)
  && one_in architectures (de_Architecture d) && one_in formats (de_Format d) && hex64 (de_ExpectedDigest d)
  && sourcePattern (de_SourceID d) && one_in visibilities (de_Visibility d).

(** A bigint column that is counted up, and one a uint64 is stored in *)
Definition bump (generation : Z) : res Z := fail_if (MaxInt64 <=? generation) out_of_range;; Ok (generation + 1).
Definition as_bigint (z : Z) : res Z := fail_if (MaxInt64 <? z) out_of_range;; Ok z.

(** [insertNorthboundImageRevisionTx] *)
Definition insertNorthboundImageRevisionTx (id : string) (revision : Z) (desired : Desired) (digest : string)
    (d : catalogue) : res catalogue :=
  revision ← as_bigint revision;
  fail_if (negb (revision_ok revision desired) || negb (hex64 digest))
    (check_violation "northbound_image_revision_evidence");;
  fail_if (bool_decide (is_Some (image_revisions d !! (id, revision))))
    (unique_violation "northbound_image_revision_evidence");;
  Ok (d <| image_revisions ::= <[(id, revision) := MkRevisionRow desired digest]> |>).

(** [loadNorthboundImageTx] *)
Definition resource_of (id : string) (c : image_row) (e : revision_row) : ImageResource :=
  MkImageResource id ((rev_desired e) <| de_ProjectID := img_owner c |>) (img_digest c) (img_size c) (img_verification c)
    (img_lifecycle c) (img_revision c) (img_created c) (img_updated c).
Definition loadNorthboundImageTx (id : string) (d : catalogue) : res ImageResource :=
  c ← row (images d !! id) ErrNoRows;
  e ← row (image_revisions d !! (id, img_revision c)) ErrNoRows;
  fail_if (img_lifecycle c ==s "DELETED") ErrNoRows;;
  Ok (resource_of id c e).

(** [loadOperationTx] *)
Definition loadOperationTx (id : string) (d : catalogue) : res Operation :=
  o ← row (ingestions d !! id) ErrNoRows;
  c ← row (ingestion_states d !! id) ErrNoRows;
  Ok (MkOperation id "IMAGE_ARTIFACT_INGEST" "IMAGE" (ing_image o) (ing_revision o) (ing_accepted o) (ist_phase c)
        (ist_terminal c) (ist_error c) (ist_retryable c) (ist_cancellable c) (ist_completed c)).

(** A transaction that answers: the error it returns rolls it back, the one it
    answers does not. *)
Definition transact {A} (wrap : string) (zero : A) (f : catalogue -> res (catalogue * A * option goerr))
    (d : catalogue) : catalogue * A * option goerr :=
  match f d with Ok r => r | Err e => (d, zero, Some (Wrapf wrap [] e)) end.

Definition zero_desired : Desired := MkDesired "" "" "" "" "" "" "" false.
Definition zero_image : ImageResource := MkImageResource "" zero_desired None None "" "" 0 0 0.
Definition zero_operation : Operation := MkOperation "" "" "" "" 0 0 "" None None false false None.

(** ** Publishing a verified revision *)

(** [canonicalCatalogMap] of [{"authority": "northbound-image-ingestion"}] *)
Definition ingestion_metadata : json := JObj [("authority", JStr "northbound-image-ingestion")]%string.

(** [imageRevisionDigest] of the canonical revision *)
Definition revision_json (id owner format source visibility : string) (revision size : Z) (digest : string) : json :=
  JObj [("ImageID", JStr id); ("OwnerProjectID", JStr owner); ("Format", JStr format);
        ("SourceURI", JStr ("source-registry:" ++ source)%string); ("Visibility", JStr visibility);
        ("Revision", JUint revision); ("SizeBytes", JUint size); ("DeclaredChecksum", JStr digest);
        ("ObservedChecksum", JStr digest); ("SignatureState", JStr "UNVERIFIED"); ("SignatureDigest", JStr "");
        ("Metadata", ingestion_metadata)]%string.

(** The revision the catalogue keeps, and the image row that refers to it; the
    trigger of kim.images_current wants a VERIFIED revision of the same owner. *)
Definition catalog_row (id : string) (revision : Z) (e : revision_row) (digest : string) (size : Z) :
    catalog_revision_row :=
  let dd := rev_desired e in
  MkCatalogRevision (de_ProjectID dd) (de_Format dd) size digest digest "UNVERIFIED"
    ("source-registry:" ++ de_SourceID dd) (de_Visibility dd) "VERIFIED" "independent_ingestion_digest_matched"
    ingestion_metadata (sha256_hex (marshal ingestion_metadata))
    (sha256_hex (marshal (revision_json id (de_ProjectID dd) (de_Format dd) (de_SourceID dd) (de_Visibility dd)
       revision size digest))).
Definition catalog_row_ok (revision : Z) (c : catalog_revision_row) : bool :=
  (0 <? revision) && (1 <=? text_length (crv_owner c)) && (text_length (crv_owner c) <=? 255)
  && one_in formats (crv_format c) && (0 <? crv_size c) && hex64 (crv_declared c)
  && (text_length (crv_source c) <=? 4096) && one_in visibilities (crv_visibility c).
Definition place_catalog_image (id : string) (revision : Z) (owner : string) (d : catalogue) : res catalogue :=
  match catalog_images d !! id with
  | None => Ok (d <| catalog_images ::= <[id := MkCatalogImage revision owner "ACTIVE" 1]> |>)
  | Some c =>
      if cim_revision c <? revision then
        generation ← bump (cim_authority c);
        Ok (d <| catalog_images ::= <[id := MkCatalogImage revision owner "ACTIVE" generation]> |>)
      else Ok d
  end.

(** [publishVerifiedImageRevisionTx] *)
Definition publishVerifiedImageRevisionTx (id : string) (revision : Z) (digest : option string) (size : option Z)
    (d : catalogue) : res catalogue :=
  match digest, size with
  | Some digest, Some size =>
      e ← row (image_revisions d !! (id, revision)) ErrNoRows;
      let c := catalog_row id revision e digest size in
      fail_if (negb (catalog_row_ok revision c)) (check_violation "image_revision_evidence");;
      let d := match catalog_revisions d !! (id, revision) with
               | Some _ => d
               | None => d <| catalog_revisions ::= <[(id, revision) := c]> |>
               end in
      fail_if (match catalog_revisions d !! (id, revision) with
               | Some kept => (crv_state kept !=s "VERIFIED") || (crv_owner kept !=s crv_owner c)
               | None => true
               end)
        (errors_New "current Image must reference a verified revision with the same owner");;
      place_catalog_image id revision (crv_owner c) d
  | _, _ => Err resource.ErrConflict
  end.

(** ** The store *)

(** [NorthboundImageStore.Create], with the identifier [auditTx] draws *)
Definition Create (now : Z) (auditID : string) (p : resource.Principal) (r : CreateRequest) (id digest : string) :
    catalogue -> catalogue * (ImageResource * bool) * option goerr :=
  transact "create Image authority: %w" (zero_image, false) (fun d =>
    let project := de_ProjectID (cq_Desired r) in
    fail_if (database_mode (control d) !=s "ACTIVE") resource.ErrServiceUnavailable;;
    if negb (authorizeNorthboundTx (role_bindings d) p "CREATE" project) then
      a ← auditTx auditID p (cq_RequestID r) "IMAGE_CREATE" "IMAGE" "" 0 "PROJECT" project "DENIED" "FORBIDDEN" digest
            (audits d);
      Ok (d <| audits := a |>, (zero_image, false), Some resource.ErrForbidden)
    else if negb (bool_decide (project_states d !! project = Some "ACTIVE"%string))
    then Ok (d, (zero_image, false), Some resource.ErrNotFound) else
    let key := (resource.Issuer p, resource.Subject p, project, cq_IdempotencyKey r) in
    match image_keys d !! key with
    | Some old =>
        if iky_digest old !=s digest then Ok (d, (zero_image, false), Some resource.ErrIdempotencyConflict)
        else out ← loadNorthboundImageTx (iky_image old) d; Ok (d, (out, true), None)
    | None =>
        d ← insertNorthboundImageRevisionTx id 1 (cq_Desired r) digest d;
        fail_if (bool_decide (is_Some (images d !! id))) (unique_violation "northbound_images_current");;
        let d := d <| images ::= <[id := MkImageRow 1 project "ACTIVE" "PENDING" None None None 1 None now now]> |> in
        fail_if (negb ((1 <=? text_length (cq_IdempotencyKey r)) && (text_length (cq_IdempotencyKey r) <=? 255)))
          (check_violation "northbound_image_idempotency_evidence");;
        let d := d <| image_keys ::= <[key := MkImageKey digest id 1 (cq_RequestID r)]> |> in
        a ← auditTx auditID p (cq_RequestID r) "IMAGE_CREATE" "IMAGE" id 1 "PROJECT" project "SUCCEEDED" "CREATED" digest
              (audits d);
        let d := d <| audits := a |> in
        out ← loadNorthboundImageTx id d;
        Ok (d, (out, false), None)
    end).

(** [NorthboundImageStore.Get] *)
Definition Get (p : resource.Principal) (id : string) (d : catalogue) : ImageResource * option goerr :=
  match images d !! id with
  | None => (zero_image, Some resource.ErrNotFound)
  | Some c =>
      if negb (authorizeNorthboundTx (role_bindings d) p "READ" (img_owner c))
      then (zero_image, Some resource.ErrForbidden)
      else match loadNorthboundImageTx id d with
           | Ok out => (out, None)
           | Err e => (zero_image, Some (Wrapf "read Image authority: %w" [] e))
           end
  end.

(** [NorthboundImageStore.List]: the query does not ask for the type of the
    principal. *)
Definition may_list (p : resource.Principal) (owner : string) (b : binding_row) : bool :=
  (bnd_issuer b ==s resource.Issuer p) && (bnd_subject b ==s resource.Subject p) && (bnd_state b ==s "ACTIVE")
  && ((bnd_scope_type b ==s "SYSTEM") || ((bnd_scope_type b ==s "PROJECT") && (bnd_scope_id b ==s owner)))
  && one_in (roles_for "LIST") (bnd_role b).
Definition listed (p : resource.Principal) (r : ListRequest) (d : catalogue) (kc : string * image_row) :
    option ImageResource :=
  let '(id, c) := kc in
  if (img_lifecycle c !=s "DELETED") && (AfterID r <? id)%string
     && ((lq_ProjectID r ==s "") || (img_owner c ==s lq_ProjectID r))
     && any_row (fun _ => may_list p (img_owner c)) (role_bindings d)
  then resource_of id c <$> image_revisions d !! (id, img_revision c)
  else None.
Definition ImageList (p : resource.Principal) (r : ListRequest) (d : catalogue) : Page :=
  let items := omap (listed p r d) (sort_Slice (less_on String.ltb fst) (map_to_list (images d))) in
  let n := Z.to_nat (lq_Limit r) in
  if (lq_Limit r <? Z.of_nat (length items))
  then MkPage (take n items) (match items !! pred n with Some x => im_ID x | None => "" end)
  else MkPage items "".

(** [validNorthboundImageDesired] *)
Definition validNorthboundImageDesired (d : Desired) : bool :=
  (de_Name d !=s "") && (len (de_Name d) <=? 255) && one_in architectures (de_Architecture d)
  && one_in formats (de_Format d) && (len (de_ExpectedDigest d) =? 64) && (de_SourceID d !=s "")
  && (len (de_SourceID d) <=? 128) && one_in visibilities (de_Visibility d).

Definition patched {A} (o : option A) (a : A) : A := default a o.
Definition patch_desired (p : Patch) (d : Desired) : Desired :=
  MkDesired (de_ProjectID d) (patched (pa_Name p) (de_Name d)) (patched (pa_Architecture p) (de_Architecture d))
    (patched (pa_Format p) (de_Format d)) (patched (pa_ExpectedDigest p) (de_ExpectedDigest d))
    (patched (pa_SourceID p) (de_SourceID d)) (patched (pa_Visibility p) (de_Visibility d))
    (patched (pa_DeleteProtection p) (de_DeleteProtection d)).
Definition changes (o : option string) (s : string) : bool := match o with Some t => s !=s t | None => false end.
Definition content_changed (p : Patch) (d : Desired) : bool :=
  changes (pa_Architecture p) (de_Architecture d) || changes (pa_Format p) (de_Format d)
  || changes (pa_ExpectedDigest p) (de_ExpectedDigest d) || changes (pa_SourceID p) (de_SourceID d).

(** The UPDATE of a patch; [ingest] is its [requiresIngestion]. *)
Definition revise_image (now : Z) (next : Z) (lifecycle : string) (ingest : bool) (c : image_row) : res image_row :=
  generation ← bump (img_authority c);
  let c := c <| img_revision := next |> <| img_lifecycle := lifecycle |> <| img_authority := generation |>
             <| img_updated := now |> in
  Ok (if ingest
      then c <| img_verification := "PENDING"%string |> <| img_digest := None |> <| img_size := None |>
             <| img_operation := None |>
      else c).

(** [NorthboundImageStore.Patch] *)
Definition PatchImage (now : Z) (p : resource.Principal) (id : string) (expected : Z) (patch : Patch) :
    catalogue -> catalogue * ImageResource * option goerr :=
  transact "patch Image: %w" zero_image (fun d =>
    match loadNorthboundImageTx id d with
    | Err e => if errors_Is e ErrNoRows then Ok (d, zero_image, Some resource.ErrNotFound) else Err e
    | Ok current =>
        let desired := im_Desired current in
        if negb (authorizeNorthboundTx (role_bindings d) p "UPDATE" (de_ProjectID desired))
        then Ok (d, zero_image, Some resource.ErrForbidden) else
        if im_Revision current !=z expected then Ok (d, zero_image, Some resource.ErrStaleRevision) else
        let contentChanged := content_changed patch desired in
        let desired := patch_desired patch desired in
        if negb (when (pa_LifecycleState patch) (one_in ["ACTIVE"; "DEPRECATED"]%string))
           || negb (validNorthboundImageDesired desired)
        then Ok (d, zero_image, Some resource.ErrValidation) else
        let lifecycle := patched (pa_LifecycleState patch) (im_LifecycleState current) in
        let requiresIngestion := contentChanged || (im_VerificationState current !=s "VERIFIED") in
        let next := u64 (im_Revision current + 1) in
        d ← insertNorthboundImageRevisionTx id next desired (DesiredDigest desired) d;
        c ← row (images d !! id) ErrNoRows;
        c ← revise_image now next lifecycle requiresIngestion c;
        let d := d <| images ::= <[id := c]> |> in
        d ← (if (im_VerificationState current ==s "VERIFIED") && negb contentChanged then
               d ← publishVerifiedImageRevisionTx id next (im_VerifiedDigest current) (im_VerifiedSizeBytes current) d;
               Ok (if lifecycle ==s "DEPRECATED"
                   then d <| catalog_images ::= alter (fun c => c <| cim_lifecycle := "DELETING"%string |>) id |>
                   else d)
             else Ok d);
        out ← loadNorthboundImageTx id d;
        Ok (d, out, None)
    end).

(** [NorthboundImageStore.Delete] *)
Definition Delete (now : Z) (p : resource.Principal) (id : string) (expected : Z) :
    catalogue -> catalogue * unit * option goerr :=
  transact "delete Image: %w" tt (fun d =>
    match images d !! id with
    | None => Ok (d, tt, Some resource.ErrNotFound)
    | Some c =>
        match image_revisions d !! (id, img_revision c) with
        | None => Ok (d, tt, Some resource.ErrNotFound)
        | Some e =>
            if negb (authorizeNorthboundTx (role_bindings d) p "DELETE" (img_owner c))
            then Ok (d, tt, Some resource.ErrForbidden) else
            if img_lifecycle c ==s "DELETED" then Ok (d, tt, None) else
            if img_revision c !=z expected then Ok (d, tt, Some resource.ErrStaleRevision) else
            if de_DeleteProtection (rev_desired e) then Ok (d, tt, Some resource.ErrDeleteProtected) else
            if bool_decide (id ∈ admitted_images d) || bool_decide (id ∈ planned_images d)
            then Ok (d, tt, Some resource.ErrDependencyConflict) else
            generation ← bump (img_authority c);
            let c := c <| img_lifecycle := "DELETED"%string |> <| img_deleted := Some (img_revision c) |>
                       <| img_authority := generation |> <| img_updated := now |> in
            let d := d <| images ::= <[id := c]> |> in
            Ok (d <| catalog_images ::= alter (fun c => c <| cim_lifecycle := "DELETED"%string |>) id |>, tt, None)
        end
    end).

(** ** Ingestion *)

(** [AuthorizeImageIngestionCommand]: a Host that is ARMED on a CURRENT session
    whose handshake offers the capability *)
Definition json_exists (k : string) (j : json) : bool :=
  match j with
  | JArr l => existsb (fun x => match x with JStr s => s ==s k | _ => false end) l
  | JObj ms => existsb (fun m => fst m ==s k) ms
  | JStr s => s ==s k
  | _ => false
  end.
Definition offers (capability : string) (evidence : json) : bool :=
  match json_member "capabilities" evidence with Some j => json_exists capability j | None => false end.
Definition ingestion_host (d : db) (host : string) : option (string * Z) :=
  a ← authorities d !! host;
  s ← sessions d !! host;
  attempt_id ← ses_attempt s;
  attempt ← session_attempts d !! attempt_id;
  if (aut_state a ==s "ARMED") && (aut_session a =? ses_generation s) && (ses_state s ==s "CURRENT")
     && (att_host attempt ==s host) && offers "kim.image-artifact-ingest/v1" (att_evidence attempt)
  then Some (host, aut_generation a) else None.
Definition choose_host (d : db) : option (string * Z) :=
  head (omap (ingestion_host d) (sort_Slice String.ltb (fst <$> map_to_list (authorities d)))).

Definition maximum_bytes : Z := 16 * 1024 * 1024 * 1024 * 1024.
Definition ingestion_payload (o : ingestion_row) : json :=
  JObj [("artifact_generation", JUint (ing_generation o)); ("desired_state", JStr "VERIFIED");
        ("expected_digest", JStr (ing_expected o)); ("image_id", JStr (ing_image o));
        ("image_revision", JUint (ing_revision o)); ("maximum_bytes", JUint maximum_bytes);
        ("source_id", JStr (ing_source o))]%string.
Definition ingestion_command (operationID host : string) (o : ingestion_row) : ExecutionCommandRequest :=
  MkCommandRequest ("image-ingestion-job-" ++ operationID)%string ("image-ingestion-command-" ++ operationID)%string host
    "IMAGE_INGESTION_OPERATION" operationID (i64 (ing_generation o)) "IMAGE_ARTIFACT_INGEST"
    "kim.command.image-artifact-ingest/v1" ("image:" ++ ing_image o ++ ":" ++ FormatUint (ing_revision o))%string
    (ingestion_payload o).
Record ImageIngestionCommand := MkImageIngestionCommand {
  ic_OperationID : string; ic_JobID : string; ic_CommandID : string; ic_HostID : string; ic_PayloadDigest : string;
  ic_HostAuthorityGeneration : Z;
}.
Definition AuthorizeImageIngestionCommand (operationID : string) (d : catalogue) :
    res (catalogue * ImageIngestionCommand) :=
  o ← row (ingestions d !! operationID) ErrNoRows;
  c ← row (ingestion_states d !! operationID) ErrNoRows;
  fail_if ((ist_phase c ==s "SUCCEEDED") || (ist_phase c ==s "FAILED")) resource.ErrConflict;;
  host ← row (choose_host (control d)) resource.ErrServiceUnavailable;
  let r := ingestion_command operationID (fst host) o in
  let digest := sha256_hex (marshal (ingestion_payload o)) in
  e ← CreateExecutionCommand r (control d);
  let d := d <| control := e |> in
  fail_if (snd host <? 1) (check_violation "image_ingestion_command_evidence");;
  let taken := bool_decide (is_Some (ingestion_commands d !! operationID))
               || any_row (fun _ k => icm_command k ==s ec_CommandID r) (ingestion_commands d) in
  let d := if taken then d
           else d <| ingestion_commands ::= <[operationID := MkIngestionCommand (JobID r) (ec_CommandID r) (fst host)
                       (snd host) digest]> |> in
  let d := d <| ingestion_states ::= <[operationID := c <| ist_phase := "RUNNING"%string |>]> |> in
  Ok (d, MkImageIngestionCommand operationID (JobID r) (ec_CommandID r) (fst host) digest (snd host)).

(** [NorthboundImageStore.CreateIngestion] *)
Definition same_ingestion (p : resource.Principal) (id : string) (revision : Z) (key : string) (o : ingestion_row) : bool :=
  (ing_issuer o ==s resource.Issuer p) && (ing_subject o ==s resource.Subject p) && (ing_image o ==s id)
  && (ing_revision o =? revision) && (ing_key o ==s key).
Definition find_ingestion (p : resource.Principal) (id : string) (revision : Z) (key : string) (d : catalogue) :
    option (string * ingestion_row) :=
  List.find (fun ko => same_ingestion p id revision key (snd ko)) (map_to_list (ingestions d)).
Definition max_artifact (id : string) (d : catalogue) : Z :=
  foldr (fun ko m => if ing_image (snd ko) ==s id then Z.max (ing_generation (snd ko)) m else m) 0
    (map_to_list (ingestions d)).
Definition create_ingestion (now : Z) (p : resource.Principal) (id : string) (revision : Z) (r : IngestionRequest)
    (operationID requestDigest : string) : catalogue -> catalogue * (Operation * bool) * option goerr :=
  transact "create Image ingestion: %w" (zero_operation, false) (fun d =>
    let answer d e := Ok (d, (zero_operation, false), Some e) in
    match loadNorthboundImageTx id d with
    | Err e => if errors_Is e ErrNoRows then answer d resource.ErrNotFound else Err e
    | Ok current =>
        if negb (authorizeNorthboundTx (role_bindings d) p "UPDATE" (de_ProjectID (im_Desired current)))
        then answer d resource.ErrForbidden else
        if im_Revision current !=z revision then answer d resource.ErrStaleRevision else
        match find_ingestion p id revision (iq_IdempotencyKey r) d with
        | Some (existingID, existing) =>
            if ing_digest existing !=s requestDigest then answer d resource.ErrIdempotencyConflict
            else out ← loadOperationTx existingID d; Ok (d, (out, true), None)
        | None =>
            generation ← bump (max_artifact id d);
            fail_if (negb (hex64 (de_ExpectedDigest (im_Desired current))) || negb (hex64 requestDigest)
                     || negb ((1 <=? text_length (iq_IdempotencyKey r)) && (text_length (iq_IdempotencyKey r) <=? 255)))
              (check_violation "image_ingestion_operation_evidence");;
            fail_if (bool_decide (is_Some (ingestions d !! operationID)))
              (unique_violation "image_ingestion_operation_evidence");;
            let d := d <| ingestions ::= <[operationID := MkIngestion id revision generation
                       (de_SourceID (im_Desired current)) (de_ExpectedDigest (im_Desired current)) (resource.Issuer p)
                       (resource.Subject p) (iq_RequestID r) (iq_IdempotencyKey r) requestDigest now]> |> in
            fail_if (bool_decide (is_Some (ingestion_states d !! operationID)))
              (unique_violation "image_ingestion_operations_current");;
            let d := d <| ingestion_states ::= <[operationID := MkIngestionState "PENDING" None None true false 0 None]> |> in
            c ← row (images d !! id) ErrNoRows;
            authority ← bump (img_authority c);
            let c := c <| img_verification := "VERIFYING"%string |> <| img_digest := None |> <| img_size := None |>
                       <| img_operation := Some operationID |> <| img_authority := authority |> <| img_updated := now |> in
            let d := d <| images ::= <[id := c]> |> in
            out ← loadOperationTx operationID d;
            Ok (d, (out, false), None)
        end
    end).
Definition CreateIngestion (now : Z) (p : resource.Principal) (id : string) (revision : Z) (r : IngestionRequest)
    (operationID requestDigest : string) (d : catalogue) : catalogue * (Operation * bool) * option goerr :=
  let '(d, (out, replay), returned) := create_ingestion now p id revision r operationID requestDigest d in
  if op_Phase out !=s "PENDING" then (d, (out, replay), returned) else
  match AuthorizeImageIngestionCommand (op_ID out) d with
  | Ok (d, _) =>
      (d, (match loadOperationTx (op_ID out) d with Ok out => out | Err _ => zero_operation end, replay), returned)
  | Err e =>
      if errors_Is e resource.ErrServiceUnavailable then (d, (out, replay), returned)
      else (d, (out, replay), Some (Wrapf "authorize Image ingestion: %w" [] e))
  end.

(** [NorthboundImageStore.GetOperation] *)
Definition GetOperation (p : resource.Principal) (id : string) (d : catalogue) : Operation * option goerr :=
  match (o ← ingestions d !! id; images d !! ing_image o) with
  | None => (zero_operation, Some resource.ErrNotFound)
  | Some c =>
      if negb (authorizeNorthboundTx (role_bindings d) p "READ" (img_owner c))
      then (zero_operation, Some resource.ErrForbidden)
      else match loadOperationTx id d with
           | Ok out => (out, None)
           | Err e => (zero_operation, Some (Wrapf "read Image ingestion: %w" [] e))
           end
  end.

(** ** The observation of an artifact *)

Definition foreign_key (table : string) : goerr := Errorf "insert violates foreign key to %s" [table].
Definition cannot_scan : goerr := errors_New "cannot scan column".

Section Jsonb.
(** What PostgreSQL makes of a jsonb value that is no string as text, and of a
    text cast to bigint *)
Context (jsonb_text : json -> bytes) (to_bigint : string -> option Z).

(** [j->>key], and the [COALESCE] with the same member of [read_back] *)
Definition member_text (key : string) (j : json) : option string :=
  match json_member key j with
  | Some (JStr s) => Some s
  | Some JNull | None => None
  | Some j => Some (jsonb_text j)
  end.
Definition evidence_text (key : string) (j : json) : option string :=
  match member_text key j with
  | Some s => Some s
  | None => j ← json_member "read_back" j; member_text key j
  end.

Record ImageIngestionObservation := MkImageObservation {
  io_OperationID : string; io_ObservationID : string; io_VerificationID : string;
}.
Definition observation_body (v : ImageIngestionObservation) : json :=
  JObj [("OperationID", JStr (io_OperationID v)); ("ObservationID", JStr (io_ObservationID v));
        ("VerificationID", JStr (io_VerificationID v))]%string.

(** The row the query selects, as the observation it becomes, with what became
    of the response *)
Definition observed_artifact (v : ImageIngestionObservation) (d : catalogue) : res (artifact_observation_row * string) :=
  o ← row (ingestions d !! io_OperationID v) ErrNoRows;
  ce ← row (ingestion_commands d !! io_OperationID v) ErrNoRows;
  ver ← row (verifications (control d) !! io_VerificationID v) ErrNoRows;
  fail_if ((ver_command ver !=s icm_command ce) || negb (one_in ["MATCHED"; "CONFLICTING"]%string (ver_state ver)))
    ErrNoRows;;
  let response := if bool_decide (is_Some (results (control d) !! (icm_command ce, ver_attempt ver)))
                  then "RECEIVED"%string else "LOST"%string in
  digest ← row (evidence_text "observed_digest" (ver_evidence ver)) cannot_scan;
  size ← row (evidence_text "observed_size_bytes" (ver_evidence ver)) cannot_scan;
  size ← row (to_bigint size) cannot_scan;
  readBack ← row (evidence_text "read_back_state" (ver_evidence ver)) cannot_scan;
  fail_if ((size <? 0) || (ver_attempt ver <? 0) || (ver_generation ver <? 0)) cannot_scan;;
  Ok (MkArtifactObservation (io_OperationID v) (icm_command ce) (io_VerificationID v) (ver_attempt ver) (ing_image o)
        (ing_revision o) (ing_generation o) (ing_source o) size digest (ver_digest ver) (ver_generation ver)
        (ver_verifier ver) readBack (sha256_hex (marshal (observation_body v))), response).

Definition observation_ok (a : artifact_observation_row) : bool :=
  (0 <=? aob_size a) && hex64 (aob_digest a) && hex64 (aob_identity a) && (0 <? aob_observation a)
  && hex64 (aob_verifier a) && one_in ["COMPLETE"; "PARTIAL"; "ABSENT"; "CONFLICTING"]%string (aob_read_back a).
(** One of the unique keys of an observation is taken. *)
Definition observation_taken (id : string) (a : artifact_observation_row) (d : catalogue) : bool :=
  bool_decide (is_Some (artifact_observations d !! id))
  || any_row (fun _ b => (aob_verification b ==s aob_verification a)
                         || ((aob_operation b ==s aob_operation a) && (aob_attempt b =? aob_attempt a)
                             && (aob_observation b =? aob_observation a))) (artifact_observations d).

(** [RecordImageIngestionObservation] *)
Definition RecordImageIngestionObservation (v : ImageIngestionObservation) (d : catalogue) : res catalogue :=
  '(a, response) ← observed_artifact v d;
  let attempt := (io_OperationID v, aob_attempt a) in
  fail_if ((aob_attempt a <? 1) || negb (hex64 (aob_identity a))) (check_violation "image_ingestion_attempt_evidence");;
  let d := match ingestion_attempts d !! attempt with
           | Some _ => d
           | None => d <| ingestion_attempts ::= <[attempt := MkIngestionAttempt (aob_identity a) response]> |>
           end in
  fail_if (negb (observation_ok a)) (check_violation "image_artifact_observation_evidence");;
  let d := if observation_taken (io_ObservationID v) a d then d
           else d <| artifact_observations ::= <[io_ObservationID v := a]> |> in
  Ok (d <| ingestion_states ::= alter (fun c =>
        if one_in ["PENDING"; "RUNNING"; "UNKNOWN"; "VERIFYING"]%string (ist_phase c)
        then c <| ist_phase := "VERIFYING"%string |> <| ist_attempt := aob_attempt a |> <| ist_retryable := true |>
        else c) (io_OperationID v) |>).

(** ** The end of an ingestion *)

(** The row of kim.image_artifact_verification_evidence an observation leads to *)
Definition judged (operationID observationID : string) (o : ingestion_row) (a : artifact_observation_row) :
    artifact_verification_row :=
  let verified := (aob_read_back a ==s "COMPLETE") && (ing_expected o ==s aob_digest a) in
  let state := if verified then "VERIFIED"%string else "REJECTED"%string in
  MkArtifactVerification operationID observationID (ing_expected o) (aob_digest a) (aob_size a) state
    (if verified then "DIGEST_MATCHED" else "DIGEST_MISMATCH")%string
    (sha256_hex (operationID ++ observationID ++ ing_expected o ++ aob_digest a ++ state)%string).
Definition insert_verification (id : string) (v : artifact_verification_row) (d : catalogue) : catalogue :=
  if bool_decide (is_Some (artifact_verifications d !! id))
     || any_row (fun _ w => (avr_operation w ==s avr_operation v) || (avr_observation w ==s avr_observation v))
          (artifact_verifications d)
  then d else d <| artifact_verifications ::= <[id := v]> |>.
Definition insert_terminal (id : string) (t : terminal_row) (d : catalogue) : res catalogue :=
  if bool_decide (is_Some (ingestion_terminals d !! id))
     || any_row (fun _ u => (trm_operation u ==s trm_operation t) || (trm_verification u ==s trm_verification t))
          (ingestion_terminals d)
  then Ok d else
  fail_if (bool_decide (artifact_verifications d !! trm_verification t = None))
    (foreign_key "image_artifact_verification_evidence");;
  Ok (d <| ingestion_terminals ::= <[id := t]> |>).
Definition terminal_of (operationID : string) (d : catalogue) : option (string * terminal_row) :=
  List.find (fun kt => trm_operation (snd kt) ==s operationID) (map_to_list (ingestion_terminals d)).

(** The image of a finished ingestion: it is updated while it still is at the
    revision and the operation of the ingestion. *)
Definition settle_image (now : Z) (operationID : string) (o : ingestion_row) (outcome : option (string * Z))
    (d : catalogue) : res catalogue :=
  match images d !! ing_image o with
  | Some c =>
      if (img_revision c =? ing_revision o) && bool_decide (img_operation c = Some operationID) then
        generation ← bump (img_authority c);
        let c := c <| img_authority := generation |> <| img_updated := now |> in
        let c := match outcome with
                 | Some (digest, size) => c <| img_verification := "VERIFIED"%string |> <| img_digest := Some digest |>
                                            <| img_size := Some size |>
                 | None => c <| img_verification := "FAILED"%string |>
                 end in
        fail_if (bool_decide (outcome = None) && (bool_decide (is_Some (img_digest c)) && bool_decide (is_Some (img_size c))))
          (check_violation "northbound_images_current");;
        Ok (d <| images ::= <[ing_image o := c]> |>)
      else Ok d
  | None => Ok d
  end.

(** [FinalizeImageIngestion] *)
Definition FinalizeImageIngestion (now : Z) (operationID observationID verificationID terminalID : string)
    (d : catalogue) : res (catalogue * Operation) :=
  match terminal_of operationID d with
  | Some (existingTerminal, t) =>
      fail_if ((existingTerminal !=s terminalID) || (trm_verification t !=s verificationID)) resource.ErrConflict;;
      out ← loadOperationTx operationID d; Ok (d, out)
  | None =>
      o ← row (ingestions d !! operationID) ErrNoRows;
      a ← row (artifact_observations d !! observationID) ErrNoRows;
      fail_if (aob_operation a !=s operationID) ErrNoRows;;
      let v := judged operationID observationID o a in
      let d := insert_verification verificationID v d in
      let verified := avr_state v ==s "VERIFIED" in
      let terminal := if verified then "SUCCEEDED"%string else "FAILED"%string in
      d ← insert_terminal terminalID (MkTerminal operationID verificationID terminal
            (sha256_hex (operationID ++ verificationID ++ terminal)%string)) d;
      d ← (if verified then
             d ← settle_image now operationID o (Some (aob_digest a, aob_size a)) d;
             publishVerifiedImageRevisionTx (ing_image o) (ing_revision o) (Some (aob_digest a)) (Some (aob_size a)) d
           else settle_image now operationID o None d);
      let d := d <| ingestion_states ::= alter (fun c =>
          c <| ist_phase := terminal |> <| ist_terminal := Some terminal |>
            <| ist_error := if verified then None else Some (avr_reason v) |> <| ist_retryable := false |>
            <| ist_completed := Some now |>) operationID |> in
      out ← loadOperationTx operationID d;
      Ok (d, out)
  end.

(** [ConvergeImageIngestionCommand]: three transactions, the tables after the
    last that committed *)
Definition operation_of_command (commandID : string) (d : catalogue) : option string :=
  fst <$> List.find (fun kc => icm_command (snd kc) ==s commandID) (map_to_list (ingestion_commands d)).
Definition ConvergeImageIngestionCommand (now : Z) (commandID verificationID : string) (d : catalogue) :
    catalogue * option goerr :=
  match operation_of_command commandID d with
  | None => (d, None)
  | Some operationID =>
      let observationID := ("image-artifact-observation-" ++ operationID)%string in
      match RecordImageIngestionObservation (MkImageObservation operationID observationID verificationID) d with
      | Err e => if errors_Is e ErrNoRows then (d, None) else (d, Some e)
      | Ok d =>
          match FinalizeImageIngestion now operationID observationID ("image-artifact-verification-" ++ operationID)
                  ("image-ingestion-terminal-" ++ operationID) d with
          | Ok (d, _) => (d, None)
          | Err e => (d, Some e)
          end
      end
  end.
End Jsonb.

(** ** The service: northbound/image/service.go *)

(** [Service.Create], with the 16 bytes [NewID] reads *)
Definition trimmed (r : CreateRequest) : CreateRequest :=
  r <| cq_Desired ::= fun d => d <| de_Name := TrimSpace (de_Name d) |> <| de_ExpectedDigest := ToLower (de_ExpectedDigest d) |>
                                 <| de_SourceID := TrimSpace (de_SourceID d) |> |>.
Definition CreateService (now : Z) (auditID : string) (random : list Z) (p : resource.Principal) (r : CreateRequest)
    (d : catalogue) : catalogue * (ImageResource * bool) * option goerr :=
  let r := trimmed r in
  if negb (resource.Valid p) then (d, (zero_image, false), Some resource.ErrUnauthenticated) else
  if (CanonicalPath r !=s "/api/v1/images") || (cq_RequestID r ==s "") || (cq_IdempotencyKey r ==s "")
     || (255 <? len (cq_IdempotencyKey r)) || negb (validDesired (cq_Desired r))
  then (d, (zero_image, false), Some resource.ErrValidation)
  else Create now auditID p r (resource.NewID random) (DesiredDigest (cq_Desired r)) d.

Definition GetService (p : resource.Principal) (id requestID : string) (d : catalogue) : ImageResource * option goerr :=
  if negb (resource.Valid p) then (zero_image, Some resource.ErrUnauthenticated) else
  if negb (idPattern id) || (requestID ==s "") then (zero_image, Some resource.ErrValidation) else Get p id d.

Definition ListService (p : resource.Principal) (r : ListRequest) (requestID : string) (d : catalogue) :
    Page * option goerr :=
  if negb (resource.Valid p) then (MkPage [] "", Some resource.ErrUnauthenticated) else
  if (requestID ==s "") || (lq_Limit r <? 1) || (100 <? lq_Limit r)
     || ((AfterID r !=s "") && negb (idPattern (AfterID r))) || ((lq_ProjectID r !=s "") && negb (idPattern (lq_ProjectID r)))
  then (MkPage [] "", Some resource.ErrValidation) else (ImageList p r d, None).

Definition trimmed_patch (p : Patch) : Patch :=
  p <| pa_Name ::= fmap TrimSpace |> <| pa_ExpectedDigest ::= fmap (fun s => ToLower (TrimSpace s)) |>
    <| pa_SourceID ::= fmap TrimSpace |>.
Definition PatchService (now : Z) (p : resource.Principal) (id : string) (revision : Z) (patch : Patch)
    (requestID : string) (d : catalogue) : catalogue * ImageResource * option goerr :=
  if negb (resource.Valid p) then (d, zero_image, Some resource.ErrUnauthenticated) else
  let patch := trimmed_patch patch in
  if negb (idPattern id) || (revision =? 0) || (requestID ==s "") || patch_empty patch || negb (patch_valid patch)
  then (d, zero_image, Some resource.ErrValidation) else PatchImage now p id revision patch d.

Definition DeleteService (now : Z) (p : resource.Principal) (id : string) (revision : Z) (requestID : string)
    (d : catalogue) : catalogue * unit * option goerr :=
  if negb (resource.Valid p) then (d, tt, Some resource.ErrUnauthenticated) else
  if negb (idPattern id) || (revision =? 0) || (requestID ==s "") then (d, tt, Some resource.ErrValidation)
  else Delete now p id revision d.

(** [Service.Ingest] *)
Definition NUL : string := String zero "".
Definition IngestService (now : Z) (random : list Z) (p : resource.Principal) (id : string) (revision : Z)
    (r : IngestionRequest) (d : catalogue) : catalogue * (Operation * bool) * option goerr :=
  if negb (resource.Valid p) then (d, (zero_operation, false), Some resource.ErrUnauthenticated) else
  if negb (idPattern id) || (revision =? 0) || (iq_RequestID r ==s "") || (iq_IdempotencyKey r ==s "")
     || (255 <? len (iq_IdempotencyKey r))
  then (d, (zero_operation, false), Some resource.ErrValidation)
  else CreateIngestion now p id revision r (resource.NewID random) (sha256_hex (id ++ NUL ++ FormatUint revision)%string) d.

Definition GetOperationService (p : resource.Principal) (id requestID : string) (d : catalogue) :
    Operation * option goerr :=
  if negb (resource.Valid p) then (zero_operation, Some resource.ErrUnauthenticated) else
  if negb (idPattern id) || (requestID ==s "") then (zero_operation, Some resource.ErrValidation)
  else GetOperation p id d.
