(* ===== verification/ImageProofs.v ===== *)
(** * What the catalogue publishes

    The Northbound Image operations as the steps of a relation, the invariant
    that ties what is published to what was declared, and the runs of an
    ingestion from its evidence to the catalogue. *)

From S2P Require Import Prelude GoStd GoJson Envelope Inventory ControlDb CommandEvents HostTrust.
From S2P Require Import SessionRegistry Receipts HostInventory Execution Verification Outbox Contract MessageReceiver.
From S2P Require Import ControlFrames CommandSteps LeaseEvents HostSteps CommandDelivery DeliverySteps.
From S2P Require Import ControlPlane Northbound ImageCatalog.
Local Open Scope Z_scope.
Local Open Scope go_scope.

(** ** The invariant *)

Definition declared_digest (e : revision_row) : string := de_ExpectedDigest (rev_desired e).

(** What holds of the tables of every Image: ingestions expect what their
    revision declares, a verified Image has it, and so does every revision the
    catalogue keeps; the catalogue refers to revisions it keeps. *)
Record declared (d : catalogue) : Prop := MkDeclared {
  declared_ingestion op o : ingestions d !! op = Some o ->
    exists e, image_revisions d !! (ing_image o, ing_revision o) = Some e /\ ing_expected o = declared_digest e;
  declared_image id c : images d !! id = Some c -> img_verification c = "VERIFIED"%string ->
    exists e, image_revisions d !! (id, img_revision c) = Some e /\ img_digest c = Some (declared_digest e);
  declared_revision id n k : catalog_revisions d !! (id, n) = Some k ->
    exists e, image_revisions d !! (id, n) = Some e /\ crv_observed k = declared_digest e
      /\ crv_declared k = declared_digest e /\ crv_state k = "VERIFIED"%string /\ crv_owner k = de_ProjectID (rev_desired e);
  declared_current id c : catalog_images d !! id = Some c -> is_Some (catalog_revisions d !! (id, cim_revision c));
}.

(** The tables the invariant reads *)
Definition same_content (d d' : catalogue) : Prop :=
  image_revisions d' = image_revisions d /\ images d' = images d /\ ingestions d' = ingestions d
  /\ catalog_revisions d' = catalog_revisions d /\ catalog_images d' = catalog_images d.

#[export] Instance same_content_refl : Reflexive same_content.
Proof. by intros d. Qed.
#[export] Instance same_content_trans : Transitive same_content.
Proof. intros a b c (H1 & H2 & H3 & H4 & H5) (K1 & K2 & K3 & K4 & K5). by repeat split; etransitivity. Qed.

Lemma declared_same d d' : same_content d d' -> declared d -> declared d'.
Proof.
  intros (H1 & H2 & H3 & H4 & H5) [I J K L].
  split; rewrite ?H1, ?H2, ?H3, ?H4, ?H5; assumption.
Qed.

Lemma declared_add_revision d id n e :
  image_revisions d !! (id, n) = None -> declared d ->
  declared (d <| image_revisions ::= <[(id, n) := e]> |>).
Proof.
  intros Hnew [I J K L].
  assert (forall k x, image_revisions d !! k = Some x -> <[(id, n) := e]> (image_revisions d) !! k = Some x) as Hkeep.
  { intros k x Hk. rewrite lookup_insert_ne; [done | congruence]. }
  split; simpl.
  - intros op o Ho. destruct (I op o Ho) as (x & Hx & ?). eauto.
  - intros id' c Hc Hv. destruct (J id' c Hc Hv) as (x & Hx & ?). eauto.
  - intros id' m k Hk. destruct (K id' m k Hk) as (x & Hx & ?). eauto.
  - assumption.
Qed.

Lemma declared_put_image d id c :
  (img_verification c = "VERIFIED"%string ->
   exists e, image_revisions d !! (id, img_revision c) = Some e /\ img_digest c = Some (declared_digest e)) ->
  declared d -> declared (d <| images ::= <[id := c]> |>).
Proof.
  intros Hc [I J K L]. split; simpl; [assumption | | assumption | assumption].
  intros id' c'. rewrite lookup_insert_Some. intros [[-> ->]|[_ H]]; [assumption | by apply J].
Qed.

Lemma declared_put_ingestion d op o e :
  image_revisions d !! (ing_image o, ing_revision o) = Some e -> ing_expected o = declared_digest e ->
  declared d -> declared (d <| ingestions ::= <[op := o]> |>).
Proof.
  intros He Ho [I J K L]. split; simpl; [ | assumption | assumption | assumption].
  intros op' o'. rewrite lookup_insert_Some. intros [[-> ->]|[_ H]]; [eauto | by apply (I op')].
Qed.

(** The lifecycle of a catalogue image alone *)
Lemma declared_lifecycle d id l :
  declared d -> declared (d <| catalog_images ::= alter (fun c => c <| cim_lifecycle := l |>) id |>).
Proof.
  intros [I J K L]. split; simpl; [assumption | assumption | assumption |].
  intros id' c'. rewrite lookup_alter_Some. intros [(-> & c & Hc & ->)|[_ H]]; [exact (L _ c Hc) | exact (L _ _ H)].
Qed.

Lemma declared_place id n owner d d' :
  is_Some (catalog_revisions d !! (id, n)) -> place_catalog_image id n owner d = Ok d' -> declared d -> declared d'.
Proof.
  intros Hn H D. unfold place_catalog_image in H. pose proof D as [I J K L].
  assert (forall a, cim_revision a = n -> declared (d <| catalog_images ::= <[id := a]> |>)) as Hput.
  { intros a Ha. split; simpl; [assumption | assumption | assumption |].
    intros id' c'. rewrite lookup_insert_Some. intros [[-> ->]|[_ Hl]]; [by rewrite Ha | by apply L]. }
  destruct (catalog_images d !! id) as [c|]; [destruct (_ <? _)|]; unfold bump in H; run_guards; subst; auto.
Qed.

Lemma place_keeps id n owner d d' :
  place_catalog_image id n owner d = Ok d' -> image_revisions d' = image_revisions d /\ images d' = images d
  /\ ingestions d' = ingestions d /\ catalog_revisions d' = catalog_revisions d.
Proof.
  unfold place_catalog_image, bump. intros H.
  destruct (catalog_images d !! id) as [c|]; [destruct (_ <? _)|]; run_guards; by subst.
Qed.

(** Publishing the declared content of a revision *)
Lemma declared_publish id n dg size d d' e :
  image_revisions d !! (id, n) = Some e -> dg = declared_digest e ->
  publishVerifiedImageRevisionTx id n (Some dg) size d = Ok d' -> declared d -> declared d'.
Proof.
  intros He -> H D. unfold publishVerifiedImageRevisionTx in H. destruct size as [size|]; [|discriminate].
  rewrite He in H. simpl in H. run_guards.
  destruct (catalog_revisions d !! (id, n)) as [k|] eqn:Hk.
  - eapply declared_place; [|exact H|exact D]. by rewrite Hk.
  - eapply declared_place; [|exact H|].
    + simpl. rewrite lookup_insert. by case_decide.
    + destruct D as [I J K L]. split; simpl; [assumption | assumption | |].
      * intros id' m k'. rewrite lookup_insert_Some. intros [[Hkey <-]|[_ Hl]]; [|exact (K _ _ _ Hl)].
        injection Hkey as <- <-. by exists e.
      * intros id' c Hc. destruct (decide ((id, n) = (id', cim_revision c))) as [->|Hne].
        { rewrite lookup_insert. by case_decide. }
        rewrite lookup_insert_ne by done. by apply L.
Qed.

(** ** Every operation keeps it *)

Lemma transact_keeps {A} (P : catalogue -> Prop) wrap (zero : A) f d :
  P d -> (forall r, f d = Ok r -> P (fst (fst r))) -> P (fst (fst (transact wrap zero f d))).
Proof. intros Hd Hf. unfold transact. destruct (f d) eqn:E; [by apply Hf | done]. Qed.

Lemma load_image_Ok id d out :
  loadNorthboundImageTx id d = Ok out -> exists c e, images d !! id = Some c /\ img_lifecycle c <> "DELETED"%string
    /\ image_revisions d !! (id, img_revision c) = Some e /\ out = resource_of id c e.
Proof.
  unfold loadNorthboundImageTx, row. intros H.
  destruct (images d !! id) as [c|]; [|discriminate]. simpl in H.
  destruct (image_revisions d !! (id, img_revision c)) as [e|] eqn:He; [|discriminate]. simpl in H.
  run_guards. subst. by exists c, e.
Qed.

Lemma insert_revision_Ok id n de dg d d' :
  insertNorthboundImageRevisionTx id n de dg d = Ok d' ->
  image_revisions d !! (id, n) = None /\ d' = d <| image_revisions ::= <[(id, n) := MkRevisionRow de dg]> |>.
Proof.
  unfold insertNorthboundImageRevisionTx, as_bigint. intros H. run_guards. subst.
  split; [by apply eq_None_not_Some | done].
Qed.

Lemma content_kept p de : content_changed p de = false -> de_ExpectedDigest (patch_desired p de) = de_ExpectedDigest de.
Proof.
  unfold content_changed, changes. intros H. bools. simpl.
  destruct (pa_ExpectedDigest p) as [s|]; simpl in *; [bools; congruence | done].
Qed.

(** The next branch of a run that succeeded *)
Ltac branch H :=
  cbv zeta in H; run_guards;
  lazymatch type of H with
  | (if ?b then _ else _) = _ => destruct b eqn:?
  | match ?o with Some _ => _ | None => _ end = _ => destruct o eqn:?
  | match ?o with Ok _ => _ | Err _ => _ end = _ => destruct o eqn:?
  end; cbv zeta in H.
(** A branch that leaves the tables alone *)
Ltac aside := match goal with D : declared ?d |- _ => apply (declared_same d); [repeat split | exact D] end.
Ltac unchanged := run_guards; subst; solve [assumption | aside].

Lemma declared_Create now a p r id dg d : declared d -> declared (fst (fst (Create now a p r id dg d))).
Proof.
  intros D. apply (transact_keeps declared); [done|]. intros [[d' out] e] H. simpl.
  branch H; [unchanged|]. branch H; [unchanged|]. branch H; [branch H; unchanged|].
  run_guards. apply insert_revision_Ok in Hr0 as [Hnew ->]. subst.
  apply (declared_add_revision _ id 1 (MkRevisionRow (cq_Desired r) dg) Hnew) in D.
  apply (declared_put_image _ id (MkImageRow 1 (de_ProjectID (cq_Desired r)) "ACTIVE" "PENDING" None None None 1 None now now))
    in D; [|done]. aside.
Qed.

Lemma revise_image_Ok now next l ingest c c' :
  revise_image now next l ingest c = Ok c' ->
  img_revision c' = next /\ (ingest = true -> img_verification c' = "PENDING"%string)
  /\ (ingest = false -> img_verification c' = img_verification c /\ img_digest c' = img_digest c
                        /\ img_size c' = img_size c).
Proof. unfold revise_image, bump. intros H. run_guards. subst. by destruct ingest. Qed.

Lemma lookup_here `{Countable K} {A} (m : gmap K A) k v : <[k := v]> m !! k = Some v.
Proof. rewrite lookup_insert. by case_decide. Qed.

Lemma declared_PatchImage now p id n patch d : declared d -> declared (fst (fst (PatchImage now p id n patch d))).
Proof.
  intros D. apply (transact_keeps declared); [done|]. intros [[d' out] err] H. simpl.
  branch H; [|unchanged].
  match goal with E : loadNorthboundImageTx _ _ = Ok _ |- _ =>
    apply load_image_Ok in E as (c & e & Hc & _ & He & ->) end.
  do 3 (branch H; [unchanged|]). run_guards.
  apply insert_revision_Ok in Hr as [Hnew ->]. simpl in Hr0. rewrite Hc in Hr0. simpl in Hr0.
  injection Hr0 as <-. subst.
  set (next := u64 _) in *. set (de := im_Desired _) in *.
  set (new := MkRevisionRow (patch_desired patch de) (DesiredDigest (patch_desired patch de))) in *.
  pose proof (declared_image _ D id c Hc) as Hver.
  apply (declared_add_revision _ id next new Hnew) in D.
  set (d1 := d <| image_revisions ::= _ |>) in *.
  assert (image_revisions d1 !! (id, next) = Some new) as Hrev by apply lookup_here.
  apply revise_image_Ok in Hr1 as (Hn & Hpend & Hkept).
  assert (declared_digest new = declared_digest e \/ content_changed patch de = true) as Hdg.
  { destruct (content_changed patch de) eqn:E; [by right | left; by apply (content_kept patch)]. }
  apply (declared_put_image _ id a1) in D.
  2: { intros Hv. rewrite Hn. exists new. split; [exact Hrev|]. simpl in *.
       destruct (content_changed patch de) eqn:Ech; [by rewrite Hpend in Hv|].
       destruct (img_verification c ==s "VERIFIED") eqn:Ev; [|by rewrite Hpend in Hv]. bools.
       destruct (Hver Ev) as (e' & He' & Hd'). destruct Hkept as (_ & -> & _); [done|].
       destruct Hdg as [->|]; [congruence | done]. }
  branch Hr2; [|by run_guards; subst]. run_guards.
  match goal with E : im_VerificationState _ = _ |- _ => destruct (Hver E) as (e' & He' & Hd') end.
  match goal with E : publishVerifiedImageRevisionTx _ _ _ _ _ = Ok _ |- _ => rename E into Hpub end.
  simpl in Hpub. rewrite Hd' in Hpub.
  apply (declared_publish _ _ _ _ _ _ new) in Hpub; [| exact Hrev | destruct Hdg; congruence | exact D].
  subst. destruct (patched (pa_LifecycleState patch) (img_lifecycle c) ==s "DEPRECATED"); [by apply declared_lifecycle | done].
Qed.

Lemma declared_Delete now p id n d : declared d -> declared (fst (fst (Delete now p id n d))).
Proof.
  intros D. apply (transact_keeps declared); [done|]. intros [[d' out] err] H. simpl.
  do 2 (branch H; [|unchanged]). do 5 (branch H; [unchanged|]). run_guards. subst.
  apply declared_lifecycle, declared_put_image; [|done]. simpl. by apply (declared_image _ D).
Qed.

Lemma declared_create_ingestion now p id n r op dg d :
  declared d -> declared (fst (fst (create_ingestion now p id n r op dg d))).
Proof.
  intros D. apply (transact_keeps declared); [done|]. intros [[d' out] err] H. simpl.
  branch H; [|unchanged].
  match goal with E : loadNorthboundImageTx _ _ = Ok _ |- _ =>
    apply load_image_Ok in E as (c & e & Hc & _ & He & ->) end.
  do 2 (branch H; [unchanged|]). branch H; [destruct p0; branch H; unchanged|].
  simpl in H. run_guards. simpl in *. subst.
  match goal with |- context [insert op ?o] =>
    apply (declared_put_ingestion d op o e) in D; [| exact He | reflexivity] end.
  match goal with |- context [insert id ?c] =>
    apply (declared_put_image _ id c) in D; [| discriminate] end.
  aside.
Qed.

(** ** Operations that leave the content alone *)

Lemma authorize_same op d d' out : AuthorizeImageIngestionCommand op d = Ok (d', out) -> same_content d d'.
Proof. unfold AuthorizeImageIngestionCommand. intros H. run_guards. subst. by destruct (_ || _). Qed.

Lemma declared_CreateIngestion now p id n r op dg d :
  declared d -> declared (fst (fst (CreateIngestion now p id n r op dg d))).
Proof.
  intros D. apply (declared_create_ingestion now p id n r op dg) in D. unfold CreateIngestion.
  destruct (create_ingestion _ _ _ _ _ _ _ _) as [[d1 [out replay]] err]. simpl in D.
  destruct (_ !=s _); [done|].
  destruct (AuthorizeImageIngestionCommand _ _) as [[d2 cmd]|e] eqn:Ha.
  - by apply authorize_same, declared_same in Ha.
  - by destruct (errors_Is _ _).
Qed.

Section Jsonb.
Context (jsonb_text : json -> bytes) (to_bigint : string -> option Z).
Abbreviation Record_ := (RecordImageIngestionObservation jsonb_text to_bigint).

Lemma record_same v d d' : Record_ v d = Ok d' -> same_content d d'.
Proof.
  unfold RecordImageIngestionObservation. intros H. apply bind_Ok_inv in H as ([a response] & _ & H).
  run_guards. subst. by destruct (ingestion_attempts _ !! _), (observation_taken _ _ _).
Qed.
End Jsonb.

(** ** The end of an ingestion *)

Lemma settle_keeps now op o outcome d d' :
  settle_image now op o outcome d = Ok d' ->
  image_revisions d' = image_revisions d /\ ingestions d' = ingestions d
  /\ catalog_revisions d' = catalog_revisions d /\ catalog_images d' = catalog_images d.
Proof.
  unfold settle_image, bump. intros H. destruct (images d !! ing_image o); [|by run_guards; subst].
  destruct (_ && _); run_guards; by subst.
Qed.

Lemma declared_settle now op o outcome d d' :
  ingestions d !! op = Some o -> (forall dg size, outcome = Some (dg, size) -> dg = ing_expected o) ->
  settle_image now op o outcome d = Ok d' -> declared d -> declared d'.
Proof.
  intros Ho Hdg H D. unfold settle_image, bump in H.
  destruct (declared_ingestion _ D _ _ Ho) as (e & He & Hexp).
  destruct (images d !! ing_image o) as [c|] eqn:Hc; [|by run_guards; subst].
  destruct (_ && _) eqn:Hcur; [|by run_guards; subst]. run_guards. subst.
  apply declared_put_image; [|done].
  destruct outcome as [[dg size]|]; simpl; [|done].
  intros _. exists e. rewrite (Hdg dg size) by done. rewrite <- Hexp. split; [congruence|done].
Qed.

Lemma row_Ok {A} (o : option A) e a : row o e = Ok a -> o = Some a.
Proof. destruct o; simpl; congruence. Qed.

Lemma judged_verified op obs o a : avr_state (judged op obs o a) = "VERIFIED"%string -> aob_digest a = ing_expected o.
Proof.
  unfold judged. simpl. destruct (_ && _) eqn:E; [|discriminate]. bools. congruence.
Qed.

Lemma verification_same id v d : same_content d (insert_verification id v d).
Proof. unfold insert_verification. by destruct (_ || _). Qed.

Lemma terminal_same id t d d' : insert_terminal id t d = Ok d' -> same_content d d'.
Proof. unfold insert_terminal. destruct (_ || _); intros H; run_guards; by subst. Qed.

Lemma declared_Finalize now op obs ver trm d d' out :
  declared d -> FinalizeImageIngestion now op obs ver trm d = Ok (d', out) -> declared d'.
Proof.
  intros D H. unfold FinalizeImageIngestion in H. destruct (terminal_of op d) as [[x t]|].
  { by run_guards; subst. }
  cbv zeta in H. run_guards. subst. set (terminal := if avr_state _ ==s "VERIFIED" then "SUCCEEDED"%string else "FAILED"%string) in *.
  match goal with E : (if _ then _ else _) = Ok ?d3 |- _ => rename E into Hend; apply (declared_same d3); [repeat split|] end.
  match goal with E : insert_terminal _ _ _ = Ok _ |- _ => apply terminal_same in E; rename E into Hterm end.
  set (d1 := insert_verification _ _ _) in *.
  assert (same_content d d1) as H1 by apply verification_same.
  assert (same_content d a2) as H2 by (etransitivity; eassumption).
  apply (declared_same _ _ H2) in D. clearbody d1 terminal.
  apply row_Ok in Hr. destruct H2 as (E1 & _ & E3 & _ & _). rewrite <- E3 in Hr.
  branch Hend; [| by eapply declared_settle in Hend]. run_guards.
  destruct (declared_ingestion _ D _ _ Hr) as (e & He & Hexp).
  match goal with E : avr_state _ = _ |- _ => apply judged_verified in E; rename E into Hdg end.
  match goal with E : settle_image _ _ _ _ _ = Ok _ |- _ => rename E into Hset end.
  pose proof (settle_keeps _ _ _ _ _ _ Hset) as (K1 & _).
  eapply declared_publish; [ | | exact Hend | ].
  - rewrite K1. exact He.
  - congruence.
  - eapply declared_settle; [exact Hr | | exact Hset | exact D]. intros dg size [= <- <-]. exact Hdg.
Qed.

Lemma declared_Converge jsonb_text to_bigint now cmd ver d :
  declared d -> declared (fst (ConvergeImageIngestionCommand jsonb_text to_bigint now cmd ver d)).
Proof.
  intros D. unfold ConvergeImageIngestionCommand.
  destruct (operation_of_command cmd d) as [op|]; [|done].
  destruct (RecordImageIngestionObservation _ _ _ _) as [d1|e] eqn:Hr; [|by destruct (errors_Is _ _)].
  apply record_same in Hr. apply (declared_same _ _ Hr) in D.
  destruct (FinalizeImageIngestion _ _ _ _ _ _) as [[d2 out]|e] eqn:Hf; [|done].
  by eapply declared_Finalize.
Qed.

(** ** Reachable catalogues *)

(** A step of the control plane on the tables of Images: a call of the service
    or of the Gateway, whether it commits or not, or a change of anything else
    in the database (commands, evidence, roles, projects, admissions). *)
Section Steps.
Context (jsonb_text : json -> bytes) (to_bigint : string -> option Z).

Inductive image_step (d : catalogue) : catalogue -> Prop :=
| step_create now audit random p r :
    image_step d (fst (fst (CreateService now audit random p r d)))
| step_patch now p id revision patch requestID :
    image_step d (fst (fst (PatchService now p id revision patch requestID d)))
| step_delete now p id revision requestID :
    image_step d (fst (fst (DeleteService now p id revision requestID d)))
| step_ingest now random p id revision r :
    image_step d (fst (fst (IngestService now random p id revision r d)))
| step_observe v d' :
    RecordImageIngestionObservation jsonb_text to_bigint v d = Ok d' -> image_step d d'
| step_finalize now operationID observationID verificationID terminalID d' out :
    FinalizeImageIngestion now operationID observationID verificationID terminalID d = Ok (d', out) -> image_step d d'
| step_converge now commandID verificationID :
    image_step d (fst (ConvergeImageIngestionCommand jsonb_text to_bigint now commandID verificationID d))
| step_elsewhere d' : same_content d d' -> image_step d d'.

Inductive image_reachable : catalogue -> Prop :=
| image_start d : image_revisions d = ∅ -> images d = ∅ -> ingestions d = ∅ -> catalog_revisions d = ∅ ->
    catalog_images d = ∅ -> image_reachable d
| image_next d d' : image_reachable d -> image_step d d' -> image_reachable d'.

Lemma declared_step d d' : image_step d d' -> declared d -> declared d'.
Proof.
  intros S D. destruct S as [| | | | v d' H | now op obs ver trm d' out H | | d' H].
  - unfold CreateService. do 2 (split_guard; [done|]). by apply declared_Create.
  - unfold PatchService. split_guard; [done|]. cbv zeta. split_guard; [done|]. by apply declared_PatchImage.
  - unfold DeleteService. do 2 (split_guard; [done|]). by apply declared_Delete.
  - unfold IngestService. do 2 (split_guard; [done|]). by apply declared_CreateIngestion.
  - by apply record_same, declared_same in H.
  - by eapply declared_Finalize.
  - by apply declared_Converge.
  - by eapply declared_same.
Qed.

Lemma reachable_declared d : image_reachable d -> declared d.
Proof.
  induction 1 as [d H1 H2 H3 H4 H5 | d d' _ IH S]; [|by eapply declared_step].
  split; intros *; rewrite ?H1, ?H2, ?H3, ?H4, ?H5, lookup_empty; discriminate.
Qed.
End Steps.

(** ** Replays

    The Gateway converges the ingestion of a command whenever evidence arrives,
    and evidence arrives at least once. *)
Section Replay.
Context (jsonb_text : json -> bytes) (to_bigint : string -> option Z).
Abbreviation observe_ := (RecordImageIngestionObservation jsonb_text to_bigint).
Abbreviation observed_ := (observed_artifact jsonb_text to_bigint).
Abbreviation converge_ := (ConvergeImageIngestionCommand jsonb_text to_bigint).

Definition observing (attempt : Z) (c : ingestion_state_row) : ingestion_state_row :=
  if one_in ["PENDING"; "RUNNING"; "UNKNOWN"; "VERIFYING"]%string (ist_phase c)
  then c <| ist_phase := "VERIFYING"%string |> <| ist_attempt := attempt |> <| ist_retryable := true |>
  else c.

Lemma observing_idem n c : observing n (observing n c) = observing n c.
Proof. unfold observing. destruct (one_in _ (ist_phase c)) eqn:E; [done|]. by rewrite E. Qed.

(** The tables an observation reads *)
Lemma observed_same v d d' :
  control d' = control d -> ingestions d' = ingestions d -> ingestion_commands d' = ingestion_commands d ->
  observed_ v d' = observed_ v d.
Proof. unfold observed_artifact. by intros -> -> ->. Qed.

(** The observation an earlier call left is found again. *)
Record observed_before (v : ImageIngestionObservation) (a : artifact_observation_row) (response : string)
    (d : catalogue) : Prop := MkObserved {
  before_row : observed_ v d = Ok (a, response);
  before_attempt : is_Some (ingestion_attempts d !! (io_OperationID v, aob_attempt a));
  before_taken : observation_taken (io_ObservationID v) a d = true;
  before_valid : (aob_attempt a <? 1) || negb (hex64 (aob_identity a)) = false /\ observation_ok a = true;
}.

Lemma observe_Ok v d d' :
  observe_ v d = Ok d' -> exists a response, observed_before v a response d'
    /\ ingestion_states d' = alter (observing (aob_attempt a)) (io_OperationID v) (ingestion_states d)
    /\ ingestions d' = ingestions d /\ ingestion_commands d' = ingestion_commands d
    /\ ingestion_terminals d' = ingestion_terminals d /\ control d' = control d.
Proof.
  unfold RecordImageIngestionObservation. intros H. apply bind_Ok_inv in H as ([a response] & Ho & H).
  apply bind_Ok_inv in H as ([] & H1 & H). apply fail_if_Ok_inv in H1. cbv zeta in H.
  apply bind_Ok_inv in H as ([] & H2 & H). apply fail_if_Ok_inv in H2. injection H as <-.
  apply negb_false_iff in H2. exists a, response.
  set (d1 := match ingestion_attempts d !! _ with Some _ => d | None => _ end).
  assert (control d1 = control d /\ ingestions d1 = ingestions d /\ ingestion_commands d1 = ingestion_commands d
    /\ ingestion_terminals d1 = ingestion_terminals d /\ ingestion_states d1 = ingestion_states d
    /\ is_Some (ingestion_attempts d1 !! (io_OperationID v, aob_attempt a))) as (E1 & E2 & E3 & E4 & E5 & Hat).
  { unfold d1. destruct (ingestion_attempts d !! _) eqn:Ha; [by rewrite Ha|].
    repeat split; simpl; try done. by rewrite lookup_here. }
  clearbody d1. destruct (observation_taken (io_ObservationID v) a d1) eqn:Ht.
  - split; [|simpl; by rewrite E5]. split; simpl; [by rewrite <- Ho; apply observed_same | done | done | done].
  - split; [|simpl; by rewrite E5]. split; simpl; [by rewrite <- Ho; apply observed_same | done | | done].
    unfold observation_taken. simpl. rewrite lookup_here. by rewrite bool_decide_eq_true_2.
Qed.

Lemma observe_again v a response d :
  observed_before v a response d ->
  alter (observing (aob_attempt a)) (io_OperationID v) (ingestion_states d) = ingestion_states d ->
  observe_ v d = Ok d.
Proof.
  intros [Hr [x Ha] Ht [Hv Hok]] Hs. unfold RecordImageIngestionObservation. rewrite Hr. simpl.
  rewrite Hv. simpl. rewrite Ha, Hok. simpl. rewrite Ht. f_equal.
  unfold update. destruct d. simpl in *. f_equal. exact Hs.
Qed.

(** What the end of an ingestion leaves alone *)
Definition same_evidence (d d' : catalogue) : Prop :=
  control d' = control d /\ ingestions d' = ingestions d /\ ingestion_commands d' = ingestion_commands d
  /\ ingestion_attempts d' = ingestion_attempts d /\ artifact_observations d' = artifact_observations d
  /\ ingestion_states d' = ingestion_states d.

Lemma same_evidence_trans a b c : same_evidence a b -> same_evidence b c -> same_evidence a c.
Proof. intros (H1 & H2 & H3 & H4 & H5 & H6) (K1 & K2 & K3 & K4 & K5 & K6). by repeat split; etransitivity. Qed.

Lemma place_rest id n owner d d' :
  place_catalog_image id n owner d = Ok d' -> same_evidence d d' /\ ingestion_terminals d' = ingestion_terminals d.
Proof.
  unfold place_catalog_image, bump. intros H.
  destruct (catalog_images d !! id) as [c|]; [destruct (_ <? _)|]; run_guards; by subst.
Qed.

Lemma publish_rest id n dg size d d' :
  publishVerifiedImageRevisionTx id n dg size d = Ok d' ->
  same_evidence d d' /\ ingestion_terminals d' = ingestion_terminals d.
Proof.
  unfold publishVerifiedImageRevisionTx. intros H. destruct dg as [dg|], size as [size|]; try discriminate.
  cbv zeta in H. run_guards.
  match goal with E : place_catalog_image _ _ _ _ = Ok _ |- _ => apply place_rest in E as [He Ht] end.
  destruct (catalog_revisions d !! (id, n)); [done|].
  split; [eapply same_evidence_trans; [|exact He]; done | exact Ht].
Qed.

Lemma settle_rest now op o outcome d d' :
  settle_image now op o outcome d = Ok d' -> same_evidence d d' /\ ingestion_terminals d' = ingestion_terminals d.
Proof.
  unfold settle_image, bump. intros H. destruct (images d !! ing_image o); [|by run_guards; subst].
  destruct (_ && _); run_guards; by subst.
Qed.

Lemma insert_terminal_Ok id t d d' :
  insert_terminal id t d = Ok d' ->
  d' = d \/ d' = d <| ingestion_terminals ::= <[id := t]> |>.
Proof. unfold insert_terminal. destruct (_ || _); intros H; run_guards; subst; auto. Qed.

(** A run of [FinalizeImageIngestion]: the terminal it finds, or the one it makes *)
Definition ended (now : Z) (terminal : string) (reason : option string) (c : ingestion_state_row) : ingestion_state_row :=
  c <| ist_phase := terminal |> <| ist_terminal := Some terminal |> <| ist_error := reason |>
    <| ist_retryable := false |> <| ist_completed := Some now |>.

Lemma Finalize_Ok now op obs ver trm d d' out :
  FinalizeImageIngestion now op obs ver trm d = Ok (d', out) ->
  (exists t, terminal_of op d = Some (trm, t) /\ trm_verification t = ver /\ d' = d)
  \/ (terminal_of op d = None /\ exists terminal reason t d1,
        one_in ["SUCCEEDED"; "FAILED"]%string terminal = true /\ trm_operation t = op /\ trm_verification t = ver
        /\ same_evidence d d1
        /\ (ingestion_terminals d1 = ingestion_terminals d \/ ingestion_terminals d1 = <[trm := t]> (ingestion_terminals d))
        /\ d' = d1 <| ingestion_states ::= alter (ended now terminal reason) op |>).
Proof.
  unfold FinalizeImageIngestion. intros H. destruct (terminal_of op d) as [[x t]|] eqn:Ht.
  { left. run_guards. subst. by exists t. }
  right. split; [done|]. cbv zeta in H. run_guards. subst.
  match goal with E : insert_terminal _ ?t _ = Ok _ |- _ => rename E into Hterm; set (t0 := t) in * end.
  match goal with E : (if ?b then _ else _) = Ok _ |- _ => rename E into Hend; set (verified := b) in * end.
  set (d1 := insert_verification _ _ _) in *.
  assert (same_evidence d d1 /\ ingestion_terminals d1 = ingestion_terminals d) as [H1 T1].
  { unfold d1, insert_verification. by destruct (_ || _). }
  clearbody d1.
  assert (same_evidence d1 a2 /\ (ingestion_terminals a2 = ingestion_terminals d1
          \/ ingestion_terminals a2 = <[trm := t0]> (ingestion_terminals d1))) as [H2 T2].
  { apply insert_terminal_Ok in Hterm as [->| ->]; (split; [done|]); [by left | by right]. }
  assert (same_evidence a2 a3 /\ ingestion_terminals a3 = ingestion_terminals a2) as [H3 T3].
  { destruct verified; [|by apply settle_rest in Hend]. run_guards.
    match goal with E : settle_image _ _ _ _ _ = Ok _ |- _ => apply settle_rest in E as [G1 G2] end.
    apply publish_rest in Hend as [G3 G4]. split; [by eapply same_evidence_trans | congruence]. }
  eexists _, _, t0, a3. split; [|split; [|split; [|split; [|split; [|reflexivity]]]]]; try done.
  - by destruct (_ && _).
  - eapply same_evidence_trans; [exact H1|]. by eapply same_evidence_trans.
  - rewrite T3. destruct T2 as [->| ->]; rewrite T1; auto.
Qed.

Lemma alter_id (m : gmap string ingestion_state_row) k f :
  (forall c, m !! k = Some c -> f c = c) -> alter f k m = m.
Proof.
  intros H. apply map_eq. intros i. rewrite lookup_alter. case_decide as Hi; [|done]. subst.
  destruct (m !! i) as [c|] eqn:E; simpl; [|done]. by rewrite (H c eq_refl).
Qed.

Lemma observing_ended now n terminal reason c :
  one_in ["SUCCEEDED"; "FAILED"]%string terminal = true ->
  observing n (ended now terminal reason c) = ended now terminal reason c.
Proof.
  unfold one_in, observing. simpl. intros H.
  apply orb_prop in H as [H|H]; [| apply orb_prop in H as [H|H]; [|done]]; apply String.eqb_eq in H as ->; done.
Qed.

Lemma alter_settled n now terminal reason op (m : gmap string ingestion_state_row) :
  one_in ["SUCCEEDED"; "FAILED"]%string terminal = true ->
  alter (observing n) op (alter (ended now terminal reason) op m) = alter (ended now terminal reason) op m.
Proof.
  intros H. apply alter_id. intros c. rewrite lookup_alter. case_decide; [|done].
  destruct (m !! op); simpl; [|done]. intros [= <-]. by apply observing_ended.
Qed.

Lemma alter_observing n op (m : gmap string ingestion_state_row) :
  alter (observing n) op (alter (observing n) op m) = alter (observing n) op m.
Proof.
  apply alter_id. intros c. rewrite lookup_alter. case_decide; [|done].
  destruct (m !! op); simpl; [|done]. intros [= <-]. by apply observing_idem.
Qed.

Lemma terminal_of_Some op d x t : terminal_of op d = Some (x, t) -> ingestion_terminals d !! x = Some t /\ trm_operation t = op.
Proof.
  unfold terminal_of. intros H. apply List.find_some in H as [Hin Hop]. simpl in Hop. bools.
  split; [|done]. by apply elem_of_map_to_list, list_elem_of_In.
Qed.
Lemma terminal_of_None op d x t :
  terminal_of op d = None -> ingestion_terminals d !! x = Some t -> trm_operation t <> op.
Proof.
  unfold terminal_of. intros H Hx. apply elem_of_map_to_list, list_elem_of_In in Hx.
  apply (List.find_none _ _ H) in Hx. simpl in Hx. by bools.
Qed.

Lemma Finalize_commands now op obs ver trm d d' out :
  FinalizeImageIngestion now op obs ver trm d = Ok (d', out) -> ingestion_commands d' = ingestion_commands d.
Proof.
  intros H. apply Finalize_Ok in H as [(t & _ & _ & ->)|(_ & x & r & t & d1 & _ & _ & _ & (_ & _ & Hc & _) & _ & ->)]; done.
Qed.

Lemma Finalize_loads now op obs ver trm d d' out :
  FinalizeImageIngestion now op obs ver trm d = Ok (d', out) -> loadOperationTx op d' = Ok out.
Proof.
  unfold FinalizeImageIngestion. intros H. destruct (terminal_of op d) as [[x t]|]; cbv zeta in H; run_guards; by subst.
Qed.

(** A second run finds the terminal the first one made. *)
Lemma Finalize_again now now' op obs ver trm d d' out :
  FinalizeImageIngestion now op obs ver trm d = Ok (d', out) -> is_Some (terminal_of op d') ->
  FinalizeImageIngestion now' op obs ver trm d' = Ok (d', out).
Proof.
  intros H [[x u] Hend]. pose proof (Finalize_loads _ _ _ _ _ _ _ _ H) as Hload.
  assert (x = trm /\ trm_verification u = ver) as [-> <-].
  { apply Finalize_Ok in H as [(t & Ht & Hver & ->)|(Hnone & x' & r & t & d1 & _ & Htop & Hver & _ & Hins & ->)].
    - rewrite Ht in Hend. by injection Hend as <- <-.
    - apply terminal_of_Some in Hend as [Hx Hu]. simpl in Hx.
      destruct Hins as [Hins|Hins]; rewrite Hins in Hx.
      { by apply (terminal_of_None _ _ _ _ Hnone) in Hx. }
      apply lookup_insert_Some in Hx as [[<- <-]|[_ Hx]]; [done|].
      by apply (terminal_of_None _ _ _ _ Hnone) in Hx. }
  unfold FinalizeImageIngestion. by rewrite Hend, !String.eqb_refl, Hload.
Qed.

(** What was observed before is still found once the ingestion ended. *)
Lemma observed_after now op obs ver trm d d' out v a response :
  FinalizeImageIngestion now op obs ver trm d = Ok (d', out) ->
  observed_before v a response d -> observed_before v a response d'.
Proof.
  intros H [Hr Ha Ht Hv].
  apply Finalize_Ok in H as [(t & _ & _ & ->)|(_ & x & r & t & d1 & _ & _ & _ & (H1 & H2 & H3 & H4 & H5 & _) & _ & ->)];
    [done|].
  split; simpl; rewrite ?H4; try done.
  - by rewrite <- Hr; apply observed_same.
  - unfold observation_taken in *. simpl. by rewrite H5.
Qed.

(** ** The claims about ingestion *)

(** Convergence is idempotent: when the evidence of a command was taken in
    without an error and its ingestion has its terminal, presenting the same
    verification again, at any later time, changes no table and answers no
    error; the delivery of evidence at least once is harmless. *)
Theorem converge_is_idempotent now now' commandID verificationID op d d' :
  converge_ now commandID verificationID d = (d', None) ->
  operation_of_command commandID d = Some op -> is_Some (terminal_of op d') ->
  converge_ now' commandID verificationID d' = (d', None).
Proof.
  intros H Hop Hend. unfold ConvergeImageIngestionCommand in H |- *. rewrite Hop in H.
  destruct (observe_ _ d) as [d1|e] eqn:Hobs.
  2: { destruct (errors_Is e ErrNoRows) eqn:He; simplify_eq. by rewrite Hop, Hobs, He. }
  apply observe_Ok in Hobs as (a & response & Hbefore & Hst & Hing & Hcmd & Htrm & Hctl).
  destruct (FinalizeImageIngestion _ _ _ _ _ _) as [[d2 out]|e] eqn:Hfin; simplify_eq.
  simpl in Hst, Hbefore.
  assert (operation_of_command commandID d' = Some op) as Hop'.
  { rewrite <- Hop. unfold operation_of_command. f_equal. f_equal.
    by rewrite <- Hcmd, (Finalize_commands _ _ _ _ _ _ _ _ Hfin). }
  rewrite Hop'. rewrite (observe_again _ a response d').
  - by rewrite (Finalize_again _ now' _ _ _ _ _ _ _ Hfin Hend).
  - by eapply observed_after.
  - apply Finalize_Ok in Hfin as [(t & _ & _ & ->)|Hmade]; [by rewrite Hst, alter_observing|].
    destruct Hmade as (_ & terminal & reason & t & d3 & Hone & _ & _ & (_ & _ & _ & _ & _ & Hsame) & _ & ->).
    simpl. by rewrite Hsame, Hst, alter_settled.
Qed.
End Replay.

(** ** The decision of an ingestion *)

Definition verified_by (o : ingestion_row) (a : artifact_observation_row) : bool :=
  (aob_read_back a ==s "COMPLETE") && (ing_expected o ==s aob_digest a).
(** The ingestion still is the one the Image waits for. *)
Definition awaited (op : string) (o : ingestion_row) (c : image_row) : bool :=
  (img_revision c =? ing_revision o) && bool_decide (img_operation c = Some op).
(** What becomes of the Image, and of its entry in the catalogue *)
Definition settled (now : Z) (op : string) (o : ingestion_row) (outcome : option (string * Z)) (c : image_row) : image_row :=
  if awaited op o c then
    let c := c <| img_authority ::= Z.succ |> <| img_updated := now |> in
    match outcome with
    | Some (digest, size) =>
        c <| img_verification := "VERIFIED"%string |> <| img_digest := Some digest |> <| img_size := Some size |>
    | None => c <| img_verification := "FAILED"%string |>
    end
  else c.
Definition placed (n : Z) (owner : string) (m : option catalog_image_row) : catalog_image_row :=
  match m with
  | None => MkCatalogImage n owner "ACTIVE" 1
  | Some k => if cim_revision k <? n then MkCatalogImage n owner "ACTIVE" (cim_authority k + 1) else k
  end.

(** An ingestion that no evidence decided yet, with its Image, its revision and
    its state; the names the decision will have are free, and no counter is at
    the end of its range. *)
Record undecided (op ver trm : string) (d : catalogue) (o : ingestion_row) (c : image_row) (e : revision_row)
    (st : ingestion_state_row) : Prop := MkUndecided {
  undecided_ingestion : ingestions d !! op = Some o;
  undecided_image : images d !! ing_image o = Some c;
  undecided_revision : image_revisions d !! (ing_image o, ing_revision o) = Some e;
  undecided_state : ingestion_states d !! op = Some st;
  undecided_terminals x t : ingestion_terminals d !! x = Some t ->
    x <> trm /\ trm_operation t <> op /\ trm_verification t <> ver;
  undecided_verifications x v : artifact_verifications d !! x = Some v ->
    x <> ver /\ avr_operation v <> op /\ avr_observation v <> ("image-artifact-observation-" ++ op)%string;
  undecided_digest : awaited op o c = true -> img_digest c = None;
  undecided_authority : img_authority c < MaxInt64;
  undecided_catalog k : catalog_images d !! ing_image o = Some k ->
    cim_authority k < MaxInt64;
  undecided_published k : catalog_revisions d !! (ing_image o, ing_revision o) = Some k ->
    crv_state k = "VERIFIED"%string /\ crv_owner k = de_ProjectID (rev_desired e);
}.

Lemma bump_Ok z : z < MaxInt64 -> bump z = Ok (z + 1).
Proof. intros H. unfold bump. rewrite fail_if_pass; [done|]. by apply Z.leb_gt. Qed.

Lemma settle_runs now op o outcome d c :
  images d !! ing_image o = Some c -> img_authority c < MaxInt64 ->
  (awaited op o c = true -> img_digest c = None) ->
  settle_image now op o outcome d = Ok (d <| images ::= <[ing_image o := settled now op o outcome c]> |>).
Proof.
  intros Hc Ha Hd. unfold settle_image, settled. rewrite Hc. unfold awaited in *.
  destruct (_ && _) eqn:Hw.
  - rewrite bump_Ok by done. simpl. destruct outcome as [[dg size]|]; simpl; [done|].
    rewrite Hd by done. done.
  - f_equal. destruct d. unfold update. simpl in *. f_equal. symmetry. by apply insert_id.
Qed.

Lemma place_runs id n owner d :
  (forall k, catalog_images d !! id = Some k -> cim_authority k < MaxInt64) ->
  place_catalog_image id n owner d
  = Ok (d <| catalog_images ::= <[id := placed n owner (catalog_images d !! id)]> |>).
Proof.
  intros Ha. unfold place_catalog_image, placed. destruct (catalog_images d !! id) as [k|] eqn:Hk; [|done].
  destruct (cim_revision k <? n); [by rewrite bump_Ok by auto|].
  f_equal. destruct d. unfold update. simpl in *. f_equal. symmetry. by apply insert_id.
Qed.

(** The revision the catalogue keeps after a publication *)
Definition kept_revision (id : string) (n : Z) (k : catalog_revision_row) (d : catalogue) : catalogue :=
  match catalog_revisions d !! (id, n) with
  | Some _ => d
  | None => d <| catalog_revisions ::= <[(id, n) := k]> |>
  end.

Lemma publish_runs id n e dg size d :
  image_revisions d !! (id, n) = Some e -> catalog_row_ok n (catalog_row id n e dg size) = true ->
  (forall k, catalog_revisions d !! (id, n) = Some k ->
     crv_state k = "VERIFIED"%string /\ crv_owner k = de_ProjectID (rev_desired e)) ->
  (forall k, catalog_images d !! id = Some k -> cim_authority k < MaxInt64) ->
  publishVerifiedImageRevisionTx id n (Some dg) (Some size) d
  = Ok (kept_revision id n (catalog_row id n e dg size) d
          <| catalog_images ::= <[id := placed n (de_ProjectID (rev_desired e)) (catalog_images d !! id)]> |>).
Proof.
  intros He Hok Hkept Ha. unfold publishVerifiedImageRevisionTx, kept_revision. rewrite He. simpl. rewrite Hok. simpl.
  destruct (catalog_revisions d !! (id, n)) as [k|] eqn:Hk; simpl.
  - destruct (Hkept k eq_refl) as [Hs Ho]. rewrite Hk, Hs, Ho, !String.eqb_refl. simpl. by rewrite place_runs.
  - rewrite lookup_here. simpl. rewrite !String.eqb_refl. simpl. by rewrite place_runs.
Qed.

Lemma evidence_runs op ver trm d o c e st obs v t :
  undecided op ver trm d o c e st -> obs = ("image-artifact-observation-" ++ op)%string ->
  avr_operation v = op -> avr_observation v = obs -> trm_operation t = op -> trm_verification t = ver ->
  insert_terminal trm t (insert_verification ver v d)
  = Ok (d <| artifact_verifications ::= <[ver := v]> |> <| ingestion_terminals ::= <[trm := t]> |>).
Proof.
  intros U -> Hv1 Hv2 Ht1 Ht2. unfold insert_verification.
  rewrite bool_decide_eq_false_2, any_row_false; simpl.
  - unfold insert_terminal. simpl. rewrite bool_decide_eq_false_2, any_row_false; simpl.
    + rewrite Ht2. rewrite bool_decide_eq_false_2 by (rewrite lookup_here; discriminate). done.
    + intros x u Hu. destruct (undecided_terminals _ _ _ _ _ _ _ _ U x u Hu) as (_ & H1 & H2).
      apply orb_false_intro; apply String.eqb_neq; congruence.
    + intros [u Hu]. by destruct (undecided_terminals _ _ _ _ _ _ _ _ U trm u Hu).
  - intros x w Hw. destruct (undecided_verifications _ _ _ _ _ _ _ _ U x w Hw) as (_ & H1 & H2).
    apply orb_false_intro; apply String.eqb_neq; congruence.
  - intros [w Hw]. by destruct (undecided_verifications _ _ _ _ _ _ _ _ U ver w Hw).
Qed.

Lemma no_terminal op ver trm d o c e st : undecided op ver trm d o c e st -> terminal_of op d = None.
Proof.
  intros U. destruct (terminal_of op d) as [[x t]|] eqn:E; [|done]. apply terminal_of_Some in E as [Hx Ht].
  by destruct (undecided_terminals _ _ _ _ _ _ _ _ U x t Hx) as (_ & H & _).
Qed.

(** The outcome of an ingestion, as its tables show it *)
Record decided (now : Z) (op : string) (o : ingestion_row) (a : artifact_observation_row) (c : image_row)
    (e : revision_row) (st : ingestion_state_row) (d d' : catalogue) : Prop := MkDecided {
  decided_state : ingestion_states d' !! op
    = Some (ended now (if verified_by o a then "SUCCEEDED" else "FAILED")
              (if verified_by o a then None else Some "DIGEST_MISMATCH") st)%string;
  decided_image : images d' !! ing_image o
    = Some (settled now op o (if verified_by o a then Some (aob_digest a, aob_size a) else None) c);
  decided_catalog : catalog_images d' !! ing_image o
    = if verified_by o a
      then Some (placed (ing_revision o) (de_ProjectID (rev_desired e)) (catalog_images d !! ing_image o))
      else catalog_images d !! ing_image o;
  decided_others id : id <> ing_image o ->
    images d' !! id = images d !! id /\ catalog_images d' !! id = catalog_images d !! id;
}.

Lemma kept_same id n k d :
  ingestions (kept_revision id n k d) = ingestions d /\ ingestion_states (kept_revision id n k d) = ingestion_states d
  /\ images (kept_revision id n k d) = images d /\ catalog_images (kept_revision id n k d) = catalog_images d.
Proof. unfold kept_revision. by destruct (catalog_revisions d !! (id, n)). Qed.

Lemma lookup_alter_here `{Countable K} {A} (m : gmap K A) k f : alter f k m !! k = f <$> m !! k.
Proof. rewrite lookup_alter. by case_decide. Qed.

#[local] Arguments publishVerifiedImageRevisionTx : simpl never.

Lemma finalize_runs now op ver trm d o c e st a :
  let obs := ("image-artifact-observation-" ++ op)%string in
  undecided op ver trm d o c e st -> artifact_observations d !! obs = Some a -> aob_operation a = op ->
  (verified_by o a = true -> catalog_row_ok (ing_revision o) (catalog_row (ing_image o) (ing_revision o) e (aob_digest a) (aob_size a)) = true) ->
  exists d' out, FinalizeImageIngestion now op obs ver trm d = Ok (d', out) /\ decided now op o a c e st d d'.
Proof.
  intros obs U Ha Hop Hok. unfold FinalizeImageIngestion.
  rewrite (no_terminal _ _ _ _ _ _ _ _ U), (undecided_ingestion _ _ _ _ _ _ _ _ U), Ha. simpl.
  rewrite Hop, String.eqb_refl. simpl. unfold judged, avr_state, avr_reason. fold (verified_by o a).
  replace ((if verified_by o a then "VERIFIED" else "REJECTED") ==s "VERIFIED") with (verified_by o a)
    by (by destruct (verified_by o a)).
  erewrite evidence_runs by (exact U || reflexivity). simpl.
  pose proof (undecided_image _ _ _ _ _ _ _ _ U) as Hc. pose proof (undecided_authority _ _ _ _ _ _ _ _ U) as Hauth.
  destruct (verified_by o a) eqn:Hv.
  - erewrite settle_runs by (simpl; eauto; by eapply undecided_digest). simpl.
    erewrite publish_runs; [ | exact (undecided_revision _ _ _ _ _ _ _ _ U) | by apply Hok
      | exact (undecided_published _ _ _ _ _ _ _ _ U) | exact (undecided_catalog _ _ _ _ _ _ _ _ U) ]. simpl.
    match goal with |- context [kept_revision ?i ?n ?k ?d] =>
      destruct (kept_same i n k d) as (K1 & K2 & K3 & K4); set (d1 := kept_revision i n k d) in *; clearbody d1 end.
    unfold loadOperationTx. simpl in *.
    rewrite K1, (undecided_ingestion _ _ _ _ _ _ _ _ U), K2. simpl.
    rewrite lookup_alter_here, (undecided_state _ _ _ _ _ _ _ _ U). simpl.
    eexists _, _. split; [reflexivity|]. split; simpl; rewrite ?Hv, ?K3, ?K4, ?K2.
    + by rewrite lookup_alter_here, (undecided_state _ _ _ _ _ _ _ _ U).
    + apply lookup_here.
    + apply lookup_here.
    + intros id Hid. by rewrite !lookup_insert_ne by done.
  - erewrite settle_runs by (simpl; eauto; by eapply undecided_digest). simpl. unfold loadOperationTx. simpl.
    rewrite (undecided_ingestion _ _ _ _ _ _ _ _ U). simpl.
    rewrite lookup_alter_here, (undecided_state _ _ _ _ _ _ _ _ U). simpl.
    eexists _, _. split; [reflexivity|]. split; simpl; rewrite ?Hv.
    + by rewrite lookup_alter_here, (undecided_state _ _ _ _ _ _ _ _ U).
    + apply lookup_here.
    + done.
    + intros id Hid. by rewrite !lookup_insert_ne by done.
Qed.

(** ** From the evidence to the catalogue *)
Section Convergence.
Context (jsonb_text : json -> bytes) (to_bigint : string -> option Z).
Abbreviation converge_ := (ConvergeImageIngestionCommand jsonb_text to_bigint).

Definition observation_id (op : string) : string := ("image-artifact-observation-" ++ op)%string.
Definition verification_id (op : string) : string := ("image-artifact-verification-" ++ op)%string.
Definition terminal_id (op : string) : string := ("image-ingestion-terminal-" ++ op)%string.

(** The verification of a command, as the first observation of its ingestion,
    and one the constraints of the tables admit *)
Record first_observation (op verificationID : string) (d : catalogue) (o : ingestion_row) (e : revision_row)
    (a : artifact_observation_row) (response : string) : Prop := MkFirst {
  first_row : observed_artifact jsonb_text to_bigint (MkImageObservation op (observation_id op) verificationID) d
              = Ok (a, response);
  first_taken : observation_taken (observation_id op) a d = false;
  first_attempt : 0 < aob_attempt a;
  first_identity : hex64 (aob_identity a) = true;
  first_valid : observation_ok a = true;
  first_publishable : verified_by o a = true ->
    catalog_row_ok (ing_revision o) (catalog_row (ing_image o) (ing_revision o) e (aob_digest a) (aob_size a)) = true;
}.

Lemma observed_operation v d a response :
  observed_artifact jsonb_text to_bigint v d = Ok (a, response) -> aob_operation a = io_OperationID v.
Proof. unfold observed_artifact. intros H. cbv zeta in H. run_guards. by subst. Qed.

Lemma converge_runs now commandID verificationID op d o c e st a response :
  operation_of_command commandID d = Some op ->
  undecided op (verification_id op) (terminal_id op) d o c e st ->
  first_observation op verificationID d o e a response ->
  exists d', converge_ now commandID verificationID d = (d', None)
    /\ decided now op o a c e (observing (aob_attempt a) st) d d'.
Proof.
  intros Hop U [Hrow Htaken Hat Hid Hok Hpub]. unfold ConvergeImageIngestionCommand. rewrite Hop.
  fold (observation_id op) (verification_id op) (terminal_id op).
  unfold RecordImageIngestionObservation. rewrite Hrow. simpl. rewrite Hid.
  replace (aob_attempt a <? 1) with false by (symmetry; apply Z.ltb_ge; lia). simpl. rewrite Hok. simpl.
  set (d1 := match ingestion_attempts d !! _ with Some _ => d | None => _ end).
  replace (observation_taken (observation_id op) a d1) with false
    by (rewrite <- Htaken; unfold d1; by destruct (ingestion_attempts d !! _)).
  set (d2 := _ <| ingestion_states ::= _ |>).
  assert (undecided op (verification_id op) (terminal_id op) d2 o c e (observing (aob_attempt a) st)) as U2.
  { destruct U as [U1 U2 U3 U4 U5 U6 U7 U8 U9 U10]. unfold d2, d1.
    destruct (ingestion_attempts d !! _); split; simpl; try assumption; by rewrite lookup_alter_here, U4. }
  destruct (finalize_runs now op (verification_id op) (terminal_id op) d2 o c e _ a U2) as (d' & out & Hrun & Hdec).
  - unfold d2. simpl. apply lookup_here.
  - by apply observed_operation in Hrow.
  - exact Hpub.
  - fold (observation_id op) in Hrun. rewrite Hrun. exists d'. split; [done|].
    destruct Hdec as [D1 D2 D3 D4]. unfold d2, d1 in *.
    destruct (ingestion_attempts d !! _); split; simpl in *; assumption.
Qed.

(** C23: The first evidence of an ingestion decides it.  Conditions: the tables
    hold the ingestion, its state, its Image and its revision, no terminal and no
    verification of it or under the names the decision gives them, counters
    below the largest int64, no digest on an Image that waits for this
    operation, and a catalogue revision of this number, if kept already, that is
    VERIFIED and of the same owner ([undecided]); and the row read from the
    verification (its answer may have been lost) is new, of a positive attempt,
    and within the constraints of its table, as is the catalogue row in the
    case of a match ([first_observation]).  Then the call answers no error.  The
    operation is SUCCEEDED exactly when the artifact was read back COMPLETE with
    the digest the ingestion expects, and FAILED with DIGEST_MISMATCH otherwise.
    An Image still at the revision and waiting for the operation becomes
    VERIFIED, with the digest and size observed, or FAILED; one that was patched
    or ingested again meanwhile is left as it is.  After a match the entry
    of the Image in the catalogue is kept if it is at this revision or a later
    one and put at this revision otherwise, whatever became of the Image; with no
    match it is unchanged.  No other Image, and no other entry, is touched. *)
Theorem evidence_decides_the_ingestion now commandID verificationID op d o c e st a response :
  operation_of_command commandID d = Some op ->
  undecided op (verification_id op) (terminal_id op) d o c e st ->
  first_observation op verificationID d o e a response ->
  exists d', converge_ now commandID verificationID d = (d', None)
    /\ decided now op o a c e (observing (aob_attempt a) st) d d'.
Proof. exact (converge_runs now commandID verificationID op d o c e st a response). Qed.

(** The decision never asks whether the Image was deleted: with evidence
    that matches, the revision of a DELETED Image is put in the catalogue as
    ACTIVE, where placement finds it, while the Image remains DELETED; and
    deleting the Image again answers no error and leaves it there. *)
Theorem a_deleted_image_is_published now commandID verificationID op d o c e st a response :
  operation_of_command commandID d = Some op ->
  undecided op (verification_id op) (terminal_id op) d o c e st ->
  first_observation op verificationID d o e a response ->
  verified_by o a = true -> img_lifecycle c = "DELETED"%string -> catalog_images d !! ing_image o = None ->
  exists d' c', converge_ now commandID verificationID d = (d', None)
    /\ images d' !! ing_image o = Some c' /\ img_lifecycle c' = "DELETED"%string
    /\ catalog_images d' !! ing_image o
       = Some (MkCatalogImage (ing_revision o) (de_ProjectID (rev_desired e)) "ACTIVE" 1)
    /\ forall later p revision,
         is_Some (image_revisions d' !! (ing_image o, img_revision c')) ->
         authorizeNorthboundTx (role_bindings d') p "DELETE" (img_owner c') = true ->
         Delete later p (ing_image o) revision d' = (d', tt, None).
Proof.
  intros Hop U F Hv Hdel Hcat.
  destruct (converge_runs now _ _ _ _ _ _ _ _ _ _ Hop U F) as (d' & Hrun & [D1 D2 D3 D4]).
  rewrite Hv in *. rewrite Hcat in D3. eexists d', _. split; [exact Hrun|]. split; [exact D2|].
  assert (forall outcome, img_lifecycle (settled now op o outcome c) = "DELETED"%string) as Hstill.
  { intros outcome. unfold settled. destruct (awaited op o c); [|done]. by destruct outcome as [[??]|]. }
  split; [by apply Hstill|]. split; [exact D3|]. intros later p revision [r Hr] Hauth.
  unfold Delete, transact. rewrite D2, Hr, Hauth, Hstill. done.
Qed.
End Convergence.

(** C22: What the catalogue offers is what was declared: along any run of the
    Image operations, interleaved with anything else the control plane does,
    every Image in the catalogue refers to a VERIFIED revision it keeps, whose
    observed digest and owner are those of the declared revision of the same
    number; and an Image that reads as VERIFIED shows the digest its current
    revision declares, however often it was patched since. *)
Theorem published_content_is_declared jsonb_text to_bigint d :
  image_reachable jsonb_text to_bigint d ->
  (forall id c, catalog_images d !! id = Some c -> exists k e,
     catalog_revisions d !! (id, cim_revision c) = Some k /\ image_revisions d !! (id, cim_revision c) = Some e
     /\ crv_state k = "VERIFIED"%string /\ crv_observed k = declared_digest e /\ crv_owner k = de_ProjectID (rev_desired e))
  /\ (forall id c, images d !! id = Some c -> img_verification c = "VERIFIED"%string -> exists e,
        image_revisions d !! (id, img_revision c) = Some e /\ img_digest c = Some (declared_digest e)).
Proof.
  intros R. destruct (reachable_declared _ _ _ R) as [I J K L]. split; [|exact J].
  intros id c Hc. destruct (L id c Hc) as [k Hk]. destruct (K _ _ _ Hk) as (e & He & Ho & _ & Hs & Hw).
  by exists k, e.
Qed.

(** ** A run *)

Definition demo_project : string := resource.NewID (seqZ 0 16).
Definition demo_admin : resource.Principal := resource.MkPrincipal "issuer" "admin" "HUMAN".
Definition demo_capable : db := run
  [(4, Admit (MkAdmission "attempt-1" "host-1" "connection-1" "grpc" "v1" demo_digest 1 demo_digest
        (JObj [("capabilities", JArr [JStr "kim.image-artifact-ingest/v1"])])%string 0));
   (5, Inventory demo_inventory demo_snapshot "[]");
   (6, Gate (MkHostReadinessGate "host-1" 1 1 1 "PASSED" 1 "COMPLIANT"));
   (7, Arm (MkArmRequest "host-1" "policy" 1 "actor" "reason"))]%string (run (take 3 demo_arming) initial).

Definition demo_empty : catalogue :=
  MkCatalogue demo_capable {[ demo_project := "ACTIVE"%string ]}
    {[ "binding-1"%string := MkBinding "issuer" "admin" "HUMAN" "SYSTEM" "" "ADMIN" "ACTIVE" ]}
    ∅ ∅ ∅ ∅ ∅ ∅ ∅ ∅ ∅ ∅ ∅ ∅ ∅ ∅ ∅.
Definition demo_desired : Desired := MkDesired demo_project "image" "X86_64" "QCOW2" demo_digest "source" "PRIVATE" false.
Definition demo_image : string := resource.NewID (seqZ 16 16).
Definition demo_operation : string := resource.NewID (seqZ 32 16).
Definition demo_declared : catalogue := fst (fst (CreateService 10 "audit-1" (seqZ 16 16) demo_admin
  (MkCreateRequest demo_desired "key-1" "request-1" "/api/v1/images") demo_empty)).
Definition demo_ingesting : catalogue := fst (fst (IngestService 11 (seqZ 32 16) demo_admin demo_image 1
  (MkIngestionRequest "key-2" "request-2") demo_declared)).
Definition demo_ingestion_command : string := ("image-ingestion-command-" ++ demo_operation)%string.
Definition demo_payload_digest : string := Eval vm_compute in
  sha256_hex (marshal (default JNull (ingestion_payload <$> ingestions demo_ingesting !! demo_operation))).
Definition demo_image_key : string := Eval vm_compute in ("image:" ++ demo_image ++ ":1")%string.

(** The Agent leases the command, starts it, loses its lease, and finds the
    artifact in place. *)
Definition demo_found (digest : string) : db := run
  [(12, AcquireLease demo_token (MkLeaseRequest demo_ingestion_command 1 60000000 0 None ""));
   (13, Journaled (MkAttemptStart demo_ingestion_command 1 (RawURLEncoding demo_token) demo_digest));
   (70000, Expire demo_ingestion_command);
   (70001, AgentObservation 1000
      (MkEnvelope "host-1" 1 StreamResync "observation-1" VerificationObservationSchema
         ("command/" ++ demo_ingestion_command) 1 0 (sha256_hex "") demo_ingestion_command "")
      (MkVerificationObservation VerificationObservationSchema demo_ingestion_command 1 demo_image_key demo_payload_digest
         (MkObservation "MATCHED" demo_digest 1
            (JObj [("observed_digest", JStr digest); ("observed_size_bytes", JUint 4096); ("read_back_state", JStr "COMPLETE")]))
         demo_digest demo_digest))]%string (control demo_ingesting).
Definition demo_observed_image (digest : string) : catalogue := demo_ingesting <| control := demo_found digest |>.
Definition demo_missing : string := Eval compute in string_of_list_ascii (replicate 64 "b"%char).
Definition demo_deleted : catalogue :=
  (fst (fst (DeleteService 12 demo_admin demo_image 1 "request-3" demo_ingesting))) <| control := demo_found demo_digest |>.
Definition demo_verification : string := Eval vm_compute in
  match map_to_list (verifications (demo_found demo_digest)) with [(v, _)] => v | _ => "" end.
Definition demo_bigint (s : string) : option Z := if s ==s "4096" then Some 4096 else None.
Abbreviation demo_observe d := (observed_artifact marshal demo_bigint
  (MkImageObservation demo_operation (observation_id demo_operation) demo_verification) d).
Abbreviation demo_converge d := (ConvergeImageIngestionCommand marshal demo_bigint 70002 demo_ingestion_command demo_verification d).
Definition demo_published_image : catalogue := fst (demo_converge (demo_observed_image demo_digest)).

(** The rows of the run *)
Abbreviation image_at d := (default (MkImageRow 0 "" "" "" None None None 0 None 0 0) (images d !! demo_image)).
Definition demo_revision : revision_row := MkRevisionRow demo_desired (DesiredDigest demo_desired).
Abbreviation ingestion_at d := (default (MkIngestion "" 0 0 "" "" "" "" "" "" "" 0) (ingestions d !! demo_operation)).
Abbreviation state_at d := (default (MkIngestionState "" None None false false 0 None) (ingestion_states d !! demo_operation)).
Definition zero_observation : artifact_observation_row := MkArtifactObservation "" "" "" 0 "" 0 0 "" 0 "" "" 0 "" "" "".
Abbreviation observation_at d := (match demo_observe d with Ok (a, _) => a | Err _ => zero_observation end).

Lemma demo_undecided d :
  ingestion_terminals d = ∅ -> artifact_verifications d = ∅ -> catalog_images d = ∅ -> catalog_revisions d = ∅ ->
  match ingestions d !! demo_operation, ingestion_states d !! demo_operation with Some o, Some _ =>
    (ing_image o ==s demo_image) && (ing_revision o =? 1) | _, _ => false end = true ->
  match images d !! demo_image with
  | Some c => (img_authority c <? MaxInt64) && bool_decide (img_digest c = None)
  | None => false
  end = true ->
  image_revisions d !! (demo_image, 1) = Some demo_revision ->
  undecided demo_operation (verification_id demo_operation) (terminal_id demo_operation) d (ingestion_at d) (image_at d)
    demo_revision (state_at d).
Proof.
  intros Ht Hv Hi Hr Ho Hc He.
  destruct (ingestions d !! demo_operation) as [o|] eqn:Eo; [|discriminate].
  destruct (ingestion_states d !! demo_operation) as [st|] eqn:Es; [|discriminate].
  destruct (images d !! demo_image) as [c|] eqn:Ec; [|discriminate]. bools.
  split; simpl; rewrite ?Ht, ?Hv, ?Hi, ?Hr.
  all: match goal with E : ing_image _ = _ |- _ => rewrite ?E | _ => idtac end.
  all: match goal with E : ing_revision _ = _ |- _ => rewrite ?E | _ => idtac end.
  all: try assumption; try done; intros *; rewrite lookup_empty; discriminate.
Qed.

Lemma demo_waiting digest :
  digest = demo_digest \/ digest = demo_missing ->
  undecided demo_operation (verification_id demo_operation) (terminal_id demo_operation) (demo_observed_image digest)
    (ingestion_at (demo_observed_image digest)) (image_at (demo_observed_image digest)) demo_revision
    (state_at (demo_observed_image digest)).
Proof. intros [-> | ->]; apply demo_undecided; vm_compute; reflexivity. Qed.

Ltac demo_first := split; [vm_compute; reflexivity | vm_compute; reflexivity | vm_compute; reflexivity
  | vm_compute; reflexivity | vm_compute; reflexivity | intros _; vm_compute; reflexivity].

Lemma evidence_decides_the_ingestion_witness :
  (exists d', demo_converge (demo_observed_image demo_digest) = (d', None)
     /\ ist_phase <$> ingestion_states d' !! demo_operation = Some "SUCCEEDED"%string
     /\ catalog_images d' !! demo_image = Some (MkCatalogImage 1 demo_project "ACTIVE" 1))
  /\ (exists d', demo_converge (demo_observed_image demo_missing) = (d', None)
     /\ ist_phase <$> ingestion_states d' !! demo_operation = Some "FAILED"%string
     /\ catalog_images d' !! demo_image = None).
Proof.
  split.
  - destruct (evidence_decides_the_ingestion marshal demo_bigint 70002 demo_ingestion_command demo_verification demo_operation
      (demo_observed_image demo_digest) (ingestion_at (demo_observed_image demo_digest)) (image_at (demo_observed_image demo_digest))
      demo_revision (state_at (demo_observed_image demo_digest)) (observation_at (demo_observed_image demo_digest)) "LOST")
      as (d' & Hrun & [D1 _ D3 _]).
    + vm_compute. reflexivity.
    + apply demo_waiting. by left.
    + demo_first.
    + exists d'. split; [exact Hrun|]. split; [rewrite D1; vm_compute; reflexivity|].
      change demo_image with (ing_image (ingestion_at (demo_observed_image demo_digest))). rewrite D3. vm_compute. reflexivity.
  - destruct (evidence_decides_the_ingestion marshal demo_bigint 70002 demo_ingestion_command demo_verification demo_operation
      (demo_observed_image demo_missing) (ingestion_at (demo_observed_image demo_missing)) (image_at (demo_observed_image demo_missing))
      demo_revision (state_at (demo_observed_image demo_missing)) (observation_at (demo_observed_image demo_missing)) "LOST")
      as (d' & Hrun & [D1 _ D3 _]).
    + vm_compute. reflexivity.
    + apply demo_waiting. by right.
    + demo_first.
    + exists d'. split; [exact Hrun|]. split; [rewrite D1; vm_compute; reflexivity|].
      change demo_image with (ing_image (ingestion_at (demo_observed_image demo_missing))). rewrite D3. vm_compute. reflexivity.
Defined.

Lemma a_deleted_image_is_published_witness : exists d' c', demo_converge demo_deleted = (d', None)
  /\ images d' !! demo_image = Some c' /\ img_lifecycle c' = "DELETED"%string
  /\ catalog_images d' !! demo_image = Some (MkCatalogImage 1 demo_project "ACTIVE" 1).
Proof.
  destruct (a_deleted_image_is_published marshal demo_bigint 70002 demo_ingestion_command demo_verification demo_operation
    demo_deleted (ingestion_at demo_deleted) (image_at demo_deleted) demo_revision (state_at demo_deleted)
    (observation_at demo_deleted) "LOST") as (d' & c' & Hrun & Hc & Hl & Hk & _).
  - vm_compute. reflexivity.
  - apply demo_undecided; vm_compute; reflexivity.
  - demo_first.
  - vm_compute. reflexivity.
  - vm_compute. reflexivity.
  - vm_compute. reflexivity.
  - assert (ing_image (ingestion_at demo_deleted) = demo_image) as Hi by (vm_compute; reflexivity).
    rewrite Hi in Hc, Hk. exists d', c'. split; [exact Hrun|]. split; [exact Hc|]. split; [exact Hl|].
    rewrite Hk. vm_compute. reflexivity.
Defined.

Lemma demo_published_facts :
  (snd (demo_converge (demo_observed_image demo_digest)), bool_decide (is_Some (terminal_of demo_operation demo_published_image)),
   catalog_images demo_published_image !! demo_image, img_verification <$> images demo_published_image !! demo_image)
  = (None, true, Some (MkCatalogImage 1 demo_project "ACTIVE" 1), Some "VERIFIED"%string).
Proof. vm_compute. reflexivity. Qed.

Lemma quad_inj {A B C D} (a a' : A) (b b' : B) (c c' : C) (d d' : D) :
  (a, b, c, d) = (a', b', c', d') -> a = a' /\ b = b' /\ c = c' /\ d = d'.
Proof. by intros [= -> -> -> ->]. Qed.

Lemma converge_is_idempotent_witness :
  ConvergeImageIngestionCommand marshal demo_bigint 80000 demo_ingestion_command demo_verification demo_published_image
  = (demo_published_image, None).
Proof.
  destruct (quad_inj _ _ _ _ _ _ _ _ demo_published_facts) as (H1 & H2 & _).
  apply (converge_is_idempotent marshal demo_bigint 70002 80000 demo_ingestion_command demo_verification demo_operation
    (demo_observed_image demo_digest)).
  - unfold demo_published_image. destruct (demo_converge (demo_observed_image demo_digest)) as [d' e].
    cbn [snd fst] in *. rewrite H1. exact eq_refl.
  - vm_compute. reflexivity.
  - apply bool_decide_eq_true in H2. exact H2.
Defined.

Lemma control_elsewhere jsonb_text to_bigint d c : image_step jsonb_text to_bigint d (d <| control := c |>).
Proof. apply step_elsewhere. by destruct d. Qed.

#[local] Opaque demo_found.
Lemma demo_published_reachable : image_reachable marshal demo_bigint demo_published_image.
Proof.
  unfold demo_published_image. eapply image_next; [|apply step_converge].
  apply (image_next _ _ demo_ingesting); [|apply control_elsewhere].
  eapply image_next; [|apply step_ingest]. eapply image_next; [|apply step_create].
  by apply image_start.
Qed.

Lemma published_content_is_declared_witness :
  (exists k e, catalog_revisions demo_published_image !! (demo_image, 1) = Some k
     /\ image_revisions demo_published_image !! (demo_image, 1) = Some e
     /\ crv_state k = "VERIFIED"%string /\ crv_observed k = declared_digest e /\ crv_owner k = de_ProjectID (rev_desired e))
  /\ exists c e, images demo_published_image !! demo_image = Some c
     /\ image_revisions demo_published_image !! (demo_image, img_revision c) = Some e
     /\ img_digest c = Some (declared_digest e).
Proof.
  destruct (published_content_is_declared _ _ _ demo_published_reachable) as [Hcat Himg].
  destruct (quad_inj _ _ _ _ _ _ _ _ demo_published_facts) as (_ & _ & Hk & Hv). split.
  - exact (Hcat demo_image _ Hk).
  - destruct (images demo_published_image !! demo_image) as [c|] eqn:Hc; [|discriminate].
    injection Hv as Hv. destruct (Himg demo_image c Hc Hv) as (e & He & Hd). exists c, e.
    split; [exact eq_refl|]. split; [exact He|exact Hd].
Defined.
