(* ===== verification/Wire.v ===== *)
(** * transport/wire/frame.go: the wire form of the Agent protocol

    The messages of api/agentprotocol/v1 and their conversions, the check of the
    Gateway's session decision, and length-prefixed frames.  The protobuf codec
    is a parameter; what is relied on is that it reads back what it wrote. *)

From S2P Require Import Prelude GoStd GoJson Envelope Manager.
Local Open Scope Z_scope.
Local Open Scope go_scope.

(** ** Messages: api/agentprotocol/v1 *)

Record SessionHello := MkHello {
  he_HostIdentity : string; he_SessionGeneration : Z; he_ProtocolVersion : string; he_Capabilities : list string;
  he_SessionAttemptId : string; he_ConnectionInstanceId : string; he_AgentArtifactDigest : string;
  he_CredentialBindingRevision : Z;
}.
Record SessionAccepted := MkAccepted { ac_HostIdentity : string; ac_SessionGeneration : Z; ac_SessionAttemptId : string }.
Record SessionRejected := MkRejected { rj_Code : string; rj_RetryAfterMillis : Z; rj_Retryable : bool }.
Record WireEnvelope := MkWireEnvelope {
  we_HostIdentity : string; we_SessionGeneration : Z; we_LogicalStream : string; we_MessageId : string;
  we_SchemaVersion : string; we_SequenceScope : string; we_Sequence : Z; we_ResourceGeneration : Z;
  we_PayloadDigest : string; we_CorrelationKey : string; we_Payload : bytes;
}.
Record MessageReceipt := MkMessageReceipt {
  mr_HostIdentity : string; mr_AcceptedSessionGeneration : Z; mr_LogicalStream : string; mr_MessageId : string;
  mr_SequenceScope : string; mr_Sequence : Z; mr_PayloadDigest : string; mr_Disposition : string;
}.
(** A Frame is its [oneof]; [None] is one with no body. *)
Inductive frame_body :=
| Frame_Hello (m : SessionHello)
| Frame_Envelope (m : WireEnvelope)
| Frame_Accepted (m : SessionAccepted)
| Frame_Rejected (m : SessionRejected)
| Frame_Receipt (m : MessageReceipt).
Abbreviation Frame := (option frame_body).

Definition GetHello (f : Frame) : option SessionHello := match f with Some (Frame_Hello m) => Some m | _ => None end.
Definition GetEnvelope (f : Frame) : option WireEnvelope := match f with Some (Frame_Envelope m) => Some m | _ => None end.
Definition GetAccepted (f : Frame) : option SessionAccepted := match f with Some (Frame_Accepted m) => Some m | _ => None end.
Definition GetRejected (f : Frame) : option SessionRejected := match f with Some (Frame_Rejected m) => Some m | _ => None end.
Definition GetReceipt (f : Frame) : option MessageReceipt := match f with Some (Frame_Receipt m) => Some m | _ => None end.

(** ** Conversions *)

Definition EnvelopeToProto (e : Envelope) : WireEnvelope :=
  MkWireEnvelope (HostIdentity e) (SessionGeneration e) (Stream e) (MessageID e) (SchemaVersion e) (SequenceScope e)
    (Sequence e) (ResourceGeneration e) (PayloadDigest e) (CorrelationKey e) (Payload e).
(** [None] is a nil message. *)
Definition EnvelopeFromProto (m : option WireEnvelope) : res Envelope :=
  match m with
  | None => Err (errors_New "wire envelope is required")
  | Some m => Ok (MkEnvelope (we_HostIdentity m) (we_SessionGeneration m) (we_LogicalStream m) (we_MessageId m)
                    (we_SchemaVersion m) (we_SequenceScope m) (we_Sequence m) (we_ResourceGeneration m)
                    (we_PayloadDigest m) (we_CorrelationKey m) (we_Payload m))
  end.
Definition ReceiptToProto (r : Receipt) : MessageReceipt :=
  MkMessageReceipt (rcpt_HostIdentity r) (rcpt_AcceptedSessionGeneration r) (rcpt_Stream r) (rcpt_MessageID r)
    (rcpt_SequenceScope r) (rcpt_Sequence r) (rcpt_PayloadDigest r) (rcpt_Disposition r).
Definition ReceiptFromProto (m : option MessageReceipt) : res Receipt :=
  match m with
  | None => Err (errors_New "wire message receipt is required")
  | Some m => Ok (MkReceipt (mr_HostIdentity m) (mr_AcceptedSessionGeneration m) (mr_LogicalStream m) (mr_MessageId m)
                    (mr_SequenceScope m) (mr_Sequence m) (mr_PayloadDigest m) (mr_Disposition m))
  end.
Definition HelloToProto (h : Handshake) : SessionHello :=
  MkHello (hs_HostIdentity h) (hs_SessionGeneration h) (hs_ProtocolVersion h) (hs_Capabilities h) (hs_SessionAttemptID h)
    (hs_ConnectionInstanceID h) (hs_AgentArtifactDigest h) (hs_CredentialBindingRevision h).

Lemma envelope_round_trip e : EnvelopeFromProto (Some (EnvelopeToProto e)) = Ok e.
Proof. by destruct e. Qed.
Lemma receipt_round_trip r : ReceiptFromProto (Some (ReceiptToProto r)) = Ok r.
Proof. by destruct r. Qed.

(** ** The session decision *)

(** session/admission.go: the typed rejection *)
Record AdmissionRejectedError := MkAdmissionRejected { ar_Code : string; ar_RetryAfter : Z; ar_Retryable : bool }.
Inductive decision_error :=
| DecisionRejected (r : AdmissionRejectedError)
| DecisionInvalid (e : goerr).

(** [time.Duration(millis) * time.Millisecond] *)
Definition milliseconds_to_duration (millis : Z) : Z := i64 (i64 millis * 1000000).

(** [ValidateSessionDecision]; [None] is a decision the session may use. *)
Definition ValidateSessionDecision (frame : option Frame) (h : Handshake) : option decision_error :=
  match frame with
  | None => Some (DecisionInvalid (errors_New "Gateway session decision is required"))
  | Some f =>
      match GetRejected f with
      | Some r => Some (DecisionRejected (MkAdmissionRejected (rj_Code r)
                          (milliseconds_to_duration (rj_RetryAfterMillis r)) (rj_Retryable r)))
      | None =>
          match GetAccepted f with
          | None => Some (DecisionInvalid (errors_New "Gateway first response must be a session decision"))
          | Some a =>
              if (ac_HostIdentity a !=s hs_HostIdentity h) || (ac_SessionGeneration a !=z hs_SessionGeneration h)
              then Some (DecisionInvalid (errors_New "Gateway session grant identity/generation mismatch"))
              else if (hs_SessionAttemptID h !=s "") && (ac_SessionAttemptId a !=s hs_SessionAttemptID h)
              then Some (DecisionInvalid (errors_New "Gateway session grant Attempt mismatch"))
              else None
          end
      end
  end.

(** A decision is used only when it grants this very session. *)
Lemma ValidateSessionDecision_iff frame h :
  ValidateSessionDecision frame h = None <->
  exists a, frame = Some (Some (Frame_Accepted a)) /\ ac_HostIdentity a = hs_HostIdentity h
    /\ ac_SessionGeneration a = hs_SessionGeneration h
    /\ (hs_SessionAttemptID h = "" \/ ac_SessionAttemptId a = hs_SessionAttemptID h)%string.
Proof.
  split.
  - destruct frame as [[[m|m|a|m|m]|]|]; simpl; try discriminate.
    destruct (_ || _) eqn:E1; [discriminate|]. destruct (_ && _) eqn:E2; [discriminate|]. intros _.
    bools. exists a. split_and!; try done.
    apply andb_false_iff in E2 as [E2|E2]; bools; auto.
  - intros (a & -> & H1 & H2 & H3). simpl. rewrite H1, H2, String.eqb_refl, Z.eqb_refl. simpl.
    destruct H3 as [->| ->]; [done|]. by rewrite String.eqb_refl, andb_false_r.
Qed.

(** ** Frames *)

(** [binary.BigEndian.PutUint32], [Uint32] *)
Definition PutUint32 (z : Z) : bytes :=
  of_bytes [z / 16777216 mod 256; z / 65536 mod 256; z / 256 mod 256; z mod 256].
Definition Uint32 (s : bytes) : Z := fold_left (fun acc b => acc * 256 + b) (to_bytes s) 0.

(** [io.ReadFull] of [n] bytes of what the reader has until its end: the bytes
    and what remains *)
Definition io_EOF : goerr := errors_New "EOF".
Definition io_ErrUnexpectedEOF : goerr := errors_New "unexpected EOF".
Fixpoint split_bytes (n : nat) (s : bytes) : option (bytes * bytes) :=
  match n, s with
  | O, _ => Some (""%string, s)
  | S n, String c s => '(a, b) ← split_bytes n s; Some (String c a, b)
  | S _, EmptyString => None
  end.
Definition ReadFull (n : Z) (s : bytes) : res (bytes * bytes) :=
  match split_bytes (Z.to_nat n) s with
  | Some r => Ok r
  | None => Err (if s ==s "" then io_EOF else io_ErrUnexpectedEOF)
  end.

(** [proto.Marshal] and [proto.Unmarshal] *)
Class FrameCodec (Marshal : Frame -> res bytes) (Unmarshal : bytes -> res Frame) : Prop := {
  unmarshal_marshal f b : Marshal f = Ok b -> Unmarshal b = Ok f;
}.

Section Frames.
Context (Marshal : Frame -> res bytes) (Unmarshal : bytes -> res Frame).

(** A write: all of it, or a prefix and an error *)
Definition write (outcome : option (nat * goerr)) (s : bytes) : bytes * res unit :=
  match outcome with
  | None => (s, Ok tt)
  | Some (n, e) => (substring 0 n s, Err e)
  end.

(** [WriteFrame]: what reached the writer, and the result *)
Definition WriteFrame (header_write body_write : option (nat * goerr)) (frame : option Frame) (maxBytes : Z) :
    bytes * res unit :=
  match frame with
  | None => (""%string, Err (errors_New "wire frame and positive maximum are required"))
  | Some f =>
      if maxBytes <? 1 then (""%string, Err (errors_New "wire frame and positive maximum are required")) else
      match Marshal f with
      | Err e => (""%string, Err (Wrapf "marshal wire frame: %w" [] e))
      | Ok encoded =>
          if maxBytes <? len encoded
          then (""%string, Err (Errorf "wire frame is %d bytes, limit is %d" [FormatInt (len encoded); FormatInt maxBytes]))
          else
            match write header_write (PutUint32 (len encoded mod 4294967296)) with
            | (h, Err e) => (h, Err (Wrapf "write wire frame length: %w" [] e))
            | (h, Ok _) =>
                match write body_write encoded with
                | (b, Err e) => ((h ++ b)%string, Err (Wrapf "write wire frame body: %w" [] e))
                | (b, Ok _) => ((h ++ b)%string, Ok tt)
                end
            end
      end
  end.

(** [ReadFrame]: the frame and what the reader still holds *)
Definition ReadFrame (s : bytes) (maxBytes : Z) : res (Frame * bytes) :=
  fail_if (maxBytes <? 1) (errors_New "positive wire frame maximum is required");;
  '(header, s) ← ReadFull 4 s;
  let length := Uint32 header in
  fail_if ((length =? 0) || (maxBytes <? length))
    (Errorf "wire frame length %d exceeds limit %d" [FormatUint length; FormatInt maxBytes]);;
  match ReadFull length s with
  | Err e => Err (Wrapf "read wire frame body: %w" [] e)
  | Ok (body, s) =>
      match Unmarshal body with
      | Err e => Err (Wrapf "unmarshal wire frame: %w" [] e)
      | Ok f => Ok (f, s)
      end
  end.

(** The frames one side writes, and the frames the other side reads *)
Fixpoint write_frames (frames : list Frame) (maxBytes : Z) : bytes * res unit :=
  match frames with
  | [] => (""%string, Ok tt)
  | f :: frames =>
      match WriteFrame None None (Some f) maxBytes with
      | (s, Ok _) => let '(t, r) := write_frames frames maxBytes in ((s ++ t)%string, r)
      | (s, Err e) => (s, Err e)
      end
  end.
Fixpoint read_frames (n : nat) (s : bytes) (maxBytes : Z) : res (list Frame * bytes) :=
  match n with
  | O => Ok ([], s)
  | S n =>
      '(f, s) ← ReadFrame s maxBytes;
      '(fs, s) ← read_frames n s maxBytes;
      Ok (f :: fs, s)
  end.

(** *** Lemmas *)

Lemma Uint32_PutUint32 z : 0 <= z < 4294967296 -> Uint32 (PutUint32 z) = z.
Proof.
  intros Hz. unfold Uint32, PutUint32.
  assert (to_bytes (of_bytes [z / 16777216 mod 256; z / 65536 mod 256; z / 256 mod 256; z mod 256])
          = [z / 16777216 mod 256; z / 65536 mod 256; z / 256 mod 256; z mod 256]) as ->.
  { unfold to_bytes, of_bytes. cbn. rewrite !byte_of_ascii_of by (apply Z.mod_pos_bound; lia). done. }
  cbn. Z.to_euclidean_division_equations; lia.
Qed.

Lemma string_app_assoc (a b c : string) : ((a ++ (b ++ c)) = ((a ++ b) ++ c))%string.
Proof. induction a as [|x a IH]; [done|]. exact (f_equal (String x) IH). Qed.

Lemma split_bytes_app a b : split_bytes (String.length a) (a ++ b) = Some (a, b).
Proof. induction a as [|c a IH]; simpl; [done|]. by rewrite IH. Qed.

Lemma ReadFull_app a b : ReadFull (len a) (a ++ b) = Ok (a, b).
Proof. unfold ReadFull, len. by rewrite Nat2Z.id, split_bytes_app. Qed.

Lemma PutUint32_length z : len (PutUint32 z) = 4.
Proof. done. Qed.

Context `{!FrameCodec Marshal Unmarshal}.

Lemma read_after_write f b maxBytes limit rest :
  Marshal f = Ok b -> 0 < len b <= maxBytes -> len b < 4294967296 -> len b <= limit ->
  exists s, WriteFrame None None (Some f) maxBytes = (s, Ok tt) /\ ReadFrame (s ++ rest) limit = Ok (f, rest).
Proof.
  intros Hb Hlen H32 Hlim. exists (PutUint32 (len b) ++ b)%string. unfold WriteFrame, ReadFrame.
  rewrite Hb. rewrite (proj2 (Z.ltb_ge maxBytes 1)) by lia. rewrite (proj2 (Z.ltb_ge maxBytes (len b))) by lia.
  rewrite Z.mod_small by lia. split; [done|].
  rewrite fail_if_pass by (apply Z.ltb_ge; lia). rewrite <- !string_app_assoc.
  rewrite <- (PutUint32_length (len b)) at 1. rewrite ReadFull_app. cbn [mbind res_bind].
  rewrite Uint32_PutUint32 by lia.
  rewrite fail_if_pass by (apply orb_false_intro; [apply Z.eqb_neq|apply Z.ltb_ge]; lia).
  rewrite ReadFull_app. by rewrite (unmarshal_marshal f b Hb).
Qed.

(** C27: Frames survive the stream: whatever frames one side manages to write one
    after the other, each of which encodes to at least one byte and fits the
    limits of both sides, the other side reads exactly these frames, in order,
    and leaves what follows them untouched. *)
Theorem framed_stream_round_trip frames maxBytes limit rest :
  Forall (fun f => exists b, Marshal f = Ok b /\ 0 < len b <= maxBytes /\ len b < 4294967296 /\ len b <= limit) frames ->
  exists s, write_frames frames maxBytes = (s, Ok tt)
    /\ read_frames (length frames) (s ++ rest) limit = Ok (frames, rest).
Proof.
  induction 1 as [|f frames (b & Hb & Hlen & H32 & Hlim) _ IH]; [by exists ""%string|].
  destruct IH as (t & Ht & Hread). cbn [write_frames read_frames length].
  destruct (read_after_write f b maxBytes limit (t ++ rest) Hb Hlen H32 Hlim) as (s & Hs & Hf).
  rewrite Hs, Ht. exists (s ++ t)%string. split; [done|].
  rewrite <- string_app_assoc, Hf. cbn [mbind res_bind]. by rewrite Hread.
Qed.

(** A frame that encodes to nothing is written without an error, and refused
    by the reader. *)
Lemma empty_frame_unreadable f maxBytes limit rest :
  Marshal f = Ok ""%string -> 1 <= maxBytes -> 1 <= limit ->
  exists s, WriteFrame None None (Some f) maxBytes = (s, Ok tt) /\ is_Ok (ReadFrame (s ++ rest) limit) = false.
Proof.
  intros Hb Hm Hl. exists (PutUint32 0). unfold WriteFrame, ReadFrame.
  rewrite Hb. rewrite (proj2 (Z.ltb_ge maxBytes 1)) by lia. rewrite (proj2 (Z.ltb_ge maxBytes (len ""))) by (change (len "") with 0; lia).
  split; [done|]. rewrite fail_if_pass by (apply Z.ltb_ge; lia).
  rewrite <- (PutUint32_length 0) at 1. by rewrite ReadFull_app.
Qed.
End Frames.

(** ** A codec to run the frames on *)

(** It knows rejections that are not retryable only. *)
Definition demo_marshal (f : Frame) : res bytes :=
  match f with
  | Some (Frame_Rejected r) =>
      if (rj_RetryAfterMillis r =? 0) && negb (rj_Retryable r) then Ok (String "R" (rj_Code r))
      else Err (errors_New "unsupported")
  | _ => Err (errors_New "unsupported")
  end.
Definition demo_unmarshal (b : bytes) : res Frame :=
  match b with
  | String _ code => Ok (Some (Frame_Rejected (MkRejected code 0 false)))
  | EmptyString => Err (errors_New "unsupported")
  end.
#[local] Instance demo_codec : FrameCodec demo_marshal demo_unmarshal.
Proof.
  split. intros [[m|m|m|[code ms retryable]|m]|] b H; simpl in H; try discriminate.
  destruct ((ms =? 0) && negb retryable) eqn:E; [|discriminate]. injection H as <-. bools. by subst.
Qed.

Definition demo_frames : list Frame :=
  [Some (Frame_Rejected (MkRejected "HOST_NOT_APPROVED" 0 false));
   Some (Frame_Rejected (MkRejected "INVALID_HANDSHAKE" 0 false))]%string.

Lemma framed_stream_round_trip_witness : exists s, write_frames demo_marshal demo_frames 64 = (s, Ok tt)
  /\ read_frames demo_unmarshal (length demo_frames) (s ++ "tail")%string 64 = Ok (demo_frames, "tail"%string).
Proof.
  apply (framed_stream_round_trip demo_marshal demo_unmarshal demo_frames 64 64 "tail").
  repeat constructor; eexists; (split; [reflexivity|]); unfold len; cbn; lia.
Defined.
