(* ===== verification/Limiter.v ===== *)
(** * gateway/admission.go and gateway/preauth.go: the two concurrency limiters

    [AdmissionLimiter] and [HandshakeLimiter] are the same machine: a channel of
    permits, and counters that are kept by atomic operations.  Goroutines are
    interleaved at these operations: a state has the phase of every call, and a
    step is one atomic operation of one of them. *)

From S2P Require Import Prelude GoStd.
Local Open Scope Z_scope.
Local Open Scope go_scope.

Definition ErrAdmissionLimited : goerr := errors_New "Agent Gateway admission concurrency is exhausted".
Definition ErrPreAuthHandshakeLimited : goerr := errors_New "pre-auth TLS handshake concurrency is exhausted".

Record limiter := MkLimiter { capacity : Z; permits : Z; active : Z; peak : Z; rejected : Z }.

#[export] Instance limiter_eta : Eta limiter := fun l =>
  MkLimiter (capacity l) (permits l) (active l) (peak l) (rejected l).

(** [NewAdmissionLimiter], [NewHandshakeLimiter] *)
Definition NewLimiter (invalid : goerr) (maxConcurrent : Z) : res limiter :=
  fail_if (maxConcurrent <? 1) invalid;;
  Ok (MkLimiter maxConcurrent 0 0 0 0).
Definition NewAdmissionLimiter : Z -> res limiter :=
  NewLimiter (errors_New "Agent Gateway admission concurrency must be positive").
Definition NewHandshakeLimiter : Z -> res limiter :=
  NewLimiter (errors_New "pre-auth TLS handshake concurrency must be positive").

(** Where a call of [TryAcquire], and the function it returned, have got to *)
Inductive phase :=
| Permitted                         (* the permit is in the channel *)
| Counted (n : Z)                   (* active.Add(1) returned n *)
| Compared (n seen : Z)             (* peak.Load() returned seen, below n *)
| Holding                           (* the release function was returned *)
| Releasing                         (* released went from false to true *)
| Returned                          (* the permit was taken back *)
| Released                          (* active.Add(-1) ran *)
| Refused                           (* the channel was full *)
| Rejected.                         (* rejected.Add(1) ran, an error was returned *)

#[export] Instance phase_eq_dec : EqDecision phase.
Proof. solve_decision. Defined.

(** Calls by a number of their own *)
Abbreviation calls := (gmap nat phase).
Definition state : Type := limiter * calls.

(** One atomic operation *)
Inductive step : state -> state -> Prop :=
| acquire l cs i : cs !! i = None -> permits l < capacity l ->
    step (l, cs) (l <| permits ::= Z.succ |>, <[i := Permitted]> cs)
| refuse l cs i : cs !! i = None -> capacity l <= permits l ->
    step (l, cs) (l, <[i := Refused]> cs)
| reject l cs i : cs !! i = Some Refused ->
    step (l, cs) (l <| rejected ::= fun n => i64 (n + 1) |>, <[i := Rejected]> cs)
| count l cs i : cs !! i = Some Permitted ->
    step (l, cs) (l <| active := i64 (active l + 1) |>, <[i := Counted (i64 (active l + 1))]> cs)
| load_low l cs i n : cs !! i = Some (Counted n) -> n <= peak l ->
    step (l, cs) (l, <[i := Holding]> cs)
| load_high l cs i n : cs !! i = Some (Counted n) -> peak l < n ->
    step (l, cs) (l, <[i := Compared n (peak l)]> cs)
| swap l cs i n seen : cs !! i = Some (Compared n seen) -> peak l = seen ->
    step (l, cs) (l <| peak := n |>, <[i := Holding]> cs)
| swap_lost l cs i n seen : cs !! i = Some (Compared n seen) -> peak l <> seen ->
    step (l, cs) (l, <[i := Counted n]> cs)
| release l cs i : cs !! i = Some Holding ->
    step (l, cs) (l, <[i := Releasing]> cs)
| release_again l cs i p : cs !! i = Some p -> p = Releasing \/ p = Returned \/ p = Released ->
    step (l, cs) (l, cs)
| take_back l cs i : cs !! i = Some Releasing ->
    step (l, cs) (l <| permits ::= Z.pred |>, <[i := Returned]> cs)
| uncount l cs i : cs !! i = Some Returned ->
    step (l, cs) (l <| active := i64 (active l - 1) |>, <[i := Released]> cs).

Definition start (l : limiter) : state := (l, ∅).
Inductive reachable (maxConcurrent : Z) : state -> Prop :=
| reach_start l invalid : NewLimiter invalid maxConcurrent = Ok l -> reachable maxConcurrent (start l)
| reach_step s s' : reachable maxConcurrent s -> step s s' -> reachable maxConcurrent s'.

(** ** Counting calls *)

Definition holds_permit (p : phase) : bool :=
  match p with Permitted | Counted _ | Compared _ _ | Holding | Releasing => true | _ => false end.
Definition is_counted (p : phase) : bool :=
  match p with Counted _ | Compared _ _ | Holding | Releasing | Returned => true | _ => false end.
(** The calls that got a permit and did not give it back, those counted active,
    and those between [TryAcquire] and the release *)
Definition is_holding (p : phase) : bool := bool_decide (p = Holding).

Definition number (test : phase -> bool) (cs : calls) : Z :=
  Z.of_nat (size (filter (fun kp => test (snd kp) = true) cs)).
Definition bit (b : bool) : Z := if b then 1 else 0.

Lemma number_empty test : number test ∅ = 0.
Proof. unfold number. by rewrite map_filter_empty, map_size_empty. Qed.

Lemma number_fresh test cs i p : cs !! i = None -> number test (<[i := p]> cs) = number test cs + bit (test p).
Proof.
  intros Hi. unfold number. destruct (test p) eqn:E.
  - rewrite map_filter_insert_True by done. rewrite map_size_insert_None; [simpl; lia|].
    apply map_lookup_filter_None. by left.
  - rewrite map_filter_insert_False by (simpl; congruence). rewrite delete_id by done. simpl. lia.
Qed.

Lemma number_change test cs i p q :
  cs !! i = Some p -> number test (<[i := q]> cs) = number test cs - bit (test p) + bit (test q).
Proof.
  intros Hi. rewrite <- (insert_delete_id cs i p Hi) at 2.
  rewrite <- (insert_delete_eq cs i q). rewrite !number_fresh by apply lookup_delete_eq. lia.
Qed.

Lemma number_le test test' cs : (forall p, test p = true -> test' p = true) -> number test cs <= number test' cs.
Proof.
  intros H. unfold number. apply inj_le, map_subseteq_size. 
  apply map_filter_subseteq_ext. intros i p _ Hp. by apply H.
Qed.

Lemma number_nonneg test cs : 0 <= number test cs.
Proof. unfold number. lia. Qed.

(** ** The invariant *)

Lemma i64_add a b : i64 (i64 a + b) = i64 (a + b).
Proof. unfold i64, two63, two64. f_equal. Z.to_euclidean_division_equations; lia. Qed.

Lemma i64_sub a b : i64 (i64 a - b) = i64 (a - b).
Proof. unfold Z.sub. apply i64_add. Qed.

Definition is_rejected (p : phase) : bool := bool_decide (p = Rejected).
Definition compared_ok (p : phase) : Prop := match p with Compared n seen => seen < n | _ => True end.

Record limited (maxConcurrent : Z) (s : state) : Prop := MkLimited {
  lim_capacity : capacity (fst s) = maxConcurrent;
  lim_positive : 1 <= maxConcurrent;
  lim_permits : permits (fst s) = number holds_permit (snd s);
  lim_bound : permits (fst s) <= maxConcurrent;
  lim_active : active (fst s) = i64 (number is_counted (snd s));
  lim_rejected : rejected (fst s) = i64 (number is_rejected (snd s));
  lim_compared i p : snd s !! i = Some p -> compared_ok p;
}.

Lemma limited_start M l invalid : NewLimiter invalid M = Ok l -> limited M (start l).
Proof.
  unfold NewLimiter. intros H. run_guards. subst. unfold start. split; simpl; rewrite ?number_empty; try done; try lia.
Qed.

Lemma compared_insert (cs : calls) i q : compared_ok q -> (forall j p, cs !! j = Some p -> compared_ok p) ->
  forall j p, <[i := q]> cs !! j = Some p -> compared_ok p.
Proof. intros Hq H j p. rewrite lookup_insert_Some. intros [[_ <-]|[_ Hj]]; [done | by eapply H]. Qed.

Lemma limited_step M s s' : limited M s -> step s s' -> limited M s'.
Proof.
  intros [H1 H2 H3 H4 H5 H6 H7] S. destruct S; simpl in *.
  all: try (match goal with H : ?cs !! ?i = None |- context [<[?i := ?q]> ?cs] =>
      pose proof (number_fresh holds_permit cs i q H); pose proof (number_fresh is_counted cs i q H);
      pose proof (number_fresh is_rejected cs i q H) end).
  all: try (match goal with H : ?cs !! ?i = Some ?p |- context [<[?i := ?q]> ?cs] =>
      pose proof (number_change holds_permit cs i p q H); pose proof (number_change is_counted cs i p q H);
      pose proof (number_change is_rejected cs i p q H) end).
  all: simpl in *.
  all: split; simpl; try assumption; try (apply compared_insert; [simpl; try lia; done | assumption]); try lia.
  all: rewrite ?H5, ?H6 in *; rewrite ?i64_add, ?i64_sub in *; f_equal; lia.
Qed.

Lemma reachable_limited M s : reachable M s -> limited M s.
Proof. induction 1; [by eapply limited_start | by eapply limited_step]. Qed.

(** The recorded peak never goes down. *)
Lemma peak_monotone M s s' : reachable M s -> step s s' -> peak (fst s) <= peak (fst s').
Proof.
  intros R S. destruct (reachable_limited M s R) as [_ _ _ _ _ _ H7]. destruct S; simpl in *; try lia.
  match goal with H : _ !! _ = Some (Compared _ _) |- _ => apply H7 in H; simpl in H; lia end.
Qed.

(** ** The claims *)

(** C28: A limiter bounds what it admits, however its goroutines interleave: at
    any moment the permits taken are exactly those of the calls that were
    admitted and did not give theirs back, never more than the limit, so no
    more than the limit hold an admission; a call is refused only when all
    permits are taken; the peak never goes down; and once every admitted call
    was released, all permits are back and the active count is zero. *)
Theorem limiter_bounds_admissions M s : reachable M s ->
  number is_holding (snd s) <= M /\ permits (fst s) = number holds_permit (snd s) /\ permits (fst s) <= M
  /\ (forall s' i, step s s' -> snd s !! i = None -> snd s' !! i = Some Refused -> number holds_permit (snd s) = M)
  /\ (forall s', step s s' -> peak (fst s) <= peak (fst s'))
  /\ ((forall i p, snd s !! i = Some p -> p = Released \/ p = Rejected) -> permits (fst s) = 0 /\ active (fst s) = 0).
Proof.
  intros R. pose proof (reachable_limited M s R) as [H1 H2 H3 H4 H5 H6 H7].
  split_and!; try done.
  - etransitivity; [apply (number_le _ holds_permit)|lia]. intros p Hp. apply bool_decide_eq_true in Hp. by subst.
  - intros s' i S Hi Hr. destruct S; simpl in *; destruct (decide (i0 = i)) as [->|Hne];
      rewrite ?lookup_insert_eq, ?(lookup_insert_ne _ i0 i) in Hr by done; try congruence; lia.
  - intros s' S. by eapply peak_monotone.
  - intros Hdone.
    assert (forall test, test Released = false -> test Rejected = false -> number test (snd s) = 0) as Hzero.
    { intros test T1 T2. unfold number. replace (filter _ (snd s)) with (∅ : calls); [by rewrite map_size_empty|].
      symmetry. apply map_empty. intros i. apply map_lookup_filter_None. right. intros p Hp Ht. simpl in Ht.
      destruct (Hdone i p Hp) as [-> | ->]; congruence. }
    rewrite H3, H5, !Hzero by done. done.
Qed.

(** A run of [k] calls that are all holding *)
Definition held (k : nat) : calls := list_to_map ((fun i => (i, Holding)) <$> seq 0 k).

Lemma held_fresh k : held k !! k = None.
Proof.
  apply not_elem_of_list_to_map_1. rewrite <- list_fmap_compose. intros Hin.
  apply list_elem_of_fmap in Hin as (j & -> & Hj). apply elem_of_seq in Hj. simpl in Hj. lia.
Qed.

Lemma held_S k : <[k := Holding]> (held k) = held (S k).
Proof.
  unfold held. rewrite seq_S, fmap_app, list_to_map_app. simpl.
  apply map_eq. intros j. destruct (decide (j = k)) as [->|Hne].
  - rewrite lookup_insert_eq. symmetry. rewrite lookup_union_r; [by rewrite lookup_insert_eq | apply held_fresh].
  - rewrite lookup_insert_ne by done. symmetry. apply lookup_union_l. by rewrite lookup_insert_ne.
Qed.

Lemma reach_to M s s1 s2 : reachable M s -> step s s1 -> s1 = s2 -> reachable M s2.
Proof. intros R S <-. by eapply reach_step. Qed.

(** One more step of the run [R], to a state written out *)
Ltac goes R l cs rule :=
  match type of R with reachable ?M _ =>
    assert (reachable M (l, cs)) as R'; [eapply reach_to; [exact R | eapply rule | ]; simpl; rewrite ?insert_insert_eq | clear R; rename R' into R]
  end; [try (apply lookup_insert_eq); try done; try lia .. |].

(** A call that is admitted while nobody else runs, and raises the peak *)
Lemma admit_one M taken n seen cs i :
  reachable M (MkLimiter M taken n seen 0, cs) -> cs !! i = None -> taken < M -> seen < n + 1 -> 0 <= n < MaxInt64 ->
  reachable M (MkLimiter M (taken + 1) (n + 1) (n + 1) 0, <[i := Holding]> cs).
Proof.
  intros R Hi Ht Hn Hmax.
  assert (i64 (n + 1) = n + 1) as Hw by (apply i64_id; unfold is_i64, two63, MaxInt64 in *; lia).
  goes R (MkLimiter M (taken + 1) n seen 0) (<[i := Permitted]> cs) (acquire (MkLimiter M taken n seen 0) cs i).
  goes R (MkLimiter M (taken + 1) (n + 1) seen 0) (<[i := Counted (n + 1)]> cs)
    (count (MkLimiter M (taken + 1) n seen 0) (<[i := Permitted]> cs) i).
  { by rewrite Hw. }
  goes R (MkLimiter M (taken + 1) (n + 1) seen 0) (<[i := Compared (n + 1) seen]> cs)
    (load_high (MkLimiter M (taken + 1) (n + 1) seen 0) (<[i := Counted (n + 1)]> cs) i (n + 1)).
  goes R (MkLimiter M (taken + 1) (n + 1) (n + 1) 0) (<[i := Holding]> cs)
    (swap (MkLimiter M (taken + 1) (n + 1) seen 0) (<[i := Compared (n + 1) seen]> cs) i (n + 1) seen).
  exact R.
Qed.

Lemma fill M k : 1 <= M -> M <= MaxInt64 -> Z.of_nat k <= M ->
  reachable M (MkLimiter M (Z.of_nat k) (Z.of_nat k) (Z.of_nat k) 0, held k).
Proof.
  intros HM Hmax. induction k as [|k IH]; intros Hk.
  - apply (reach_start M (MkLimiter M 0 0 0 0) (errors_New "")). unfold NewLimiter.
    rewrite fail_if_pass; [done|]. apply Z.ltb_ge. lia.
  - rewrite <- held_S. replace (Z.of_nat (S k)) with (Z.of_nat k + 1) by lia.
    apply (admit_one M _ _ (Z.of_nat k)); [apply IH; lia | apply held_fresh | lia..].
Qed.

(** The peak a limiter reports may exceed its limit, although no more than
    the limit ever hold an admission: for every limit there is a run in which
    the peak is one more than it.  The release gives the permit back before it
    lowers the active count, so a call admitted in between counts the one that
    is leaving. *)
Theorem peak_may_exceed_limit M : 1 <= M -> M < MaxInt64 ->
  exists l cs, reachable M (l, cs) /\ peak l = M + 1 /\ number is_holding cs <= M.
Proof.
  intros HM Hmax. pose proof (fill M (Z.to_nat M) HM ltac:(lia) ltac:(lia)) as R.
  rewrite Z2Nat.id in R by lia. set (n := Z.to_nat M) in *.
  assert (held n !! 0%nat = Some Holding) as H0.
  { unfold held. apply elem_of_list_to_map_1.
    - rewrite <- list_fmap_compose. simpl. rewrite list_fmap_id. apply NoDup_seq.
    - apply list_elem_of_fmap. exists 0%nat. split; [done|]. apply elem_of_seq. lia. }
  goes R (MkLimiter M M M M 0) (<[0%nat := Releasing]> (held n)) (release (MkLimiter M M M M 0) (held n) 0%nat).
  goes R (MkLimiter M (M - 1) M M 0) (<[0%nat := Returned]> (held n))
    (take_back (MkLimiter M M M M 0) (<[0%nat := Releasing]> (held n)) 0%nat).
  apply (admit_one _ _ _ _ _ n) in R; [| | lia..].
  2: { rewrite lookup_insert_ne by lia. apply held_fresh. }
  eexists _, _. split; [exact R|]. split; [done|].
  pose proof (reachable_limited _ _ R) as [_ _ H3 H4 _ _ _]. simpl in *.
  etransitivity; [apply (number_le _ holds_permit)|lia].
  intros p Hp. apply bool_decide_eq_true in Hp. by subst.
Qed.

Lemma peak_may_exceed_limit_witness : exists l cs, reachable 2 (l, cs) /\ peak l = 3 /\ number is_holding cs <= 2.
Proof. apply (peak_may_exceed_limit 2); [lia | unfold MaxInt64; lia]. Defined.

Lemma limiter_bounds_admissions_witness :
  number is_holding (held 2) <= 2 /\ permits (MkLimiter 2 2 2 2 0) = number holds_permit (held 2).
Proof.
  destruct (limiter_bounds_admissions 2 (MkLimiter 2 2 2 2 0, held 2)) as (H1 & H2 & _).
  - apply (fill 2 2); unfold MaxInt64; lia.
  - split; [exact H1 | exact H2].
Defined.
