(* ===== verification/GatewayServer.v ===== *)
(** * agent/gateway: identity.go, grpc_server.go and message_receiver.go

    The Gateway's side of an Agent connection: who the peer is, whether its
    Hello becomes a session, and what each message on the session commits.  A
    connection runs among others: before each frame it receives, any change of
    the tables and of the registry may have happened. *)

From S2P Require Import Prelude GoStd GoJson Envelope Inventory Ledger Manager Wire ControlDb HostTrust.
From S2P Require Import SessionRegistry Receipts HostInventory Execution Verification Contract MessageReceiver.
From S2P Require Import Limiter ControlFrames CommandSteps HostSteps CommandDelivery ControlPlane Outbound Northbound ImageCatalog.
From S2P Require Import ImageProofs.
Local Open Scope Z_scope.
Local Open Scope go_scope.

(** ** identity.go *)

Record PeerIdentityEvidence := MkPeer {
  Identity : string; CredentialCertificateSHA256 : string; TransportPeerCertificateSHA256 : string;
  ViaTrustedProxy : bool;
}.

(** What the resolvers read of [x509.Certificate], [credentials.TLSInfo] and the
    context of a call; [None] is a missing peer, or one not authenticated by TLS. *)
Record Certificate := MkCertificate { CommonName : string; Raw : bytes }.
Record TLSInfo := MkTLSInfo { VerifiedChains : list (list Certificate); PeerCertificates : list Certificate }.
Record call_context := MkCall { call_peer : option (option TLSInfo); forwarded_client_cert : list string }.

Definition certificateSHA256 (c : Certificate) : string := sha256_hex (Raw c).

Definition authenticatedPeerCertificate (ctx : call_context) : res Certificate :=
  match call_peer ctx with
  | None => Err (errors_New "Agent transport peer is unavailable")
  | Some (Some (MkTLSInfo (_ :: _) (c :: _))) => Ok c
  | Some _ => Err (errors_New "verified Agent mTLS identity is required")
  end.

Definition DirectPeerIdentityResolver (ctx : call_context) : res PeerIdentityEvidence :=
  certificate ← authenticatedPeerCertificate ctx;
  fail_if (CommonName certificate ==s "") (errors_New "Agent certificate identity is empty");;
  Ok (MkPeer (CommonName certificate) (certificateSHA256 certificate) (certificateSHA256 certificate) false).

(** [json.Unmarshal] into a list of structs of one field *)
Definition element_fields : list (field string) := [string_field "hash" (fun s _ => s)].
Definition decode_elements (text : string) : res (list string) :=
  match unmarshal text with
  | Some JNull => Ok []
  | Some (JArr els) =>
      match mapM (fun j => decode_struct false element_fields j ""%string) els with
      | Some hashes => Ok hashes
      | None => Err (errors_New "cannot unmarshal JSON")
      end
  | _ => Err (errors_New "cannot unmarshal JSON")
  end.

Definition TrustedProxyPeerIdentityResolver (AllowedProxyCertificateSHA256 : gset string) (ctx : call_context) :
    res PeerIdentityEvidence :=
  certificate ← authenticatedPeerCertificate ctx;
  let proxyHash := certificateSHA256 certificate in
  fail_if (bool_decide (proxyHash ∉ AllowedProxyCertificateSHA256))
    (Errorf "transport peer certificate %s is not an allowed Agent L7 proxy" [proxyHash]);;
  match forwarded_client_cert ctx with
  | [value] =>
      match decode_elements value with
      | Err e => Err (Wrapf "decode trusted proxy XFCC JSON: %w" [] e)
      | Ok [hash] =>
          let downstreamHash := ToLower hash in
          match hex_DecodeString downstreamHash with
          | Some decoded =>
              fail_if (len decoded !=z 32) (errors_New "trusted proxy XFCC certificate hash is not SHA-256");;
              Ok (MkPeer ("xfcc-sha256:" ++ downstreamHash) downstreamHash proxyHash true)
          | None => Err (errors_New "trusted proxy XFCC certificate hash is not SHA-256")
          end
      | Ok elements =>
          Err (Errorf "trusted proxy XFCC element count = %d, want 1" [FormatInt (Z.of_nat (length elements))])
      end
  | values => Err (Errorf "trusted proxy XFCC value count = %d, want 1" [FormatInt (Z.of_nat (length values))])
  end.

(** ** PostgresSessionAuthorizer *)

(** [rejection]; a duration divided by [time.Millisecond] *)
Definition rejection (code : string) (retryable : bool) (retryAfter : Z) : SessionRejected :=
  MkRejected code (u64 (Z.max retryAfter 0 / 1000000)) retryable.

Record PostgresSessionAuthorizer := MkAuthorizer { has_DB : bool; has_Admission : bool; RetryAfter : Z }.

(** The evidence of a handshake; a Hello without capabilities has a nil list. *)
Definition handshake_evidence (hello : SessionHello) (peer : PeerIdentityEvidence) : json :=
  JObj [("capabilities", match he_Capabilities hello with [] => JNull | l => JArr (JStr <$> l) end);
        ("peer_identity", JStr (Identity peer));
        ("transport_peer_sha256", JStr (TransportPeerCertificateSHA256 peer));
        ("via_trusted_proxy", JBool (ViaTrustedProxy peer))]%string.
Definition admission_of (hello : SessionHello) (peer : PeerIdentityEvidence) : AgentSessionAdmission :=
  MkAdmission (he_SessionAttemptId hello) (he_HostIdentity hello) (he_ConnectionInstanceId hello) "grpc-v1"
    (he_ProtocolVersion hello) (he_AgentArtifactDigest hello) (he_CredentialBindingRevision hello)
    (CredentialCertificateSHA256 peer) (handshake_evidence hello peer) (i64 (he_SessionGeneration hello)).

Definition ErrHostNotApproved : goerr := errors_New "Host is not approved for Agent session admission".

(** The [switch] on the error *)
Definition rejected_as (au : PostgresSessionAuthorizer) (e : goerr) : SessionRejected :=
  if errors_Is e ErrDatabaseAuthorityNotActive then rejection "DATABASE_AUTHORITY_NOT_ACTIVE" true (RetryAfter au)
  else if errors_Is e ErrHostNotApproved then rejection "HOST_NOT_APPROVED" false 0
  else if errors_Is e ErrCredentialBindingNotCurrent then rejection "CREDENTIAL_BINDING_NOT_CURRENT" false 0
  else if errors_Is e ErrSessionGenerationConflict then rejection "SESSION_GENERATION_CONFLICT" false 0
  else if errors_Is e ErrSessionAttemptConflict then rejection "SESSION_ATTEMPT_CONFLICT" false 0
  else rejection "DATABASE_ADMISSION_UNAVAILABLE" true (RetryAfter au).

(** [Authorize]; [limiter] is what [TryAcquire] answers. *)
Definition decision : Type := SessionAccepted + SessionRejected.
Definition Authorize (au : PostgresSessionAuthorizer) (now : Z) (limiter : res unit) (outcome : transaction)
    (hello : SessionHello) (peer : PeerIdentityEvidence) (d : db) : db * decision :=
  if negb (has_DB au) || negb (has_Admission au) || (Identity peer ==s "")
  then (d, inr (rejection "INVALID_HANDSHAKE" false 0)) else
  match limiter with
  | Err e =>
      (d, inr (rejection (if errors_Is e ErrAdmissionLimited then "GATEWAY_ADMISSION_LIMITED"
                          else "GATEWAY_ADMISSION_FAILED") true (RetryAfter au)))
  | Ok _ =>
      match transacted outcome (AdmitAgentSession now (admission_of hello peer) d) d with
      | (d, Ok grant) =>
          (d, inl (MkAccepted (sg_HostID grant) (u64 (sg_SessionGeneration grant)) (sg_SessionAttemptID grant)))
      | (d, Err e) => (d, inr (rejected_as au e))
      end
  end.

(** ** PostgresMessageReceiver *)

Section Server.
(** What PostgreSQL makes of a jsonb value as text and of a text as bigint, and
    of an inventory payload what [DecodeSnapshot] and [MarshalCanonical] make:
    the snapshot, its canonical text and the text of its capabilities *)
Context (jsonb_text : json -> bytes) (to_bigint : string -> option Z).
Context (decode_inventory : bytes -> res (Inventory.Snapshot * bytes * bytes)).

(** [AcceptHostInventory] *)
Definition AcceptHostInventory (now maxMessageBytes : Z) (e : Envelope) (d : db) : res (db * Receipt) :=
  Validate e maxMessageBytes;;
  fail_if ((Stream e !=s StreamInventory) || (SchemaVersion e !=s Inventory.SnapshotSchemaV3))
    (errors_New "normalized Host inventory envelope is required");;
  '(snapshot, canonicalPayload, capabilityPayload) ← decode_inventory (Payload e);
  fail_if (canonicalPayload !=s Payload e) (errors_New "Host inventory payload is not canonical");;
  fail_if ((Inventory.HostIdentity snapshot !=s HostIdentity e)
           || (Inventory.ObservationGeneration snapshot !=z ResourceGeneration e)
           || (Inventory.ObservationGeneration snapshot !=z Sequence e))
    (errors_New "Host inventory envelope identity/generation mismatch");;
  accept_inventory_tx now e snapshot capabilityPayload d.

(** A transaction on the tables of the control plane *)
Definition on_control (r : res (db * Receipt)) (d : catalogue) : catalogue * res Receipt :=
  match r with Ok (c, receipt) => (d <| control := c |>, Ok receipt) | Err e => (d, Err e) end.
(** [ConvergeImageIngestionCommand] after the receipt *)
Definition then_converge (now : Z) (commandID verificationID : string) (r : catalogue * res Receipt) :
    catalogue * res Receipt :=
  match r with
  | (d, Ok receipt) =>
      match ConvergeImageIngestionCommand jsonb_text to_bigint now commandID verificationID d with
      | (d, None) => (d, Ok receipt)
      | (d, Some e) => (d, Err e)
      end
  | failed => failed
  end.

Record PostgresMessageReceiver := MkReceiver { receiver_DB : bool; MaxMessageBytes : Z }.

(** [Receive]: the tables after it, and the receipt or the error *)
Definition Receive (receiver : PostgresMessageReceiver) (now : Z) (e : Envelope) (d : catalogue) :
    catalogue * res Receipt :=
  let max := MaxMessageBytes receiver in
  if negb (receiver_DB receiver) || (max <? 1)
  then (d, Err (errors_New "Agent message receiver database and positive message limit are required"))
  else if Stream e ==s StreamInventory then on_control (AcceptHostInventory now max e (control d)) d
  else if Stream e ==s StreamResult then
    if SchemaVersion e !=s CommandResultSchema
    then (d, Err (errors_New "unsupported typed Command Result schema")) else
    match DecodeCommandResult (Payload e) with
    | Err err => (d, Err err)
    | Ok result =>
        let r := on_control (receive_result now max e result (control d)) d in
        match rd_Verification (result_decision result) with
        | None => r
        | Some v => then_converge now (cr_CommandID result) (Verification.VerificationID v) r
        end
    end
  else if (Stream e ==s StreamResync) && (SchemaVersion e ==s VerificationObservationSchema) then
    match DecodeVerificationObservation (Payload e) with
    | Err err => (d, Err err)
    | Ok o =>
        then_converge now (vo_CommandID o) (Verification.VerificationID (vd_Verification (observation_decision o)))
          (on_control (receive_observation max e o (control d)) d)
    end
  else on_control (AcceptAgentMessage max e (control d)) d.

(** ** GRPCServer.Connect *)

(** What the goroutines of a Gateway share: the tables and the live streams *)
Record gateway := MkGateway { tables : catalogue; streams : OutboundRegistry }.

(** A frame, or the error [Recv] returned; and what happened to the Gateway
    before, the time, and the error [Send] will return *)
Record turn := MkTurn {
  others : gateway -> gateway; turn_now : Z; received : res Frame; send_error : option goerr;
}.

(** What a connection does that others see: a frame handed to the stream, and
    whether it was sent; a message committed. *)
Inductive action :=
| Sent (f : frame_body) (error : option goerr)
| Committed (e : Envelope) (r : Receipt).

(** A connection is still waiting for its next frame, or has returned. *)
Inductive progress := Serving | Returned (e : option goerr).

Record GRPCServer := MkServer {
  Resolver : call_context -> res PeerIdentityEvidence; Authorizer : option PostgresSessionAuthorizer;
  server_Receiver : option PostgresMessageReceiver; has_registry : bool;
}.

(** The loop *)
Definition is_EOF (e : goerr) : bool := errors_Is e io_EOF.
Definition granted (a : SessionAccepted) (w : WireEnvelope) : bool :=
  (we_HostIdentity w ==s ac_HostIdentity a) && (we_SessionGeneration w =? ac_SessionGeneration a).
Definition serve_message (receiver : option PostgresMessageReceiver) (t : turn) (w : WireEnvelope) (g : gateway) :
    gateway * list action * progress :=
  match receiver with
  | None => (g, [], Serving)
  | Some receiver =>
      match EnvelopeFromProto (Some w) with
      | Err e => (g, [], Returned (Some e))
      | Ok e =>
          match Receive receiver (turn_now t) e (tables g) with
          | (d, Err err) => (MkGateway d (streams g), [], Returned (Some err))
          | (d, Ok receipt) =>
              (MkGateway d (streams g),
               [Committed e receipt; Sent (Frame_Receipt (ReceiptToProto receipt)) (send_error t)],
               match send_error t with None => Serving | Some err => Returned (Some err) end)
          end
      end
  end.
Definition serve_turn (receiver : option PostgresMessageReceiver) (a : SessionAccepted) (t : turn) (g : gateway) :
    gateway * list action * progress :=
  let g := others t g in
  match received t with
  | Err e => (g, [], Returned (if is_EOF e then None else Some e))
  | Ok frame =>
      match GetEnvelope frame with
      | Some w =>
          if granted a w then serve_message receiver t w g
          else (g, [], Returned (Some (errors_New "Agent envelope does not match granted session authority")))
      | None => (g, [], Returned (Some (errors_New "Agent envelope does not match granted session authority")))
      end
  end.
Fixpoint serve (receiver : option PostgresMessageReceiver) (a : SessionAccepted) (script : list turn) (g : gateway) :
    gateway * list action * progress :=
  match script with
  | [] => (g, [], Serving)
  | t :: script =>
      match serve_turn receiver a t g with
      | (g, actions, Serving) =>
          let '(g, more, p) := serve receiver a script g in (g, actions ++ more, p)
      | stopped => stopped
      end
  end.

(** The deferred [release] runs when the connection returns. *)
Definition registered (server : GRPCServer) (connection : string) (a : SessionAccepted)
    (sink : Envelope -> res unit) (script : list turn) (g : gateway) : gateway * list action * progress :=
  if has_registry server then
    match Register (streams g) (ac_HostIdentity a) (ac_SessionGeneration a) connection (Some sink) with
    | (_, Err e) => (g, [], Returned (Some e))
    | (registry, Ok _) =>
        match serve (server_Receiver server) a script (MkGateway (tables g) registry) with
        | (g, actions, Serving) => (g, actions, Serving)
        | (g, actions, p) =>
            (MkGateway (tables g) (unregister (streams g) (ac_HostIdentity a) (ac_SessionGeneration a) connection),
             actions, p)
        end
    end
  else serve (server_Receiver server) a script g.

(** [Connect]: the Hello comes in the first turn, its decision is sent with
    that turn's outcome; [between] runs before the stream is registered. *)
Definition Connect (server : GRPCServer) (ctx : call_context) (limiter : res unit) (outcome : transaction)
    (first : turn) (between : gateway -> gateway) (sink : Envelope -> res unit) (script : list turn) (g : gateway) :
    gateway * list action * progress :=
  match Resolver server ctx with
  | Err e => (g, [], Returned (Some e))
  | Ok peer =>
      let g := others first g in
      match received first with
      | Err e => (g, [], Returned (Some e))
      | Ok frame =>
          match GetHello frame, Authorizer server with
          | None, _ => (g, [], Returned (Some (errors_New "first Agent frame must be SessionHello")))
          | _, None => (g, [], Returned (Some (errors_New "Agent Session Authorizer is required")))
          | Some hello, Some au =>
              let '(d, answer) := Authorize au (turn_now first) limiter outcome hello peer (control (tables g)) in
              let g := MkGateway ((tables g) <| control := d |>) (streams g) in
              match answer with
              | inr rejected => (g, [Sent (Frame_Rejected rejected) (send_error first)], Returned (send_error first))
              | inl a =>
                  match send_error first with
                  | Some e => (g, [Sent (Frame_Accepted a) (Some e)], Returned (Some e))
                  | None =>
                      let '(g, actions, p) := registered server (he_ConnectionInstanceId hello) a sink script (between g) in
                      (g, Sent (Frame_Accepted a) None :: actions, p)
                  end
              end
          end
      end
  end.
End Server.

(** ** What an admission means *)

Lemma validate_binding now h revision fingerprint d x :
  validateCurrentCredentialBindingTx now h revision fingerprint d = Ok x ->
  exists host enrollment current evidence, trust_rows h revision d = Some (host, enrollment, current, evidence)
    /\ identity_current host enrollment current evidence = true /\ time_valid now evidence = true
    /\ cev_fingerprint evidence = fingerprint.
Proof.
  unfold validateCurrentCredentialBindingTx. intros H.
  destruct (trust_rows h revision d) as [[[[host en] cu] ev]|] eqn:E; [|done]. run_guards.
  exists host, en, cu, ev. by split_and!.
Qed.

(** The Host's session row after a transaction that does not touch it *)
Lemma fenced_session h reason d d' : fenceHostOperationAuthorityTx h reason d = Ok d' ->
  sessions d' = sessions d.
Proof. intros H. apply fenceHostOperationAuthorityTx_fenced in H as [[= E1 E2 E3 E4 E5 E6 E7] _ _ _ _ _]. done. Qed.

Lemma refresh_session now h d d' : refreshHostSessionAuthorizationTx now h d = Ok d' -> sessions d' = sessions d.
Proof. intros H. apply refresh_framed in H as ([= E1 E2 E3 E4 E5 E6 E7 E8] & _ & _). done. Qed.

Lemma attempt_sessions r d d' b : record_attempt r d = Ok (d', b) -> sessions d' = sessions d.
Proof. intros H. apply record_attempt_framed in H as ([= E1 E2 E3 E4 E5 E6 E7 E8] & _ & _). done. Qed.

(** A session granted to an attempt that is not the current one *)
Definition next_generation (h : string) (d : db) : Z := i64 (session_generation (view_of d h) + 1).
Definition current_attempt (h : string) (d : db) : option string := sessions d !! h ≫= ses_attempt.

Lemma new_session now r d d' g : AdmitAgentSession now r d = Ok (d', g) ->
  current_attempt (sa_HostID r) d <> Some (SessionAttemptID r) ->
  let h := sa_HostID r in
  g = MkSessionGrant h (SessionAttemptID r) (next_generation h d) (Some now)
  /\ (exists s, sessions d' !! h = Some s /\ ses_generation s = next_generation h d /\ ses_state s = "CURRENT"%string
                /\ ses_attempt s = Some (SessionAttemptID r))
  /\ (0 < ExpectedSessionGeneration r -> ExpectedSessionGeneration r = next_generation h d)
  /\ database_mode d = "ACTIVE"%string
  /\ is_Ok (validateCurrentCredentialBindingTx now h (sa_CredentialBindingRevision r) (PeerCertificateFingerprint r) d) = true.
Proof.
  intros H Hne h. subst h. unfold AdmitAgentSession in H. open_tx.
  - exfalso. rewrite (attempt_sessions _ _ _ _ ltac:(eassumption)) in *. by apply Hne.
  - rewrite (attempt_sessions _ _ _ _ ltac:(eassumption)) in *.
    pose proof (refresh_session _ _ _ _ ltac:(eassumption)) as E1.
    pose proof (fenced_session _ _ _ _ ltac:(eassumption)) as E2.
    match goal with H : grant_session _ _ _ _ = Ok _ |- _ => unfold grant_session in H end. open_tx.
    cbn in E2. rewrite E1, E2, lookup_insert_eq. unfold next_generation, session_generation. cbn.
    split_and!; [done|by eexists| |done|by rewrite Hr2].
    intros Hpos. match goal with H : _ && _ = false |- _ => apply andb_false_iff in H as [H|H]; bools; [lia|done] end.
Qed.

(** The credential that names the certificate of the peer is the Host's current
    one, and its evidence is active and in its period of validity. *)
Definition credential_current (now : Z) (h : string) (revision : Z) (fingerprint : string) (d : db) : Prop :=
  exists host enrollment current evidence, trust_rows h revision d = Some (host, enrollment, current, evidence)
    /\ identity_current host enrollment current evidence = true /\ time_valid now evidence = true
    /\ cev_fingerprint evidence = fingerprint.

(** C25: An accepted Hello is a session the Agent can use: for a new attempt, the
    Gateway accepts only in an active database, for an approved Host whose
    current credential names the certificate of the peer; the session row then
    holds the attempt and the generation the Agent proposed, one above the
    generation before; and the decision it sends passes the check the Agent
    makes of it. *)
Theorem accepted_hello_is_usable au now limiter outcome handshake peer d d' a : reachable d ->
  1 <= hs_SessionGeneration handshake <= MaxInt64 ->
  current_attempt (hs_HostIdentity handshake) d <> Some (hs_SessionAttemptID handshake) ->
  Authorize au now limiter outcome (HelloToProto handshake) peer d = (d', inl a) ->
  ValidateSessionDecision (Some (Some (Frame_Accepted a))) handshake = None
  /\ session_generation (view_of d (hs_HostIdentity handshake)) + 1 = hs_SessionGeneration handshake
  /\ (exists s, sessions d' !! hs_HostIdentity handshake = Some s /\ ses_generation s = hs_SessionGeneration handshake
                /\ ses_state s = "CURRENT"%string /\ ses_attempt s = Some (hs_SessionAttemptID handshake))
  /\ database_mode d = "ACTIVE"%string
  /\ credential_current now (hs_HostIdentity handshake) (hs_CredentialBindingRevision handshake)
       (CredentialCertificateSHA256 peer) d.
Proof.
  intros R Hg Hne H. unfold Authorize in H. destruct (_ || _ || _) in H; [done|]. destruct limiter as [[]|e]; [|done].
  destruct (transacted _ _ _) as [d1 [grant|e]] eqn:T; [|done]. injection H as <- <-.
  apply transacted_Ok in T as [-> T].
  destruct (new_session _ _ _ _ _ T Hne) as (-> & (s & Hs & Hsg & Hst & Hsa) & Hexp & Hmode & Hval). cbn in Hexp, Hs, Hsg, Hsa.
  assert (i64 (hs_SessionGeneration handshake) = hs_SessionGeneration handshake) as Ei.
  { apply i64_id. unfold is_i64, two63, MaxInt64 in *. lia. }
  rewrite Ei in Hexp. specialize (Hexp ltac:(lia)).
  pose proof (inv_session _ (reachable_inv _ R) (hs_HostIdentity handshake)) as Hok.
  assert (next_generation (hs_HostIdentity handshake) d = session_generation (view_of d (hs_HostIdentity handshake)) + 1) as En.
  { unfold next_generation, session_ok in *. destruct (decide (session_generation (view_of d (hs_HostIdentity handshake)) = MaxInt64)) as [Em|].
    - exfalso. unfold next_generation in Hexp. rewrite Em in Hexp. change (i64 (MaxInt64 + 1)) with (- two63) in Hexp. unfold two63 in Hexp. lia.
    - apply i64_id. unfold is_i64, two63, MaxInt64 in *. lia. }
  split_and!; [|lia|exists s; by rewrite Hexp|done|].
  - apply ValidateSessionDecision_iff. eexists. split; [done|]. cbn. rewrite u64_id, Hexp; [auto|].
    unfold is_u64, two64, MaxInt64 in *. lia.
  - destruct (validateCurrentCredentialBindingTx _ _ _ _ _) as [x|] eqn:V; [|done]. by eapply validate_binding.
Qed.

(** ** A grant the Agent never recorded *)

Lemma apply_session_mono now r d h : control_inv d ->
  session_generation (view_of d h) <= session_generation (view_of (apply now r d) h).
Proof.
  intros I. destruct (session_step_next _ _ (ctl_session _ _ (apply_step now r d) h) (inv_session _ I h)) as [[E|E] _]; lia.
Qed.

Lemma run_session_mono hs : forall d h, control_inv d ->
  session_generation (view_of d h) <= session_generation (view_of (run hs d) h).
Proof.
  induction hs as [|[t r] hs IH]; intros d h I; cbn [run]; [lia|].
  etrans; [by apply (apply_session_mono t r)|]. by apply IH, apply_inv.
Qed.

(** The errors of an admission, when its generation is not the next one *)
Definition without_proposal (r : AgentSessionAdmission) : AgentSessionAdmission :=
  MkAdmission (SessionAttemptID r) (sa_HostID r) (ConnectionInstanceID r) (TransportProfile r) (ProtocolVersion r)
    (AgentArtifactDigest r) (sa_CredentialBindingRevision r) (PeerCertificateFingerprint r) (HandshakeEvidence r) 0.

Lemma wrong_generation now r d : current_attempt (sa_HostID r) d <> Some (SessionAttemptID r) ->
  0 < ExpectedSessionGeneration r -> ExpectedSessionGeneration r <> next_generation (sa_HostID r) d ->
  (exists e, AdmitAgentSession now r d = Err e)
  /\ (is_Ok (AdmitAgentSession now (without_proposal r) d) = true ->
      AdmitAgentSession now r d = Err ErrSessionGenerationConflict).
Proof.
  intros Hne Hpos Hgen.
  assert (is_Ok (AdmitAgentSession now r d) = false) as Hno.
  { destruct (AdmitAgentSession now r d) as [[d' g]|] eqn:E; [|done].
    destruct (new_session _ _ _ _ _ E Hne) as (_ & _ & Hexp & _). by apply Hexp in Hpos. }
  split; [destruct (AdmitAgentSession now r d); [done|eauto]|].
  intros Hok. unfold AdmitAgentSession in *. cbn in Hok.
  repeat match type of Hok with
    | is_Ok (fail_if ?b _ ≫= _) = true => destruct b; [done|]; cbn [fail_if mbind res_bind] in Hok |- *
    end.
  change (record_attempt (without_proposal r) d) with (record_attempt r d) in Hok.
  destruct (validateCurrentCredentialBindingTx _ _ _ _ _); [|done]; cbn [mbind res_bind] in Hok |- *.
  destruct (record_attempt r d) as [[d1 b]|] eqn:Er; [|done]; cbn [mbind res_bind] in Hok |- *.
  pose proof (attempt_sessions _ _ _ _ Er) as Es; rewrite Es in *.
  rewrite bool_decide_eq_false_2 in * by done; destruct b; [|done]; cbn [negb fail_if mbind res_bind].
  rewrite (proj2 (Z.ltb_lt _ _) Hpos); cbn [andb]; rewrite (proj2 (Z.eqb_neq _ _)); [done|].
  exact Hgen.
Qed.

(** C26: A grant the Agent did not record locks the Host out.  Once the session
    generation in the database is above the one the Agent's ledger accepted, then
    whatever the control plane does afterwards, an attempt that is not the
    current one and proposes the generation after the ledger's is refused and
    changes no table.  The refusal is a SESSION_GENERATION_CONFLICT the Agent is
    told not to retry when the admission limiter lets it in, the database answers
    and, but for the generation, would have admitted it. *)
Theorem lost_grant_locks_the_host_out d hs ledger handshake au now limiter outcome peer : reachable d ->
  let h := hs_HostIdentity handshake in let d1 := run hs d in
  0 <= Ledger.accepted ledger < session_generation (view_of d h) ->
  Ledger.Next ledger = Ok (hs_SessionGeneration handshake) ->
  current_attempt h d1 <> Some (hs_SessionAttemptID handshake) ->
  exists r, Authorize au now limiter outcome (HelloToProto handshake) peer d1 = (d1, inr r)
    /\ (has_DB au = true -> has_Admission au = true -> Identity peer <> ""%string -> limiter = Ok tt ->
        outcome = Answered ->
        is_Ok (AdmitAgentSession now (without_proposal (admission_of (HelloToProto handshake) peer)) d1) = true ->
        r = rejection "SESSION_GENERATION_CONFLICT" false 0).
Proof.
  intros R h d1 Ha Hn Hne. pose proof (reachable_inv _ R) as I.
  pose proof (run_session_mono hs d h I) as Hmono. fold d1 in Hmono.
  pose proof (inv_session _ (reachable_inv _ (reachable_run d hs R)) h) as Hok. fold d1 in Hok. unfold session_ok in Hok.
  assert (hs_SessionGeneration handshake = Ledger.accepted ledger + 1) as Eg.
  { unfold Ledger.Next in Hn. run_guards. subst. rewrite <- Hn. apply u64_id.
    unfold is_u64, two64, MaxInt64 in *. lia. }
  set (r := admission_of (HelloToProto handshake) peer).
  assert (ExpectedSessionGeneration r = Ledger.accepted ledger + 1) as Er.
  { cbn. rewrite Eg. apply i64_id. unfold is_i64, two63, MaxInt64 in *. lia. }
  destruct (wrong_generation now r d1) as [(e & He) Hconflict]; [done|lia| |].
  { rewrite Er. unfold next_generation. cbn. fold h.
    destruct (decide (session_generation (view_of d1 h) = MaxInt64)) as [->|].
    - change (i64 (MaxInt64 + 1)) with (- two63). unfold two63. lia.
    - rewrite i64_id by (unfold is_i64, two63, MaxInt64 in *; lia). lia. }
  unfold Authorize. fold r. destruct (_ || _ || _) eqn:Eguard.
  { eexists. split; [done|]. intros E1 E2 E3. rewrite E1, E2 in Eguard. by apply String.eqb_eq in Eguard. }
  destruct limiter as [[]|e']; [|eexists; split; [done|]; done].
  rewrite He. exists (match outcome with Failed e' => rejected_as au e' | _ => rejected_as au e end).
  split; [by destruct outcome|]. intros _ _ _ _ -> Hready. rewrite (Hconflict Hready) in He. by injection He as <-.
Qed.

(** ** What a connection does *)

Lemma ValidateFor_identifies r e : is_Ok (ValidateFor r e) = true -> identifies r e.
Proof. destruct (ValidateFor r e) as [[]|] eqn:E; [|done]. intros _. apply ValidateFor_iff in E. apply E. Qed.

(** The receipt of a message, on file for it *)
Definition on_file (e : Envelope) (r : Receipt) (d : db) : Prop :=
  readAgentReceiptTx (HostIdentity e) (MessageID e) d = Some r /\ identifies r e.

Lemma existing_on_file e r d : readAgentReceiptTx (HostIdentity e) (MessageID e) d = Some r ->
  fail_if (negb (is_Ok (ValidateFor r e))) ErrAgentMessageEvidenceConflict = Ok tt -> on_file e r d.
Proof. intros Hr H%fail_if_Ok_inv. split; [done|]. apply ValidateFor_identifies. by destruct (ValidateFor r e). Qed.

Lemma recorded_on_file e g disposition d d' r : recordAgentReceiptTx e g disposition d = Ok (d', r) -> on_file e r d'.
Proof.
  unfold recordAgentReceiptTx. intros H. do 3 (apply bind_Ok_inv in H as ([] & _ & H)).
  destruct (readAgentReceiptTx _ _ d) as [r0|] eqn:Er; apply bind_Ok_inv in H as ([] & Hv & H); injection H as <- <-.
  - by apply existing_on_file.
  - split; [|by apply receipt_of_identifies]. unfold readAgentReceiptTx. cbn. by rewrite lookup_insert_eq.
Qed.

Lemma accepted_on_file e d d' r : acceptAgentMessageTx e d = Ok (d', r) -> on_file e r d'.
Proof.
  unfold acceptAgentMessageTx. intros H. destruct (readAgentReceiptTx _ _ d) as [r0|] eqn:Er.
  - apply bind_Ok_inv in H as ([] & Hv & H). injection H as <- <-. by apply existing_on_file.
  - apply bind_Ok_inv in H as (g & _ & H). by eapply recorded_on_file.
Qed.

Lemma result_on_file now m e x d d' r : AcceptAgentCommandResult now m e x d = Ok (d', r) -> on_file e r d'.
Proof.
  unfold AcceptAgentCommandResult, decide_result. intros H. do 2 (apply bind_Ok_inv in H as ([] & _ & H)).
  destruct (readAgentReceiptTx _ _ d) as [r0|] eqn:Er.
  { apply bind_Ok_inv in H as ([] & Hv & H). injection H as <- <-. by apply existing_on_file. }
  open_tx; [by eapply recorded_on_file|by eapply accepted_on_file..].
Qed.

Lemma observation_on_file m e x d d' r : AcceptAgentVerificationObservation m e x d = Ok (d', r) -> on_file e r d'.
Proof.
  unfold AcceptAgentVerificationObservation. intros H. do 2 (apply bind_Ok_inv in H as ([] & _ & H)).
  destruct (readAgentReceiptTx _ _ d) as [r0|] eqn:Er.
  { apply bind_Ok_inv in H as ([] & Hv & H). injection H as <- <-. by apply existing_on_file. }
  open_tx. by eapply accepted_on_file.
Qed.

Lemma on_file_kept e r d d' : keeps_rows d d' -> on_file e r d -> on_file e r d'.
Proof.
  intros (Hk & _) [H Hi]. split; [|done]. unfold readAgentReceiptTx in *.
  destruct (receipts d !! _) as [row|] eqn:E; [|done]. by rewrite (lookup_weaken _ _ _ _ E Hk).
Qed.

Lemma apply_inventory_keeps now e s p q d d' : applyHostInventoryTx now e s p q d = Ok d' -> keeps_rows d d'.
Proof.
  unfold applyHostInventoryTx. cbv zeta. intros H. apply bind_Ok_inv in H as (d1 & H1 & H). apply bind_Ok_inv in H as (d2 & H2 & H).
  apply bind_Ok_inv in H as (d3 & H3 & H4).
  apply insert_snapshot_framed, framed_step in H1. apply project_capabilities_step in H2.
  apply applyPCI_framed, framed_step in H3. apply refresh_framed, framed_step in H4.
  etrans; [apply (cs_keeps _ _ (proj2 H1))|]. etrans; [apply (cs_keeps _ _ (ctl_command _ _ H2))|].
  etrans; [apply (cs_keeps _ _ (proj2 H3))|apply (cs_keeps _ _ (proj2 H4))].
Qed.

Lemma inventory_on_file now e s p d d' r : accept_inventory_tx now e s p d = Ok (d', r) -> on_file e r d'.
Proof.
  unfold accept_inventory_tx. intros H. apply bind_Ok_inv in H as ([d1 r1] & H1 & H). apply accepted_on_file in H1.
  destruct (rcpt_Disposition r1 !=s "ACCEPTED"); [by injection H as <- <-|].
  apply bind_Ok_inv in H as (d2 & H2 & [= <- <-]). eapply on_file_kept; [by eapply apply_inventory_keeps|done].
Qed.

Section Connection.
Context (jsonb_text : json -> bytes) (to_bigint : string -> option Z).
Context (decode_inventory : bytes -> res (Inventory.Snapshot * bytes * bytes)).
Abbreviation Receive := (Receive jsonb_text to_bigint decode_inventory).
Abbreviation serve := (serve jsonb_text to_bigint decode_inventory).
Abbreviation Connect := (Connect jsonb_text to_bigint decode_inventory).

Lemma on_control_on_file (x : res (db * Receipt)) d d' r e : (forall c, x = Ok (c, r) -> on_file e r c) ->
  on_control x d = (d', Ok r) -> on_file e r (control d').
Proof. intros H. destruct x as [[c r0]|]; simpl; intros [= <- <-]. by apply H. Qed.

Lemma converge_control now c v d : control (fst (ConvergeImageIngestionCommand jsonb_text to_bigint now c v d)) = control d.
Proof.
  unfold ConvergeImageIngestionCommand. destruct (operation_of_command c d) as [o|]; [|done].
  destruct (RecordImageIngestionObservation _ _ _ _) as [d1|e] eqn:E1; [|by destruct (errors_Is _ _)].
  apply observe_Ok in E1 as (a & response & _ & _ & _ & _ & _ & E1).
  destruct (FinalizeImageIngestion _ _ _ _ _ _) as [[d2 out]|e] eqn:E2; [|done].
  apply Finalize_Ok in E2 as [(t & _ & _ & ->)|(_ & terminal & reason & t & d3 & _ & _ & _ & (E3 & _) & _ & ->)]; [done|].
  cbn. congruence.
Qed.

Lemma then_converge_Ok now c v x d r : then_converge jsonb_text to_bigint now c v x = (d, Ok r) ->
  exists d0, x = (d0, Ok r) /\ control d = control d0.
Proof.
  destruct x as [d0 [r0|e]]; simpl; [|by intros [= _ <-]]. intros H. exists d0.
  pose proof (converge_control now c v d0) as E.
  destruct (ConvergeImageIngestionCommand _ _ _ _ _ _) as [d1 [e|]]; [done|]. by injection H as <- <-.
Qed.

(** Whatever the stream, a receipt is committed, and names the message it answers. *)
Lemma receipt_on_file receiver now e d d' r : Receive receiver now e d = (d', Ok r) -> on_file e r (control d').
Proof.
  unfold GatewayServer.Receive. intros H. destruct (_ || _) in H; [done|].
  destruct (Stream e ==s StreamInventory) in H.
  { eapply on_control_on_file; [|exact H]. unfold AcceptHostInventory. intros c Hc. open_tx. by eapply inventory_on_file. }
  destruct (Stream e ==s StreamResult) in H.
  { destruct (SchemaVersion e !=s CommandResultSchema) in H; [done|].
    destruct (DecodeCommandResult (Payload e)) as [result|] in H; [|done].
    assert (exists d0, on_control (receive_result now (MaxMessageBytes receiver) e result (control d)) d = (d0, Ok r)
      /\ control d' = control d0) as (d0 & H0 & ->).
    { destruct (rd_Verification _) in H; [by apply then_converge_Ok in H|by exists d']. }
    eapply on_control_on_file; [|exact H0]. unfold receive_result. intros c Hc. open_tx. by eapply result_on_file. }
  destruct (_ && _) in H.
  { destruct (DecodeVerificationObservation (Payload e)) as [o|] in H; [|done].
    apply then_converge_Ok in H as (d0 & H0 & ->).
    eapply on_control_on_file; [|exact H0]. unfold receive_observation. intros c Hc. open_tx. by eapply observation_on_file. }
  eapply on_control_on_file; [|exact H]. unfold AcceptAgentMessage. intros c Hc. open_tx. by eapply accepted_on_file.
Qed.

(** The message of a turn, when it is of the Host and the generation granted *)
Definition message_of (a : SessionAccepted) (t : turn) : option Envelope :=
  match received t with
  | Ok (Some (Frame_Envelope w)) =>
      match EnvelopeFromProto (Some w) with
      | Ok e => if (HostIdentity e ==s ac_HostIdentity a) && (SessionGeneration e =? ac_SessionGeneration a) then Some e else None
      | Err _ => None
      end
  | _ => None
  end.

(** What follows a grant, over the turns of the connection and the states of the
    Gateway they find and leave: each message is committed to the tables, its
    receipt on file there, before that receipt is sent, and the next turn starts
    from those tables; whatever is not a message of the grant, is refused by the
    database or cannot be answered is the last. *)
Inductive answers (receiver : option PostgresMessageReceiver) (a : SessionAccepted) :
    list turn -> gateway -> list action -> gateway -> progress -> Prop :=
| answers_waiting g : answers receiver a [] g [] g Serving
| answers_closed t script g error : message_of a t = None ->
    match received t with Err e => error = if is_EOF e then None else Some e | Ok _ => is_Some error end ->
    answers receiver a (t :: script) g [] (others t g) (Returned error)
| answers_unread t script g e more g' p : receiver = None -> message_of a t = Some e ->
    answers receiver a script (others t g) more g' p -> answers receiver a (t :: script) g more g' p
| answers_refused rcv t script g e d error : receiver = Some rcv -> message_of a t = Some e ->
    Receive rcv (turn_now t) e (tables (others t g)) = (d, Err error) ->
    answers receiver a (t :: script) g [] (MkGateway d (streams (others t g))) (Returned (Some error))
| answers_unsent rcv t script g e d r error : receiver = Some rcv -> message_of a t = Some e ->
    Receive rcv (turn_now t) e (tables (others t g)) = (d, Ok r) -> on_file e r (control d) -> send_error t = Some error ->
    answers receiver a (t :: script) g [Committed e r; Sent (Frame_Receipt (ReceiptToProto r)) (Some error)]
      (MkGateway d (streams (others t g))) (Returned (Some error))
| answers_message rcv t script g e d r more g' p : receiver = Some rcv -> message_of a t = Some e ->
    Receive rcv (turn_now t) e (tables (others t g)) = (d, Ok r) -> on_file e r (control d) -> send_error t = None ->
    answers receiver a script (MkGateway d (streams (others t g))) more g' p ->
    answers receiver a (t :: script) g (Committed e r :: Sent (Frame_Receipt (ReceiptToProto r)) None :: more) g' p.

Lemma serve_answers receiver a script : forall g g' actions p,
  serve receiver a script g = (g', actions, p) -> answers receiver a script g actions g' p.
Proof.
  induction script as [|t script IH]; intros g g' actions p H; cbn [GatewayServer.serve] in H.
  { injection H as <- <- <-. constructor. }
  unfold serve_turn in H. destruct (received t) as [f|e] eqn:Ef.
  2: { injection H as <- <- <-. apply answers_closed; [unfold message_of|]; by rewrite Ef. }
  destruct (GetEnvelope f) as [w|] eqn:Ew.
  2: { injection H as <- <- <-. apply answers_closed; [unfold message_of|]; rewrite Ef; [by destruct f as [[]|]|by eexists]. }
  assert (f = Some (Frame_Envelope w)) as -> by (destruct f as [[]|]; simpl in Ew; congruence).
  destruct (granted a w) eqn:Eg.
  2: { injection H as <- <- <-. apply answers_closed; [unfold message_of|]; rewrite Ef; [|by eexists]. cbn [EnvelopeFromProto].
       unfold granted in Eg. cbn [HostIdentity SessionGeneration]. by rewrite Eg. }
  assert (exists e, EnvelopeFromProto (Some w) = Ok e /\ message_of a t = Some e) as (e & Ee & Em).
  { unfold message_of. rewrite Ef. cbn [EnvelopeFromProto]. eexists. split; [done|].
    unfold granted in Eg. cbn [HostIdentity SessionGeneration]. by rewrite Eg. }
  unfold serve_message in H. destruct receiver as [rcv|].
  2: { destruct (GatewayServer.serve _ _ _ _ _ _ _) as [[g2 more] q2] eqn:E2. injection H as <- <- <-.
       eapply answers_unread; [done|exact Em|by apply IH]. }
  rewrite Ee in H. destruct (GatewayServer.Receive _ _ _ _ _ _ _) as [d [r|err]] eqn:E.
  2: { injection H as <- <- <-. by eapply answers_refused. }
  pose proof (receipt_on_file _ _ _ _ _ _ E) as Hfile. destruct (send_error t) as [err|] eqn:Es.
  - injection H as <- <- <-. by eapply answers_unsent.
  - destruct (GatewayServer.serve _ _ _ _ _ _ _) as [[g2 more] q2] eqn:E2. injection H as <- <- <-.
    eapply answers_message; try done. by apply IH.
Qed.

(** What a connection does once its grant is sent: it registers its stream, if
    there is a registry, serves, and gives the stream up when it returns. *)
Inductive serves (server : GRPCServer) (connection : string) (a : SessionAccepted) (sink : Envelope -> res unit)
    (script : list turn) (g : gateway) : list action -> gateway -> progress -> Prop :=
| serves_unregistered actions g' p : has_registry server = false ->
    answers (server_Receiver server) a script g actions g' p -> serves server connection a sink script g actions g' p
| serves_refused registry e : has_registry server = true ->
    Register (streams g) (ac_HostIdentity a) (ac_SessionGeneration a) connection (Some sink) = (registry, Err e) ->
    serves server connection a sink script g [] g (Returned (Some e))
| serves_registered registry actions g1 p : has_registry server = true ->
    Register (streams g) (ac_HostIdentity a) (ac_SessionGeneration a) connection (Some sink) = (registry, Ok tt) ->
    answers (server_Receiver server) a script (MkGateway (tables g) registry) actions g1 p ->
    serves server connection a sink script g actions
      (match p with
       | Serving => g1
       | Returned _ => MkGateway (tables g1) (unregister (streams g1) (ac_HostIdentity a) (ac_SessionGeneration a) connection)
       end) p.

Lemma registered_serves server connection a sink script g g' actions p :
  registered jsonb_text to_bigint decode_inventory server connection a sink script g = (g', actions, p) ->
  serves server connection a sink script g actions g' p.
Proof.
  unfold registered. intros H. destruct (has_registry server) eqn:Er.
  2: { apply serves_unregistered; [done|]. by apply serve_answers. }
  destruct (Register _ _ _ _ _) as [registry [[]|e]] eqn:Eg.
  2: { injection H as <- <- <-. by eapply serves_refused. }
  destruct (GatewayServer.serve _ _ _ _ _ _ _) as [[g1 more] q] eqn:Es. apply serve_answers in Es.
  assert (q = p /\ more = actions /\ g' = match p with Serving => g1 | Returned _ =>
    MkGateway (tables g1) (unregister (streams g1) (ac_HostIdentity a) (ac_SessionGeneration a) connection) end) as (-> & -> & ->).
  { destruct q; by injection H as <- <- <-. }
  by eapply serves_registered.
Qed.

(** C24: A connection serves its grant and nothing else.  The first thing it sends
    is the session decision, of the tables the Hello found, the only thing when it
    is a rejection or its sending failed.  After a grant, its own frames are
    receipts, each of a message of the granted Host and generation that came in
    that turn, was committed to the tables the connection then had and has that
    receipt on file there before it is sent; the tables the connection leaves are
    the ones those transactions and the others left, and nothing follows a send
    that failed.  (What others hand to the stream it registered is sent by the
    registered function and is not among these actions.) *)
Theorem connection_serves_its_grant server ctx limiter outcome first between sink script g g' actions p :
  Connect server ctx limiter outcome first between sink script g = (g', actions, p) ->
  (actions = [] /\ exists e, p = Returned (Some e)
     /\ (Resolver server ctx = Err e /\ g' = g
         \/ g' = others first g /\ (Authorizer server = None \/ forall hello, received first <> Ok (Some (Frame_Hello hello)))))
  \/ exists hello peer au d answer, Resolver server ctx = Ok peer /\ received first = Ok (Some (Frame_Hello hello))
       /\ Authorizer server = Some au
       /\ Authorize au (turn_now first) limiter outcome hello peer (control (tables (others first g))) = (d, answer)
       /\ let g1 := MkGateway ((tables (others first g)) <| control := d |>) (streams (others first g)) in
          match answer, send_error first with
          | inr rejected, error => g' = g1 /\ actions = [Sent (Frame_Rejected rejected) error] /\ p = Returned error
          | inl a, Some e => g' = g1 /\ actions = [Sent (Frame_Accepted a) (Some e)] /\ p = Returned (Some e)
          | inl a, None => exists more, actions = Sent (Frame_Accepted a) None :: more
              /\ serves server (he_ConnectionInstanceId hello) a sink script (between g1) more g' p
          end.
Proof.
  unfold GatewayServer.Connect. intros H. destruct (Resolver server ctx) as [peer|e] eqn:Ep.
  2: { left. injection H as <- <- <-. eauto 6. }
  destruct (received first) as [frame|e] eqn:Er.
  2: { left. injection H as <- <- <-. split; [done|]. exists e. split; [done|]. right. split; [done|]. by right. }
  destruct (GetHello frame) as [hello|] eqn:Ef.
  2: { left. injection H as <- <- <-. split; [done|]. eexists. split; [done|]. right. split; [done|]. right.
       intros hello [= ->]. discriminate Ef. }
  destruct (Authorizer server) as [au|].
  2: { left. injection H as <- <- <-. eauto 8. }
  assert (frame = Some (Frame_Hello hello)) as -> by (destruct frame as [[]|]; simpl in Ef; congruence).
  destruct (Authorize _ _ _ _ _ _ _) as [d answer] eqn:E. right. exists hello, peer, au, d, answer. do 4 (split; [done|]).
  destruct answer as [a|rejected]; [|by injection H as <- <- <-]. cbv zeta.
  destruct (send_error first) as [e|]; [by injection H as <- <- <-|].
  destruct (registered _ _ _ _ _ _ _ _ _) as [[g2 more] q] eqn:Eg. injection H as <- <- <-.
  exists more. split; [done|]. by apply registered_serves.
Qed.
End Connection.

(** An unapproved Host is answered as one whose credential is not current: the
    sentinel of HOST_NOT_APPROVED is returned nowhere. *)
Lemma unapproved_host now h revision fingerprint d :
  (forall host, identities d !! h = Some host -> enrollment_state host <> "APPROVED"%string) ->
  validateCurrentCredentialBindingTx now h revision fingerprint d = Err ErrCredentialBindingNotCurrent.
Proof.
  intros Hno. unfold validateCurrentCredentialBindingTx.
  destruct (trust_rows h revision d) as [[[[host en] cu] ev]|] eqn:E; [|done].
  assert (identities d !! h = Some host) as Hh.
  { unfold trust_rows in E. destruct (identities d !! h); [|done]. cbn in E.
    destruct (enrollment_bindings d !! h); [|done]. cbn in E. destruct (credential_bindings d !! h) as [c|]; [|done]. cbn in E.
    destruct (credential_evidence d !! _); [|done]. cbn in E. destruct (_ =? _); by simplify_eq. }
  destruct (time_valid now ev); [|done]. cbn [negb fail_if mbind res_bind]. unfold identity_current.
  rewrite (proj2 (String.eqb_neq _ _) (Hno host Hh)), andb_false_r. done.
Qed.

(** A certificate behind a proxy counts only when the proxy is pinned; what is
    then claimed is a SHA-256 digest, of the element's text in lower case. *)
Lemma proxy_evidence allowed ctx peer : TrustedProxyPeerIdentityResolver allowed ctx = Ok peer ->
  TransportPeerCertificateSHA256 peer ∈ allowed /\ ViaTrustedProxy peer = true
  /\ (exists value hash, forwarded_client_cert ctx = [value] /\ decode_elements value = Ok [hash]
      /\ CredentialCertificateSHA256 peer = ToLower hash)
  /\ exists b, hex_DecodeString (CredentialCertificateSHA256 peer) = Some b /\ len b = 32.
Proof.
  unfold TrustedProxyPeerIdentityResolver. intros H. apply bind_Ok_inv in H as (c & _ & H).
  apply bind_Ok_inv in H as ([] & Hallow & H). apply fail_if_Ok_inv, bool_decide_eq_false in Hallow.
  destruct (forwarded_client_cert ctx) as [|value [|]] eqn:Ev; [done| |done].
  destruct (decode_elements value) as [[|hash [|]]|] eqn:Ed; try done.
  destruct (hex_DecodeString (ToLower hash)) as [b|] eqn:Eh; [|done]. run_guards. subst. cbn.
  split_and!; [by apply dec_stable|done|by eexists _, _|by eexists].
Qed.

(** ** A connection *)

Definition demo_peer : PeerIdentityEvidence := MkPeer "agent-1" demo_digest demo_digest false.
Definition demo_authorizer : PostgresSessionAuthorizer := MkAuthorizer true true 250000000.
Definition demo_handshake (generation : Z) (attempt : string) : Handshake :=
  MkHandshake "host-1" generation "v1" ["kim.host.inventory"]%string attempt (attempt ++ "-connection") demo_digest 1.

Definition demo_authorized : db * decision :=
  Authorize demo_authorizer 12 (Ok tt) Answered (HelloToProto (demo_handshake 2 "attempt-2")) demo_peer demo_armed.
Definition demo_granted : SessionAccepted := MkAccepted "host-1" 2 "attempt-2".

Lemma accepted_hello_is_usable_witness :
  ValidateSessionDecision (Some (Some (Frame_Accepted demo_granted))) (demo_handshake 2 "attempt-2") = None
  /\ session_generation (view_of demo_armed "host-1") + 1 = 2.
Proof.
  destruct (accepted_hello_is_usable demo_authorizer 12 (Ok tt) Answered (demo_handshake 2 "attempt-2") demo_peer demo_armed
    (fst demo_authorized) demo_granted) as (H1 & H2 & _).
  - apply demo_armed_reachable.
  - unfold MaxInt64. cbn. lia.
  - vm_compute. discriminate.
  - vm_compute. reflexivity.
  - split; [exact H1 | exact H2].
Defined.

(** The session of generation 1 was granted; the ledger does not know. *)
Lemma lost_grant_locks_the_host_out_witness :
  Authorize demo_authorizer 12 (Ok tt) Answered (HelloToProto (demo_handshake 1 "attempt-2")) demo_peer
    (run [(11, Discover "host-2")] demo_armed)
  = (run [(11, Discover "host-2")] demo_armed, inr (rejection "SESSION_GENERATION_CONFLICT" false 0)).
Proof.
  destruct (lost_grant_locks_the_host_out demo_armed [(11, Discover "host-2")] (Ledger.MkLedger "host-1" 0 false)
    (demo_handshake 1 "attempt-2") demo_authorizer 12 (Ok tt) Answered demo_peer) as (r & H & Hr).
  - apply demo_armed_reachable.
  - split; [done|]. vm_compute. reflexivity.
  - reflexivity.
  - vm_compute. discriminate.
  - rewrite H. f_equal. f_equal. apply Hr; [reflexivity|reflexivity|discriminate|reflexivity|reflexivity|].
    vm_compute. reflexivity.
Defined.

Definition empty_catalogue (c : db) : catalogue := MkCatalogue c ∅ ∅ ∅ ∅ ∅ ∅ ∅ ∅ ∅ ∅ ∅ ∅ ∅ ∅ ∅ ∅ ∅.
Definition demo_gateway : gateway := MkGateway (empty_catalogue demo_armed) NewOutboundRegistry.
Definition demo_server : GRPCServer :=
  MkServer (fun _ => Ok demo_peer) (Some demo_authorizer) (Some (MkReceiver true 4096)) true.
Definition demo_turn (r : res Frame) : turn := MkTurn id 12 r None.
Definition demo_status : Envelope :=
  MkEnvelope "host-1" 2 StreamHeartbeat "health/1" "kim.health/v1" "health" 1 0 (sha256_hex "ok") "" "ok".
Definition demo_script : list turn :=
  [demo_turn (Ok (Some (Frame_Envelope (EnvelopeToProto demo_status)))); demo_turn (Err io_EOF)].
Definition demo_connection : gateway * list action * progress :=
  Connect (fun _ => ""%string) (fun _ => None) (fun _ => Err (errors_New "unused")) demo_server (MkCall None []) (Ok tt) Answered
    (demo_turn (Ok (Some (Frame_Hello (HelloToProto (demo_handshake 2 "attempt-2")))))) id (fun _ => Ok tt)
    demo_script demo_gateway.

Definition sent_frames (actions : list action) : list string :=
  (fun x => match x with
            | Sent (Frame_Accepted a) _ => ac_SessionAttemptId a
            | Sent (Frame_Receipt r) _ => mr_MessageId r ++ mr_Disposition r
            | Sent _ _ => "?"
            | Committed e _ => "commit " ++ MessageID e
            end)%string <$> actions.
Lemma demo_connection_sends : sent_frames (snd (fst demo_connection)) = ["attempt-2"; "commit health/1"; "health/1ACCEPTED"]%string
  /\ snd demo_connection = Returned None.
Proof. vm_compute. split; reflexivity. Qed.

Lemma triple_eta {A B C} (x : A * B * C) : x = (fst (fst x), snd (fst x), snd x).
Proof. by destruct x as [[a b] c]. Qed.

Lemma connection_serves_its_grant_witness : exists more hello a g,
  snd (fst demo_connection) = Sent (Frame_Accepted a) None :: more
  /\ serves (fun _ => ""%string) (fun _ => None) (fun _ => Err (errors_New "unused")) demo_server
       (he_ConnectionInstanceId hello) a (fun _ => Ok tt) demo_script g more (fst (fst demo_connection)) (snd demo_connection).
Proof.
  pose proof demo_connection_sends as [H _].
  destruct (connection_serves_its_grant _ _ _ _ _ _ _ _ _ _ _ _ _ _ _ (triple_eta demo_connection))
    as [[E _]|(hello & peer & au & d & answer & _ & _ & _ & _ & Hs)].
  - rewrite E in H. discriminate H.
  - destruct answer as [a|rejected]; cbn [send_error demo_turn] in Hs.
    + destruct Hs as (more & E & Hserves). exists more, hello, a. eexists. split; [exact E|exact Hserves].
    + destruct Hs as (_ & E & _). rewrite E in H. discriminate H.
Defined.
