(* ===== verification/OvnPlan.v ===== *)
(** * network/ovnadapter: typed plans and what an observation of them means

    network.go and the parts of contract.go it shares: the plan of a Logical
    Switch, its canonical JSON and digest, how a stored plan is restored, the
    ownership markers it puts on the backend object, and the state an
    observation stands for.  A Go map of strings is a [gmap], whose members
    [json.Marshal] writes in the order of their keys; a nil map is written as
    an empty one here, and a plan with either is refused alike. *)

From S2P Require Import Prelude GoStd GoJson GoTime JsonOrder Northbound.
Local Open Scope Z_scope.
Local Open Scope go_scope.

(** ** Markers *)

Abbreviation markers := (gmap string string).

(** [observed[key]] *)
Definition marker (m : markers) (key : string) : string := default ""%string (m !! key).

(** The members of a map, in the order of the keys *)
Definition sorted_items (m : markers) : list (string * string) :=
  sort_Slice (less_on String.ltb fst) (map_to_list m).
Definition markers_json (m : markers) : json := JObj ((fun kv => (fst kv, JStr (snd kv))) <$> sorted_items m).

(** Decoding into a [map[string]string]; a [null] value is the empty string. *)
Definition text_value (j : json) : option string :=
  match j with JStr s => Some s | JNull => Some ""%string | _ => None end.
Definition text_members (ms : list (string * json)) : option (list (string * string)) :=
  mapM (fun m => pair (fst m) <$> text_value (snd m)) ms.
Definition store_markers {R} (get : R -> markers) (set : markers -> R -> R) (j : json) (r : R) : option R :=
  match j with
  | JObj ms =>
      match text_members ms with
      | Some kvs => Some (set (fold_left (fun acc kv => <[fst kv := snd kv]> acc) kvs (get r)) r)
      | None => None
      end
  | JNull => Some (set ∅ r)
  | _ => None
  end.
Definition markers_field {R} (name : string) (get : R -> markers) (set : markers -> R -> R) : field R :=
  (name, store_markers get set).

(** [markerAssignments]: the arguments that set the markers on an object *)
Definition markerAssignments (m : markers) (objectSetDigest : string) : list string :=
  ((fun kv => "external_ids:" ++ fst kv ++ "=" ++ snd kv)%string <$> sorted_items m)
  ++ (if objectSetDigest !=s "" then ["external_ids:kim.object_set_digest=" ++ objectSetDigest]%string else []).

(** [markersPresent] *)
Definition markersPresent (observed m : markers) (objectSetDigest : string) : bool :=
  forallb (fun kv => marker observed (fst kv) ==s snd kv) (map_to_list m)
  && ((objectSetDigest ==s "") || (marker observed "kim.object_set_digest" ==s objectSetDigest)).

(** [objectName] *)
Definition objectName (prefix identity : string) : string := prefix ++ "-" ++ sha256_hex8 identity.

(** [safeOVNAtom]: [^[A-Za-z0-9_.:/-]{1,256}$] *)
Definition atom_char (c : ascii) : bool :=
  let b := byte_of c in
  ((48 <=? b) && (b <=? 57)) || ((65 <=? b) && (b <=? 90)) || ((97 <=? b) && (b <=? 122)) || one_of "_.:/-" c.
Definition safeOVNAtom (s : string) : bool :=
  (1 <=? len s) && (len s <=? 256) && forallb atom_char (list_ascii_of_string s).

(** ** Plans of a Network *)

Definition NetworkIntentSchema : string := "kim.network-intent.ovn-network/v1".

Record NetworkIntentInput := MkNetworkIntent {
  in_OperationID : string; in_ProjectID : string; in_NetworkID : string; in_AllocationID : string;
  in_SegmentType : string; in_OperationGeneration : Z; in_AuthorityRevision : Z; in_BackendRevision : Z;
  in_AllocationGeneration : Z; in_RealizationGeneration : Z; in_SegmentID : Z; in_DesiredState : string;
}.

Record NetworkPlan := MkNetworkPlan {
  np_SchemaVersion : string; np_OperationID : string; np_OperationGeneration : Z; np_ProjectID : string;
  np_NetworkID : string; np_AuthorityRevision : Z; np_BackendRevision : Z; np_AllocationID : string;
  np_AllocationGeneration : Z; np_RealizationGeneration : Z; np_SegmentType : string; np_SegmentID : Z;
  np_DesiredState : string; np_LogicalSwitchName : string; np_ExpectedExternalIDs : markers;
}.
#[export] Instance network_plan_eta : Eta NetworkPlan := fun p =>
  MkNetworkPlan (np_SchemaVersion p) (np_OperationID p) (np_OperationGeneration p) (np_ProjectID p) (np_NetworkID p)
    (np_AuthorityRevision p) (np_BackendRevision p) (np_AllocationID p) (np_AllocationGeneration p)
    (np_RealizationGeneration p) (np_SegmentType p) (np_SegmentID p) (np_DesiredState p) (np_LogicalSwitchName p)
    (np_ExpectedExternalIDs p).

Record NetworkObservation := MkNetworkObservation {
  LogicalSwitchPresent : bool; OwnershipMarkerMatches : bool; PlanDigestMatches : bool;
  no_LogicalSwitchName : string; BackendUUID : string;
}.

(** [NetworkObservation.State] *)
Definition State (o : NetworkObservation) (desired : string) : string :=
  if desired ==s "ABSENT" then
    if negb (LogicalSwitchPresent o) then "ABSENT"
    else if OwnershipMarkerMatches o && PlanDigestMatches o then "UNKNOWN"
    else "CONFLICTING"
  else if LogicalSwitchPresent o && OwnershipMarkerMatches o && PlanDigestMatches o then "VERIFIED"
  else if LogicalSwitchPresent o && (negb (OwnershipMarkerMatches o) || negb (PlanDigestMatches o)) then "CONFLICTING"
  else "UNKNOWN".

(** [json.Marshal] of a plan, and decoding into one *)
Definition network_plan_json (p : NetworkPlan) : json :=
  JObj
    [("schema_version", JStr (np_SchemaVersion p)); ("operation_id", JStr (np_OperationID p));
     ("operation_generation", JUint (np_OperationGeneration p)); ("project_id", JStr (np_ProjectID p));
     ("network_id", JStr (np_NetworkID p)); ("authority_revision", JUint (np_AuthorityRevision p));
     ("backend_revision", JUint (np_BackendRevision p)); ("allocation_id", JStr (np_AllocationID p));
     ("allocation_generation", JUint (np_AllocationGeneration p));
     ("realization_generation", JUint (np_RealizationGeneration p)); ("segment_type", JStr (np_SegmentType p));
     ("segment_id", JUint (np_SegmentID p)); ("desired_state", JStr (np_DesiredState p));
     ("logical_switch_name", JStr (np_LogicalSwitchName p));
     ("expected_external_ids", markers_json (np_ExpectedExternalIDs p))]%string.

(** A [uint32] member: a literal out of its range is a type error. *)
Definition uint32_field {R} (name : string) (set : Z -> R -> R) : field R :=
  (name, fun j r =>
     match j with
     | JNum lit => match ParseUint lit with Some z => if z <? 4294967296 then Some (set z r) else None | None => None end
     | JNull => Some r
     | _ => None
     end).

Definition network_plan_fields : list (field NetworkPlan) :=
  [string_field "schema_version" (fun s p => p <| np_SchemaVersion := s |>);
   string_field "operation_id" (fun s p => p <| np_OperationID := s |>);
   uint_field "operation_generation" (fun z p => p <| np_OperationGeneration := z |>);
   string_field "project_id" (fun s p => p <| np_ProjectID := s |>);
   string_field "network_id" (fun s p => p <| np_NetworkID := s |>);
   uint_field "authority_revision" (fun z p => p <| np_AuthorityRevision := z |>);
   uint_field "backend_revision" (fun z p => p <| np_BackendRevision := z |>);
   string_field "allocation_id" (fun s p => p <| np_AllocationID := s |>);
   uint_field "allocation_generation" (fun z p => p <| np_AllocationGeneration := z |>);
   uint_field "realization_generation" (fun z p => p <| np_RealizationGeneration := z |>);
   string_field "segment_type" (fun s p => p <| np_SegmentType := s |>);
   uint32_field "segment_id" (fun z p => p <| np_SegmentID := z |>);
   string_field "desired_state" (fun s p => p <| np_DesiredState := s |>);
   string_field "logical_switch_name" (fun s p => p <| np_LogicalSwitchName := s |>);
   markers_field "expected_external_ids" np_ExpectedExternalIDs (fun m p => p <| np_ExpectedExternalIDs := m |>)].
Definition zero_network_plan : NetworkPlan := MkNetworkPlan "" "" 0 "" "" 0 0 "" 0 0 "" 0 "" "" ∅.

(** The markers of a plan *)
Definition network_markers (i : NetworkIntentInput) : markers :=
  list_to_map
    [("kim.owner", "KIM"); ("kim.aggregate_type", "NETWORK"); ("kim.project_id", in_ProjectID i);
     ("kim.network_id", in_NetworkID i); ("kim.network_revision", FormatUint (in_BackendRevision i));
     ("kim.network_generation", FormatUint (in_BackendRevision i)); ("kim.allocation_id", in_AllocationID i);
     ("kim.allocation_generation", FormatUint (in_AllocationGeneration i));
     ("kim.realization_generation", FormatUint (in_RealizationGeneration i));
     ("kim.segment_type", in_SegmentType i); ("kim.segment_id", FormatUint (in_SegmentID i))]%string.

Definition network_plan (i : NetworkIntentInput) : NetworkPlan :=
  MkNetworkPlan NetworkIntentSchema (in_OperationID i) (in_OperationGeneration i) (in_ProjectID i) (in_NetworkID i)
    (in_AuthorityRevision i) (in_BackendRevision i) (in_AllocationID i) (in_AllocationGeneration i)
    (in_RealizationGeneration i) (in_SegmentType i) (in_SegmentID i) (in_DesiredState i)
    (objectName "kim-ls" (in_NetworkID i)) (network_markers i).

(** [PlanNetwork]: the canonical bytes of the plan and their digest *)
Definition PlanNetwork (i : NetworkIntentInput) : res (bytes * string) :=
  fail_if ((in_OperationID i ==s "") || (in_ProjectID i ==s "") || (in_NetworkID i ==s "") || (in_AllocationID i ==s "")
           || (in_OperationGeneration i =? 0) || (in_AuthorityRevision i =? 0) || (in_BackendRevision i =? 0)
           || (in_AllocationGeneration i =? 0) || (in_RealizationGeneration i =? 0) || (in_SegmentID i =? 0)
           || ((in_SegmentType i !=s "VNI") && (in_SegmentType i !=s "VLAN"))
           || ((in_DesiredState i !=s "PRESENT") && (in_DesiredState i !=s "ABSENT")))
    (errors_New "complete typed OVN Network intent is required");;
  let raw := marshal (network_plan_json (network_plan i)) in
  Ok (raw, sha256_hex raw).

(** What a restored plan is checked for *)
Definition network_plan_valid (p : NetworkPlan) : bool :=
  negb ((np_SchemaVersion p !=s NetworkIntentSchema) || (np_OperationID p ==s "") || (np_OperationGeneration p =? 0)
        || (np_ProjectID p ==s "") || (np_NetworkID p ==s "") || (np_AuthorityRevision p =? 0)
        || (np_BackendRevision p =? 0) || (np_AllocationID p ==s "") || (np_AllocationGeneration p =? 0)
        || (np_RealizationGeneration p =? 0) || (np_SegmentID p =? 0)
        || ((np_SegmentType p !=s "VNI") && (np_SegmentType p !=s "VLAN"))
        || ((np_DesiredState p !=s "PRESENT") && (np_DesiredState p !=s "ABSENT"))
        || (np_LogicalSwitchName p !=s objectName "kim-ls" (np_NetworkID p))
        || (marker (np_ExpectedExternalIDs p) "kim.owner" !=s "KIM")
        || (marker (np_ExpectedExternalIDs p) "kim.network_id" !=s np_NetworkID p)
        || (marker (np_ExpectedExternalIDs p) "kim.network_revision" !=s FormatUint (np_BackendRevision p))
        || (marker (np_ExpectedExternalIDs p) "kim.allocation_generation" !=s FormatUint (np_AllocationGeneration p))).

(** [RestoreStoredNetworkPlan]: a typed decode of stored bytes, accepted only
    when its canonical bytes have the digest the plan was stored with *)
Definition RestoreStoredNetworkPlan (raw : bytes) (expectedDigest : string) : res (bytes * NetworkPlan) :=
  match decode_value raw with
  | Some (j, rest) =>
      match decode_struct true network_plan_fields j zero_network_plan with
      | Some plan =>
          fail_if (negb (at_EOF rest)) (errors_New "OVN Network plan contains trailing data");;
          let canonical := marshal (network_plan_json plan) in
          fail_if ((sha256_hex canonical !=s expectedDigest) || negb (network_plan_valid plan))
            (errors_New "invalid stored OVN Network plan");;
          Ok (canonical, plan)
      | None => Err (errors_New "json: cannot decode OVN Network plan")
      end
  | None => Err (errors_New "json: cannot decode OVN Network plan")
  end.

(** [sameNetworkIncarnation] *)
Definition sameNetworkIncarnation (m : markers) (p : NetworkPlan) : bool :=
  (marker m "kim.owner" ==s "KIM") && (marker m "kim.aggregate_type" ==s "NETWORK")
  && (marker m "kim.project_id" ==s np_ProjectID p) && (marker m "kim.network_id" ==s np_NetworkID p)
  && (marker m "kim.allocation_id" ==s np_AllocationID p)
  && (marker m "kim.allocation_generation" ==s FormatUint (np_AllocationGeneration p))
  && (marker m "kim.segment_type" ==s np_SegmentType p)
  && (marker m "kim.segment_id" ==s FormatUint (np_SegmentID p)).

(** ** Maps and their members *)

Lemma sorted_items_perm m : sorted_items m ≡ₚ map_to_list m.
Proof. apply sort_perm. Qed.
Lemma sorted_items_keys m : NoDup (fst <$> sorted_items m).
Proof. rewrite sorted_items_perm. apply NoDup_fst_map_to_list. Qed.

Lemma fold_insert (kvs : list (string * string)) : forall acc : markers, NoDup (fst <$> kvs) ->
  fold_left (fun acc kv => <[fst kv := snd kv]> acc) kvs acc = list_to_map kvs ∪ acc.
Proof.
  induction kvs as [|[k v] kvs IH]; intros acc Hnd; cbn [fold_left].
  { symmetry. apply (left_id_L ∅ (∪)). }
  rewrite fmap_cons in Hnd. apply NoDup_cons in Hnd as [Hk Hnd]. rewrite IH by done. cbn.
  rewrite <- insert_union_l, insert_union_r; [done|]. by apply not_elem_of_list_to_map_1.
Qed.

Lemma text_members_texts (kvs : list (string * string)) :
  text_members ((fun kv => (fst kv, JStr (snd kv))) <$> kvs) = Some kvs.
Proof. unfold text_members. induction kvs as [|[k v] kvs IH]; [done|]. cbn. by rewrite IH. Qed.

(** Members that are texts, in any order, give the same map. *)
Lemma store_texts {R} (get : R -> markers) set kvs m r : NoDup (fst <$> kvs) -> kvs ≡ₚ map_to_list m ->
  store_markers get set (JObj ((fun kv => (fst kv, JStr (snd kv))) <$> kvs)) r = Some (set (m ∪ get r) r).
Proof.
  intros Hnd Hp. cbn [store_markers]. rewrite text_members_texts. rewrite fold_insert by done.
  by rewrite (list_to_map_proper _ _ Hnd Hp), list_to_map_to_list.
Qed.

(** ** A stored plan is restored *)

(** The integers of a plan are machine integers. *)
Definition plan_typed (p : NetworkPlan) : Prop :=
  is_u64 (np_OperationGeneration p) /\ is_u64 (np_AuthorityRevision p) /\ is_u64 (np_BackendRevision p)
  /\ is_u64 (np_AllocationGeneration p) /\ is_u64 (np_RealizationGeneration p) /\ 0 <= np_SegmentID p < 4294967296.

Lemma plan_fields_commute : commuting network_plan_fields.
Proof.
  repeat first [apply FOP_nil|apply FOP_cons; [repeat first [apply List.Forall_nil|apply List.Forall_cons]|]];
  intros j k r; unfold mbind, option_bind; destruct j; try reflexivity; destruct k;
  cbn -[ParseUint text_members]; repeat first [reflexivity|case_match; simplify_eq/=].
Qed.

(** The member of the markers, in any order, stores the same map. *)
Lemma markers_alike fields a b m : a = ("expected_external_ids"%string, markers_json m) ->
  (forall f, In f fields -> fst f = "expected_external_ids"%string ->
     f = markers_field "expected_external_ids" np_ExpectedExternalIDs (fun m p => p <| np_ExpectedExternalIDs := m |>)) ->
  fst a = fst b -> reordered (snd a) (snd b) -> stores_alike fields a b.
Proof.
  intros -> Hf E Hr. split; [done|]. intros f Hin Hn r. cbn in Hn. rewrite (Hf f Hin Hn). cbn [snd markers_field].
  inversion Hr as [|? ms' ns Hk Hv Hp Ej Eb]; subst; [done|]. cbn [snd].
  assert (ms' = (fun kv => (fst kv, JStr (snd kv))) <$> sorted_items m) as ->.
  { clear -Hk Hv. revert ms' Hk Hv. induction (sorted_items m) as [|[k v] l IH]; intros [|[k' v'] ms'] Hk Hv; try done.
    cbn in Hk, Hv. injection Hk as -> Hk. apply Forall2_cons in Hv as [Hv Hvs].
    apply reordered_scalar in Hv; [|done]. subst v'. cbn. f_equal. by apply IH. }
  apply Permutation_sym, Permutation_map_inv in Hp as (kvs & -> & Hp).
  unfold markers_json. rewrite (store_texts _ _ (sorted_items m) m); [|apply sorted_items_keys|apply sorted_items_perm].
  symmetry. apply (store_texts np_ExpectedExternalIDs (fun m p => p <| np_ExpectedExternalIDs := m |>) kvs m r); [|by rewrite <- Hp, sorted_items_perm].
  rewrite <- Hp. apply sorted_items_keys.
Qed.

Lemma decode_network_plan p : plan_typed p ->
  decode_struct true network_plan_fields (network_plan_json p) zero_network_plan = Some p.
Proof.
  intros (? & ? & ? & ? & ? & Hs). destruct p. cbn in *. unfold network_plan_json, markers_json, JUint.
  cbn -[ParseUint FormatUint store_markers].
  repeat (rewrite ParseUint_FormatUint by (unfold is_u64, two64 in *; lia); cbn -[ParseUint FormatUint text_members]).
  rewrite (proj2 (Z.ltb_lt _ _)) by lia. rewrite text_members_texts.
  rewrite fold_insert by apply sorted_items_keys. cbn.
  rewrite (list_to_map_proper _ _ (sorted_items_keys _) (sorted_items_perm _)), list_to_map_to_list.
  by rewrite (right_id_L ∅ (∪)).
Qed.

(** The text that was stored, its members in any order *)
Definition same_value (stored raw : bytes) : Prop :=
  exists j j', unmarshal raw = Some j /\ unmarshal stored = Some j' /\ reordered j j'.

Lemma decode_reordered_plan p j : plan_typed p -> reordered (network_plan_json p) j ->
  decode_struct true network_plan_fields j zero_network_plan = Some p.
Proof.
  intros Ht Hr. rewrite <- (decode_network_plan p Ht). apply decode_reordered; [apply plan_fields_commute| |done|].
  - known_members.
  - intros a b Hin E Hab. cbn in Hin. repeat (destruct Hin as [<-|Hin]; [try (apply scalar_alike; done)|]); [|done].
    eapply markers_alike; [done| |done|done]. intros f Hf Hn. cbn in Hf.
    repeat (destruct Hf as [<-|Hf]; [first [done|discriminate Hn]|]). done.
Qed.

Lemma decode_of_unmarshal s j : unmarshal s = Some j -> exists rest, decode_value s = Some (j, rest) /\ at_EOF rest = true.
Proof.
  unfold unmarshal. destruct (decode_value s) as [[k rest]|]; [|done]. destruct (at_EOF rest) eqn:E; [|done].
  intros [= ->]. by eexists.
Qed.

(** A plan is restored from whatever text the database made of its bytes. *)
Lemma restore_stored_plan p stored : plan_typed p -> plain (network_plan_json p) -> network_plan_valid p = true ->
  same_value stored (marshal (network_plan_json p)) ->
  RestoreStoredNetworkPlan stored (sha256_hex (marshal (network_plan_json p)))
  = Ok (marshal (network_plan_json p), p).
Proof.
  intros Ht Hp Hv (j & j' & Hj & Hj' & Hr). rewrite unmarshal_marshal in Hj by done. injection Hj as <-.
  apply decode_of_unmarshal in Hj' as (rest & Hd & Heof). unfold RestoreStoredNetworkPlan. rewrite Hd.
  rewrite (decode_reordered_plan p j' Ht Hr), Heof. cbn. by rewrite String.eqb_refl, Hv.
Qed.

(** ** Words of a command line *)

(** A word of the characters of an atom, of any length *)
Definition plain_word (s : string) : bool := (s !=s "") && forallb atom_char (list_ascii_of_string s).

Lemma safe_plain_word s : safeOVNAtom s = true -> plain_word s = true.
Proof.
  unfold safeOVNAtom, plain_word. intros H. bools. destruct s; [done|]. cbn [String.eqb negb andb]. done.
Qed.

Lemma plain_word_ascii s : plain_word s = true -> ascii_text s.
Proof.
  unfold plain_word, ascii_text. intros H. bools.
  match goal with H : forallb _ _ = true |- _ => rename H into Hc end.
  apply List.Forall_forall. intros c Hin. rewrite forallb_forall in Hc. specialize (Hc c Hin).
  destruct c as [[] [] [] [] [] [] [] []]; first [reflexivity|discriminate Hc].
Qed.

Lemma chars_plain_word s : s <> ""%string -> Forall (fun c => atom_char c = true) (list_ascii_of_string s) -> plain_word s = true.
Proof.
  intros Hne Hc. unfold plain_word. rewrite (proj2 (String.eqb_neq s "") Hne). cbn. apply forallb_forall.
  intros c Hin. by apply (proj1 (List.Forall_forall _ _) Hc).
Qed.

Lemma uint_plain_word z : plain_word (FormatUint z) = true.
Proof.
  unfold FormatUint. destruct (to_uint_valid (Z.to_N z)) as [Hv Hd]. apply chars_plain_word.
  - intros E. rewrite E in Hv. discriminate Hv.
  - eapply Forall_impl; [exact Hd|]. intros c Hc. unfold atom_char. unfold is_digit, in_range in Hc. by rewrite Hc.
Qed.

Lemma hex_atom_char c : hex_char c -> atom_char c = true.
Proof.
  unfold hex_char, atom_char. intros H.
  destruct H as [H|H].
  - assert ((48 <=? byte_of c) && (byte_of c <=? 57) = true) as -> by lia. done.
  - assert ((97 <=? byte_of c) && (byte_of c <=? 122) = true) as -> by lia. by rewrite orb_true_r.
Qed.

Lemma sha256_plain_word s : plain_word (sha256_hex s) = true.
Proof.
  destruct (sha256_hex_head s) as (c & rest & E & _). apply chars_plain_word; [by rewrite E|].
  eapply Forall_impl; [apply sha256_hex_chars|apply hex_atom_char].
Qed.

Lemma sha256_hex8_chars s : Forall hex_char (list_ascii_of_string (sha256_hex8 s)).
Proof.
  with_strategy transparent [sha256_hex8] (unfold sha256_hex8). apply hex_of_bytes_chars, Forall_take, sum256_bytes.
Qed.
Lemma sha256_hex8_length s : len (sha256_hex8 s) = 16.
Proof. with_strategy transparent [sha256_hex8] reflexivity. Qed.

Lemma chars_app a b : list_ascii_of_string (a ++ b) = list_ascii_of_string a ++ list_ascii_of_string b.
Proof. induction a as [|c a IH]; [done|]. cbn [list_ascii_of_string app]. by rewrite <- IH. Qed.

Lemma object_name_safe identity : safeOVNAtom (objectName "kim-ls" identity) = true.
Proof.
  unfold safeOVNAtom, objectName. rewrite !len_app, sha256_hex8_length. rewrite !chars_app, !forallb_app.
  rewrite (proj2 (forallb_forall atom_char (list_ascii_of_string (sha256_hex8 identity)))); [done|].
  intros c Hin. apply hex_atom_char. by apply (proj1 (List.Forall_forall _ _) (sha256_hex8_chars identity)).
Qed.

(** ** The plan of an intent *)

(** An intent whose integers fit their types and whose identifiers are atoms *)
Record intent_ok (i : NetworkIntentInput) : Prop := MkIntentOk {
  io_operation : is_u64 (in_OperationGeneration i); io_authority : is_u64 (in_AuthorityRevision i);
  io_backend : is_u64 (in_BackendRevision i); io_allocation : is_u64 (in_AllocationGeneration i);
  io_realization : is_u64 (in_RealizationGeneration i); io_segment : 0 <= in_SegmentID i < 4294967296;
  io_atoms : forallb safeOVNAtom [in_OperationID i; in_ProjectID i; in_NetworkID i; in_AllocationID i] = true;
}.

Lemma intent_words i : intent_ok i ->
  plain_word (in_OperationID i) = true /\ plain_word (in_ProjectID i) = true /\ plain_word (in_NetworkID i) = true
  /\ plain_word (in_AllocationID i) = true.
Proof.
  intros [_ _ _ _ _ _ H]. cbn in H. bools. split_and!; by apply safe_plain_word.
Qed.

(** What [PlanNetwork] checks of the types and states *)
Lemma planned_network i raw digest : PlanNetwork i = Ok (raw, digest) ->
  raw = marshal (network_plan_json (network_plan i)) /\ digest = sha256_hex raw
  /\ network_plan_valid (network_plan i) = true
  /\ (in_SegmentType i = "VNI"%string \/ in_SegmentType i = "VLAN"%string)
  /\ (in_DesiredState i = "PRESENT"%string \/ in_DesiredState i = "ABSENT"%string).
Proof.
  unfold PlanNetwork. intros H. apply bind_Ok_inv in H as ([] & H & Hr). apply fail_if_Ok_inv in H.
  injection Hr as <- <-. split; [done|]. split; [done|].
  assert ((in_SegmentType i = "VNI"%string \/ in_SegmentType i = "VLAN"%string)
    /\ (in_DesiredState i = "PRESENT"%string \/ in_DesiredState i = "ABSENT"%string)) as [Ht Hd].
  { repeat (apply orb_false_elim in H as [H ?]). repeat match goal with H : _ && _ = false |- _ => apply andb_false_iff in H end.
    split.
    - match goal with H : (in_SegmentType _ !=s _)%go = false \/ _ |- _ => destruct H; bools; auto end.
    - match goal with H : (in_DesiredState _ !=s _)%go = false \/ _ |- _ => destruct H; bools; auto end. }
  split; [|done]. unfold network_plan_valid. apply negb_true_iff. destruct i. cbn in *.
  unfold network_markers. cbn. unfold marker.
  rewrite !String.eqb_refl. cbn. rewrite !orb_false_r. rewrite !orb_false_iff in *. tauto.
Qed.

Lemma network_marker_words i k v : intent_ok i -> (in_SegmentType i = "VNI"%string \/ in_SegmentType i = "VLAN"%string) ->
  network_markers i !! k = Some v -> k <> "kim.object_set_digest"%string /\ plain_word k = true /\ plain_word v = true
    /\ forallb (fun c => negb (one_of ":/" c)) (list_ascii_of_string k) = true.
Proof.
  intros Hok Ht H. pose proof (intent_words i Hok) as (? & ? & ? & ?).
  apply elem_of_list_to_map_2 in H.
  repeat (apply elem_of_cons in H as [H|H];
    [injection H as -> ->; split_and!; [done|done|first [done|apply uint_plain_word|idtac]|done];
     destruct Ht as [-> | ->]; done|]).
  by apply elem_of_nil in H.
Qed.
