(* ===== verification/OvnRuntime.v ===== *)
(** * network/ovnadapter: network.go over ovn-nbctl

    runtime.go's configuration, the arguments of a command and the reading of
    its output, and [reconcileNetwork].  ovn-nbctl is a parameter: a function
    of its name, its arguments and the state of the northbound database to that
    state afterwards and what [CommandRunner.Run] returns.  What the adapter
    relies on is the class [OvnNorthbound]. *)

From S2P Require Import Prelude GoStd GoJson GoTime JsonOrder Northbound RecordDir OvnPlan.
Local Open Scope Z_scope.
Local Open Scope go_scope.

Definition ErrForeignOVNObject : goerr := errors_New "foreign or conflicting OVN object".

Record RuntimeConfig := MkRuntimeConfig {
  NBDatabase : string; SBDatabase : string; NBCTL : string; SBCTL : string; OVSCTL : string;
  PrivateKeyPath : string; CertificatePath : string; CACertPath : string; CommandTimeout : Z;
}.

(** [filepath.IsAbs], [filepath.Base] *)
Definition is_slash (c : ascii) : bool := (c =? "/")%char.
Definition IsAbs (path : string) : bool := HasPrefix path "/".
Definition filepath_Base (path : string) : string :=
  if path ==s "" then "." else
  let stripped := snd (span is_slash (rev (list_ascii_of_string path))) in
  match fst (span (fun c => negb (is_slash c)) stripped) with
  | [] => "/"
  | last => string_of_list_ascii (rev last)
  end.

(** [RuntimeConfig.validate] *)
Definition database_ok (database : string) : bool := HasPrefix database "unix:" || HasPrefix database "ssl:".
Definition validate (c : RuntimeConfig) : res unit :=
  fail_if ((NBCTL c ==s "") || (SBCTL c ==s "") || (CommandTimeout c <? 1000000000) || (120000000000 <? CommandTimeout c))
    (errors_New "bounded OVN runtime command configuration is required");;
  fail_if (negb (IsAbs (NBCTL c)) || negb (IsAbs (SBCTL c)) || (filepath_Base (NBCTL c) !=s "ovn-nbctl")
           || (filepath_Base (SBCTL c) !=s "ovn-sbctl"))
    (errors_New "only standard ovn-nbctl/ovn-sbctl executables are allowed");;
  fail_if (negb (database_ok (NBDatabase c)) || negb (database_ok (SBDatabase c)))
    (errors_New "OVN database endpoint must use unix or ssl transport");;
  fail_if ((HasPrefix (NBDatabase c) "ssl:" || HasPrefix (SBDatabase c) "ssl:")
           && ((PrivateKeyPath c ==s "") || (CertificatePath c ==s "") || (CACertPath c ==s "")))
    (errors_New "OVN ssl endpoint requires private key, certificate, and CA paths").

(** [globalArgs], [withGlobal] *)
Definition globalArgs (c : RuntimeConfig) (database : string) : list string :=
  ["--db=" ++ database; "--timeout=" ++ FormatInt (Z.quot (CommandTimeout c) 1000000000)]%string
  ++ (if HasPrefix database "ssl:" then
        ["--private-key=" ++ PrivateKeyPath c; "--certificate=" ++ CertificatePath c; "--ca-cert=" ++ CACertPath c]%string
      else []).
Definition withGlobal (global arguments : list string) : list string := global ++ arguments.

(** [parseExternalIDs]: the markers of the only row, and whether there is one *)
Definition ambiguous_table : goerr := errors_New "OVN ownership query returned an ambiguous object set".
Definition invalid_encoding : goerr := errors_New "invalid OVN external_ids encoding".
Definition cannot_decode : goerr := errors_New "cannot unmarshal JSON".
Definition slice_of (j : json) : option (list json) :=
  match j with JArr els => Some els | JNull => Some [] | _ => None end.
Definition table_field : field (list (list json)) :=
  ("data"%string, fun j r => rows ← slice_of j; mapM slice_of rows).
Definition pair_of (j : json) : option (list string) := els ← slice_of j; mapM text_value els.
Fixpoint add_pairs (pairs : list (list string)) (m : markers) : res markers :=
  match pairs with
  | [] => Ok m
  | [k; v] :: pairs =>
      fail_if (bool_decide (is_Some (m !! k))) (errors_New "duplicate OVN external_ids key");;
      add_pairs pairs (<[k := v]> m)
  | _ => Err (errors_New "invalid OVN external_ids pair")
  end.
Definition parseExternalIDs (raw : bytes) : res (markers * bool) :=
  match unmarshal raw ≫= (fun j => decode_struct false [table_field] j []) with
  | None => Err cannot_decode
  | Some [] => Ok (∅, false)
  | Some [[encoded]] =>
      match slice_of encoded with
      | Some [kind; pairs] =>
          fail_if (negb (bool_decide (text_value kind = Some "map"%string)))
            (errors_New "invalid OVN external_ids map kind");;
          match slice_of pairs ≫= mapM pair_of with
          | None => Err cannot_decode
          | Some pairs => m ← add_pairs pairs ∅; Ok (m, true)
          end
      | _ => Err invalid_encoding
      end
  | Some _ => Err ambiguous_table
  end.

(** [strings.Trim], [normalizeOVSReference], [digestText] *)
Definition Trim (s cutset : string) : string :=
  let outer l := snd (span (fun c => one_of cutset c) l) in
  string_of_list_ascii (rev (outer (rev (outer (list_ascii_of_string s))))).
Definition reference_cutset : string := "[] " ++ string_of_list_ascii [quote] ++ of_bytes [10; 9].
Definition normalizeOVSReference (raw : string) : string :=
  let value := Trim (TrimSpace raw) reference_cutset in
  if (value ==s "") || (value ==s "[]") then "" else value.
Definition digestText (value : string) : string := sha256_hex value.

(** What [reconcileNetwork] sets of a [RuntimeResult] *)
Record RuntimeResult := MkRuntimeResult {
  rr_NetworkObservation : NetworkObservation; ApplyResponseState : string; NBObservationDigest : string;
  SBObservationDigest : string;
}.

(** ** Commands *)

(** A computation over the northbound database; an error does not undo what
    was done before. *)
Definition io (nb A : Type) : Type := nb -> nb * res A.
#[export] Instance io_mret nb : MRet (io nb) := fun _ a s => (s, Ok a).
#[export] Instance io_mbind nb : MBind (io nb) := fun _ _ f m s =>
  match m s with (s, Ok a) => f a s | (s, Err e) => (s, Err e) end.
Definition lift {nb A} (r : res A) : io nb A := fun s => (s, r).
(** [if err := ...; err != nil] of a call whose error is looked at *)
Definition attempt {nb A} (m : io nb A) : io nb (res A) := fun s => let '(s, r) := m s in (s, Ok r).

Section Adapter.
Context {nb : Type} (Run : string -> list string -> nb -> nb * res bytes).

Definition run (c : RuntimeConfig) (arguments : list string) : io nb bytes :=
  Run (NBCTL c) (withGlobal (globalArgs c (NBDatabase c)) arguments).

Definition find_markers (name : string) : list string :=
  ["--format=json"; "--columns=external_ids"; "find"; "Logical_Switch"; "name=" ++ name]%string.
Definition find_uuid (name : string) : list string :=
  ["--data=bare"; "--no-heading"; "--columns=_uuid"; "find"; "Logical_Switch"; "name=" ++ name]%string.
Definition add_switch (name : string) (m : markers) (digest : string) : list string :=
  ["--may-exist"; "ls-add"; name; "--"; "set"; "Logical_Switch"; name]%string ++ markerAssignments m digest.
Definition delete_switch (name : string) : list string := ["--if-exists"; "ls-del"; name]%string.

(** The closure [read]: markers, presence, digest of the text, UUID *)
Definition read_switch (c : RuntimeConfig) (name : string) : io nb (markers * bool * string * string) :=
  raw ← run c (find_markers name);
  '(m, present) ← lift (parseExternalIDs raw);
  if negb present then mret (m, false, digestText raw, ""%string) else
  uuid ← run c (find_uuid name);
  mret (m, true, digestText raw, normalizeOVSReference uuid).

(** The command that applies a plan, and what is known of its response *)
Definition apply_network (c : RuntimeConfig) (plan : NetworkPlan) (planDigest : string) (present : bool) : io nb string :=
  let command :=
    if np_DesiredState plan ==s "PRESENT"
    then Some (add_switch (np_LogicalSwitchName plan) (np_ExpectedExternalIDs plan) planDigest)
    else if present then Some (delete_switch (np_LogicalSwitchName plan)) else None in
  match command with
  | None => mret "RECEIVED"%string
  | Some arguments =>
      r ← attempt (run c arguments);
      mret (if is_Ok r then "RECEIVED" else "LOST")%string
  end.

(** [reconcileNetwork] *)
Definition observation_of (plan : NetworkPlan) (planDigest : string) (after : markers) (present : bool) (uuid : string) :
    NetworkObservation :=
  MkNetworkObservation present (markersPresent after (np_ExpectedExternalIDs plan) planDigest)
    (marker after "kim.object_set_digest" ==s planDigest) (np_LogicalSwitchName plan) uuid.
Definition reconcileNetwork (c : RuntimeConfig) (canonicalPlan : bytes) (planDigest : string) (apply : bool) :
    io nb RuntimeResult :=
  lift (validate c);;
  '(_, plan) ← lift (RestoreStoredNetworkPlan canonicalPlan planDigest);
  lift (fail_if (negb (forallb safeOVNAtom [np_OperationID plan; np_ProjectID plan; np_NetworkID plan;
                                             np_AllocationID plan; np_LogicalSwitchName plan]))
          (errors_New "OVN Network plan contains an unsafe atom"));;
  '(before, present, _, _) ← read_switch c (np_LogicalSwitchName plan);
  lift (fail_if (present && negb (sameNetworkIncarnation before plan)) ErrForeignOVNObject);;
  response ← (if apply then apply_network c plan planDigest present else mret "UNKNOWN"%string);
  '(after, afterPresent, observationDigest, backendUUID) ← read_switch c (np_LogicalSwitchName plan);
  mret (MkRuntimeResult (observation_of plan planDigest after afterPresent backendUUID) response observationDigest
          (digestText ("network:" ++ np_NetworkID plan))).

(** [ReconcileNetwork], [ObserveNetwork] *)
Definition ReconcileNetwork (c : RuntimeConfig) (canonicalPlan : bytes) (digest : string) : io nb RuntimeResult :=
  reconcileNetwork c canonicalPlan digest true.
Definition ObserveNetwork (c : RuntimeConfig) (canonicalPlan : bytes) (digest : string) : io nb RuntimeResult :=
  reconcileNetwork c canonicalPlan digest false.
End Adapter.

(** ** What ovn-nbctl does *)

(** A word that ovn-nbctl takes as it is: a key of a map, and a value *)
Definition key_char (c : ascii) : bool := atom_char c && negb (one_of ":/" c).
Definition plain_key (s : string) : bool := (s !=s "") && forallb key_char (list_ascii_of_string s).
Definition assignable (m : markers) (digest : string) : Prop :=
  (forall k v, m !! k = Some v -> plain_key k = true /\ plain_word v = true) /\ plain_word digest = true.

(** The external_ids after an assignment of markers *)
Definition marked (m : markers) (digest : string) (old : markers) : markers :=
  (if digest ==s "" then ∅ else {["kim.object_set_digest"%string := digest]}) ∪ m ∪ old.

(** The table [--format=json] writes for the rows that match *)
Definition pair_json (kv : string * string) : json := JArr [JStr (fst kv); JStr (snd kv)].
Definition table_rows (kvs : option (list (string * string))) : list json :=
  match kvs with None => [] | Some kvs => [JArr [JArr [JStr "map"; JArr (pair_json <$> kvs)]]] end.
Definition is_table (o : option markers) (j : json) : Prop :=
  exists headings kvs ms, j = JObj ms /\ ms ≡ₚ [("data", JArr (table_rows kvs)); ("headings", headings)]%string
    /\ match o, kvs with
       | None, None => True
       | Some m, Some kvs => kvs ≡ₚ map_to_list m
       | _, _ => False
       end.

(** Logical switches by name, which [ls-add --may-exist] keeps unique, with
    their external_ids; a query changes nothing, a change is one transaction,
    made or not made when no response came, made when one came. *)
Class OvnNorthbound {nb} (Run : string -> list string -> nb -> nb * res bytes) (switches : nb -> gmap string markers) :
    Prop := {
  find_markers_reads c name s s' r : run Run c (find_markers name) s = (s', r) -> switches s' = switches s;
  find_markers_table c name s s' raw : run Run c (find_markers name) s = (s', Ok raw) ->
    exists j, unmarshal raw = Some j /\ is_table (switches s !! name) j;
  find_uuid_reads c name s s' r : run Run c (find_uuid name) s = (s', r) -> switches s' = switches s;
  add_switch_sets c name m digest s s' r : assignable m digest -> run Run c (add_switch name m digest) s = (s', r) ->
    switches s' = <[name := marked m digest (default ∅ (switches s !! name))]> (switches s)
    \/ is_Ok r = false /\ switches s' = switches s;
  delete_switch_deletes c name s s' r : run Run c (delete_switch name) s = (s', r) ->
    switches s' = delete name (switches s) \/ is_Ok r = false /\ switches s' = switches s;
}.

(** ** Reading the table *)

Lemma add_pairs_insert kvs : forall m : markers, NoDup (fst <$> kvs) -> (forall k, k ∈ fst <$> kvs -> m !! k = None) ->
  add_pairs ((fun kv => [fst kv; snd kv]) <$> kvs) m = Ok (list_to_map kvs ∪ m).
Proof.
  induction kvs as [|[k v] kvs IH]; intros m Hnd Hm; cbn [add_pairs fmap list_fmap fst snd].
  { f_equal. symmetry. apply (left_id_L (∅ : markers) (∪)). }
  rewrite fmap_cons in Hnd, Hm. apply NoDup_cons in Hnd as [Hk Hnd]. cbn in Hm.
  rewrite bool_decide_eq_false_2 by (rewrite (Hm k) by (by left); by intros [? ?]). cbn [fail_if mbind res_bind].
  rewrite IH; [|done|].
  - f_equal. cbn. rewrite <- insert_union_l, insert_union_r; [done|]. by apply not_elem_of_list_to_map_1.
  - intros k' Hk'. rewrite lookup_insert_ne by (intros ->; done). apply Hm. by right.
Qed.

Lemma pairs_of_json kvs : mapM pair_of (pair_json <$> kvs) = Some ((fun kv => [fst kv; snd kv]) <$> kvs).
Proof. induction kvs as [|[k v] kvs IH]; [done|]. cbn. by rewrite IH. Qed.

Lemma parse_table o raw j : unmarshal raw = Some j -> is_table o j ->
  parseExternalIDs raw = Ok (default ∅ o, bool_decide (is_Some o)).
Proof.
  intros Hu (h & kvs & ms & -> & Hp & Ho). unfold parseExternalIDs. rewrite Hu. cbn [mbind option_bind].
  assert (decode_struct false [table_field] (JObj ms) [] = mapM slice_of (table_rows kvs)) as ->.
  { apply Permutation_sym, Permutation_length_2_inv in Hp as [-> | ->].
    - cbn -[mapM]. by destruct (mapM slice_of _).
    - cbn -[mapM]. by destruct (mapM slice_of _). }
  destruct o as [m|], kvs as [kvs|]; try done. cbn. rewrite pairs_of_json. cbn.
  assert (NoDup (fst <$> kvs)) as Hnd by (rewrite Ho; apply NoDup_fst_map_to_list).
  rewrite add_pairs_insert by done. cbn.
  by rewrite (right_id_L ∅ (∪)), (list_to_map_proper _ _ Hnd Ho), list_to_map_to_list.
Qed.

(** ** Reconciling *)

Lemma io_bind_inv {nb A B} (m : io nb A) (f : A -> io nb B) s s' r : (m ≫= f) s = (s', r) ->
  (exists e, m s = (s', Err e) /\ r = Err e) \/ exists a s1, m s = (s1, Ok a) /\ f a s1 = (s', r).
Proof.
  unfold mbind, io_mbind. destruct (m s) as [s1 [a|e]]; [eauto|]. intros [= <- <-]. left. by exists e.
Qed.

Lemma io_lift_Ok {nb A B} (a : A) (f : A -> io nb B) s : (lift (Ok a) ≫= f) s = f a s.
Proof. done. Qed.

Section Reconcile.
Context {nb : Type} (Run : string -> list string -> nb -> nb * res bytes) (switches : nb -> gmap string markers).
Context `{!OvnNorthbound Run switches}.
Implicit Types (c : RuntimeConfig) (s : nb) (plan : NetworkPlan).

Definition present_in (name : string) (sw : gmap string markers) : bool := bool_decide (is_Some (sw !! name)).
Definition markers_in (name : string) (sw : gmap string markers) : markers := default ∅ (sw !! name).

Lemma read_switch_spec c name s s' r : read_switch Run c name s = (s', r) ->
  switches s' = switches s
  /\ forall m present d u, r = Ok (m, present, d, u) ->
       m = markers_in name (switches s) /\ present = present_in name (switches s).
Proof.
  unfold read_switch. intros H. apply io_bind_inv in H as [(e & H & ->)|(raw & s1 & H & H')].
  { apply find_markers_reads in H. by split. }
  pose proof (find_markers_reads _ _ _ _ _ H) as E1.
  destruct (find_markers_table _ _ _ _ _ H) as (j & Hj & Ht).
  rewrite (parse_table _ _ _ Hj Ht), io_lift_Ok in H'.
  fold (present_in name (switches s)) in H'. fold (markers_in name (switches s)) in H'.
  destruct (present_in name (switches s)) eqn:Ep; cbn [negb] in H'.
  - apply io_bind_inv in H' as [(e & H' & ->)|(uuid & s2 & H' & H2)]; pose proof (find_uuid_reads _ _ _ _ _ H') as E2.
    + split; [congruence|done].
    + injection H2 as <- <-. split; [congruence|]. by intros ? ? ? ? [= <- <- _ _].
  - injection H' as <- <-. split; [done|]. intros ? ? ? ? [= <- <- _ _]. split; [|done].
    unfold present_in, markers_in in *. bools. destruct (switches s !! name); [|done]. exfalso. eauto.
Qed.

(** What a plan makes of the switches *)
Definition applied plan (digest : string) (sw : gmap string markers) : gmap string markers :=
  if np_DesiredState plan ==s "PRESENT"
  then <[np_LogicalSwitchName plan :=
         marked (np_ExpectedExternalIDs plan) digest (markers_in (np_LogicalSwitchName plan) sw)]> sw
  else delete (np_LogicalSwitchName plan) sw.

Lemma apply_network_spec c plan digest s s' r : assignable (np_ExpectedExternalIDs plan) digest ->
  apply_network Run c plan digest (present_in (np_LogicalSwitchName plan) (switches s)) s = (s', r) ->
  r = Ok "RECEIVED"%string /\ switches s' = applied plan digest (switches s)
  \/ r = Ok "LOST"%string /\ (switches s' = applied plan digest (switches s) \/ switches s' = switches s).
Proof.
  intros Ha H. unfold apply_network, applied in *. destruct (np_DesiredState plan ==s "PRESENT").
  - unfold attempt, mbind, io_mbind, mret, io_mret in H. destruct (run _ _ _ _) as [s1 a] eqn:E. injection H as <- <-.
    apply (add_switch_sets c _ _ _ s s1 a Ha) in E. destruct a; cbn; [left|right]; split; try done.
    + by destruct E as [E|[[=] _]].
    + destruct E as [E|[_ E]]; [by left|by right].
  - destruct (present_in _ _) eqn:Ep.
    + unfold attempt, mbind, io_mbind, mret, io_mret in H. destruct (run _ _ _ _) as [s1 a] eqn:E. injection H as <- <-.
      apply delete_switch_deletes in E. destruct a; cbn; [left|right]; split; try done.
      * by destruct E as [E|[[=] _]].
      * destruct E as [E|[_ E]]; [by left|by right].
    + unfold mret, io_mret in H. injection H as <- <-. left. split; [done|]. symmetry. apply delete_id.
      unfold present_in in Ep. bools. by apply eq_None_not_Some.
Qed.

(** The object of a plan is absent, or an incarnation of the same network. *)
Definition own_object plan (sw : gmap string markers) : Prop :=
  forall m, sw !! np_LogicalSwitchName plan = Some m -> sameNetworkIncarnation m plan = true.

Lemma own_object_test plan sw :
  (present_in (np_LogicalSwitchName plan) sw && negb (sameNetworkIncarnation (markers_in (np_LogicalSwitchName plan) sw) plan)
   = false) <-> own_object plan sw.
Proof.
  unfold own_object, present_in, markers_in. destruct (sw !! _) as [m|]; cbn.
  - rewrite negb_false_iff. split; [by intros H ? [= <-]|auto].
  - by split.
Qed.

(** What a reconciliation leaves behind, and what its result says *)
Lemma reconcile_spec c raw digest apply s s' r canonical plan :
  RestoreStoredNetworkPlan raw digest = Ok (canonical, plan) -> assignable (np_ExpectedExternalIDs plan) digest ->
  reconcileNetwork Run c raw digest apply s = (s', r) ->
  let name := np_LogicalSwitchName plan in
  (switches s' = switches s
   \/ apply = true /\ own_object plan (switches s) /\ switches s' = applied plan digest (switches s))
  /\ forall result, r = Ok result ->
       own_object plan (switches s)
       /\ (exists uuid, rr_NetworkObservation result
             = observation_of plan digest (markers_in name (switches s')) (present_in name (switches s')) uuid)
       /\ (apply = false /\ ApplyResponseState result = "UNKNOWN"%string
           \/ apply = true /\ (ApplyResponseState result = "LOST"%string
              \/ ApplyResponseState result = "RECEIVED"%string /\ switches s' = applied plan digest (switches s))).
Proof.
  intros Hr Ha H name. unfold reconcileNetwork in H.
  apply io_bind_inv in H as [(e & H & ->)|([] & s1 & H & H1)]; [injection H as <- _; by split; [left|]|].
  injection H as <- _. rewrite Hr, io_lift_Ok in H1.
  apply io_bind_inv in H1 as [(e & H & ->)|([] & s1 & H & H2)]; [injection H as <- _; by split; [left|]|].
  injection H as <- _. fold name in H2.
  apply io_bind_inv in H2 as [(e & H & ->)|([[[before present] d0] u0] & s1 & H & H3)].
  { apply read_switch_spec in H as [E _]. by split; [left|]. }
  apply read_switch_spec in H as [E1 Hread]. destruct (Hread _ _ _ _ eq_refl) as [-> ->]. clear Hread.
  apply io_bind_inv in H3 as [(e & H & ->)|([] & s2 & H & H4)]; [injection H as <- _; by split; [left|]|].
  injection H as <- Hown. apply fail_if_Ok_inv, own_object_test in Hown.
  apply io_bind_inv in H4 as [(e & H & ->)|(response & s2 & H & H5)].
  { destruct apply; [|done]. rewrite <- E1 in H. apply apply_network_spec in H as [[[=] _]|[[=] _]]; done. }
  assert ((switches s2 = switches s \/ apply = true /\ own_object plan (switches s) /\ switches s2 = applied plan digest (switches s))
    /\ (apply = false /\ response = "UNKNOWN"%string
        \/ apply = true /\ (response = "LOST"%string
           \/ response = "RECEIVED"%string /\ switches s2 = applied plan digest (switches s)))) as [Hsw Hresp].
  { destruct apply.
    - rewrite <- E1 in H. apply apply_network_spec in H as [[[= ->] E]|[[= ->] E]]; [| |done]; rewrite E1 in E.
      + split; [by right|]. right. auto.
      + split; [destruct E as [E|E]; [by right|by left]|]. right. auto.
    - injection H as <- <-. split; [by left|by left]. }
  apply io_bind_inv in H5 as [(e & H' & ->)|([[[after p] d1] u1] & s3 & H' & H6)];
    apply read_switch_spec in H' as [E3 Hread]; [rewrite <- E3 in Hsw; by split|].
  destruct (Hread _ _ _ _ eq_refl) as [-> ->]. injection H6 as <- <-. rewrite E3. split; [done|].
  intros result [= <-]. cbn. split_and!; [done|by exists u1|done].
Qed.

(** ** The state a reconciliation reports *)

Lemma markersPresent_spec observed m digest : markersPresent observed m digest = true <->
  (forall k v, m !! k = Some v -> marker observed k = v)
  /\ (digest = ""%string \/ marker observed "kim.object_set_digest" = digest).
Proof.
  unfold markersPresent. rewrite andb_true_iff, forallb_forall, orb_true_iff, !String.eqb_eq. split; intros [H1 H2]; split; auto.
  - intros k v Hk. specialize (H1 (k, v)). cbn in H1. rewrite String.eqb_eq in H1. apply H1.
    by apply list_elem_of_In, elem_of_map_to_list.
  - intros [k v] Hin. cbn. apply String.eqb_eq, H1. by apply elem_of_map_to_list, list_elem_of_In.
Qed.

(** Markers a plan sets do not name the digest. *)
Definition digest_free (m : markers) : Prop := m !! "kim.object_set_digest"%string = None.

Lemma marked_digest m digest old : digest <> ""%string -> marker (marked m digest old) "kim.object_set_digest" = digest.
Proof.
  intros Hd. unfold marked, marker. rewrite (proj2 (String.eqb_neq _ _) Hd).
  rewrite <- (assoc_L (∪)), (lookup_union_Some_l _ _ _ digest); [done|apply lookup_singleton_eq].
Qed.

Lemma marked_present m digest old : digest_free m -> digest <> ""%string ->
  markersPresent (marked m digest old) m digest = true.
Proof.
  intros Hf Hd. apply markersPresent_spec. split; [|right; by apply marked_digest].
  intros k v Hk. unfold marked, marker. rewrite (proj2 (String.eqb_neq _ _) Hd).
  rewrite (lookup_union_Some_l _ _ _ v); [done|]. rewrite lookup_union_r; [done|].
  apply lookup_singleton_ne. intros <-. unfold digest_free in Hf. congruence.
Qed.

(** The state a plan wants *)
Definition wanted_state plan : string := if np_DesiredState plan ==s "PRESENT" then "VERIFIED" else "ABSENT".
Definition state_in plan (digest : string) (sw : gmap string markers) (uuid : string) : string :=
  State (observation_of plan digest (markers_in (np_LogicalSwitchName plan) sw) (present_in (np_LogicalSwitchName plan) sw) uuid)
    (np_DesiredState plan).

Lemma state_applied plan digest sw uuid : digest_free (np_ExpectedExternalIDs plan) -> digest <> ""%string ->
  np_DesiredState plan = "PRESENT"%string \/ np_DesiredState plan = "ABSENT"%string ->
  state_in plan digest (applied plan digest sw) uuid = wanted_state plan.
Proof.
  intros Hf Hd Hs. unfold state_in, applied, wanted_state, observation_of, State, markers_in, present_in. destruct Hs as [-> | ->]; cbn.
  - rewrite lookup_insert_eq. cbn. by rewrite marked_present, marked_digest, String.eqb_refl.
  - by rewrite lookup_delete_eq.
Qed.

(** What VERIFIED and ABSENT say of the switches *)
Lemma state_verified plan digest sw uuid : state_in plan digest sw uuid = "VERIFIED"%string ->
  exists m, sw !! np_LogicalSwitchName plan = Some m /\ markersPresent m (np_ExpectedExternalIDs plan) digest = true.
Proof.
  unfold state_in, observation_of, State, markers_in, present_in. cbn.
  destruct (sw !! _) as [m|]; cbn; repeat case_match; bools; try done; eauto.
Qed.

Lemma state_absent plan digest sw uuid : state_in plan digest sw uuid = "ABSENT"%string ->
  sw !! np_LogicalSwitchName plan = None.
Proof.
  unfold state_in, observation_of, State, markers_in, present_in. cbn.
  destruct (sw !! _) as [m|]; cbn; repeat case_match; bools; try done; eauto.
Qed.
End Reconcile.

(** ** Plans of intents *)

Lemma network_assignable i raw digest : intent_ok i -> PlanNetwork i = Ok (raw, digest) ->
  assignable (network_markers i) digest /\ digest_free (network_markers i) /\ digest <> ""%string.
Proof.
  intros Hok Hp. apply planned_network in Hp as (_ & -> & _ & Ht & _).
  assert (plain_word (sha256_hex raw) = true) as Hd by apply sha256_plain_word. split_and!.
  - split; [|done]. intros k v Hk. destruct (network_marker_words i k v Hok Ht Hk) as (_ & Hw & Hv & Hc). split; [|done].
    unfold plain_key, key_char, plain_word in *. bools. apply andb_true_intro. split; [by apply negb_true_iff, String.eqb_neq|].
    rewrite forallb_forall in *. intros c Hin. apply andb_true_intro. auto.
  - unfold digest_free. destruct (network_markers i !! _) as [v|] eqn:E; [|done].
    by destruct (network_marker_words i _ v Hok Ht E).
  - intros E. by rewrite E in Hd.
Qed.

Lemma network_plan_plain i : intent_ok i -> (in_SegmentType i = "VNI"%string \/ in_SegmentType i = "VLAN"%string) ->
  (in_DesiredState i = "PRESENT"%string \/ in_DesiredState i = "ABSENT"%string) -> plain (network_plan_json (network_plan i)).
Proof.
  intros Hok Ht Hd. pose proof (intent_words i Hok) as (H1 & H2 & H3 & H4). apply plain_word_ascii in H1, H2, H3, H4.
  assert (ascii_text (objectName "kim-ls" (in_NetworkID i))) as H5 by apply plain_word_ascii, safe_plain_word, object_name_safe.
  assert (ascii_text (in_SegmentType i)) as H6 by (destruct Ht as [-> | ->]; ascii_literal).
  assert (ascii_text (in_DesiredState i)) as H7 by (destruct Hd as [-> | ->]; ascii_literal).
  assert (plain (markers_json (network_markers i))) as H8.
  { unfold markers_json. cbn [plain]. assert (forall kv, kv ∈ sorted_items (network_markers i) ->
      ascii_text (fst kv) /\ ascii_text (snd kv)) as Hall.
    { intros [k v] Hin. rewrite sorted_items_perm in Hin. apply elem_of_map_to_list in Hin.
      destruct (network_marker_words i k v Hok Ht Hin) as (_ & Hk & Hv & _). by split; apply plain_word_ascii. }
    induction (sorted_items (network_markers i)) as [|[k v] l IH]; [done|]. cbn. split_and!.
    - by apply (Hall (k, v)); left.
    - by apply (Hall (k, v)); left.
    - apply IH. intros kv Hin. apply Hall. by right. }
  unfold network_plan_json, network_plan. cbn [np_SchemaVersion np_OperationID np_OperationGeneration np_ProjectID np_NetworkID
    np_AuthorityRevision np_BackendRevision np_AllocationID np_AllocationGeneration np_RealizationGeneration np_SegmentType
    np_SegmentID np_DesiredState np_LogicalSwitchName np_ExpectedExternalIDs].
  plain_members. exact H8.
Qed.

(** What the adapter makes of the stored text of a plan: the plan *)
Lemma restore_intent i raw digest stored : intent_ok i -> PlanNetwork i = Ok (raw, digest) -> same_value stored raw ->
  RestoreStoredNetworkPlan stored digest = Ok (raw, network_plan i).
Proof.
  intros Hok Hp Hs. destruct (planned_network _ _ _ Hp) as (-> & -> & Hv & Ht & Hd).
  apply restore_stored_plan; [|by apply network_plan_plain|done|done].
  destruct Hok. unfold plan_typed. tauto.
Qed.

Section Intents.
Context {nb : Type} (Run : string -> list string -> nb -> nb * res bytes) (switches : nb -> gmap string markers).
Context `{!OvnNorthbound Run switches}.

(** When every command is answered, a reconciliation of a plan whose object is
    absent or its own applies it and says so. *)
Section Answered.
Hypothesis answered : forall name arguments s, is_Ok (snd (Run name arguments s)) = true.

Lemma run_answered c arguments s s' e : run Run c arguments s = (s', Err e) -> False.
Proof. intros H. pose proof (answered (NBCTL c) (withGlobal (globalArgs c (NBDatabase c)) arguments) s) as Ha.
  unfold run in H. by rewrite H in Ha. Qed.

Lemma read_answered c name s s' r : read_switch Run c name s = (s', r) ->
  exists m p text u, r = Ok (m, p, digestText text, u).
Proof.
  unfold read_switch. intros H. apply io_bind_inv in H as [(e & H & _)|(raw & s1 & H & H')]; [by apply run_answered in H|].
  destruct (find_markers_table _ _ _ _ _ H) as (j & Hj & Ht). rewrite (parse_table _ _ _ Hj Ht), io_lift_Ok in H'.
  destruct (bool_decide _); cbn [negb] in H'.
  - apply io_bind_inv in H' as [(e & H' & _)|(u & s2 & H' & H2)]; [by apply run_answered in H'|].
    injection H2 as <- <-. by eexists _, _, _, _.
  - injection H' as <- <-. by eexists _, _, _, _.
Qed.

Lemma apply_answered c plan digest present s s' r : apply_network Run c plan digest present s = (s', r) ->
  r = Ok "RECEIVED"%string.
Proof.
  unfold apply_network. cbv zeta. case_match; [|by intros [= _ <-]].
  unfold attempt, mbind, io_mbind, mret, io_mret. destruct (run _ _ _ _) as [s1 [b|e]] eqn:E; [by intros [= _ <-]|].
  by apply run_answered in E.
Qed.

(** A reconciliation of a plan whose object is absent or its own has a result. *)
Lemma reconcile_answers c i raw digest stored apply s : intent_ok i -> PlanNetwork i = Ok (raw, digest) -> same_value stored raw ->
  validate c = Ok tt -> own_object (network_plan i) (switches s) ->
  exists s' result, reconcileNetwork Run c stored digest apply s = (s', Ok result)
    /\ ApplyResponseState result = (if apply then "RECEIVED" else "UNKNOWN")%string
    /\ exists text, NBObservationDigest result = digestText text.
Proof.
  intros Hok Hp Hs Hv Hown. pose proof (restore_intent _ _ _ _ Hok Hp Hs) as Hr.
  destruct (reconcileNetwork Run c stored digest apply s) as [s' r] eqn:H. exists s'.
  unfold reconcileNetwork in H. rewrite Hv, io_lift_Ok, Hr, io_lift_Ok in H. rewrite fail_if_false, io_lift_Ok in H.
  2: { apply negb_false_iff. destruct Hok as [_ _ _ _ _ _ Hat]. cbn in Hat |- *. rewrite object_name_safe.
       bools. repeat match goal with H : safeOVNAtom _ = true |- _ => rewrite H; clear H end. done. }
  apply io_bind_inv in H as [(e & H & _)|([[[m p] d] u] & s1 & H & H1)].
  { apply read_answered in H as (? & ? & ? & ? & ?). done. }
  apply (read_switch_spec Run switches) in H as [E1 Hread]. destruct (Hread _ _ _ _ eq_refl) as [-> ->].
  rewrite (proj2 (own_object_test _ _) Hown) in H1. cbn [fail_if] in H1. rewrite io_lift_Ok in H1.
  apply io_bind_inv in H1 as [(e & H & _)|(response & s2 & H & H2)].
  { destruct apply; [by apply apply_answered in H|done]. }
  assert (response = (if apply then "RECEIVED" else "UNKNOWN")%string) as ->.
  { destruct apply; [apply apply_answered in H; by injection H as ->|by injection H as _ <-]. }
  apply io_bind_inv in H2 as [(e & H' & _)|([[[m' p'] d'] u'] & s3 & H' & H3)];
    apply read_answered in H' as (? & ? & ? & ? & E); [done|]. injection E as -> -> -> ->.
  injection H3 as <- <-. eexists. split; [done|]. split; [done|]. by eexists.
Qed.

(** A plan that is applied is in force and reported so. *)
Lemma reconcile_answered c i raw digest stored s : intent_ok i -> PlanNetwork i = Ok (raw, digest) -> same_value stored raw ->
  validate c = Ok tt -> own_object (network_plan i) (switches s) ->
  exists s' result, ReconcileNetwork Run c stored digest s = (s', Ok result)
    /\ switches s' = applied (network_plan i) digest (switches s) /\ ApplyResponseState result = "RECEIVED"%string
    /\ State (rr_NetworkObservation result) (in_DesiredState i) = wanted_state (network_plan i)
    /\ no_LogicalSwitchName (rr_NetworkObservation result) = objectName "kim-ls" (in_NetworkID i)
    /\ exists text, NBObservationDigest result = digestText text.
Proof.
  intros Hok Hp Hs Hv Hown. destruct (network_assignable _ _ _ Hok Hp) as (Ha & Hf & Hd).
  destruct (planned_network _ _ _ Hp) as (_ & _ & _ & _ & Hw).
  destruct (reconcile_answers c i raw digest stored true s Hok Hp Hs Hv Hown) as (s' & result & H & Hresp & Htext).
  exists s', result. split; [exact H|].
  destruct (reconcile_spec Run switches _ _ _ _ _ _ _ _ _ (restore_intent _ _ _ _ Hok Hp Hs) Ha H) as [_ Hres].
  destruct (Hres _ eq_refl) as (_ & (uuid & Hobs) & Hsw). rewrite Hobs.
  destruct Hsw as [[[=] _]|(_ & [E|[_ E]])]; [congruence|]. split_and!; try done.
  rewrite E. by apply (state_applied (network_plan i) digest (switches s) uuid).
Qed.

(** A plan that is only observed leaves the switches as they are. *)
Lemma observe_answered c i raw digest stored s : intent_ok i -> PlanNetwork i = Ok (raw, digest) -> same_value stored raw ->
  validate c = Ok tt -> own_object (network_plan i) (switches s) ->
  exists s' result uuid, ObserveNetwork Run c stored digest s = (s', Ok result)
    /\ switches s' = switches s /\ ApplyResponseState result = "UNKNOWN"%string
    /\ State (rr_NetworkObservation result) (in_DesiredState i) = state_in (network_plan i) digest (switches s) uuid
    /\ no_LogicalSwitchName (rr_NetworkObservation result) = objectName "kim-ls" (in_NetworkID i)
    /\ exists text, NBObservationDigest result = digestText text.
Proof.
  intros Hok Hp Hs Hv Hown. destruct (network_assignable _ _ _ Hok Hp) as (Ha & _ & _).
  destruct (reconcile_answers c i raw digest stored false s Hok Hp Hs Hv Hown) as (s' & result & H & Hresp & Htext).
  destruct (reconcile_spec Run switches _ _ _ _ _ _ _ _ _ (restore_intent _ _ _ _ Hok Hp Hs) Ha H) as [Hsw Hres].
  destruct (Hres _ eq_refl) as (_ & (uuid & Hobs) & _). exists s', result, uuid. rewrite Hobs.
  destruct Hsw as [Hsw|([=] & _)]. split_and!; try done. by rewrite Hsw.
Qed.
End Answered.
End Intents.
