(* ===== verification/OvnDemo.v ===== *)
(** * A northbound database to run the OVN adapter on

    An interpreter of the commands the adapter sends, which keeps the promises
    of [OvnNorthbound]: the witnesses of the theorems about the adapter run on
    it. *)

From S2P Require Import Prelude GoStd GoJson GoTime JsonOrder Northbound RecordDir OvnPlan OvnRuntime.
Local Open Scope Z_scope.
Local Open Scope go_scope.

(** Switches by name with ASCII markers; every command is answered. *)
Abbreviation demo_nb := (gmap string markers).
Definition ascii_string (s : string) : bool := forallb (fun c => byte_of c <? 128) (list_ascii_of_string s).
Definition ascii_markers (m : markers) : markers :=
  filter (fun kv => ascii_string (fst kv) && ascii_string (snd kv) = true) m.
Definition demo_switches (s : demo_nb) : gmap string markers := ascii_markers <$> s.

Definition is_global (argument : string) : bool :=
  existsb (HasPrefix argument) ["--db="; "--timeout="; "--private-key="; "--certificate="; "--ca-cert="]%string.
Fixpoint command_of (arguments : list string) : list string :=
  match arguments with
  | a :: rest => if is_global a then command_of rest else arguments
  | [] => []
  end.
Definition after_prefix (n : nat) (s : string) : string := string_of_list_ascii (drop n (list_ascii_of_string s)).
Definition assign (m : markers) (assignment : string) : markers :=
  let '(k, v) := span (fun c => negb (c =? "=")%char) (drop 13 (list_ascii_of_string assignment)) in
  <[string_of_list_ascii k := string_of_list_ascii (drop 1 v)]> m.
Definition demo_table (o : option markers) : json :=
  JObj [("data", JArr (table_rows (sorted_items <$> o))); ("headings", JArr [JStr "external_ids"])]%string.
Definition demo_run (name : string) (arguments : list string) (s : demo_nb) : demo_nb * res bytes :=
  let command := command_of arguments in
  let word n := nth n command ""%string in
  if word 0%nat ==s "--format=json"
  then (s, Ok (marshal (demo_table (demo_switches s !! after_prefix 5 (word 4%nat)))))
  else if word 0%nat ==s "--may-exist"
  then (<[word 2%nat := fold_left assign (drop 7 command) (default ∅ (s !! word 2%nat))]> s, Ok ""%string)
  else if word 0%nat ==s "--if-exists" then (delete (word 2%nat) s, Ok ""%string)
  else (s, Ok "0c1d"%string).

Lemma demo_answers name arguments s : is_Ok (snd (demo_run name arguments s)) = true.
Proof. unfold demo_run. by repeat destruct (_ ==s _)%go. Qed.

Lemma has_prefix_app p s : HasPrefix (p ++ s) p = true.
Proof.
  unfold HasPrefix. induction p as [|a p IH]; [by destruct s|]. 
  change (String a p +:+ s) with (String a (p +:+ s)). cbn. by destruct (ascii_dec a a).
Qed.

Lemma global_arguments c database : forallb is_global (globalArgs c database) = true.
Proof.
  assert (forall p s, In p ["--db="; "--timeout="; "--private-key="; "--certificate="; "--ca-cert="]%string ->
    is_global (p ++ s) = true) as Hg.
  { intros p s Hin. apply existsb_exists. exists p. split; [done|]. apply has_prefix_app. }
  unfold globalArgs. rewrite forallb_app. apply andb_true_intro. split.
  - cbn [forallb]. by rewrite !Hg by (cbn; tauto).
  - destruct (HasPrefix database "ssl:"); [|done]. cbn [forallb]. by rewrite !Hg by (cbn; tauto).
Qed.

Lemma command_of_global c cmd a rest : cmd = a :: rest -> is_global a = false ->
  command_of (withGlobal (globalArgs c (NBDatabase c)) cmd) = cmd.
Proof.
  intros -> Ha. unfold withGlobal. pose proof (global_arguments c (NBDatabase c)) as Hg.
  induction (globalArgs c (NBDatabase c)) as [|g l IH]; cbn [app command_of]; [by rewrite Ha|].
  cbn [forallb] in Hg. apply andb_prop in Hg as [-> Hg]. by apply IH.
Qed.

Lemma ascii_markers_lookup m k :
  ascii_markers m !! k = (v ← m !! k; if ascii_string k && ascii_string v then Some v else None).
Proof.
  unfold ascii_markers. rewrite map_lookup_filter. destruct (m !! k) as [v|]; [|done].
  cbn [mbind option_bind fst snd]. case_guard as E; [by rewrite E|]. apply not_true_is_false in E. by rewrite E.
Qed.

Lemma after_prefix_app p s n : String.length p = n -> after_prefix n (p ++ s) = s.
Proof.
  intros <-. unfold after_prefix. rewrite chars_app, drop_app_length'; [apply string_of_list_ascii_of_string|].
  induction p as [|a p IH]; [done|]. cbn. by rewrite IH.
Qed.

Lemma ascii_string_text s : ascii_string s = true -> ascii_text s.
Proof. apply ascii_textb. Qed.

Lemma demo_table_plain m : plain (demo_table (ascii_markers <$> m)).
Proof.
  unfold demo_table. destruct m as [m|]; [|by plain_members]. cbn [fmap option_fmap option_map table_rows].
  assert (forall kv, kv ∈ sorted_items (ascii_markers m) -> ascii_text (fst kv) /\ ascii_text (snd kv)) as Hall.
  { intros [k v] Hin. rewrite sorted_items_perm in Hin. apply elem_of_map_to_list in Hin.
    rewrite ascii_markers_lookup in Hin. destruct (m !! k) as [w|]; [|done]. cbn in Hin.
    destruct (ascii_string k && ascii_string w) eqn:E; [|done]. injection Hin as ->. bools. split; by apply ascii_string_text. }
  assert (plain (JArr (pair_json <$> sorted_items (ascii_markers m)))) as Hp.
  { induction (sorted_items (ascii_markers m)) as [|[k v] l IH]; [done|]. cbn. split_and!; [| |done|].
    - by apply (Hall (k, v)); left.
    - by apply (Hall (k, v)); left.
    - apply IH. intros kv Hin. apply Hall. by right. }
  plain_members. exact Hp.
Qed.

Lemma demo_find c name s : run demo_run c (find_markers name) s = (s, Ok (marshal (demo_table (demo_switches s !! name)))).
Proof.
  unfold run, demo_run, find_markers. erewrite command_of_global by reflexivity.
  cbn [nth]. rewrite (after_prefix_app "name=") by done. reflexivity.
Qed.

(** The words of an assignment, read back *)
Lemma assign_word m k v : plain_key k = true -> assign m ("external_ids:" ++ k ++ "=" ++ v) = <[k := v]> m.
Proof.
  intros Hk. unfold assign. rewrite chars_app. rewrite drop_app_length' by done. rewrite chars_app.
  rewrite chars_app, span_all.
  - cbn. rewrite drop_0, !string_of_list_ascii_of_string. done.
  - unfold plain_key in Hk. bools. match goal with H : forallb _ _ = true |- _ => rename H into Hc end.
    rewrite forallb_forall in Hc. apply List.Forall_forall. intros c Hin. apply Hc in Hin.
    destruct (c =? "=")%char eqn:E; [|done]. apply Ascii.eqb_eq in E. subst c. discriminate Hin.
  - by intros c [= <-].
Qed.

Lemma plain_word_ascii_string s : plain_word s = true -> ascii_string s = true.
Proof.
  intros H. apply plain_word_ascii in H. apply forallb_forall. intros c Hin. apply Z.ltb_lt.
  by apply (proj1 (List.Forall_forall _ _) H).
Qed.
Lemma plain_key_ascii_string s : plain_key s = true -> ascii_string s = true.
Proof.
  unfold plain_key. intros [Hne Hc]%andb_prop. apply plain_word_ascii_string. unfold plain_word.
  rewrite Hne. cbn. rewrite forallb_forall in *. intros c Hin. apply Hc in Hin. by apply andb_prop in Hin as [-> _].
Qed.

Lemma assignments_mark m digest old : assignable m digest ->
  fold_left assign (markerAssignments m digest) old = marked m digest old.
Proof.
  intros [Hm Hd]. assert (digest <> ""%string) as Hne by (by intros ->).
  unfold markerAssignments, marked. rewrite (proj2 (String.eqb_neq _ _) Hne). cbn [negb].
  rewrite fold_left_app. cbn [fold_left].
  change ("external_ids:kim.object_set_digest=" ++ digest)%string
    with ("external_ids:" ++ "kim.object_set_digest" ++ "=" ++ digest)%string.
  rewrite assign_word by done. rewrite insert_union_singleton_l, <- (assoc_L (∪)). f_equal.
  rewrite <- (list_to_map_to_list m) at 2. rewrite <- (list_to_map_proper _ _ (sorted_items_keys m) (sorted_items_perm m)).
  rewrite <- fold_insert by apply sorted_items_keys.
  assert (forall kv, kv ∈ sorted_items m -> plain_key (fst kv) = true) as Hk.
  { intros [k v] Hin. rewrite sorted_items_perm in Hin. apply elem_of_map_to_list in Hin. by destruct (Hm k v Hin). }
  revert old. induction (sorted_items m) as [|[k v] l IH]; intros old; [done|]. cbn [fmap list_fmap fold_left fst snd].
  rewrite assign_word by (by apply (Hk (k, v)); left). apply IH. intros kv Hin. apply Hk. by right.
Qed.

Lemma ascii_marked m digest old : assignable m digest ->
  ascii_markers (marked m digest old) = marked m digest (ascii_markers old).
Proof.
  intros [Hm Hd]. assert (digest <> ""%string) as Hne by (by intros ->). apply map_eq. intros k.
  rewrite ascii_markers_lookup. unfold marked. rewrite (proj2 (String.eqb_neq _ _) Hne), !lookup_union, ascii_markers_lookup.
  destruct (decide (k = "kim.object_set_digest"%string)) as [->|Hk].
  - rewrite lookup_singleton_eq. rewrite !union_Some_l. cbn. by rewrite (plain_word_ascii_string _ Hd).
  - rewrite lookup_singleton_ne by done. rewrite !(left_id_L None (∪)).
    destruct (m !! k) as [v|] eqn:E.
    + rewrite !union_Some_l. cbn. destruct (Hm k v E) as [H1 H2].
      by rewrite (plain_key_ascii_string _ H1), (plain_word_ascii_string _ H2).
    + by rewrite !(left_id_L None (∪)).
Qed.

#[export] Instance demo_northbound : OvnNorthbound demo_run demo_switches.
Proof.
  split.
  - intros c name s s' r H. rewrite demo_find in H. by injection H as <- _.
  - intros c name s s' raw H. rewrite demo_find in H. injection H as <- <-. eexists. split.
    { apply unmarshal_marshal. unfold demo_switches. rewrite lookup_fmap. apply demo_table_plain. }
    eexists (JArr [JStr "external_ids"%string]), _, _. split; [done|]. split; [done|].
    destruct (demo_switches s !! name) as [m|]; [|done]. apply sorted_items_perm.
  - intros c name s s' r. unfold run, demo_run, find_uuid. erewrite command_of_global by reflexivity. by intros [= <- _].
  - intros c name m digest s s' r Ha. unfold run, demo_run, add_switch. erewrite command_of_global by reflexivity.
    cbn [app nth drop String.eqb Ascii.eqb Bool.eqb]. intros [= <- _]. left. unfold demo_switches. rewrite fmap_insert, lookup_fmap.
    rewrite drop_0, assignments_mark, ascii_marked by done. by destruct (s !! name).
  - intros c name s s' r. unfold run, demo_run, delete_switch. erewrite command_of_global by reflexivity.
    intros [= <- _]. left. unfold demo_switches. apply fmap_delete.
Qed.

(** ** A configuration, and the plans of a Network *)

Definition demo_ovn_config : RuntimeConfig :=
  MkRuntimeConfig "unix:/run/ovn/nb.sock" "unix:/run/ovn/sb.sock" "/usr/bin/ovn-nbctl" "/usr/bin/ovn-sbctl" "" "" "" ""
    5000000000.
Lemma demo_ovn_config_valid : validate demo_ovn_config = Ok tt.
Proof. reflexivity. Qed.

Definition demo_net_operation : string := "network-realization:net:1".
Definition demo_net_intent : NetworkIntentInput :=
  MkNetworkIntent demo_net_operation "project" "net" "network-allocation:net:1" "VNI" 1 1 1 1 1 10000 "PRESENT".
Definition demo_net_plan : bytes := marshal (network_plan_json (network_plan demo_net_intent)).
Definition demo_net_retirement : string := "network-realization:net:2".
Definition demo_retire_intent : NetworkIntentInput :=
  MkNetworkIntent demo_net_retirement "project" "net" "network-allocation:net:1" "VNI" 1 2 1 1 2 10000 "ABSENT".
Definition demo_retire_plan : bytes := marshal (network_plan_json (network_plan demo_retire_intent)).
(** The plans are what the intents say, and the intents are well formed. *)
Lemma demo_net_planned : PlanNetwork demo_net_intent = Ok (demo_net_plan, sha256_hex demo_net_plan).
Proof. reflexivity. Qed.
Lemma demo_retire_planned : PlanNetwork demo_retire_intent = Ok (demo_retire_plan, sha256_hex demo_retire_plan).
Proof. reflexivity. Qed.
Lemma demo_net_intended : intent_ok demo_net_intent.
Proof. by constructor. Qed.
Lemma demo_retire_intended : intent_ok demo_retire_intent.
Proof. by constructor. Qed.
Lemma stored_as_is i raw digest : intent_ok i -> PlanNetwork i = Ok (raw, digest) -> same_value raw raw.
Proof.
  intros Hok Hp. destruct (planned_network _ _ _ Hp) as (-> & _ & _ & Ht & Hd).
  pose proof (unmarshal_marshal _ (network_plan_plain i Hok Ht Hd)) as H.
  exists (network_plan_json (network_plan i)), (network_plan_json (network_plan i)). split; [done|]. split; [done|].
  apply reordered_refl.
Qed.
