(* ===== verification/OvnProofs.v ===== *)
(** * What the OVN adapter promises

    The adapter keeps to the switch of its plan, and what it reports is so; a
    deletion that did not happen is reported as a conflict. *)

From S2P Require Import Prelude GoStd GoJson GoTime JsonOrder Northbound RecordDir OvnPlan OvnRuntime OvnDemo.
Local Open Scope Z_scope.
Local Open Scope go_scope.

Section Intents.
Context {nb : Type} (Run : string -> list string -> nb -> nb * res bytes) (switches : nb -> gmap string markers).
Context `{!OvnNorthbound Run switches}.

(** C21: The adapter changes the switch of its plan and no other, never one that
    belongs to anybody else, and none when it only observes; a switch it finds
    that is not of the same network and allocation is left as it is and
    reported.  What it reports is so: VERIFIED, the switch is there with every
    marker of the plan and its digest; ABSENT, there is no switch; and when the
    command that applies the plan was answered, the state is the one the plan
    wants. *)
Theorem reconcile_keeps_to_its_switch c i raw digest stored apply s s' r : intent_ok i ->
  PlanNetwork i = Ok (raw, digest) -> same_value stored raw ->
  reconcileNetwork Run c stored digest apply s = (s', r) ->
  let plan := network_plan i in let name := objectName "kim-ls" (in_NetworkID i) in
  (forall other, other <> name -> switches s' !! other = switches s !! other)
  /\ (apply = false -> switches s' = switches s)
  /\ (forall m, switches s !! name = Some m -> sameNetworkIncarnation m plan = false ->
        switches s' = switches s /\ is_Ok r = false)
  /\ forall result, r = Ok result -> let state := State (rr_NetworkObservation result) (in_DesiredState i) in
       (state = "VERIFIED"%string -> exists m, switches s' !! name = Some m
          /\ markersPresent m (network_markers i) digest = true)
       /\ (state = "ABSENT"%string -> switches s' !! name = None)
       /\ (ApplyResponseState result = "RECEIVED"%string -> state = wanted_state plan).
Proof.
  intros Hok Hp Hs H plan name. destruct (network_assignable _ _ _ Hok Hp) as (Ha & Hf & Hd).
  destruct (planned_network _ _ _ Hp) as (_ & _ & _ & _ & Hw).
  destruct (reconcile_spec Run switches _ _ _ _ _ _ _ _ _ (restore_intent _ _ _ _ Hok Hp Hs) Ha H) as [Hsw Hres].
  assert (forall sw other, other <> name -> applied plan digest sw !! other = sw !! other) as Hother.
  { intros sw other Hne. unfold applied. destruct (_ ==s _)%go.
    - apply lookup_insert_ne. by intros <-.
    - apply lookup_delete_ne. by intros <-. }
  split_and!.
  - intros other Hne. destruct Hsw as [->|(_ & _ & ->)]; [done|by apply Hother].
  - intros ->. by destruct Hsw as [->|([=] & _)].
  - intros m Hm Hforeign. assert (~ own_object plan (switches s)) as Hno by (intros Ho; specialize (Ho m Hm); congruence).
    split; [by destruct Hsw as [->|(_ & Ho & _)]|]. destruct r as [result|]; [|done].
    by destruct (Hres _ eq_refl) as [Ho _].
  - intros result -> state. destruct (Hres _ eq_refl) as (_ & (uuid & Hobs) & Hresp).
    assert (state = state_in plan digest (switches s') uuid) as -> by (subst state; by rewrite Hobs).
    split_and!.
    + apply state_verified.
    + apply state_absent.
    + intros Hr. destruct Hresp as [[_ E]|(_ & [E|[_ ->]])]; [congruence..|]. by apply state_applied.
Qed.

(** A retirement whose deletion did not happen finds the switch with the markers
    of the realization before. *)
Lemma lost_deletion_conflicts c i raw digest stored s s' result m : intent_ok i -> PlanNetwork i = Ok (raw, digest) ->
  same_value stored raw -> reconcileNetwork Run c stored digest true s = (s', Ok result) -> switches s' = switches s ->
  switches s !! objectName "kim-ls" (in_NetworkID i) = Some m ->
  marker m "kim.realization_generation" <> FormatUint (in_RealizationGeneration i) ->
  LogicalSwitchPresent (rr_NetworkObservation result) = true /\ OwnershipMarkerMatches (rr_NetworkObservation result) = false.
Proof.
  intros Hok Hp Hs H Hsame Hm Hne. destruct (network_assignable _ _ _ Hok Hp) as (Ha & _ & _).
  destruct (reconcile_spec Run switches _ _ _ _ _ _ _ _ _ (restore_intent _ _ _ _ Hok Hp Hs) Ha H) as [_ Hres].
  destruct (Hres _ eq_refl) as (_ & (uuid & ->) & _). rewrite Hsame. unfold observation_of, present_in, markers_in.
  change (np_LogicalSwitchName (network_plan i)) with (objectName "kim-ls" (in_NetworkID i)). rewrite Hm. cbn. split; [done|].
  apply not_true_is_false. intros E. apply markersPresent_spec in E as [E _]. by apply Hne, E.
Qed.

Lemma ReconcileNetwork_applies c stored digest s : ReconcileNetwork Run c stored digest s = reconcileNetwork Run c stored digest true s.
Proof. done. Qed.
End Intents.

Lemma reconcile_keeps_to_its_switch_witness : exists s' result,
  reconcileNetwork demo_run demo_ovn_config demo_net_plan (sha256_hex demo_net_plan) true ∅ = (s', Ok result)
  /\ (exists m, demo_switches s' !! objectName "kim-ls" "net" = Some m
        /\ markersPresent m (network_markers demo_net_intent) (sha256_hex demo_net_plan) = true)
  /\ demo_switches s' !! "another"%string = None.
Proof.
  destruct (reconcile_answered demo_run demo_switches demo_answers demo_ovn_config demo_net_intent demo_net_plan
    (sha256_hex demo_net_plan) demo_net_plan ∅ demo_net_intended demo_net_planned
    (stored_as_is _ _ _ demo_net_intended demo_net_planned) demo_ovn_config_valid) as (s' & result & H & _ & _ & Hst & _ & _).
  { by intros m. }
  rewrite ReconcileNetwork_applies in H. exists s', result. split; [exact H|].
  destruct (reconcile_keeps_to_its_switch demo_run demo_switches demo_ovn_config demo_net_intent demo_net_plan
    (sha256_hex demo_net_plan) demo_net_plan true ∅ s' (Ok result) demo_net_intended demo_net_planned
    (stored_as_is _ _ _ demo_net_intended demo_net_planned) H) as (Hother & _ & _ & Hr).
  split; [exact (proj1 (Hr _ eq_refl) Hst)|]. rewrite Hother; [reflexivity|].
  intros E. apply (f_equal len) in E. unfold objectName in E. rewrite !len_app, sha256_hex8_length in E. discriminate E.
Defined.
