(* ===== verification/NetworkResource.v ===== *)
(** * postgres/network_resource.go: Network authority and its realization

    A Network is a row with immutable revisions, a segment allocated from a
    pool, and one realization operation at a time: work that a worker claims
    with a lease, applies to OVN or reads back first, and ends by presenting an
    observation.  The segment is given back only by the observation that ends a
    retirement.  Columns nothing reads are left out; [statement_timestamp()] is
    the [now] of a call; a serializable transaction that fails changes nothing. *)

From S2P Require Import Prelude GoStd GoJson ControlDb Northbound OvnPlan.
Local Open Scope Z_scope.
Local Open Scope go_scope.

(** ** Requests and answers *)

Record NetworkResourceRequest := MkNetworkRequest {
  rq_NetworkID : string; rq_ProjectID : string; rq_Name : string; rq_Profile : string; rq_SegmentPolicy : string;
  rq_MTU : Z; rq_RequestedSegmentID : Z; rq_DeleteProtection : bool;
}.
#[export] Instance network_request_eta : Eta NetworkResourceRequest := fun r =>
  MkNetworkRequest (rq_NetworkID r) (rq_ProjectID r) (rq_Name r) (rq_Profile r) (rq_SegmentPolicy r) (rq_MTU r)
    (rq_RequestedSegmentID r) (rq_DeleteProtection r).
Record NetworkResourcePatch := MkNetworkPatch {
  nx_ExpectedRevision : Z; nx_Name : string; nx_MTU : Z; nx_DeleteProtection : bool;
}.
Record NetworkRealizationClaim := MkNetworkClaim {
  nc_OperationID : string; nc_Owner : string; nc_ClaimMode : string; nc_OperationKind : string; nc_PlanDigest : string;
  nc_OperationGeneration : Z; nc_ClaimGeneration : Z; nc_CanonicalPlan : bytes; nc_LeaseExpiresAt : Z;
}.
Record NetworkRealizationObservation := MkRealizationObservation {
  ro_ObservationID : string; ro_OperationID : string; ro_LogicalSwitchName : string; ro_BackendUUID : string;
  ro_ObservationDigest : string; ro_AdapterArtifactDigest : string; ro_OperationGeneration : Z;
  ro_ObservationGeneration : Z; ro_ApplyResponseState : string; ro_Observation : NetworkObservation;
}.

(** ** The tables *)

(** kim.networks_current *)
Record network_row := MkNetwork {
  nw_project : string; nw_generation : Z; nw_lifecycle : string; nw_mtu : Z; nw_revision : Z; nw_name : string;
  nw_profile : string; nw_policy : string; nw_protected : bool; nw_digest : string; nw_source : string;
}.
(** kim.network_resource_revision_evidence, by network and revision *)
Record network_revision_row := MkNetworkRevision {
  nr_project : string; nr_name : string; nr_profile : string; nr_mtu : Z; nr_policy : string; nr_requested : option Z;
  nr_protected : bool; nr_lifecycle : string; nr_previous : option Z; nr_digest : string;
}.
(** kim.network_segment_pools_current *)
Record pool_row := MkPool {
  pl_minimum : Z; pl_maximum : Z; pl_generation : Z; pl_lifecycle : string;
}.
(** kim.network_segment_allocation_decision_evidence, by allocation *)
Record segment_decision_row := MkSegmentDecision {
  sd_network : string; sd_revision : Z; sd_pool : string; sd_pool_generation : Z; sd_type : string; sd_segment : Z;
  sd_generation : Z; sd_digest : string;
}.
(** kim.network_segment_allocations_current, by network *)
Record allocation_row := MkAllocation {
  al_id : string; al_revision : Z; al_pool : string; al_type : string; al_segment : Z; al_generation : Z;
  al_state : string;
}.
(** kim.network_segment_release_evidence *)
Record release_row := MkRelease {
  rl_allocation : string; rl_network : string; rl_generation : Z; rl_terminal : string; rl_pool : string;
  rl_type : string; rl_segment : Z; rl_digest : string;
}.
(** kim.network_segment_claims_current *)
Record segment_claim_row := MkSegmentClaim {
  sc_network : string; sc_type : string; sc_scope : string; sc_segment : Z; sc_state : string;
  sc_allocation : option string; sc_generation : option Z;
}.
(** kim.network_realization_operation_evidence, by operation and generation;
    a jsonb column is written down as the text it was inserted with *)
Record realization_operation_row := MkRealizationOperation {
  ro_kind : string; ro_network : string; ro_revision : Z; ro_allocation : string; ro_allocation_generation : Z;
  ro_realization : Z; ro_schema : string; ro_plan : bytes; ro_digest : string;
}.
(** kim.network_realization_operations_current, by operation *)
Record operation_state_row := MkOperationState {
  os_generation : Z; os_network : string; os_revision : Z; os_allocation : string; os_allocation_generation : Z;
  os_realization : Z; os_kind : string; os_phase : string; os_last_claim : Z; os_owner : option string;
  os_claim : option Z; os_expires : option Z; os_response : option string; os_terminal : option string; os_updated : Z;
}.
(** kim.network_realization_attempt_evidence, by operation, its generation and claim *)
Record realization_attempt_row := MkRealizationAttempt { ra_owner : string; ra_mode : string; ra_expires : Z }.
(** kim.network_realization_observation_evidence *)
Record realization_observation_row := MkRealizationObservationRow {
  rb_operation : string; rb_generation : Z; rb_network : string; rb_revision : Z; rb_allocation_generation : Z;
  rb_realization : Z; rb_observation : Z; rb_response : string; rb_switch : string; rb_uuid : option string;
  rb_present : bool; rb_marker : bool; rb_plan : bool; rb_digest : string; rb_adapter : string;
}.
(** kim.network_realization_terminal_evidence *)
Record realization_terminal_row := MkRealizationTerminal {
  rt_operation : string; rt_generation : Z; rt_observation : string; rt_network : string; rt_revision : Z;
  rt_allocation_generation : Z; rt_realization : Z; rt_state : string; rt_digest : string;
}.
(** kim.network_realizations_current, by network *)
Record realization_row := MkRealization {
  rz_revision : Z; rz_allocation_generation : Z; rz_generation : Z; rz_operation : string; rz_operation_generation : Z;
  rz_state : string; rz_terminal : option string;
}.

(** These tables, the mode of kim.database_authority, the lifecycles of
    projects, and of subnets and ports what a retirement asks: their network
    and state *)
Record netdb := MkNetDb {
  net_mode : string;
  net_projects : gmap string string;
  pools : gmap string pool_row;
  networks : gmap string network_row;
  network_revisions : gmap (string * Z) network_revision_row;
  segment_decisions : gmap string segment_decision_row;
  allocations : gmap string allocation_row;
  releases : gmap string release_row;
  segment_claims : gmap string segment_claim_row;
  realization_operations : gmap (string * Z) realization_operation_row;
  operation_states : gmap string operation_state_row;
  realization_attempts : gmap (string * Z * Z) realization_attempt_row;
  attempt_event_log : gset (string * Z * Z * string);
  realization_observations : gmap string realization_observation_row;
  realization_terminals : gmap string realization_terminal_row;
  realizations : gmap string realization_row;
  net_subnets : gmap string (string * string);
  net_ports : gmap string (string * string);
}.

#[export] Instance network_row_eta : Eta network_row := fun w =>
  MkNetwork (nw_project w) (nw_generation w) (nw_lifecycle w) (nw_mtu w) (nw_revision w) (nw_name w) (nw_profile w)
    (nw_policy w) (nw_protected w) (nw_digest w) (nw_source w).
#[export] Instance allocation_row_eta : Eta allocation_row := fun a =>
  MkAllocation (al_id a) (al_revision a) (al_pool a) (al_type a) (al_segment a) (al_generation a) (al_state a).
#[export] Instance segment_claim_eta : Eta segment_claim_row := fun c =>
  MkSegmentClaim (sc_network c) (sc_type c) (sc_scope c) (sc_segment c) (sc_state c) (sc_allocation c) (sc_generation c).
#[export] Instance operation_state_eta : Eta operation_state_row := fun o =>
  MkOperationState (os_generation o) (os_network o) (os_revision o) (os_allocation o) (os_allocation_generation o)
    (os_realization o) (os_kind o) (os_phase o) (os_last_claim o) (os_owner o) (os_claim o) (os_expires o)
    (os_response o) (os_terminal o) (os_updated o).
#[export] Instance realization_row_eta : Eta realization_row := fun r =>
  MkRealization (rz_revision r) (rz_allocation_generation r) (rz_generation r) (rz_operation r) (rz_operation_generation r)
    (rz_state r) (rz_terminal r).
#[export] Instance netdb_eta : Eta netdb := fun d =>
  MkNetDb (net_mode d) (net_projects d) (pools d) (networks d) (network_revisions d) (segment_decisions d)
    (allocations d) (releases d) (segment_claims d) (realization_operations d) (operation_states d)
    (realization_attempts d) (attempt_event_log d) (realization_observations d) (realization_terminals d)
    (realizations d) (net_subnets d) (net_ports d).

(** ** Statements *)

Definition ErrPlacementConflict : goerr := errors_New "placement admission conflict".
Definition ErrCatalogAuthorityMode : goerr := errors_New "database authority does not allow catalog mutation".
Definition ErrNoNetworkRealizationWork : goerr := errors_New "no Network realization work available".
(** Nanoseconds *)
Definition MaxOVNRuntimeClaimLifetime : Z := 86400000000000.

Definition requireActiveDatabaseAuthority (d : netdb) : res unit :=
  fail_if (net_mode d !=s "ACTIVE") ErrCatalogAuthorityMode.

(** A bigint column a uint64 is stored in, and one that is counted up *)
Definition bigint (z : Z) : res Z := fail_if (MaxInt64 <? z) out_of_range;; Ok z.
Definition next_bigint (z : Z) : res Z := fail_if (MaxInt64 <=? z) out_of_range;; Ok (z + 1).

(** [networkResourceIDPattern] *)
Definition id_head (c : ascii) : bool :=
  let b := byte_of c in ((48 <=? b) && (b <=? 57)) || ((65 <=? b) && (b <=? 90)) || ((97 <=? b) && (b <=? 122)).
Definition networkResourceIDPattern (s : string) : bool :=
  match s with
  | String c rest =>
      id_head c && (len rest <=? 254) && forallb (fun c => id_head c || one_of "_.:-" c) (list_ascii_of_string rest)
  | ""%string => false
  end.

(** [digestNetworkResource], [networkDesiredDigest] *)
Definition digestNetworkResource (value : string) : string := sha256_hex value.
Definition network_desired_json (r : NetworkResourceRequest) (revision : Z) (lifecycle : string) : json :=
  JObj [("NetworkID", JStr (rq_NetworkID r)); ("ProjectID", JStr (rq_ProjectID r)); ("Name", JStr (rq_Name r));
        ("Profile", JStr (rq_Profile r)); ("SegmentPolicy", JStr (rq_SegmentPolicy r)); ("Lifecycle", JStr lifecycle);
        ("MTU", JUint (rq_MTU r)); ("RequestedSegmentID", JUint (rq_RequestedSegmentID r));
        ("DeleteProtection", JBool (rq_DeleteProtection r)); ("Revision", JUint revision)]%string.
Definition networkDesiredDigest (r : NetworkResourceRequest) (revision : Z) (lifecycle : string) : string :=
  sha256_hex (marshal (network_desired_json r revision lifecycle)).

(** A revision, as the constraints of its table want it; [NULLIF(id,0)] *)
Definition nullif_zero (z : Z) : option Z := if z =? 0 then None else Some z.
Definition revision_row_of (r : NetworkResourceRequest) (protected : bool) (lifecycle : string) (previous : option Z)
    (digest : string) : network_revision_row :=
  MkNetworkRevision (rq_ProjectID r) (rq_Name r) (rq_Profile r) (rq_MTU r) (rq_SegmentPolicy r)
    (nullif_zero (rq_RequestedSegmentID r)) protected lifecycle previous digest.
Definition within (low high : Z) (o : option Z) : bool :=
  match o with Some z => (low <=? z) && (z <=? high) | None => true end.
Definition revision_row_ok (revision : Z) (e : network_revision_row) : bool :=
  (0 <? revision) && (576 <=? nr_mtu e) && (nr_mtu e <=? 9216)
  && match nr_previous e with Some p => (1 <? revision) && (p =? revision - 1) | None => revision =? 1 end
  && (if nr_policy e ==s "AUTO" then bool_decide (nr_requested e = None)
      else (nr_policy e ==s "EXPLICIT") && bool_decide (is_Some (nr_requested e)))
  && (if nr_profile e ==s "STANDARD_OVERLAY" then within 1 16777215 (nr_requested e)
      else (nr_profile e ==s "PROVIDER_VLAN") && within 1 4094 (nr_requested e))
  && hex64 (nr_digest e).
Definition insert_revision (network : string) (revision : Z) (e : network_revision_row) (d : netdb) : res netdb :=
  fail_if (negb (revision_row_ok revision e)) (check_violation "network_resource_revision_evidence");;
  fail_if (bool_decide (is_Some (network_revisions d !! (network, revision))))
    (unique_violation "network_resource_revision_evidence");;
  Ok (d <| network_revisions ::= <[(network, revision) := e]> |>).

(** The lowest segment of the pool that no allocation holds; the number of
    allocations and one more are enough steps. *)
Definition holds_segment (pool : string) (segment : Z) (a : allocation_row) : bool :=
  (al_pool a ==s pool) && (al_segment a =? segment)
  && ((al_state a ==s "ALLOCATED") || (al_state a ==s "RELEASE_PENDING")).
Definition segment_held (pool : string) (segment : Z) (d : netdb) : bool :=
  any_row (fun _ a => holds_segment pool segment a) (allocations d).
Fixpoint free_segment (steps : nat) (pool : string) (candidate maximum : Z) (d : netdb) : option Z :=
  match steps with
  | O => None
  | S steps =>
      if maximum <? candidate then None
      else if segment_held pool candidate d then free_segment steps pool (candidate + 1) maximum d
      else Some candidate
  end.
Definition lowest_free (pool : string) (minimum maximum : Z) (d : netdb) : option Z :=
  free_segment (S (size (allocations d))) pool minimum maximum d.

(** The allocation and its decision *)
Definition insert_decision (allocation : string) (s : segment_decision_row) (d : netdb) : res netdb :=
  fail_if (negb (hex64 (sd_digest s))) (check_violation "network_segment_allocation_decision_evidence");;
  fail_if (bool_decide (is_Some (segment_decisions d !! allocation))
           || any_row (fun _ o => (sd_network o ==s sd_network s) && (sd_generation o =? sd_generation s)) (segment_decisions d))
    (unique_violation "network_segment_allocation_decision_evidence");;
  Ok (d <| segment_decisions ::= <[allocation := s]> |>).
Definition insert_allocation (network : string) (a : allocation_row) (d : netdb) : res netdb :=
  fail_if (bool_decide (is_Some (allocations d !! network))
           || any_row (fun _ o => (al_id o ==s al_id a) || ((al_pool o ==s al_pool a) && (al_segment o =? al_segment a)))
                (allocations d))
    (unique_violation "network_segment_allocations_current");;
  Ok (d <| allocations ::= <[network := a]> |>).

(** The claim of a segment; a partial unique index keeps the claims in force
    apart. *)
Definition claim_in_force (c : segment_claim_row) : bool :=
  (sc_state c ==s "ACTIVE") || (sc_state c ==s "RELEASE_PENDING") || (sc_state c ==s "QUARANTINED").
Definition insert_segment_claim (id : string) (c : segment_claim_row) (d : netdb) : res netdb :=
  fail_if (negb (if sc_type c ==s "VLAN" then (1 <=? sc_segment c) && (sc_segment c <=? 4094)
                 else (1 <=? sc_segment c) && (sc_segment c <=? 16777215)))
    (check_violation "network_segment_claims_current");;
  fail_if (bool_decide (is_Some (segment_claims d !! id))
           || any_row (fun _ o => claim_in_force o && (sc_type o ==s sc_type c) && (sc_scope o ==s sc_scope c)
                                  && (sc_segment o =? sc_segment c)) (segment_claims d))
    (unique_violation "network_segment_claims_current");;
  Ok (d <| segment_claims ::= <[id := c]> |>).

(** ** The operation of a realization *)

Definition operation_id (network : string) (realization : Z) : string :=
  "network-realization:" ++ network ++ ":" ++ FormatUint realization.
Definition intent_of (desired : NetworkResourceRequest) (authority backend allocation_generation realization : Z)
    (allocation segment_type : string) (segment : Z) (state : string) (generation : Z) : NetworkIntentInput :=
  MkNetworkIntent (operation_id (rq_NetworkID desired) realization) (rq_ProjectID desired) (rq_NetworkID desired) allocation
    segment_type generation authority backend allocation_generation realization segment state.

(** The operation replaces the one the Network had. *)
Definition put_operation (o : string) (s : operation_state_row) (d : netdb) : res netdb :=
  fail_if (match operation_states d !! o with Some old => os_network old !=s os_network s | None => false end)
    (unique_violation "network_realization_operations_current");;
  Ok (d <| operation_states ::= fun m => <[o := s]> (filter (fun kv => os_network (snd kv) <> os_network s) m) |>).

(** [insertNetworkRealizationOperationTx] *)
Definition insertNetworkRealizationOperationTx (now : Z) (desired : NetworkResourceRequest)
    (authorityRevision backendRevision allocationGeneration realizationGeneration : Z) (allocationID segmentType : string)
    (segmentID : Z) (kind state : string) (operationGeneration : Z) (d : netdb) : res netdb :=
  let network := rq_NetworkID desired in
  let operationID := operation_id network realizationGeneration in
  '(plan, planDigest) ← PlanNetwork (intent_of desired authorityRevision backendRevision allocationGeneration
                          realizationGeneration allocationID segmentType segmentID state operationGeneration);
  authorityRevision ← bigint authorityRevision;
  realizationGeneration ← bigint realizationGeneration;
  fail_if (bool_decide (is_Some (realization_operations d !! (operationID, operationGeneration)))
           || any_row (fun _ e => (ro_network e ==s network) && (ro_realization e =? realizationGeneration))
                (realization_operations d))
    (unique_violation "network_realization_operation_evidence");;
  let d := d <| realization_operations ::=
    <[(operationID, operationGeneration) :=
      MkRealizationOperation kind network authorityRevision allocationID allocationGeneration realizationGeneration
        NetworkIntentSchema plan planDigest]> |> in
  d ← put_operation operationID
        (MkOperationState operationGeneration network authorityRevision allocationID allocationGeneration
           realizationGeneration kind "PENDING" 0 None None None None None now) d;
  Ok (d <| realizations ::= <[network := MkRealization authorityRevision allocationGeneration realizationGeneration
                                           operationID operationGeneration "PENDING" None]> |>).

(** ** Declaring a Network *)

Definition request_ok (r : NetworkResourceRequest) : bool :=
  negb (negb (networkResourceIDPattern (rq_NetworkID r)) || (rq_ProjectID r ==s "") || (rq_Name r ==s "")
        || (255 <? len (rq_Name r)) || (rq_MTU r <? 576) || (9216 <? rq_MTU r)
        || ((rq_Profile r !=s "STANDARD_OVERLAY") && (rq_Profile r !=s "PROVIDER_VLAN"))
        || ((rq_SegmentPolicy r !=s "AUTO") && (rq_SegmentPolicy r !=s "EXPLICIT"))
        || ((rq_SegmentPolicy r ==s "AUTO") && (rq_RequestedSegmentID r !=z 0))
        || ((rq_SegmentPolicy r ==s "EXPLICIT") && (rq_RequestedSegmentID r =? 0))
        || ((rq_Profile r ==s "STANDARD_OVERLAY") && (16777215 <? rq_RequestedSegmentID r))
        || ((rq_Profile r ==s "PROVIDER_VLAN") && (4094 <? rq_RequestedSegmentID r))).

Definition pool_of (profile : string) : string * string :=
  if profile ==s "PROVIDER_VLAN" then ("provider-vlan", "VLAN")%string else ("standard-overlay", "VNI")%string.

(** The segment a request gets: the lowest free one, or the one it names *)
Definition choose_segment (r : NetworkResourceRequest) (poolID : string) (pool : pool_row) (d : netdb) : res Z :=
  segmentID ←
    (if rq_SegmentPolicy r ==s "AUTO"
     then row (lowest_free poolID (pl_minimum pool) (pl_maximum pool) d) ErrPlacementConflict
     else fail_if ((rq_RequestedSegmentID r <? pl_minimum pool) || (pl_maximum pool <? rq_RequestedSegmentID r))
            ErrPlacementConflict;;
          Ok (rq_RequestedSegmentID r));
  fail_if (segment_held poolID segmentID d) ErrPlacementConflict;;
  Ok segmentID.

(** The rows of a new Network *)
Definition declare_network (now : Z) (r : NetworkResourceRequest) (digest poolID segmentType : string) (pool : pool_row)
    (segmentID : Z) (d : netdb) : res netdb :=
  let network := rq_NetworkID r in
  let allocationID := ("network-allocation:" ++ network ++ ":1")%string in
  let allocationDigest := digestNetworkResource
    (network ++ "/" ++ poolID ++ "/" ++ FormatInt (pl_generation pool) ++ "/" ++ segmentType ++ "/" ++ FormatInt segmentID
     ++ "/1")%string in
  d ← insert_revision network 1 (revision_row_of r (rq_DeleteProtection r) "ACTIVE" None digest) d;
  fail_if (bool_decide (is_Some (networks d !! network))) (unique_violation "networks_current");;
  let d := d <| networks ::= <[network :=
    MkNetwork (rq_ProjectID r) 1 "ACTIVE" (rq_MTU r) 1 (rq_Name r) (rq_Profile r) (rq_SegmentPolicy r)
      (rq_DeleteProtection r) digest "NETWORK_RESOURCE"]> |> in
  d ← insert_decision allocationID (MkSegmentDecision network 1 poolID (pl_generation pool) segmentType segmentID 1 allocationDigest) d;
  d ← insert_allocation network (MkAllocation allocationID 1 poolID segmentType segmentID 1 "ALLOCATED") d;
  d ← insert_segment_claim ("network-segment:" ++ network)
        (MkSegmentClaim network segmentType poolID segmentID "ACTIVE" (Some allocationID) (Some 1)) d;
  insertNetworkRealizationOperationTx now r 1 1 1 1 allocationID segmentType segmentID "REALIZE" "PRESENT" 1 d.

(** The transaction of [CreateNetworkResource] *)
Definition CreateNetworkResource (now : Z) (r : NetworkResourceRequest) (d : netdb) : res netdb :=
  fail_if (negb (request_ok r)) (errors_New "complete logical Network desired authority is required");;
  let digest := networkDesiredDigest r 1 "ACTIVE" in
  requireActiveDatabaseAuthority d;;
  match networks d !! rq_NetworkID r with
  | Some w =>
      if (nw_source w ==s "NETWORK_RESOURCE") && (nw_digest w ==s digest) then Ok d else Err ErrPlacementConflict
  | None =>
      fail_if (negb (bool_decide (net_projects d !! rq_ProjectID r = Some "ACTIVE"%string))) ErrPlacementConflict;;
      let '(poolID, segmentType) := pool_of (rq_Profile r) in
      pool ← row (pools d !! poolID) ErrPlacementConflict;
      fail_if (pl_lifecycle pool !=s "ACTIVE") ErrPlacementConflict;;
      segmentID ← choose_segment r poolID pool d;
      declare_network now r digest poolID segmentType pool segmentID d
  end.

(** ** Revising and retiring *)

(** The join of a Network with its allocation and realization *)
Definition current_network (network : string) (d : netdb) : res (network_row * allocation_row * realization_row) :=
  w ← row (networks d !! network) ErrPlacementConflict;
  a ← row (allocations d !! network) ErrPlacementConflict;
  z ← row (realizations d !! network) ErrPlacementConflict;
  fail_if (nw_source w !=s "NETWORK_RESOURCE") ErrPlacementConflict;;
  Ok (w, a, z).

(** The request a Network stands for *)
Definition desired_of (network : string) (w : network_row) (a : allocation_row) (name : string) (mtu : Z) (protected : bool) :
    NetworkResourceRequest :=
  MkNetworkRequest network (nw_project w) name (nw_profile w) (nw_policy w) mtu
    (if nw_policy w ==s "EXPLICIT" then al_segment a else 0) protected.

(** [UpdateNetworkResource] *)
Definition UpdateNetworkResource (now : Z) (network : string) (patch : NetworkResourcePatch) (d : netdb) : res netdb :=
  fail_if (negb (networkResourceIDPattern network) || (nx_ExpectedRevision patch =? 0) || (nx_Name patch ==s "")
           || (255 <? len (nx_Name patch)) || (nx_MTU patch <? 576) || (9216 <? nx_MTU patch))
    (errors_New "complete Network revision patch is required");;
  requireActiveDatabaseAuthority d;;
  '(w, a, z) ← current_network network d;
  fail_if ((nw_lifecycle w !=s "ACTIVE") || (nw_revision w !=z nx_ExpectedRevision patch)) ErrPlacementConflict;;
  let desired := desired_of network w a (nx_Name patch) (nx_MTU patch) (nx_DeleteProtection patch) in
  next ← next_bigint (nw_revision w);
  let digest := networkDesiredDigest desired next "ACTIVE" in
  d ← insert_revision network next (revision_row_of desired (rq_DeleteProtection desired) "ACTIVE" (Some (nw_revision w)) digest) d;
  let d := d <| networks ::= <[network :=
    w <| nw_revision := next |> <| nw_generation := next |> <| nw_name := rq_Name desired |> <| nw_mtu := rq_MTU desired |>
      <| nw_protected := rq_DeleteProtection desired |> <| nw_digest := digest |>]> |> in
  let d := d <| allocations ::= <[network := a <| al_revision := next |>]> |> in
  insertNetworkRealizationOperationTx now desired next next (al_generation a) (rz_generation z + 1) (al_id a) (al_type a)
    (al_segment a) "REALIZE" "PRESENT" 1 d.

(** Subnets and ports that keep a Network from being retired *)
Definition has_dependents (network : string) (d : netdb) : bool :=
  any_row (fun _ s => (fst s ==s network) && ((snd s ==s "ACTIVE") || (snd s ==s "DRAINING") || (snd s ==s "RETIRE_PENDING")))
    (net_subnets d)
  || any_row (fun _ p => (fst p ==s network) && (snd p !=s "RELEASED")) (net_ports d).

(** [RequestNetworkRetirement] *)
Definition RequestNetworkRetirement (now : Z) (network : string) (expectedRevision : Z) (d : netdb) : res netdb :=
  requireActiveDatabaseAuthority d;;
  '(w, a, z) ← current_network network d;
  fail_if ((nw_lifecycle w !=s "ACTIVE") || (nw_revision w !=z expectedRevision)) ErrPlacementConflict;;
  fail_if (nw_protected w) (errors_New "Network delete protection is enabled");;
  fail_if (has_dependents network d) ErrPlacementConflict;;
  let desired := desired_of network w a (nw_name w) (nw_mtu w) (nw_protected w) in
  next ← next_bigint (nw_revision w);
  let digest := networkDesiredDigest desired next "RETIRE_PENDING" in
  d ← insert_revision network next (revision_row_of desired false "RETIRE_PENDING" (Some (nw_revision w)) digest) d;
  let d := d <| networks ::= <[network :=
    w <| nw_revision := next |> <| nw_generation := next |> <| nw_lifecycle := "RETIRE_PENDING"%string |>
      <| nw_digest := digest |>]> |> in
  let d := d <| allocations ::= <[network := a <| al_revision := next |> <| al_state := "RELEASE_PENDING"%string |>]> |> in
  insertNetworkRealizationOperationTx now desired next (nw_revision w) (al_generation a) (rz_generation z + 1) (al_id a)
    (al_type a) (al_segment a) "RETIRE" "ABSENT" 1 d.

(** ** Claims of work *)

(** Work a worker may claim: never dispatched, of unknown outcome, or claimed
    with a lease that ran out *)
Definition claimable (now : Z) (s : operation_state_row) : bool :=
  (os_phase s ==s "PENDING") || (os_phase s ==s "DISPATCH_UNKNOWN")
  || ((os_phase s ==s "CLAIMED") && match os_expires s with Some t => t <=? now | None => false end).
(** [ORDER BY updated_at, operation_id LIMIT 1] *)
Definition candidates (now : Z) (operationID : string) (d : netdb) : list (string * operation_state_row) :=
  sort_Slice (less_then (less_on Z.ltb (fun os => os_updated (snd os))) (less_on String.ltb fst))
    (List.filter (fun os => ((operationID ==s "") || (fst os ==s operationID)) && claimable now (snd os)
                            && bool_decide (is_Some (realization_operations d !! (fst os, os_generation (snd os)))))
       (map_to_list (operation_states d))).

Section Stored.
(** The text PostgreSQL returns for a jsonb column a text was stored in *)
Context (jsonb_text : bytes -> bytes).

(** [ClaimNetworkRealization] *)
Definition ClaimNetworkRealization (now : Z) (operationID owner : string) (lease : Z) (d : netdb) :
    res (netdb * NetworkRealizationClaim) :=
  fail_if ((owner ==s "") || (lease <=? 0) || (MaxOVNRuntimeClaimLifetime <? lease))
    (errors_New "bounded Network realization claim is required");;
  requireActiveDatabaseAuthority d;;
  match candidates now operationID d with
  | [] => Err ErrNoNetworkRealizationWork
  | (o, s) :: _ =>
      e ← row (realization_operations d !! (o, os_generation s)) ErrNoRows;
      let mode := (if os_phase s ==s "PENDING" then "APPLY_ALLOWED" else "READ_BACK_FIRST")%string in
      generation ← next_bigint (os_last_claim s);
      let expires := now + microseconds lease in
      let d := d <| operation_states ::= <[o :=
        s <| os_phase := "CLAIMED"%string |> <| os_owner := Some owner |> <| os_claim := Some generation |>
          <| os_last_claim := generation |> <| os_expires := Some expires |> <| os_updated := now |>]> |> in
      fail_if (bool_decide (is_Some (realization_attempts d !! (o, os_generation s, generation))))
        (unique_violation "network_realization_attempt_evidence");;
      Ok (d <| realization_attempts ::= <[(o, os_generation s, generation) := MkRealizationAttempt owner mode expires]> |>,
          MkNetworkClaim o owner mode (os_kind s) (ro_digest e) (os_generation s) generation (jsonb_text (ro_plan e)) expires)
  end.

(** [lockNetworkRealizationClaim] *)
Definition holds_claim (now : Z) (c : NetworkRealizationClaim) (s : operation_state_row) : bool :=
  (os_generation s =? nc_OperationGeneration c) && (os_phase s ==s "CLAIMED")
  && bool_decide (os_owner s = Some (nc_Owner c)) && bool_decide (os_claim s = Some (nc_ClaimGeneration c))
  && match os_expires s with Some t => now <? t | None => false end.
Definition lockNetworkRealizationClaim (now : Z) (c : NetworkRealizationClaim) (d : netdb) : res operation_state_row :=
  fail_if ((nc_OperationID c ==s "") || (nc_Owner c ==s "") || (nc_ClaimGeneration c =? 0)) ErrPlacementConflict;;
  requireActiveDatabaseAuthority d;;
  s ← row (operation_states d !! nc_OperationID c) ErrPlacementConflict;
  fail_if (negb (holds_claim now c s)) ErrPlacementConflict;;
  Ok s.

(** The claim is given up in a phase. *)
Definition leave_claim (now : Z) (o phase response : string) (terminal : option string) (s : operation_state_row) (d : netdb) :
    netdb :=
  d <| operation_states ::= <[o :=
    s <| os_phase := phase |> <| os_response := Some response |> <| os_terminal := terminal |> <| os_owner := None |>
      <| os_claim := None |> <| os_expires := None |> <| os_updated := now |>]> |>.

(** [MarkNetworkRealizationDispatchUnknown] *)
Definition MarkNetworkRealizationDispatchUnknown (now : Z) (c : NetworkRealizationClaim) (d : netdb) : res netdb :=
  s ← lockNetworkRealizationClaim now c d;
  Ok (leave_claim now (nc_OperationID c) "DISPATCH_UNKNOWN" "UNKNOWN" (os_terminal s) s d).

Definition attempt_key (c : NetworkRealizationClaim) : string * Z * Z :=
  (nc_OperationID c, nc_OperationGeneration c, nc_ClaimGeneration c).
Definition attempt_event (c : NetworkRealizationClaim) (event : string) : string * Z * Z * string := (attempt_key c, event).
Definition event_recorded (c : NetworkRealizationClaim) (event : string) (d : netdb) : bool :=
  bool_decide (attempt_event c event ∈ attempt_event_log d).
Definition record_event (c : NetworkRealizationClaim) (event : string) (d : netdb) : netdb :=
  d <| attempt_event_log ::= fun log => {[attempt_event c event]} ∪ log |>.

(** [RecordNetworkRealizationReadBackStarted] *)
Definition RecordNetworkRealizationReadBackStarted (now : Z) (c : NetworkRealizationClaim) (d : netdb) : res netdb :=
  lockNetworkRealizationClaim now c d;;
  a ← row (realization_attempts d !! attempt_key c) ErrPlacementConflict;
  fail_if (ra_mode a !=s "READ_BACK_FIRST") ErrPlacementConflict;;
  Ok (record_event c "READ_BACK_STARTED" d).

(** [AuthorizeNetworkRealizationApply] *)
Definition AuthorizeNetworkRealizationApply (now : Z) (c : NetworkRealizationClaim) (d : netdb) : res netdb :=
  lockNetworkRealizationClaim now c d;;
  a ← row (realization_attempts d !! attempt_key c) ErrNoRows;
  fail_if ((ra_mode a ==s "READ_BACK_FIRST") && negb (event_recorded c "READ_BACK_STARTED" d)) ErrPlacementConflict;;
  Ok (record_event c "APPLY_AUTHORIZED" d).

(** ** Accepting an observation *)

(** The evidence of an observation *)
Definition insert_observation (c : NetworkRealizationClaim) (o : NetworkRealizationObservation) (s : operation_state_row)
    (d : netdb) : res netdb :=
  generation ← bigint (ro_ObservationGeneration o);
  fail_if (negb (hex64 (ro_ObservationDigest o)) || negb (hex64 (ro_AdapterArtifactDigest o)))
    (check_violation "network_realization_observation_evidence");;
  fail_if (bool_decide (is_Some (realization_observations d !! ro_ObservationID o))
           || any_row (fun _ b => (rb_operation b ==s nc_OperationID c) && (rb_generation b =? nc_OperationGeneration c)
                                  && (rb_observation b =? generation)) (realization_observations d))
    (unique_violation "network_realization_observation_evidence");;
  Ok (d <| realization_observations ::= <[ro_ObservationID o :=
    MkRealizationObservationRow (nc_OperationID c) (nc_OperationGeneration c) (os_network s) (os_revision s)
      (os_allocation_generation s) (os_realization s) generation (ro_ApplyResponseState o) (ro_LogicalSwitchName o)
      (if ro_BackendUUID o ==s "" then None else Some (ro_BackendUUID o)) (LogicalSwitchPresent (ro_Observation o))
      (OwnershipMarkerMatches (ro_Observation o)) (PlanDigestMatches (ro_Observation o)) (ro_ObservationDigest o)
      (ro_AdapterArtifactDigest o)]> |>).

(** A retirement that ended gives the segment back. *)
Definition release_segment (s : operation_state_row) (terminal : string) (d : netdb) : res netdb :=
  let network := os_network s in
  a ← row (allocations d !! network) ErrPlacementConflict;
  fail_if ((al_id a !=s os_allocation s) || (al_generation a !=z os_allocation_generation s)
           || (al_state a !=s "RELEASE_PENDING")) ErrPlacementConflict;;
  let digest := digestNetworkResource
    (os_allocation s ++ "/" ++ network ++ "/" ++ FormatInt (os_allocation_generation s) ++ "/" ++ terminal)%string in
  let id := ("network-release:" ++ os_allocation s)%string in
  fail_if (bool_decide (is_Some (releases d !! id))
           || any_row (fun _ r => (rl_allocation r ==s os_allocation s) && (rl_generation r =? os_allocation_generation s))
                (releases d))
    (unique_violation "network_segment_release_evidence");;
  let d := d <| releases ::= <[id := MkRelease (os_allocation s) network (os_allocation_generation s) terminal (al_pool a)
                                       (al_type a) (al_segment a) digest]> |> in
  let d := d <| allocations ::= delete network |> in
  let d := d <| segment_claims ::= fmap (fun c =>
    if (sc_network c ==s network) && bool_decide (sc_allocation c = Some (os_allocation s))
       && bool_decide (sc_generation c = Some (os_allocation_generation s))
    then c <| sc_state := "RELEASED"%string |> else c) |> in
  Ok (match networks d !! network with
      | Some w =>
          if (nw_revision w =? os_revision s) && (nw_lifecycle w ==s "RETIRE_PENDING")
          then d <| networks ::= <[network := w <| nw_lifecycle := "DELETED"%string |>]> |> else d
      | None => d
      end).

(** The terminal evidence of an operation, and what it settles *)
Definition terminal_id (c : NetworkRealizationClaim) : string :=
  ("network-terminal:" ++ nc_OperationID c ++ ":" ++ FormatUint (nc_OperationGeneration c))%string.
Definition conclude (now : Z) (c : NetworkRealizationClaim) (o : NetworkRealizationObservation) (kind state : string)
    (s : operation_state_row) (d : netdb) : res netdb :=
  let terminal := terminal_id c in
  let digest := digestNetworkResource
    (os_network s ++ "/" ++ FormatInt (os_revision s) ++ "/" ++ os_allocation s ++ "/"
     ++ FormatInt (os_allocation_generation s) ++ "/" ++ FormatInt (os_realization s) ++ "/" ++ state)%string in
  fail_if (bool_decide (is_Some (realization_terminals d !! terminal)))
    (unique_violation "network_realization_terminal_evidence");;
  let d := d <| realization_terminals ::= <[terminal :=
    MkRealizationTerminal (nc_OperationID c) (nc_OperationGeneration c) (ro_ObservationID o) (os_network s) (os_revision s)
      (os_allocation_generation s) (os_realization s) state digest]> |> in
  let d := leave_claim now (nc_OperationID c) "SUCCEEDED" (ro_ApplyResponseState o) (Some terminal) s d in
  let d := match realizations d !! os_network s with
           | Some z =>
               if (rz_revision z =? os_revision s) && (rz_generation z =? os_realization s)
               then d <| realizations ::= <[os_network s := z <| rz_state := state |> <| rz_terminal := Some terminal |>]> |>
               else d
           | None => d
           end in
  if kind ==s "RETIRE" then release_segment s terminal d else Ok d.

(** [AcceptNetworkRealizationObservation]: the tables and the terminal state *)
Definition AcceptNetworkRealizationObservation (now : Z) (c : NetworkRealizationClaim) (o : NetworkRealizationObservation)
    (d : netdb) : res (netdb * string) :=
  fail_if ((ro_ObservationID o ==s "") || (ro_OperationID o !=s nc_OperationID c)
           || (ro_OperationGeneration o !=z nc_OperationGeneration c) || (ro_ObservationGeneration o =? 0)
           || (len (ro_ObservationDigest o) !=z 64) || (len (ro_AdapterArtifactDigest o) !=z 64)
           || ((ro_ApplyResponseState o !=s "RECEIVED") && (ro_ApplyResponseState o !=s "LOST")
               && (ro_ApplyResponseState o !=s "UNKNOWN"))) ErrPlacementConflict;;
  s ← lockNetworkRealizationClaim now c d;
  e ← row (realization_operations d !! (nc_OperationID c, os_generation s)) ErrNoRows;
  '(_, plan) ← RestoreStoredNetworkPlan (jsonb_text (ro_plan e)) (ro_digest e);
  fail_if (ro_LogicalSwitchName o !=s np_LogicalSwitchName plan) ErrPlacementConflict;;
  a ← row (realization_attempts d !! attempt_key c) ErrNoRows;
  fail_if (((ra_mode a ==s "READ_BACK_FIRST") && negb (event_recorded c "READ_BACK_STARTED" d))
           || ((ro_ApplyResponseState o !=s "UNKNOWN") && negb (event_recorded c "APPLY_AUTHORIZED" d)))
    ErrPlacementConflict;;
  let state := State (ro_Observation o) (np_DesiredState plan) in
  d ← insert_observation c o s d;
  if ((os_kind s ==s "REALIZE") && (state ==s "VERIFIED")) || ((os_kind s ==s "RETIRE") && (state ==s "ABSENT"))
  then d ← conclude now c o (os_kind s) state s d; Ok (d, state)
  else
    let phase := (if state ==s "CONFLICTING" then "FAILED" else "DISPATCH_UNKNOWN")%string in
    Ok (leave_claim now (nc_OperationID c) phase (ro_ApplyResponseState o) (os_terminal s) s d, ""%string).
End Stored.

(** [GetNetworkResource]: the row, its allocation and its realization *)
Definition GetNetworkResource (network : string) (d : netdb) :
    res (network_row * option allocation_row * option realization_row) :=
  w ← row (networks d !! network) ErrNoRows;
  fail_if (nw_source w !=s "NETWORK_RESOURCE") ErrNoRows;;
  Ok (w, allocations d !! network, realizations d !! network).
