(* ===== verification/NetworkRuns.v ===== *)
(** * Runs of the Network authority, and what holds along them

    Any sequence of the transactions of [NetworkResource], in any order and
    with any arguments, and of others that leave its tables alone, from tables
    that hold no Network resource yet. *)

From S2P Require Import Prelude GoStd GoJson ControlDb ControlFrames Northbound OvnPlan NetworkResource.
Local Open Scope Z_scope.
Local Open Scope go_scope.

(** ** Runs *)

Inductive request :=
| Create (r : NetworkResourceRequest)
| Revise (network : string) (patch : NetworkResourcePatch)
| Retire (network : string) (expectedRevision : Z)
| Claim (operation owner : string) (lease : Z)
| MarkUnknown (c : NetworkRealizationClaim)
| ReadBack (c : NetworkRealizationClaim)
| Authorize (c : NetworkRealizationClaim)
| Accept (c : NetworkRealizationClaim) (o : NetworkRealizationObservation).

(** A Network of this authority; the others are rows of the legacy foundation. *)
Definition resource_row (w : network_row) : Prop := nw_source w = "NETWORK_RESOURCE"%string.

(** What other transactions may change: the mode, projects, pools, subnets and
    ports, legacy Networks, and the claims of segments *)
Record others (d d' : netdb) : Prop := MkOthers {
  oth_networks n w : resource_row w -> networks d !! n = Some w <-> networks d' !! n = Some w;
  oth_revisions : network_revisions d' = network_revisions d;
  oth_decisions : segment_decisions d' = segment_decisions d;
  oth_allocations : allocations d' = allocations d;
  oth_releases : releases d' = releases d;
  oth_operations : realization_operations d' = realization_operations d;
  oth_states : operation_states d' = operation_states d;
  oth_attempts : realization_attempts d' = realization_attempts d;
  oth_events : attempt_event_log d' = attempt_event_log d;
  oth_observations : realization_observations d' = realization_observations d;
  oth_terminals : realization_terminals d' = realization_terminals d;
  oth_realizations : realizations d' = realizations d;
}.

(** Tables without a Network resource *)
Record bare (d : netdb) : Prop := MkBare {
  bare_networks n w : networks d !! n = Some w -> ~ resource_row w;
  bare_revisions : network_revisions d = ∅;
  bare_decisions : segment_decisions d = ∅;
  bare_allocations : allocations d = ∅;
  bare_releases : releases d = ∅;
  bare_operations : realization_operations d = ∅;
  bare_states : operation_states d = ∅;
  bare_attempts : realization_attempts d = ∅;
  bare_events : attempt_event_log d = ∅;
  bare_observations : realization_observations d = ∅;
  bare_terminals : realization_terminals d = ∅;
  bare_realizations : realizations d = ∅;
}.

Section Runs.
Context (jsonb_text : bytes -> bytes).

Definition effect (now : Z) (q : request) (d : netdb) : res netdb :=
  match q with
  | Create r => CreateNetworkResource now r d
  | Revise network patch => UpdateNetworkResource now network patch d
  | Retire network expected => RequestNetworkRetirement now network expected d
  | Claim operation owner lease => '(d, _) ← ClaimNetworkRealization jsonb_text now operation owner lease d; Ok d
  | MarkUnknown c => MarkNetworkRealizationDispatchUnknown now c d
  | ReadBack c => RecordNetworkRealizationReadBackStarted now c d
  | Authorize c => AuthorizeNetworkRealizationApply now c d
  | Accept c o => '(d, _) ← AcceptNetworkRealizationObservation jsonb_text now c o d; Ok d
  end.

Inductive runs : netdb -> netdb -> Prop :=
| runs_refl d : runs d d
| runs_others d d1 d2 : runs d d1 -> others d1 d2 -> runs d d2
| runs_effect now q d d1 d2 : runs d d1 -> effect now q d1 = Ok d2 -> runs d d2.
Definition reachable (d : netdb) : Prop := exists d0, bare d0 /\ runs d0 d.
End Runs.

(** ** The invariant *)

Definition allocation_of (network : string) : string := ("network-allocation:" ++ network ++ ":1")%string.

Lemma allocation_of_inj n n' : allocation_of n = allocation_of n' -> n = n'.
Proof.
  unfold allocation_of. intros H. apply (f_equal list_ascii_of_string) in H. rewrite !chars_app in H.
  apply app_inv_head, app_inv_tail in H. apply (f_equal string_of_list_ascii) in H.
  by rewrite !string_of_list_ascii_of_string in H.
Qed.

(** The columns of an operation that belong to its phase *)
Definition unclaimed (s : operation_state_row) : Prop := os_owner s = None /\ os_claim s = None /\ os_expires s = None.
Inductive phased (s : operation_state_row) : Prop :=
| phased_pending : os_phase s = "PENDING"%string -> os_last_claim s = 0 -> unclaimed s -> os_terminal s = None -> phased s
| phased_claimed owner expires : os_phase s = "CLAIMED"%string -> 1 <= os_last_claim s -> os_owner s = Some owner ->
    os_claim s = Some (os_last_claim s) -> os_expires s = Some expires -> os_terminal s = None -> phased s
| phased_left : os_phase s = "DISPATCH_UNKNOWN"%string \/ os_phase s = "FAILED"%string -> 1 <= os_last_claim s -> unclaimed s ->
    os_terminal s = None -> phased s
| phased_done terminal : os_phase s = "SUCCEEDED"%string -> 1 <= os_last_claim s -> unclaimed s ->
    os_terminal s = Some terminal -> phased s.

(** The operation a Network has, and its realization *)
Record operated (n : string) (revision : Z) (z : realization_row) (s : operation_state_row) : Prop := MkOperated {
  opd_operation : rz_operation z = operation_id n (rz_generation z);
  opd_network : os_network s = n;
  opd_generations : rz_operation_generation z = 1 /\ os_generation s = 1;
  opd_revision : rz_revision z = revision /\ os_revision s = revision;
  opd_realization : os_realization s = rz_generation z;
  opd_allocation : os_allocation s = allocation_of n;
  opd_allocated : rz_allocation_generation z = 1 /\ os_allocation_generation s = 1;
  opd_terminal : rz_terminal z = os_terminal s;
  opd_phased : phased s;
}.
Arguments opd_operation {_ _ _ _}.
Arguments opd_network {_ _ _ _}.
Arguments opd_generations {_ _ _ _}.
Arguments opd_revision {_ _ _ _}.
Arguments opd_realization {_ _ _ _}.
Arguments opd_allocation {_ _ _ _}.
Arguments opd_allocated {_ _ _ _}.
Arguments opd_terminal {_ _ _ _}.
Arguments opd_phased {_ _ _ _}.
(** The lifecycle of a Network, the kind of its operation and its allocation *)
Inductive lived (n : string) (w : network_row) (s : operation_state_row) : option allocation_row -> Prop :=
| lived_active a : nw_lifecycle w = "ACTIVE"%string -> os_kind s = "REALIZE"%string -> al_state a = "ALLOCATED"%string ->
    al_revision a = nw_revision w -> lived n w s (Some a)
| lived_retiring a : nw_lifecycle w = "RETIRE_PENDING"%string -> os_kind s = "RETIRE"%string -> os_phase s <> "SUCCEEDED"%string ->
    al_state a = "RELEASE_PENDING"%string -> al_revision a = nw_revision w -> lived n w s (Some a)
| lived_deleted : nw_lifecycle w = "DELETED"%string -> os_kind s = "RETIRE"%string -> os_phase s = "SUCCEEDED"%string ->
    lived n w s None.

Definition known (d : netdb) (n : string) : Prop := exists w, networks d !! n = Some w /\ resource_row w.
Definition kind_wants (kind : string) : string := if kind ==s "RETIRE" then "ABSENT" else "PRESENT".

Record standing (d : netdb) (n : string) (w : network_row) : Prop := MkStanding {
  std_revision : 1 <= nw_revision w /\ nw_generation w = nw_revision w;
  std_evidence : is_Some (network_revisions d !! (n, nw_revision w));
  std_operated : exists z s, realizations d !! n = Some z /\ operation_states d !! rz_operation z = Some s
    /\ operated n (nw_revision w) z s /\ lived n w s (allocations d !! n);
}.

(** The evidence of an operation *)
Record evident (d : netdb) (o : string) (g : Z) (e : realization_operation_row) : Prop := MkEvident {
  evi_generation : g = 1;
  evi_id : o = operation_id (ro_network e) (ro_realization e);
  evi_network : known d (ro_network e);
  evi_realization : forall z, realizations d !! ro_network e = Some z -> ro_realization e <= rz_generation z;
  evi_revision : is_Some (network_revisions d !! (ro_network e, ro_revision e));
  evi_allocation : ro_allocation e = allocation_of (ro_network e) /\ ro_allocation_generation e = 1
    /\ is_Some (segment_decisions d !! ro_allocation e);
  evi_kind : ro_kind e = "REALIZE"%string \/ ro_kind e = "RETIRE"%string;
  evi_plan : exists i, PlanNetwork i = Ok (ro_plan e, ro_digest e) /\ in_OperationID i = o /\ in_NetworkID i = ro_network e
    /\ in_AllocationID i = ro_allocation e /\ in_RealizationGeneration i = ro_realization e
    /\ in_DesiredState i = kind_wants (ro_kind e);
}.

(** The state of an operation and its evidence *)
Record evidenced (s : operation_state_row) (e : realization_operation_row) : Prop := MkEvidenced {
  evd_kind : ro_kind e = os_kind s;
  evd_network : ro_network e = os_network s;
  evd_revision : ro_revision e = os_revision s;
  evd_allocation : ro_allocation e = os_allocation s /\ ro_allocation_generation e = os_allocation_generation s;
  evd_realization : ro_realization e = os_realization s;
}.
Record stateful (d : netdb) (o : string) (s : operation_state_row) : Prop := MkStateful {
  stf_network : known d (os_network s);
  stf_realization : exists z, realizations d !! os_network s = Some z /\ rz_operation z = o;
  stf_evidence : exists e, realization_operations d !! (o, os_generation s) = Some e /\ evidenced s e;
  stf_attempt : forall owner, os_owner s = Some owner -> exists a,
    realization_attempts d !! (o, os_generation s, os_last_claim s) = Some a /\ ra_owner a = owner;
  stf_terminal : forall t, os_terminal s = Some t -> exists r, realization_terminals d !! t = Some r
    /\ rt_operation r = o /\ rt_state r = (if os_kind s ==s "RETIRE" then "ABSENT" else "VERIFIED")%string;
}.

(** An attempt may apply at once only when it is the first. *)
Record attempted (d : netdb) (o : string) (g claim : Z) (a : realization_attempt_row) : Prop := MkAttempted {
  atd_evidence : is_Some (realization_operations d !! (o, g));
  atd_mode : ra_mode a = "APPLY_ALLOWED"%string /\ claim = 1 \/ ra_mode a = "READ_BACK_FIRST"%string /\ 1 < claim;
  atd_claimed : forall s, operation_states d !! o = Some s -> claim <= os_last_claim s;
}.

(** An observation ends an operation only when it shows what the operation
    wants. *)
Definition shown (r : realization_terminal_row) (e : realization_operation_row) (b : realization_observation_row) : Prop :=
  rb_operation b = rt_operation r /\ rb_generation b = rt_generation r /\ rb_network b = rt_network r
  /\ ((rt_state r = "VERIFIED"%string /\ ro_kind e = "REALIZE"%string /\ rb_present b = true /\ rb_marker b = true /\ rb_plan b = true)
      \/ (rt_state r = "ABSENT"%string /\ ro_kind e = "RETIRE"%string /\ rb_present b = false)).
Definition terminal_of (operation : string) : string := ("network-terminal:" ++ operation ++ ":1")%string.
Record terminated (d : netdb) (t : string) (r : realization_terminal_row) : Prop := MkTerminated {
  tmd_id : t = terminal_of (rt_operation r);
  tmd_last : forall s, operation_states d !! rt_operation r = Some s -> os_terminal s = Some t;
  tmd_shown : exists e b, realization_operations d !! (rt_operation r, rt_generation r) = Some e
    /\ realization_observations d !! rt_observation r = Some b /\ shown r e b /\ ro_network e = rt_network r;
}.
Record released (d : netdb) (id : string) (r : release_row) : Prop := MkReleased {
  rld_id : id = ("network-release:" ++ rl_allocation r)%string;
  rld_allocation : rl_allocation r = allocation_of (rl_network r);
  rld_network : exists w, networks d !! rl_network r = Some w /\ resource_row w /\ nw_lifecycle w = "DELETED"%string;
  rld_decision : exists s, segment_decisions d !! rl_allocation r = Some s /\ sd_network s = rl_network r
    /\ sd_pool s = rl_pool r /\ sd_segment s = rl_segment r;
  rld_terminal : exists t, realization_terminals d !! rl_terminal r = Some t /\ rt_network t = rl_network r
    /\ rt_state t = "ABSENT"%string;
}.

Record sound (d : netdb) : Prop := MkSound {
  snd_standing n w : networks d !! n = Some w -> resource_row w -> standing d n w;
  snd_realization n z : realizations d !! n = Some z -> known d n;
  snd_decision id s : segment_decisions d !! id = Some s -> known d (sd_network s) /\ id = allocation_of (sd_network s)
    /\ sd_generation s = 1 /\ is_Some (network_revisions d !! (sd_network s, sd_revision s));
  snd_allocation n a : allocations d !! n = Some a -> known d n /\ al_id a = allocation_of n /\ al_generation a = 1
    /\ exists s, segment_decisions d !! al_id a = Some s /\ sd_network s = n /\ sd_pool s = al_pool a /\ sd_segment s = al_segment a;
  snd_exclusive n n' a a' : allocations d !! n = Some a -> allocations d !! n' = Some a' -> al_pool a = al_pool a' ->
    al_segment a = al_segment a' -> n = n';
  snd_evident o g e : realization_operations d !! (o, g) = Some e -> evident d o g e;
  snd_stateful o s : operation_states d !! o = Some s -> stateful d o s;
  snd_attempted o g claim a : realization_attempts d !! (o, g, claim) = Some a -> attempted d o g claim a;
  snd_event k event : (k, event) ∈ attempt_event_log d -> exists a, realization_attempts d !! k = Some a
    /\ (event = "READ_BACK_STARTED"%string /\ ra_mode a = "READ_BACK_FIRST"%string
        \/ event = "APPLY_AUTHORIZED"%string
           /\ (ra_mode a = "READ_BACK_FIRST"%string -> (k, "READ_BACK_STARTED"%string) ∈ attempt_event_log d));
  snd_observation id b : realization_observations d !! id = Some b ->
    is_Some (realization_operations d !! (rb_operation b, rb_generation b));
  snd_terminated t r : realization_terminals d !! t = Some r -> terminated d t r;
  snd_released id r : releases d !! id = Some r -> released d id r;
  snd_gone n w : networks d !! n = Some w -> resource_row w -> nw_lifecycle w = "DELETED"%string ->
    exists id r, releases d !! id = Some r /\ rl_network r = n;
}.

(** ** Tables without resources *)

Lemma bare_sound d : bare d -> sound d.
Proof.
  intros B. pose proof (bare_networks _ B) as Hn. destruct B as [_ E1 E2 E3 E4 E5 E6 E7 E8 E9 E10 E11].
  constructor; rewrite ?E1, ?E2, ?E3, ?E4, ?E5, ?E6, ?E7, ?E8, ?E9, ?E10, ?E11; intros; exfalso;
    match goal with
    | H : ∅ !! _ = Some _ |- _ => by apply lookup_empty_Some in H
    | H : _ ∈ ∅ |- _ => by apply not_elem_of_empty in H
    | H : networks d !! _ = Some _ |- _ => by apply Hn in H
    end.
Qed.

(** ** Other transactions *)

Lemma others_known d d' n : others d d' -> known d n -> known d' n.
Proof. intros O (w & Hw & Hr). exists w. split; [|done]. by apply (oth_networks _ _ O). Qed.

Lemma others_sound d d' : others d d' -> sound d -> sound d'.
Proof.
  intros O S. pose proof (fun n => others_known d d' n O) as Hk.
  pose proof (oth_networks _ _ O) as Hn. destruct O as [_ E1 E2 E3 E4 E5 E6 E7 E8 E9 E10 E11].
  constructor; rewrite ?E1, ?E2, ?E3, ?E4, ?E5, ?E6, ?E7, ?E8, ?E9, ?E10, ?E11.
  - intros n w Hw Hr. apply (Hn n w Hr) in Hw. destruct (snd_standing _ S n w Hw Hr).
    constructor; by rewrite ?E1, ?E3, ?E6, ?E11.
  - intros n z Hz. apply Hk. by eapply snd_realization.
  - intros id s Hs. destruct (snd_decision _ S id s Hs) as (? & ?). auto.
  - intros n a Ha. destruct (snd_allocation _ S n a Ha) as (? & ?). auto.
  - apply (snd_exclusive _ S).
  - intros o g e He. destruct (snd_evident _ S o g e He). constructor; rewrite ?E1, ?E2, ?E11; auto.
  - intros o s Hs. destruct (snd_stateful _ S o s Hs). constructor; rewrite ?E5, ?E7, ?E10, ?E11; auto.
  - intros o g c a Ha. destruct (snd_attempted _ S o g c a Ha). constructor; rewrite ?E5, ?E6; auto.
  - apply (snd_event _ S).
  - apply (snd_observation _ S).
  - intros t r Hr. destruct (snd_terminated _ S t r Hr). constructor; by rewrite ?E5, ?E6, ?E9.
  - intros id r Hr. destruct (snd_released _ S id r Hr) as [? ? (w & Hw & Hrw & ?) ? ?].
    constructor; rewrite ?E2, ?E10; try done. exists w. split_and!; try done. by apply Hn.
  - intros n w Hw Hr. apply (Hn n w Hr) in Hw. by eapply snd_gone.
Qed.

(** ** A new revision and its operation *)

Record replanned (d d' : netdb) (n : string) (r : Z) (w : network_row) (a : allocation_row) (s : operation_state_row) : Prop :=
  MkReplanned {
  rpl_networks : networks d' = <[n := w]> (networks d);
  rpl_revisions : exists e, network_revisions d' = <[(n, nw_revision w) := e]> (network_revisions d);
  rpl_decision : exists dec, segment_decisions d' = <[allocation_of n := dec]> (segment_decisions d) /\ sd_network dec = n
    /\ sd_pool dec = al_pool a /\ sd_segment dec = al_segment a /\ sd_generation dec = 1
    /\ is_Some (network_revisions d' !! (n, sd_revision dec));
  rpl_allocations : allocations d' = <[n := a]> (allocations d);
  rpl_allocation : al_id a = allocation_of n /\ al_generation a = 1;
  rpl_releases : releases d' = releases d;
  rpl_operation : exists e, realization_operations d' = <[(operation_id n r, 1) := e]> (realization_operations d)
    /\ evidenced s e /\ (ro_kind e = "REALIZE"%string \/ ro_kind e = "RETIRE"%string)
    /\ exists i, PlanNetwork i = Ok (ro_plan e, ro_digest e) /\ in_OperationID i = operation_id n r /\ in_NetworkID i = n
         /\ in_AllocationID i = allocation_of n /\ in_RealizationGeneration i = r /\ in_DesiredState i = kind_wants (ro_kind e);
  rpl_fresh : realization_operations d !! (operation_id n r, 1) = None;
  rpl_states : operation_states d' = <[operation_id n r := s]> (filter (fun kv => os_network (snd kv) <> n) (operation_states d));
  rpl_phase : os_phase s = "PENDING"%string /\ os_owner s = None /\ os_terminal s = None;
  rpl_attempts : realization_attempts d' = realization_attempts d;
  rpl_events : attempt_event_log d' = attempt_event_log d;
  rpl_observations : realization_observations d' = realization_observations d;
  rpl_terminals : realization_terminals d' = realization_terminals d;
  rpl_realization : exists z, realizations d' = <[n := z]> (realizations d) /\ rz_generation z = r /\ operated n (nw_revision w) z s;
  rpl_resource : resource_row w /\ 1 <= nw_revision w /\ nw_generation w = nw_revision w;
  rpl_lived : lived n w s (Some a);
  rpl_before w0 : networks d !! n = Some w0 -> resource_row w0 /\ nw_lifecycle w0 = "ACTIVE"%string;
  rpl_later z0 : realizations d !! n = Some z0 -> rz_generation z0 < r;
  rpl_exclusive n' a' : n' <> n -> allocations d !! n' = Some a' -> ~ (al_pool a' = al_pool a /\ al_segment a' = al_segment a);
}.
Arguments rpl_networks {_ _ _ _ _ _ _}.
Arguments rpl_revisions {_ _ _ _ _ _ _}.
Arguments rpl_decision {_ _ _ _ _ _ _}.
Arguments rpl_allocations {_ _ _ _ _ _ _}.
Arguments rpl_allocation {_ _ _ _ _ _ _}.
Arguments rpl_releases {_ _ _ _ _ _ _}.
Arguments rpl_operation {_ _ _ _ _ _ _}.
Arguments rpl_fresh {_ _ _ _ _ _ _}.
Arguments rpl_states {_ _ _ _ _ _ _}.
Arguments rpl_phase {_ _ _ _ _ _ _}.
Arguments rpl_attempts {_ _ _ _ _ _ _}.
Arguments rpl_events {_ _ _ _ _ _ _}.
Arguments rpl_observations {_ _ _ _ _ _ _}.
Arguments rpl_terminals {_ _ _ _ _ _ _}.
Arguments rpl_realization {_ _ _ _ _ _ _}.
Arguments rpl_resource {_ _ _ _ _ _ _}.
Arguments rpl_lived {_ _ _ _ _ _ _}.
Arguments rpl_before {_ _ _ _ _ _ _}.
Arguments rpl_later {_ _ _ _ _ _ _}.
Arguments rpl_exclusive {_ _ _ _ _ _ _}.

Section Replanned.
Context {d d' : netdb} {n : string} {r : Z} {w : network_row} {a : allocation_row} {s : operation_state_row}.
Hypothesis S : sound d.
Hypothesis R : replanned d d' n r w a s.

Lemma replanned_known n' : known d n' -> known d' n'.
Proof.
  intros (w' & Hw & Hr). unfold known. rewrite (rpl_networks R).
  destruct (decide (n' = n)) as [->|Hne].
  - exists w. rewrite lookup_insert_eq. by destruct (rpl_resource R).
  - exists w'. by rewrite lookup_insert_ne.
Qed.

Lemma replanned_self : known d' n.
Proof. exists w. rewrite (rpl_networks R), lookup_insert_eq. by destruct (rpl_resource R). Qed.

Lemma replanned_revision k : is_Some (network_revisions d !! k) -> is_Some (network_revisions d' !! k).
Proof.
  destruct (rpl_revisions R) as [e ->]. intros H. destruct (decide (k = (n, nw_revision w))) as [->|Hne].
  - rewrite lookup_insert_eq. by eexists.
  - by rewrite lookup_insert_ne.
Qed.

Lemma replanned_decision k : is_Some (segment_decisions d !! k) -> is_Some (segment_decisions d' !! k).
Proof.
  destruct (rpl_decision R) as (e & -> & _). intros H. destruct (decide (k = allocation_of n)) as [->|Hne].
  - rewrite lookup_insert_eq. by eexists.
  - by rewrite lookup_insert_ne.
Qed.

Lemma replanned_evidence k e : realization_operations d !! k = Some e -> realization_operations d' !! k = Some e.
Proof.
  destruct (rpl_operation R) as (e' & -> & _). intros H. rewrite lookup_insert_ne; [done|].
  intros <-. by rewrite (rpl_fresh R) in H.
Qed.

(** The operations of the other Networks stay. *)
Lemma replanned_state o s0 : operation_states d !! o = Some s0 -> os_network s0 <> n -> operation_states d' !! o = Some s0.
Proof.
  intros H Hn. rewrite (rpl_states R). rewrite lookup_insert_ne.
  - by apply map_lookup_filter_Some.
  - intros <-. destruct (stf_evidence _ _ _ (snd_stateful _ S _ _ H)) as (e & He & _).
    pose proof (evi_generation _ _ _ _ (snd_evident _ S _ _ _ He)) as E. rewrite E in He.
    by rewrite (rpl_fresh R) in He.
Qed.

Lemma replanned_state_inv o s0 : operation_states d' !! o = Some s0 ->
  o = operation_id n r /\ s0 = s \/ operation_states d !! o = Some s0 /\ os_network s0 <> n.
Proof.
  rewrite (rpl_states R). intros [[<- <-]|[_ H]]%lookup_insert_Some; [by left|].
  apply map_lookup_filter_Some in H. by right.
Qed.

Lemma replanned_realization n' : n' <> n -> realizations d' !! n' = realizations d !! n'.
Proof. destruct (rpl_realization R) as (z & -> & _). intros H. by rewrite lookup_insert_ne. Qed.

Lemma replan_standing n' w' : networks d' !! n' = Some w' -> resource_row w' -> standing d' n' w'.
Proof.
  destruct (rpl_revisions R) as [e Ee].
  rewrite (rpl_networks R). intros [[<- <-]|[Hne Hw]]%lookup_insert_Some Hr.
  - destruct (rpl_resource R) as (_ & H1 & H2). constructor; [done| |].
    + rewrite Ee, lookup_insert_eq. by eexists.
    + destruct (rpl_realization R) as (z & Ez & Er & Ho). exists z, s.
      rewrite Ez, (rpl_states R), (rpl_allocations R), lookup_insert_eq.
      rewrite (opd_operation Ho), Er, !lookup_insert_eq. split_and!; try done.
      apply (rpl_lived R).
  - destruct (snd_standing _ S n' w' Hw Hr) as [H1 H2 (z & s0 & Hz & Hs & Ho & Hl)]. constructor; [done| |].
    + by apply replanned_revision.
    + exists z, s0. rewrite replanned_realization, (rpl_allocations R), lookup_insert_ne by done.
      split_and!; try done. apply replanned_state; [done|]. by rewrite (opd_network Ho).
Qed.

Lemma replan_evident o g e : realization_operations d' !! (o, g) = Some e -> evident d' o g e.
Proof.
  destruct (rpl_operation R) as (e' & Ee & Hev & Hk & i & Hi & Hio & Hin & Hia & Hir & Hid).
  destruct (rpl_realization R) as (z & Ez & Erz & Ho).
  destruct (rpl_revisions R) as [re Ere].
  destruct Hev as [E1 E2 E3 [E4 E4'] E5]. pose proof (opd_network Ho) as En. rewrite En in E2.
  rewrite Ee. intros [[[= <- <-] <-]|[Hne He]]%lookup_insert_Some.
  - pose proof (opd_realization Ho) as Hor. pose proof (opd_revision Ho) as [_ Hov].
    pose proof (opd_allocation Ho) as Hoa. pose proof (opd_allocated Ho) as [_ Hog].
    constructor; rewrite ?E2, ?E5, ?E3, ?E4, ?E4', ?Hor, ?Hov, ?Hoa, ?Hog, ?Erz; try done.
    + apply replanned_self.
    + rewrite Ez, lookup_insert_eq. intros ? [= <-]. lia.
    + rewrite Ere, lookup_insert_eq. by eexists.
    + split_and!; try done. destruct (rpl_decision R) as (dec & -> & _). rewrite lookup_insert_eq. by eexists.
    + exists i. by split_and!.
  - destruct (snd_evident _ S o g e He) as [H1 H2 H3 H4 H5 (H6 & H7 & H8) H9 H10]. constructor; try done.
    + by apply replanned_known.
    + intros z' Hz'. destruct (decide (ro_network e = n)) as [E|Hn].
      * rewrite Ez, E, lookup_insert_eq in Hz'. injection Hz' as <-. rewrite Erz.
        destruct H3 as (w0 & Hw0 & Hr0). destruct (snd_standing _ S _ _ Hw0 Hr0) as [_ _ (z0 & s0 & Hz0 & _)].
        specialize (H4 _ Hz0). rewrite E in Hz0. pose proof (rpl_later R z0 Hz0). lia.
      * rewrite replanned_realization in Hz' by done. by apply H4.
    + by apply replanned_revision.
    + split_and!; try done. by apply replanned_decision.
Qed.

Lemma replan_stateful o s0 : operation_states d' !! o = Some s0 -> stateful d' o s0.
Proof.
  destruct (rpl_operation R) as (e' & Ee & Hev & _).
  destruct (rpl_realization R) as (z & Ez & Erz & Ho).
  destruct (rpl_phase R) as (_ & Hown & Hterm).
  intros [[-> ->]|[Hs Hn]]%replanned_state_inv.
  - pose proof (opd_network Ho) as En. pose proof (opd_generations Ho) as [_ Eg].
    constructor; rewrite ?En, ?Eg, ?Hown, ?Hterm; try done.
    + apply replanned_self.
    + exists z. rewrite Ez, lookup_insert_eq. split; [done|]. by rewrite (opd_operation Ho), Erz.
    + exists e'. by rewrite Ee, lookup_insert_eq.
  - destruct (snd_stateful _ S o s0 Hs) as [H1 H2 (e & He & H3) H4 H5]. constructor.
    + by apply replanned_known.
    + by rewrite replanned_realization.
    + exists e. split; [|done]. by apply replanned_evidence.
    + by rewrite (rpl_attempts R).
    + by rewrite (rpl_terminals R).
Qed.

Lemma replan_sound : sound d'.
Proof.
  destruct (rpl_decision R) as (dec & Edec & Hdn & Hdp & Hds & Hdg & Hdr).
  constructor.
  - apply replan_standing.
  - intros n' z'. destruct (decide (n' = n)) as [->|Hne]; [intros _; apply replanned_self|].
    rewrite replanned_realization by done. intros Hz. apply replanned_known. by eapply snd_realization.
  - intros id s0. rewrite Edec. intros [[<- <-]|[_ Hs]]%lookup_insert_Some.
    + rewrite Hdn. split_and!; try done. apply replanned_self.
    + destruct (snd_decision _ S id s0 Hs) as (H1 & H2 & H3 & H4). split_and!; try done; [by apply replanned_known|by apply replanned_revision].
  - destruct (rpl_allocation R) as [Hai Hag].
    intros n' a'. rewrite (rpl_allocations R), Edec. intros [[<- <-]|[Hne Ha]]%lookup_insert_Some.
    + split_and!; try done; [apply replanned_self|]. exists dec. by rewrite Hai, lookup_insert_eq.
    + destruct (snd_allocation _ S n' a' Ha) as (H1 & H2 & H3 & s0 & H4 & H5 & H6). split_and!; try done; [by apply replanned_known|].
      exists s0. rewrite lookup_insert_ne; [done|]. intros E.
      destruct (snd_decision _ S _ _ H4) as (_ & E' & _). rewrite <- E, H5 in E'. by apply allocation_of_inj in E'.
  - intros n1 n2 a1 a2. rewrite (rpl_allocations R).
    intros [[<- <-]|[Hn1 H1]]%lookup_insert_Some [[<- <-]|[Hn2 H2]]%lookup_insert_Some Hp Hs; [done| | |by eapply snd_exclusive].
    + by destruct (rpl_exclusive R _ _ (not_eq_sym Hn2) H2).
    + by destruct (rpl_exclusive R _ _ (not_eq_sym Hn1) H1).
  - apply replan_evident.
  - apply replan_stateful.
  - intros o g c a0. rewrite (rpl_attempts R). intros Ha.
    destruct (snd_attempted _ S o g c a0 Ha) as [[e He] H2 H3]. constructor; [|done|].
    + exists e. by apply replanned_evidence.
    + intros s0 [[-> ->]|[Hs _]]%replanned_state_inv; [|by apply H3].
      pose proof (evi_generation _ _ _ _ (snd_evident _ S _ _ _ He)) as E. rewrite E in He.
      by rewrite (rpl_fresh R) in He.
  - rewrite (rpl_events R), (rpl_attempts R). apply (snd_event _ S).
  - rewrite (rpl_observations R). intros id b Hb. destruct (snd_observation _ S id b Hb) as [e He].
    exists e. by apply replanned_evidence.
  - rewrite (rpl_terminals R). intros t r0 Hr. destruct (snd_terminated _ S t r0 Hr) as [Hid Hlast (e & b & He & Hb & H)].
    constructor; [done| |exists e, b; rewrite (rpl_observations R); split; [by apply replanned_evidence|done]].
    intros s0 [[E ->]|[Hs _]]%replanned_state_inv; [|auto]. exfalso.
    pose proof (evi_generation _ _ _ _ (snd_evident _ S _ _ _ He)) as Eg. rewrite E, Eg, (rpl_fresh R) in He. done.
  - rewrite (rpl_releases R). intros id r0 Hr.
    destruct (snd_released _ S id r0 Hr) as [H1 H2 (w0 & Hw0 & Hrw & Hl) (s0 & H4 & H5) H6]. constructor; [done|done| | |].
    + exists w0. rewrite (rpl_networks R), lookup_insert_ne; [done|]. intros E. rewrite <- E in Hw0.
      destruct (rpl_before R _ Hw0). congruence.
    + exists s0. rewrite Edec, lookup_insert_ne; [done|]. rewrite H2. intros E%allocation_of_inj. rewrite <- E in Hw0.
      destruct (rpl_before R _ Hw0). congruence.
    + by rewrite (rpl_terminals R).
  - intros n' w'. rewrite (rpl_networks R), (rpl_releases R).
    intros [[<- <-]|[_ Hw]]%lookup_insert_Some Hr Hl; [|by eapply snd_gone].
    pose proof (rpl_lived R) as Hv. inversion Hv; congruence.
Qed.
End Replanned.

(** ** A step of an operation *)

Record same_operation (s s' : operation_state_row) : Prop := MkSameOperation {
  sop_generation : os_generation s' = os_generation s;
  sop_network : os_network s' = os_network s;
  sop_revision : os_revision s' = os_revision s;
  sop_allocation : os_allocation s' = os_allocation s /\ os_allocation_generation s' = os_allocation_generation s;
  sop_realization : os_realization s' = os_realization s;
  sop_kind : os_kind s' = os_kind s;
}.
Record same_realization (z z' : realization_row) : Prop := MkSameRealization {
  srz_revision : rz_revision z' = rz_revision z;
  srz_allocation : rz_allocation_generation z' = rz_allocation_generation z;
  srz_generation : rz_generation z' = rz_generation z;
  srz_operation : rz_operation z' = rz_operation z /\ rz_operation_generation z' = rz_operation_generation z;
}.

(** What the code reads of the tables to take a step of the operation [o] *)
Record at_work (d : netdb) (o : string) (s : operation_state_row) (w : network_row) (z : realization_row) : Prop := MkAtWork {
  atw_state : operation_states d !! o = Some s;
  atw_network : networks d !! os_network s = Some w /\ resource_row w;
  atw_realization : realizations d !! os_network s = Some z /\ rz_operation z = o;
  atw_operated : operated (os_network s) (nw_revision w) z s;
  atw_lived : lived (os_network s) w s (allocations d !! os_network s);
}.
Arguments atw_state {_ _ _ _ _}.
Arguments atw_network {_ _ _ _ _}.
Arguments atw_realization {_ _ _ _ _}.
Arguments atw_operated {_ _ _ _ _}.
Arguments atw_lived {_ _ _ _ _}.

Lemma sound_at_work d o s : sound d -> operation_states d !! o = Some s -> exists w z, at_work d o s w z.
Proof.
  intros S H. destruct (snd_stateful _ S _ _ H) as [(w & Hw & Hr) (z & Hz & Ho) _ _ _].
  destruct (snd_standing _ S _ _ Hw Hr) as [_ _ (z' & s' & Hz' & Hs' & Hop & Hl)].
  assert (z' = z) as -> by congruence. rewrite Ho in Hs'. assert (s' = s) as -> by congruence.
  exists w, z. by constructor.
Qed.

Record moved (d d' : netdb) (o : string) (s s' : operation_state_row) (w w' : network_row) (z z' : realization_row) : Prop :=
  MkMoved {
  mvd_work : at_work d o s w z;
  mvd_open : os_phase s <> "SUCCEEDED"%string /\ os_phase s <> "FAILED"%string;
  mvd_networks : networks d' = <[os_network s := w']> (networks d);
  mvd_row : nw_revision w' = nw_revision w /\ nw_generation w' = nw_generation w /\ nw_source w' = nw_source w;
  mvd_revisions : network_revisions d' = network_revisions d;
  mvd_decisions : segment_decisions d' = segment_decisions d;
  mvd_allocations : exists a, allocations d' = partial_alter (fun _ => a) (os_network s) (allocations d)
    /\ (a = allocations d !! os_network s \/ a = None) /\ lived (os_network s) w' s' a;
  mvd_releases : releases d ⊆ releases d' /\ forall id r, releases d' !! id = Some r ->
    releases d !! id = Some r \/ released d' id r;
  mvd_gone : nw_lifecycle w' = "DELETED"%string -> exists id r, releases d' !! id = Some r /\ rl_network r = os_network s;
  mvd_operations : realization_operations d' = realization_operations d;
  mvd_states : operation_states d' = <[o := s']> (operation_states d);
  mvd_same : same_operation s s' /\ same_realization z z';
  mvd_columns : phased s' /\ os_last_claim s <= os_last_claim s' /\ rz_terminal z' = os_terminal s';
  mvd_attempts : realization_attempts d ⊆ realization_attempts d' /\ forall o0 g c a,
    realization_attempts d' !! (o0, g, c) = Some a -> realization_attempts d !! (o0, g, c) = Some a
    \/ attempted d' o0 g c a;
  mvd_owner owner : os_owner s' = Some owner -> exists a,
    realization_attempts d' !! (o, os_generation s, os_last_claim s') = Some a /\ ra_owner a = owner;
  mvd_events : attempt_event_log d' = attempt_event_log d;
  mvd_observations : realization_observations d ⊆ realization_observations d' /\ forall id b,
    realization_observations d' !! id = Some b -> realization_observations d !! id = Some b
    \/ rb_operation b = o /\ rb_generation b = os_generation s;
  mvd_terminals : realization_terminals d ⊆ realization_terminals d' /\ forall t r,
    realization_terminals d' !! t = Some r -> realization_terminals d !! t = Some r \/ terminated d' t r;
  mvd_terminal t : os_terminal s' = Some t -> exists r, realization_terminals d' !! t = Some r
    /\ rt_operation r = o /\ rt_state r = (if os_kind s ==s "RETIRE" then "ABSENT" else "VERIFIED")%string;
  mvd_realizations : realizations d' = <[os_network s := z']> (realizations d);
}.
Arguments mvd_work {_ _ _ _ _ _ _ _ _}.
Arguments mvd_open {_ _ _ _ _ _ _ _ _}.
Arguments mvd_networks {_ _ _ _ _ _ _ _ _}.
Arguments mvd_row {_ _ _ _ _ _ _ _ _}.
Arguments mvd_revisions {_ _ _ _ _ _ _ _ _}.
Arguments mvd_decisions {_ _ _ _ _ _ _ _ _}.
Arguments mvd_allocations {_ _ _ _ _ _ _ _ _}.
Arguments mvd_releases {_ _ _ _ _ _ _ _ _}.
Arguments mvd_gone {_ _ _ _ _ _ _ _ _}.
Arguments mvd_operations {_ _ _ _ _ _ _ _ _}.
Arguments mvd_states {_ _ _ _ _ _ _ _ _}.
Arguments mvd_same {_ _ _ _ _ _ _ _ _}.
Arguments mvd_columns {_ _ _ _ _ _ _ _ _}.
Arguments mvd_attempts {_ _ _ _ _ _ _ _ _}.
Arguments mvd_owner {_ _ _ _ _ _ _ _ _}.
Arguments mvd_events {_ _ _ _ _ _ _ _ _}.
Arguments mvd_observations {_ _ _ _ _ _ _ _ _}.
Arguments mvd_terminals {_ _ _ _ _ _ _ _ _}.
Arguments mvd_terminal {_ _ _ _ _ _ _ _ _}.
Arguments mvd_realizations {_ _ _ _ _ _ _ _ _}.

Lemma phase_done s : phased s -> os_phase s <> "SUCCEEDED"%string -> os_terminal s = None.
Proof. intros Hp Hne. destruct Hp; congruence. Qed.

Section Moved.
Context {d d' : netdb} {o : string} {s s' : operation_state_row} {w w' : network_row} {z z' : realization_row}.
Hypothesis S : sound d.
Hypothesis M : moved d d' o s s' w w' z z'.

Let work := mvd_work M.

Lemma moved_known n : known d n -> known d' n.
Proof.
  intros (w0 & Hw & Hr). unfold known. rewrite (mvd_networks M).
  destruct (decide (n = os_network s)) as [->|Hne].
  - exists w'. rewrite lookup_insert_eq. split; [done|]. destruct (mvd_row M) as (_ & _ & E).
    unfold resource_row in *. rewrite E. apply (atw_network work).
  - exists w0. by rewrite lookup_insert_ne.
Qed.

Lemma moved_realization n z0 : realizations d' !! n = Some z0 -> exists z1, realizations d !! n = Some z1
  /\ rz_generation z0 = rz_generation z1 /\ rz_operation z0 = rz_operation z1.
Proof.
  rewrite (mvd_realizations M). destruct (mvd_same M) as [_ E].
  intros [[<- <-]|[_ H]]%lookup_insert_Some; [|by exists z0]. exists z. split; [apply (atw_realization work)|].
  by destruct E as [_ _ ? [? _]].
Qed.

Lemma moved_operated : operated (os_network s) (nw_revision w') z' s'.
Proof.
  destruct (mvd_same M) as [[E1 E2 E3 [E4 E4'] E5 E6] [F1 F2 F3 [F4 F5]]].
  destruct (mvd_columns M) as (Hp & _ & Ht).
  destruct (mvd_row M) as (Hr & _). destruct (atw_operated work).
  constructor; rewrite ?E1, ?E2, ?E3, ?E4, ?E4', ?E5, ?F1, ?F2, ?F3, ?F4, ?F5, ?Hr; done.
Qed.

Lemma move_standing n w0 : networks d' !! n = Some w0 -> resource_row w0 -> standing d' n w0.
Proof.
  rewrite (mvd_networks M). intros [[<- <-]|[Hne Hw]]%lookup_insert_Some Hr.
  - destruct (mvd_row M) as (Er & Eg & _). destruct (atw_network work) as [Hw Hrw].
    destruct (snd_standing _ S _ _ Hw Hrw) as [H1 H2 _]. constructor; rewrite ?Er, ?Eg; [done| |].
    + by rewrite (mvd_revisions M).
    + pose proof moved_operated as Ho. rewrite Er in Ho. destruct (mvd_allocations M) as (a & Ea & _ & Hl).
      exists z', s'. rewrite (mvd_realizations M), (mvd_states M), Ea,
        lookup_insert_eq, lookup_partial_alter_eq.
      assert (rz_operation z' = o) as ->.
      { destruct (mvd_same M) as [_ [_ _ _ [-> _]]]. by destruct (atw_realization work). }
      by rewrite lookup_insert_eq.
  - destruct (snd_standing _ S n w0 Hw Hr) as [H1 H2 (z0 & s0 & Hz & Hs & Ho & Hl)]. constructor; [done| |].
    + by rewrite (mvd_revisions M).
    + destruct (mvd_allocations M) as (a & Ea & _). exists z0, s0.
      rewrite (mvd_realizations M), (mvd_states M), Ea.
      rewrite lookup_insert_ne, lookup_partial_alter_ne by done. split_and!; try done.
      rewrite lookup_insert_ne; [done|]. intros E. rewrite <- E, (atw_state work) in Hs. injection Hs as <-.
      by apply Hne, (opd_network Ho).
Qed.

Lemma move_stateful o0 s0 : operation_states d' !! o0 = Some s0 -> stateful d' o0 s0.
Proof.
  rewrite (mvd_states M). destruct (mvd_same M) as [E [_ _ _ [F _]]].
  intros [[<- <-]|[Hne Hs]]%lookup_insert_Some.
  - destruct (snd_stateful _ S _ _ (atw_state work)) as [H1 _ (e & He & Hev) _ _].
    destruct E as [E1 E2 E3 [E4 E4'] E5 E6].
    constructor; rewrite ?E1, ?E2, ?E6.
    + by apply moved_known.
    + exists z'. rewrite (mvd_realizations M), lookup_insert_eq, F. split; [done|].
      apply (atw_realization work).
    + exists e. rewrite (mvd_operations M). split; [done|].
      destruct Hev as [? ? ? [? ?] ?]. constructor; rewrite ?E2, ?E3, ?E4, ?E4', ?E5, ?E6; done.
    + apply (mvd_owner M).
    + apply (mvd_terminal M).
  - destruct (snd_stateful _ S _ _ Hs) as [H1 (z0 & Hz & Ho) H3 H4 H5]. constructor.
    + by apply moved_known.
    + exists z0. rewrite (mvd_realizations M), lookup_insert_ne; [done|]. intros En.
      rewrite <- En in Hz. destruct (atw_realization work). congruence.
    + by rewrite (mvd_operations M).
    + intros owner Hown. destruct (H4 _ Hown) as (a & Ha & ?). exists a. split; [|done].
      by apply (lookup_weaken _ _ _ _ Ha), (mvd_attempts M).
    + intros t Ht. destruct (H5 _ Ht) as (r & Hr & ?). exists r. split; [|done].
      by apply (lookup_weaken _ _ _ _ Hr), (mvd_terminals M).
Qed.

(** The Network of an operation that has not ended is not DELETED. *)
Lemma moved_alive : nw_lifecycle w <> "DELETED"%string.
Proof.
  intros E. destruct (mvd_open M). destruct (atw_lived work); congruence.
Qed.

Lemma move_sound : sound d'.
Proof.
  destruct (mvd_allocations M) as (a' & Ea & Ha' & _).
  assert (forall n a, allocations d' !! n = Some a -> allocations d !! n = Some a) as Halloc.
  { intros n a. rewrite Ea. intros [[<- E]|[_ H]]%lookup_partial_alter_Some; [|done]. destruct Ha'; congruence. }
  constructor.
  - apply move_standing.
  - intros n z0 (z1 & Hz & _)%moved_realization. apply moved_known. by eapply snd_realization.
  - rewrite (mvd_decisions M), (mvd_revisions M). intros id s0 Hs.
    destruct (snd_decision _ S _ _ Hs) as (H & ?). split; [by apply moved_known|done].
  - rewrite (mvd_decisions M). intros n a Ha%Halloc.
    destruct (snd_allocation _ S _ _ Ha) as (H & ?). split; [by apply moved_known|done].
  - intros n1 n2 a1 a2 H1%Halloc H2%Halloc. by eapply snd_exclusive.
  - rewrite (mvd_operations M). intros o0 g e He. destruct (snd_evident _ S _ _ _ He).
    constructor; rewrite ?(mvd_decisions M), ?(mvd_revisions M); try done.
    + by apply moved_known.
    + intros z0 (z1 & Hz & -> & _)%moved_realization. auto.
  - apply move_stateful.
  - intros o0 g c a Ha. destruct (mvd_attempts M) as [_ Hat]. destruct (Hat _ _ _ _ Ha) as [H|H]; [|done].
    destruct (snd_attempted _ S _ _ _ _ H) as [H1 H2 H3]. constructor; [by rewrite (mvd_operations M)|done|].
    rewrite (mvd_states M). intros s0 [[<- <-]|[_ Hs]]%lookup_insert_Some; [|auto].
    destruct (mvd_columns M) as (_ & Hle & _). specialize (H3 _ (atw_state work)). lia.
  - rewrite (mvd_events M). intros k ev Hk. destruct (snd_event _ S _ _ Hk) as (a & Ha & H).
    exists a. split; [|done]. by apply (lookup_weaken _ _ _ _ Ha), (mvd_attempts M).
  - rewrite (mvd_operations M). destruct (mvd_observations M) as [_ Hob].
    intros id b Hb. destruct (Hob _ _ Hb) as [H|[-> ->]]; [by apply (snd_observation _ S _ _ H)|].
    destruct (stf_evidence _ _ _ (snd_stateful _ S _ _ (atw_state work))) as (e & -> & _). by eexists.
  - destruct (mvd_terminals M) as [_ Ht]. intros t r Hr. destruct (Ht _ _ Hr) as [H|H]; [|done].
    destruct (snd_terminated _ S _ _ H) as [Hid Hlast (e & b & He & Hb & ?)]. constructor; [done| |].
    { rewrite (mvd_states M). intros s0 [[E <-]|[_ Hs]]%lookup_insert_Some; [|auto]. exfalso. rewrite <- E in Hlast.
      specialize (Hlast _ (atw_state work)).
      rewrite (phase_done _ (opd_phased (atw_operated work)) (proj1 (mvd_open M))) in Hlast. done. }
    exists e, b.
    rewrite (mvd_operations M). split; [done|]. split; [|done].
    by apply (lookup_weaken _ _ _ _ Hb), (mvd_observations M).
  - destruct (mvd_releases M) as [_ Hrl]. intros id r Hr. destruct (Hrl _ _ Hr) as [H|H]; [|done].
    destruct (snd_released _ S _ _ H) as [H1 H2 (w0 & Hw & Hr0 & Hl) H4 (t & Ht & H5)]. constructor; try done.
    + exists w0. rewrite (mvd_networks M), lookup_insert_ne; [done|]. intros E. rewrite <- E in Hw.
      destruct (atw_network work). pose proof moved_alive. congruence.
    + by rewrite (mvd_decisions M).
    + exists t. split; [|done]. by apply (lookup_weaken _ _ _ _ Ht), (mvd_terminals M).
  - intros n w0. rewrite (mvd_networks M). intros [[<- <-]|[_ Hw]]%lookup_insert_Some Hr Hl.
    + by apply (mvd_gone M).
    + destruct (snd_gone _ S _ _ Hw Hr Hl) as (id & r & Hrel & ?). exists id, r. split; [|done].
      by apply (lookup_weaken _ _ _ _ Hrel), (mvd_releases M).
Qed.
End Moved.

(** ** Steps *)

(** An event of the attempt a claim holds *)
Lemma record_event_sound c event d a : sound d -> realization_attempts d !! attempt_key c = Some a ->
  event = "READ_BACK_STARTED"%string /\ ra_mode a = "READ_BACK_FIRST"%string
  \/ event = "APPLY_AUTHORIZED"%string
     /\ (ra_mode a = "READ_BACK_FIRST"%string -> attempt_event c "READ_BACK_STARTED" ∈ attempt_event_log d) ->
  sound (record_event c event d).
Proof.
  intros S Ha He. destruct S. constructor; try assumption; cbn.
  - intros n w Hw Hr. by destruct (snd_standing0 n w Hw Hr).
  - intros o g e H. by destruct (snd_evident0 o g e H).
  - intros o s H. by destruct (snd_stateful0 o s H).
  - intros o g claim b H. by destruct (snd_attempted0 o g claim b H).
  - intros k ev. rewrite elem_of_union, elem_of_singleton. intros [[= -> ->]|H].
    + exists a. split; [done|]. destruct He as [He|[He Hb]]; [by left|]. right. split; [done|]. intros Hm.
      apply elem_of_union. right. by apply Hb.
    + destruct (snd_event0 k ev H) as (b & Hb & Hcase). exists b. split; [done|].
      destruct Hcase as [?|[? Hrb]]; [by left|right]. split; [done|]. intros Hm. apply elem_of_union. right. by apply Hrb.
  - intros t r H. by destruct (snd_terminated0 t r H).
  - intros id r H. by destruct (snd_released0 id r H).
Qed.

(** What a transaction does to the tables *)
Inductive stepped (d d' : netdb) : Prop :=
| stepped_same : d' = d -> stepped d d'
| stepped_planned n r w a s : replanned d d' n r w a s -> stepped d d'
| stepped_moved o s s' w w' z z' : moved d d' o s s' w w' z z' -> stepped d d'
| stepped_logged c event a : realization_attempts d !! attempt_key c = Some a ->
    event = "READ_BACK_STARTED"%string /\ ra_mode a = "READ_BACK_FIRST"%string
    \/ event = "APPLY_AUTHORIZED"%string
       /\ (ra_mode a = "READ_BACK_FIRST"%string -> attempt_event c "READ_BACK_STARTED" ∈ attempt_event_log d) ->
    d' = record_event c event d -> stepped d d'.

Lemma stepped_sound d d' : sound d -> stepped d d' -> sound d'.
Proof.
  intros S [->|n r w a s R|o s s' w w' z z' M|c event a Ha He ->].
  - done.
  - exact (replan_sound S R).
  - exact (move_sound S M).
  - by eapply record_event_sound.
Qed.

(** ** Create, revise, retire *)

(** What [insertNetworkRealizationOperationTx] adds *)
Record planted (desired : NetworkResourceRequest) (revision : Z) (generation r : Z) (allocation kind state : string)
    (d d' : netdb) (s : operation_state_row) (z : realization_row) (e : realization_operation_row) : Prop := MkPlanted {
  plt_tables : d' = d
    <| realization_operations ::= <[(operation_id (rq_NetworkID desired) r, 1) := e]> |>
    <| operation_states ::= fun m =>
         <[operation_id (rq_NetworkID desired) r := s]> (filter (fun kv => os_network (snd kv) <> rq_NetworkID desired) m) |>
    <| realizations ::= <[rq_NetworkID desired := z]> |>;
  plt_fresh : realization_operations d !! (operation_id (rq_NetworkID desired) r, 1) = None;
  plt_evidenced : evidenced s e /\ ro_kind e = kind;
  plt_operated : allocation = allocation_of (rq_NetworkID desired) -> generation = 1 -> operated (rq_NetworkID desired) revision z s;
  plt_realization : rz_generation z = r;
  plt_kind : os_kind s = kind;
  plt_phase : os_phase s = "PENDING"%string /\ os_owner s = None /\ os_terminal s = None;
  plt_plan : exists i, PlanNetwork i = Ok (ro_plan e, ro_digest e) /\ in_OperationID i = operation_id (rq_NetworkID desired) r
    /\ in_NetworkID i = rq_NetworkID desired /\ in_AllocationID i = allocation /\ in_RealizationGeneration i = r
    /\ in_DesiredState i = state;
}.

Lemma insert_operation_planted now desired authority backend generation r allocation type segment kind state d d' :
  insertNetworkRealizationOperationTx now desired authority backend generation r allocation type segment kind state 1 d = Ok d' ->
  exists s z e, planted desired authority generation r allocation kind state d d' s z e.
Proof.
  unfold insertNetworkRealizationOperationTx, put_operation, bigint. intros H. open_tx.
  eexists _, _, _. constructor.
  - reflexivity.
  - by apply eq_None_not_Some.
  - by repeat constructor.
  - cbn. intros -> ->. constructor; try done. by apply phased_pending.
  - done.
  - done.
  - done.
  - eexists. split; [eassumption|]. done.
Qed.

Lemma Create_step now r d d' : sound d -> CreateNetworkResource now r d = Ok d' -> stepped d d'.
Proof.
  intros S. unfold CreateNetworkResource. cbv zeta. intros H. run_guards.
  destruct (networks d !! rq_NetworkID r) as [w0|] eqn:Hw.
  { open_tx. by apply stepped_same. }
  destruct (pool_of _) as [pool type]. unfold declare_network, insert_revision, insert_decision, insert_allocation,
    insert_segment_claim in H. open_tx.
  match goal with H : insertNetworkRealizationOperationTx _ _ _ _ _ _ _ _ _ _ _ _ _ = _ |- _ =>
    apply insert_operation_planted in H as (s & z & e & [-> Hfresh [He Hk] Ho Hz Hkind Hph Hi]) end.
  specialize (Ho eq_refl eq_refl). cbn in Hfresh.
  match goal with H : any_row _ (allocations _) = false |- _ => cbn in H; rename H into Hex end.
  eapply stepped_planned. econstructor; cbn; try reflexivity; try done.
  - by eexists.
  - eexists. split; [reflexivity|]. cbn. split_and!; try done. rewrite lookup_insert_eq. by eexists.
  - exists e. split; [reflexivity|]. split; [done|]. split; [by left|].
    destruct Hi as (i & ? & ? & ? & ? & ? & Hd). exists i. split_and!; try done. by rewrite Hd, Hk.
  - exists z. by split_and!.
  - by apply lived_active.
  - intros w1. by rewrite Hw.
  - intros z0 Hz0. destruct (snd_realization _ S _ _ Hz0) as (w1 & Hw1 & _). congruence.
  - intros n' a' _ Ha [E1 E2]. pose proof (any_row_false_inv _ _ _ _ Hex Ha) as E. cbn in E.
    rewrite E1, E2, String.eqb_refl, Z.eqb_refl in E. by rewrite orb_true_r in E.
Qed.

(** The row, the allocation and the realization a change starts from *)
Lemma current_network_inv n d w a z : sound d -> current_network n d = Ok (w, a, z) ->
  networks d !! n = Some w /\ allocations d !! n = Some a /\ realizations d !! n = Some z /\ resource_row w
  /\ 1 <= nw_revision w /\ al_id a = allocation_of n /\ al_generation a = 1
  /\ (nw_lifecycle w = "ACTIVE"%string -> al_state a = "ALLOCATED"%string)
  /\ exists dec, segment_decisions d !! al_id a = Some dec /\ sd_network dec = n /\ sd_pool dec = al_pool a
       /\ sd_segment dec = al_segment a /\ sd_generation dec = 1 /\ is_Some (network_revisions d !! (n, sd_revision dec)).
Proof.
  intros S H. unfold current_network in H. open_tx. bools.
  match goal with H : nw_source _ = _ |- _ => rename H into Hr end.
  match goal with H : networks _ !! _ = _ |- _ => rename H into Hw end.
  match goal with H : allocations _ !! _ = _ |- _ => rename H into Ha end.
  destruct (snd_standing _ S _ _ Hw Hr) as [[? ?] _ (z0 & s0 & Hz & Hs & Ho & Hl)].
  destruct (snd_allocation _ S _ _ Ha) as (_ & ? & ? & dec & Hd & ? & ? & ?).
  destruct (snd_decision _ S _ _ Hd) as (_ & _ & ? & Hrev).
  rewrite Ha in Hl. split_and!; try done; [by inversion Hl; intros; simplify_eq; congruence|]. exists dec. split_and!; try done. congruence.
Qed.

(** A change of a Network that has its allocation: the next revision, and an
    operation for it *)
Lemma change_step n w a z w' a' desired digest protected kind backend state lifecycle now d d1 d' :
  sound d -> networks d !! n = Some w -> allocations d !! n = Some a -> realizations d !! n = Some z ->
  current_network n d = Ok (w, a, z) -> nw_lifecycle w = "ACTIVE"%string -> rq_NetworkID desired = n ->
  nw_revision w' = nw_revision w + 1 -> nw_generation w' = nw_revision w + 1 -> nw_source w' = nw_source w ->
  al_id a' = al_id a -> al_pool a' = al_pool a -> al_segment a' = al_segment a -> al_generation a' = al_generation a ->
  al_revision a' = nw_revision w + 1 ->
  (forall s, os_kind s = kind -> os_phase s = "PENDING"%string -> lived n w' s (Some a')) ->
  kind = "REALIZE"%string \/ kind = "RETIRE"%string -> state = kind_wants kind ->
  insert_revision n (nw_revision w + 1) (revision_row_of desired protected lifecycle (Some (nw_revision w)) digest) d = Ok d1 ->
  insertNetworkRealizationOperationTx now desired (nw_revision w + 1) backend (al_generation a') (rz_generation z + 1) (al_id a)
    (al_type a) (al_segment a) kind state 1
    (d1 <| networks ::= <[n := w']> |> <| allocations ::= <[n := a']> |>) = Ok d' ->
  stepped d d'.
Proof.
  intros S Hw Ha Hz Hc Hl Hn Hr' Hg' Hs' Ei Ep Es Eg Er Hlived Hkind Hstate H1 H2.
  destruct (current_network_inv _ _ _ _ _ S Hc) as (_ & _ & _ & Hr & Hrev & Hid & Hgen & _ & dec & Hdec & D1 & D2 & D3 & D4 & D5).
  unfold insert_revision in H1. open_tx.
  apply insert_operation_planted in H2 as (s & z' & e & [-> Hfresh [He Hk] Ho Hz' Hkind' Hph Hi]).
  rewrite Hid, Eg in Ho. specialize (Ho eq_refl Hgen). cbn in Hfresh.
  eapply stepped_planned. econstructor; cbn; try reflexivity; try done.
  - eexists. by rewrite Hr'.
  - exists dec. rewrite Hid in Hdec. rewrite insert_id by done. split_and!; try done; try congruence.
    destruct (decide (nw_revision w + 1 = sd_revision dec)) as [E|E].
    + rewrite E, lookup_insert_eq. by eexists.
    + rewrite lookup_insert_ne; [done|]. congruence.
  - split; congruence.
  - exists e. split; [reflexivity|]. split; [done|]. split; [by rewrite Hk|].
    destruct Hi as (i & ? & ? & ? & ? & ? & Hd). exists i. split_and!; try done; try congruence.
  - exists z'. rewrite Hr'. by split_and!.
  - unfold resource_row in *. rewrite Hs', Hr', Hg'. split_and!; try done. lia.
  - apply Hlived; [done|]. by destruct Hph.
  - intros w1 Hw1. assert (w1 = w) as -> by congruence. done.
  - intros z0 Hz0. assert (z0 = z) as -> by congruence. lia.
  - intros n' b Hne Hb [E1 E2]. apply Hne. eapply (snd_exclusive _ S); [done|exact Ha|congruence|congruence].
Qed.

Ltac change_with S Hc H1 H2 :=
  destruct (current_network_inv _ _ _ _ _ S Hc) as (Hw & Ha & Hz & _ & _ & _ & _ & Hal & _);
  refine (change_step _ _ _ _ _ _ _ _ _ _ _ _ _ _ _ _ _ S Hw Ha Hz Hc _ _ _ _ _ _ _ _ _ _ _ _ _ H1 H2);
  try reflexivity; try assumption.

Lemma Revise_step now n patch d d' : sound d -> UpdateNetworkResource now n patch d = Ok d' -> stepped d d'.
Proof.
  intros S. unfold UpdateNetworkResource, next_bigint. cbv zeta. intros H. open_tx.
  lazymatch goal with
    Hc : current_network _ _ = Ok (?w, ?a, ?z), H1 : insert_revision _ _ _ _ = _, H2 : insertNetworkRealizationOperationTx _ _ _ _ _ _ _ _ _ _ _ _ _ = _ |- _ =>
    change_with S Hc H1 H2 end.
  - intros s Hk _. apply lived_active; try done. by apply Hal.
  - by left.
Qed.

Lemma Retire_step now n expected d d' : sound d -> RequestNetworkRetirement now n expected d = Ok d' -> stepped d d'.
Proof.
  intros S. unfold RequestNetworkRetirement, next_bigint. cbv zeta. intros H. open_tx.
  lazymatch goal with
    Hc : current_network _ _ = Ok (?w, ?a, ?z), H1 : insert_revision _ _ _ _ = _, H2 : insertNetworkRealizationOperationTx _ _ _ _ _ _ _ _ _ _ _ _ _ = _ |- _ =>
    change_with S Hc H1 H2 end.
  - intros s Hk Hp. apply lived_retiring; try done. by rewrite Hp.
  - by right.
Qed.


(** A step that neither ends the operation nor touches its Network *)
Lemma turn_moved d d' o s s' : sound d -> operation_states d !! o = Some s ->
  os_phase s <> "SUCCEEDED"%string /\ os_phase s <> "FAILED"%string -> networks d' = networks d -> network_revisions d' = network_revisions d -> segment_decisions d' = segment_decisions d ->
  allocations d' = allocations d -> releases d' = releases d -> realization_operations d' = realization_operations d ->
  operation_states d' = <[o := s']> (operation_states d) -> realizations d' = realizations d ->
  attempt_event_log d' = attempt_event_log d -> realization_terminals d' = realization_terminals d ->
  same_operation s s' -> os_phase s' <> "SUCCEEDED"%string -> phased s' -> os_last_claim s <= os_last_claim s' ->
  os_terminal s' = os_terminal s ->
  (realization_attempts d ⊆ realization_attempts d' /\ forall o0 g c a,
    realization_attempts d' !! (o0, g, c) = Some a -> realization_attempts d !! (o0, g, c) = Some a \/ attempted d' o0 g c a) ->
  (forall owner, os_owner s' = Some owner -> exists a,
    realization_attempts d' !! (o, os_generation s, os_last_claim s') = Some a /\ ra_owner a = owner) ->
  (realization_observations d ⊆ realization_observations d' /\ forall id b,
    realization_observations d' !! id = Some b -> realization_observations d !! id = Some b
    \/ rb_operation b = o /\ rb_generation b = os_generation s) ->
  exists w z, moved d d' o s s' w w z z.
Proof.
  intros S Hs Hopen E1 E2 E3 E4 E5 E6 E7 E8 E9 E10 Hsame Hopen' Hph Hlast Hterm Hat Hown Hob.
  destruct (sound_at_work _ _ _ S Hs) as (w & z & W). destruct (atw_network W) as [Hw Hr].
  destruct (atw_realization W) as [Hz Ho].
  exists w, z. constructor; try done.
  - by rewrite insert_id.
  - exists (allocations d !! os_network s). rewrite E4, partial_alter_self. split; [done|]. split; [by left|].
    destruct (atw_lived W); [by apply lived_active; rewrite ?(sop_kind _ _ Hsame)
      |by apply lived_retiring; rewrite ?(sop_kind _ _ Hsame)|destruct Hopen; congruence].
  - rewrite E5. split; [done|]. by left.
  - intros Hl. destruct (snd_gone _ S _ _ Hw Hr Hl) as (id & r & ? & ?). exists id, r. by rewrite E5.
  - split_and!; try done. rewrite Hterm. apply (opd_terminal (atw_operated W)).
  - rewrite E10. split; [done|]. by left.
  - rewrite Hterm, E10. intros t Ht. by apply (stf_terminal _ _ _ (snd_stateful _ S _ _ Hs)).
  - by rewrite E8, insert_id.
Qed.

Lemma sound_phased d o s : sound d -> operation_states d !! o = Some s -> phased s.
Proof. intros S H. destruct (sound_at_work _ _ _ S H) as (w & z & W). apply (opd_phased (atw_operated W)). Qed.

(** The claim a step is taken under *)
Lemma lock_inv now c d s : sound d -> lockNetworkRealizationClaim now c d = Ok s ->
  operation_states d !! nc_OperationID c = Some s /\ os_phase s = "CLAIMED"%string /\ nc_OperationGeneration c = os_generation s
  /\ nc_ClaimGeneration c = os_last_claim s /\ os_owner s = Some (nc_Owner c) /\ 1 <= os_last_claim s.
Proof.
  intros S H. unfold lockNetworkRealizationClaim, holds_claim in H. open_tx. bools.
  match goal with H : operation_states _ !! _ = _ |- _ => pose proof (sound_phased _ _ _ S H) as Hp end.
  destruct Hp as [| |[]|]; try congruence. split_and!; congruence.
Qed.

Lemma leave_moved now d o s phase response : sound d -> operation_states d !! o = Some s -> os_phase s = "CLAIMED"%string ->
  phase = "DISPATCH_UNKNOWN"%string \/ phase = "FAILED"%string ->
  exists s' w z, moved d (leave_claim now o phase response (os_terminal s) s d) o s s' w w z z.
Proof.
  intros S Hs Hc Hp. pose proof (sound_phased _ _ _ S Hs) as Hph.
  eexists. eapply (turn_moved d _ o s); try done; cbn.
  - by rewrite Hc.
  - by destruct Hp as [-> | ->].
  - apply phased_left; cbn; [done| |done|]; destruct Hph as [| |[]|]; congruence.
  - split; [done|]. by left.
  - split; [done|]. by left.
Qed.

Lemma MarkUnknown_step now c d d' : sound d -> MarkNetworkRealizationDispatchUnknown now c d = Ok d' -> stepped d d'.
Proof.
  intros S H. unfold MarkNetworkRealizationDispatchUnknown in H. open_tx.
  match goal with H : lockNetworkRealizationClaim _ _ _ = _ |- _ => apply (lock_inv _ _ _ _ S) in H as (Hs & Hp & _) end.
  destruct (leave_moved now d _ _ "DISPATCH_UNKNOWN" "UNKNOWN" S Hs Hp) as (s' & w & z & M); [by left|].
  by eapply stepped_moved.
Qed.

Lemma ReadBack_step now c d d' : sound d -> RecordNetworkRealizationReadBackStarted now c d = Ok d' -> stepped d d'.
Proof.
  intros S H. unfold RecordNetworkRealizationReadBackStarted in H. open_tx. bools.
  eapply stepped_logged; [done| |done]. by left.
Qed.

Lemma Authorize_step now c d d' : sound d -> AuthorizeNetworkRealizationApply now c d = Ok d' -> stepped d d'.
Proof.
  intros S H. unfold AuthorizeNetworkRealizationApply, event_recorded in H. open_tx.
  eapply stepped_logged; [done| |done]. right. split; [done|]. intros Hm.
  match goal with H : _ && _ = false |- _ => rewrite Hm in H; cbn in H end. by bools.
Qed.

(** Work the queue offers *)
Lemma candidates_inv now operation d o s rest : candidates now operation d = (o, s) :: rest ->
  operation_states d !! o = Some s /\ claimable now s = true /\ (operation = ""%string \/ operation = o).
Proof.
  unfold candidates. intros H. assert ((o, s) ∈ (o, s) :: rest) as Hin by left. rewrite <- H in Hin.
  apply sort_elem, list_elem_of_In, filter_In in Hin as [Hin Hc].
  apply list_elem_of_In, elem_of_map_to_list in Hin. cbn in Hc. apply andb_prop in Hc as [[Ho Hc]%andb_prop _].
  split_and!; try done. apply orb_prop in Ho as [E|E]; apply String.eqb_eq in E; auto.
Qed.

Lemma claimable_open now s : phased s -> claimable now s = true ->
  (os_phase s <> "SUCCEEDED"%string /\ os_phase s <> "FAILED"%string) /\ (os_phase s = "PENDING"%string /\ os_last_claim s = 0 \/ os_phase s <> "PENDING"%string /\ 1 <= os_last_claim s).
Proof.
  unfold claimable. intros Hp Hc. destruct Hp as [E|? ? E|[E|E]|? E]; rewrite E in Hc |- *; try done.
  - split; [done|]. by left.
  - split; [done|]. by right.
  - split; [done|]. by right.
Qed.

Definition claim_mode (s : operation_state_row) : string :=
  (if os_phase s ==s "PENDING" then "APPLY_ALLOWED" else "READ_BACK_FIRST")%string.
Definition claimed_state (now : Z) (owner : string) (lease : Z) (s : operation_state_row) : operation_state_row :=
  s <| os_phase := "CLAIMED"%string |> <| os_owner := Some owner |> <| os_claim := Some (os_last_claim s + 1) |>
    <| os_last_claim := os_last_claim s + 1 |> <| os_expires := Some (now + microseconds lease) |> <| os_updated := now |>.

(** What a claim writes, and what it answers *)
Lemma claim_inv jsonb_text now operation owner lease d d' c : ClaimNetworkRealization jsonb_text now operation owner lease d = Ok (d', c) ->
  exists s e, let o := nc_OperationID c in
    operation_states d !! o = Some s /\ claimable now s = true /\ realization_operations d !! (o, os_generation s) = Some e
    /\ realization_attempts d !! (o, os_generation s, os_last_claim s + 1) = None
    /\ d' = d <| operation_states ::= <[o := claimed_state now owner lease s]> |>
             <| realization_attempts ::= <[(o, os_generation s, os_last_claim s + 1) :=
                  MkRealizationAttempt owner (claim_mode s) (now + microseconds lease)]> |>
    /\ c = MkNetworkClaim o owner (claim_mode s) (os_kind s) (ro_digest e) (os_generation s) (os_last_claim s + 1)
             (jsonb_text (ro_plan e)) (now + microseconds lease).
Proof.
  unfold ClaimNetworkRealization, next_bigint. intros H. run_guards. destruct (candidates _ _ _) as [|[o s] rest] eqn:Hc; [done|].
  apply candidates_inv in Hc as (Hs & Hcl & _). open_tx. eexists s, _. cbn. split_and!; try done.
  by apply eq_None_not_Some.
Qed.

Lemma Claim_step jsonb_text now operation owner lease d d' c : sound d ->
  ClaimNetworkRealization jsonb_text now operation owner lease d = Ok (d', c) -> stepped d d'.
Proof.
  intros S (s & e & Hs & Hcl & He & Hfresh & -> & _)%claim_inv. pose proof (sound_phased _ _ _ S Hs) as Hp.
  apply claimable_open in Hcl as [Hopen Hfirst]; [|done]. pose proof (phase_done _ Hp (proj1 Hopen)) as Ht.
  assert (1 <= os_last_claim s + 1) as Hle by (destruct Hfirst; lia).
  assert (exists w z, moved d (d <| operation_states ::= <[nc_OperationID c := claimed_state now owner lease s]> |>
      <| realization_attempts ::= <[(nc_OperationID c, os_generation s, os_last_claim s + 1) :=
           MkRealizationAttempt owner (claim_mode s) (now + microseconds lease)]> |>)
    (nc_OperationID c) s (claimed_state now owner lease s) w w z z) as (w & z & M); [|by eapply stepped_moved].
  eapply (turn_moved d _ (nc_OperationID c) s); try done; cbn.
  - by eapply phased_claimed.
  - lia.
  - split; [by apply insert_subseteq|]. intros o0 g claim a [[[= <- <- <-] <-]|[_ H]]%lookup_insert_Some; [|by left].
    right. constructor; cbn.
    + by eexists.
    + unfold claim_mode. destruct Hfirst as [[E ->]|[E Hl]].
      * rewrite E. by left.
      * rewrite (proj2 (String.eqb_neq _ _) E). right. split; [done|]. lia.
    + rewrite lookup_insert_eq. intros ? [= <-]. cbn. lia.
  - intros owner' [= <-]. rewrite lookup_insert_eq. by eexists.
  - split; [done|]. by left.
Qed.

(** ** Accepting an observation *)

Definition concludes (kind state : string) : bool :=
  ((kind ==s "REALIZE") && (state ==s "VERIFIED")) || ((kind ==s "RETIRE") && (state ==s "ABSENT")).
Definition observation_row_of (c : NetworkRealizationClaim) (o : NetworkRealizationObservation) (s : operation_state_row) :
    realization_observation_row :=
  MkRealizationObservationRow (nc_OperationID c) (nc_OperationGeneration c) (os_network s) (os_revision s)
    (os_allocation_generation s) (os_realization s) (ro_ObservationGeneration o) (ro_ApplyResponseState o)
    (ro_LogicalSwitchName o) (if ro_BackendUUID o ==s "" then None else Some (ro_BackendUUID o))
    (LogicalSwitchPresent (ro_Observation o)) (OwnershipMarkerMatches (ro_Observation o))
    (PlanDigestMatches (ro_Observation o)) (ro_ObservationDigest o) (ro_AdapterArtifactDigest o).
Definition observed (c : NetworkRealizationClaim) (o : NetworkRealizationObservation) (s : operation_state_row) (d : netdb) : netdb :=
  d <| realization_observations ::= <[ro_ObservationID o := observation_row_of c o s]> |>.

Lemma accept_inv jsonb_text now c o d d' answer : sound d ->
  AcceptNetworkRealizationObservation jsonb_text now c o d = Ok (d', answer) ->
  exists s e canonical plan, let state := State (ro_Observation o) (np_DesiredState plan) in
    operation_states d !! nc_OperationID c = Some s /\ os_phase s = "CLAIMED"%string /\ nc_OperationGeneration c = os_generation s
    /\ realization_operations d !! (nc_OperationID c, os_generation s) = Some e
    /\ RestoreStoredNetworkPlan (jsonb_text (ro_plan e)) (ro_digest e) = Ok (canonical, plan)
    /\ ro_LogicalSwitchName o = np_LogicalSwitchName plan
    /\ realization_observations d !! ro_ObservationID o = None
    /\ (concludes (os_kind s) state = true /\ conclude now c o (os_kind s) state s (observed c o s d) = Ok d' /\ answer = state
        \/ concludes (os_kind s) state = false /\ answer = ""%string
           /\ d' = leave_claim now (nc_OperationID c) (if state ==s "CONFLICTING" then "FAILED" else "DISPATCH_UNKNOWN")%string
                     (ro_ApplyResponseState o) (os_terminal s) s (observed c o s d)).
Proof.
  intros S. unfold AcceptNetworkRealizationObservation, insert_observation, bigint. cbv zeta. intros H. run_guards.
  match goal with H : lockNetworkRealizationClaim _ _ _ = Ok ?s |- _ => apply (lock_inv _ _ _ _ S) in H as (Hs & Hc & Hg & _) end.
  open_tx; bools; eexists _, _, _, _; cbv zeta; (split; [exact Hs|]); (split; [exact Hc|]); (split; [exact Hg|]);
    do 3 (split; [eassumption|]); (split; [by apply eq_None_not_Some|]).
  - left. split; [unfold concludes; eassumption|]. by split.
  - right. split; [apply orb_false_intro; eassumption|]. by split.
Qed.

Lemma observed_sound c o s d : sound d -> operation_states d !! nc_OperationID c = Some s ->
  nc_OperationGeneration c = os_generation s -> realization_observations d !! ro_ObservationID o = None ->
  sound (observed c o s d).
Proof.
  intros S Hs Hg Hfresh. destruct S. constructor; try assumption; cbn.
  - intros n w Hw Hr. by destruct (snd_standing0 n w Hw Hr).
  - intros o0 g e H. by destruct (snd_evident0 o0 g e H).
  - intros o0 s0 H. by destruct (snd_stateful0 o0 s0 H).
  - intros o0 g claim b H. by destruct (snd_attempted0 o0 g claim b H).
  - intros id b [[<- <-]|[_ H]]%lookup_insert_Some; [|by eapply snd_observation0]. cbn. rewrite Hg.
    destruct (snd_stateful0 _ _ Hs) as [_ _ (e & -> & _) _ _]. by eexists.
  - intros t r H. destruct (snd_terminated0 t r H) as [Hid Hlast (e & b & He & Hb & ?)]. constructor; [done|done|]. exists e, b. cbn.
    split; [done|]. split; [|done]. rewrite lookup_insert_ne; [done|]. congruence.
  - intros id r H. by destruct (snd_released0 id r H).
Qed.

(** The rows that end an operation *)
Definition left_state (now : Z) (phase response : string) (terminal : option string) (s : operation_state_row) : operation_state_row :=
  s <| os_phase := phase |> <| os_response := Some response |> <| os_terminal := terminal |> <| os_owner := None |>
    <| os_claim := None |> <| os_expires := None |> <| os_updated := now |>.
Definition settled_realization (state terminal : string) (z : realization_row) : realization_row :=
  z <| rz_state := state |> <| rz_terminal := Some terminal |>.
Definition terminal_digest (state : string) (s : operation_state_row) : string :=
  digestNetworkResource
    (os_network s ++ "/" ++ FormatInt (os_revision s) ++ "/" ++ os_allocation s ++ "/"
     ++ FormatInt (os_allocation_generation s) ++ "/" ++ FormatInt (os_realization s) ++ "/" ++ state)%string.
Definition terminal_row_of (c : NetworkRealizationClaim) (o : NetworkRealizationObservation) (state : string)
    (s : operation_state_row) : realization_terminal_row :=
  MkRealizationTerminal (nc_OperationID c) (nc_OperationGeneration c) (ro_ObservationID o) (os_network s) (os_revision s)
    (os_allocation_generation s) (os_realization s) state (terminal_digest state s).
Definition ended (now : Z) (c : NetworkRealizationClaim) (o : NetworkRealizationObservation) (state : string)
    (s : operation_state_row) (z : realization_row) (d : netdb) : netdb :=
  d <| realization_terminals ::= <[terminal_id c := terminal_row_of c o state s]> |>
    <| operation_states ::= <[nc_OperationID c := left_state now "SUCCEEDED" (ro_ApplyResponseState o) (Some (terminal_id c)) s]> |>
    <| realizations ::= <[os_network s := settled_realization state (terminal_id c) z]> |>.
(** The segment of a retired Network is free again. *)
Definition release_row_of (c : NetworkRealizationClaim) (s : operation_state_row) (a : allocation_row) : release_row :=
  MkRelease (os_allocation s) (os_network s) (os_allocation_generation s) (terminal_id c) (al_pool a) (al_type a) (al_segment a)
    (digestNetworkResource
      (os_allocation s ++ "/" ++ os_network s ++ "/" ++ FormatInt (os_allocation_generation s) ++ "/" ++ terminal_id c)%string).
Definition freed (s : operation_state_row) (w : network_row) (r : release_row) (d : netdb) : netdb :=
  d <| releases ::= <[("network-release:" ++ os_allocation s)%string := r]> |>
    <| allocations ::= delete (os_network s) |>
    <| segment_claims ::= fmap (fun c =>
         if (sc_network c ==s os_network s) && bool_decide (sc_allocation c = Some (os_allocation s))
            && bool_decide (sc_generation c = Some (os_allocation_generation s))
         then c <| sc_state := "RELEASED"%string |> else c) |>
    <| networks ::= <[os_network s := w <| nw_lifecycle := "DELETED"%string |>]> |>.

Lemma conclude_inv now c o kind state s w z d d' : at_work d (nc_OperationID c) s w z ->
  (kind = "RETIRE"%string -> nw_lifecycle w = "RETIRE_PENDING"%string) ->
  conclude now c o kind state s d = Ok d' ->
  realization_terminals d !! terminal_id c = None
  /\ (kind <> "RETIRE"%string /\ d' = ended now c o state s z d
      \/ kind = "RETIRE"%string /\ exists a, allocations d !! os_network s = Some a /\ al_id a = os_allocation s
         /\ releases d !! ("network-release:" ++ os_allocation s)%string = None
         /\ d' = freed s w (release_row_of c s a) (ended now c o state s z d)).
Proof.
  intros W Hl. destruct (opd_revision (atw_operated W)) as [R1 R2]. pose proof (opd_realization (atw_operated W)) as R3.
  destruct (atw_realization W) as [Hz _]. destruct (atw_network W) as [Hw _].
  assert (true = (rz_revision z =? os_revision s)) as E1 by (symmetry; apply Z.eqb_eq; congruence).
  assert (true = (nw_revision w =? os_revision s)) as E2 by (symmetry; apply Z.eqb_eq; congruence).
  assert (true = (rz_generation z =? os_realization s)) as E3 by (symmetry; apply Z.eqb_eq; congruence).
  clear R1 R2 R3. unfold conclude, leave_claim. cbv zeta. intros H. run_guards. split; [by apply eq_None_not_Some|]. cbn in H.
  rewrite Hz, <- E1, <- E3 in H. cbn in H. destruct (kind ==s "RETIRE") eqn:Ek.
  - apply String.eqb_eq in Ek. right. split; [done|]. specialize (Hl Ek). unfold release_segment in H. cbv zeta in H.
    open_tx. bools. cbn -[update]. rewrite Hw, <- E2, Hl. cbn -[update]. eexists. split; [eassumption|]. split; [done|].
    split; [by apply eq_None_not_Some|]. reflexivity.
  - injection H as <-. apply String.eqb_neq in Ek. left. split; [done|reflexivity].
Qed.

(** An operation ends the way its kind wants. *)
Lemma concludes_spec kind o plan : concludes kind (State o plan) = true ->
  kind = "REALIZE"%string /\ State o plan = "VERIFIED"%string /\ LogicalSwitchPresent o = true /\ OwnershipMarkerMatches o = true
    /\ PlanDigestMatches o = true
  \/ kind = "RETIRE"%string /\ State o plan = "ABSENT"%string /\ LogicalSwitchPresent o = false.
Proof.
  unfold concludes. intros H. apply orb_prop in H as [[Hk Hs]%andb_prop|[Hk Hs]%andb_prop]; bools; [left|right]; split_and!; try done;
    unfold State in Hs; repeat case_match; bools; try done; by subst.
Qed.

Lemma terminal_id_of c : nc_OperationGeneration c = 1 -> terminal_id c = terminal_of (nc_OperationID c).
Proof. unfold terminal_id, terminal_of. by intros ->. Qed.

Lemma ended_terminated c o state s d e : nc_OperationGeneration c = 1 ->
  (forall s, operation_states d !! nc_OperationID c = Some s -> os_terminal s = Some (terminal_id c)) -> realization_operations d !! (nc_OperationID c, nc_OperationGeneration c) = Some e ->
  evidenced s e -> realization_observations d !! ro_ObservationID o = Some (observation_row_of c o s) ->
  (state = "VERIFIED"%string /\ os_kind s = "REALIZE"%string /\ LogicalSwitchPresent (ro_Observation o) = true
     /\ OwnershipMarkerMatches (ro_Observation o) = true /\ PlanDigestMatches (ro_Observation o) = true
   \/ state = "ABSENT"%string /\ os_kind s = "RETIRE"%string /\ LogicalSwitchPresent (ro_Observation o) = false) ->
  terminated d (terminal_id c) (terminal_row_of c o state s).
Proof.
  intros Hg Hlast He Hev Hb Hst. constructor; [by apply terminal_id_of|done|]. exists e, (observation_row_of c o s). cbn. split; [done|]. split; [done|].
  destruct Hev as [Ek En _ _ _]. split; [|done]. unfold shown. cbn. rewrite Ek. split_and!; try done.
Qed.

Lemma freed_released now c o s w z d a : sound d -> at_work d (nc_OperationID c) s w z ->
  allocations d !! os_network s = Some a -> al_id a = os_allocation s ->
  released (freed s w (release_row_of c s a) (ended now c o "ABSENT" s z d)) ("network-release:" ++ os_allocation s)%string
    (release_row_of c s a).
Proof.
  intros S W Ha Hid. pose proof (opd_allocation (atw_operated W)) as Hoa. destruct (atw_network W) as [_ Hr].
  destruct (snd_allocation _ S _ _ Ha) as (_ & _ & _ & dec & Hdec & ? & ? & ?).
  constructor; cbn; [done|done| | |].
  - eexists. rewrite lookup_insert_eq. split; [done|]. by split.
  - exists dec. rewrite <- Hid. by split_and!.
  - exists (terminal_row_of c o "ABSENT" s). by rewrite lookup_insert_eq.
Qed.

Lemma conclude_step now c o state s w z d d' : sound d -> at_work d (nc_OperationID c) s w z ->
  os_phase s = "CLAIMED"%string -> nc_OperationGeneration c = os_generation s ->
  realization_observations d !! ro_ObservationID o = Some (observation_row_of c o s) ->
  (state = "VERIFIED"%string /\ os_kind s = "REALIZE"%string /\ LogicalSwitchPresent (ro_Observation o) = true
     /\ OwnershipMarkerMatches (ro_Observation o) = true /\ PlanDigestMatches (ro_Observation o) = true
   \/ state = "ABSENT"%string /\ os_kind s = "RETIRE"%string /\ LogicalSwitchPresent (ro_Observation o) = false) ->
  conclude now c o (os_kind s) state s d = Ok d' ->
  exists s' w' z', moved d d' (nc_OperationID c) s s' w w' z z'.
Proof.
  intros S W Hc Hg Hb Hst H. destruct (stf_evidence _ _ _ (snd_stateful _ S _ _ (atw_state W))) as (e & He & Hev).
  rewrite <- Hg in He. pose proof (evi_generation _ _ _ _ (snd_evident _ S _ _ _ He)) as Hg1.
  pose proof (fun d' Hlast H1 H2 => ended_terminated c o state s d' e Hg1 Hlast H1 Hev H2 Hst) as Hterm.
  assert (os_kind s = "RETIRE"%string -> nw_lifecycle w = "RETIRE_PENDING"%string) as Hl.
  { intros Hk. destruct (atw_lived W); congruence. }
  destruct (conclude_inv _ _ _ _ _ _ _ _ _ _ W Hl H) as [Hfresh Hcase].
  assert (1 <= os_last_claim s) as Hlast.
  { pose proof (opd_phased (atw_operated W)) as Hp. destruct Hp as [| |[]|]; congruence. }
  assert (os_phase s <> "SUCCEEDED"%string /\ os_phase s <> "FAILED"%string) as Hopen by (by rewrite Hc).
  assert (realization_terminals d ⊆ <[terminal_id c := terminal_row_of c o state s]> (realization_terminals d)) as Hsub
    by by apply insert_subseteq.
  assert (state = (if os_kind s ==s "RETIRE" then "ABSENT" else "VERIFIED")%string) as Hstate.
  { destruct Hst as [(-> & -> & _)|(-> & -> & _)]; done. }
  set (s' := left_state now "SUCCEEDED" (ro_ApplyResponseState o) (Some (terminal_id c)) s).
  set (z' := settled_realization state (terminal_id c) z).
  destruct Hcase as [[Hk ->]|(Hk & a & Ha & Hid & Hrel & ->)].
  - exists s', w, z'. constructor; try done; cbn.
    + symmetry. apply insert_id. apply (atw_network W).
    + exists (allocations d !! os_network s). rewrite partial_alter_self. split; [done|]. split; [by left|].
      destruct (atw_lived W); [by apply lived_active|congruence|congruence].
    + split; [done|]. by left.
    + intros E. destruct (atw_network W) as [Hw Hr]. apply (snd_gone _ S _ _ Hw Hr E).
    + split_and!; [by eapply phased_done|lia|done].
    + split; [done|]. by left.
    + split; [done|]. by left.
    + split; [done|]. intros t r [[<- <-]|[_ Hr]]%lookup_insert_Some; [|by left]. right. apply Hterm; try done.
      cbn. rewrite lookup_insert_eq. by intros ? [= <-].
    + intros t [= <-]. exists (terminal_row_of c o state s). rewrite lookup_insert_eq. split_and!; done.
  - exists s', (w <| nw_lifecycle := "DELETED"%string |>), z'.
    rewrite Hk in Hstate. cbn in Hstate. subst state.
    pose proof (freed_released now c o s w z d a S W Ha Hid) as Hreleased.
    constructor; try done.
    + exists None. split; [reflexivity|]. split; [by right|]. by apply lived_deleted.
    + cbn. split; [by apply insert_subseteq|]. intros id r [[<- <-]|[_ Hr]]%lookup_insert_Some; [|by left]. right. apply Hreleased.
    + intros _. cbn. eexists _, _. by rewrite lookup_insert_eq.
    + split_and!; [by eapply phased_done|cbn; lia|done].
    + cbn. split; [done|]. by left.
    + cbn. split; [done|]. by left.
    + cbn. split; [done|]. intros t r [[<- <-]|[_ Hr]]%lookup_insert_Some; [|by left]. right. apply Hterm; try done.
      cbn. rewrite lookup_insert_eq. by intros ? [= <-].
    + cbn. intros t [= <-]. eexists. rewrite lookup_insert_eq, Hk. by split_and!.
Qed.

(** The observation and what follows it are one step. *)
Lemma observed_moved c o s0 d d' op s s' w w' z z' : sound d -> operation_states d !! nc_OperationID c = Some s0 ->
  nc_OperationID c = op -> s0 = s -> nc_OperationGeneration c = os_generation s0 -> realization_observations d !! ro_ObservationID o = None ->
  moved (observed c o s0 d) d' op s s' w w' z z' -> moved d d' op s s' w w' z z'.
Proof.
  intros S Hs Hop E Hg Hfresh M. constructor; try exact (mvd_networks M); try apply M.
  - destruct (mvd_work M). by constructor.
  - destruct (mvd_observations M) as [Hsub Hnew]. cbn in Hsub, Hnew. split.
    + etrans; [|exact Hsub]. by apply insert_subseteq.
    + intros id b Hb. destruct (Hnew _ _ Hb) as [[[<- <-]|[_ H]]%lookup_insert_Some|?]; [|by left|by right].
      right. cbn. subst. by split.
Qed.

Lemma Accept_step jsonb_text now c o d d' answer : sound d ->
  AcceptNetworkRealizationObservation jsonb_text now c o d = Ok (d', answer) -> stepped d d'.
Proof.
  intros S (s & e & canonical & plan & Hs & Hc & Hg & He & _ & _ & Hfresh & Hcase)%accept_inv; [|done].
  pose proof (observed_sound c o s d S Hs Hg Hfresh) as S1.
  destruct Hcase as [(Hst & H & _)|(_ & _ & ->)].
  - destruct (sound_at_work _ (nc_OperationID c) s S1 Hs) as (w & z & W).
    destruct (conclude_step now c o (State (ro_Observation o) (np_DesiredState plan)) s w z (observed c o s d) d') as (s' & w' & z' & M);
      try done.
    + cbn. by rewrite lookup_insert_eq.
    + apply concludes_spec in Hst as [(-> & -> & ?)|(-> & -> & ?)]; [left|right]; done.
    + eapply stepped_moved. by eapply observed_moved.
  - destruct (leave_moved now (observed c o s d) (nc_OperationID c) s
      (if State (ro_Observation o) (np_DesiredState plan) ==s "CONFLICTING" then "FAILED" else "DISPATCH_UNKNOWN")
      (ro_ApplyResponseState o) S1 Hs Hc) as (s' & w & z & M).
    { destruct (_ ==s _); auto. }
    eapply stepped_moved. by eapply observed_moved.
Qed.

(** ** Every reachable state *)

Lemma effect_step jsonb_text now q d d' : sound d -> effect jsonb_text now q d = Ok d' -> stepped d d'.
Proof.
  intros S H. destruct q; cbn in H.
  - by eapply Create_step.
  - by eapply Revise_step.
  - by eapply Retire_step.
  - apply bind_Ok_inv in H as ([d1 a] & H & [= <-]). by eapply Claim_step.
  - by eapply MarkUnknown_step.
  - by eapply ReadBack_step.
  - by eapply Authorize_step.
  - apply bind_Ok_inv in H as ([d1 a] & H & [= <-]). by eapply Accept_step.
Qed.

Lemma runs_sound jsonb_text d d' : runs jsonb_text d d' -> sound d -> sound d'.
Proof.
  intros R. induction R as [|d d1 d2 _ IH O|now q d d1 d2 _ IH H]; intros S; [done| |].
  - exact (others_sound _ _ O (IH S)).
  - exact (stepped_sound _ _ (IH S) (effect_step _ _ _ _ _ (IH S) H)).
Qed.

Lemma reachable_sound jsonb_text d : reachable jsonb_text d -> sound d.
Proof. intros (d0 & B & R). eapply runs_sound; [done|]. by apply bare_sound. Qed.

(** The log of events only grows. *)
Lemma stepped_log d d' : stepped d d' -> attempt_event_log d ⊆ attempt_event_log d'.
Proof.
  intros [->|n r w a s R|o s s' w w' z z' M|c event a _ _ ->]; [done|by rewrite (rpl_events R)|by rewrite (mvd_events M)|].
  cbn. apply union_subseteq_r.
Qed.

Lemma runs_log jsonb_text d d' : sound d -> runs jsonb_text d d' -> attempt_event_log d ⊆ attempt_event_log d'.
Proof.
  intros S R. induction R as [|d d1 d2 R IH O|now q d d1 d2 R IH H]; [done| |]; etrans; try exact (IH S).
  - by rewrite (oth_events _ _ O).
  - eapply stepped_log, effect_step, H. by eapply runs_sound.
Qed.

Lemma runs_trans jsonb_text d d1 d2 : runs jsonb_text d d1 -> runs jsonb_text d1 d2 -> runs jsonb_text d d2.
Proof.
  intros H H'. induction H' as [|d1 d2 d3 _ IH O|now q d1 d2 d3 _ IH E]; [done| |].
  - eapply runs_others; [by apply IH|done].
  - eapply runs_effect; [by apply IH|done].
Qed.
