(* ===== verification/NetworkSchema.v ===== *)
(** * db/migrations/077_network_resource_authority.sql: what the schema declares

    The CHECK, FOREIGN KEY and UNIQUE constraints of the tables of the Network
    authority, and the columns every transaction of [NetworkResource] writes
    within them. *)

From S2P Require Import Prelude GoStd GoJson GoTime ControlDb ControlFrames Northbound.
From S2P Require Import OvnPlan NetworkResource NetworkRuns.
Local Open Scope Z_scope.
Local Open Scope go_scope.

(** ** The CHECK constraints, row by row *)

Definition one_of_texts (texts : list string) (s : string) : bool := existsb (String.eqb s) texts.
Definition responses : list string := ["RECEIVED"; "LOST"; "UNKNOWN"].

Record network_columns (w : network_row) : Prop := MkNetworkColumns {
  nwc_name : 1 <= len (nw_name w) <= 255;
  nwc_profile : one_of_texts ["STANDARD_OVERLAY"; "PROVIDER_VLAN"] (nw_profile w) = true;
  nwc_policy : one_of_texts ["AUTO"; "EXPLICIT"] (nw_policy w) = true;
  nwc_digest : hex64 (nw_digest w) = true;
}.
Record revision_columns (revision : Z) (e : network_revision_row) : Prop := MkRevisionColumns {
  nrc_revision : 0 < revision;
  nrc_name : 1 <= len (nr_name e) <= 255;
  nrc_mtu : 576 <= nr_mtu e <= 9216;
  nrc_lifecycle : one_of_texts ["ACTIVE"; "RETIRE_PENDING"; "DELETED"] (nr_lifecycle e) = true;
  nrc_previous : revision = 1 /\ nr_previous e = None \/ 1 < revision /\ nr_previous e = Some (revision - 1);
  nrc_requested : nr_policy e = "AUTO"%string /\ nr_requested e = None
    \/ nr_policy e = "EXPLICIT"%string /\ is_Some (nr_requested e);
  nrc_profile : nr_profile e = "STANDARD_OVERLAY"%string /\ (forall z, nr_requested e = Some z -> 1 <= z <= 16777215)
    \/ nr_profile e = "PROVIDER_VLAN"%string /\ forall z, nr_requested e = Some z -> 1 <= z <= 4094;
  nrc_digest : hex64 (nr_digest e) = true;
}.
Record decision_columns (s : segment_decision_row) : Prop := MkDecisionColumns {
  sdc_type : one_of_texts ["VNI"; "VLAN"] (sd_type s) = true;
  sdc_generation : 0 < sd_generation s;
  sdc_digest : hex64 (sd_digest s) = true;
}.
Record operation_columns (e : realization_operation_row) : Prop := MkOperationColumns {
  roc_kind : one_of_texts ["REALIZE"; "RETIRE"] (ro_kind e) = true;
  roc_realization : 0 < ro_realization e;
  roc_schema : ro_schema e = "kim.network-intent.ovn-network/v1"%string;
  roc_digest : hex64 (ro_digest e) = true;
}.
Record observation_columns (b : realization_observation_row) : Prop := MkObservationColumns {
  rbc_response : one_of_texts responses (rb_response b) = true;
  rbc_digests : hex64 (rb_digest b) = true /\ hex64 (rb_adapter b) = true;
}.
Definition response_column (o : option string) : bool := match o with Some r => one_of_texts responses r | None => true end.
Definition realization_columns (z : realization_row) : Prop :=
  0 < rz_generation z /\ one_of_texts ["PENDING"; "VERIFIED"; "UNKNOWN"; "ABSENT"; "FAILED"] (rz_state z) = true.
(** The columns of a claim go together. *)
Definition claim_columns_ok (s : operation_state_row) : bool :=
  if os_phase s ==s "CLAIMED"
  then bool_decide (is_Some (os_owner s)) && bool_decide (is_Some (os_claim s)) && bool_decide (is_Some (os_expires s))
  else bool_decide (os_owner s = None) && bool_decide (os_claim s = None) && bool_decide (os_expires s = None).

(** ** The schema *)

(** What a row that names an allocation refers to *)
Definition decided (d : netdb) (allocation network : string) (generation : Z) : Prop := exists s,
  segment_decisions d !! allocation = Some s /\ sd_network s = network /\ sd_generation s = generation.

Record schema_holds (d : netdb) : Prop := MkSchemaHolds {
  sch_network n w : networks d !! n = Some w -> resource_row w -> network_columns w /\ 0 < nw_revision w
    /\ one_of_texts ["ACTIVE"; "RETIRE_PENDING"; "DELETED"] (nw_lifecycle w) = true;
  sch_revision n r e : network_revisions d !! (n, r) = Some e -> revision_columns r e;
  sch_decision id s : segment_decisions d !! id = Some s -> decision_columns s
    /\ is_Some (network_revisions d !! (sd_network s, sd_revision s))
    /\ forall id' s', segment_decisions d !! id' = Some s' -> sd_network s' = sd_network s ->
         sd_generation s' = sd_generation s -> id' = id;
  sch_allocation n a : allocations d !! n = Some a ->
    one_of_texts ["ALLOCATED"; "RELEASE_PENDING"; "RELEASED"] (al_state a) = true
    /\ is_Some (network_revisions d !! (n, al_revision a)) /\ decided d (al_id a) n (al_generation a)
    /\ forall n' a', allocations d !! n' = Some a' ->
         al_id a' = al_id a \/ al_pool a' = al_pool a /\ al_segment a' = al_segment a -> n' = n;
  sch_release id r : releases d !! id = Some r -> hex64 (rl_digest r) = true
    /\ is_Some (segment_decisions d !! rl_allocation r)
    /\ forall id' r', releases d !! id' = Some r' -> rl_allocation r' = rl_allocation r -> id' = id;
  sch_operation o g e : realization_operations d !! (o, g) = Some e -> 0 < g /\ operation_columns e
    /\ is_Some (network_revisions d !! (ro_network e, ro_revision e))
    /\ decided d (ro_allocation e) (ro_network e) (ro_allocation_generation e)
    /\ forall o' g' e', realization_operations d !! (o', g') = Some e' -> ro_network e' = ro_network e ->
         ro_realization e' = ro_realization e -> (o', g') = (o, g);
  sch_state o s : operation_states d !! o = Some s ->
    one_of_texts ["PENDING"; "CLAIMED"; "DISPATCH_UNKNOWN"; "VERIFYING"; "SUCCEEDED"; "FAILED"] (os_phase s) = true
    /\ claim_columns_ok s = true /\ response_column (os_response s) = true
    /\ is_Some (realization_operations d !! (o, os_generation s))
    /\ forall o' s', operation_states d !! o' = Some s' -> os_network s' = os_network s -> o' = o;
  sch_attempt o g c a : realization_attempts d !! (o, g, c) = Some a ->
    one_of_texts ["APPLY_ALLOWED"; "READ_BACK_FIRST"] (ra_mode a) = true /\ is_Some (realization_operations d !! (o, g));
  sch_event k event : (k, event) ∈ attempt_event_log d ->
    one_of_texts ["READ_BACK_STARTED"; "APPLY_AUTHORIZED"] event = true /\ is_Some (realization_attempts d !! k);
  sch_observation id b : realization_observations d !! id = Some b -> observation_columns b
    /\ is_Some (realization_operations d !! (rb_operation b, rb_generation b))
    /\ forall id' b', realization_observations d !! id' = Some b' -> rb_operation b' = rb_operation b ->
         rb_generation b' = rb_generation b -> rb_observation b' = rb_observation b -> id' = id;
  sch_terminal t r : realization_terminals d !! t = Some r ->
    one_of_texts ["VERIFIED"; "ABSENT"] (rt_state r) = true /\ hex64 (rt_digest r) = true
    /\ is_Some (realization_operations d !! (rt_operation r, rt_generation r))
    /\ is_Some (realization_observations d !! rt_observation r);
  sch_realization n z : realizations d !! n = Some z -> realization_columns z /\ is_Some (networks d !! n)
    /\ is_Some (realization_operations d !! (rz_operation z, rz_operation_generation z))
    /\ forall t, rz_terminal z = Some t -> is_Some (realization_terminals d !! t);
}.

(** ** The columns along a run *)

Record checked (d : netdb) : Prop := MkChecked {
  chk_networks : map_Forall (fun _ w => resource_row w -> network_columns w) (networks d);
  chk_revisions : map_Forall (fun k e => revision_columns (snd k) e) (network_revisions d);
  chk_decisions : map_Forall (fun _ s => decision_columns s) (segment_decisions d);
  chk_releases : map_Forall (fun _ r => hex64 (rl_digest r) = true) (releases d);
  chk_operations : map_Forall (fun _ e => operation_columns e) (realization_operations d);
  chk_states : map_Forall (fun _ s => response_column (os_response s) = true) (operation_states d);
  chk_observations : map_Forall (fun _ b => observation_columns b) (realization_observations d);
  chk_observed id id' b b' : realization_observations d !! id = Some b -> realization_observations d !! id' = Some b' ->
    rb_operation b' = rb_operation b -> rb_generation b' = rb_generation b -> rb_observation b' = rb_observation b -> id' = id;
  chk_terminals : map_Forall (fun _ r => hex64 (rt_digest r) = true) (realization_terminals d);
  chk_realizations : map_Forall (fun _ z => realization_columns z) (realizations d);
}.

(** A table with one more row, the others as they are *)
Ltac checked_rows := match goal with C : checked _ |- checked _ => destruct C; constructor; cbn; try done end;
  try (apply map_Forall_insert_2; [|done]).

Lemma bare_checked d : bare d -> checked d.
Proof.
  intros B. pose proof (bare_networks _ B) as Hn. destruct B as [_ E1 E2 E3 E4 E5 E6 E7 E8 E9 E10 E11].
  constructor; rewrite ?E1, ?E2, ?E4, ?E5, ?E6, ?E9, ?E10, ?E11; try apply map_Forall_empty.
  all: try (intros id ? b ? ?%lookup_empty_Some; done).
  intros n w Hw Hr. exfalso. by apply Hn in Hw.
Qed.

Lemma others_checked d d' : others d d' -> checked d -> checked d'.
Proof.
  intros O C. pose proof (oth_networks _ _ O) as Hn. destruct O as [_ E1 E2 E3 E4 E5 E6 E7 E8 E9 E10 E11]. destruct C.
  constructor; rewrite ?E1, ?E2, ?E4, ?E5, ?E6, ?E9, ?E10, ?E11; try done.
  intros n w Hw Hr. apply (Hn n w Hr) in Hw. by apply (chk_networks0 n w).
Qed.

(** *** The statements *)

Lemma checked_event c event d : checked d -> checked (record_event c event d).
Proof. intros C. by checked_rows. Qed.

Lemma checked_revision network revision e d d' : checked d -> insert_revision network revision e d = Ok d' ->
  1 <= len (nr_name e) <= 255 -> one_of_texts ["ACTIVE"; "RETIRE_PENDING"; "DELETED"] (nr_lifecycle e) = true ->
  checked d'.
Proof.
  intros C H Hn Hl. unfold insert_revision, revision_row_ok in H. open_tx. checked_rows. cbn. bools.
  constructor; try done; try lia.
  - destruct (nr_previous e); bools; [right|left]; split; congruence || lia || done.
  - destruct (String.eqb_spec (nr_policy e) "AUTO"); bools; [left|right]; by split.
  - unfold within in *. destruct (String.eqb_spec (nr_profile e) "STANDARD_OVERLAY"); bools; [left|right]; (split; [done|]);
      intros z Hz; rewrite Hz in *; bools; lia.
Qed.

Lemma checked_decision allocation s d d' : checked d -> insert_decision allocation s d = Ok d' ->
  one_of_texts ["VNI"; "VLAN"] (sd_type s) = true -> 0 < sd_generation s -> checked d'.
Proof. intros C H Ht Hg. unfold insert_decision in H. open_tx. checked_rows. bools. by constructor. Qed.

Lemma checked_operation now desired authority backend generation r allocation type segment kind state g d d' :
  checked d -> insertNetworkRealizationOperationTx now desired authority backend generation r allocation type segment kind state g d = Ok d' ->
  kind = "REALIZE"%string \/ kind = "RETIRE"%string -> 0 < r -> checked d'.
Proof.
  intros C H Hk Hr. unfold insertNetworkRealizationOperationTx, put_operation, bigint in H. open_tx. checked_rows.
  - match goal with H : PlanNetwork _ = _ |- _ => apply planned_network in H as (_ & -> & _) end.
    constructor; cbn; [by destruct Hk as [-> | ->]|done|done|apply hex64_sha256].
  - apply map_Forall_insert_2; [done|]. intros i x [Hi _]%map_lookup_filter_Some. by apply (chk_states0 i).
  - by split.
Qed.

Lemma checked_left now o phase response terminal s d : checked d -> one_of_texts responses response = true ->
  checked (leave_claim now o phase response terminal s d).
Proof. intros C Hr. by checked_rows. Qed.

Lemma checked_observed c o s d : checked d -> one_of_texts responses (ro_ApplyResponseState o) = true ->
  hex64 (ro_ObservationDigest o) = true -> hex64 (ro_AdapterArtifactDigest o) = true ->
  (forall id b, realization_observations d !! id = Some b ->
     ~ (rb_operation b = nc_OperationID c /\ rb_generation b = nc_OperationGeneration c /\ rb_observation b = ro_ObservationGeneration o)) ->
  checked (observed c o s d).
Proof.
  intros C Hr Hd Ha Hnew. pose proof (chk_observed _ C) as Hu. checked_rows; [by constructor|].
  intros id id' b b' [[<- <-]|[Hne Hb]]%lookup_insert_Some [[<- <-]|[Hne' Hb']]%lookup_insert_Some E1 E2 E3; try done.
  - destruct (Hnew _ _ Hb'). by split_and!.
  - destruct (Hnew _ _ Hb). by split_and!.
  - by eapply Hu.
Qed.

Lemma checked_released s terminal d d' : checked d -> release_segment s terminal d = Ok d' -> checked d'.
Proof.
  intros C H. unfold release_segment in H. open_tx.
  match goal with |- checked (match ?o with Some _ => _ | None => ?d end) =>
    change o with (networks d !! os_network s); set (d1 := d) end.
  assert (checked d1) as C1 by (unfold d1; checked_rows; apply hex64_sha256).
  clearbody d1. clear C. destruct (networks _ !! _) as [w|] eqn:Hw; [|done]. destruct (_ && _); [|done].
  pose proof (chk_networks _ C1 _ _ Hw) as Hc. checked_rows. intros Hr. by destruct (Hc Hr).
Qed.

Lemma checked_concluded now c o kind state s d d' : checked d -> conclude now c o kind state s d = Ok d' ->
  one_of_texts ["VERIFIED"; "ABSENT"] state = true -> one_of_texts responses (ro_ApplyResponseState o) = true ->
  checked d'.
Proof.
  intros C H Hs Hr. unfold conclude in H. cbv zeta in H. apply bind_Ok_inv in H as ([] & _ & H).
  match type of H with context [leave_claim ?n ?i ?p ?r ?t s ?d1] => assert (checked (leave_claim n i p r t s d1)) as C1 end.
  { apply checked_left; [|done]. checked_rows. apply hex64_sha256. }
  match type of H with context [realizations ?d1] => set (d2 := d1) in *; set (d3 := match realizations d2 !! os_network s with Some _ => _ | None => _ end) in * end.
  assert (checked d3) as C3.
  { unfold d3. clearbody d2. clear H d3. destruct (realizations d2 !! os_network s) as [z|] eqn:Hz; [|done].
    destruct (_ && _); [|done]. pose proof (chk_realizations _ C1 _ _ Hz) as [Hg _]. checked_rows. split; [done|]. cbn.
    unfold one_of_texts in *. cbn in *. repeat (apply orb_prop in Hs as [Hs|Hs]); try done; apply String.eqb_eq in Hs; subst; done. }
  clearbody d3. clear C1. destruct (kind ==s "RETIRE"); [|by injection H as <-].
  by eapply checked_released.
Qed.

(** *** The transactions *)

Lemma len_bounds s : s <> ""%string -> (255 <? len s) = false -> 1 <= len s <= 255.
Proof. intros Hs H. apply Z.ltb_ge in H. split; [|done]. destruct s; [done|]. unfold len. cbn. lia. Qed.

Lemma two_texts s a b : (s !=s a) && (s !=s b) = false -> one_of_texts [a; b] s = true.
Proof. unfold one_of_texts. cbn. destruct (s ==s a), (s ==s b); done. Qed.

Lemma Create_checked now r d d' : checked d -> CreateNetworkResource now r d = Ok d' -> checked d'.
Proof.
  intros C H. unfold CreateNetworkResource in H. cbv zeta in H. apply bind_Ok_inv in H as ([] & Hr & H).
  apply fail_if_Ok_inv, negb_false_iff in Hr. unfold request_ok in Hr. apply negb_true_iff in Hr.
  repeat (apply orb_false_elim in Hr as [Hr ?]).
  assert (1 <= len (rq_Name r) <= 255) as Hname by (apply len_bounds; [bools|]; done).
  assert (one_of_texts ["STANDARD_OVERLAY"; "PROVIDER_VLAN"] (rq_Profile r) = true
    /\ one_of_texts ["AUTO"; "EXPLICIT"] (rq_SegmentPolicy r) = true) as [Hprofile Hpolicy].
  { split; by apply two_texts. }
  assert (hex64 (networkDesiredDigest r 1 "ACTIVE") = true) as Hdigest by apply hex64_sha256.
  apply bind_Ok_inv in H as ([] & _ & H). destruct (networks d !! rq_NetworkID r) as [w|]; [by open_tx|].
  apply bind_Ok_inv in H as ([] & _ & H).
  assert (exists p t, pool_of (rq_Profile r) = (p, t) /\ one_of_texts ["VNI"; "VLAN"] t = true) as (p & t & Ep & Ht).
  { unfold pool_of. destruct (rq_Profile r ==s "PROVIDER_VLAN"); do 2 eexists; split; reflexivity. }
  rewrite Ep in H. do 3 (apply bind_Ok_inv in H as (? & _ & H)). unfold declare_network in H. cbv zeta in H.
  apply bind_Ok_inv in H as (d1 & Q1 & H). apply (checked_revision _ _ _ _ _ C) in Q1; [|done..].
  apply bind_Ok_inv in H as ([] & _ & H). apply bind_Ok_inv in H as (d2 & Q2 & H).
  apply checked_decision in Q2; [| |done|done].
  2: { checked_rows. intros _. by constructor. }
  apply bind_Ok_inv in H as (d3 & Q3 & H). assert (checked d3) as C3 by (unfold insert_allocation in Q3; open_tx; by checked_rows).
  apply bind_Ok_inv in H as (d4 & Q4 & H). assert (checked d4) as C4 by (unfold insert_segment_claim in Q4; open_tx; by checked_rows).
  eapply checked_operation; [exact C4|exact H|by left|done].
Qed.

(** A change of a Network *)
Lemma changed_checked now n w a z w' a' desired digest next protected lifecycle backend kind state d d1 d' :
  checked d -> current_network n d = Ok (w, a, z) ->
  insert_revision n next (revision_row_of desired protected lifecycle (Some (nw_revision w)) digest) d = Ok d1 ->
  insertNetworkRealizationOperationTx now desired next backend (al_generation a) (rz_generation z + 1) (al_id a)
    (al_type a) (al_segment a) kind state 1 (d1 <| networks ::= <[n := w']> |> <| allocations ::= <[n := a']> |>) = Ok d' ->
  1 <= len (rq_Name desired) <= 255 -> one_of_texts ["ACTIVE"; "RETIRE_PENDING"; "DELETED"] lifecycle = true ->
  (network_columns w -> network_columns w') -> kind = "REALIZE"%string \/ kind = "RETIRE"%string -> checked d'.
Proof.
  intros C Hc H1 H2 Hname Hl Hw Hk. unfold current_network in Hc. open_tx. bools.
  match goal with H : realizations d !! n = Some _ |- _ => pose proof (chk_realizations _ C _ _ H) as [Hg _] end.
  match goal with H : networks d !! n = Some _ |- _ => pose proof (chk_networks _ C _ _ H) as Hcw end.
  apply (checked_revision _ _ _ _ _ C) in H1; [|done..].
  eapply checked_operation; [|exact H2|done|lia]. checked_rows. intros _. by apply Hw, Hcw.
Qed.

Lemma Revise_checked now n patch d d' : checked d -> UpdateNetworkResource now n patch d = Ok d' -> checked d'.
Proof.
  intros C H. unfold UpdateNetworkResource in H. cbv zeta in H. apply bind_Ok_inv in H as ([] & Hp & H). apply fail_if_Ok_inv in Hp.
  repeat (apply orb_false_elim in Hp as [Hp ?]). assert (1 <= len (nx_Name patch) <= 255) as Hname by (apply len_bounds; [bools|]; done).
  apply bind_Ok_inv in H as ([] & _ & H). apply bind_Ok_inv in H as ([[w a] z] & Hc & H).
  do 2 (apply bind_Ok_inv in H as (? & _ & H)). apply bind_Ok_inv in H as (d1 & Q1 & H).
  eapply (changed_checked _ _ _ _ _ _ _ _ _ _ _ _ _ _ _ _ _ _ C Hc Q1 H); [done|done| |by left].
  intros [? ? ? ?]. constructor; try done. apply hex64_sha256.
Qed.

Lemma Retire_checked now n expected d d' : checked d -> RequestNetworkRetirement now n expected d = Ok d' -> checked d'.
Proof.
  intros C H. unfold RequestNetworkRetirement in H. cbv zeta in H.
  apply bind_Ok_inv in H as ([] & _ & H). apply bind_Ok_inv in H as ([[w a] z] & Hc & H).
  do 4 (apply bind_Ok_inv in H as (? & _ & H)). apply bind_Ok_inv in H as (d1 & H1 & H).
  pose proof Hc as Hn. unfold current_network in Hn. open_tx. bools.
  match goal with H : networks d !! n = Some _ |- _ => pose proof (chk_networks _ C _ _ H) as Hcw end.
  destruct Hcw as [? ? ? ?]; [done|].
  eapply (changed_checked _ _ _ _ _ _ _ _ _ _ _ _ _ _ _ _ _ _ C Hc H1 H); [done|done| |by right].
  intros _. constructor; try done. apply hex64_sha256.
Qed.

Lemma Claim_checked jsonb_text now operation owner lease d d' c : checked d ->
  ClaimNetworkRealization jsonb_text now operation owner lease d = Ok (d', c) -> checked d'.
Proof.
  intros C H. unfold ClaimNetworkRealization in H. do 2 (apply bind_Ok_inv in H as ([] & _ & H)).
  destruct (candidates now operation d) as [|[o s] rest] eqn:Hc; [done|]. apply candidates_inv in Hc as (Hs & _).
  pose proof (chk_states _ C _ _ Hs) as Hr. open_tx. by checked_rows.
Qed.

Lemma Accept_checked jsonb_text now c o d d' answer : checked d ->
  AcceptNetworkRealizationObservation jsonb_text now c o d = Ok (d', answer) -> checked d'.
Proof.
  intros C H. unfold AcceptNetworkRealizationObservation in H. cbv zeta in H. apply bind_Ok_inv in H as ([] & Ho & H).
  apply fail_if_Ok_inv in Ho. apply orb_false_elim in Ho as [_ Ho].
  assert (one_of_texts responses (ro_ApplyResponseState o) = true) as Hr.
  { unfold one_of_texts, responses. cbn. by destruct (ro_ApplyResponseState o ==s "RECEIVED"), (ro_ApplyResponseState o ==s "LOST"),
      (ro_ApplyResponseState o ==s "UNKNOWN"). }
  do 2 (apply bind_Ok_inv in H as (? & _ & H)). apply bind_Ok_inv in H as ([? plan] & _ & H).
  do 3 (apply bind_Ok_inv in H as (? & _ & H)). apply bind_Ok_inv in H as (d1 & H1 & H).
  assert (checked d1) as C1.
  { unfold insert_observation, bigint in H1. clear H. open_tx. bools. apply (checked_observed _ _ _ _ C); try done.
    intros id b Hb (E1 & E2 & E3). match goal with H : any_row _ _ = false |- _ => pose proof (any_row_false_inv _ _ _ _ H Hb) as E end.
    cbn in E. rewrite E1, E2, E3, String.eqb_refl, !Z.eqb_refl in E. done. }
  destruct (_ || _) eqn:Ec in H.
  - apply bind_Ok_inv in H as (d2 & H & [= <- _]). eapply checked_concluded; [exact C1|exact H| |done].
    apply orb_prop in Ec as [[_ E]%andb_prop|[_ E]%andb_prop]; apply String.eqb_eq in E; by rewrite E.
  - injection H as <- _. by apply checked_left.
Qed.

Lemma effect_checked jsonb_text now q d d' : checked d -> effect jsonb_text now q d = Ok d' -> checked d'.
Proof.
  intros C H. destruct q; cbn in H.
  - by eapply Create_checked.
  - by eapply Revise_checked.
  - by eapply Retire_checked.
  - apply bind_Ok_inv in H as ([d1 a] & H & [= <-]). by eapply Claim_checked.
  - apply bind_Ok_inv in H as (s & _ & [= <-]). by apply checked_left.
  - unfold RecordNetworkRealizationReadBackStarted in H. open_tx. by apply checked_event.
  - unfold AuthorizeNetworkRealizationApply in H. open_tx. by apply checked_event.
  - apply bind_Ok_inv in H as ([d1 a] & H & [= <-]). by eapply Accept_checked.
Qed.

Lemma reachable_checked jsonb_text d : reachable jsonb_text d -> checked d.
Proof.
  intros (d0 & B & R). apply bare_checked in B. induction R as [|d d1 d2 _ IH O|now q d d1 d2 _ IH H]; [done| |].
  - exact (others_checked _ _ O (IH B)).
  - exact (effect_checked _ _ _ _ _ (IH B) H).
Qed.

(** ** The schema holds of sound tables whose columns are *)

Section Schema.
Context (d : netdb).
Hypothesis S : sound d.
Hypothesis C : checked d.

Lemma phased_columns s : phased s -> claim_columns_ok s = true
  /\ one_of_texts ["PENDING"; "CLAIMED"; "DISPATCH_UNKNOWN"; "VERIFYING"; "SUCCEEDED"; "FAILED"] (os_phase s) = true.
Proof.
  unfold claim_columns_ok. intros [E _ (H1 & H2 & H3) _|owner expires E _ H1 H2 H3 _|[E|E] _ (H1 & H2 & H3) _|t E _ (H1 & H2 & H3) _];
    rewrite E, H1, H2, H3; split; try done; cbn; by rewrite !bool_decide_eq_true_2 by (by eexists).
Qed.

Lemma decided_once allocation network : allocation = allocation_of network -> is_Some (segment_decisions d !! allocation) ->
  decided d allocation network 1.
Proof.
  intros -> [s Hs]. destruct (snd_decision _ S _ _ Hs) as (_ & E & Hg & _). exists s. split_and!; try done.
  by apply allocation_of_inj.
Qed.

Lemma network_schema n w : networks d !! n = Some w -> resource_row w -> network_columns w /\ 0 < nw_revision w
  /\ one_of_texts ["ACTIVE"; "RETIRE_PENDING"; "DELETED"] (nw_lifecycle w) = true.
Proof.
  intros Hw Hr. destruct (snd_standing _ S _ _ Hw Hr) as [[? _] _ (z & s & _ & _ & _ & Hl)].
  split; [by apply (chk_networks _ C n)|]. split; [lia|]. destruct Hl as [a E|a E|E]; by rewrite E.
Qed.

Lemma decision_schema id s : segment_decisions d !! id = Some s -> decision_columns s
  /\ is_Some (network_revisions d !! (sd_network s, sd_revision s))
  /\ forall id' s', segment_decisions d !! id' = Some s' -> sd_network s' = sd_network s ->
       sd_generation s' = sd_generation s -> id' = id.
Proof.
  intros Hs. destruct (snd_decision _ S _ _ Hs) as (_ & Hid & _ & Hrev). split; [by apply (chk_decisions _ C id)|]. split; [done|].
  intros id' s' Hs' E _. destruct (snd_decision _ S _ _ Hs') as (_ & -> & _). by rewrite Hid, E.
Qed.

Lemma allocation_schema n a : allocations d !! n = Some a ->
  one_of_texts ["ALLOCATED"; "RELEASE_PENDING"; "RELEASED"] (al_state a) = true
  /\ is_Some (network_revisions d !! (n, al_revision a)) /\ decided d (al_id a) n (al_generation a)
  /\ forall n' a', allocations d !! n' = Some a' ->
       al_id a' = al_id a \/ al_pool a' = al_pool a /\ al_segment a' = al_segment a -> n' = n.
Proof.
  intros Ha. destruct (snd_allocation _ S _ _ Ha) as ((w & Hw & Hr) & Hid & Hg & dec & Hdec & _).
  destruct (snd_standing _ S _ _ Hw Hr) as [_ Hev (z & s & _ & _ & _ & Hl)]. rewrite Ha in Hl.
  assert (one_of_texts ["ALLOCATED"; "RELEASE_PENDING"; "RELEASED"] (al_state a) = true /\ al_revision a = nw_revision w) as [-> ->]
    by (inversion Hl as [a' _ _ E1 E2|a' _ _ _ E1 E2|]; subst; by rewrite E1, E2).
  split; [done|]. split; [done|]. split; [rewrite Hg; apply decided_once; by rewrite ?Hdec|].
  intros n' a' Ha' [E|[E1 E2]]; [|by apply (snd_exclusive _ S n' n a' a)].
  destruct (snd_allocation _ S _ _ Ha') as (_ & Hid' & _). apply allocation_of_inj. congruence.
Qed.

Lemma operation_schema o g e : realization_operations d !! (o, g) = Some e -> 0 < g /\ operation_columns e
  /\ is_Some (network_revisions d !! (ro_network e, ro_revision e))
  /\ decided d (ro_allocation e) (ro_network e) (ro_allocation_generation e)
  /\ forall o' g' e', realization_operations d !! (o', g') = Some e' -> ro_network e' = ro_network e ->
       ro_realization e' = ro_realization e -> (o', g') = (o, g).
Proof.
  intros He. destruct (snd_evident _ S _ _ _ He) as [Hg Ho _ _ Hrev (Hal & Hag & Hd) _ _].
  split; [lia|]. split; [by apply (chk_operations _ C (o, g))|]. split; [done|].
  split; [rewrite Hag; by apply decided_once|].
  intros o' g' e' He' E1 E2. destruct (snd_evident _ S _ _ _ He') as [Hg' Ho' _ _ _ _ _ _]. congruence.
Qed.

Lemma state_schema o s : operation_states d !! o = Some s ->
  one_of_texts ["PENDING"; "CLAIMED"; "DISPATCH_UNKNOWN"; "VERIFYING"; "SUCCEEDED"; "FAILED"] (os_phase s) = true
  /\ claim_columns_ok s = true /\ response_column (os_response s) = true
  /\ is_Some (realization_operations d !! (o, os_generation s))
  /\ forall o' s', operation_states d !! o' = Some s' -> os_network s' = os_network s -> o' = o.
Proof.
  intros Hs. destruct (phased_columns s (sound_phased _ _ _ S Hs)) as [Hc Hp].
  destruct (snd_stateful _ S _ _ Hs) as [_ (z & Hz & Ho) (e & He & _) _ _]. split_and!; try done.
  - by apply (chk_states _ C o).
  - intros o' s' Hs' En. destruct (snd_stateful _ S _ _ Hs') as [_ (z' & Hz' & Ho') _ _ _]. congruence.
Qed.

Lemma realization_schema n z : realizations d !! n = Some z -> realization_columns z /\ is_Some (networks d !! n)
  /\ is_Some (realization_operations d !! (rz_operation z, rz_operation_generation z))
  /\ forall t, rz_terminal z = Some t -> is_Some (realization_terminals d !! t).
Proof.
  intros Hz. destruct (snd_realization _ S _ _ Hz) as (w & Hw & Hr).
  destruct (snd_standing _ S _ _ Hw Hr) as [_ _ (z' & s & Hz' & Hs & Ho & _)]. assert (z' = z) as -> by congruence.
  destruct (snd_stateful _ S _ _ Hs) as [_ _ (e & He & _) _ Ht].
  destruct (opd_generations Ho) as [Eg Eg']. rewrite Eg' in He. rewrite Eg.
  split; [by apply (chk_realizations _ C n)|]. split; [by eexists|]. split; [by eexists|].
  intros t E. rewrite (opd_terminal Ho) in E. destruct (Ht _ E) as (r & -> & _). by eexists.
Qed.

Lemma sound_schema : schema_holds d.
Proof.
  constructor.
  - apply network_schema.
  - intros n r e He. exact (chk_revisions _ C _ _ He).
  - apply decision_schema.
  - apply allocation_schema.
  - intros id r Hr. destruct (snd_released _ S _ _ Hr) as [Hid _ _ (s & Hs & _) _].
    split; [by apply (chk_releases _ C id)|]. split; [by eexists|].
    intros id' r' Hr' E. destruct (snd_released _ S _ _ Hr') as [Hid' _ _ _ _]. congruence.
  - apply operation_schema.
  - apply state_schema.
  - intros o g c a Ha. destruct (snd_attempted _ S _ _ _ _ Ha) as [H1 [[-> _]|[-> _]] _]; done.
  - intros k ev Hk. destruct (snd_event _ S _ _ Hk) as (a & -> & [[-> _]|[-> _]]); done.
  - intros id b Hb. split; [by apply (chk_observations _ C id)|]. split; [by eapply snd_observation|].
    intros id' b' Hb'. by apply (chk_observed _ C id id' b b').
  - intros t r Hr. pose proof (chk_terminals _ C t r Hr).
    destruct (snd_terminated _ S _ _ Hr) as [_ _ (e & b & -> & -> & (_ & _ & _ & [[-> _]|[-> _]]) & _)]; done.
  - apply realization_schema.
Qed.
End Schema.
