(* ===== verification/NetworkProgress.v ===== *)
(** * Transactions of the Network authority that succeed

    The conditions under which a claim, the events of an attempt and an
    observation commit, and what an observation that ends an operation leaves
    behind. *)

From S2P Require Import Prelude GoStd GoJson ControlDb ControlFrames Northbound OvnPlan NetworkResource NetworkRuns.
Local Open Scope Z_scope.
Local Open Scope go_scope.

(** ** Transactions that succeed *)

Definition claim_of (jsonb_text : bytes -> bytes) (now : Z) (o owner : string) (lease : Z) (s : operation_state_row)
    (e : realization_operation_row) : NetworkRealizationClaim :=
  MkNetworkClaim o owner (claim_mode s) (os_kind s) (ro_digest e) (os_generation s) (os_last_claim s + 1)
    (jsonb_text (ro_plan e)) (now + microseconds lease).
Definition claimed_tables (now : Z) (o owner : string) (lease : Z) (s : operation_state_row) (d : netdb) : netdb :=
  d <| operation_states ::= <[o := claimed_state now owner lease s]> |>
    <| realization_attempts ::= <[(o, os_generation s, os_last_claim s + 1) :=
         MkRealizationAttempt owner (claim_mode s) (now + microseconds lease)]> |>.

(** Work at the head of the queue that a worker can take *)
Record ready (d : netdb) (now : Z) (owner : string) (lease : Z) (o : string) (s : operation_state_row)
    (e : realization_operation_row) : Prop := MkReady {
  rdy_sound : sound d;
  rdy_mode : net_mode d = "ACTIVE"%string;
  rdy_owner : owner <> ""%string /\ 0 < lease <= MaxOVNRuntimeClaimLifetime;
  rdy_first : exists rest, candidates now "" d = (o, s) :: rest;
  rdy_evidence : realization_operations d !! (o, os_generation s) = Some e;
  rdy_bounded : os_last_claim s < MaxInt64;
}.

Lemma ready_state d now owner lease o s e : ready d now owner lease o s e ->
  operation_states d !! o = Some s /\ claimable now s = true /\ 0 <= os_last_claim s
  /\ realization_attempts d !! (o, os_generation s, os_last_claim s + 1) = None.
Proof.
  intros [S _ _ (rest & Hc) _ _]. destruct (candidates_inv _ _ _ _ _ _ Hc) as (Hs & Hcl & _).
  destruct (claimable_open _ _ (sound_phased _ _ _ S Hs) Hcl) as [_ Hl]. split_and!; try done; [lia|].
  destruct (realization_attempts d !! _) as [a|] eqn:Ha; [|done].
  pose proof (atd_claimed _ _ _ _ _ (snd_attempted _ S _ _ _ _ Ha) _ Hs). lia.
Qed.

Lemma claim_runs jsonb_text now owner lease d o s e : ready d now owner lease o s e ->
  ClaimNetworkRealization jsonb_text now "" owner lease d
  = Ok (claimed_tables now o owner lease s d, claim_of jsonb_text now o owner lease s e).
Proof.
  intros R. destruct (ready_state _ _ _ _ _ _ _ R) as (_ & _ & _ & Hfresh).
  destruct R as [_ Hm [Hown Hlease] (rest & Hc) He Hb]. unfold ClaimNetworkRealization, requireActiveDatabaseAuthority, next_bigint.
  rewrite Hc, Hm, He. cbn [String.eqb Ascii.eqb Bool.eqb negb fail_if mbind res_bind row].
  rewrite (proj2 (String.eqb_neq _ _) Hown), (proj2 (Z.leb_gt lease 0)), (proj2 (Z.ltb_ge _ lease)), (proj2 (Z.leb_gt _ _)) by lia.
  cbn [orb fail_if mbind res_bind]. rewrite bool_decide_eq_false_2; [done|]. cbn. rewrite Hfresh. by intros [? ?].
Qed.

Lemma lock_runs now c d s : net_mode d = "ACTIVE"%string -> nc_OperationID c <> ""%string -> nc_Owner c <> ""%string ->
  nc_ClaimGeneration c <> 0 -> operation_states d !! nc_OperationID c = Some s -> holds_claim now c s = true ->
  lockNetworkRealizationClaim now c d = Ok s.
Proof.
  intros Hm Ho Hw Hg Hs Hh. unfold lockNetworkRealizationClaim, requireActiveDatabaseAuthority.
  rewrite (proj2 (String.eqb_neq _ _) Ho), (proj2 (String.eqb_neq _ _) Hw), (proj2 (Z.eqb_neq _ _) Hg), Hm, Hs. cbn.
  by rewrite Hh.
Qed.

(** The tables a claim left, with events of its attempt *)
Definition logged (events : list string) (c : NetworkRealizationClaim) (d : netdb) : netdb :=
  foldr (record_event c) d events.
Lemma logged_event events c d event : event ∈ events -> attempt_event c event ∈ attempt_event_log (logged events c d).
Proof.
  induction events as [|e events IH]; [by intros ?%elem_of_nil|]. intros [->|H]%elem_of_cons; cbn; apply elem_of_union.
  - left. by apply elem_of_singleton.
  - right. by apply IH.
Qed.
Lemma logged_tables events c d :
  net_mode (logged events c d) = net_mode d /\ operation_states (logged events c d) = operation_states d
  /\ realization_operations (logged events c d) = realization_operations d
  /\ realization_attempts (logged events c d) = realization_attempts d
  /\ realization_observations (logged events c d) = realization_observations d
  /\ realization_terminals (logged events c d) = realization_terminals d
  /\ networks (logged events c d) = networks d /\ allocations (logged events c d) = allocations d
  /\ realizations (logged events c d) = realizations d /\ releases (logged events c d) = releases d.
Proof. induction events as [|e events IH]; [done|]. cbn. split_and!; apply IH. Qed.

Section Claimed.
Context (jsonb_text : bytes -> bytes) {d : netdb} {t0 : Z} {owner : string} {lease : Z} {o : string} {s : operation_state_row}
  {e : realization_operation_row}.
Hypothesis R : ready d t0 owner lease o s e.
Let c := claim_of jsonb_text t0 o owner lease s e.
Let d1 := claimed_tables t0 o owner lease s d.

Lemma claimed_lock now events : now < t0 + microseconds lease ->
  lockNetworkRealizationClaim now c (logged events c d1) = Ok (claimed_state t0 owner lease s).
Proof.
  intros Hnow. destruct (ready_state _ _ _ _ _ _ _ R) as (Hs & _ & Hl & _). destruct (rdy_owner _ _ _ _ _ _ _ R) as [Ho _].
  destruct (logged_tables events c d1) as (Em & Es & _).
  apply lock_runs; rewrite ?Em, ?Es; try done.
  - apply (rdy_mode _ _ _ _ _ _ _ R).
  - cbn. destruct (sound_at_work _ _ _ (rdy_sound _ _ _ _ _ _ _ R) Hs) as (w & z & W).
    destruct (atw_realization W) as [_ <-]. by rewrite (opd_operation (atw_operated W)).
  - cbn. lia.
  - cbn. apply lookup_insert_eq.
  - unfold holds_claim. cbn. rewrite Z.eqb_refl, !bool_decide_eq_true_2 by done. by apply Z.ltb_lt.
Qed.

Lemma claimed_attempt events : realization_attempts (logged events c d1) !! attempt_key c
  = Some (MkRealizationAttempt owner (claim_mode s) (t0 + microseconds lease)).
Proof.
  destruct (logged_tables events c d1) as (_ & _ & _ & -> & _). cbn. unfold attempt_key. cbn. apply lookup_insert_eq.
Qed.

Lemma readback_runs now events : now < t0 + microseconds lease -> claim_mode s = "READ_BACK_FIRST"%string ->
  RecordNetworkRealizationReadBackStarted now c (logged events c d1) = Ok (logged ("READ_BACK_STARTED" :: events)%string c d1).
Proof.
  intros Hnow Hm. unfold RecordNetworkRealizationReadBackStarted. rewrite claimed_lock, claimed_attempt by done. cbn. by rewrite Hm.
Qed.

Lemma authorize_runs now events : now < t0 + microseconds lease ->
  (claim_mode s = "READ_BACK_FIRST"%string -> "READ_BACK_STARTED"%string ∈ events) ->
  AuthorizeNetworkRealizationApply now c (logged events c d1) = Ok (logged ("APPLY_AUTHORIZED" :: events)%string c d1).
Proof.
  intros Hnow Hm. unfold AuthorizeNetworkRealizationApply. rewrite claimed_lock, claimed_attempt by done. cbn.
  rewrite fail_if_pass; [done|]. destruct (claim_mode s ==s "READ_BACK_FIRST") eqn:E; [|done]. apply String.eqb_eq in E.
  cbn. apply negb_false_iff, bool_decide_eq_true. apply logged_event. by apply Hm.
Qed.
End Claimed.

(** ** An observation that ends an operation *)

Lemma terminal_fresh d c s : sound d -> operation_states d !! nc_OperationID c = Some s -> nc_OperationGeneration c = 1 ->
  os_terminal s = None -> realization_terminals d !! terminal_id c = None.
Proof.
  intros S Hs Hg Ht. destruct (realization_terminals d !! _) as [r|] eqn:Hr; [|done]. exfalso.
  destruct (snd_terminated _ S _ _ Hr) as [Hid Hlast _]. rewrite terminal_id_of in Hid by done.
  unfold terminal_of in Hid. apply (f_equal list_ascii_of_string) in Hid. rewrite !chars_app in Hid.
  apply app_inv_head, app_inv_tail in Hid. apply (f_equal string_of_list_ascii) in Hid.
  rewrite !string_of_list_ascii_of_string in Hid. rewrite <- Hid in Hlast. specialize (Hlast _ Hs). congruence.
Qed.

Lemma release_fresh d n w : sound d -> networks d !! n = Some w -> nw_lifecycle w <> "DELETED"%string ->
  releases d !! ("network-release:" ++ allocation_of n)%string = None
  /\ any_row (fun _ r => (rl_allocation r ==s allocation_of n) && (rl_generation r =? 1)) (releases d) = false.
Proof.
  intros S Hw Hl. assert (forall id r, releases d !! id = Some r -> rl_allocation r <> allocation_of n) as Hno.
  { intros id r Hr E. destruct (snd_released _ S _ _ Hr) as [_ E' (w' & Hw' & _ & Hd) _ _].
    rewrite E in E'. apply allocation_of_inj in E'. rewrite <- E' in Hw'. congruence. }
  split.
  - destruct (releases d !! _) as [r|] eqn:Hr; [|done]. exfalso. destruct (snd_released _ S _ _ Hr) as [Hid _ _ _ _].
    apply (inj (String.append "network-release:")) in Hid. by apply (Hno _ _ Hr).
  - apply any_row_false. intros id r Hr. by rewrite (proj2 (String.eqb_neq _ _) (Hno _ _ Hr)).
Qed.

Lemma conclude_runs now c o state d s w z : sound d -> at_work d (nc_OperationID c) s w z -> os_phase s = "CLAIMED"%string ->
  nc_OperationGeneration c = 1 -> exists d', conclude now c o (os_kind s) state s d = Ok d'.
Proof.
  intros S W Hc Hg. pose proof (atw_operated W) as Hop. pose proof (phase_done _ (opd_phased Hop)) as Ht.
  rewrite Hc in Ht. specialize (Ht ltac:(done)). pose proof (terminal_fresh d c s S (atw_state W) Hg Ht) as Hfresh.
  unfold conclude, leave_claim. cbv zeta. rewrite Hfresh, bool_decide_eq_false_2 by (by intros [? ?]). cbn [fail_if mbind res_bind].
  match goal with |- context [if _ ==s "RETIRE" then release_segment s _ ?x else _] => set (d2 := x) end.
  assert (allocations d2 = allocations d /\ releases d2 = releases d) as [Ea Er].
  { subst d2. destruct (realizations _ !! _); [destruct (_ && _)|]; done. }
  destruct (os_kind s ==s "RETIRE") eqn:Ek; [|by eexists]. apply String.eqb_eq in Ek.
  pose proof (atw_lived W) as Hl. inversion Hl as [a _ E|a Hlife _ _ Hst _ Hal|]; try congruence.
  destruct (snd_allocation _ S _ _ (eq_sym Hal)) as (_ & Hid & Hgen & _).
  destruct (atw_network W) as [Hw _]. destruct (release_fresh d (os_network s) w S Hw) as [F1 F2]; [congruence|].
  unfold release_segment. cbv zeta. rewrite Ea, <- Hal. cbn [row mbind res_bind].
  rewrite (opd_allocation Hop), (proj2 (opd_allocated Hop)), Hid, Hgen, Hst, Er, F1, F2, !String.eqb_refl. cbn. by eexists.
Qed.

Lemma accept_runs jsonb_text now c o d s e a canonical plan :
  let state := State (ro_Observation o) (np_DesiredState plan) in
  sound d -> lockNetworkRealizationClaim now c d = Ok s ->
  realization_operations d !! (nc_OperationID c, os_generation s) = Some e ->
  RestoreStoredNetworkPlan (jsonb_text (ro_plan e)) (ro_digest e) = Ok (canonical, plan) ->
  realization_attempts d !! attempt_key c = Some a ->
  (ra_mode a = "READ_BACK_FIRST"%string -> attempt_event c "READ_BACK_STARTED" ∈ attempt_event_log d) ->
  ((ro_ApplyResponseState o = "RECEIVED"%string \/ ro_ApplyResponseState o = "LOST"%string) /\ attempt_event c "APPLY_AUTHORIZED" ∈ attempt_event_log d
   \/ ro_ApplyResponseState o = "UNKNOWN"%string) ->
  ro_ObservationID o <> ""%string -> ro_OperationID o = nc_OperationID c -> ro_OperationGeneration o = nc_OperationGeneration c ->
  0 < ro_ObservationGeneration o <= MaxInt64 -> hex64 (ro_ObservationDigest o) = true -> hex64 (ro_AdapterArtifactDigest o) = true ->
  ro_LogicalSwitchName o = np_LogicalSwitchName plan ->
  (forall id b, realization_observations d !! id = Some b -> id <> ro_ObservationID o
     /\ ~ (rb_operation b = nc_OperationID c /\ rb_generation b = nc_OperationGeneration c /\ rb_observation b = ro_ObservationGeneration o)) ->
  exists d', AcceptNetworkRealizationObservation jsonb_text now c o d
    = Ok (d', if concludes (os_kind s) state then state else ""%string).
Proof.
  intros state S Hlock He Hrestore Ha Hrb Hresp Hid Hop Hgen Hob Hd1 Hd2 Hname Hfresh.
  destruct (lock_inv _ _ _ _ S Hlock) as (Hs & Hphase & Hg & _).
  destruct (sound_at_work _ _ _ S Hs) as (w & z & W). pose proof (proj2 (opd_generations (atw_operated W))) as Hg1.
  assert (realization_observations d !! ro_ObservationID o = None) as Hnew.
  { destruct (_ !! ro_ObservationID o) as [b|] eqn:Hb; [|done]. by destruct (Hfresh _ _ Hb). }
  pose proof (observed_sound c o s d S Hs Hg Hnew) as S1.
  destruct (sound_at_work _ (nc_OperationID c) _ S1 Hs) as (w1 & z1 & W1).
  destruct (conclude_runs now c o state (observed c o s d) s w1 z1 S1 W1 Hphase) as [d' Hd']; [congruence|].
  unfold observed, observation_row_of in Hd'. unfold AcceptNetworkRealizationObservation.
  rewrite fail_if_pass.
  2: { rewrite Hop, Hgen, (hex64_length _ Hd1), (hex64_length _ Hd2), (proj2 (String.eqb_neq _ _) Hid), !String.eqb_refl, !Z.eqb_refl.
       rewrite (proj2 (Z.eqb_neq (ro_ObservationGeneration o) 0)) by lia. by destruct Hresp as [[[-> | ->] _]| ->]. }
  rewrite Hlock. cbn [mbind res_bind]. rewrite He. cbn [row mbind res_bind]. rewrite Hrestore. cbn [mbind res_bind].
  rewrite Hname, String.eqb_refl. cbn [negb fail_if mbind res_bind]. rewrite Ha. cbn [row mbind res_bind].
  unfold event_recorded. rewrite fail_if_pass.
  2: { apply orb_false_intro.
       - destruct (ra_mode a ==s "READ_BACK_FIRST") eqn:E; [|done]. apply String.eqb_eq in E. cbn.
         apply negb_false_iff, bool_decide_eq_true. by apply Hrb.
       - destruct Hresp as [[_ Hin]| ->]; [|done]. apply andb_false_iff. right. by apply negb_false_iff, bool_decide_eq_true. }
  unfold insert_observation, bigint. rewrite (proj2 (Z.ltb_ge MaxInt64 _)) by lia. cbn [fail_if mbind res_bind].
  rewrite Hd1, Hd2. cbn [negb orb fail_if mbind res_bind].
  rewrite Hnew, bool_decide_eq_false_2 by (by intros [? ?]). cbn [orb]. rewrite any_row_false.
  2: { intros id b Hb. apply Hfresh in Hb as [_ Hb]. apply not_true_is_false. intros E. by apply Hb; bools. }
  cbn [fail_if mbind res_bind]. fold state. fold (concludes (os_kind s) state). rewrite Hd'.
  destruct (concludes _ _); by eexists.
Qed.

(** What an observation that ends an operation leaves *)
Record settled (d d' : netdb) (o : string) (s : operation_state_row) : Prop := MkSettled {
  stl_state : exists s', operation_states d' !! o = Some s' /\ os_phase s' = "SUCCEEDED"%string;
  stl_realized : os_kind s = "REALIZE"%string -> networks d' = networks d /\ allocations d' = allocations d
    /\ exists z, realizations d' !! os_network s = Some z /\ rz_state z = "VERIFIED"%string;
  stl_retired : os_kind s = "RETIRE"%string -> allocations d' !! os_network s = None
    /\ exists w, networks d' !! os_network s = Some w /\ nw_lifecycle w = "DELETED"%string;
}.

Lemma accept_settled jsonb_text now c o d d' answer s : sound d -> operation_states d !! nc_OperationID c = Some s ->
  AcceptNetworkRealizationObservation jsonb_text now c o d = Ok (d', answer) -> answer <> ""%string ->
  settled d d' (nc_OperationID c) s.
Proof.
  intros S Hs H Hanswer. destruct (accept_inv _ _ _ _ _ _ _ S H) as (s0 & e & canonical & plan & Hs0 & Hc & Hg & _ & _ & _ & Hfresh & Hcase).
  assert (s0 = s) as -> by congruence. destruct Hcase as [(Hcon & Hd & ->)|(_ & E & _)]; [|congruence].
  pose proof (observed_sound c o s d S Hs Hg Hfresh) as S1.
  destruct (sound_at_work _ (nc_OperationID c) _ S1 Hs) as (w & z & W).
  assert (os_kind s = "RETIRE"%string -> nw_lifecycle w = "RETIRE_PENDING"%string) as Hl.
  { intros Hk. destruct (atw_lived W); congruence. }
  destruct (conclude_inv _ _ _ _ _ _ _ _ _ _ W Hl Hd) as [_ [[Hk ->]|(Hk & a & Ha & Hid & _ & ->)]]; constructor; try congruence.
  - eexists. cbn. rewrite lookup_insert_eq. by split.
  - intros Hr. cbn. split_and!; [done|done|]. eexists. rewrite lookup_insert_eq. split; [done|]. cbn.
    apply concludes_spec in Hcon as [(_ & -> & _)|(E & _)]; [done|congruence].
  - eexists. cbn. rewrite lookup_insert_eq. by split.
  - intros _. cbn. rewrite lookup_delete_eq, lookup_insert_eq. split; [done|]. by eexists.
Qed.
