(* ===== verification/NetworkDemo.v ===== *)
(** * Tables to run the Network authority on

    One project, one pool and one Network, declared and then retired: the
    states the witnesses of the theorems about the authority and its worker
    start from.  The digests are left as they are. *)

From S2P Require Import Prelude GoStd GoJson GoTime JsonOrder ControlDb ControlFrames Northbound RecordDir.
From S2P Require Import OvnPlan OvnRuntime OvnDemo NetworkResource NetworkRuns NetworkProgress.
Local Open Scope Z_scope.
Local Open Scope go_scope.

(** ** The tables *)

Definition demo_net_request : NetworkResourceRequest :=
  MkNetworkRequest "net" "project" "n" "STANDARD_OVERLAY" "AUTO" 1500 0 false.
Definition demo_net_digest : string := networkDesiredDigest demo_net_request 1 "ACTIVE".
Definition demo_net_state : operation_state_row :=
  MkOperationState 1 "net" 1 "network-allocation:net:1" 1 1 "REALIZE" "PENDING" 0 None None None None None 0.
Definition demo_net_evidence : realization_operation_row :=
  MkRealizationOperation "REALIZE" "net" 1 "network-allocation:net:1" 1 1 NetworkIntentSchema demo_net_plan (sha256_hex demo_net_plan).
Definition demo_net_row : network_row :=
  MkNetwork "project" 1 "ACTIVE" 1500 1 "n" "STANDARD_OVERLAY" "AUTO" false demo_net_digest "NETWORK_RESOURCE".

Definition demo_net_tables : netdb :=
  MkNetDb "ACTIVE" {["project" := "ACTIVE"]}%string {["standard-overlay"%string := MkPool 10000 16777215 1 "ACTIVE"]}
    ∅ ∅ ∅ ∅ ∅ ∅ ∅ ∅ ∅ ∅ ∅ ∅ ∅ ∅ ∅.
Definition demo_net_created : netdb :=
  MkNetDb "ACTIVE" {["project" := "ACTIVE"]}%string {["standard-overlay"%string := MkPool 10000 16777215 1 "ACTIVE"]}
    {["net"%string := demo_net_row]}
    {[("net"%string, 1) := revision_row_of demo_net_request false "ACTIVE" None demo_net_digest]}
    {["network-allocation:net:1"%string := MkSegmentDecision "net" 1 "standard-overlay" 1 "VNI" 10000 1
        (digestNetworkResource "net/standard-overlay/1/VNI/10000/1")]}
    {["net"%string := MkAllocation "network-allocation:net:1" 1 "standard-overlay" "VNI" 10000 1 "ALLOCATED"]}
    ∅
    {["network-segment:net"%string := MkSegmentClaim "net" "VNI" "standard-overlay" 10000 "ACTIVE"
        (Some "network-allocation:net:1"%string) (Some 1)]}
    {[(demo_net_operation, 1) := demo_net_evidence]}
    {[demo_net_operation := demo_net_state]}
    ∅ ∅ ∅ ∅
    {["net"%string := MkRealization 1 1 1 demo_net_operation 1 "PENDING" None]} ∅ ∅.

#[local] Opaque sha256_hex sha256_hex8 marshal.
Lemma demo_net_create : CreateNetworkResource 0 demo_net_request demo_net_tables = Ok demo_net_created.
Proof.
  assert (forall x, hex64 (sha256_hex x) = true) as Hh by apply hex64_sha256.
  unfold CreateNetworkResource. cbv zeta. rewrite fail_if_pass by reflexivity.
  change (requireActiveDatabaseAuthority demo_net_tables) with (Ok tt). cbn [mbind res_bind].
  change (networks demo_net_tables !! rq_NetworkID demo_net_request) with (@None network_row). cbv iota.
  rewrite fail_if_pass by reflexivity. change (pool_of (rq_Profile demo_net_request)) with ("standard-overlay", "VNI")%string. cbv iota beta.
  change (row (pools demo_net_tables !! "standard-overlay"%string) ErrPlacementConflict) with (Ok (MkPool 10000 16777215 1 "ACTIVE")).
  cbn [mbind res_bind]. rewrite fail_if_pass by reflexivity.
  change (choose_segment demo_net_request "standard-overlay" (MkPool 10000 16777215 1 "ACTIVE") demo_net_tables) with (Ok 10000).
  cbn [mbind res_bind]. unfold declare_network, insert_revision. cbv zeta.
  rewrite fail_if_pass by (unfold revision_row_ok, revision_row_of, networkDesiredDigest; cbn -[hex64]; by rewrite Hh).
  cbn [mbind res_bind]. rewrite fail_if_pass by reflexivity. cbn [mbind res_bind]. rewrite fail_if_pass by reflexivity.
  unfold insert_decision.  cbn [sd_digest]. unfold digestNetworkResource at 1. rewrite Hh. cbn [negb].
  rewrite !fail_if_pass by reflexivity. cbn [mbind res_bind]. reflexivity.
Qed.

(** Its retirement *)
Definition demo_retire_digest : string := networkDesiredDigest demo_net_request 2 "RETIRE_PENDING".
Definition demo_retire_state : operation_state_row :=
  MkOperationState 1 "net" 2 "network-allocation:net:1" 1 2 "RETIRE" "PENDING" 0 None None None None None 1.
Definition demo_retire_evidence : realization_operation_row :=
  MkRealizationOperation "RETIRE" "net" 2 "network-allocation:net:1" 1 2 NetworkIntentSchema demo_retire_plan
    (sha256_hex demo_retire_plan).
Definition demo_retired_row : network_row :=
  MkNetwork "project" 2 "RETIRE_PENDING" 1500 2 "n" "STANDARD_OVERLAY" "AUTO" false demo_retire_digest "NETWORK_RESOURCE".
Definition demo_net_retired : netdb :=
  demo_net_created
    <| network_revisions ::= <[("net"%string, 2) :=
         revision_row_of demo_net_request false "RETIRE_PENDING" (Some 1) demo_retire_digest]> |>
    <| networks ::= <["net"%string := demo_retired_row]> |>
    <| allocations ::= <["net"%string := MkAllocation "network-allocation:net:1" 2 "standard-overlay" "VNI" 10000 1 "RELEASE_PENDING"]> |>
    <| realization_operations ::= <[(demo_net_retirement, 1) := demo_retire_evidence]> |>
    <| operation_states ::= fun m => <[demo_net_retirement := demo_retire_state]>
                                       (filter (fun kv => os_network (snd kv) <> "net"%string) m) |>
    <| realizations ::= <["net"%string := MkRealization 2 1 2 demo_net_retirement 1 "PENDING" None]> |>.

Lemma demo_net_retire : RequestNetworkRetirement 1 "net" 1 demo_net_created = Ok demo_net_retired.
Proof.
  assert (forall x, hex64 (sha256_hex x) = true) as Hh by apply hex64_sha256.
  unfold RequestNetworkRetirement. change (requireActiveDatabaseAuthority demo_net_created) with (Ok tt). cbn [mbind res_bind].
  change (current_network "net" demo_net_created) with
    (Ok (demo_net_row, MkAllocation "network-allocation:net:1" 1 "standard-overlay" "VNI" 10000 1 "ALLOCATED",
         MkRealization 1 1 1 demo_net_operation 1 "PENDING" None)).
  cbn [mbind res_bind]. rewrite !fail_if_pass by reflexivity. cbv zeta. change (desired_of _ _ _ _ _ _) with demo_net_request.
  change (next_bigint (nw_revision demo_net_row)) with (Ok 2). cbn [mbind res_bind]. unfold insert_revision.
  rewrite fail_if_pass by (unfold revision_row_ok, revision_row_of, networkDesiredDigest; cbn -[hex64]; by rewrite Hh).
  cbn [mbind res_bind]. rewrite fail_if_pass by reflexivity. cbn [mbind res_bind].
  unfold insertNetworkRealizationOperationTx. cbv zeta.
  change (PlanNetwork _) with (Ok (demo_retire_plan, sha256_hex demo_retire_plan)).
  change (rz_generation _ + 1) with 2. change (operation_id _ _) with demo_net_retirement. change (bigint 2) with (Ok 2).
  cbn [mbind res_bind]. rewrite fail_if_pass by reflexivity. cbn [mbind res_bind]. unfold put_operation.
  rewrite fail_if_pass by reflexivity. cbn [mbind res_bind]. reflexivity.
Qed.

(** ** Runs *)

Lemma demo_net_bare : bare demo_net_tables.
Proof. by constructor. Qed.

Lemma demo_net_created_reachable jsonb_text : reachable jsonb_text demo_net_created.
Proof.
  exists demo_net_tables. split; [exact demo_net_bare|]. eapply (runs_effect _ 0 (Create demo_net_request)); [apply runs_refl|].
  exact demo_net_create.
Qed.
Lemma demo_retired_reachable jsonb_text : reachable jsonb_text demo_net_retired.
Proof.
  destruct (demo_net_created_reachable jsonb_text) as (d0 & B & H). exists d0. split; [exact B|].
  eapply (runs_effect _ 1 (Retire "net" 1)); [exact H|]. exact demo_net_retire.
Qed.

Lemma demo_created_ready owner lease : owner <> ""%string -> 0 < lease <= MaxOVNRuntimeClaimLifetime ->
  ready demo_net_created 2 owner lease demo_net_operation demo_net_state demo_net_evidence.
Proof.
  intros Ho Hl. constructor; try done.
  - exact (reachable_sound id _ (demo_net_created_reachable id)).
  - exists []. unfold candidates. cbn [operation_states demo_net_created]. rewrite map_to_list_singleton. reflexivity.
Qed.
Lemma demo_retired_ready owner lease : owner <> ""%string -> 0 < lease <= MaxOVNRuntimeClaimLifetime ->
  ready demo_net_retired 2 owner lease demo_net_retirement demo_retire_state demo_retire_evidence.
Proof.
  intros Ho Hl. split.
  - exact (reachable_sound id _ (demo_retired_reachable id)).
  - reflexivity.
  - by split.
  - exists []. unfold candidates. change (operation_states demo_net_retired) with
      (<[demo_net_retirement := demo_retire_state]>
         (filter (fun kv => os_network (snd kv) <> "net"%string) ({[demo_net_operation := demo_net_state]} : gmap string _))).
    rewrite map_filter_singleton_False by (intros H; by apply H). rewrite insert_empty, map_to_list_singleton. reflexivity.
  - apply lookup_insert_eq.
  - reflexivity.
Qed.

(** The evidence is of the plans of these intents. *)
Lemma demo_net_evident : PlanNetwork demo_net_intent = Ok (ro_plan demo_net_evidence, ro_digest demo_net_evidence).
Proof. exact demo_net_planned. Qed.
Lemma demo_retire_evident : PlanNetwork demo_retire_intent = Ok (ro_plan demo_retire_evidence, ro_digest demo_retire_evidence).
Proof. exact demo_retire_planned. Qed.
