(* ===== verification/NetworkProofs.v ===== *)
(** * What the Network authority promises

    Theorems about every reachable state of [NetworkResource]: its tables are
    within the constraints of [NetworkSchema], a segment comes back only when the switch was seen gone, work
    that may have reached OVN is read back before it is applied again, and
    what a conflict strands.  The segment an automatic request gets is the
    lowest free one. *)

From S2P Require Import Prelude GoStd GoJson GoTime JsonOrder ControlDb ControlFrames Northbound RecordDir.
From S2P Require Import OvnPlan OvnRuntime OvnDemo NetworkResource NetworkRuns NetworkSchema NetworkProgress NetworkDemo.
Local Open Scope Z_scope.
Local Open Scope go_scope.

(** ** The constraints the schema declares *)


(** ** Segments *)

(** C19: In every reachable state a Network that is not DELETED holds one segment
    of its pool, no other Network holds that segment, and it is DELETED, its
    segment free, only after an observation presented for its retirement said
    that the switch is not there. *)
Theorem segment_is_held_until_seen_gone jsonb_text d n w : reachable jsonb_text d ->
  networks d !! n = Some w -> nw_source w = "NETWORK_RESOURCE"%string ->
  (nw_lifecycle w <> "DELETED"%string -> exists a, allocations d !! n = Some a
     /\ al_state a = (if nw_lifecycle w ==s "ACTIVE" then "ALLOCATED" else "RELEASE_PENDING")%string
     /\ (forall n' a', allocations d !! n' = Some a' -> al_pool a' = al_pool a -> al_segment a' = al_segment a -> n' = n)
     /\ forall id r, releases d !! id = Some r -> rl_network r <> n)
  /\ (nw_lifecycle w = "DELETED"%string -> allocations d !! n = None
      /\ exists id r t terminal e b, releases d !! id = Some r /\ rl_network r = n
         /\ rl_terminal r = t /\ realization_terminals d !! t = Some terminal
         /\ realization_operations d !! (rt_operation terminal, rt_generation terminal) = Some e
         /\ ro_kind e = "RETIRE"%string /\ ro_network e = n
         /\ realization_observations d !! rt_observation terminal = Some b /\ rb_operation b = rt_operation terminal
         /\ rb_present b = false).
Proof.
  intros S%reachable_sound Hw Hr. destruct (snd_standing _ S _ _ Hw Hr) as [_ _ (z & s & Hz & Hs & Ho & Hl)]. split.
  - intros Hlive. destruct (allocations d !! n) as [a|] eqn:Ha; [|inversion Hl; congruence]. exists a. split_and!.
    + done.
    + inversion Hl as [a' E _ E1 _|a' E _ _ E1 _|]; subst; by rewrite E, E1.
    + intros n' a' Ha' Ep Es. by eapply (snd_exclusive _ S).
    + intros id r Hrel En. destruct (snd_released _ S _ _ Hrel) as [_ _ (w' & Hw' & _ & Hd) _ _]. rewrite En in Hw'. congruence.
  - intros Hd. split; [inversion Hl; congruence|].
    destruct (snd_gone _ S _ _ Hw Hr Hd) as (id & r & Hrel & En).
    destruct (snd_released _ S _ _ Hrel) as [_ _ _ _ (t & Ht & Etn & Ets)].
    destruct (snd_terminated _ S _ _ Ht) as [_ _ (e & b & He & Hb & (E1 & _ & _ & [(E & _)|(_ & Ek & Ep)]) & Ee)]; [congruence|].
    exists id, r, (rl_terminal r), t, e, b. split_and!; try done; congruence.
Qed.

(** ** Applying again *)

(** Along any run, whatever the workers do, an attempt that was authorised to
    apply a plan either was the first of its operation or had recorded before
    that it reads back, and it was made for the owner the row names; no two
    attempts of an operation hold it at once. *)
Theorem apply_follows_read_back jsonb_text d o g claim : reachable jsonb_text d ->
  ((o, g, claim), "APPLY_AUTHORIZED"%string) ∈ attempt_event_log d ->
  (claim = 1 \/ ((o, g, claim), "READ_BACK_STARTED"%string) ∈ attempt_event_log d)
  /\ forall now c d', AuthorizeNetworkRealizationApply now c d = Ok d' -> nc_OperationID c = o -> claim <= nc_ClaimGeneration c
       /\ (claim < nc_ClaimGeneration c -> ((o, nc_OperationGeneration c, nc_ClaimGeneration c), "READ_BACK_STARTED"%string) ∈ attempt_event_log d).
Proof.
  intros S%reachable_sound Hin. destruct (snd_event _ S _ _ Hin) as (a & Ha & [[E _]|[_ Hrb]]); [discriminate E|].
  destruct (snd_attempted _ S _ _ _ _ Ha) as [_ Hmode Hlast]. split.
  - destruct Hmode as [[_ ->]|[Hm _]]; [by left|right; auto].
  - intros now c d' H Ho. unfold AuthorizeNetworkRealizationApply, event_recorded in H. open_tx.
    match goal with H : lockNetworkRealizationClaim _ _ _ = _ |- _ => apply (lock_inv _ _ _ _ S) in H as (Hs & _ & Hg & Hc & _) end.
    rewrite Hc. specialize (Hlast _ Hs). split; [done|]. intros Hlt. rewrite <- Hc.
    match goal with H : realization_attempts _ !! attempt_key c = _ |- _ => destruct (snd_attempted _ S _ _ _ _ H) as [_ Hm _] end.
    destruct Hm as [[_ E]|[Em _]].
    + exfalso. destruct Hmode as [[_ E1]|[_ E1]]; lia.
    + match goal with H : _ && _ = false |- _ => rewrite Em in H; cbn in H end. by bools.
Qed.

(** ** The lowest free segment *)

(** Allocations of a pool by the segment they hold, as far as a bound *)
Lemma held_below pool d lo k : (forall i, lo <= i < lo + Z.of_nat k -> segment_held pool i d = true) ->
  (k <= size (allocations d))%nat.
Proof.
  intros Hheld.
  assert (forall i, lo <= i < lo + Z.of_nat k -> exists n a, allocations d !! n = Some a /\ al_segment a = i) as Hex.
  { intros i Hi. specialize (Hheld i Hi). unfold segment_held, any_row in Hheld.
    apply List.existsb_exists in Hheld as ([n a] & Hin & Hh). apply list_elem_of_In, elem_of_map_to_list in Hin.
    unfold holds_segment in Hh. cbn in Hh. apply andb_prop in Hh as [[_ Hseg%Z.eqb_eq]%andb_prop _]. by exists n, a. }
  assert (seqZ lo (Z.of_nat k) ⊆ al_segment <$> (map_to_list (allocations d)).*2) as Hsub.
  { intros i [Hlo Hhi]%elem_of_seqZ. destruct (Hex i) as (n & a & Ha & <-); [lia|].
    apply list_elem_of_fmap. exists a. split; [done|]. apply list_elem_of_fmap. exists (n, a). split; [done|].
    by apply elem_of_map_to_list. }
  apply NoDup_submseteq in Hsub; [|apply NoDup_seqZ].
  apply submseteq_length in Hsub. rewrite length_seqZ, !length_fmap, length_map_to_list in Hsub. lia.
Qed.

Lemma free_segment_spec pool maximum d steps : forall candidate,
  match free_segment steps pool candidate maximum d with
  | Some z => candidate <= z <= maximum /\ segment_held pool z d = false
      /\ forall i, candidate <= i < z -> segment_held pool i d = true
  | None => (forall i, candidate <= i <= maximum -> segment_held pool i d = true)
      \/ (forall i, candidate <= i < candidate + Z.of_nat steps -> segment_held pool i d = true)
  end.
Proof.
  induction steps as [|steps IH]; intros candidate; cbn [free_segment]; [right; intros; lia|].
  destruct (Z.ltb_spec maximum candidate); [left; intros; lia|].
  destruct (segment_held pool candidate d) eqn:Eh; [|split; [lia|]; split; [done|intros; lia]].
  specialize (IH (candidate + 1)). destruct (free_segment _ _ _ _ _) as [z|].
  - destruct IH as (H1 & H2 & H3). split; [lia|]. split; [done|]. intros i Hi.
    destruct (decide (i = candidate)) as [->|]; [done|apply H3; lia].
  - destruct IH as [IH|IH]; [left|right]; intros i Hi; (destruct (decide (i = candidate)) as [->|]; [done|apply IH; lia]).
Qed.

(** A Network has the segment, and gives it back only when it is RELEASED. *)
Definition held (pool : string) (segment : Z) (d : netdb) : Prop := exists n a, allocations d !! n = Some a
  /\ al_pool a = pool /\ al_segment a = segment /\ (al_state a = "ALLOCATED"%string \/ al_state a = "RELEASE_PENDING"%string).

Lemma segment_held_iff pool segment d : segment_held pool segment d = true <-> held pool segment d.
Proof.
  unfold segment_held, any_row, held. rewrite List.existsb_exists. split.
  - intros ([n a] & Hin & H). apply list_elem_of_In, elem_of_map_to_list in Hin. unfold holds_segment in H. cbn in H.
    apply andb_prop in H as [[Hp%String.eqb_eq Hs%Z.eqb_eq]%andb_prop Ht%orb_prop]. exists n, a. split_and!; try done.
    destruct Ht as [E|E]; apply String.eqb_eq in E; auto.
  - intros (n & a & Ha & <- & <- & Ht). exists (n, a). split; [by apply list_elem_of_In, elem_of_map_to_list|].
    unfold holds_segment. cbn. rewrite String.eqb_refl, Z.eqb_refl. by destruct Ht as [-> | ->].
Qed.
Lemma segment_free_iff pool segment d : segment_held pool segment d = false <-> ~ held pool segment d.
Proof. rewrite <- segment_held_iff. by destruct (segment_held _ _ _). Qed.

(** The segment of a new Network *)
Lemma created_allocation now r d d' poolID type pool : CreateNetworkResource now r d = Ok d' ->
  networks d !! rq_NetworkID r = None -> pool_of (rq_Profile r) = (poolID, type) -> pools d !! poolID = Some pool ->
  exists z a, choose_segment r poolID pool d = Ok z /\ allocations d' !! rq_NetworkID r = Some a
    /\ al_pool a = poolID /\ al_segment a = z /\ al_state a = "ALLOCATED"%string.
Proof.
  intros H Hn Hpool Hrow. unfold CreateNetworkResource in H. cbv zeta in H. rewrite Hn, Hpool in H.
  do 3 (apply bind_Ok_inv in H as (? & _ & H)). rewrite Hrow in H. cbn [row mbind res_bind] in H.
  apply bind_Ok_inv in H as ([] & _ & H). apply bind_Ok_inv in H as (z & Hz & H). exists z.
  unfold declare_network, insert_allocation, insertNetworkRealizationOperationTx, put_operation, insert_segment_claim in H. open_tx.
  eexists. split; [done|]. split; [cbn; apply lookup_insert_eq|done].
Qed.

(** C30: A request without a segment gets the lowest one of its pool that no
    allocation holds, ALLOCATED or RELEASE_PENDING, and is refused exactly when
    every segment of the pool is held; a request that names a segment gets that
    one, and is refused exactly when the pool does not have it or it is held.
    The Network that is created holds that segment. *)
Theorem a_request_gets_its_segment r poolID type pool d :
  pool_of (rq_Profile r) = (poolID, type) -> pools d !! poolID = Some pool ->
  match choose_segment r poolID pool d with
  | Ok z => pl_minimum pool <= z <= pl_maximum pool /\ ~ held poolID z d
      /\ if rq_SegmentPolicy r ==s "AUTO" then forall i, pl_minimum pool <= i < z -> held poolID i d
         else z = rq_RequestedSegmentID r
  | Err e => e = ErrPlacementConflict
      /\ if rq_SegmentPolicy r ==s "AUTO" then forall i, pl_minimum pool <= i <= pl_maximum pool -> held poolID i d
         else ~ (pl_minimum pool <= rq_RequestedSegmentID r <= pl_maximum pool) \/ held poolID (rq_RequestedSegmentID r) d
  end
  /\ forall now d', CreateNetworkResource now r d = Ok d' -> networks d !! rq_NetworkID r = None ->
       exists z a, choose_segment r poolID pool d = Ok z /\ allocations d' !! rq_NetworkID r = Some a
         /\ al_pool a = poolID /\ al_segment a = z /\ al_state a = "ALLOCATED"%string.
Proof.
  intros Hpool Hrow. split; [|intros now d' H Hn; by eapply created_allocation].
  unfold choose_segment. destruct (rq_SegmentPolicy r ==s "AUTO").
  - pose proof (free_segment_spec poolID (pl_maximum pool) d (S (size (allocations d))) (pl_minimum pool)) as Hf.
    unfold lowest_free. destruct (free_segment _ _ _ _ _) as [z|]; cbn [row mbind res_bind].
    + destruct Hf as (H1 & H2 & H3). rewrite H2. cbn -[segment_held]. split; [done|].
      split; [by apply segment_free_iff|]. intros i Hi. apply segment_held_iff, H3, Hi.
    + split; [done|]. destruct Hf as [Hf|Hf]; [intros i Hi; apply segment_held_iff, Hf, Hi|].
      apply held_below in Hf. lia.
  - destruct (Z.ltb_spec (rq_RequestedSegmentID r) (pl_minimum pool)), (Z.ltb_spec (pl_maximum pool) (rq_RequestedSegmentID r));
      cbn -[segment_held]; try (split; [done|left; lia]).
    destruct (segment_held _ _ _) eqn:Eh; cbn.
    + split; [done|]. right. by apply segment_held_iff.
    + split; [lia|]. split; [by apply segment_free_iff|done].
Qed.

(** ** A retirement that met a conflict *)

Record stranded (d : netdb) (o : string) (s : operation_state_row) (w : network_row) (a : allocation_row) : Prop := MkStranded {
  srd_sound : sound d;
  srd_network : networks d !! os_network s = Some w /\ resource_row w;
  srd_lifecycle : nw_lifecycle w = "RETIRE_PENDING"%string;
  srd_state : operation_states d !! o = Some s;
  srd_failed : os_phase s = "FAILED"%string;
  srd_allocation : allocations d !! os_network s = Some a;
}.

Lemma stranded_step d d' o s w a : stranded d o s w a -> stepped d d' -> stranded d' o s w a.
Proof.
  intros [S [Hw Hr] Hl Hs Hf Ha] H. pose proof (stepped_sound _ _ S H) as S'.
  destruct H as [->|n r w1 a1 s1 R|o1 s1 s1' w1 w1' z1 z1' M|c event a1 _ _ ->]; [by constructor| | |by constructor].
  - assert (os_network s <> n) as Hne.
    { intros E. rewrite E in Hw. destruct (rpl_before R _ Hw). congruence. }
    constructor; try done.
    + split; [|done]. by rewrite (rpl_networks R), lookup_insert_ne.
    + exact (replanned_state S R _ _ Hs Hne).
    + by rewrite (rpl_allocations R), lookup_insert_ne.
  - destruct (stf_realization _ _ _ (snd_stateful _ S _ _ Hs)) as (z & Hz & Ho).
    destruct (atw_realization (mvd_work M)) as [Hz1 Ho1]. pose proof (atw_state (mvd_work M)) as Hs1.
    assert (os_network s <> os_network s1) as Hne.
    { intros E. assert (o1 = o) as -> by congruence. assert (s1 = s) as -> by congruence. by destruct (mvd_open M). }
    assert (o1 <> o) as Hno by congruence. destruct (mvd_allocations M) as (al & Eal & _).
    constructor; try done.
    + split; [|done]. by rewrite (mvd_networks M), lookup_insert_ne.
    + by rewrite (mvd_states M), lookup_insert_ne.
    + by rewrite Eal, lookup_partial_alter_ne.
Qed.

Lemma stranded_others d d' o s w a : stranded d o s w a -> others d d' -> stranded d' o s w a.
Proof.
  intros [S [Hw Hr] Hl Hs Hf Ha] O. constructor; try done.
  - by eapply others_sound.
  - split; [|done]. by apply (oth_networks _ _ O).
  - by rewrite (oth_states _ _ O).
  - by rewrite (oth_allocations _ _ O).
Qed.

Lemma stranded_runs jsonb_text d d' o s w a : runs jsonb_text d d' -> stranded d o s w a -> stranded d' o s w a.
Proof.
  intros R. induction R as [|d d1 d2 _ IH O|now q d d1 d2 _ IH H]; intros T; [done| |].
  - exact (stranded_others _ _ _ _ _ _ (IH T) O).
  - specialize (IH T). eapply stranded_step; [exact IH|]. exact (effect_step _ _ _ _ _ (srd_sound _ _ _ _ _ IH) H).
Qed.

(** C20: An observation of a retirement that still sees the switch, with markers
    that are not those of the retirement, is taken and answers no error; from
    then on, whatever anybody does, the Network stays RETIRE_PENDING, keeps its
    segment, its operation stays FAILED and is never claimed again, and neither
    a new revision nor another retirement is accepted. *)
Theorem a_conflict_strands_the_retirement jsonb_text now c ob d d1 answer s w : reachable jsonb_text d ->
  AcceptNetworkRealizationObservation jsonb_text now c ob d = Ok (d1, answer) ->
  operation_states d !! nc_OperationID c = Some s -> os_kind s = "RETIRE"%string ->
  networks d !! os_network s = Some w ->
  LogicalSwitchPresent (ro_Observation ob) = true -> OwnershipMarkerMatches (ro_Observation ob) = false ->
  answer = ""%string /\ nw_lifecycle w = "RETIRE_PENDING"%string
  /\ forall d2, runs jsonb_text d1 d2 ->
       networks d2 !! os_network s = Some w /\ allocations d2 !! os_network s = allocations d !! os_network s
       /\ is_Some (allocations d2 !! os_network s)
       /\ (exists s2, operation_states d2 !! nc_OperationID c = Some s2 /\ os_phase s2 = "FAILED"%string)
       /\ (forall now operation owner lease d3 c3, ClaimNetworkRealization jsonb_text now operation owner lease d2 = Ok (d3, c3) ->
             nc_OperationID c3 <> nc_OperationID c)
       /\ (forall now patch, is_Ok (UpdateNetworkResource now (os_network s) patch d2) = false)
       /\ forall now expected, is_Ok (RequestNetworkRetirement now (os_network s) expected d2) = false.
Proof.
  intros S%reachable_sound H Hs Hk Hw Hpresent Hmarker.
  destruct (accept_inv _ _ _ _ _ _ _ S H) as (s0 & e & canonical & plan & Hs0 & Hc & Hg & He & _ & _ & Hfresh & Hcase).
  assert (s0 = s) as -> by congruence.
  assert (State (ro_Observation ob) (np_DesiredState plan) = "CONFLICTING"%string) as Est.
  { unfold State. rewrite Hpresent, Hmarker. by destruct (_ ==s "ABSENT"). }
  rewrite Est in Hcase. destruct Hcase as [(Hcon & _)|(_ & -> & ->)].
  { unfold concludes in Hcon. by rewrite Hk in Hcon. }
  pose proof (stepped_sound _ _ S (Accept_step _ _ _ _ _ _ _ S H)) as S1. cbn [String.eqb Ascii.eqb Bool.eqb] in S1 |- *.
  destruct (sound_at_work _ _ _ S Hs) as (w' & z & W). destruct (atw_network W) as [Hw' Hr].
  assert (w' = w) as -> by congruence.
  assert (nw_lifecycle w = "RETIRE_PENDING"%string /\ is_Some (allocations d !! os_network s)) as [Hl [a Ha]].
  { destruct (atw_lived W); try congruence. by split; [|eexists]. }
  split; [done|]. split; [done|]. intros d2 R.
  set (s2 := left_state now "FAILED" (ro_ApplyResponseState ob) (os_terminal s) s) in *.
  assert (stranded d2 (nc_OperationID c) s2 w a) as [S2 [Hw2 _] _ Hs2 Hf2 Ha2].
  { eapply stranded_runs; [exact R|]. constructor; [exact S1|by split|done|apply lookup_insert_eq|done|done]. }
  cbn in Hw2, Ha2. rewrite Ha, Ha2. split_and!; try done.
  - by exists s2.
  - intros now' operation owner lease d3 c3 (s3 & e3 & Hs3 & Hcl & _)%claim_inv E.
    rewrite E, Hs2 in Hs3. injection Hs3 as <-. unfold claimable in Hcl. by rewrite Hf2 in Hcl.
  - intros now' patch. destruct (UpdateNetworkResource _ _ _ _) as [d3|] eqn:E; [exfalso|done].
    unfold UpdateNetworkResource, current_network in E. open_tx. bools. congruence.
  - intros now' expected. destruct (RequestNetworkRetirement _ _ _ _) as [d3|] eqn:E; [exfalso|done].
    unfold RequestNetworkRetirement, current_network in E. open_tx. bools. congruence.
Qed.

(** ** The theorems on the demo tables *)


Lemma segment_is_held_until_seen_gone_witness : networks demo_net_created !! "net"%string = Some demo_net_row
  /\ exists a, allocations demo_net_created !! "net"%string = Some a /\ al_state a = "ALLOCATED"%string.
Proof.
  split; [apply lookup_singleton_eq|].
  destruct (segment_is_held_until_seen_gone id demo_net_created "net" demo_net_row (demo_net_created_reachable id)
    (lookup_singleton_eq _ _) eq_refl) as [H _].
  destruct H as (a & Ha & Hst & _); [discriminate|]. exists a. split; [exact Ha|exact Hst].
Defined.

(** A worker takes the realization and is authorised to apply it. *)
Definition demo_net_claim : NetworkRealizationClaim :=
  claim_of id 2 demo_net_operation "worker" 5000000 demo_net_state demo_net_evidence.
Definition demo_net_applying : netdb :=
  logged ["APPLY_AUTHORIZED"%string] demo_net_claim (claimed_tables 2 demo_net_operation "worker" 5000000 demo_net_state demo_net_created).
Lemma demo_applying_reachable : reachable id demo_net_applying.
Proof.
  destruct (demo_net_created_reachable id) as (d0 & B & H). exists d0. split; [exact B|].
  pose proof (demo_created_ready "worker" 5000000 ltac:(done) ltac:(done)) as R.
  eapply (runs_effect _ 3 (Authorize demo_net_claim)).
  - eapply (runs_effect _ 2 (Claim "" "worker" 5000000)); [exact H|]. cbn [effect].
    rewrite (claim_runs id _ _ _ _ _ _ _ R). reflexivity.
  - exact (authorize_runs id R 3 [] ltac:(done) ltac:(done)).
Qed.

Lemma apply_follows_read_back_witness :
  attempt_event demo_net_claim "APPLY_AUTHORIZED" ∈ attempt_event_log demo_net_applying
  /\ forall now c d', AuthorizeNetworkRealizationApply now c demo_net_applying = Ok d' ->
       nc_OperationID c = demo_net_operation -> 1 <= nc_ClaimGeneration c.
Proof.
  assert (attempt_event demo_net_claim "APPLY_AUTHORIZED" ∈ attempt_event_log demo_net_applying) as Hin
    by (apply logged_event; left).
  split; [exact Hin|]. intros now c d' H Ho.
  exact (proj1 (proj2 (apply_follows_read_back id demo_net_applying demo_net_operation 1 1 demo_applying_reachable Hin) now c d' H Ho)).
Defined.

Lemma a_request_gets_its_segment_witness : exists a, CreateNetworkResource 0 demo_net_request demo_net_tables = Ok demo_net_created
  /\ allocations demo_net_created !! "net"%string = Some a /\ al_segment a = 10000 /\ al_state a = "ALLOCATED"%string.
Proof.
  destruct (a_request_gets_its_segment demo_net_request "standard-overlay" "VNI" (MkPool 10000 16777215 1 "ACTIVE") demo_net_tables)
    as [_ H]; [reflexivity|reflexivity|].
  destruct (H 0 demo_net_created demo_net_create eq_refl) as (z & a & Hz & Ha & _ & Es & Et). exists a.
  split; [exact demo_net_create|]. split; [exact Ha|]. split; [|exact Et]. rewrite Es. vm_compute in Hz. injection Hz as <-. reflexivity.
Defined.

(** The retirement, whose deletion was lost *)
Definition demo_retire_claim : NetworkRealizationClaim :=
  claim_of id 2 demo_net_retirement "worker" 5000000 demo_retire_state demo_retire_evidence.
Definition demo_net_retiring : netdb :=
  logged ["APPLY_AUTHORIZED"%string] demo_retire_claim
    (claimed_tables 2 demo_net_retirement "worker" 5000000 demo_retire_state demo_net_retired).
Lemma demo_retiring_reachable : reachable id demo_net_retiring.
Proof.
  destruct (demo_retired_reachable id) as (d0 & B & H). exists d0. split; [exact B|].
  pose proof (demo_retired_ready "worker" 5000000 ltac:(done) ltac:(done)) as R.
  eapply (runs_effect _ 3 (Authorize demo_retire_claim)).
  - eapply (runs_effect _ 2 (Claim "" "worker" 5000000)); [exact H|]. cbn [effect].
    rewrite (claim_runs id _ _ _ _ _ _ _ R). reflexivity.
  - exact (authorize_runs id R 3 [] ltac:(done) ltac:(done)).
Qed.

Definition demo_conflict : NetworkRealizationObservation :=
  MkRealizationObservation "observation" demo_net_retirement (objectName "kim-ls" "net") "0c1d" (digestText "before")
    (digestText "adapter") 1 1 "LOST" (MkNetworkObservation true false false (objectName "kim-ls" "net") "0c1d").
Lemma demo_conflict_accepted : exists d,
  AcceptNetworkRealizationObservation id 4 demo_retire_claim demo_conflict demo_net_retiring = Ok (d, ""%string).
Proof.
  pose proof (demo_retired_ready "worker" 5000000 ltac:(done) ltac:(done)) as R.
  destruct (accept_runs id 4 demo_retire_claim demo_conflict demo_net_retiring
    (claimed_state 2 "worker" 5000000 demo_retire_state) demo_retire_evidence
    (MkRealizationAttempt "worker" "APPLY_ALLOWED" (2 + microseconds 5000000)) demo_retire_plan (network_plan demo_retire_intent))
    as [d Hd]; [..|by exists d].
  - exact (reachable_sound id _ demo_retiring_reachable).
  - exact (claimed_lock id R 4 ["APPLY_AUTHORIZED"%string] ltac:(done)).
  - apply lookup_insert_eq.
  - exact (restore_intent _ _ _ _ demo_retire_intended demo_retire_planned (stored_as_is _ _ _ demo_retire_intended demo_retire_planned)).
  - exact (claimed_attempt id ["APPLY_AUTHORIZED"%string]).
  - discriminate.
  - left. split; [by right|]. apply logged_event. by left.
  - discriminate.
  - reflexivity.
  - reflexivity.
  - done.
  - apply hex64_sha256.
  - apply hex64_sha256.
  - reflexivity.
  - change (realization_observations demo_net_retiring) with (∅ : gmap string realization_observation_row).
    by intros ob b ?%lookup_empty_Some.
Qed.

Lemma a_conflict_strands_the_retirement_witness : exists d,
  AcceptNetworkRealizationObservation id 4 demo_retire_claim demo_conflict demo_net_retiring = Ok (d, ""%string)
  /\ forall d2, runs id d d2 -> networks d2 !! "net"%string = Some demo_retired_row.
Proof.
  destruct demo_conflict_accepted as [d Hd]. exists d. split; [exact Hd|].
  destruct (a_conflict_strands_the_retirement id 4 demo_retire_claim demo_conflict demo_net_retiring d ""
    (claimed_state 2 "worker" 5000000 demo_retire_state) demo_retired_row demo_retiring_reachable Hd
    (lookup_insert_eq _ _ _) eq_refl (lookup_insert_eq _ _ _) eq_refl eq_refl) as (_ & _ & H).
  intros d2 Hr. exact (proj1 (H d2 Hr)).
Defined.
