(* ===== verification/NetworkWorker.v ===== *)
(** * network/ovnruntime/network_controller.go: one turn of the worker

    The worker claims an operation of the Network authority, authorises what it
    is about to do, has the adapter do it, and presents what was observed.  It
    runs over the tables and the northbound database; before each of its
    transactions anything else may have happened to the tables, and each may
    fail or lose its answer. *)

From S2P Require Import Prelude GoStd GoJson GoTime JsonOrder ControlDb ControlFrames Northbound RecordDir.
From S2P Require Import OvnPlan OvnRuntime OvnDemo NetworkResource NetworkRuns NetworkProgress NetworkDemo.
Local Open Scope Z_scope.
Local Open Scope go_scope.

(** What [runNetworkOnce] returns: nothing to do, an operation completed, an
    [itemLocalError], or another error *)
Inductive turn := Idle | Completed | ItemLocal (workID : string) (e : goerr) | Fatal (e : goerr).

(** A transaction of the worker: what others made of the tables before it, the
    time of the database, and how it ends *)
Record store_call := MkStoreCall { call_before : netdb -> netdb; call_now : Z; call_outcome : transaction }.
(** The transactions of a turn: the claim, the authorisation of what comes
    first, that of applying after reading back, and the last *)
Record turn_calls := MkTurnCalls { at_claim : store_call; at_start : store_call; at_again : store_call; at_end : store_call }.

(** What the worker uses of its configuration *)
Record Worker := MkWorker { Owner : string; ClaimLease : Z; wk_AdapterArtifactDigest : string }.

Section Worker.
Context (jsonb_text : bytes -> bytes) {nb : Type} (Run : string -> list string -> nb -> nb * res bytes).
Context (c : RuntimeConfig) (worker : Worker) (calls : turn_calls).

Definition world : Type := netdb * nb.
Definition on_store {A} (k : store_call) (f : Z -> netdb -> res (netdb * A)) : io world A := fun '(d, s) =>
  let d := call_before k d in
  let '(d, r) := transacted (call_outcome k) (f (call_now k) d) d in
  ((d, s), r).
Definition on_adapter {A} (m : io nb A) : io world A := fun '(d, s) => let '(s, r) := m s in ((d, s), r).

(** [PostgresNetworkWorkStore] *)
Definition silent (f : Z -> netdb -> res netdb) (now : Z) (d : netdb) : res (netdb * unit) := d ← f now d; Ok (d, tt).
Definition ClaimNetwork : io world NetworkRealizationClaim :=
  on_store (at_claim calls) (fun now => ClaimNetworkRealization jsonb_text now "" (Owner worker) (ClaimLease worker)).
Definition RecordNetworkReadBack (claim : NetworkRealizationClaim) : io world unit :=
  on_store (at_start calls) (silent (fun now => RecordNetworkRealizationReadBackStarted now claim)).
Definition AuthorizeNetworkApply (k : store_call) (claim : NetworkRealizationClaim) : io world unit :=
  on_store k (silent (fun now => AuthorizeNetworkRealizationApply now claim)).
Definition MarkNetworkUnknown (claim : NetworkRealizationClaim) : io world unit :=
  on_store (at_end calls) (silent (fun now => MarkNetworkRealizationDispatchUnknown now claim)).
Definition CompleteNetwork (claim : NetworkRealizationClaim) (o : NetworkRealizationObservation) : io world string :=
  on_store (at_end calls) (fun now => AcceptNetworkRealizationObservation jsonb_text now claim o).

(** What the adapter made of a claim; an error of the store ends the turn. *)
Definition reconcile_claim (claim : NetworkRealizationClaim) : io world (res RuntimeResult) :=
  attempt (on_adapter (ReconcileNetwork Run c (nc_CanonicalPlan claim) (nc_PlanDigest claim))).
Definition perform (claim : NetworkRealizationClaim) : io world (res RuntimeResult) :=
  if nc_ClaimMode claim !=s "READ_BACK_FIRST" then
    AuthorizeNetworkApply (at_start calls) claim;;
    reconcile_claim claim
  else
    RecordNetworkReadBack claim;;
    observed ← attempt (on_adapter (ObserveNetwork Run c (nc_CanonicalPlan claim) (nc_PlanDigest claim)));
    match observed with
    | Err e => mret (Err e)
    | Ok result =>
        match RestoreStoredNetworkPlan (nc_CanonicalPlan claim) (nc_PlanDigest claim) with
        | Err e => mret (Err e)
        | Ok (_, plan) =>
            let state := State (rr_NetworkObservation result) (np_DesiredState plan) in
            if (state !=s "VERIFIED") && (state !=s "ABSENT") then
              AuthorizeNetworkApply (at_again calls) claim;;
              reconcile_claim claim
            else mret (Ok result)
        end
    end.

Definition observation_for (claim : NetworkRealizationClaim) (result : RuntimeResult) : NetworkRealizationObservation :=
  MkRealizationObservation ("network-observation:" ++ nc_OperationID claim ++ ":" ++ FormatUint (nc_ClaimGeneration claim))%string
    (nc_OperationID claim) (no_LogicalSwitchName (rr_NetworkObservation result)) (BackendUUID (rr_NetworkObservation result))
    (NBObservationDigest result) (wk_AdapterArtifactDigest worker) (nc_OperationGeneration claim) (nc_ClaimGeneration claim)
    (ApplyResponseState result) (rr_NetworkObservation result).

Definition conclude_turn (claim : NetworkRealizationClaim) (outcome : res RuntimeResult) : io world turn :=
  match outcome with
  | Err e =>
      unknown ← attempt (MarkNetworkUnknown claim);
      mret match unknown with
           | Err e' => Fatal (ErrJoin e e')
           | Ok _ => ItemLocal (nc_OperationID claim) (Wrapf "Network realization: %w" [] e)
           end
  | Ok result =>
      completed ← attempt (CompleteNetwork claim (observation_for claim result));
      mret match completed with Err e => Fatal e | Ok _ => Completed end
  end.

(** [runNetworkOnce] *)
Definition runNetworkOnce : io world turn :=
  claimed ← attempt ClaimNetwork;
  match claimed with
  | Err e => mret (if errors_Is e ErrNoNetworkRealizationWork then Idle else Fatal e)
  | Ok claim =>
      outcome ← attempt (perform claim);
      match outcome with Err e => mret (Fatal e) | Ok outcome => conclude_turn claim outcome end
  end.
End Worker.

(** ** A turn nobody disturbs *)

Definition quiet (now : Z) : store_call := MkStoreCall id now Answered.

Section Answers.
Context {nb : Type}.
Implicit Types (d : netdb) (x : nb).

Lemma io_bind_Ok {W A B} (m : io W A) (f : A -> io W B) (v v' : W) a : m v = (v', Ok a) -> (m ≫= f) v = f a v'.
Proof. intros H. unfold mbind, io_mbind. by rewrite H. Qed.
Lemma io_attempt_eq {W A} (m : io W A) (v v' : W) r : m v = (v', r) -> attempt m v = (v', Ok r).
Proof. intros H. unfold attempt. by rewrite H. Qed.
Lemma on_store_quiet {A} now (f : Z -> netdb -> res (netdb * A)) d d' x a : f now d = Ok (d', a) ->
  on_store (nb:=nb) (quiet now) f (d, x) = ((d', x), Ok a).
Proof. intros H. unfold on_store, quiet. cbn. by rewrite H. Qed.
Lemma on_adapter_eq {A} (m : io nb A) d x x' r : m x = (x', r) -> on_adapter m (d, x) = ((d, x'), r).
Proof. intros H. unfold on_adapter. by rewrite H. Qed.
Lemma silent_Ok f now d d' : f now d = Ok d' -> silent f now d = Ok (d', tt).
Proof. intros H. unfold silent. by rewrite H. Qed.
End Answers.

Section Turn.
Context (jsonb_text : bytes -> bytes) {nb : Type} (Run : string -> list string -> nb -> nb * res bytes)
  (switches : nb -> gmap string markers).
Context `{!OvnNorthbound Run switches}.
Hypothesis answered : forall name arguments x, is_Ok (snd (Run name arguments x)) = true.
Context {c : RuntimeConfig} {worker : Worker} {t0 t1 t2 t3 : Z} {d : netdb} {o : string} {s : operation_state_row}
  {e : realization_operation_row} {i : NetworkIntentInput}.
Hypothesis configured : validate c = Ok tt.
Hypothesis R : ready d t0 (Owner worker) (ClaimLease worker) o s e.
Hypothesis planned : PlanNetwork i = Ok (ro_plan e, ro_digest e).
Hypothesis intended : intent_ok i.
Hypothesis stored : same_value (jsonb_text (ro_plan e)) (ro_plan e).
Hypothesis timely : t1 < t0 + microseconds (ClaimLease worker) /\ t2 < t0 + microseconds (ClaimLease worker).

Let calls := MkTurnCalls (quiet t0) (quiet t1) (quiet t2) (quiet t3).
Let claim := claim_of jsonb_text t0 o (Owner worker) (ClaimLease worker) s e.
Let d1 := claimed_tables t0 o (Owner worker) (ClaimLease worker) s d.
Let name := objectName "kim-ls" (in_NetworkID i).

(** VERIFIED and ABSENT are what a plan wants. *)
Lemma final_state_wanted ob plan : np_DesiredState plan = "PRESENT"%string \/ np_DesiredState plan = "ABSENT"%string ->
  (State ob (np_DesiredState plan) !=s "VERIFIED") && (State ob (np_DesiredState plan) !=s "ABSENT") = false ->
  State ob (np_DesiredState plan) = wanted_state plan.
Proof.
  unfold wanted_state, State. intros [-> | ->]; cbn; repeat case_match; try done.
Qed.

(** The adapter is asked for what the authority allows, and the switch is as
    the plan wants it. *)
Record performance (x' : nb) (events : list string) (result : RuntimeResult) : Prop := MkPerformance {
  pf_state : State (rr_NetworkObservation result) (in_DesiredState i) = wanted_state (network_plan i);
  pf_name : no_LogicalSwitchName (rr_NetworkObservation result) = name;
  pf_digest : exists text, NBObservationDigest result = digestText text;
  pf_read_back : claim_mode s = "READ_BACK_FIRST"%string -> "READ_BACK_STARTED"%string ∈ events;
  pf_response : ApplyResponseState result = "RECEIVED"%string /\ "APPLY_AUTHORIZED"%string ∈ events
    \/ ApplyResponseState result = "UNKNOWN"%string;
  pf_sound : sound (logged events claim d1);
  pf_present : wanted_state (network_plan i) = "VERIFIED"%string ->
    exists m, switches x' !! name = Some m /\ markersPresent m (network_markers i) (ro_digest e) = true;
  pf_absent : wanted_state (network_plan i) = "ABSENT"%string -> switches x' !! name = None;
}.

Lemma claimed_sound : sound d1.
Proof.
  pose proof (rdy_sound _ _ _ _ _ _ _ R) as S.
  exact (stepped_sound _ _ S (Claim_step _ _ _ _ _ _ _ _ S (claim_runs jsonb_text _ _ _ _ _ _ _ R))).
Qed.

Lemma applied_performance x x' events result : ReconcileNetwork Run c (jsonb_text (ro_plan e)) (ro_digest e) x = (x', Ok result) ->
  own_object (network_plan i) (switches x) -> "APPLY_AUTHORIZED"%string ∈ events ->
  (claim_mode s = "READ_BACK_FIRST"%string -> "READ_BACK_STARTED"%string ∈ events) -> sound (logged events claim d1) ->
  performance x' events result.
Proof.
  intros H Hown Hin Hrb S. destruct (planned_network _ _ _ planned) as (_ & _ & _ & _ & Hw).
  destruct (reconcile_answered Run switches answered c i _ _ _ x intended planned stored configured Hown)
    as (y & result' & Hr & Hsw & Hresp & Hst & Hn & Ht).
  rewrite H in Hr. injection Hr as <- <-. destruct (network_assignable _ _ _ intended planned) as (_ & Hf & Hd).
  pose proof (state_applied (network_plan i) (ro_digest e) (switches x) "" Hf Hd Hw) as Hafter. rewrite <- Hsw in Hafter.
  constructor; try done; [by left| |]; intros E; rewrite <- Hafter in E; [by apply state_verified in E|by apply state_absent in E].
Qed.

Lemma performed_at_once x : own_object (network_plan i) (switches x) -> claim_mode s <> "READ_BACK_FIRST"%string ->
  exists events x' result, perform Run c calls claim (d1, x) = ((logged events claim d1, x'), Ok (Ok result))
    /\ performance x' events result.
Proof.
  intros Hown Em. destruct timely as [H1 _]. pose proof claimed_sound as S1.
  pose proof (authorize_runs jsonb_text R t1 [] H1 ltac:(done)) as Ha. cbn [logged foldr] in Ha. fold claim d1 in Ha.
  pose proof (stepped_sound _ _ S1 (Authorize_step _ _ _ _ S1 Ha)) as S2.
  destruct (reconcile_answered Run switches answered c i _ _ _ x intended planned stored configured Hown) as (x' & result & Hr & _).
  exists ["APPLY_AUTHORIZED"%string], x', result. split.
  - unfold perform, AuthorizeNetworkApply, reconcile_claim. change (nc_ClaimMode claim) with (claim_mode s).
    rewrite (proj2 (String.eqb_neq _ _) Em). cbn [negb]. erewrite io_bind_Ok by (apply on_store_quiet, silent_Ok, Ha).
    apply io_attempt_eq, on_adapter_eq, Hr.
  - apply (applied_performance x); try done. by left.
Qed.

Lemma performed_after_reading x : own_object (network_plan i) (switches x) -> claim_mode s = "READ_BACK_FIRST"%string ->
  exists events x' result, perform Run c calls claim (d1, x) = ((logged events claim d1, x'), Ok (Ok result))
    /\ performance x' events result.
Proof.
  intros Hown Em. destruct timely as [H1 H2]. pose proof claimed_sound as S1.
  destruct (planned_network _ _ _ planned) as (_ & _ & _ & _ & Hw).
  pose proof (readback_runs jsonb_text R t1 [] H1 Em) as Hrb. cbn [logged foldr] in Hrb. fold claim d1 in Hrb.
  pose proof (stepped_sound _ _ S1 (ReadBack_step _ _ _ _ S1 Hrb)) as S2.
  destruct (observe_answered Run switches answered c i _ _ _ x intended planned stored configured Hown)
    as (x1 & result & uuid & Hr & Hsw & Hresp & Hst & Hn & Ht).
  unfold perform, RecordNetworkReadBack. change (nc_ClaimMode claim) with (claim_mode s).
  change (nc_CanonicalPlan claim) with (jsonb_text (ro_plan e)). change (nc_PlanDigest claim) with (ro_digest e).
  rewrite Em. cbn [String.eqb Ascii.eqb Bool.eqb negb].
  erewrite io_bind_Ok by (apply on_store_quiet, silent_Ok, Hrb).
  erewrite io_bind_Ok by (apply io_attempt_eq, on_adapter_eq, Hr).
  rewrite (restore_intent _ _ _ _ intended planned stored). cbv zeta. change (np_DesiredState (network_plan i)) with (in_DesiredState i).
  destruct ((State (rr_NetworkObservation result) (in_DesiredState i) !=s "VERIFIED") && _) eqn:Efinal.
  - pose proof (authorize_runs jsonb_text R t2 ["READ_BACK_STARTED"%string] H2 ltac:(by intros _; left)) as Ha.
    fold claim d1 in Ha. pose proof (stepped_sound _ _ S2 (Authorize_step _ _ _ _ S2 Ha)) as S3.
    assert (own_object (network_plan i) (switches x1)) as Hown1 by (unfold own_object; by rewrite Hsw).
    destruct (reconcile_answered Run switches answered c i _ _ _ x1 intended planned stored configured Hown1) as (x' & result' & Hr' & _).
    exists ["APPLY_AUTHORIZED"; "READ_BACK_STARTED"]%string, x', result'. split.
    + unfold AuthorizeNetworkApply, reconcile_claim. erewrite io_bind_Ok by (apply on_store_quiet, silent_Ok, Ha).
      apply io_attempt_eq, on_adapter_eq, Hr'.
    + apply (applied_performance x1); try done; [by left|by intros _; right; left].
  - pose proof (final_state_wanted _ (network_plan i) Hw Efinal) as Hwanted.
    change (np_DesiredState (network_plan i)) with (in_DesiredState i) in Hwanted.
    exists ["READ_BACK_STARTED"%string], x1, result. split; [done|].
    constructor; try done; [by intros _; left|by right| |]; intros E; rewrite <- Hwanted, Hst in E; rewrite Hsw;
      [by apply state_verified in E|by apply state_absent in E].
Qed.

Let s1 := claimed_state t0 (Owner worker) (ClaimLease worker) s.

Lemma operation_kind : os_kind s = "REALIZE"%string \/ os_kind s = "RETIRE"%string.
Proof.
  destruct (ready_state _ _ _ _ _ _ _ R) as (Hs & _).
  destruct (sound_at_work _ _ _ (rdy_sound _ _ _ _ _ _ _ R) Hs) as (w & z & W). destruct (atw_lived W); auto.
Qed.
Lemma wanted_of_kind : in_DesiredState i = kind_wants (os_kind s) ->
  wanted_state (network_plan i) = (if os_kind s ==s "RETIRE" then "ABSENT" else "VERIFIED")%string.
Proof.
  intros Hdesired. unfold wanted_state. change (np_DesiredState (network_plan i)) with (in_DesiredState i). rewrite Hdesired.
  by destruct operation_kind as [-> | ->].
Qed.

(** The observation is accepted and ends the operation. *)
Lemma performed_settles events x' result : t3 < t0 + microseconds (ClaimLease worker) ->
  hex64 (wk_AdapterArtifactDigest worker) = true -> in_NetworkID i = os_network s -> in_DesiredState i = kind_wants (os_kind s) ->
  (forall id b, realization_observations d !! id = Some b ->
     id <> ("network-observation:" ++ o ++ ":" ++ FormatUint (os_last_claim s + 1))%string
     /\ ~ (rb_operation b = o /\ rb_generation b = os_generation s /\ rb_observation b = os_last_claim s + 1)) ->
  performance x' events result ->
  exists d' answer, AcceptNetworkRealizationObservation jsonb_text t3 claim (observation_for worker claim result) (logged events claim d1)
      = Ok (d', answer)
    /\ settled (logged events claim d1) d' o s1.
Proof.
  intros H3 Hartifact Hnetwork Hdesired Hfresh [Hst Hname [text Htext] Hrb Hresp S2 _ _].
  destruct (ready_state _ _ _ _ _ _ _ R) as (_ & _ & Hlast & _).
  destruct (logged_tables events claim d1) as (_ & El & Eo & _ & Eb & _).
  assert (State (ro_Observation (observation_for worker claim result)) (np_DesiredState (network_plan i)) = wanted_state (network_plan i))
    as Hstate by exact Hst.
  destruct (accept_runs jsonb_text t3 claim (observation_for worker claim result) (logged events claim d1) s1 e
    (MkRealizationAttempt (Owner worker) (claim_mode s) (t0 + microseconds (ClaimLease worker))) (ro_plan e) (network_plan i))
    as [d' Hd']; try done.
  - by apply claimed_lock.
  - rewrite Eo. apply (rdy_evidence _ _ _ _ _ _ _ R).
  - exact (restore_intent _ _ _ _ intended planned stored).
  - by apply claimed_attempt.
  - intros Hm. apply logged_event. by apply Hrb.
  - destruct Hresp as [[E Hin]|E]; [left|by right]. split; [by left|]. by apply logged_event.
  - pose proof (rdy_bounded _ _ _ _ _ _ _ R). cbn. lia.
  - cbn. rewrite Htext. apply hex64_sha256.
  - rewrite Eb. exact Hfresh.
  - rewrite Hstate, (wanted_of_kind Hdesired) in Hd'. change (os_kind s1) with (os_kind s) in Hd'.
    exists d'. eexists. split; [exact Hd'|]. refine (accept_settled _ _ _ _ _ _ _ s1 S2 _ Hd' _); [rewrite El; apply lookup_insert_eq|].
    by destruct operation_kind as [-> | ->].
Qed.

(** The whole turn *)
Lemma answered_run x : t3 < t0 + microseconds (ClaimLease worker) ->
  hex64 (wk_AdapterArtifactDigest worker) = true -> in_NetworkID i = os_network s -> in_DesiredState i = kind_wants (os_kind s) ->
  (forall id b, realization_observations d !! id = Some b ->
     id <> ("network-observation:" ++ o ++ ":" ++ FormatUint (os_last_claim s + 1))%string
     /\ ~ (rb_operation b = o /\ rb_generation b = os_generation s /\ rb_observation b = os_last_claim s + 1)) ->
  own_object (network_plan i) (switches x) ->
  exists d' x' events result, runNetworkOnce jsonb_text Run c worker calls (d, x) = ((d', x'), Ok Completed)
    /\ performance x' events result /\ settled (logged events claim d1) d' o s1.
Proof.
  intros H3 Hartifact Hnetwork Hdesired Hfresh Hown.
  assert (exists events x' result, perform Run c calls claim (d1, x) = ((logged events claim d1, x'), Ok (Ok result))
    /\ performance x' events result) as (events & x' & result & Hperform & P).
  { destruct (decide (claim_mode s = "READ_BACK_FIRST"%string)); [by apply performed_after_reading|by apply performed_at_once]. }
  destruct (performed_settles events x' result H3 Hartifact Hnetwork Hdesired Hfresh P) as (d' & answer & Hd' & Hsettled).
  exists d', x', events, result. split; [|by split]. unfold runNetworkOnce, ClaimNetwork.
  erewrite io_bind_Ok by (apply io_attempt_eq, on_store_quiet, (claim_runs jsonb_text _ _ _ _ _ _ _ R)).
  cbv beta iota. erewrite io_bind_Ok by (apply io_attempt_eq, Hperform). cbv beta iota. unfold conclude_turn, CompleteNetwork.
  by erewrite io_bind_Ok by (apply io_attempt_eq, on_store_quiet, Hd').
Qed.

(** C17: A turn of a worker that is answered settles the operation at the head of
    the queue.  Let no other transaction run between the steps of the turn, the
    database and ovn-nbctl answer every one of them, and the lease last to the
    end of the turn; let the tables be sound, the authority ACTIVE and the
    operation the first that can be claimed; let its plan be the one of an intent
    whose identifiers are atoms of at most 256 characters ([intent_ok]; the
    tables accept longer ones), for its own Network and kind, PostgreSQL give it back as
    the same JSON value, and no observation have the id or the claim this turn
    will present; let the runtime be configured, the adapter's digest 64 digits
    of hexadecimal, and the switch of the Network absent or its own.  Then the
    turn completes: the operation SUCCEEDED; a realization is VERIFIED and the
    switch has every marker of the plan; a retired Network is DELETED, its switch
    is gone and its segment free.  This is so whether the worker may apply at
    once or has to read back first. *)
Theorem an_answered_turn_settles_the_operation x : t3 < t0 + microseconds (ClaimLease worker) ->
  hex64 (wk_AdapterArtifactDigest worker) = true ->
  in_NetworkID i = os_network s -> in_DesiredState i = kind_wants (os_kind s) ->
  (forall id b, realization_observations d !! id = Some b ->
     id <> ("network-observation:" ++ o ++ ":" ++ FormatUint (os_last_claim s + 1))%string
     /\ ~ (rb_operation b = o /\ rb_generation b = os_generation s /\ rb_observation b = os_last_claim s + 1)) ->
  own_object (network_plan i) (switches x) ->
  exists d' x', runNetworkOnce jsonb_text Run c worker calls (d, x) = ((d', x'), Ok Completed)
    /\ (exists s', operation_states d' !! o = Some s' /\ os_phase s' = "SUCCEEDED"%string)
    /\ (os_kind s = "REALIZE"%string ->
          networks d' = networks d /\ allocations d' = allocations d
          /\ (exists z, realizations d' !! os_network s = Some z /\ rz_state z = "VERIFIED"%string)
          /\ exists m, switches x' !! name = Some m /\ markersPresent m (network_markers i) (ro_digest e) = true)
    /\ (os_kind s = "RETIRE"%string ->
          (exists w, networks d' !! os_network s = Some w /\ nw_lifecycle w = "DELETED"%string)
          /\ allocations d' !! os_network s = None /\ switches x' !! name = None).
Proof.
  intros H3 Hartifact Hnetwork Hdesired Hfresh Hown.
  destruct (answered_run x H3 Hartifact Hnetwork Hdesired Hfresh Hown) as (d' & x' & events & result & Hrun & P & [Hdone Hrealized Hretired]).
  destruct (logged_tables events claim d1) as (_ & _ & _ & _ & _ & _ & En & Eal & _). pose proof (wanted_of_kind Hdesired) as Hwanted.
  exists d', x'. split; [exact Hrun|]. split; [exact Hdone|]. split; intros Hk; rewrite Hk in Hwanted.
  - destruct (Hrealized Hk) as (-> & -> & Hz). rewrite En, Eal. split_and!; try done. by apply (pf_present _ _ _ P).
  - destruct (Hretired Hk) as (Ha & Hw). split_and!; try done. by apply (pf_absent _ _ _ P).
Qed.
End Turn.

(** ** A turn among others *)

Section Disturbed.
Context (jsonb_text : bytes -> bytes) {nb : Type} (Run : string -> list string -> nb -> nb * res bytes)
  (switches : nb -> gmap string markers).
Context `{!OvnNorthbound Run switches}.
Context (c : RuntimeConfig) (worker : Worker) (calls : turn_calls).
(** What happens before a transaction of the worker is a run. *)
Hypothesis disturbed : forall k, In k [at_claim calls; at_start calls; at_again calls; at_end calls] ->
  forall d, runs jsonb_text d (call_before k d).

Lemma runs_reachable d d' : reachable jsonb_text d -> runs jsonb_text d d' -> reachable jsonb_text d'.
Proof. intros (d0 & B & H) H'. exists d0. split; [done|]. by eapply runs_trans. Qed.

(** A transaction is a run, and leaves OVN as it is; one that is answered leaves
    what it made of the tables it found. *)
Lemma on_store_inv {A} k (f : Z -> netdb -> res (netdb * A)) d x d' x' r :
  In k [at_claim calls; at_start calls; at_again calls; at_end calls] ->
  (forall now d d' a, f now d = Ok (d', a) -> exists q, effect jsonb_text now q d = Ok d') ->
  on_store (nb:=nb) k f (d, x) = ((d', x'), r) ->
  runs jsonb_text d d' /\ x' = x
  /\ forall a, r = Ok a -> runs jsonb_text d (call_before k d) /\ f (call_now k) (call_before k d) = Ok (d', a).
Proof.
  intros Hk Hf H. unfold on_store in H. destruct (transacted _ _ _) as [d2 r2] eqn:T. injection H as <- <- <-.
  pose proof (disturbed _ Hk d) as Hb. split; [|split; [done|]].
  - assert (d2 = call_before k d \/ exists a, f (call_now k) (call_before k d) = Ok (d2, a)) as [->|[a E]]; [|done|].
    { destruct (call_outcome k), (f _ _) as [[? ?]|]; cbn in T; injection T as <- <-; eauto. }
    destruct (Hf _ _ _ _ E) as [q Hq]. by eapply runs_effect.
  - intros a ->. apply transacted_Ok in T as [_ T]. done.
Qed.

(** Observing changes no switch. *)
Lemma observe_reads stored digest y y' r : reconcileNetwork Run c stored digest false y = (y', r) -> switches y' = switches y.
Proof.
  unfold reconcileNetwork. intros H.
  apply io_bind_inv in H as [(e & H & _)|([] & y1 & H & H1)]; injection H as <- _; [done|].
  apply io_bind_inv in H1 as [(e & H & _)|([canonical plan] & y2 & H & H2)]; injection H as <- _; [done|].
  apply io_bind_inv in H2 as [(e & H & _)|([] & y3 & H & H3)]; injection H as <- _; [done|].
  apply io_bind_inv in H3 as [(e & H & _)|([[[m p] t] u] & y4 & H & H4)];
    apply (read_switch_spec Run switches) in H as [E1 _]; [done|].
  apply io_bind_inv in H4 as [(e & H & _)|([] & y5 & H & H5)]; injection H as <- _; [done|].
  apply io_bind_inv in H5 as [(e & H & _)|(resp & y6 & H & H6)]; injection H as <- _; [done|].
  apply io_bind_inv in H6 as [(e & H & _)|([[[m' p'] t'] u'] & y7 & H & H7)];
    apply (read_switch_spec Run switches) in H as [E2 _]; [congruence|]. injection H7 as <- _. congruence.
Qed.

Lemma io_attempt_inv {W A} (m : io W A) v v' r : attempt m v = (v', r) -> exists r', m v = (v', r') /\ r = Ok r'.
Proof. unfold attempt. destruct (m v) as [v1 r1]. intros [= <- <-]. by exists r1. Qed.
Lemma on_adapter_inv {A} (m : io nb A) d x d' x' r : on_adapter m (d, x) = ((d', x'), r) -> d' = d /\ m x = (x', r).
Proof. unfold on_adapter. destruct (m x) as [x1 r1]. by intros [= <- <- <-]. Qed.

(** What the tables held when the worker was authorised, on the way from [d] to [d'] *)
Record held_claim (claim : NetworkRealizationClaim) (now : Z) (d : netdb) : Prop := MkHeldClaim {
  hld_operation : exists s, operation_states d !! nc_OperationID claim = Some s /\ os_phase s = "CLAIMED"%string
    /\ os_owner s = Some (nc_Owner claim) /\ os_last_claim s = nc_ClaimGeneration claim
    /\ exists t, os_expires s = Some t /\ now < t;
  hld_read_back : 1 < nc_ClaimGeneration claim -> attempt_event claim "READ_BACK_STARTED" ∈ attempt_event_log d;
}.
Definition authorised (claim : NetworkRealizationClaim) (k : store_call) (d d' : netdb) : Prop := exists da db,
  runs jsonb_text d da /\ AuthorizeNetworkRealizationApply (call_now k) claim da = Ok db /\ runs jsonb_text db d'
  /\ held_claim claim (call_now k) da.

Lemma authorize_inv now claim da db : reachable jsonb_text da -> AuthorizeNetworkRealizationApply now claim da = Ok db ->
  held_claim claim now da.
Proof.
  intros S%reachable_sound H. unfold AuthorizeNetworkRealizationApply, event_recorded in H. open_tx.
  match goal with H : lockNetworkRealizationClaim _ _ _ = Ok ?s |- _ =>
    pose proof (lock_inv _ _ _ _ S H) as (Hs & Hp & _ & Hgen & Hown & _); rename s into s0;
    unfold lockNetworkRealizationClaim, holds_claim in H end.
  split.
  - exists s0. split_and!; try done. open_tx. destruct (os_expires _) as [t|]; [|done]. exists t. by bools.
  - intros Hlt. match goal with H : realization_attempts _ !! attempt_key claim = _ |- _ => destruct (snd_attempted _ S _ _ _ _ H) as [_ Hm _] end.
    destruct Hm as [[_ E]|[Em _]]; [lia|].
    match goal with H : (ra_mode _ ==s _) && _ = false |- _ => rewrite Em in H; cbn in H end. by bools.
Qed.

Lemma authorize_logs now claim d d' : AuthorizeNetworkRealizationApply now claim d = Ok d' ->
  attempt_event claim "APPLY_AUTHORIZED" ∈ attempt_event_log d'.
Proof. unfold AuthorizeNetworkRealizationApply. intros H. open_tx. cbn. apply elem_of_union. left. by apply elem_of_singleton. Qed.

Lemma authorised_later claim k d d' d2 : authorised claim k d d' -> runs jsonb_text d' d2 -> authorised claim k d d2.
Proof. intros (da & db & H1 & H2 & H3 & H4) H. exists da, db. split_and!; try done. exact (runs_trans _ _ _ _ H3 H). Qed.
Lemma authorised_before claim k d0 d d' : runs jsonb_text d0 d -> authorised claim k d d' -> authorised claim k d0 d'.
Proof. intros H (da & db & H1 & H2 & H3 & H4). exists da, db. split_and!; try done. exact (runs_trans _ _ _ _ H H1). Qed.

(** The adapter applies only after an authorisation that was answered. *)
Lemma reconcile_claim_authorised k claim d x d' x' r : In k [at_start calls; at_again calls] -> reachable jsonb_text d ->
  (AuthorizeNetworkApply k claim;; reconcile_claim Run c claim) (d, x) = ((d', x'), r) ->
  x' = x \/ authorised claim k d d'.
Proof.
  intros Hk Hd H. assert (In k [at_claim calls; at_start calls; at_again calls; at_end calls]) as Hk' by (cbn in *; tauto).
  assert (forall now d d' a, silent (fun now => AuthorizeNetworkRealizationApply now claim) now d = Ok (d', a) ->
    exists q, effect jsonb_text now q d = Ok d') as Heff.
  { intros now d1 d2 [] E. apply bind_Ok_inv in E as (d3 & E & [= <-]). by exists (Authorize claim). }
  apply io_bind_inv in H as [(e & H & _)|([] & [d1 x1] & H & H1)];
    apply on_store_inv in H as (_ & -> & Hans); try done; [by left|]. right.
  destruct (Hans _ eq_refl) as [Hb E]. apply bind_Ok_inv in E as (db & E & [= <-]).
  apply io_attempt_inv in H1 as (r1 & H1 & _). apply on_adapter_inv in H1 as [-> _].
  exists (call_before k d), db. split_and!; [done|done|apply runs_refl|].
  eapply authorize_inv; [|exact E]. by eapply runs_reachable.
Qed.

Lemma perform_authorised claim d x d' x' r : reachable jsonb_text d -> perform Run c calls claim (d, x) = ((d', x'), r) ->
  switches x' = switches x \/ authorised claim (at_start calls) d d' \/ authorised claim (at_again calls) d d'.
Proof.
  intros Hd H. unfold perform in H. destruct (nc_ClaimMode claim !=s "READ_BACK_FIRST").
  { apply reconcile_claim_authorised in H as [-> | H]; cbn; auto. }
  assert (forall now d d' a, silent (fun now => RecordNetworkRealizationReadBackStarted now claim) now d = Ok (d', a) ->
    exists q, effect jsonb_text now q d = Ok d') as Heff.
  { intros now d1 d2 [] E. apply bind_Ok_inv in E as (d3 & E & [= <-]). by exists (ReadBack claim). }
  apply io_bind_inv in H as [(e & H & _)|([] & [d1 x1] & H & H1)].
  { apply on_store_inv in H as (_ & -> & _); [by left|cbn; auto|done]. }
  apply on_store_inv in H as (Hd1 & -> & _); [|cbn; auto|done].
  apply io_bind_inv in H1 as [(e & H & _)|(observed & [d2 x2] & H & H2)]; apply io_attempt_inv in H as (r1 & H & E); [done|].
  injection E as ->. apply on_adapter_inv in H as [-> H]. unfold ObserveNetwork in H. apply observe_reads in H.
  destruct r1 as [result|e]; [|injection H2 as _ <- _; by left].
  destruct (RestoreStoredNetworkPlan _ _) as [[canonical plan]|e]; [|injection H2 as _ <- _; by left].
  cbv zeta in H2. destruct (_ && _); [|injection H2 as _ <- _; by left].
  apply reconcile_claim_authorised in H2 as [-> | H2]; [by left| |cbn; auto|by eapply runs_reachable].
  right. right. by eapply authorised_before.
Qed.

Lemma conclude_turn_runs claim outcome d x d' x' r :
  conclude_turn (nb:=nb) jsonb_text worker calls claim outcome (d, x) = ((d', x'), r) -> x' = x /\ runs jsonb_text d d'.
Proof.
  intros H. unfold conclude_turn, MarkNetworkUnknown, CompleteNetwork in H. destruct outcome as [result|e].
  all: apply io_bind_inv in H as [(e' & H & _)|(a & [d1 x1] & H & H1)]; apply io_attempt_inv in H as (r1 & H & E); [done|];
    injection H1 as <- <- _; apply on_store_inv in H as (Hr & -> & _); [done|cbn; auto 6|].
  - intros now d2 d3 b E'. exists (Accept claim (observation_for worker claim result)). cbn. by rewrite E'.
  - intros now d2 d3 [] E'. apply bind_Ok_inv in E' as (d4 & E' & [= <-]). by exists (MarkUnknown claim).
Qed.

(** C18: Whatever happens between its transactions and however they end, a turn of
    the worker changes the switches only after it claimed an operation and, on
    the way from the tables of the claim to those it leaves, an authorisation to
    apply was committed for that claim and is in the log of events; when it was
    given, the tables held the operation as CLAIMED by this worker, with that
    very claim and a lease still running, and for every claim after the first
    the log already said that the worker reads back first. *)
Theorem a_turn_changes_ovn_only_under_its_claim d x d' x' r : reachable jsonb_text d ->
  runNetworkOnce jsonb_text Run c worker calls (d, x) = ((d', x'), r) -> switches x' <> switches x ->
  exists d1 claim k da db s,
    ClaimNetworkRealization jsonb_text (call_now (at_claim calls)) "" (Owner worker) (ClaimLease worker)
      (call_before (at_claim calls) d) = Ok (d1, claim)
    /\ (k = at_start calls \/ k = at_again calls)
    /\ runs jsonb_text d1 da /\ AuthorizeNetworkRealizationApply (call_now k) claim da = Ok db /\ runs jsonb_text db d'
    /\ attempt_event claim "APPLY_AUTHORIZED" ∈ attempt_event_log d'
    /\ operation_states da !! nc_OperationID claim = Some s /\ os_phase s = "CLAIMED"%string
    /\ os_owner s = Some (Owner worker) /\ os_last_claim s = nc_ClaimGeneration claim
    /\ (exists t, os_expires s = Some t /\ call_now k < t)
    /\ (1 < nc_ClaimGeneration claim -> attempt_event claim "READ_BACK_STARTED" ∈ attempt_event_log da).
Proof.
  intros Hd H Hne. unfold runNetworkOnce in H.
  apply io_bind_inv in H as [(e & H & _)|(claimed & [d1 x1] & H & H1)]; apply io_attempt_inv in H as (r1 & H & E); [done|].
  injection E as ->. apply on_store_inv in H as (Hd1 & -> & Hans); [|cbn; auto|].
  2: { intros now d2 d3 a E. exists (Claim "" (Owner worker) (ClaimLease worker)). cbn. by rewrite E. }
  destruct r1 as [claim|e]; [|injection H1 as _ <- _; done]. destruct (Hans _ eq_refl) as [_ Hclaim].
  apply io_bind_inv in H1 as [(e & H & _)|(outcome & [d2 x2] & H & H2)]; apply io_attempt_inv in H as (r1 & H & E); [done|].
  injection E as ->. pose proof (runs_reachable _ _ Hd Hd1) as Hr1. apply perform_authorised in H; [|done].
  assert (x' = x2 /\ runs jsonb_text d2 d') as [-> Hend].
  { destruct r1; [by apply conclude_turn_runs in H2|injection H2 as <- <- _; split; [done|apply runs_refl]]. }
  assert (exists k, (k = at_start calls \/ k = at_again calls) /\ authorised claim k d1 d2) as (k & Hk & Ha) by (destruct H as [?|[?|?]]; eauto; done).
  apply (fun A => authorised_later _ _ _ _ _ A Hend) in Ha as (da & db & Hda & Ha & Hdb & [(s & Hs & Hp & Hown & Hgen & Ht) Hrb]).
  destruct (claim_inv _ _ _ _ _ _ _ _ Hclaim) as (s1 & e & _ & _ & _ & _ & _ & Ec).
  exists d1, claim, k, da, db, s. split_and!; try done.
  - eapply runs_log; [|exact Hdb|by eapply authorize_logs].
    apply (reachable_sound jsonb_text). eapply runs_reachable; [exact Hr1|].
    eapply (runs_effect _ (call_now k) (Authorize claim)); [exact Hda|exact Ha].
  - by rewrite Hown, Ec.
Qed.
End Disturbed.

Definition demo_network_worker : Worker := MkWorker "worker" 5000000 (digestText "adapter").
Definition demo_turn : turn_calls := MkTurnCalls (quiet 2) (quiet 3) (quiet 4) (quiet 5).

Lemma an_answered_turn_settles_the_operation_witness : exists d' x',
  runNetworkOnce id demo_run demo_ovn_config demo_network_worker demo_turn (demo_net_retired, ∅) = ((d', x'), Ok Completed)
  /\ (exists w, networks d' !! "net"%string = Some w /\ nw_lifecycle w = "DELETED"%string)
  /\ allocations d' !! "net"%string = None.
Proof.
  destruct (an_answered_turn_settles_the_operation id demo_run demo_switches demo_answers (c:=demo_ovn_config)
    (worker:=demo_network_worker) (t0:=2) (t1:=3) (t2:=4) (t3:=5) (d:=demo_net_retired) (i:=demo_retire_intent) demo_ovn_config_valid
    (demo_retired_ready "worker" 5000000 ltac:(done) ltac:(done)) demo_retire_evident demo_retire_intended
    (stored_as_is _ _ _ demo_retire_intended demo_retire_planned) ltac:(done) ∅) as (d' & x' & Hrun & _ & _ & Hretired).
  - done.
  - apply hex64_sha256.
  - reflexivity.
  - reflexivity.
  - change (realization_observations demo_net_retired) with (∅ : gmap string realization_observation_row).
    by intros ob b ?%lookup_empty_Some.
  - by intros m.
  - exists d', x'. split; [exact Hrun|]. destruct (Hretired eq_refl) as (Hw & Ha & _). split; [exact Hw|exact Ha].
Defined.

Lemma demo_turn_quiet k : In k [at_claim demo_turn; at_start demo_turn; at_again demo_turn; at_end demo_turn] ->
  forall d, runs id d (call_before k d).
Proof. cbn. intros [<-|[<-|[<-|[<-|[]]]]] d; apply runs_refl. Qed.

Lemma a_turn_changes_ovn_only_under_its_claim_witness : exists d' x' claim,
  runNetworkOnce id demo_run demo_ovn_config demo_network_worker demo_turn (demo_net_created, ∅) = ((d', x'), Ok Completed)
  /\ demo_switches x' <> ∅ /\ attempt_event claim "APPLY_AUTHORIZED" ∈ attempt_event_log d'.
Proof.
  destruct (answered_run id demo_run demo_switches demo_answers (c:=demo_ovn_config)
    (worker:=demo_network_worker) (t0:=2) (t1:=3) (t2:=4) (t3:=5) (d:=demo_net_created) (i:=demo_net_intent) demo_ovn_config_valid
    (demo_created_ready "worker" 5000000 ltac:(done) ltac:(done)) demo_net_evident demo_net_intended
    (stored_as_is _ _ _ demo_net_intended demo_net_planned) ltac:(done) ∅) as (d' & x' & events & result & Hrun & P & _).
  - done.
  - apply hex64_sha256.
  - reflexivity.
  - reflexivity.
  - change (realization_observations demo_net_created) with (∅ : gmap string realization_observation_row).
    by intros ob b ?%lookup_empty_Some.
  - by intros m.
  - assert (demo_switches x' <> demo_switches ∅) as Hne.
    { intros E. destruct P as [_ _ _ _ _ _ Hp _]. destruct (Hp eq_refl) as (m & Hm & _). rewrite E in Hm.
      change (demo_switches ∅) with (∅ : gmap string markers) in Hm. by apply lookup_empty_Some in Hm. }
    destruct (a_turn_changes_ovn_only_under_its_claim id demo_run demo_switches demo_ovn_config demo_network_worker demo_turn
      demo_turn_quiet demo_net_created ∅ d' x' (Ok Completed) (demo_net_created_reachable id) Hrun Hne)
      as (d1 & claim & k & da & db & s & _ & _ & _ & _ & _ & Hlog & _).
    exists d', x', claim. split; [exact Hrun|]. split; [exact Hne|exact Hlog].
Defined.
