(* ===== verification/HostRuntime.v ===== *)
(** * agent/hostruntime/runtime.go and session/runner.go: the Agent's process

    What ties the generation ledger, the spool, the execution module and the
    Session Manager together: [Run] opens one session after another, puts the
    spool's backlog on the queue of each, and lets the three loops of a [Runner]
    drive it.  The loops are goroutines; they are interleaved at their critical
    sections, an [action] being one of them with what its environment answers.
    An action that does not start where its loop is does nothing. *)

From S2P Require Import Prelude GoStd GoJson OsFiles RecordDir Envelope PriorityQueue Authority Manager.
From S2P Require Import Backoff Ledger Journal Spool Contract ExecModule.
Local Open Scope Z_scope.
Local Open Scope go_scope.

Module Runtime.

(** ** Configuration *)

(** Of a [RuntimeComponent] only its place matters and whether it is nil: what
    its methods return belongs to the environment.  [StateMarker] is the
    statemarker backend over the state directory. *)
Record Config := MkConfig {
  HostID : string; ProtocolVersion : string; AgentArtifactDigest : string; CredentialBindingRevision : Z;
  VerifierDigest : string; StateDirectory : string; SpoolDirectory : string; JournalDirectory : string;
  GenerationDirectory : string; Adapter : option unit; cfg_QueueLimits : QueueLimits; SpoolMaxEntries : Z;
  SpoolMaxBytes : Z; FlushInterval : Z; ReconnectBackoff : Backoff; StateMarker : Exec.Backend;
  ExecutionBackends : list (option Exec.Backend); RuntimeComponents : list (option unit);
}.

Definition is_nil {A} (o : option A) : bool := match o with None => true | Some _ => false end.

(** [validate]; [Delay] does not outrun its fuel. *)
Definition validate (c : Config) : res unit :=
  fail_if ((HostID c ==s "") || (ProtocolVersion c ==s "") || (len (AgentArtifactDigest c) !=z 64)
           || (CredentialBindingRevision c <? 1) || (len (VerifierDigest c) !=z 64) || (StateDirectory c ==s "")
           || (SpoolDirectory c ==s "") || (JournalDirectory c ==s "") || (GenerationDirectory c ==s "")
           || is_nil (Adapter c) || (SpoolMaxEntries c <? 1) || (SpoolMaxBytes c <? 1) || (FlushInterval c <=? 0))
    (errors_New "complete bounded Host Agent runtime configuration is required");;
  match Delay (ReconnectBackoff c) 1 1 with
  | Some (Err err) => Err (Wrapf "invalid Host Agent reconnect backoff: %w" [] err)
  | _ => Ok tt
  end;;
  fail_if (existsb is_nil (ExecutionBackends c)) (errors_New "nil typed execution backend is not allowed");;
  fail_if (existsb is_nil (RuntimeComponents c)) (errors_New "nil Host Agent runtime component is not allowed").

(** [entropy], the argument of the delay before a reconnect; [waitReconnect],
    given whether the timer fires before the context ends *)
Definition entropy (hostID : string) (attempt : Z) : Z :=
  foldl (fun value c => Z.lxor (u64 (value * 1099511628211)) (byte_of c)) (u64 attempt) (list_ascii_of_string hostID).
Definition waitReconnect (backoff : Backoff) (attempt : Z) (hostID : string) (fires : bool) : bool :=
  match Delay backoff attempt (entropy hostID attempt) with
  | Some (Ok _) => fires
  | _ => false
  end.

(** [randomID], on the eight bytes [rand.Read] gives *)
Definition randomID (read : res bytes) : res string :=
  match read with
  | Ok buffer => Ok (hex_EncodeToString buffer)
  | Err err => Err (Wrapf "read connection identity entropy: %w" [] err)
  end.

(** ** A session and its three loops *)

(** The loop over [ReceiveAndRoute]: waiting for a message, or inside the
    [Publish] of the module's answer, before the spool or before the queue *)
Inductive inbound := Receiving | Spooling (e : Envelope) | Queueing (e : Envelope) | InboundEnded (err : goerr).
(** The flush loop: between two calls of [FlushOne], in [Send], or about to put
    a message back after an error *)
Inductive outbound :=
| Waiting | Sending (e : Envelope) | Requeueing (e : Envelope) (err : goerr) (sending : bool) | OutboundEnded (err : goerr).
(** The receipt loop, which a transport without receipts does not have *)
Inductive receipts := Listening | NoReceipts | ReceiptsEnded (err : goerr).

(** [lv_sent] and [lv_accepted] are history: the messages [Send] took and the
    receipts [HandleReceipt] returned nil for. *)
Record live := MkLive {
  lv_manager : Manager; lv_view : MemoryAuthorityView; lv_module : Exec.module; lv_journal_dir : dir;
  lv_spool : Spool.spool; lv_spool_dir : dir; lv_inbound : inbound; lv_outbound : outbound; lv_receipts : receipts;
  lv_sent : list Envelope; lv_accepted : list Receipt;
}.
#[export] Instance live_eta : Eta live := fun l =>
  MkLive (lv_manager l) (lv_view l) (lv_module l) (lv_journal_dir l) (lv_spool l) (lv_spool_dir l) (lv_inbound l)
    (lv_outbound l) (lv_receipts l) (lv_sent l) (lv_accepted l).

(** One critical section of a loop, with what it meets *)
Inductive action :=
| Receive (received : res Envelope) (prepare_os complete_os : os_env)
| SpoolMessage (os : os_env)
| QueueMessage
| TakeMessage
| SendMessage (sent : res unit)
| PutBack
| StopFlushing (cause : goerr)
| TakeReceipt (received : res Receipt) (cause : option goerr) (os : os_env).

(** What the Manager holds of the execution module: the call of its [Handle] is
    [receive]'s. *)
Definition manager_module (m : Exec.module) : Module := MkModule (Exec.Descriptor m) (fun _ => Ok tt).

Definition publishes (effects : list Exec.effect) : option Envelope :=
  match List.find (fun f => match f with Exec.Published _ _ => true | _ => false end) effects with
  | Some (Exec.Published e _) => Some e
  | _ => None
  end.

(** [ReceiveAndRoute], up to the module's [Publish] *)
Definition receive (received : res Envelope) (os1 os2 : os_env) (l : live) : live :=
  match ReceiveAndRoute (lv_manager l) (Snapshot (lv_view l)) received with
  | (Err err, _) => l <| lv_inbound := InboundEnded err |>
  | (Ok _, handled) =>
      match head handled with
      | None => l
      | Some (_, e) =>
          let '(m, d, effects, r) := Exec.Handle (fun _ => Ok tt) os1 os2 (lv_module l) (lv_journal_dir l) e in
          let l := l <| lv_module := m |> <| lv_journal_dir := d |> in
          match r, publishes effects with
          | Err err, _ => l <| lv_inbound := InboundEnded err |>
          | Ok _, Some message => l <| lv_inbound := Spooling message |>
          | Ok _, None => l
          end
      end
  end.

(** [durablePublisher.Publish], in its two parts and as one *)
Definition spool_message (os : os_env) (e : Envelope) (l : live) : live * res unit :=
  let '(s, d, _, r) := Spool.Enqueue os (lv_spool l) (lv_spool_dir l) e in
  (l <| lv_spool := s |> <| lv_spool_dir := d |>, r).
Definition queue_message (e : Envelope) (l : live) : live * res unit :=
  let '(m, r) := Publish (lv_manager l) (Snapshot (lv_view l)) e in (l <| lv_manager := m |>, r).
Definition durable_publish (os : os_env) (e : Envelope) (l : live) : live * res unit :=
  match spool_message os e l with
  | (l, Err err) => (l, Err err)
  | (l, Ok _) => queue_message e l
  end.

(** [FlushOne], in its three parts *)
Definition take_message (l : live) : live :=
  let m := lv_manager l in
  match connection m with
  | None => l <| lv_outbound := OutboundEnded ErrSessionNotOpen |>
  | Some _ =>
      match Dequeue (queue m) with
      | (q, None) => l <| lv_manager := with_queue m q |>
      | (q, Some e) =>
          let l := l <| lv_manager := with_queue m q |> in
          match validateCurrent m (Snapshot (lv_view l)) e with
          | Err err => l <| lv_outbound := Requeueing e err false |>
          | Ok _ => l <| lv_outbound := Sending e |>
          end
      end
  end.
Definition send_message (e : Envelope) (sent : res unit) (l : live) : live :=
  match sent with
  | Ok _ => l <| lv_outbound := Waiting |> <| lv_sent ::= fun sent => sent ++ [e] |>
  | Err err => l <| lv_outbound := Requeueing e err true |>
  end.
Definition put_back (e : Envelope) (err : goerr) (sending : bool) (l : live) : live :=
  let m := lv_manager l in
  match Enqueue (queue m) e with
  | Ok q => l <| lv_manager := with_queue m q |> <| lv_outbound := OutboundEnded err |>
  | Err queueErr => l <| lv_outbound := OutboundEnded (if sending then ErrJoin err queueErr else err) |>
  end.

(** [ReceiveReceipt] and [HandleReceipt] *)
Definition take_receipt (received : res Receipt) (cause : option goerr) (os : os_env) (l : live) : live :=
  match received with
  | Err err => l <| lv_receipts := ReceiptsEnded err |>
  | Ok receipt =>
      let '(s, d, _, r) := Spool.HandleReceipt os cause (lv_spool l) (lv_spool_dir l) receipt in
      let l := l <| lv_spool := s |> <| lv_spool_dir := d |> in
      match r with
      | Err err => l <| lv_receipts := ReceiptsEnded err |>
      | Ok _ => l <| lv_accepted ::= fun rs => rs ++ [receipt] |>
      end
  end.

Definition step (l : live) (a : action) : live :=
  match a with
  | Receive received os1 os2 => match lv_inbound l with Receiving => receive received os1 os2 l | _ => l end
  | SpoolMessage os =>
      match lv_inbound l with
      | Spooling e =>
          match spool_message os e l with
          | (l, Ok _) => l <| lv_inbound := Queueing e |>
          | (l, Err err) => l <| lv_inbound := InboundEnded err |>
          end
      | _ => l
      end
  | QueueMessage =>
      match lv_inbound l with
      | Queueing e =>
          match queue_message e l with
          | (l, Ok _) => l <| lv_inbound := Receiving |>
          | (l, Err err) => l <| lv_inbound := InboundEnded err |>
          end
      | _ => l
      end
  | TakeMessage => match lv_outbound l with Waiting => take_message l | _ => l end
  | SendMessage sent => match lv_outbound l with Sending e => send_message e sent l | _ => l end
  | PutBack => match lv_outbound l with Requeueing e err sending => put_back e err sending l | _ => l end
  | StopFlushing cause => match lv_outbound l with Waiting => l <| lv_outbound := OutboundEnded cause |> | _ => l end
  | TakeReceipt received cause os => match lv_receipts l with Listening => take_receipt received cause os l | _ => l end
  end.
Definition drive (l : live) (actions : list action) : live := foldl step l actions.

(** [group.Wait] returns once every loop has ended. *)
Definition ended (l : live) : bool :=
  match lv_inbound l, lv_outbound l, lv_receipts l with
  | InboundEnded _, OutboundEnded _, (ReceiptsEnded _ | NoReceipts) => true
  | _, _, _ => false
  end.

(** [Runner.Run], up to its loops; the receipt handler is the spool. *)
Definition start_runner (flushInterval : Z) (receiptCapable : bool) (l : live) : res live :=
  fail_if (flushInterval <=? 0) (errors_New "Agent session runner requires Manager and positive flush interval");;
  match connection (lv_manager l) with
  | None => Err ErrSessionNotOpen
  | Some _ =>
      Ok (l <| lv_inbound := Receiving |> <| lv_outbound := Waiting |>
            <| lv_receipts := if receiptCapable then Listening else NoReceipts |>)
  end.

(** The backlog: every message of the spool, for this session *)
Fixpoint replay_all (m : Manager) (view : MemoryAuthorityView) (g : Z) (pending : list Envelope) : Manager * res unit :=
  match pending with
  | [] => (m, Ok tt)
  | e :: pending =>
      match Publish m (Snapshot view) (BindSession e g) with
      | (m, Err err) => (m, Err err)
      | (m, Ok _) => replay_all m view g pending
      end
  end.
Definition replay (m : Manager) (view : MemoryAuthorityView) (g : Z) (s : Spool.spool) : Manager * res unit :=
  match Spool.Pending s with
  | Err err => (m, Err err)
  | Ok pending => replay_all m view g pending
  end.

(** ** The process *)

(** What the process does that others see *)
Inductive event :=
| StartComponent (i : nat) | CloseComponent (i : nat) | Activate (i : nat) (g : Z) | Deactivate (i : nat) (g : Z)
| Dial (hs : Handshake) | Sent (e : Envelope) | Answered (receipt : Receipt) | Hangup.

Record disk := MkDisk { generation_dir : dir; spool_dir : dir; journal_dir : dir }.
Record runtime := MkRuntime {
  generationLedger : Ledger.ledger; durableSpool : Spool.spool; executionJournal : Journal.journal; on_disk : disk;
  attempt : Z;
}.
#[export] Instance runtime_eta : Eta runtime := fun rt =>
  MkRuntime (generationLedger rt) (durableSpool rt) (executionJournal rt) (on_disk rt) (attempt rt).

(** What opening the durable state meets *)
Record open_env := MkOpenEnv {
  oe_ledger_setup : res unit; oe_ledger_read : res unit; oe_spool : os_env; oe_spool_setup : res unit;
  oe_journal_setup : res unit; oe_journal_read : res unit;
}.
Definition wrapped {A} (what : string) (r : res A) : res A :=
  match r with Ok a => Ok a | Err err => Err (Wrapf what [] err) end.
Definition open_state (c : Config) (env : open_env) (k : disk) : disk * res runtime :=
  match validate c with
  | Err err => (k, Err err)
  | Ok _ =>
      match wrapped "open Agent session generation ledger: %w"
              (Ledger.Open (GenerationDirectory c) (HostID c) (oe_ledger_setup env) (oe_ledger_read env) (generation_dir k)) with
      | Err err => (k, Err err)
      | Ok ledger =>
          let '(d, _, opened) :=
            Spool.Open (oe_spool env)
              (Spool.MkConfig (SpoolDirectory c) (HostID c) (SpoolMaxEntries c) (SpoolMaxBytes c)
                 (MaxMessageBytes (cfg_QueueLimits c))) (oe_spool_setup env) (spool_dir k) [] in
          let k := MkDisk (generation_dir k) d (journal_dir k) in
          (k, spool ← wrapped "open Agent durable spool: %w" opened;
              journal ← wrapped "open Agent execution journal: %w"
                (Journal.Open (JournalDirectory c) (HostID c) (oe_journal_setup env) (oe_journal_read env) (journal_dir k));
              Ok (MkRuntime ledger spool journal k 1))
      end
  end.

(** Components, by place: all started in order, or an error after the first
    that fails; a list of places *)
Fixpoint until_error (answers : nat -> res unit) (i : nat) (places : nat) : nat * res unit :=
  match places with
  | O => (i, Ok tt)
  | S places => match answers i with Err err => (i, Err err) | Ok _ => until_error answers (S i) places end
  end.
Definition start_components (c : Config) (answers : nat -> res unit) : list event * nat * res unit :=
  let '(n, r) := until_error answers 0 (length (RuntimeComponents c)) in
  (StartComponent <$> seq 0 (if is_Ok r then n else S n), n,
   match r with Ok _ => Ok tt | Err err => Err (Wrapf "start Host Agent runtime component: %w" [] err) end).
Definition activate_components (c : Config) (g : Z) (answers : nat -> res unit) : list event * res unit :=
  match until_error answers 0 (length (RuntimeComponents c)) with
  | (n, Ok _) => ((fun i => Activate i g) <$> seq 0 n, Ok tt)
  | (n, Err err) =>
      (((fun i => Activate i g) <$> seq 0 (S n)) ++ ((fun i => Deactivate i g) <$> rev (seq 0 n)),
       Err (Wrapf "activate Host Agent runtime component: %w" [] err))
  end.

(** What one turn of the loop meets *)
Record turn_env := MkTurn {
  tn_cancelled : bool; tn_session_nonce : res bytes; tn_connection_nonce : res bytes; tn_opened : res conn;
  tn_activated : nat -> res unit; tn_commit : os_env; tn_receipt_capable : bool; tn_actions : list action;
  tn_cancelled_after : bool; tn_fires : bool;
}.

(** A new session: its handshake, its Manager and its execution module *)
Definition handshake_of (c : Config) (g : Z) (sessionNonce connectionNonce : string) : Handshake :=
  MkHandshake (HostID c) g (ProtocolVersion c) []
    (HostID c ++ "-session-" ++ FormatUint g ++ "-" ++ sessionNonce)%string
    (HostID c ++ "-connection-" ++ FormatUint g ++ "-" ++ connectionNonce)%string (AgentArtifactDigest c)
    (CredentialBindingRevision c).
Definition register_all (m : Exec.module) (backends : list (option Exec.Backend)) : res Exec.module :=
  foldM Exec.RegisterBackend backends m.
Definition new_session (c : Config) (rt : runtime) (env : turn_env) :
    res (Z * Manager * MemoryAuthorityView * Exec.module) :=
  generation ← Ledger.Next (generationLedger rt);
  queue ← NewPriorityQueue (cfg_QueueLimits c);
  sessionNonce ← randomID (tn_session_nonce env);
  connectionNonce ← randomID (tn_connection_nonce env);
  '(manager, view) ← NewManager (handshake_of c generation sessionNonce connectionNonce) (Adapter c) (Some queue);
  module ← Exec.NewModule (HostID c) (Some (executionJournal rt)) (Some (fun _ => Ok tt)) (VerifierDigest c);
  module ← register_all module (Some (StateMarker c) :: ExecutionBackends c);
  manager ← RegisterModule manager (Some (manager_module module));
  Ok (generation, manager, view, module).

(** How a turn ends: with another one, with [Run] returning, or not yet *)
Inductive verdict := Again | Returned (r : res unit) | Running (l : live).

Definition wait (c : Config) (env : turn_env) (rt : runtime) (events : list event) (next : Z) : list event * runtime * verdict :=
  if waitReconnect (ReconnectBackoff c) (attempt rt) (HostID c) (tn_fires env)
  then (events, rt <| attempt := next |>, Again) else (events, rt, Returned (Ok tt)).

(** The session after [Open], up to [manager.Close]; [inr] when it goes on *)
Definition run_session (c : Config) (env : turn_env) (rt : runtime) (g : Z) (m : Manager) (view : MemoryAuthorityView)
    (module : Exec.module) : list event * (runtime + live) :=
  let k := on_disk rt in
  let l := MkLive m view module (journal_dir k) (durableSpool rt) (spool_dir k) Receiving Waiting NoReceipts [] [] in
  match replay m view g (durableSpool rt) with
  | (m, Err _) => ([], inl rt)
  | (m, Ok _) =>
      match start_runner (FlushInterval c) (tn_receipt_capable env) (l <| lv_manager := m |>) with
      | Err _ => ([], inl rt)
      | Ok l =>
          let l := drive l (tn_actions env) in
          let events := (Sent <$> lv_sent l) ++ (Answered <$> lv_accepted l) in
          if ended l
          then (events, inl (rt <| durableSpool := lv_spool l |> <| executionJournal := Exec.journal (lv_module l) |>
                               <| on_disk := MkDisk (generation_dir k) (lv_spool_dir l) (lv_journal_dir l) |>))
          else (events, inr l)
      end
  end.

(** One turn of the loop of [Run] *)
Definition turn (c : Config) (rt : runtime) (env : turn_env) : list event * runtime * verdict :=
  if tn_cancelled env then ([], rt, Returned (Ok tt)) else
  match new_session c rt env with
  | Err err => ([], rt, Returned (Err err))
  | Ok (g, manager, view, module) =>
      match Open manager (Snapshot view) (tn_opened env) with
      | (manager, Err _) => wait c env rt [Dial (handshake manager)] (i64 (attempt rt + 1))
      | (manager, Ok _) =>
          let dial := [Dial (handshake manager)] in
          let '(activated, r) := activate_components c g (tn_activated env) in
          match r with
          | Err err => (dial ++ activated ++ [Hangup], rt, Returned (Err err))
          | Ok _ =>
              let '(ledger, d, _, committed) := Ledger.CommitAccepted (tn_commit env) (generationLedger rt) (generation_dir (on_disk rt)) g in
              let rt := rt <| generationLedger := ledger |>
                           <| on_disk := MkDisk d (spool_dir (on_disk rt)) (journal_dir (on_disk rt)) |> in
              match committed with
              | Err err => (dial ++ activated ++ [Hangup], rt, Returned (Err err))
              | Ok _ =>
                  match run_session c env rt g manager view module with
                  | (events, inr l) => (dial ++ activated ++ events, rt, Running l)
                  | (events, inl rt) =>
                      let events := dial ++ activated ++ events
                        ++ ((fun i => Deactivate i g) <$> seq 0 (length (RuntimeComponents c))) ++ [Hangup] in
                      if tn_cancelled_after env then (events, rt, Returned (Ok tt))
                      else wait c env (rt <| attempt := 1 |>) events 1
                  end
              end
          end
      end
  end.

(** The loop, for as many turns as there are environments *)
Fixpoint turns (c : Config) (rt : runtime) (envs : list turn_env) : list event * runtime * verdict :=
  match envs with
  | [] => ([], rt, Again)
  | env :: envs =>
      match turn c rt env with
      | (events, rt, Again) => let '(more, rt, v) := turns c rt envs in (events ++ more, rt, v)
      | done => done
      end
  end.

(** [Run]: the durable state is opened, the components started, and at the end
    those that started closed in reverse *)
Definition Run (c : Config) (opened : open_env) (started : nat -> res unit) (envs : list turn_env) (k : disk) :
    list event * disk * verdict :=
  match open_state c opened k with
  | (k, Err err) => ([], k, Returned (Err err))
  | (k, Ok rt) =>
      let '(starts, n, r) := start_components c started in
      let closes := CloseComponent <$> rev (seq 0 n) in
      match r with
      | Err err => (starts ++ closes, k, Returned (Err err))
      | Ok _ =>
          match turns c rt envs with
          | (events, rt, Returned r) => (starts ++ events ++ closes, on_disk rt, Returned r)
          | (events, rt, Running l) =>
              (starts ++ events, MkDisk (generation_dir (on_disk rt)) (lv_spool_dir l) (lv_journal_dir l), Running l)
          | (events, rt, Again) => (starts ++ events, on_disk rt, Again)
          end
      end
  end.
End Runtime.
