(* ===== verification/HostRuntimeProofs.v ===== *)
(** * What the Agent's process promises of its messages

    A message is sent in the session that was dialled for it, out of the spool,
    and stays there until an ACCEPTED receipt for it; a session that is answered
    empties the spool; a backlog the queue cannot take ends every session before
    it begins. *)

From S2P Require Import Prelude GoStd GoJson OsFiles RecordDir Envelope PriorityQueue Authority Manager.
From S2P Require Import Backoff Ledger Journal Spool Contract ExecModule HostRuntime.
Local Open Scope Z_scope.
Local Open Scope go_scope.

Module RuntimeFacts.
Import Runtime.

(** ** The spool behind a session *)

Definition released (rs : list Receipt) (e : Envelope) : Prop :=
  exists r, r ∈ rs /\ rcpt_Disposition r = "ACCEPTED"%string /\ identifies r e.
Definition kept (s : Spool.spool) (e : Envelope) : Prop :=
  exists item, Spool.entries s !! MessageID e = Some item /\ Spool.sameMessage (Spool.envelope item) e = true.
(** Entries are found under the id of their message. *)
Definition keyed (s : Spool.spool) : Prop :=
  forall id item, Spool.entries s !! id = Some item -> Spool.key_of item = id.
(** What [s] held is in [s'], or was released. *)
Definition carried (rs : list Receipt) (s s' : Spool.spool) : Prop := forall id item,
  Spool.entries s !! id = Some item -> Spool.entries s' !! id = Some item \/ released rs (Spool.envelope item).

Lemma released_mono rs rs' e : rs ⊆ rs' -> released rs e -> released rs' e.
Proof. intros H (r & Hin & Hr). exists r. split; [by apply H|done]. Qed.

Lemma sameMessage_identifies r e e' : Spool.sameMessage e e' = true -> identifies r e -> identifies r e'.
Proof.
  unfold Spool.sameMessage, identifies. intros H (-> & -> & -> & -> & -> & ->). bools.
  by split_and!.
Qed.

Lemma carried_kept rs s s' e : carried rs s s' -> kept s e -> kept s' e \/ released rs e.
Proof.
  intros Hc (item & Hi & Hs). destruct (Hc _ _ Hi) as [H|(r & Hin & Hd & Hr)]; [left; by exists item|].
  right. exists r. eauto using sameMessage_identifies.
Qed.

Lemma carried_refl rs s : carried rs s s.
Proof. intros id item. auto. Qed.

Lemma carried_trans rs s1 s2 s3 : carried rs s1 s2 -> carried rs s2 s3 -> carried rs s1 s3.
Proof. intros H1 H2 id item Hi. destruct (H1 _ _ Hi); auto. Qed.

Lemma carried_mono rs rs' s s' : rs ⊆ rs' -> carried rs s s' -> carried rs' s s'.
Proof. intros Hr H id item Hi. destruct (H _ _ Hi); [auto|right; by eapply released_mono]. Qed.

(** An operation that fails leaves the memory alone. *)
Lemma run_error os s d o s' d' tr err : Spool.run os s d o = (s', d', tr, Err err) -> s' = s.
Proof.
  destruct o as [e|cause receipt]; cbn [Spool.run].
  - unfold Spool.Enqueue. destruct (Validate _ _); [|by intros [= <- _ _ _]]. destruct (_ !=s _); [by intros [= <- _ _ _]|].
    destruct (Spool.closed s); [by intros [= <- _ _ _]|].
    destruct (_ !! _); [destruct (Spool.sameMessage _ _); [done|by intros [= <- _ _ _]]|].
    destruct (_ || _); [by intros [= <- _ _ _]|].
    destruct (Spool.writeNewAtomic _ _ _ _ _) as [[? ?] [?|?]]; [done|by intros [= <- _ _ _]].
  - unfold Spool.HandleReceipt, Spool.Acknowledge. destruct cause; [by intros [= <- _ _ _]|].
    destruct (Spool.closed s); [cbn; by intros [= <- _ _ _]|]. destruct (_ !! _); [|by intros [= <- _ _ _]].
    destruct (ValidateFor _ _); [|destruct (errors_Is _ _); [done|by intros [= <- _ _ _]]].
    destruct (_ !=s _); [destruct (errors_Is _ _); [done|by intros [= <- _ _ _]]|].
    destruct (io_bind _ _ _ _) as [[? ?] [?|?]]; [done|]. destruct (errors_Is _ _); [done|by intros [= <- _ _ _]].
Qed.

Lemma run_spool os s d o s' d' tr r : keyed s -> Spool.run os s d o = (s', d', tr, r) ->
  keyed s' /\ Spool.closed s' = Spool.closed s
  /\ carried (match o, r with Spool.OpReceipt _ receipt, Ok _ => [receipt] | _, _ => [] end) s s'.
Proof.
  intros Hk H. pose proof (Spool.run_entries os s d o) as He. pose proof (run_error os s d o s' d' tr) as Herr. rewrite H in He, Herr.
  destruct He as [->|[(e & -> & -> & Hnone & _)|(cause & receipt & item & -> & -> & Hi & Ha & Hid)]].
  - split; [done|]. split; [done|apply carried_refl].
  - split; [|split; [done|]].
    + intros id item. cbn. rewrite lookup_insert_Some. intros [[<- <-]|[_ Hi]]; [done|by apply Hk].
    + intros id item Hi. left. cbn. rewrite lookup_insert_ne; [done|]. intros <-. congruence.
  - split; [|split; [done|]].
    + intros id item'. cbn. rewrite lookup_delete_Some. intros [_ Hi']. by apply Hk.
    + intros id item' Hi'. cbn. destruct (decide (rcpt_MessageID receipt = id)) as [<-|Hne]; [|left; by rewrite lookup_delete_ne].
      right. simplify_eq. destruct r as [u|err]; [exists receipt; split; [by left|done]|].
      specialize (Herr _ eq_refl). apply (f_equal (fun s => Spool.entries s !! rcpt_MessageID receipt)) in Herr.
      cbn in Herr. by rewrite lookup_delete_eq, Hi in Herr.
Qed.

Lemma Enqueue_kept os s d e s' d' tr : Spool.Enqueue os s d e = (s', d', tr, Ok tt) -> kept s' e.
Proof.
  unfold Spool.Enqueue. destruct (Validate _ _); [|done]. destruct (_ !=s _); [done|]. destruct (Spool.closed s); [done|].
  destruct (_ !! _) as [existing|] eqn:E.
  - destruct (Spool.sameMessage _ _) eqn:Es; [|done]. intros [= <- _ _]. by exists existing.
  - destruct (_ || _); [done|]. destruct (Spool.writeNewAtomic _ _ _ _ _) as [[? ?] [?|?]]; [|done]. intros [= <- _ _].
    eexists. cbn. rewrite lookup_insert_eq. split; [done|]. apply Spool.sameMessage_refl.
Qed.
(** ** One step of the loops *)

Lemma step_carried l a : keyed (lv_spool l) -> let l' := step l a in
  keyed (lv_spool l') /\ lv_accepted l ⊆ lv_accepted l' /\ carried (lv_accepted l') (lv_spool l) (lv_spool l')
  /\ lv_view l' = lv_view l.
Proof.
  intros Hk. pose proof (fun rs => carried_refl rs (lv_spool l)) as Hrefl.
  destruct a as [received os1 os2|os| |  |sent| |cause|received cause os]; cbn [step].
  - destruct (lv_inbound l); try by split_and!. unfold receive.
    destruct (ReceiveAndRoute _ _ _) as [[u|err] handled]; [|by split_and!].
    destruct (head handled) as [[name e]|]; [|by split_and!].
    destruct (Exec.Handle _ _ _ _ _ _) as [[[m d] effects] r].
    destruct r; [|by split_and!]. by destruct (publishes effects); split_and!.
  - destruct (lv_inbound l); try by split_and!. unfold spool_message.
    destruct (Spool.Enqueue _ _ _ _) as [[[s d] tr] r] eqn:E.
    destruct (run_spool os _ _ (Spool.OpEnqueue _) _ _ _ _ Hk E) as (Hk' & _ & Hc).
    destruct r; split_and!; try done; (eapply carried_mono; [|exact Hc]; apply list_subseteq_nil).
  - destruct (lv_inbound l); try by split_and!. unfold queue_message.
    destruct (Publish _ _ _) as [m [u|err]]; by split_and!.
  - destruct (lv_outbound l); try by split_and!. unfold take_message. destruct (connection _); [|by split_and!].
    destruct (Dequeue _) as [q [e|]]; [|by split_and!]. by destruct (validateCurrent _ _ _); split_and!.
  - destruct (lv_outbound l); try by split_and!. by destruct sent; split_and!.
  - destruct (lv_outbound l); try by split_and!. unfold put_back. by destruct (Enqueue _ _); split_and!.
  - by destruct (lv_outbound l); split_and!.
  - destruct (lv_receipts l); try by split_and!. unfold take_receipt. destruct received as [receipt|err]; [|by split_and!].
    destruct (Spool.HandleReceipt _ _ _ _ _) as [[[s d] tr] r] eqn:E.
    destruct (run_spool os _ _ (Spool.OpReceipt _ _) _ _ _ _ Hk E) as (Hk' & _ & Hc).
    destruct r as [u|err]; split_and!; try done; cbn.
    + intros x Hx. apply elem_of_app. by left.
    + eapply carried_mono; [|exact Hc]. intros x Hx. apply elem_of_app. by right.
    + eapply carried_mono; [|exact Hc]. apply list_subseteq_nil.
Qed.

(** A message of this session, in the spool or released *)
Record owned (host : string) (g : Z) (l : live) (e : Envelope) : Prop := MkOwned {
  own_host : HostIdentity e = host;
  own_generation : SessionGeneration e = g;
  own_durable : kept (lv_spool l) e \/ released (lv_accepted l) e;
}.
(** What a session keeps true: every message on its queue, in its hands or sent
    is its own. *)
Record session_ok (host : string) (g : Z) (l : live) : Prop := MkSession {
  ss_view : Snapshot (lv_view l) = MkSnapshot host g AuthorityCurrent;
  ss_keyed : keyed (lv_spool l);
  ss_queued s e : e ∈ lane (queue (lv_manager l)) s -> owned host g l e;
  ss_inbound : match lv_inbound l with Queueing e => kept (lv_spool l) e \/ released (lv_accepted l) e | _ => True end;
  ss_outbound : match lv_outbound l with Sending e | Requeueing e _ _ => owned host g l e | _ => True end;
  ss_sent e : e ∈ lv_sent l -> owned host g l e;
}.

Lemma owned_carried host g l l' e : carried (lv_accepted l') (lv_spool l) (lv_spool l') -> lv_accepted l ⊆ lv_accepted l' ->
  owned host g l e -> owned host g l' e.
Proof.
  intros Hc Ha [Hh Hg [Hk|Hr]]; split; try done; [by eapply carried_kept|right; by eapply released_mono].
Qed.

Lemma Enqueue_members q e q' s x : Enqueue q e = Ok q' -> x ∈ lane q' s -> x ∈ lane q s \/ x = e.
Proof.
  intros E. rewrite (Enqueue_lane _ _ _ s E). intros [Hx|Hx]%elem_of_app; [by left|right].
  unfold of_stream in Hx. apply list_elem_of_In, filter_In in Hx as [[->|[]] _]. done.
Qed.

Lemma Dequeue_members q : (forall s x, x ∈ lane (fst (Dequeue q)) s -> x ∈ lane q s)
  /\ forall e, snd (Dequeue q) = Some e -> exists s, e ∈ lane q s.
Proof.
  destruct (Dequeue_cases q) as [s q1 e _ Hp _ _|s q1 e _ Hp _ _|_]; cbn [fst snd]; [| |done].
  all: destruct Hp as (tail & El & Hl & _); split;
    [|intros e' [= ->]; exists s; rewrite El; by left].
  all: intros s' x; rewrite lane_set_consecutive, Hl; case_decide as Hs; [|done]; subst; rewrite El; by right.
Qed.

Lemma granted m host g e : validateCurrent m (MkSnapshot host g AuthorityCurrent) e = Ok tt ->
  HostIdentity e = host /\ SessionGeneration e = g.
Proof.
  unfold validateCurrent. intros H. run_guards. destruct a. apply validateAuthority_iff in Hr. cbn in Hr. tauto.
Qed.

(** What an action has to show: the messages it moves were owned already. *)
Lemma session_follow host g l l' : session_ok host g l ->
  keyed (lv_spool l') /\ lv_accepted l ⊆ lv_accepted l' /\ carried (lv_accepted l') (lv_spool l) (lv_spool l')
  /\ lv_view l' = lv_view l ->
  (forall s e, e ∈ lane (queue (lv_manager l')) s -> e ∈ lane (queue (lv_manager l)) s \/ owned host g l e) ->
  lv_inbound l' = lv_inbound l \/ match lv_inbound l' with Queueing e => kept (lv_spool l') e | _ => True end ->
  lv_outbound l' = lv_outbound l \/ match lv_outbound l' with Sending e | Requeueing e _ _ => owned host g l e | _ => True end ->
  (forall e, e ∈ lv_sent l' -> e ∈ lv_sent l \/ owned host g l e) ->
  session_ok host g l'.
Proof.
  intros [Hv Hk Hq Hi Ho Hs] (Hk' & Ha & Hc & Hv') Hq' Hi' Ho' Hs'.
  assert (forall e, owned host g l e -> owned host g l' e) as Hown by (intros e; by apply owned_carried).
  split; [by rewrite Hv'|done| | | |].
  - intros s e Hin. destruct (Hq' s e Hin); eauto.
  - destruct Hi' as [->|Hi']; [|destruct (lv_inbound l'); auto].
    destruct (lv_inbound l) as [| |e|]; try done. destruct Hi as [H|H]; [by eapply carried_kept|right; by eapply released_mono].
  - destruct Ho' as [->|Ho']; [destruct (lv_outbound l)|destruct (lv_outbound l')]; auto.
  - intros e Hin. destruct (Hs' e Hin); eauto.
Qed.

Ltac followed l := intros G; apply (session_follow _ _ l); [assumption|exact G|..]; cbn -[lane]; auto.

Lemma step_ok host g l a : session_ok host g l -> session_ok host g (step l a).
Proof.
  intros S. pose proof S as [Hv Hk Hq Hi Ho Hs]. pose proof (step_carried l a Hk) as G. revert G.
  destruct a as [received os1 os2|os| | |sent| |cause|received cause os]; cbn [step].
  - destruct (lv_inbound l) eqn:Ei; try (intros _; exact S). unfold receive.
    destruct (ReceiveAndRoute _ _ _) as [[u|err] handled]; [|followed l].
    destruct (head handled) as [[name e]|]; [|intros _; exact S]. destruct (Exec.Handle _ _ _ _ _ _) as [[[m d] effects] r].
    destruct r; [destruct (publishes effects)|]; followed l.
  - destruct (lv_inbound l) eqn:Ei; try (intros _; exact S). unfold spool_message.
    destruct (Spool.Enqueue _ _ _ _) as [[[s d] tr] [[]|err]] eqn:E; followed l.
    right. by eapply Enqueue_kept.
  - destruct (lv_inbound l) as [| |e|] eqn:Ei; try (intros _; exact S). unfold queue_message, Publish.
    destruct (validateCurrent _ _ _) as [u|err] eqn:Ev; [destruct u|followed l].
    rewrite Hv in Ev. apply granted in Ev as [Hh Hg].
    destruct (Enqueue _ _) as [q|err] eqn:E; followed l.
    intros s x Hx. destruct (Enqueue_members _ _ _ _ _ E Hx) as [?| ->]; [by left|right; by split].
  - destruct (lv_outbound l) eqn:Eo; try (intros _; exact S). unfold take_message.
    destruct (connection _); [|followed l].
    pose proof (Dequeue_members (queue (lv_manager l))) as [Hrest Htaken].
    destruct (Dequeue _) as [q [e|]]; cbn [fst snd] in *; [|followed l].
    destruct (Htaken e eq_refl) as [s He].
    destruct (validateCurrent _ _ _); followed l; eauto.
  - destruct (lv_outbound l) as [|e| |] eqn:Eo; try (intros _; exact S).
    destruct sent; followed l.
    intros x [Hx|Hx]%elem_of_app; [by left|right]. apply list_elem_of_singleton in Hx as ->. done.
  - destruct (lv_outbound l) as [| |e err sending|] eqn:Eo; try (intros _; exact S). unfold put_back.
    destruct (Enqueue _ _) as [q|err'] eqn:E; followed l.
    intros s x Hx. destruct (Enqueue_members _ _ _ _ _ E Hx) as [?| ->]; [by left|by right].
  - destruct (lv_outbound l); try (intros _; exact S); followed l.
  - destruct (lv_receipts l); try (intros _; exact S). unfold take_receipt.
    destruct received as [receipt|err]; [|followed l].
    destruct (Spool.HandleReceipt _ _ _ _ _) as [[[s d] tr] [u|err]]; followed l.
Qed.

Lemma drive_ok host g actions : forall l, session_ok host g l -> let l' := drive l actions in
  session_ok host g l' /\ lv_accepted l ⊆ lv_accepted l' /\ carried (lv_accepted l') (lv_spool l) (lv_spool l').
Proof.
  induction actions as [|a actions IH]; intros l S; [split_and!; try done; apply carried_refl|].
  destruct (step_carried l a (ss_keyed _ _ _ S)) as (_ & Ha & Hc & _).
  destruct (IH _ (step_ok host g l a S)) as (S' & Ha' & Hc'). cbn. split_and!; [done|by etrans|].
  eapply carried_trans; [by eapply carried_mono|done].
Qed.

(** ** From one session to the next *)

Lemma RegisterModule_keeps m module m' : RegisterModule m module = Ok m' ->
  queue m' = queue m /\ hs_SessionGeneration (handshake m') = hs_SessionGeneration (handshake m)
  /\ hs_HostIdentity (handshake m') = hs_HostIdentity (handshake m) /\ connection m' = connection m /\ opening m' = opening m.
Proof.
  unfold RegisterModule. destruct module; [|done]. intros H.
  repeat (apply bind_Ok_inv in H as (? & _ & H)). by injection H as <-.
Qed.

Lemma new_session_inv c rt env g m view module : new_session c rt env = Ok (g, m, view, module) ->
  Ledger.Next (generationLedger rt) = Ok g /\ Snapshot view = MkSnapshot (HostID c) g AuthorityCurrent
  /\ queue m = MkQueue (cfg_QueueLimits c) ∅ 0 0 0 0 0 /\ hs_SessionGeneration (handshake m) = g /\ g <> 0
  /\ hs_HostIdentity (handshake m) = HostID c /\ connection m = None /\ opening m = false.
Proof.
  unfold new_session. intros H.
  apply bind_Ok_inv in H as (g' & Hg & H). apply bind_Ok_inv in H as (q & Hq & H).
  apply bind_Ok_inv in H as (n1 & _ & H). apply bind_Ok_inv in H as (n2 & _ & H).
  apply bind_Ok_inv in H as ([m0 view0] & Hm & H). apply bind_Ok_inv in H as (e1 & _ & H).
  apply bind_Ok_inv in H as (e2 & _ & H). apply bind_Ok_inv in H as (m1 & Hr & H). injection H as <- <- <- <-.
  apply RegisterModule_keeps in Hr as (-> & -> & -> & -> & ->).
  assert (q = MkQueue (cfg_QueueLimits c) ∅ 0 0 0 0 0) as ->.
  { unfold NewPriorityQueue in Hq. repeat (apply bind_Ok_inv in Hq as (? & _ & Hq)).
    destruct (List.find _ _); [done|by injection Hq as <-]. }
  unfold NewManager, NewManagerWithAuthority, NewMemoryAuthorityView in Hm.
  apply bind_Ok_inv in Hm as (v & Hv & Hm). apply bind_Ok_inv in Hv as (u & Hz & Hv). injection Hv as <-.
  apply fail_if_Ok_inv in Hz. apply orb_false_elim in Hz as [_ Hz]. bools.
  apply bind_Ok_inv in Hm as (m2 & Hm2 & Hm). injection Hm as <- <-.
  apply bind_Ok_inv in Hm2 as (? & _ & Hm2). destruct (Adapter c); [|done]. injection Hm2 as <-. done.
Qed.

Lemma Open_keeps m current opened m' r : Open m current opened = (m', r) ->
  queue m' = queue m /\ handshake m' = handshake m /\ (r = Ok tt -> exists k, connection m' = Some k).
Proof.
  unfold Open, open_begin. destruct (fail_if _ _); cbn; [|by intros [= <- <-]].
  destruct (validateAuthority _ _ _); [|by intros [= <- <-]]. destruct opened; cbn; intros [= <- <-]; split_and!; try done. eauto.
Qed.

Lemma replay_all_members view g host pending : Snapshot view = MkSnapshot host g AuthorityCurrent -> forall m m' r,
  replay_all m view g pending = (m', r) -> forall s x, x ∈ lane (queue m') s ->
  x ∈ lane (queue m) s \/ HostIdentity x = host /\ SessionGeneration x = g /\ exists e, e ∈ pending /\ x = BindSession e g.
Proof.
  intros Hv. induction pending as [|e pending IH]; cbn [replay_all]; intros m m' r; [by intros [= <- _]; left|].
  unfold Publish at 1. destruct (validateCurrent _ _ _) as [u|err] eqn:Ev; [destruct u|by intros [= <- _]; left].
  rewrite Hv in Ev. apply granted in Ev. destruct (Enqueue _ _) as [q|err] eqn:E; [|by intros [= <- _]; left].
  intros H s x Hx. destruct (IH _ _ _ H s x Hx) as [Hin|(Hh & Hg & e' & He' & ->)].
  - destruct (Enqueue_members _ _ _ _ _ E Hin) as [?| ->]; [by left|right]. split_and!; try apply Ev.
    exists e. split; [by left|done].
  - right. split_and!; try done. exists e'. split; [by right|done].
Qed.

(** The receipts a run answered *)
Definition answers (events : list event) : list Receipt :=
  omap (fun ev => match ev with Answered r => Some r | _ => None end) events.
Definition spool_of (out : runtime + live) : Spool.spool :=
  match out with inl rt => durableSpool rt | inr l => lv_spool l end.

Lemma answers_none {A} (f : A -> event) l : (forall x r, f x <> Answered r) -> answers (f <$> l) = [].
Proof.
  intros H. induction l as [|x l IH]; [done|]. cbn. destruct (f x) eqn:E; try exact IH. by apply H in E.
Qed.
Lemma answers_app l1 l2 : answers (l1 ++ l2) = answers l1 ++ answers l2.
Proof. apply omap_app. Qed.
Lemma answers_Answered l : answers (Answered <$> l) = l.
Proof. induction l as [|r l IH]; [done|]. cbn. by f_equal. Qed.

Lemma lane_empty limits s : lane (MkQueue limits ∅ 0 0 0 0 0) s = [].
Proof. done. Qed.

Lemma Pending_members s pending e : Spool.Pending s = Ok pending -> e ∈ pending ->
  exists id item, Spool.entries s !! id = Some item /\ Spool.envelope item = e.
Proof.
  unfold Spool.Pending. intros H He. apply bind_Ok_inv in H as (? & _ & H). injection H as <-.
  apply list_elem_of_fmap in He as (item & -> & He). rewrite sort_elem in He.
  apply list_elem_of_fmap in He as ([id item'] & -> & He). apply elem_of_map_to_list in He. by exists id, item'.
Qed.

(** A session: what it sends is its own, and what the spool held is there or
    was released. *)
Lemma run_session_ok c env rt g m view module events out : keyed (durableSpool rt) ->
  Snapshot view = MkSnapshot (HostID c) g AuthorityCurrent -> queue m = MkQueue (cfg_QueueLimits c) ∅ 0 0 0 0 0 ->
  run_session c env rt g m view module = (events, out) ->
  keyed (spool_of out) /\ carried (answers events) (durableSpool rt) (spool_of out)
  /\ forall e, Sent e ∈ events -> HostIdentity e = HostID c /\ SessionGeneration e = g
       /\ (kept (spool_of out) e \/ released (answers events) e).
Proof.
  intros Hk Hv Hq. unfold run_session. 
  destruct (replay m view g (durableSpool rt)) as [m1 [u|err]] eqn:Er.
  2: { intros [= <- <-]. split; [done|split; [apply carried_refl|by intros ? []%elem_of_nil]]. }
  unfold start_runner. destruct (fail_if _ _) as [?|?]; cbn [mbind res_bind].
  2: { intros [= <- <-]. split; [done|split; [apply carried_refl|by intros ? []%elem_of_nil]]. }
  destruct (connection _).
  2: { intros [= <- <-]. split; [done|split; [apply carried_refl|by intros ? []%elem_of_nil]]. }
  match goal with |- context [drive ?l0 _] => set (l := l0) end.
  assert (session_ok (HostID c) g l) as S.
  { subst l. split; cbn -[lane]; try done; [|by intros ? []%elem_of_nil].
    unfold replay in Er. destruct (Spool.Pending (durableSpool rt)) as [pending|] eqn:Ep; [|done].
    intros s x Hx. destruct (replay_all_members _ _ _ _ Hv _ _ _ Er _ _ Hx) as [Hx'|(Hh & Hg & e & He & ->)].
    - rewrite Hq, lane_empty in Hx'. by apply elem_of_nil in Hx'.
    - split; try done. left. destruct (Pending_members _ _ _ Ep He) as (id & item & Hi & <-).
      exists item. cbn. pose proof (Hk _ _ Hi) as E. unfold Spool.key_of in E. rewrite E. split; [done|].
      unfold Spool.sameMessage. cbn. by rewrite !String.eqb_refl, !Z.eqb_refl. }
  destruct (drive_ok _ _ (tn_actions env) _ S) as (S' & _ & Hc).
  set (l' := drive l (tn_actions env)) in *.
  assert (answers ((Sent <$> lv_sent l') ++ (Answered <$> lv_accepted l')) = lv_accepted l') as Ea.
  { by rewrite answers_app, answers_none, answers_Answered. }
  assert (forall e, Sent e ∈ (Sent <$> lv_sent l') ++ (Answered <$> lv_accepted l') -> e ∈ lv_sent l') as Hsent.
  { intros e [(x & E & Hx)%list_elem_of_fmap|(x & E & _)%list_elem_of_fmap]%elem_of_app; [by injection E as ->|done]. }
  assert (forall e, e ∈ lv_sent l' -> HostIdentity e = HostID c /\ SessionGeneration e = g
            /\ (kept (lv_spool l') e \/ released (lv_accepted l') e)) as Hown.
  { intros e He. by destruct (ss_sent _ _ _ S' e He). }
  destruct (ended l'); intros [= <- <-]; rewrite Ea; cbn [spool_of]; (split; [apply S'|split; [exact Hc|auto]]).
Qed.

Definition spool_after (rt : runtime) (v : verdict) : Spool.spool :=
  match v with Running l => lv_spool l | _ => durableSpool rt end.

Lemma wait_keeps c env rt events next : let '(events', rt', v) := wait c env rt events next in
  events' = events /\ spool_after rt' v = durableSpool rt.
Proof. unfold wait. by destruct (waitReconnect _ _ _ _). Qed.

(** What the events around a session are *)
Definition quiet (events : list event) : Prop := answers events = [] /\ forall e, Sent e ∉ events.
Lemma quiet_app l1 l2 : quiet l1 -> quiet l2 -> quiet (l1 ++ l2).
Proof.
  intros [A1 S1] [A2 S2]. split; [by rewrite answers_app, A1, A2|].
  intros e [H|H]%elem_of_app; [by apply S1 in H|by apply S2 in H].
Qed.
Lemma quiet_cons ev l : (forall r, ev <> Answered r) -> (forall e, ev <> Sent e) -> quiet l -> quiet (ev :: l).
Proof.
  intros Hr Hs [A S]. split; [cbn; destruct ev; try done; by edestruct Hr|].
  intros e [E|H]%elem_of_cons; [by apply (Hs e)|by apply S in H].
Qed.
Lemma quiet_fmap {A} (f : A -> event) l : (forall x r, f x <> Answered r) -> (forall x e, f x <> Sent e) -> quiet (f <$> l).
Proof. intros H1 H2. induction l; [by split; [|intros e []%elem_of_nil]|by apply quiet_cons]. Qed.
Lemma activate_quiet c g answered : quiet (activate_components c g answered).1.
Proof.
  unfold activate_components. destruct (until_error _ _ _) as [n []]; cbn [fst]; [|apply quiet_app]; by apply quiet_fmap.
Qed.
Lemma quiet_nil : quiet [].
Proof. by apply (quiet_fmap (A:=unit) (fun _ => Hangup) []). Qed.

(** What a run keeps: what the spool held is there or was released, and a
    message is sent in a session dialled for it, out of the spool. *)
Definition promised (c : Config) (before : Spool.spool) (events : list event) (after : Spool.spool) : Prop :=
  carried (answers events) before after
  /\ forall e, Sent e ∈ events -> HostIdentity e = HostID c
       /\ (exists hs, Dial hs ∈ events /\ hs_SessionGeneration hs = SessionGeneration e)
       /\ (kept after e \/ released (answers events) e).

Lemma quiet_promised c s events : quiet events -> promised c s events s.
Proof. intros [_ Hq]. split; [apply carried_refl|by intros e He%Hq]. Qed.

Lemma promised_trans c s1 s2 s3 events1 events2 :
  promised c s1 events1 s2 -> promised c s2 events2 s3 -> promised c s1 (events1 ++ events2) s3.
Proof.
  intros [Hc1 Hs1] [Hc2 Hs2]. unfold promised. rewrite answers_app.
  assert (answers events1 ⊆ answers events1 ++ answers events2) as M1 by (intros x Hx; apply elem_of_app; by left).
  assert (answers events2 ⊆ answers events1 ++ answers events2) as M2 by (intros x Hx; apply elem_of_app; by right).
  pose proof (carried_mono _ _ _ _ M1 Hc1) as C1. pose proof (carried_mono _ _ _ _ M2 Hc2) as C2.
  split; [by eapply carried_trans|].
  intros e [He|He]%elem_of_app.
  - destruct (Hs1 e He) as (Hh & (hs & Hin & Hgen) & Hdur). split_and!; [done|exists hs; split; [apply elem_of_app; by left|done]|].
    destruct Hdur as [Hkept|Hr]; [by eapply carried_kept|right; by apply (released_mono _ _ _ M1)].
  - destruct (Hs2 e He) as (Hh & (hs & Hin & Hgen) & Hdur). split_and!; [done|exists hs; split; [apply elem_of_app; by right|done]|].
    destruct Hdur; [by left|right; by apply (released_mono _ _ _ M2)].
Qed.

(** A session between its dial and its end *)
Lemma session_promised c hs before activated events after tail : quiet activated -> quiet tail ->
  carried (answers events) before after ->
  (forall e, Sent e ∈ events -> HostIdentity e = HostID c /\ SessionGeneration e = hs_SessionGeneration hs
     /\ (kept after e \/ released (answers events) e)) ->
  promised c before (Dial hs :: activated ++ events ++ tail) after.
Proof.
  intros [Ha1 Ha2] [Ht1 Ht2] Hc Hsent. unfold promised.
  assert (answers (Dial hs :: activated ++ events ++ tail) = answers events) as ->.
  { cbn. by rewrite !answers_app, Ha1, Ht1, app_nil_r. }
  split; [done|]. intros e [He|[He|[He|He]%elem_of_app]%elem_of_app]%elem_of_cons; [done|by apply Ha2 in He| |by apply Ht2 in He].
  destruct (Hsent e He) as (Hhost & Hgen & Hdur). split_and!; [done| |done]. exists hs. split; [by left|done].
Qed.

(** One turn *)
Lemma turn_ok c rt env events rt' v : keyed (durableSpool rt) -> turn c rt env = (events, rt', v) ->
  keyed (spool_after rt' v) /\ promised c (durableSpool rt) events (spool_after rt' v).
Proof.
  intros Hk. unfold turn.
  assert (forall events rt' v, quiet events -> spool_after rt' v = durableSpool rt ->
    keyed (spool_after rt' v) /\ promised c (durableSpool rt) events (spool_after rt' v)) as Hquiet.
  { intros events0 rt0 v0 Hq ->. split; [done|by apply quiet_promised]. }
  destruct (tn_cancelled env); [intros [= <- <- <-]; by apply Hquiet; [apply quiet_nil|]|].
  destruct (new_session c rt env) as [[[[g m] view] module]|err] eqn:En; [|intros [= <- <- <-]; by apply Hquiet; [apply quiet_nil|]].
  destruct (new_session_inv _ _ _ _ _ _ _ En) as (_ & Hv & Hq & Hg & _ & _).
  destruct (Open m _ _) as [m1 ro] eqn:Eo. destruct (Open_keeps _ _ _ _ _ Eo) as (Hq1 & Hh1 & _).
  assert (quiet [Dial (handshake m1)]) as Hdial by (by apply quiet_cons; [..|apply quiet_nil]).
  assert (quiet [Hangup]) as Hup by (by apply quiet_cons; [..|apply quiet_nil]).
  destruct ro as [u|err].
  2: { pose proof (wait_keeps c env rt [Dial (handshake m1)] (i64 (attempt rt + 1))) as Hw.
       destruct (wait _ _ _ _ _) as [[events0 rt0] v0]. destruct Hw as [-> Hw]. intros [= <- <- <-]. by apply Hquiet. }
  pose proof (activate_quiet c g (tn_activated env)) as Ha.
  destruct (activate_components _ _ _) as [activated [u'|err]]; cbn [fst] in Ha.
  2: { intros [= <- <- <-]. apply Hquiet; [|done]. by apply (quiet_app [_]), quiet_app. }
  destruct (Ledger.CommitAccepted _ _ _ _) as [[[ledger d] tr] [u''|err]].
  2: { intros [= <- <- <-]. apply Hquiet; [|done]. by apply (quiet_app [_]), quiet_app. }
  match goal with |- context [run_session c env ?r g m1 view module] => set (rt1 := r) end.
  destruct (run_session c env rt1 g m1 view module) as [inner out] eqn:Es.
  destruct (run_session_ok c env rt1 g m1 view module inner out Hk Hv) as (Hk' & Hc & Hsent); [by rewrite Hq1|done|].
  assert (forall tail rt0 v0, quiet tail -> spool_after rt0 v0 = spool_of out ->
    keyed (spool_after rt0 v0) /\ promised c (durableSpool rt) (Dial (handshake m1) :: activated ++ inner ++ tail) (spool_after rt0 v0)) as Hrun.
  { intros tail rt0 v0 Ht ->. split; [done|]. apply session_promised; try done. by rewrite Hh1, Hg. }
  destruct out as [rt2|l].
  - set (tail := ((fun i => Deactivate i g) <$> seq 0 (length (RuntimeComponents c))) ++ [Hangup]).
    assert (quiet tail) as Htail by (apply quiet_app; [by apply quiet_fmap|done]).
    destruct (tn_cancelled_after env); [intros [= <- <- <-]; by apply (Hrun tail)|].
    match goal with |- wait ?c ?env ?r ?evs ?n = _ -> _ => pose proof (wait_keeps c env r evs n) as Hw end.
    destruct (wait _ _ _ _ _) as [[events0 rt0] v0]. destruct Hw as [-> Hw]. intros [= <- <- <-]. by apply (Hrun tail).
  - intros [= <- <- <-]. pose proof (Hrun [] rt1 (Running l) quiet_nil eq_refl) as H. by rewrite app_nil_r in H.
Qed.

Lemma turns_ok c envs : forall rt events rt' v, keyed (durableSpool rt) -> turns c rt envs = (events, rt', v) ->
  promised c (durableSpool rt) events (spool_after rt' v).
Proof.
  induction envs as [|env envs IH]; cbn [turns]; intros rt events rt' v Hk.
  { intros [= <- <- <-]. apply quiet_promised, quiet_nil. }
  destruct (turn c rt env) as [[events1 rt1] v1] eqn:E. destruct (turn_ok _ _ _ _ _ _ Hk E) as (Hk1 & H1).
  destruct v1; [|by intros [= <- <- <-]..].
  destruct (turns c rt1 envs) as [[events2 rt2] v2] eqn:E2. intros [= <- <- <-].
  by apply (promised_trans _ _ _ _ _ _ H1), IH.
Qed.

(** ** Opening the spool *)

Lemma load_loop_keyed os host m listing : forall es d tr d' tr' es',
  Spool.load_loop os host m listing es d tr = (d', tr', Ok es') ->
  (forall id item, es !! id = Some item -> Spool.key_of item = id) ->
  forall id item, es' !! id = Some item -> Spool.key_of item = id.
Proof.
  induction listing as [|[name n] listing IH]; cbn [Spool.load_loop]; intros es d tr d' tr' es'.
  { by intros [= _ _ <-]. }
  destruct (HasPrefix name ".tmp-").
  - unfold io_bind at 1. destruct (remove_file _ _ _ _) as [[d1 tr1] [u|]]; [|done]. apply IH.
  - unfold io_bind at 1, Spool.io_lift. destruct (Spool.load_entry _ _ _ _) as [[item|]|]; [|apply IH|done].
    case_bool_decide; [done|]. intros Hload Hk. eapply IH; [exact Hload|]. intros id item'.
    rewrite lookup_insert_Some. intros [[<- <-]|[_ Hi]]; [done|by apply Hk].
Qed.

Lemma Open_keyed os config setup d tr d' tr' s : Spool.Open os config setup d tr = (d', tr', Ok s) ->
  keyed s /\ Spool.closed s = false /\ Spool.hostIdentity s = Spool.cfg_HostIdentity config
  /\ Spool.maxMessageBytes s = Spool.MaxMessageBytes config.
Proof.
  unfold Spool.Open. destruct (_ || _); [done|]. unfold io_bind at 1, Spool.io_lift. destruct setup; [|done].
  unfold Spool.load, io_bind at 1, io_read. unfold io_bind at 1.
  destruct (Spool.load_loop _ _ _ _ _ _ _) as [[d1 tr1] [es|]] eqn:E; [|done].
  destruct (_ || _); [done|]. unfold io_bind at 1. destruct (sync_dir _ _ _) as [[d2 tr2] [[]|]]; [|done].
  intros [= _ _ <-]. split; [|done]. intros id item Hi. by eapply (load_loop_keyed _ _ _ _ _ _ _ _ _ _ E).
Qed.

Lemma open_state_inv c env k k' rt : open_state c env k = (k', Ok rt) ->
  keyed (durableSpool rt) /\ Spool.closed (durableSpool rt) = false /\ Spool.hostIdentity (durableSpool rt) = HostID c
  /\ Spool.maxMessageBytes (durableSpool rt) = MaxMessageBytes (cfg_QueueLimits c) /\ validate c = Ok tt.
Proof.
  unfold open_state. destruct (validate c) as [[]|]; [|done]. destruct (wrapped _ _); [|done].
  destruct (Spool.Open _ _ _ _ _) as [[d tr] [s|]] eqn:E; intros H; injection H as _ H; cbn in H; [|done].
  destruct (wrapped _ _); [|done]. injection H as <-. destruct (Open_keyed _ _ _ _ _ _ _ _ E) as (? & ? & ? & ?). by split_and!.
Qed.

(** C15: A message the Agent sent is in its spool until the control plane took it.
    Whatever calls fail, however the three loops of a session interleave and
    however often the connection is lost: a message is sent in the name of the
    Host and in a session dialled with its generation, and at the end the spool
    still has it, or has been answered with an ACCEPTED receipt for it; and the
    same holds of every message the spool was opened with. *)
Theorem a_message_stays_until_accepted c env k k' rt envs events rt' v :
  open_state c env k = (k', Ok rt) -> turns c rt envs = (events, rt', v) ->
  (forall id item, Spool.entries (durableSpool rt) !! id = Some item ->
     Spool.entries (spool_after rt' v) !! id = Some item \/ released (answers events) (Spool.envelope item))
  /\ forall e, Sent e ∈ events -> HostIdentity e = HostID c
       /\ (exists hs, Dial hs ∈ events /\ hs_SessionGeneration hs = SessionGeneration e)
       /\ (kept (spool_after rt' v) e \/ released (answers events) e).
Proof. intros (Hk & _)%open_state_inv H. by destruct (turns_ok _ _ _ _ _ _ Hk H). Qed.

(** ** A backlog the queue cannot take *)

Definition of_the_stream (s : string) (es : gmap string Spool.entry) : list Spool.entry :=
  filter (fun item => Stream (Spool.envelope item) = s) (Spool.values es).

Lemma replay_all_lane view g pending s : forall m m', replay_all m view g pending = (m', Ok tt) ->
  msg_count (lane (queue m') s) = msg_count (lane (queue m) s) + msg_count (of_stream s pending)
  /\ msg_count (lane (queue m') s) <= Z.max (stream_limit (limits (queue m)) s) (msg_count (lane (queue m) s)).
Proof.
  induction pending as [|e pending IH]; cbn [replay_all]; intros m m'.
  { intros [= <-]. change (msg_count (of_stream s [])) with 0. lia. }
  unfold Publish at 1. destruct (validateCurrent _ _ _); [|done].
  destruct (Enqueue _ _) as [q|] eqn:E; [|done]. intros H.
  destruct (IH _ _ H) as (En & Em). cbn [queue with_queue] in En, Em.
  rewrite (Enqueue_lane _ _ _ s E), msg_count_app in En, Em.
  change (e :: pending) with ([e] ++ pending). rewrite of_stream_app, msg_count_app.
  change (of_stream s [BindSession e g]) with (if (Stream e =? s)%string then [BindSession e g] else []) in *.
  change (of_stream s [e]) with (if (Stream e =? s)%string then [e] else []).
  apply Enqueue_inv in E as (-> & _ & Hroom & _). cbn [limits store_lane] in Em.
  pose proof (msg_count_nonneg (of_stream s pending)).
  destruct (String.eqb_spec (Stream e) s) as [<-|_].
  - change (Stream (BindSession e g)) with (Stream e) in Hroom.
    change (msg_count [BindSession e g]) with 1 in *. change (msg_count [e]) with 1. lia.
  - change (msg_count []) with 0 in *. lia.
Qed.

Lemma of_stream_pending s t pending : Spool.Pending t = Ok pending ->
  msg_count (of_stream s pending) = Z.of_nat (length (of_the_stream s (Spool.entries t))).
Proof.
  unfold Spool.Pending, of_the_stream. intros H. apply bind_Ok_inv in H as (? & _ & H). injection H as <-.
  unfold msg_count. f_equal. rewrite <- (sort_perm Spool.entry_less (Spool.values _)).
  induction (sort_Slice _ _) as [|item l IH]; [done|]. rewrite filter_cons. unfold of_stream in *.
  cbn [fmap list_fmap List.filter]. unfold Spool.cloneEnvelope in *.
  destruct (String.eqb_spec (Stream (Spool.envelope item)) s); case_decide; try done. cbn. by f_equal.
Qed.

(** The backlog ends the session before it begins. *)
Lemma oversized_session c env rt g m view module s :
  0 <= stream_limit (cfg_QueueLimits c) s < Z.of_nat (length (of_the_stream s (Spool.entries (durableSpool rt)))) ->
  queue m = MkQueue (cfg_QueueLimits c) ∅ 0 0 0 0 0 ->
  run_session c env rt g m view module = ([], inl rt).
Proof.
  intros Hover Hq. unfold run_session, replay. destruct (Spool.Pending (durableSpool rt)) as [pending|] eqn:Ep; [|done].
  destruct (replay_all m view g pending) as [m' [[]|]] eqn:Er; [|done].
  destruct (replay_all_lane _ _ _ s _ _ Er) as [E1 E2]. rewrite Hq, lane_empty in E1, E2.
  change (msg_count []) with 0 in E1, E2. rewrite (of_stream_pending s _ _ Ep) in E1. cbn [limits] in E2. lia.
Qed.

Definition stays (rt : runtime) (events : list event) (rt' : runtime) (v : verdict) : Prop :=
  durableSpool rt' = durableSpool rt /\ spool_dir (on_disk rt') = spool_dir (on_disk rt)
  /\ (forall l, v <> Running l) /\ quiet events.

Lemma wait_stays c env rt0 rt events next : durableSpool rt = durableSpool rt0 ->
  spool_dir (on_disk rt) = spool_dir (on_disk rt0) -> quiet events ->
  let '(events', rt', v) := wait c env rt events next in stays rt0 events' rt' v.
Proof. intros. unfold wait. by destruct (waitReconnect _ _ _ _). Qed.

Lemma oversized_turn c rt env s events rt' v :
  0 <= stream_limit (cfg_QueueLimits c) s < Z.of_nat (length (of_the_stream s (Spool.entries (durableSpool rt)))) ->
  turn c rt env = (events, rt', v) -> stays rt events rt' v.
Proof.
  intros Hover. unfold turn. pose proof quiet_nil as Hnil.
  destruct (tn_cancelled env); [by intros [= <- <- <-]|].
  destruct (new_session c rt env) as [[[[g m] view] module]|err] eqn:En; [|by intros [= <- <- <-]].
  destruct (new_session_inv _ _ _ _ _ _ _ En) as (_ & _ & Hq & _).
  destruct (Open m _ _) as [m1 ro] eqn:Eo. destruct (Open_keeps _ _ _ _ _ Eo) as (Hq1 & _).
  assert (quiet [Dial (handshake m1)]) as Hdial by (by apply quiet_cons).
  assert (quiet [Hangup]) as Hup by (by apply quiet_cons).
  destruct ro as [u|err].
  2: { intros H. pose proof (wait_stays c env rt rt [Dial (handshake m1)] (i64 (attempt rt + 1)) eq_refl eq_refl Hdial) as Hw.
       by rewrite H in Hw. }
  pose proof (activate_quiet c g (tn_activated env)) as Ha.
  destruct (activate_components _ _ _) as [activated [u'|err]]; cbn [fst] in Ha.
  2: { intros [= <- <- <-]. split_and!; try done. by apply (quiet_app [_]), quiet_app. }
  destruct (Ledger.CommitAccepted _ _ _ _) as [[[ledger d] tr] [u''|err]].
  2: { intros [= <- <- <-]. split_and!; try done. by apply (quiet_app [_]), quiet_app. }
  rewrite (oversized_session _ _ _ _ _ _ _ s) by (done || by rewrite Hq1).
  match goal with |- context [[Dial _] ++ ?rest] => assert (quiet ([Dial (handshake m1)] ++ rest)) as Hall end.
  { apply quiet_app; [done|]. apply quiet_app; [done|]. apply (quiet_app []); [done|].
    apply quiet_app; [by apply quiet_fmap|done]. }
  destruct (tn_cancelled_after env); [by intros [= <- <- <-]|]. intros H.
  match type of H with wait ?c ?env ?r ?evs ?n = _ => pose proof (wait_stays c env rt r evs n eq_refl eq_refl Hall) as Hw end.
  by rewrite H in Hw.
Qed.

(** C16: A spool with more messages of one stream than the queue of a session may
    hold stops the Agent for good.  Every session is closed while the backlog is
    put on its queue: nothing is sent, no receipt is read, no command is
    received, so the spool never shrinks, however often the Agent reconnects and
    whatever the control plane answers. *)
Theorem an_oversized_backlog_is_never_sent c rt envs s events rt' v :
  0 <= stream_limit (cfg_QueueLimits c) s < Z.of_nat (length (of_the_stream s (Spool.entries (durableSpool rt)))) ->
  turns c rt envs = (events, rt', v) ->
  durableSpool rt' = durableSpool rt /\ spool_dir (on_disk rt') = spool_dir (on_disk rt)
  /\ (forall l, v <> Running l) /\ answers events = [] /\ forall e, Sent e ∉ events.
Proof.
  change (0 <= stream_limit (cfg_QueueLimits c) s < Z.of_nat (length (of_the_stream s (Spool.entries (durableSpool rt)))) ->
    turns c rt envs = (events, rt', v) -> stays rt events rt' v).
  revert rt events rt' v. induction envs as [|env envs IH]; cbn [turns]; intros rt events rt' v Hover.
  { intros [= <- <- <-]. split_and!; try done. apply quiet_nil. }
  destruct (turn c rt env) as [[events1 rt1] v1] eqn:E. pose proof (oversized_turn _ _ _ _ _ _ _ Hover E) as S.
  destruct v1; [|by intros [= <- <- <-]..].
  destruct (turns c rt1 envs) as [[events2 rt2] v2] eqn:E2. intros [= <- <- <-]. destruct S as (Es & Ed & _ & Hquiet).
  assert (stays rt1 events2 rt2 v2) as (Es2 & Ed2 & Hv & Hq2) by (apply IH; [by rewrite Es|done]).
  split_and!; [congruence..|done|by apply quiet_app].
Qed.

(** ** A concrete Agent: one message in its spool, limits of a test *)

Definition demo_digest : string := "0123456789abcdef0123456789abcdef0123456789abcdef0123456789abcdef".
Definition demo_limits (perStream : Z) : QueueLimits :=
  MkLimits 1024 8 8192 2 2048 4 (list_to_map ((fun s => (s, perStream)) <$> knownStreams)).
Definition demo_config (perStream : Z) : Config :=
  MkConfig "host-a" "v1" demo_digest 1 demo_digest "/var/lib/kim/state" "/var/lib/kim/spool" "/var/lib/kim/journal"
    "/var/lib/kim/generation" (Some tt) (demo_limits perStream) 4 8192 10000000 (MkBackoff 250000000 30000000000)
    Exec.demo_backend [] [Some tt].
Definition demo_os : os_env := healthy Spool.demo_tmp.
Definition demo_env : open_env := MkOpenEnv (Ok tt) (Ok tt) demo_os (Ok tt) (Ok tt) (Ok tt).
Definition demo_disk : disk := MkDisk ∅ Spool.demo_dir ∅.
Definition demo_runtime (s : Spool.spool) (d : dir) : runtime :=
  MkRuntime (Ledger.MkLedger "host-a" 0 false) s (Journal.MkJournal "host-a" ∅ false) (MkDisk ∅ d ∅) 1.
Definition demo_nonce : res bytes := Ok "nonce-01"%string.
(** A session whose first message is sent, and which then is lost *)
Definition demo_turn (actions : list action) : turn_env :=
  MkTurn false demo_nonce demo_nonce (Ok 7) (fun _ => Ok tt) demo_os true actions false true.
Definition demo_actions : list action :=
  [TakeMessage; SendMessage (Ok tt); Receive (Err Spool.EIO) demo_os demo_os; StopFlushing Spool.EIO;
   TakeReceipt (Err Spool.EIO) None demo_os].

Lemma demo_opens : exists d, open_state (demo_config 8) demo_env demo_disk
  = (MkDisk ∅ d ∅, Ok (demo_runtime Spool.demo_spool d)).
Proof.
  assert (exists d tr, Spool.Open demo_os Spool.demo_config (Ok tt) Spool.demo_dir [] = (d, tr, Ok Spool.demo_spool))
    as (d & tr & E).
  { unfold Spool.Open. cbn [Spool.Directory Spool.cfg_HostIdentity Spool.demo_config].
    destruct (Spool.load_recovers demo_os (Spool.opened Spool.demo_config ∅) Spool.demo_dir (Spool.entries Spool.demo_spool))
      as (tr & E); [done|done|vm_compute; reflexivity|vm_compute; split; discriminate|].
    unfold io_bind at 1, Spool.io_lift. eexists _, tr. exact E. }
  exists d. unfold open_state.
  assert (validate (demo_config 8) = Ok tt) as -> by (vm_compute; reflexivity).
  unfold Spool.demo_config in E. cbn [oe_spool demo_env oe_spool_setup spool_dir demo_disk].
  change (Spool.Open _ _ _ _ _) with (Spool.Open demo_os Spool.demo_config (Ok tt) Spool.demo_dir []).
  unfold Spool.demo_config. rewrite E. reflexivity.
Qed.

Lemma a_message_stays_until_accepted_witness : exists d,
  let '(events, rt', v) := turns (demo_config 8) (demo_runtime Spool.demo_spool d) [demo_turn demo_actions] in
  (Spool.entries (spool_after rt' v) !! "m1"%string = Some (Spool.entry_of Spool.demo_m1)
   \/ released (answers events) Spool.demo_m1)
  /\ forall e, Sent e ∈ events -> HostIdentity e = "host-a"%string
       /\ (exists hs, Dial hs ∈ events /\ hs_SessionGeneration hs = SessionGeneration e)
       /\ (kept (spool_after rt' v) e \/ released (answers events) e).
Proof.
  destruct demo_opens as [d E]. exists d.
  destruct (turns _ _ _) as [[events rt'] v] eqn:Et.
  destruct (a_message_stays_until_accepted (demo_config 8) demo_env demo_disk _ _ [demo_turn demo_actions] events rt' v E Et)
    as [H1 H2]. split; [exact (H1 _ _ Spool.demo_m1_queued)|exact H2].
Defined.

(** Two messages of a stream whose limit is one *)
Definition demo_backlog : Spool.spool :=
  Spool.opened Spool.demo_config {[ "m1"%string := Spool.entry_of Spool.demo_m1; "m2"%string := Spool.entry_of Spool.demo_m2 ]}.

Lemma an_oversized_backlog_is_never_sent_witness :
  let '(events, rt', v) := turns (demo_config 1) (demo_runtime demo_backlog ∅) [demo_turn demo_actions; demo_turn demo_actions] in
  durableSpool rt' = demo_backlog /\ spool_dir (on_disk rt') = ∅ /\ (forall l, v <> Running l) /\ answers events = []
  /\ forall e, Sent e ∉ events.
Proof.
  destruct (turns _ _ _) as [[events rt'] v] eqn:Et.
  apply (an_oversized_backlog_is_never_sent (demo_config 1) (demo_runtime demo_backlog ∅)
    [demo_turn demo_actions; demo_turn demo_actions] StreamInventory events rt' v); [|exact Et].
  vm_compute. split; [discriminate|reflexivity].
Defined.

End RuntimeFacts.
