(* ===== verification/HostRuntimeDrain.v ===== *)
(** * A session that is answered empties the spool

    The backlog fits the queue of the session, the flush loop gets its turns and
    every message is answered: the loops, in any interleaving of sends and
    receipts, leave nothing in the spool, in memory or on disk. *)

From S2P Require Import Prelude GoStd GoJson OsFiles RecordDir Envelope PriorityQueue Authority Manager.
From S2P Require Import Backoff Ledger Journal Spool Contract ExecModule HostRuntime HostRuntimeProofs.
Local Open Scope Z_scope.
Local Open Scope go_scope.

Module RuntimeDrain.
Import Runtime RuntimeFacts.

(** ** The messages on a queue *)

Definition messages (q : PriorityQueue) : list Envelope := knownStreams ≫= lane q.

Lemma bind_one {A B} `{EqDecision A} (keys : list A) (f h : A -> list B) k x : NoDup keys -> k ∈ keys ->
  f k ≡ₚ x :: h k -> (forall k', k' <> k -> f k' = h k') -> keys ≫= f ≡ₚ x :: (keys ≫= h).
Proof.
  intros Hnd Hk Hx Hrest. induction Hnd as [|k' keys Hnew Hnd IH]; [by apply elem_of_nil in Hk|]. cbn.
  destruct (decide (k' = k)) as [->|Hne].
  - rewrite Hx. cbn. f_equiv. f_equiv. clear IH Hk.
    induction keys as [|k' keys IH]; [done|]. cbn. apply not_elem_of_cons in Hnew as [Hne Hnew].
    rewrite Hrest by done. f_equiv. apply IH; try done; by inversion Hnd.
  - apply elem_of_cons in Hk as [->|Hk]; [done|]. rewrite Hrest, (IH Hk) by done. by rewrite Permutation_middle.
Qed.

Lemma known_streams_NoDup : NoDup knownStreams.
Proof. apply NoDup_ListNoDup, known_NoDup. Qed.

Lemma Enqueue_messages q e q' : In (Stream e) knownStreams -> Enqueue q e = Ok q' -> messages q' ≡ₚ e :: messages q.
Proof.
  intros Hs E. unfold messages. apply (bind_one _ _ _ (Stream e)); [apply known_streams_NoDup|by apply list_elem_of_In| |].
  - rewrite (Enqueue_lane _ _ _ _ E). cbn. rewrite String.eqb_refl. by rewrite Permutation_app_comm.
  - intros s Hne. rewrite (Enqueue_lane _ _ _ _ E). cbn. destruct (String.eqb_spec (Stream e) s); [congruence|]. by rewrite app_nil_r.
Qed.

Lemma Dequeue_messages q : queue_ok q -> match Dequeue q with
  | (q1, Some e) => messages q ≡ₚ e :: messages q1 /\ queue_ok q1 /\ limits q1 = limits q
  | (q1, None) => q1 = q /\ messages q = [] end.
Proof.
  intros Hok. pose proof (Dequeue_ok q Hok) as Hok1. destruct (Dequeue q) as [q1 [e|]] eqn:E.
  - destruct (Dequeue_head _ _ _ Hok E) as (tail & Hs & El & Hl & Hlim & _). split; [|done].
    unfold messages. apply (bind_one _ _ _ (Stream e)); [apply known_streams_NoDup|by apply list_elem_of_In| |].
    + by rewrite El, Hl, decide_True.
    + intros s Hne. by rewrite Hl, decide_False by congruence.
  - pose proof (Dequeue_cases q) as Hc. rewrite E in Hc. cbn in Hc. inversion Hc as [| |He]; subst. split; [done|].
    unfold messages. induction knownStreams as [|s l IH]; [done|]. cbn. rewrite He by (by left).
    apply IH. intros s' Hs'. apply He. by right.
Qed.

(** ** A backlog that fits *)

Record fits (l : QueueLimits) (backlog : list Envelope) : Prop := MkFits {
  fit_stream s : msg_count (of_stream s backlog) <= stream_limit l s;
  fit_count : msg_count backlog <= MaxTotalMessages l - ReservedPriorityMsgs l;
  fit_bytes : payload_bytes backlog <= MaxTotalBytes l - ReservedPriorityBytes l;
}.

Lemma Enqueue_room q e : queue_ok q -> len (Payload e) <= MaxMessageBytes (limits q) ->
  msg_count (lane q (Stream e)) < stream_limit (limits q) (Stream e) ->
  totalCount q + 1 <= MaxTotalMessages (limits q) - ReservedPriorityMsgs (limits q) ->
  totalBytes q + len (Payload e) <= MaxTotalBytes (limits q) - ReservedPriorityBytes (limits q) ->
  exists q', Enqueue q e = Ok q' /\ totalCount q' = totalCount q + 1 /\ totalBytes q' = totalBytes q + len (Payload e)
    /\ limits q' = limits q.
Proof.
  intros Hok Hsize Hlane Hcount Hbytes. destruct (Enqueue_sums q e Hok Hsize) as (E1 & E2 & E3 & E4).
  destruct (ok_limits _ Hok) as (_ & _ & _ & Hr1 & Hr2 & _). unfold Enqueue, msg_count in *. rewrite E1, E2, E3, E4.
  rewrite !fail_if_pass; [eexists; by split_and!|..]; try lia.
Qed.

Lemma payload_bytes_cons' e l : payload_bytes (e :: l) = len (Payload e) + payload_bytes l.
Proof. done. Qed.

(** What the messages of a backlog have to be *)
Definition sendable (host : string) (limit g : Z) (e : Envelope) : Prop :=
  HostIdentity e = host /\ Validate e limit = Ok tt.

Lemma sendable_current m host limit g e : sendable host limit g e -> g <> 0 -> limit = MaxMessageBytes (limits (queue m)) ->
  validateCurrent m (MkSnapshot host g AuthorityCurrent) (BindSession e g) = Ok tt.
Proof.
  intros [Hh Hv] Hg ->. unfold validateCurrent.
  assert (validateAuthority (MkSnapshot host g AuthorityCurrent) (HostIdentity (BindSession e g)) (SessionGeneration (BindSession e g)) = Ok tt) as ->
    by by apply validateAuthority_iff.
  cbn. by apply Validate_BindSession.
Qed.

Lemma replay_fits view host g limit pending : Snapshot view = MkSnapshot host g AuthorityCurrent -> g <> 0 ->
  Forall (sendable host limit g) pending -> forall m, limit = MaxMessageBytes (limits (queue m)) -> queue_ok (queue m) ->
  (forall s, msg_count (lane (queue m) s) + msg_count (of_stream s pending) <= stream_limit (limits (queue m)) s) ->
  totalCount (queue m) + msg_count pending <= MaxTotalMessages (limits (queue m)) - ReservedPriorityMsgs (limits (queue m)) ->
  totalBytes (queue m) + payload_bytes pending <= MaxTotalBytes (limits (queue m)) - ReservedPriorityBytes (limits (queue m)) ->
  exists m', replay_all m view g pending = (m', Ok tt) /\ queue_ok (queue m') /\ limits (queue m') = limits (queue m)
    /\ connection m' = connection m
    /\ messages (queue m') ≡ₚ ((fun e => BindSession e g) <$> pending) ++ messages (queue m).
Proof.
  intros Hv Hg Hall. induction Hall as [|e pending He Hall IH]; intros m Hlim Hok Hs Hc Hb; [by exists m|].
  cbn [replay_all]. unfold Publish. rewrite Hv, (sendable_current m _ _ _ _ He Hg Hlim).
  destruct He as [_ Hvalid]. apply Validate_iff in Hvalid as (_ & _ & _ & _ & _ & Hknown & _ & Hsize & _).
  rewrite msg_count_cons in Hc. rewrite payload_bytes_cons in Hb.
  pose proof (msg_count_nonneg pending). pose proof (payload_bytes_nonneg pending).
  assert (forall s, msg_count (of_stream s (e :: pending))
    = (if (Stream e =? s)%string then 1 else 0) + msg_count (of_stream s pending)) as Hcons.
  { intros s. unfold of_stream. cbn [List.filter]. destruct (_ =? _)%string; [|done]. by rewrite msg_count_cons. }
  pose proof (Hs (Stream e)) as Hse. rewrite Hcons, String.eqb_refl in Hse. pose proof (msg_count_nonneg (of_stream (Stream e) pending)).
  destruct (Enqueue_room (queue m) (BindSession e g) Hok) as (q & E & E1 & E2 & E3); try (cbn; lia).
  rewrite E. destruct (IH (with_queue m q)) as (m' & Hr & Hok' & Hlim' & Hconn & Hp); cbn [queue with_queue].
  - by rewrite E3.
  - exact (Enqueue_ok _ (BindSession e g) _ Hok Hknown E).
  - intros s. rewrite (Enqueue_lane _ _ _ s E), msg_count_app, E3. specialize (Hs s). rewrite Hcons in Hs.
    change (of_stream s [BindSession e g]) with (if (Stream e =? s)%string then [BindSession e g] else []).
    destruct (_ =? _)%string; [change (msg_count [BindSession e g]) with 1|change (msg_count []) with 0]; lia.
  - rewrite E1, E3. lia.
  - rewrite E2, E3. cbn. lia.
  - exists m'. split; [exact Hr|]. split; [done|]. split; [by rewrite Hlim'|]. split; [exact Hconn|].
    rewrite Hp. cbn [queue with_queue]. rewrite (Enqueue_messages _ (BindSession e g) _ Hknown E). cbn. by rewrite <- Permutation_middle.
Qed.

(** ** Sending and answering it *)

(** What the loops of a quiet session do, in any order: messages are taken and
    sent, receipts arrive, nothing fails. *)
Inductive calm : action -> Prop :=
| calm_take : calm TakeMessage
| calm_send : calm (SendMessage (Ok tt))
| calm_receipt r os : all_healthy os -> calm (TakeReceipt (Ok r) None os).
Definition receipt_of (a : action) : option Receipt := match a with TakeReceipt (Ok r) _ _ => Some r | _ => None end.
Definition flush_actions (n : nat) : list action := concat (replicate n [TakeMessage; SendMessage (Ok tt)]).

Definition in_hand (l : live) : list Envelope := match lv_outbound l with Sending e => [e] | _ => [] end.
Definition outgoing (l : live) : list Envelope := in_hand l ++ messages (queue (lv_manager l)).
Definition backlog (s : Spool.spool) : list Envelope := Spool.envelope <$> Spool.values (Spool.entries s).
(** What the flush loop still has to do *)
Definition to_do (l : live) : list action :=
  match lv_outbound l with Sending _ => [SendMessage (Ok tt)] | _ => [] end
  ++ flush_actions (length (messages (queue (lv_manager l)))).

Definition acknowledges (r : Receipt) (e : Envelope) : Prop :=
  identifies r e /\ rcpt_AcceptedSessionGeneration r <> 0 /\ rcpt_Disposition r = "ACCEPTED"%string.
(** The state of the spool, in memory and on disk *)
Definition synced (l : live) : Prop := Spool.in_sync (lv_spool l) (lv_spool_dir l) /\ Spool.closed (lv_spool l) = false.
Definition current (l : live) (e : Envelope) : Prop := validateCurrent (lv_manager l) (Snapshot (lv_view l)) e = Ok tt.

Record quiet_session (l : live) : Prop := MkQuietSession {
  qs_inbound : lv_inbound l = Receiving;
  qs_outbound : match lv_outbound l with Waiting | Sending _ => True | _ => False end;
  qs_receipts : lv_receipts l = Listening;
  qs_connected : is_Some (connection (lv_manager l));
  qs_queue : queue_ok (queue (lv_manager l));
  qs_current : Forall (current l) (outgoing l);
  qs_synced : synced l;
}.

(** What such a step leaves alone *)
Record kept_up (l l' : live) : Prop := MkKeptUp {
  ku_module : lv_module l' = lv_module l; ku_journal : lv_journal_dir l' = lv_journal_dir l;
  ku_outgoing : lv_sent l' ++ outgoing l' ≡ₚ lv_sent l ++ outgoing l;
}.
Lemma kept_up_refl l : kept_up l l.
Proof. by split. Qed.
Lemma kept_up_trans l1 l2 l3 : kept_up l1 l2 -> kept_up l2 l3 -> kept_up l1 l3.
Proof. intros [] []. split; [congruence..|]. by etrans. Qed.

Lemma take_accepted os l r item : all_healthy os -> synced l -> lv_receipts l = Listening ->
  Spool.entries (lv_spool l) !! rcpt_MessageID r = Some item -> acknowledges r (Spool.envelope item) ->
  exists d, Spool.in_sync (Spool.with_entries (lv_spool l) (delete (rcpt_MessageID r) (Spool.entries (lv_spool l)))) d
    /\ step l (TakeReceipt (Ok r) None os)
       = l <| lv_spool := Spool.with_entries (lv_spool l) (delete (rcpt_MessageID r) (Spool.entries (lv_spool l))) |>
           <| lv_spool_dir := d |> <| lv_accepted ::= fun rs => rs ++ [r] |>.
Proof.
  intros Hos [Hsync Hclosed] Hl Hi (Hid & Hg & Hd). cbn [step]. rewrite Hl. unfold take_receipt, Spool.HandleReceipt.
  pose proof (Spool.Acknowledge_outcome os _ _ None r Hsync) as Hout.
  assert (exists d tr, Spool.Acknowledge os (lv_spool l) (lv_spool_dir l) r
    = (Spool.with_entries (lv_spool l) (delete (rcpt_MessageID r) (Spool.entries (lv_spool l))), d, tr, Ok tt)) as (d & tr & E).
  { unfold Spool.Acknowledge. rewrite Hclosed, Hi.
    assert (ValidateFor r (Spool.envelope item) = Ok tt) as ->.
    { apply ValidateFor_iff. split; [done|]. split; [done|]. rewrite Hd. by left. }
    rewrite Hd. cbn [String.eqb Ascii.eqb Bool.eqb negb].
    destruct (Spool.in_sync_lookup _ _ _ _ Hsync Hi) as (_ & Hp & n & Hn & _). rewrite Hp.
    unfold io_bind at 1, remove_file, io_bind at 1, io_read. rewrite Hn. unfold mutate. rewrite Hos.
    unfold sync_dir, sync_entries, mutate, io_bind, call. rewrite !Hos. eauto. }
  rewrite E in Hout |- *. destruct Hout as (_ & Hc & _). by exists d.
Qed.


Lemma backlog_lookup s e : e ∈ backlog s -> exists id item, Spool.entries s !! id = Some item /\ Spool.envelope item = e.
Proof.
  intros He. apply list_elem_of_fmap in He as (item & -> & He). apply list_elem_of_fmap in He as ([id item'] & -> & He).
  apply elem_of_map_to_list in He. by exists id, item'.
Qed.

Lemma current_same l l' e : lv_view l' = lv_view l -> limits (queue (lv_manager l')) = limits (queue (lv_manager l)) ->
  current l e -> current l' e.
Proof. unfold current, validateCurrent. by intros -> ->. Qed.

Lemma quiet_outbound l : quiet_session l -> lv_outbound l = Waiting \/ exists e, lv_outbound l = Sending e.
Proof. intros Q. pose proof (qs_outbound _ Q) as H. destruct (lv_outbound l); [by left|right; by eexists|done..]. Qed.

(** A step of the flush loop *)
Lemma quiet_take l : quiet_session l -> lv_outbound l = Waiting -> let l' := step l TakeMessage in
  quiet_session l' /\ kept_up l l' /\ lv_spool l' = lv_spool l /\ lv_accepted l' = lv_accepted l
  /\ match to_do l with [] => to_do l' = [] | _ :: rest => to_do l' = rest end.
Proof.
  intros Q Ho. destruct Q as [Hi _ Hr [k Hk] Hok Hcur Hs]. cbn [step]. rewrite Ho. unfold take_message. rewrite Hk.
  unfold to_do, outgoing, in_hand in *. rewrite Ho in *. cbn [app] in *.
  pose proof (Dequeue_messages _ Hok) as Hd. destruct (Dequeue _) as [q [e|]] eqn:Eq.
  - destruct Hd as (Hp & Hok1 & Hlim). rewrite Hp in Hcur. apply Forall_cons_1 in Hcur as [He Hcur].
    pose proof He as Hcurrent. unfold current in He. change (Snapshot (lv_view (l <| lv_manager := with_queue (lv_manager l) q |>))) with (Snapshot (lv_view l)).
    rewrite He. split; [|split; [|split; [done|split; [done|]]]].
    + split; [done|done|done|by eexists|done| |done]. unfold outgoing, in_hand. cbn -[messages]. constructor.
      * by apply (current_same l).
      * eapply Forall_impl; [exact Hcur|]. intros x. by apply current_same.
    + split; try done. unfold outgoing, in_hand. cbn -[messages]. rewrite Ho. by rewrite Hp.
    + assert (length (messages (queue (lv_manager l))) = S (length (messages q))) as -> by by rewrite Hp. done.
  - destruct Hd as (-> & Hm). assert (with_queue (lv_manager l) (queue (lv_manager l)) = lv_manager l) as ->
      by (by destruct (lv_manager l)).
    assert (l <| lv_manager := lv_manager l |> = l) as -> by (by destruct l). rewrite Hm, Ho. cbn -[messages].
    split; [|split; [apply kept_up_refl|by split_and!]]. split; [done|by rewrite Ho|done|by eexists|done| |done].
    unfold outgoing, in_hand. rewrite Ho. by rewrite Hm.
Qed.

Lemma quiet_send l e : quiet_session l -> lv_outbound l = Sending e -> let l' := step l (SendMessage (Ok tt)) in
  quiet_session l' /\ kept_up l l' /\ lv_spool l' = lv_spool l /\ lv_accepted l' = lv_accepted l
  /\ SendMessage (Ok tt) :: to_do l' = to_do l.
Proof.
  intros Q Ho. destruct Q as [Hi _ Hr Hk Hok Hcur Hs]. cbn [step]. rewrite Ho. cbn [send_message].
  unfold to_do, outgoing, in_hand in *. rewrite Ho in *. cbn [app] in *. apply Forall_cons_1 in Hcur as [He Hcur].
  split; [|split; [|by split_and!]].
  - by split.
  - split; try done. unfold outgoing, in_hand. cbn -[messages]. rewrite Ho. by rewrite <- app_assoc.
Qed.

(** A receipt *)
Lemma quiet_receipt l r os item : quiet_session l -> all_healthy os ->
  Spool.entries (lv_spool l) !! rcpt_MessageID r = Some item -> acknowledges r (Spool.envelope item) ->
  let l' := step l (TakeReceipt (Ok r) None os) in
  quiet_session l' /\ kept_up l l' /\ lv_accepted l' = lv_accepted l ++ [r] /\ to_do l' = to_do l
  /\ Spool.entries (lv_spool l') = delete (rcpt_MessageID r) (Spool.entries (lv_spool l)).
Proof.
  intros Q Hos Hi Hr. destruct Q as [H1 H2 H3 H4 H5 H6 H7].
  destruct (take_accepted os l r item Hos H7 H3 Hi Hr) as (d & Hd & E). cbv zeta. rewrite E.
  split; [|by split]. split; try done. split; [exact Hd|apply H7].
Qed.

(** ** Any schedule *)

Lemma sublist_done {A} (a : A) need need' body : need `sublist_of` (a :: body) ->
  need = a :: need' \/ (need = need' /\ forall x rest, need = x :: rest -> x <> a) -> need' `sublist_of` body.
Proof.
  intros H Hn. apply sublist_cons_r in H as [H|(rest & -> & H)].
  - destruct Hn as [-> |[-> _]]; [|done]. etrans; [|exact H]. by apply sublist_cons.
  - destruct Hn as [[= ->]|[_ Hn]]; [done|]. by destruct (Hn _ _ eq_refl).
Qed.

Lemma to_do_heads l x rest : to_do l = x :: rest -> x = TakeMessage \/ x = SendMessage (Ok tt).
Proof.
  unfold to_do. destruct (lv_outbound l); [|intros [= <- _]; by right|..]; cbn [app];
    (destruct (length _); [done|]; intros [= <- _]; by left).
Qed.

(** In whatever order the loops go, once the flush loop had as many turns as
    there are messages and each message was answered, nothing is left. *)
Lemma quiet_schedule body : Forall calm body -> forall l order, quiet_session l ->
  to_do l `sublist_of` body -> Forall2 acknowledges (omap receipt_of body) order -> order ≡ₚ backlog (lv_spool l) ->
  let l' := drive l body in
  quiet_session l' /\ kept_up l l' /\ to_do l' = [] /\ lv_accepted l' = lv_accepted l ++ omap receipt_of body
  /\ Spool.entries (lv_spool l') = ∅.
Proof.
  induction 1 as [|a body Ha Hbody IH]; intros l order Q Hdo H2 Hp.
  { apply sublist_nil_r in Hdo. inversion H2; subst. cbn [drive foldl omap list_omap]. rewrite app_nil_r.
    split; [done|]. split; [apply kept_up_refl|]. split; [done|]. split; [done|].
    symmetry in Hp. apply Permutation_nil_r, fmap_nil_inv, fmap_nil_inv in Hp. by apply map_to_list_empty_iff. }
  cbn [drive foldl]. change (foldl step (step l a) body) with (drive (step l a) body).
  assert (forall l1 accepted order', step l a = l1 -> quiet_session l1 -> kept_up l l1 -> to_do l1 `sublist_of` body ->
    omap receipt_of (a :: body) = accepted ++ omap receipt_of body -> lv_accepted l1 = lv_accepted l ++ accepted ->
    Forall2 acknowledges (omap receipt_of body) order' -> order' ≡ₚ backlog (lv_spool l1) ->
    let l' := drive l1 body in
    quiet_session l' /\ kept_up l l' /\ to_do l' = [] /\ lv_accepted l' = lv_accepted l ++ omap receipt_of (a :: body)
    /\ Spool.entries (lv_spool l') = ∅) as Hgo.
  { intros l1 accepted order' _ Q1 K1 D1 Ea Hacc F1 P1. destruct (IH l1 order' Q1 D1 F1 P1) as (Q2 & K2 & D2 & A2 & E2).
    split_and!; try done; [by eapply kept_up_trans|]. by rewrite A2, Hacc, Ea, app_assoc. }
  destruct Ha as [| |r os Hos].
  - destruct (quiet_outbound l Q) as [Ho|[e Ho]].
    + destruct (quiet_take l Q Ho) as (Q1 & K1 & Es & Eacc & Ed). apply (Hgo _ [] order eq_refl Q1 K1); try done;
        [|by rewrite Eacc, app_nil_r|by rewrite Es].
      apply (sublist_done _ _ _ _ Hdo). destruct (to_do l) as [|x rest] eqn:Et; [right; by rewrite Ed|left].
      rewrite Ed. f_equal. unfold to_do in Et. rewrite Ho in Et. cbn [app] in Et. destruct (length _); [done|by injection Et].
    + assert (step l TakeMessage = l) as E by (cbn [step]; by rewrite Ho). rewrite E.
      apply (Hgo _ [] order E Q (kept_up_refl l)); try done; [|by rewrite app_nil_r].
      apply (sublist_done _ _ _ _ Hdo). right. split; [done|]. intros x rest. unfold to_do. rewrite Ho. by intros [= <- _].
  - destruct (quiet_outbound l Q) as [Ho|[e Ho]].
    + assert (step l (SendMessage (Ok tt)) = l) as E by (cbn [step]; by rewrite Ho). rewrite E.
      apply (Hgo _ [] order E Q (kept_up_refl l)); try done; [|by rewrite app_nil_r].
      apply (sublist_done _ _ _ _ Hdo). right. split; [done|]. intros x rest. unfold to_do. rewrite Ho. cbn [app].
      destruct (length _); [done|]. by intros [= <- _].
    + destruct (quiet_send l _ Q Ho) as (Q1 & K1 & Es & Eacc & Ed). apply (Hgo _ [] order eq_refl Q1 K1); try done;
        [|by rewrite Eacc, app_nil_r|by rewrite Es].
      apply (sublist_done _ _ _ _ Hdo). by left.
  - cbn [omap list_omap receipt_of] in H2. inversion H2 as [|? e ? order' Hr H2']; subst.
    destruct (backlog_lookup (lv_spool l) e) as (id & item & Hi & <-); [rewrite <- Hp; by left|].
    destruct (Spool.in_sync_lookup _ _ _ _ (proj1 (qs_synced _ Q)) Hi) as (Hkey & _).
    assert (rcpt_MessageID r = id) as Hid. { destruct Hr as [(_ & _ & -> & _) _]. exact Hkey. }
    rewrite <- Hid in Hi. destruct (quiet_receipt l r os item Q Hos Hi Hr) as (Q1 & K1 & Eacc & Ed & Ee).
    apply (Hgo _ [r] order' eq_refl Q1 K1); try done.
    + rewrite Ed. apply (sublist_done _ _ _ _ Hdo). right. split; [done|].
      intros x rest E. by destruct (to_do_heads _ _ _ E) as [-> | ->].
    + unfold backlog in *. rewrite (Spool.values_delete _ _ _ Hi) in Hp. cbn in Hp. apply Permutation_cons_inv in Hp. by rewrite Ee.
Qed.

(** ** The session *)

Lemma Pending_backlog s : Spool.closed s = false -> exists pending, Spool.Pending s = Ok pending /\ pending ≡ₚ backlog s.
Proof.
  intros Hc. unfold Spool.Pending. rewrite Hc. cbn. eexists. split; [done|]. unfold backlog, Spool.values, Spool.cloneEnvelope.
  by rewrite sort_perm.
Qed.

Lemma backlog_length s : length (backlog s) = size (Spool.entries s).
Proof. unfold backlog, Spool.values. by rewrite !length_fmap, length_map_to_list. Qed.

Lemma backlog_sendable s d g : Spool.in_sync s d ->
  Forall (sendable (Spool.hostIdentity s) (Spool.maxMessageBytes s) g) (backlog s).
Proof.
  intros Hs. apply Forall_forall. intros e (item & -> & Hi)%list_elem_of_fmap.
  apply list_elem_of_fmap in Hi as ([id item'] & -> & Hi). apply elem_of_map_to_list in Hi.
  destruct (Spool.in_sync_lookup _ _ _ _ Hs Hi) as (_ & _ & n & _ & Hl).
  destruct (Spool.spool_load_entry_Some _ _ _ _ _ Hl) as (_ & _ & _ & _ & Hh & Hv). by split.
Qed.

Lemma fits_perm l b1 b2 : b1 ≡ₚ b2 -> fits l b1 -> fits l b2.
Proof.
  intros Hp [Hs Hc Hb].
  assert (forall s, of_stream s b1 ≡ₚ of_stream s b2) as Hps.
  { intros s. clear -Hp. unfold of_stream.
    induction Hp as [|x a b _ IH|x y a|a b c _ IH1 _ IH2]; [done| | |by etrans]; cbn [List.filter].
    - destruct (_ =? _)%string; by rewrite IH.
    - destruct (Stream x =? s)%string, (Stream y =? s)%string; done || constructor. }
  split.
  - intros s. unfold msg_count. rewrite <- (Hps s). apply Hs.
  - unfold msg_count. by rewrite <- Hp.
  - assert (payload_bytes b2 = payload_bytes b1) as ->; [|done]. clear -Hp.
    induction Hp as [|x a b _ IH|x y a|a b c _ IH1 _ IH2]; rewrite ?payload_bytes_cons; congruence || lia.
Qed.

(** The connection ends: each loop gets its error, in any order. *)
Definition hang_up (ends : list action) : Prop := exists e1 e2 e3 os1 os2 os3 cause,
  ends ≡ₚ [Receive (Err e1) os1 os2; StopFlushing e2; TakeReceipt (Err e3) cause os3].

Lemma hang_up_ends l ends : hang_up ends -> quiet_session l -> lv_outbound l = Waiting ->
  let l' := drive l ends in ended l' = true /\ lv_sent l' = lv_sent l
    /\ lv_accepted l' = lv_accepted l /\ lv_spool l' = lv_spool l /\ lv_spool_dir l' = lv_spool_dir l
    /\ lv_module l' = lv_module l /\ lv_journal_dir l' = lv_journal_dir l.
Proof.
  intros (e1 & e2 & e3 & os1 & os2 & os3 & cause & Hp) [Hi _ Hr [k Hk] _ _ _] Ho. symmetry in Hp.
  apply permutations_Permutation in Hp.
  destruct l as [m view module jd s d inb outb recs sent accepted]. cbn in *. subst.
  assert (forall l, connection (lv_manager l) = Some k -> receive (Err e1) os1 os2 l = l <| lv_inbound := InboundEnded e1 |>) as E.
  { intros l Hl. unfold receive, ReceiveAndRoute. by rewrite Hl. }
  repeat (apply elem_of_cons in Hp as [->|Hp]); [..|by apply elem_of_nil in Hp];
    cbv [drive foldl step lv_inbound lv_outbound lv_receipts take_receipt]; rewrite E by done; done.
Qed.

(** A turn in which the session opens and is answered, and nothing fails until
    the connection ends: the flush loop gets at least as many turns as there are
    messages, the receipts [rs] arrive in between, in any order. *)
Record peaceful (c : Config) (rt : runtime) (env : turn_env) (g : Z) (rs : list Receipt) : Prop := MkPeaceful {
  pc_running : tn_cancelled env = false /\ tn_cancelled_after env = false;
  pc_opened : exists k, tn_opened env = Ok k;
  pc_activated i : tn_activated env i = Ok tt;
  pc_commit : snd (Ledger.CommitAccepted (tn_commit env) (generationLedger rt) (generation_dir (on_disk rt)) g) = Ok tt;
  pc_receipts : tn_receipt_capable env = true;
  pc_actions : exists body ends, tn_actions env = body ++ ends /\ Forall calm body /\ hang_up ends
    /\ flush_actions (size (Spool.entries (durableSpool rt))) `sublist_of` body /\ omap receipt_of body = rs;
  pc_wait : waitReconnect (ReconnectBackoff c) 1 (HostID c) (tn_fires env) = true;
}.

Lemma until_error_all answers : (forall i, answers i = Ok tt) -> forall places i, until_error answers i places = ((i + places)%nat, Ok tt).
Proof.
  intros H places. induction places as [|places IH]; intros i; cbn; [by rewrite Nat.add_0_r|].
  rewrite H, IH. by rewrite Nat.add_succ_comm.
Qed.

Lemma validate_flush c : validate c = Ok tt -> (FlushInterval c <=? 0) = false.
Proof.
  unfold validate. intros H. apply bind_Ok_inv in H as (u & H & _). apply fail_if_Ok_inv in H. by repeat (apply orb_false_elim in H as [? H]).
Qed.

Lemma drained c env rt g m view module order body ends :
  validate c = Ok tt -> g <> 0 -> Snapshot view = MkSnapshot (HostID c) g AuthorityCurrent ->
  queue m = MkQueue (cfg_QueueLimits c) ∅ 0 0 0 0 0 -> is_Some (connection m) -> limits_ok (cfg_QueueLimits c) ->
  Spool.in_sync (durableSpool rt) (spool_dir (on_disk rt)) -> Spool.closed (durableSpool rt) = false ->
  Spool.hostIdentity (durableSpool rt) = HostID c -> Spool.maxMessageBytes (durableSpool rt) = MaxMessageBytes (cfg_QueueLimits c) ->
  fits (cfg_QueueLimits c) (backlog (durableSpool rt)) -> order ≡ₚ backlog (durableSpool rt) -> Forall2 acknowledges (omap receipt_of body) order ->
  tn_receipt_capable env = true -> tn_actions env = body ++ ends -> Forall calm body -> hang_up ends ->
  flush_actions (size (Spool.entries (durableSpool rt))) `sublist_of` body ->
  exists sent s d, run_session c env rt g m view module
    = ((Sent <$> sent) ++ (Answered <$> omap receipt_of body),
       inl (rt <| durableSpool := s |> <| executionJournal := Exec.journal module |>
              <| on_disk := MkDisk (generation_dir (on_disk rt)) d (journal_dir (on_disk rt)) |>))
    /\ sent ≡ₚ (fun e => BindSession e g) <$> backlog (durableSpool rt)
    /\ Spool.entries s = ∅ /\ Spool.in_sync s d.
Proof.
  intros Hval Hg Hv Hq Hconn Hlim Hsync Hclosed Hhost Hmax Hfits Horder Hrs Hcap Hact Hcalm Hends Hsub.
  destruct (Pending_backlog _ Hclosed) as (pending & Ep & Hp).
  pose proof (backlog_sendable _ _ g Hsync) as Hsend. rewrite Hhost, Hmax, <- Hp in Hsend.
  pose proof (fits_perm _ _ _ (symmetry Hp) Hfits) as [Hf1 Hf2 Hf3].
  destruct (replay_fits view (HostID c) g _ pending Hv Hg Hsend m) as (m' & Er & Hok & Hlim' & Hconn' & Hmsg); rewrite ?Hq; try done.
  { by apply empty_queue_ok. }
  rewrite Hq in Hmsg, Hlim'. change (messages (MkQueue (cfg_QueueLimits c) ∅ 0 0 0 0 0)) with (@nil Envelope) in Hmsg. rewrite app_nil_r in Hmsg.
  assert (is_Some (connection m')) as Hk by (by rewrite Hconn').
  set (l0 := MkLive m' view module (journal_dir (on_disk rt)) (durableSpool rt) (spool_dir (on_disk rt)) Receiving Waiting Listening [] []).
  assert (start_runner (FlushInterval c) true ((MkLive m view module (journal_dir (on_disk rt)) (durableSpool rt)
            (spool_dir (on_disk rt)) Receiving Waiting NoReceipts [] []) <| lv_manager := m' |>) = Ok l0) as Estart.
  { unfold start_runner. rewrite (validate_flush _ Hval). destruct Hk as [k Hk]. cbn. by rewrite Hk. }
  assert (length (messages (queue (lv_manager l0))) = size (Spool.entries (durableSpool rt))) as Hlen.
  { cbn [lv_manager l0]. by rewrite Hmsg, length_fmap, Hp, backlog_length. }
  assert (quiet_session l0) as Q0.
  { split; [done|done|done|done|exact Hok| |by split]. unfold outgoing, in_hand. cbn -[messages]. rewrite Hmsg.
    apply Forall_fmap. eapply Forall_impl; [exact Hsend|].
    intros e He. unfold current. change (lv_view l0) with view. rewrite Hv. apply (sendable_current m' _ _ _ _ He Hg). by rewrite Hlim'. }
  destruct (quiet_schedule body Hcalm l0 order Q0) as (Q1 & [K1 K2 K3] & Hdone & Hacc & Hempty); try done.
  { unfold to_do. cbn [lv_outbound l0 app]. by rewrite Hlen. }
  set (l1 := drive l0 body) in *.
  assert (lv_outbound l1 = Waiting /\ messages (queue (lv_manager l1)) = []) as [Ho1 Hm1].
  { unfold to_do in Hdone. apply app_nil in Hdone as [Hout Hn].
    destruct (quiet_outbound l1 Q1) as [->|[e E]]; [|by rewrite E in Hout]. split; [done|].
    by destruct (messages (queue (lv_manager l1))). }
  destruct (hang_up_ends l1 ends Hends Q1 Ho1) as (Hend & Hs3 & Ha3 & Hsp3 & Hd3 & Hmod3 & Hj3).
  assert (drive l0 (tn_actions env) = drive l1 ends) as Edrive.
  { rewrite Hact. unfold drive at 1. by rewrite foldl_app. }
  exists (lv_sent l1), (lv_spool l1), (lv_spool_dir l1). split; [|split; [|split]].
  - unfold run_session, replay. rewrite Ep, Er, Hcap, Estart, Edrive, Hend, Hs3, Ha3, Hsp3, Hd3, Hmod3, Hj3, Hacc, K1, K2. done.
  - unfold outgoing, in_hand in K3. rewrite Ho1, Hm1 in K3. cbn -[messages] in K3. rewrite app_nil_r in K3.
    by rewrite K3, Hmsg, Hp.
  - exact Hempty.
  - apply (qs_synced _ Q1).
Qed.

(** The messages a run sent *)
Definition sends (events : list event) : list Envelope :=
  omap (fun ev => match ev with Sent e => Some e | _ => None end) events.
Lemma sends_app l1 l2 : sends (l1 ++ l2) = sends l1 ++ sends l2.
Proof. apply omap_app. Qed.
Lemma sends_Sent l : sends (Sent <$> l) = l.
Proof. induction l as [|e l IH]; [done|]. cbn. by f_equal. Qed.
Lemma sends_none {A} (f : A -> event) l : (forall x e, f x <> Sent e) -> sends (f <$> l) = [].
Proof. intros H. induction l as [|x l IH]; [done|]. cbn. destruct (f x) eqn:E; try exact IH. by apply H in E. Qed.

(** C14: A session that is answered empties the spool.  Let the configuration and
    its queue limits be valid; the spool open, in step with its directory, and of
    the configuration's Host and message size; the backlog fit the queue of a
    session; and the session open.  Let the flush loop get a turn for every
    message, one ACCEPTED receipt arrive for each, in any order, and nothing
    fail before the connection ends ([peaceful]).  Then in whatever order sends
    and receipts interleave every message of the spool is sent exactly once,
    bound to the generation of the session, the spool is empty in memory and on
    disk, and the Agent goes on to its next session. *)
Theorem an_answered_session_empties_the_spool c rt env g m view module rs order :
  validate c = Ok tt -> limits_ok (cfg_QueueLimits c) ->
  Spool.in_sync (durableSpool rt) (spool_dir (on_disk rt)) -> Spool.closed (durableSpool rt) = false ->
  Spool.hostIdentity (durableSpool rt) = HostID c -> Spool.maxMessageBytes (durableSpool rt) = MaxMessageBytes (cfg_QueueLimits c) ->
  fits (cfg_QueueLimits c) (backlog (durableSpool rt)) -> order ≡ₚ backlog (durableSpool rt) -> Forall2 acknowledges rs order ->
  new_session c rt env = Ok (g, m, view, module) -> peaceful c rt env g rs ->
  exists events rt', turn c rt env = (events, rt', Again)
    /\ sends events ≡ₚ (fun e => BindSession e g) <$> backlog (durableSpool rt) /\ answers events = rs
    /\ Spool.entries (durableSpool rt') = ∅ /\ Spool.in_sync (durableSpool rt') (spool_dir (on_disk rt')).
Proof.
  intros Hval Hlim Hsync Hclosed Hhost Hmax Hfits Horder Hrs Hnew [[Hc1 Hc2] [k Hk] Hact Hcommit Hcap (body & ends & Hactions & Hcalm & Hends & Hsub & <-) Hwait].
  destruct (new_session_inv _ _ _ _ _ _ _ Hnew) as (_ & Hv & Hq & Hgen & Hg & Hh & Hconn & Hopening).
  assert (exists m1, Open m (Snapshot view) (tn_opened env) = (m1, Ok tt) /\ queue m1 = queue m /\ is_Some (connection m1))
    as (m1 & Ho & Hq1 & Hc1').
  { unfold Open, open_begin. rewrite Hconn, Hopening, Hk. cbn -[validateAuthority].
    assert (validateAuthority (Snapshot view) (hs_HostIdentity (handshake m)) (hs_SessionGeneration (handshake m)) = Ok tt) as ->.
    { apply validateAuthority_iff. by rewrite Hv, Hh, Hgen. }
    eexists. split; [done|]. split; [done|]. by eexists. }
  unfold turn. rewrite Hc1, Hnew, Ho. unfold activate_components. rewrite (until_error_all _ Hact).
  destruct (Ledger.CommitAccepted _ _ _ _) as [[[ledger d] tr] r]. cbn [snd] in Hcommit. rewrite Hcommit.
  match goal with |- context [run_session c env ?r g m1 view module] => set (rt1 := r) end.
  destruct (drained c env rt1 g m1 view module order body ends) as (sent & s & d' & Erun & Hp & He & Hd); try done;
    [by rewrite Hq1|].
  rewrite Erun, Hc2. unfold wait. cbn [attempt update]. 
  match goal with |- context [waitReconnect _ ?a _ _] => change a with 1 end. rewrite Hwait.
  eexists _, _. split; [done|]. split; [|split; [|by split]].
  - rewrite !sends_app, sends_Sent, (sends_none Answered), (sends_none (fun i => Activate i g)), (sends_none (fun i => Deactivate i g)) by done. cbn. by rewrite !app_nil_r.
  - rewrite !answers_app, answers_Answered, (answers_none Sent), (answers_none (fun i => Activate i g)), (answers_none (fun i => Deactivate i g))
      by (intros; discriminate). cbn. by rewrite app_nil_r.
Qed.

(** The backlog of [demo_runtime], sent and answered *)
Definition demo_body : list action :=
  [TakeMessage; TakeReceipt (Ok Spool.demo_receipt) None demo_os; SendMessage (Ok tt); TakeMessage].
Definition demo_ends : list action :=
  [StopFlushing Spool.EIO; Receive (Err Spool.EIO) demo_os demo_os; TakeReceipt (Err Spool.EIO) None demo_os].
Definition demo_answered : list action := demo_body ++ demo_ends.

Lemma demo_backlog_is : backlog Spool.demo_spool = [Spool.demo_m1].
Proof. unfold backlog, Spool.values, Spool.demo_spool. cbn [Spool.entries Spool.opened]. by rewrite map_to_list_singleton. Qed.

Lemma demo_limits_bounded : limits_ok (demo_limits 8).
Proof. unfold limits_ok. split_and!; try (vm_compute; done).
  repeat (apply Forall_cons_2; [vm_compute; discriminate|]). apply Forall_nil_2.
Qed.

Lemma demo_fits : fits (demo_limits 8) [Spool.demo_m1].
Proof.
  split; [|vm_compute; discriminate..]. intros s. unfold of_stream. cbn [List.filter].
  destruct (String.eqb_spec (Stream Spool.demo_m1) s) as [<-|Hne]; [vm_compute; discriminate|].
  change (msg_count []) with 0. unfold stream_limit. destruct (_ !! s) as [n|] eqn:E; [|done]. cbn.
  apply elem_of_list_to_map_2 in E. apply list_elem_of_fmap in E as (? & [= _ ->] & _). lia.
Qed.

Lemma an_answered_session_empties_the_spool_witness :
  exists events rt', turn (demo_config 8) (demo_runtime Spool.demo_spool Spool.demo_dir) (demo_turn demo_answered) = (events, rt', Again)
    /\ sends events ≡ₚ [BindSession Spool.demo_m1 1] /\ answers events = [Spool.demo_receipt]
    /\ Spool.entries (durableSpool rt') = ∅ /\ Spool.in_sync (durableSpool rt') (spool_dir (on_disk rt')).
Proof.
  assert (exists m view module, new_session (demo_config 8) (demo_runtime Spool.demo_spool Spool.demo_dir) (demo_turn demo_answered)
    = Ok (1, m, view, module)) as (m & view & module & E) by (eexists _, _, _; vm_compute; reflexivity).
  change [BindSession Spool.demo_m1 1] with ((fun e => BindSession e 1) <$> [Spool.demo_m1]).
  rewrite <- demo_backlog_is.
  apply (an_answered_session_empties_the_spool (demo_config 8) (demo_runtime Spool.demo_spool Spool.demo_dir)
    (demo_turn demo_answered) 1 m view module [Spool.demo_receipt] [Spool.demo_m1]);
    cbn [durableSpool demo_runtime]; rewrite ?demo_backlog_is.
  - vm_compute. reflexivity.
  - exact demo_limits_bounded.
  - exact Spool.demo_in_sync.
  - reflexivity.
  - reflexivity.
  - reflexivity.
  - exact demo_fits.
  - done.
  - constructor; [|constructor]. split; [|split; [discriminate|reflexivity]]. split_and!; reflexivity.
  - exact E.
  - split; [by split|by exists 7|by intros i|vm_compute; reflexivity|reflexivity| |vm_compute; reflexivity].
    exists demo_body, demo_ends. split; [reflexivity|]. split.
    { repeat (apply Forall_cons_2; [constructor; by intros c|]). apply Forall_nil_2. }
    split; [do 7 eexists; apply Permutation_swap|]. split; [|reflexivity].
    change (flush_actions _) with [TakeMessage; SendMessage (Ok tt)]. apply sublist_skip, sublist_cons, sublist_skip, sublist_cons, sublist_nil_l.
Defined.

End RuntimeDrain.
